(* ===== verification/_CoqProject ===== *)
-Q . S2P
Prelude.v
Protocol.v
Db.v
Witness.v
Store.v
StoreCredentials.v
StoreChallenges.v
StoreLifecycle.v
StoreBootstrap.v
StoreOutbox.v
StoreCt.v
StoreHistory.v
StoreInvariant.v
StoreSamples.v
StoreEffects.v
StoreCtFeed.v
StoreCleanup.v
StoreProperties.v
StoreWitnesses.v
StoreQuotas.v
Ingress.v
Gateway.v
GatewayTasks.v
GatewayProperties.v
GatewayWitnesses.v
ClientAddr.v
Dns.v
Cloudflare.v
CloudflareTrace.v
CloudflarePlan.v
CloudflareProperties.v
CloudflareSamples.v
IpText.v
Observer.v
DnsWorker.v
CloudflareRefinement.v
DnsWorkerProperties.v
ReceiptSigner.v
ControlApi.v
ControlLogic.v
ControlProperties.v
AdminClient.v
ControlClient.v
ControlLiveness.v
Sweeper.v
ControlWitnesses.v
Route53.v
Route53Refinement.v
Route53Samples.v
CtWorker.v
CtWorkerProperties.v
CtWorkerLiveness.v
WorkerWitnesses.v
BrokerClient.v
BrokerProperties.v
BrokerRelay.v
BrokerWitnesses.v
Operations.v
GatewayServer.v
DeployedSmoke.v
RelayCalls.v
SmokeProperties.v
System.v
SmokeWitnesses.v
Services.v
Fuzz.v
ControlHttp.v
FrontEnd.v
Grants.v
RoleEffects.v
Deployment.v
Packaging.v
SystemWitnesses.v
Transport.v
ProtocolTests.v
EdgeTests.v
CloudflareTests.v
DnsTests.v
ControlTests.v
UnitTests.v
