(* ===== verification/Prelude.v ===== *)
(** * A verification of bloom-relay

    bloom-relay lets a browser reach a Broker behind NAT without the relay
    seeing its traffic. The library models the relay's services, the clients
    that talk to them and the database they share, and proves what each
    promises and what they promise together. Paths below are under src/.

    ** The system

    - The _store_ (crates/bloom-relay-store) is the PostgreSQL database of
      installations, bearers, challenge sets, leases, DNS jobs and CT
      observations, with a _restore witness_ outside it (a local file and an
      S3 object) that refuses a database rolled back to a backup.
    - The _control API_ (crates/bloom-relay-control/src/main.rs) enrolls
      installations and serves signed requests of the Signer and bearer
      requests of the Broker. Its sweeper expires what lapsed.
    - The _DNS worker_ (dns_worker.rs) takes the jobs the store queues, changes
      the zone through a provider (crates/bloom-relay-dns: Cloudflare, Route 53
      or in memory) and observes the result at resolvers.
    - The _gateway_ (crates/bloom-relay) accepts browsers, reads the hostname
      of their ClientHello and joins them to the tunnel of its owner.
    - The _Broker client_ (crates/bloom-relay-client) holds that tunnel and
      calls the control API; the _administration client_
      (crates/bloom-relay-admin-client) is the Signer's.
    - The _CT worker_ (crates/bloom-relay-ct) follows a certificate
      transparency feed and posts alerts.
    - The _smoke test_ (tools/deployed-smoke) walks a deployed relay from
      enrollment to retirement with the two clients, and the fuzz targets
      (fuzz/) exercise the control decoder and the ClientHello reader.
    - The _packaging_ (packaging/) deploys them: systemd units and their
      environments, a database role per service, HAProxy in front of the API
      and the gateway, a Route 53 policy per DNS worker, and the hook that
      renews the control certificate.

    ** Files

    - [Prelude]: results, machine integers, bytes, decimal text, tactics and
      the lemmas the components share.
    - [Protocol]: crates/bloom-relay-protocol.
    - [Db]: the tables of migrations/ and the transaction monad [Tx].
      [Witness]: restore.rs and s3_witness.rs. [Store]: a transaction as a
      method ([run_tx]: roll back, or commit and acknowledge).
      [StoreCredentials], [StoreChallenges], [StoreLifecycle],
      [StoreBootstrap], [StoreOutbox] and [StoreCt]: the methods, one
      definition each, named [<method>_tx] where they are transactions.
    - [StoreHistory]: every store transaction as a [Request]; [reachable]
      databases. [StoreInvariant], [StoreEffects], [StoreCtFeed],
      [StoreCleanup], [StoreProperties], [StoreQuotas]: what holds over all
      histories.
    - [Ingress], [Gateway]: crates/bloom-relay/src/main.rs; [GatewayTasks],
      [GatewayProperties]: its tasks under interference. [GatewayServer]: the
      accept loop of its main, with the slots, the quota and the drain.
    - [Dns], [Cloudflare], [Route53], [Observer], [IpText], [DnsWorker]:
      crates/bloom-relay-dns, the address parser of the standard library, and
      the worker. [CloudflareTrace], [CloudflarePlan],
      [CloudflareProperties], [CloudflareRefinement], [Route53Refinement] and
      [DnsWorkerProperties] hold their theorems.
    - [ClientAddr], [ReceiptSigner], [ControlApi], [Sweeper]:
      crates/bloom-relay-control. [ControlLogic] and [ControlProperties]
      reason about the handlers. [ControlHttp]: its routes, extractors and
      answers around the handlers.
    - [AdminClient] and [BrokerClient]: the two clients. [ControlClient],
      [ControlLiveness], [BrokerProperties] and [BrokerRelay] compose them
      with the control API and the gateway.
    - [CtWorker], [CtWorkerProperties], [CtWorkerLiveness]: the CT worker.
    - [Operations]: the migrate and relocate tools and
      crates/bloom-relay-observe. [Services]: the start of the four services
      and the guard that watches the witness. [Transport]: the TLS agents of
      the clients.
    - [DeployedSmoke], [SmokeProperties]: tools/deployed-smoke, over
      [RelayCalls], the control API as the clients meet it. [Fuzz]: the fuzz
      targets.
    - [System]: each service as a history of the store, and all of them
      together.
    - [Grants]: packaging/postgres, the privileges the SQL of each store method
      needs and what a change of the database needs; [RoleEffects]: the
      services under their roles. [FrontEnd]: packaging/haproxy and the HTTP
      requests of the clients. [Deployment]: packaging/iam and
      packaging/renew-control-certificate.sh. [Packaging]: packaging/systemd
      and packaging/env, run through [Services].
    - [ProtocolTests], [EdgeTests], [CloudflareTests], [DnsTests],
      [ControlTests], [UnitTests]: the repository's inline unit tests, run on
      the model.
    - Files named [*Samples] and [*Witnesses] hold concrete instances of the
      parameters and evaluate the theorems on concrete runs.

    ** How the code is modelled

    State is passed explicitly. A store method is a function of the database
    and of the transaction's [now()]; an error rolls back. A service's handler
    is a computation in a small monad of its own ([GwM], [ApM] and the like).
    Wherever the source awaits, the environment of the run may let other
    processes change the shared state, make the call fail before or after its
    effect, or give any answer. Between two awaits a handler is atomic.
    Theorems about such handlers are rely-guarantee arguments: the others are
    only assumed to take the steps that the same files prove of every handler,
    or to run store requests.

    Integers are [Z] with the width and the overflow behaviour of the source
    written out: checked, saturating, wrapping or a [bigint] error. Times are
    microseconds or milliseconds, as in the source.

    Third-party code is an operation of a class: [Crypto], [Signing], [Serde],
    [Hex], [Base32], [S3], [CloudflareApi], [Route53Api], [UrlParser],
    [PemParser], [Axum], [Openssl]. What the theorems rely on is a class of laws next to it, such
    as [S3Laws] (conditional writes) or [Route53Laws] (atomic change batches).
    Each has an instance that satisfies it. [Provider] is the interface
    between the DNS worker and the providers.

    ** What the theorems show

    - Authority: a control API handler runs only the transactions its request
      authorizes; a signed request and a bootstrap challenge are accepted once;
      one bearer per scope authenticates and rotation or retirement is final; a
      refused request changes nothing but what it spent.
    - Durability: a rolled-back database is refused, the remote witness never
      goes down, and after an acknowledged change of the
      witnessed tables no service starts on a backup from before it.
    - Integrity of the database: every request keeps the invariant; quotas
      bound enrollment; queued jobs are never lost and removals follow
      publications.
    - Routing: whatever the interleaving, a browser gets a stream of its
      hostname's owner only, a ticket attaches once, and a superseded tunnel
      gets nothing; an OPEN of the gateway makes the client send the CONNECT
      the gateway accepts; bytes pass both ends unchanged.
    - DNS: the Cloudflare and Route 53 providers refine the in-memory one;
      foreign records are untouched; an issuance authorization is never added
      before the wildcard denial and names the installation's ACME account, at
      any request and after any failure; a
      completed job took effect and a worker only changes names it may.
    - CT: an alert is marked delivered only when the sink accepted it, and a
      tick of a healthy worker reports everything.
    - Progress: enrollment against a healthy relay succeeds, issuing a bearer
      succeeds, repeated sweeps clear any backlog, the gateway stops after a
      signal whatever its connections do, the waits of the smoke test end.
    - Load: the gateway never runs more connections than its slots, loses no
      slot, and starts no more browsers than the quota admits.
    - Parsing: decoding is independent of chunking (the assertion of the fuzz
      target, for every input), the PROXY header parser accepts exactly the
      encoder's output, signed bytes determine the claims.
    - The whole: however the services, the sweeper and the tools interleave
      and fail, the database moves by store requests at times that do not go
      back ([System]); a service leaves a database that its witness refuses; a
      smoke test that passes attests every step, and one that fails asks for
      the retirement of what it enrolled.
    - The HTTP surface: a request of a client passes the front end and the
      extractors unchanged while a server is up, and gets a 503 otherwise; every error answer is one of its route, and every
      response is a well-formed message of the protocol.
    - Deployment: the services never need more than their database roles
      allow, and the roles other than the API's cannot create or revoke
      authority; the Route 53 policies deny a worker nothing it does and confine
      its credentials; the renewal hook publishes only complete releases; the
      packaged services start and agree on placement, addresses and ports.
    - Conformance: every translated unit test is a lemma that evaluates it on
      the model, and the randomised ones are proved for every input they draw.

    ** Bounds and fuel

    Recursion is structural except for a few loops over text and buffers,
    whose fuel is the length of the input (each round consumes at least a byte;
    [decode_loop_fuel] for the control decoder) or the number of digits of the
    machine width. [Witness.attempts] has the source's own number of attempts.
    Service loops that never end in the source run over a list of events (the
    accept loop, the tunnel loops, the sweeps) or of waits ([ct_loop]), of any
    length: their theorems hold at every point of the endless run. The waits
    of the smoke test have 151 rounds, which the clock cannot exceed
    ([smoke_waits_end]).

    ** Not modelled

    - TLS, HTTP/1 and HTTP/2, TCP, DNS and JSON text: rustls, h2, ureq,
      hickory and serde. [ControlHttp] has the routing and the extraction of
      axum; elsewhere requests and answers arrive decoded.
    - PostgreSQL beyond what the statements rely on: isolation is that of
      serialized transactions. Grants are those on tables and columns; the
      grants on the database, the schema and the sequences (those of identity
      columns) are left out.
    - Sockets, the delivery of signals, logging and the metrics exporter: a
      connection, a signal and a failed bind are events or arguments of a run.
      The graceful shutdown of the control API's listener is axum-server's.
    - Of the tests that run a gateway with clients over TLS, the
      certificates, sockets and containers; assertions on request attributes
      that the model does not carry; and the integration tests in the tests/
      directories, which exercise PostgreSQL itself.
    - HAProxy, IAM, openssl and systemd beyond the documented behaviour the
      configurations rely on: timeouts, sandboxing options and the TLS between
      the front end and the services are left out.
    - build.rs and scripts/: they build and check a release archive. *)

From Stdlib Require Import Ascii String Strings.Byte.
From stdpp Require Import base strings list gmap sorting.

#[global] Open Scope Z_scope.

(** ** Results

    Rust's [Result<A, E>], error type first so that [result E] is a monad. *)
Inductive result (E A : Type) : Type :=
| Ok (a : A)
| Err (e : E).
Arguments Ok {E A} a.
Arguments Err {E A} e.

(** What a [timeout] gives. *)
Inductive Timed (A : Type) := Elapsed | InTime (a : A).
Arguments Elapsed {A}.
Arguments InTime {A} a.

#[global] Instance result_ret {E} : MRet (result E) := fun A a => Ok a.
#[global] Instance result_bind {E} : MBind (result E) :=
  fun A B f r => match r with Ok a => f a | Err e => Err e end.
#[global] Instance result_fmap {E} : FMap (result E) :=
  fun A B f r => match r with Ok a => Ok (f a) | Err e => Err e end.

#[global] Instance result_eq_dec {E A} `{EqDecision E, EqDecision A} : EqDecision (result E A).
Proof. solve_decision. Defined.

Section result.
Context {E A : Type}.

Definition is_ok (r : result E A) : bool :=
  match r with Ok _ => true | Err _ => false end.

Definition is_err (r : result E A) : bool := negb (is_ok r).

Definition map_err {F} (f : E -> F) (r : result E A) : result F A :=
  match r with Ok a => Ok a | Err e => Err (f e) end.

Definition ok_or (e : E) (o : option A) : result E A :=
  match o with Some a => Ok a | None => Err e end.

Definition result_ok (r : result E A) : option A :=
  match r with Ok a => Some a | Err _ => None end.

(** [if bad { return Err(e) }]. *)
Definition reject_if (bad : bool) (e : E) : result E unit :=
  if bad then Err e else Ok tt.
End result.

Lemma bind_ok {E A B} (r : result E A) (f : A -> result E B) b :
  r ≫= f = Ok b <-> exists a, r = Ok a /\ f a = Ok b.
Proof.
  split; [destruct r as [a|e]; cbn; [eauto | discriminate] |].
  intros (a & -> & Hf). exact Hf.
Qed.

Lemma Ok_inj {E A} (a b : A) : @Ok E A a = Ok b -> a = b.
Proof. congruence. Qed.

Lemma Some_inj' {A} (a b : A) : Some a = Some b -> a = b.
Proof. congruence. Qed.

Lemma pair_inj {A B} (a a' : A) (b b' : B) : (a, b) = (a', b') -> a = a' /\ b = b'.
Proof. intros [= -> ->]. done. Qed.

Lemma ok_or_ok {E A} (e : E) (o : option A) a : ok_or e o = Ok a <-> o = Some a.
Proof. destruct o; cbn; split; congruence. Qed.

Lemma reject_if_ok {E} b (e : E) u : reject_if b e = Ok u <-> b = false.
Proof. destruct b, u; cbn; split; congruence. Qed.

(** ** Bytes

    A [u8] is Stdlib's [byte]; a [String] or [&str] is a [string], whose
    characters are its UTF-8 bytes, and [str_bytes] is [str::as_bytes]. *)
#[global] Instance byte_eq_dec : EqDecision byte := Byte.byte_eq_dec.

Definition u8 (b : byte) : Z := Z.of_N (Byte.to_N b).

Definition byte_of_Z (z : Z) : byte :=
  default Byte.x00 (Byte.of_N (Z.to_N (z mod 256))).

Definition str_bytes (s : string) : list byte := list_byte_of_string s.

(** [str::len]: the number of bytes. *)
Definition str_len (s : string) : Z := Z.of_nat (String.length s).

Definition in_range (lo hi z : Z) : bool := (lo <=? z) && (z <=? hi).

Definition is_ascii_digit (b : byte) : bool := in_range 48 57 (u8 b).
Definition is_ascii_lowercase (b : byte) : bool := in_range 97 122 (u8 b).
Definition is_ascii_uppercase (b : byte) : bool := in_range 65 90 (u8 b).
Definition is_ascii_alphanumeric (b : byte) : bool :=
  is_ascii_digit b || is_ascii_lowercase b || is_ascii_uppercase b.
Definition is_ascii_hexdigit (b : byte) : bool :=
  is_ascii_digit b || in_range 97 102 (u8 b) || in_range 65 70 (u8 b).

(** [u8::to_ascii_lowercase]. *)
Definition to_ascii_lowercase (b : byte) : byte :=
  if is_ascii_uppercase b then byte_of_Z (u8 b + 32) else b.

(** [s.bytes().all(p)]. *)
Definition bytes_all (p : byte -> bool) (s : string) : bool := forallb p (str_bytes s).

Definition str_map (f : byte -> byte) (s : string) : string :=
  string_of_list_byte (f <$> str_bytes s).

Lemma u8_range b : 0 <= u8 b < 256.
Proof. unfold u8. pose proof (Byte.to_N_bounded b). lia. Qed.

Lemma byte_of_Z_u8 b : byte_of_Z (u8 b) = b.
Proof.
  unfold byte_of_Z. rewrite Z.mod_small by apply u8_range.
  unfold u8. by rewrite N2Z.id, Byte.of_to_N.
Qed.

Lemma u8_byte_of_Z z : 0 <= z < 256 -> u8 (byte_of_Z z) = z.
Proof.
  intros Hz. unfold byte_of_Z, u8. rewrite Z.mod_small by lia.
  destruct (Byte.of_N (Z.to_N z)) as [b|] eqn:Hb; cbn.
  - apply Byte.to_of_N in Hb. rewrite Hb. lia.
  - apply Byte.of_N_None_iff in Hb. lia.
Qed.

Lemma str_bytes_string l : str_bytes (string_of_list_byte l) = l.
Proof. apply list_byte_of_string_of_list_byte. Qed.

Lemma string_str_bytes s : string_of_list_byte (str_bytes s) = s.
Proof. apply string_of_list_byte_of_string. Qed.

Lemma str_bytes_inj s t : str_bytes s = str_bytes t -> s = t.
Proof. intros H. by rewrite <-(string_str_bytes s), H, string_str_bytes. Qed.

Lemma str_bytes_app s t : str_bytes (s +:+ t) = str_bytes s ++ str_bytes t.
Proof.
  unfold str_bytes, list_byte_of_string.
  rewrite <-map_app. f_equal. induction s as [|a s IH]; simpl; [done | by rewrite IH].
Qed.

Lemma str_len_bytes s : str_len s = Z.of_nat (List.length (str_bytes s)).
Proof.
  unfold str_len, str_bytes, list_byte_of_string. f_equal.
  rewrite length_map. induction s; cbn; congruence.
Qed.

Lemma str_len_app s t : str_len (s +:+ t) = str_len s + str_len t.
Proof. rewrite !str_len_bytes, str_bytes_app, length_app. lia. Qed.

Lemma str_app_inj_l p s t : p +:+ s = p +:+ t -> s = t.
Proof.
  intros H. apply str_bytes_inj. apply (f_equal str_bytes) in H.
  rewrite !str_bytes_app in H. by apply app_inv_head in H.
Qed.

Lemma str_app_inj_r q s t : s +:+ q = t +:+ q -> s = t.
Proof.
  intros H. apply str_bytes_inj. apply (f_equal str_bytes) in H.
  rewrite !str_bytes_app in H. by apply app_inv_tail in H.
Qed.

Lemma bytes_all_app p s t : bytes_all p (s +:+ t) = bytes_all p s && bytes_all p t.
Proof. unfold bytes_all. by rewrite str_bytes_app, forallb_app. Qed.

(** ** Prefixes and suffixes: [str::strip_prefix] and [str::strip_suffix]. *)
Section strip.
Context {A} `{EqDecision A}.

Fixpoint list_strip_prefix (p l : list A) : option (list A) :=
  match p, l with
  | [], _ => Some l
  | x :: p', y :: l' => if decide (x = y) then list_strip_prefix p' l' else None
  | _ :: _, [] => None
  end.

Definition list_strip_suffix (q l : list A) : option (list A) :=
  reverse <$> list_strip_prefix (reverse q) (reverse l).

Lemma list_strip_prefix_Some p l t : list_strip_prefix p l = Some t <-> l = p ++ t.
Proof.
  revert l. induction p as [|x p IH]; intros l; cbn; [naive_solver|].
  destruct l as [|y l]; cbn; [done|].
  case_decide; [subst; rewrite IH | ]; split; congruence.
Qed.

Lemma list_strip_suffix_Some q l t : list_strip_suffix q l = Some t <-> l = t ++ q.
Proof.
  unfold list_strip_suffix. rewrite fmap_Some. split.
  - intros (r & Hr & ->). apply list_strip_prefix_Some in Hr.
    by rewrite <-(reverse_involutive l), Hr, reverse_app, reverse_involutive.
  - intros ->. exists (reverse t). rewrite reverse_involutive. split; [|done].
    apply list_strip_prefix_Some. by rewrite reverse_app.
Qed.
End strip.

Definition strip_prefix (p s : string) : option string :=
  string_of_list_byte <$> list_strip_prefix (str_bytes p) (str_bytes s).
Definition strip_suffix (q s : string) : option string :=
  string_of_list_byte <$> list_strip_suffix (str_bytes q) (str_bytes s).
Definition starts_with (p s : string) : bool := bool_decide (is_Some (strip_prefix p s)).

Lemma strip_prefix_Some p s t : strip_prefix p s = Some t <-> s = p +:+ t.
Proof.
  unfold strip_prefix. rewrite fmap_Some. split.
  - intros (l & Hl & ->). apply list_strip_prefix_Some in Hl.
    apply str_bytes_inj. by rewrite str_bytes_app, str_bytes_string.
  - intros ->. exists (str_bytes t). rewrite string_str_bytes. split; [|done].
    apply list_strip_prefix_Some. apply str_bytes_app.
Qed.

Lemma strip_suffix_Some q s t : strip_suffix q s = Some t <-> s = t +:+ q.
Proof.
  unfold strip_suffix. rewrite fmap_Some. split.
  - intros (l & Hl & ->). apply list_strip_suffix_Some in Hl.
    apply str_bytes_inj. by rewrite str_bytes_app, str_bytes_string.
  - intros ->. exists (str_bytes t). rewrite string_str_bytes. split; [|done].
    apply list_strip_suffix_Some. apply str_bytes_app.
Qed.

Lemma starts_with_true p s : starts_with p s = true <-> exists t, s = p +:+ t.
Proof.
  unfold starts_with. rewrite bool_decide_eq_true. split.
  - intros [t Ht]. exists t. by apply strip_prefix_Some.
  - intros [t Ht]. exists t. by apply strip_prefix_Some.
Qed.

(** [str::trim_end_matches] for a set of bytes, on the byte list. *)
Definition list_trim_end (p : byte -> bool) (l : list byte) : list byte :=
  reverse ((fix drop (l : list byte) : list byte :=
     match l with
     | [] => []
     | b :: l' => if p b then drop l' else l
     end) (reverse l)).

(** [str::split] on one byte: the pieces between separators. *)
Fixpoint split_on (sep : byte) (l : list byte) : list (list byte) :=
  match l with
  | [] => [[]]
  | b :: l' =>
      if decide (b = sep) then [] :: split_on sep l'
      else match split_on sep l' with
           | [] => [[b]]
           | piece :: rest => (b :: piece) :: rest
           end
  end.

(** [env::var]: absent, not Unicode, or a value. *)
Inductive EnvVar := NotPresent | NotUnicode | Value (s : string).
(** [env::var(name).ok()]. *)
Definition env_value (var : EnvVar) : option string := match var with Value s => Some s | _ => None end.

(** A file of a secret as its metadata and [read_to_string] show it; no
    content is content that is unreadable or not UTF-8. *)
Record SecretFile := { sf_is_file : bool; sf_len : Z; sf_mode : Z; sf_content : option string }.

(** ** Machine integers

    [u64], [i64], [i32] and [u32] values are [Z]s; casts wrap as [as] does. *)
Definition u64_max : Z := 2 ^ 64 - 1.
Definition i64_max : Z := 2 ^ 63 - 1.
Definition i32_max : Z := 2 ^ 31 - 1.

Definition is_u64 (z : Z) : Prop := 0 <= z <= u64_max.
Definition u64_saturating_add (a b : Z) : Z := Z.min (a + b) u64_max.
Definition u64_saturating_sub (a b : Z) : Z := Z.max (a - b) 0.

(** [x as i64] for [x : u64], [x as u64] for [x : i64], [x as i32] for [x : u32]. *)
Definition u64_as_i64 (z : Z) : Z := (z + 2 ^ 63) mod 2 ^ 64 - 2 ^ 63.
Definition i64_as_u64 (z : Z) : Z := z mod 2 ^ 64.
Definition u32_as_i32 (z : Z) : Z := (z + 2 ^ 31) mod 2 ^ 32 - 2 ^ 31.

Lemma i64_as_u64_id z : 0 <= z <= i64_max -> i64_as_u64 z = z.
Proof. unfold i64_max, i64_as_u64. intros H. apply Z.mod_small. lia. Qed.

Lemma u64_as_i64_id z : 0 <= z <= i64_max -> u64_as_i64 z = z.
Proof.
  unfold i64_max, u64_as_i64. intros H. rewrite Z.mod_small; lia.
Qed.

Lemma i64_u64_roundtrip z : - 2 ^ 63 <= z <= i64_max -> u64_as_i64 (i64_as_u64 z) = z.
Proof.
  unfold i64_max, u64_as_i64, i64_as_u64. intros H.
  destruct (Z.lt_ge_cases z 0).
  - replace (z mod 2 ^ 64) with (z + 2 ^ 64)
      by (apply (Z.mod_unique_pos _ _ (-1)); lia).
    replace ((z + 2 ^ 64 + 2 ^ 63) mod 2 ^ 64) with (z + 2 ^ 63)
      by (apply (Z.mod_unique_pos _ _ 1); lia). lia.
  - rewrite (Z.mod_small z) by lia. rewrite Z.mod_small; lia.
Qed.

(** Big-endian bytes of an unsigned value: [to_be_bytes] at [n] bytes. *)
Fixpoint be_bytes (n : nat) (z : Z) : list byte :=
  match n with
  | O => []
  | S n' => be_bytes n' (z / 256) ++ [byte_of_Z z]
  end.

Lemma length_be_bytes n z : List.length (be_bytes n z) = n.
Proof.
  revert z. induction n as [|n IH]; intros z; cbn; [done|].
  rewrite length_app, IH. cbn. lia.
Qed.

Lemma byte_of_Z_mod_inj a b : byte_of_Z a = byte_of_Z b -> a mod 256 = b mod 256.
Proof.
  intros H. apply (f_equal u8) in H. unfold byte_of_Z in H.
  rewrite <-(Z.mod_mod a), <-(Z.mod_mod b) in H by lia. fold (byte_of_Z (a mod 256)) in H.
  fold (byte_of_Z (b mod 256)) in H.
  by rewrite !u8_byte_of_Z in H by (apply Z.mod_pos_bound; lia).
Qed.

Lemma be_bytes_inj n a b :
  0 <= a < 256 ^ Z.of_nat n -> 0 <= b < 256 ^ Z.of_nat n ->
  be_bytes n a = be_bytes n b -> a = b.
Proof.
  revert a b. induction n as [|n IH]; intros a b Ha Hb; [cbn in *; lia|].
  rewrite Nat2Z.inj_succ, Z.pow_succ_r in Ha, Hb by lia.
  cbn. intros [Hq Hr]%app_inj_2; [|done]. injection Hr as Hr%byte_of_Z_mod_inj.
  apply IH in Hq; [|split; [apply Z.div_pos | apply Z.div_lt_upper_bound]; lia..].
  rewrite (Z.div_mod a 256), (Z.div_mod b 256) by lia. congruence.
Qed.

(** ** Hexadecimal: [format!("{byte:02x}")] and [hex::encode]. *)
Definition hex_digit (n : Z) : byte := byte_of_Z (if n <? 10 then 48 + n else 87 + n).

Definition hex_byte (b : byte) : list byte := [hex_digit (u8 b / 16); hex_digit (u8 b mod 16)].

Definition hex_encode (l : list byte) : string := string_of_list_byte (l ≫= hex_byte).

Definition is_lower_hex (b : byte) : bool := is_ascii_digit b || in_range 97 102 (u8 b).

Lemma hex_digit_lower n : 0 <= n < 16 -> is_lower_hex (hex_digit n) = true.
Proof.
  intros H. assert (n ∈ seqZ 0 16) as Hn by (apply elem_of_seqZ; lia).
  clear H. revert n Hn. apply Forall_forall. by repeat constructor.
Qed.

Lemma hex_digit_inj a b : 0 <= a < 16 -> 0 <= b < 16 -> hex_digit a = hex_digit b -> a = b.
Proof.
  unfold hex_digit. intros Ha Hb H. apply (f_equal u8) in H.
  rewrite !u8_byte_of_Z in H; repeat case_match; lia.
Qed.

Lemma hex_byte_inj a b : hex_byte a = hex_byte b -> a = b.
Proof.
  pose proof (u8_range a). pose proof (u8_range b).
  intros H1. injection H1 as Hq Hr.
  apply hex_digit_inj in Hq; [|split; [apply Z.div_pos | apply Z.div_lt_upper_bound]; lia..].
  apply hex_digit_inj in Hr; [|apply Z.mod_pos_bound; lia..].
  rewrite <-(byte_of_Z_u8 a), <-(byte_of_Z_u8 b). f_equal.
  rewrite (Z.div_mod (u8 a) 16), (Z.div_mod (u8 b) 16) by lia. congruence.
Qed.

Lemma hex_encode_inj l k : hex_encode l = hex_encode k -> l = k.
Proof.
  unfold hex_encode. intros H. apply (f_equal str_bytes) in H. rewrite !str_bytes_string in H.
  revert k H. induction l as [|a l IH]; intros [|b k] H; [done|discriminate..|].
  rewrite !bind_cons in H.
  apply app_inj_1 in H as [Hb Ht]; [|done]. f_equal; [by apply hex_byte_inj | by apply IH].
Qed.

Lemma length_hex_encode l : str_len (hex_encode l) = 2 * Z.of_nat (List.length l).
Proof.
  unfold hex_encode. rewrite str_len_bytes, str_bytes_string.
  induction l as [|b l IH]; [done|]. rewrite bind_cons, length_app. cbn [List.length hex_byte] in *. lia.
Qed.

(** ** Decimal: [format!("{n}")] and [str::parse::<u64>]. *)
Fixpoint dec_digits (fuel : nat) (n : Z) (acc : list byte) : list byte :=
  match fuel with
  | O => acc
  | S fuel' =>
      let acc' := byte_of_Z (48 + n mod 10) :: acc in
      if n <? 10 then acc' else dec_digits fuel' (n / 10) acc'
  end.

(** A [u64] has at most 20 decimal digits. *)
Definition u64_to_string (n : Z) : string := string_of_list_byte (dec_digits 20 n []).

(** The digit loop of [u64::from_str]: [checked_mul] then [checked_add]. *)
Fixpoint parse_digits (acc : Z) (l : list byte) : option Z :=
  match l with
  | [] => Some acc
  | b :: l' =>
      if is_ascii_digit b then
        let acc' := acc * 10 + (u8 b - 48) in
        if acc' <=? u64_max then parse_digits acc' l' else None
      else None
  end.

(** [u64::from_str]: empty input and a lone sign fail, one leading [+] is allowed. *)
Definition parse_u64 (l : list byte) : option Z :=
  match l with
  | [] => None
  | b :: l' =>
      if decide (b = Byte.x2b) then
        match l' with [] => None | _ => parse_digits 0 l' end
      else parse_digits 0 l
  end.

Lemma parse_digits_app l1 l2 acc :
  parse_digits acc (l1 ++ l2) = (a ← parse_digits acc l1; parse_digits a l2).
Proof.
  revert acc. induction l1 as [|b l1 IH]; intros acc; cbn; [done|].
  destruct (is_ascii_digit b); [|done]. destruct (_ <=? u64_max); [apply IH | done].
Qed.

Lemma dec_digits_app fuel n acc : dec_digits fuel n acc = dec_digits fuel n [] ++ acc.
Proof.
  revert n acc. induction fuel as [|fuel IH]; intros n acc; cbn; [done|].
  case_match; [done|]. rewrite (IH _ (_ :: acc)), (IH _ [_]). by rewrite <-app_assoc.
Qed.

Lemma u8_digit d : 0 <= d < 10 -> u8 (byte_of_Z (48 + d)) = 48 + d.
Proof. intros. apply u8_byte_of_Z. lia. Qed.

Lemma parse_dec_digits fuel n :
  0 <= n <= u64_max -> n < 10 ^ Z.of_nat fuel -> parse_digits 0 (dec_digits fuel n []) = Some n.
Proof.
  revert n. induction fuel as [|fuel IH]; intros n Hn Hf.
  { cbn in Hf. assert (n = 0) as -> by lia. done. }
  pose proof (Z.mod_pos_bound n 10 ltac:(lia)).
  cbn [dec_digits]. case_match eqn:Hlt.
  - apply Z.ltb_lt in Hlt. rewrite Z.mod_small by lia. cbn [parse_digits].
    unfold is_ascii_digit, in_range. rewrite u8_digit by lia.
    rewrite !(proj2 (Z.leb_le _ _)) by lia. f_equal. lia.
  - apply Z.ltb_ge in Hlt. rewrite dec_digits_app, parse_digits_app.
    rewrite IH; [|split; [apply Z.div_pos; lia | apply Z.div_le_upper_bound; lia]|].
    + cbn. unfold is_ascii_digit, in_range. rewrite u8_digit by lia.
      pose proof (Z.div_mod n 10). rewrite !(proj2 (Z.leb_le _ _)) by lia. f_equal. lia.
    + apply Z.div_lt_upper_bound; [lia|].
      rewrite Nat2Z.inj_succ, Z.pow_succ_r in Hf; lia.
Qed.

Lemma dec_digits_digit fuel n b :
  0 <= n -> b ∈ dec_digits fuel n [] -> is_ascii_digit b = true.
Proof.
  revert n. induction fuel as [|fuel IH]; intros n Hn; cbn; [by intros ?%not_elem_of_nil|].
  assert (is_ascii_digit (byte_of_Z (48 + n mod 10)) = true) as Hd.
  { pose proof (Z.mod_pos_bound n 10 ltac:(lia)). unfold is_ascii_digit, in_range.
    rewrite u8_digit by lia. rewrite !(proj2 (Z.leb_le _ _)) by lia. done. }
  case_match; [by intros ->%list_elem_of_singleton|].
  rewrite dec_digits_app, elem_of_app, list_elem_of_singleton. intros [Hb | ->]; [|done].
  apply (IH (n / 10)); [apply Z.div_pos; lia | done].
Qed.

Lemma dec_digits_nonempty fuel n : (0 < fuel)%nat -> dec_digits fuel n [] <> [].
Proof.
  destruct fuel; [lia|]. intros _. cbn. case_match; [done|]. rewrite dec_digits_app.
  by destruct (dec_digits _ _ _).
Qed.

(** Printing a [u64] and parsing it back is the identity. *)
Lemma parse_u64_to_string n : is_u64 n -> parse_u64 (str_bytes (u64_to_string n)) = Some n.
Proof.
  intros Hn. unfold u64_to_string. rewrite str_bytes_string.
  pose proof (dec_digits_nonempty 20 n ltac:(lia)) as Hne.
  destruct (dec_digits 20 n []) as [|b l] eqn:Hd; [done|]. unfold parse_u64.
  rewrite decide_False.
  - rewrite <-Hd. apply parse_dec_digits; [exact Hn|]. unfold is_u64, u64_max in Hn. cbn. lia.
  - intros ->. assert (is_ascii_digit Byte.x2b = true) as H; [|done].
    apply (dec_digits_digit 20 n); [apply Hn | rewrite Hd; by left].
Qed.

(** ** JSON values: the part of [serde_json::Value] the code inspects. *)
#[warnings="-register-all"]
Inductive json : Type :=
| JNull
| JBool (b : bool)
| JNum (n : Z)
| JStr (s : string)
| JArr (items : list json)
| JObj (fields : list (string * json)).

(** [value["key"]]: [Null] when the key is absent or the value is not an object. *)
Definition jget (key : string) (v : json) : json :=
  match v with
  | JObj fields =>
      default JNull (snd <$> List.find (fun kv => bool_decide (kv.1 = key)) fields)
  | _ => JNull
  end.

Definition as_u64 (v : json) : option Z :=
  match v with
  | JNum n => if in_range 0 u64_max n then Some n else None
  | _ => None
  end.

Definition as_str (v : json) : option string :=
  match v with JStr s => Some s | _ => None end.

(** Constructor injectivity stated on variables: the printed values inside
    the documents of the code are never unfolded to use it. *)
Lemma jnum_inj m n : JNum m = JNum n -> m = n.
Proof. congruence. Qed.
Lemma jstr_inj s t : JStr s = JStr t -> s = t.
Proof. congruence. Qed.
Lemma jobj_cons_inj k v w l m : JObj ((k, v) :: l) = JObj ((k, w) :: m) -> v = w /\ JObj l = JObj m.
Proof. intros H. injection H as <- <-. done. Qed.

Section json_ind.
Context (P : json -> Prop).
Context (Pnull : P JNull) (Pbool : forall b, P (JBool b)) (Pnum : forall n, P (JNum n))
  (Pstr : forall s, P (JStr s)) (Parr : forall l, Forall P l -> P (JArr l))
  (Pobj : forall fs, Forall (fun kv => P kv.2) fs -> P (JObj fs)).

Fixpoint json_ind' (v : json) : P v :=
  match v with
  | JNull => Pnull
  | JBool b => Pbool b
  | JNum n => Pnum n
  | JStr s => Pstr s
  | JArr l => Parr l ((fix go l : Forall P l :=
      match l with [] => Forall_nil_2 P | v :: l' => Forall_cons_2 P v l' (json_ind' v) (go l') end) l)
  | JObj fs => Pobj fs ((fix go fs : Forall (fun kv => P kv.2) fs :=
      match fs with
      | [] => Forall_nil_2 _
      | kv :: fs' => Forall_cons_2 (fun kv => P kv.2) kv fs' (json_ind' kv.2) (go fs')
      end) fs)
  end.
End json_ind.

(** An injective image of [json] in a countable type, for decidable equality. *)
Fixpoint json_tree (v : json) : gen_tree (string + Z) :=
  match v with
  | JNull => GenNode 0 []
  | JBool b => GenNode (if b then 1 else 2) []
  | JNum n => GenLeaf (inr n)
  | JStr s => GenLeaf (inl s)
  | JArr l => GenNode 3 (map json_tree l)
  | JObj fs => GenNode 4 (map (fun kv => GenNode 5 [GenLeaf (inl kv.1); json_tree kv.2]) fs)
  end.

#[global] Instance json_tree_inj : Inj (=) (=) json_tree.
Proof.
  intros v. induction v as [|b|n|s|l IH|fs IH] using json_ind'; intros w Hw;
    destruct w as [|b'|n'|s'|l'|fs']; cbn in Hw; try congruence;
    try (destruct b; congruence); try (destruct b'; congruence).
  - destruct b, b'; congruence.
  - f_equal. injection Hw as Hw. revert l' Hw.
    induction IH as [|v l Hv _ IHl]; intros [|v' l'] Hw; cbn in Hw; try done.
    injection Hw as Hh Ht. f_equal; [by apply Hv | by apply IHl].
  - f_equal. injection Hw as Hw. revert fs' Hw.
    induction IH as [|[k v] fs Hv _ IHl]; intros [|[k' v'] fs'] Hw; cbn in Hw; try done.
    injection Hw as Hk Hh Ht. f_equal; [f_equal; [done | by apply Hv] | by apply IHl].
Qed.

#[global] Instance json_eq_dec : EqDecision json.
Proof. intros v w. destruct (decide (json_tree v = json_tree w)) as [H|H];
  [left; by apply (inj json_tree) | right; congruence]. Defined.

(** ** Automation *)

(** Takes apart a successful computation: monadic binds, [ok_or], guards and
    the matches and conditionals on its way. *)
Ltac inv_ok_step :=
  match goal with
  | H : ?x = ?x |- _ => clear H
  | H : Err _ = Ok _ |- _ => discriminate H
  | H : Ok _ = Err _ |- _ => discriminate H
  | H : Ok _ = Ok _ |- _ => apply Ok_inj in H
  | H : None = Some _ |- _ => discriminate H
  | H : Some _ = None |- _ => discriminate H
  | H : Some _ = Some _ |- _ => apply Some_inj' in H
  | H : (_, _) = (_, _) |- _ => apply pair_inj in H as [?H ?H]
  | H : mbind _ _ = Ok _ |- _ =>
      apply bind_ok in H; let x := fresh "x" in let Hx := fresh "Hx" in
      destruct H as (x & Hx & H)
  | H : ok_or _ _ = Ok _ |- _ => apply ok_or_ok in H
  | H : reject_if _ _ = Ok _ |- _ => apply reject_if_ok in H
  | H : (if ?b then _ else _) = Ok _ |- _ =>
      let Hb := fresh "Hb" in destruct b eqn:Hb
  | H : match ?x with _ => _ end = Ok _ |- _ =>
      let Hm := fresh "Hm" in destruct x eqn:Hm
  end.
Ltac inv_ok := repeat (inv_ok_step; try subst).

(** Boolean conditions of the source to propositions. *)
Ltac to_prop :=
  repeat match goal with
  | H : _ && _ = true |- _ => apply andb_true_iff in H as [? H]
  | H : _ || _ = false |- _ => apply orb_false_iff in H as [? H]
  | H : negb _ = true |- _ => apply negb_true_iff in H
  | H : negb _ = false |- _ => apply negb_false_iff in H
  | H : bool_decide _ = true |- _ => apply bool_decide_eq_true in H
  | H : bool_decide _ = false |- _ => apply bool_decide_eq_false in H
  | H : (_ <=? _) = true |- _ => apply Z.leb_le in H
  | H : (_ <=? _) = false |- _ => apply Z.leb_gt in H
  | H : (_ <? _) = true |- _ => apply Z.ltb_lt in H
  | H : (_ <? _) = false |- _ => apply Z.ltb_ge in H
  | H : (_ =? _) = true |- _ => apply Z.eqb_eq in H
  | H : (_ =? _) = false |- _ => apply Z.eqb_neq in H
  end.

Create HintDb relay discriminated.

Lemma in_range_true lo hi z : in_range lo hi z = true <-> lo <= z <= hi.
Proof. unfold in_range. rewrite andb_true_iff, !Z.leb_le. done. Qed.

Lemma in_range_false lo hi z : in_range lo hi z = false <-> z < lo \/ hi < z.
Proof. unfold in_range. rewrite andb_false_iff, !Z.leb_gt. done. Qed.
