(* ===== verification/Protocol.v ===== *)
(** * Wire protocol: crates/bloom-relay-protocol/src/lib.rs

    The versioned wire types, the identifier and hostname validators, the
    signed control claims, allocation receipts and the newline-delimited
    control decoder. Cryptography, base64, JSON canonicalization and JSON
    parsing are library code: they are the operations of the [Crypto] and
    [Serde] classes, and what the theorems need of them is a named class of
    laws. *)

From Stdlib Require Import Ascii String Strings.Byte.
From stdpp Require Import base strings list gmap.
From S2P Require Import Prelude.

(** ** Limits *)
Definition WIRE_VERSION : Z := 1.
Definition MAX_CONTROL_BODY : Z := 16 * 1024.
Definition MAX_CLIENT_HELLO : Z := 64 * 1024.
Definition MAX_INSTALLATION_STREAMS : Z := 128.
Definition MAX_GATEWAY_STREAMS : Z := 10000.
Definition BUFFER_PER_DIRECTION : Z := 64 * 1024.
Definition BUFFER_BUDGET : Z := 256 * 1024 * 1024.
Definition TRUSTED_RESPONSE_CLOCK_SKEW_MS : Z := 5000.
Definition MAX_ACME_ACCOUNT_URI_LEN : Z := 200.
Definition CHALLENGE_VALUE_LIFETIME_MS : Z := 5 * 60 * 1000.
Definition MAX_LIVE_CHALLENGE_VALUES : Z := 2.

Definition ACME_PRODUCTION_ACCOUNT_PREFIX : string :=
  "https://acme-v02.api.letsencrypt.org/acme/acct/".
Definition ACME_STAGING_ACCOUNT_PREFIX : string :=
  "https://acme-staging-v02.api.letsencrypt.org/acme/acct/".

(** ** Errors *)
Inductive ProtocolError :=
| IncompatibleVersion
| InvalidEncoding
| ProtoUnauthorized
| Expired
| TooLarge
| InvalidSignature
| InvalidHostname
| InvalidAcmeEnvironment
| InvalidAcmeAccountUri.

#[global] Instance ProtocolError_eq_dec : EqDecision ProtocolError.
Proof. solve_decision. Defined.

Inductive ErrorCode :=
| CodeInvalidRequest
| CodeUnauthorized
| CodeConflict
| CodeExpiredOrReplayed
| CodeQuotaExceeded
| CodeDependencyUnavailable
| CodeInternal
| CodeIncompatibleVersion.

#[global] Instance ErrorCode_eq_dec : EqDecision ErrorCode.
Proof. solve_decision. Defined.

(** ** ACME accounts *)
Inductive AcmeEnvironment := Production | Staging.

#[global] Instance AcmeEnvironment_eq_dec : EqDecision AcmeEnvironment.
Proof. solve_decision. Defined.

Definition account_uri_prefix (env : AcmeEnvironment) : string :=
  match env with
  | Production => ACME_PRODUCTION_ACCOUNT_PREFIX
  | Staging => ACME_STAGING_ACCOUNT_PREFIX
  end.

Definition validate_account_uri (env : AcmeEnvironment) (account_uri : string) :
    result ProtocolError unit :=
  if MAX_ACME_ACCOUNT_URI_LEN <? str_len account_uri then Err InvalidAcmeAccountUri
  else
    match strip_prefix (account_uri_prefix env) account_uri with
    | None => Err InvalidAcmeAccountUri
    | Some account_id =>
        if bool_decide (account_id = "") || negb (bytes_all is_ascii_digit account_id)
        then Err InvalidAcmeAccountUri
        else Ok tt
    end.

(** [AcmeEnvironment::from_str]. *)
Definition acme_from_str (value : string) : result ProtocolError AcmeEnvironment :=
  if bool_decide (value = "production") then Ok Production
  else if bool_decide (value = "staging") then Ok Staging
  else Err InvalidAcmeEnvironment.

(** The [for] loop over the two environments returns at the first that accepts. *)
Definition validate_acme_account_uri (account_uri : string) :
    result ProtocolError AcmeEnvironment :=
  let fix try_each (envs : list AcmeEnvironment) :=
    match envs with
    | [] => Err InvalidAcmeAccountUri
    | env :: rest => if is_ok (validate_account_uri env account_uri) then Ok env else try_each rest
    end in
  try_each [Production; Staging].

(** ** Names and challenge values *)
Definition HOSTNAME_SUFFIX : string := ".relay.bloom.directory".

Definition validate_hostname (hostname : string) : result ProtocolError unit :=
  match strip_suffix HOSTNAME_SUFFIX hostname with
  | None => Err InvalidHostname
  | Some label =>
      if negb (str_len label =? 26)
         || negb (bytes_all (fun b => is_ascii_lowercase b || is_ascii_digit b) label)
      then Err InvalidHostname
      else Ok tt
  end.

Definition is_token_byte (b : byte) : bool :=
  is_ascii_alphanumeric b || bool_decide (b = Byte.x2d) || bool_decide (b = Byte.x5f).

Definition validate_challenge_value (value : string) : result ProtocolError unit :=
  if (str_len value =? 43) && bytes_all is_token_byte value then Ok tt else Err InvalidEncoding.

(** ** Identifiers: a UUID is its 128-bit value; the nil UUID is 0. *)
Abbreviation Uuid := N (only parsing).
Definition uuid_nil : Uuid := 0%N.
Definition uuid_wf (u : Uuid) : Prop := (u < 2 ^ 128)%N.
Definition uuid_bytes (u : Uuid) : list byte := be_bytes 16 (Z.of_N u).

(** [Uuid::to_string]: 32 lowercase hex digits, hyphenated 8-4-4-4-12. *)
Definition uuid_to_string (u : Uuid) : string :=
  let h := str_bytes (hex_encode (uuid_bytes u)) in
  string_of_list_byte
    (take 8 h ++ [Byte.x2d] ++ take 4 (drop 8 h) ++ [Byte.x2d] ++ take 4 (drop 12 h)
     ++ [Byte.x2d] ++ take 4 (drop 16 h) ++ [Byte.x2d] ++ drop 20 h).

(** ** Authorities *)
Inductive Scope := SurfaceAdmin | ScopeTunnel | ScopeDnsChallenge.

Inductive Action :=
| Enroll
| IssueCredential
| RegisterAcmeAccount
| InstallationStatus
| RetireInstallation.

Inductive AllocationState := PendingDns | DnsReady | Retired.

#[global] Instance Scope_eq_dec : EqDecision Scope.
Proof. solve_decision. Defined.
#[global] Instance Action_eq_dec : EqDecision Action.
Proof. solve_decision. Defined.
#[global] Instance AllocationState_eq_dec : EqDecision AllocationState.
Proof. solve_decision. Defined.

(** The serialized names ([serde(rename_all = "snake_case")]). *)
Definition scope_name (s : Scope) : string :=
  match s with
  | SurfaceAdmin => "surface_admin"
  | ScopeTunnel => "tunnel"
  | ScopeDnsChallenge => "dns_challenge"
  end.

Definition action_name (a : Action) : string :=
  match a with
  | Enroll => "enroll"
  | IssueCredential => "issue_credential"
  | RegisterAcmeAccount => "register_acme_account"
  | InstallationStatus => "installation_status"
  | RetireInstallation => "retire_installation"
  end.

Definition state_name (s : AllocationState) : string :=
  match s with
  | PendingDns => "pending_dns"
  | DnsReady => "dns_ready"
  | Retired => "retired"
  end.

Record AuthClaims := {
  c_version : Z;
  c_installation_id : Uuid;
  c_scope : Scope;
  c_action : Action;
  c_generation : Z;
  c_audience : string;
  c_operation_id : Uuid;
  c_nonce : string;
  c_expires_at_ms : Z;
  c_body_sha256 : string
}.

Record SignedRequest (T : Type) := {
  r_claims : AuthClaims;
  r_body : T;
  r_signature : string
}.
Arguments r_claims {T}.
Arguments r_body {T}.
Arguments r_signature {T}.

Record Allocation := {
  a_version : Z;
  a_installation_id : Uuid;
  a_hostname : string;
  a_placement : string;
  a_state : AllocationState
}.

Record AllocationReceipt := {
  rc_allocation : Allocation;
  rc_operation_id : Uuid;
  rc_admin_key_sha256 : string;
  rc_issued_at_ms : Z;
  rc_signature : string
}.

Record CredentialIssueReceipt := {
  ci_version : Z;
  ci_scope : Scope;
  ci_generation : Z;
  ci_operation_id : Uuid;
  ci_expires_at_ms : Z
}.

Record CertificateMetadata := {
  cm_hostname : string;
  cm_acme_account_uri : string;
  cm_key_fingerprint : string;
  cm_lineage : string;
  cm_not_before_ms : Z;
  cm_not_after_ms : Z
}.

Inductive TunnelEvent :=
| Open (version : Z) (ticket : string) (connection_id : Uuid) (hostname : string)
    (generation : Z) (expires_at_ms : Z)
| Heartbeat (version : Z) (generation : Z).

(** The JSON documents [derive(Serialize)] produces. *)
Definition claims_json (c : AuthClaims) : json := JObj [
  ("version", JNum (c_version c));
  ("installation_id", JStr (uuid_to_string (c_installation_id c)));
  ("scope", JStr (scope_name (c_scope c)));
  ("action", JStr (action_name (c_action c)));
  ("generation", JNum (c_generation c));
  ("audience", JStr (c_audience c));
  ("operation_id", JStr (uuid_to_string (c_operation_id c)));
  ("nonce", JStr (c_nonce c));
  ("expires_at_ms", JNum (c_expires_at_ms c));
  ("body_sha256", JStr (c_body_sha256 c))].

Definition allocation_json (a : Allocation) : json := JObj [
  ("version", JNum (a_version a));
  ("installation_id", JStr (uuid_to_string (a_installation_id a)));
  ("hostname", JStr (a_hostname a));
  ("placement", JStr (a_placement a));
  ("state", JStr (state_name (a_state a)))].

(** ** Library operations *)

(** SHA-256, unpadded base64url, Ed25519 keys, signatures and verification. *)
Class Crypto := {
  VerifyingKey : Type;
  Signature : Type;
  sha256 : list byte -> list byte;
  base64url_decode : string -> option (list byte);
  key_from_bytes : list byte -> option VerifyingKey;
  signature_from_slice : list byte -> option Signature;
  ed25519_verify : VerifyingKey -> list byte -> Signature -> bool
}.

(** RFC 8785 canonicalization and the JSON decoding of tunnel events. *)
Class Serde := {
  jcs_to_vec : json -> option (list byte);
  event_from_slice : list byte -> option TunnelEvent
}.

(** SHA-256 digests have 32 bytes. *)
Class Sha256Length `{Crypto} : Prop := {
  sha256_length : forall bytes, List.length (sha256 bytes) = 32%nat
}.

(** Canonical JSON determines the document. *)
Class JcsInjective `{Serde} : Prop := {
  jcs_injective : forall v w bytes,
    jcs_to_vec v = Some bytes -> jcs_to_vec w = Some bytes -> v = w
}.

Section verification.
Context `{Crypto} `{Serde}.

Definition sha256_hex (bytes : list byte) : string := hex_encode (sha256 bytes).

Definition CONTROL_DOMAIN : list byte := str_bytes "bloom-relay/control/v1" ++ [Byte.x00].
Definition RECEIPT_DOMAIN : list byte :=
  str_bytes "bloom-relay/allocation-receipt/v1" ++ [Byte.x00].

Definition signing_bytes (c : AuthClaims) : result ProtocolError (list byte) :=
  if negb (c_version c =? WIRE_VERSION) then Err IncompatibleVersion
  else
    bytes ← ok_or InvalidEncoding (jcs_to_vec (claims_json c));
    Ok (CONTROL_DOMAIN ++ bytes).

(** [AuthClaims::verify], checks in the source's order. *)
Definition claims_verify (c : AuthClaims) (body : list byte) (signature : string)
    (key : VerifyingKey) (required_scope : Scope) (required_action : Action)
    (audience : string) (now_ms : Z) : result ProtocolError unit :=
  if negb (bool_decide (c_scope c = required_scope))
     || negb (bool_decide (c_action c = required_action))
     || negb (bool_decide (c_audience c = audience))
  then Err ProtoUnauthorized
  else if (c_expires_at_ms c <=? now_ms)
     || (u64_saturating_add now_ms 60000 <? c_expires_at_ms c)
  then Err Expired
  else if MAX_CONTROL_BODY <? Z.of_nat (List.length body) then Err TooLarge
  else if negb (bool_decide (sha256_hex body = c_body_sha256 c)) then Err InvalidSignature
  else
    signature_bytes ← ok_or InvalidSignature (base64url_decode signature);
    sig ← ok_or InvalidSignature (signature_from_slice signature_bytes);
    message ← signing_bytes c;
    if ed25519_verify key message sig then Ok tt else Err InvalidSignature.

Definition signed_bytes (r : AllocationReceipt) : result ProtocolError (list byte) :=
  if negb (a_version (rc_allocation r) =? WIRE_VERSION) then Err IncompatibleVersion
  else
    bytes ← ok_or InvalidEncoding (jcs_to_vec (JArr [
      allocation_json (rc_allocation r);
      JStr (uuid_to_string (rc_operation_id r));
      JStr (rc_admin_key_sha256 r);
      JNum (rc_issued_at_ms r)]));
    Ok (RECEIPT_DOMAIN ++ bytes).

(** [AllocationReceipt::verify]. *)
Definition receipt_verify (r : AllocationReceipt) (relay_key : VerifyingKey)
    (operation_id : Uuid) (admin_public_key : list byte) (now_ms : Z) :
    result ProtocolError unit :=
  _ ← validate_hostname (a_hostname (rc_allocation r));
  if negb (bool_decide (rc_operation_id r = operation_id))
     || negb (bool_decide (rc_admin_key_sha256 r = sha256_hex admin_public_key))
     || (u64_saturating_add now_ms TRUSTED_RESPONSE_CLOCK_SKEW_MS <? rc_issued_at_ms r)
     || (300000 <? u64_saturating_sub now_ms (rc_issued_at_ms r))
  then Err ProtoUnauthorized
  else
    signature_bytes ← ok_or InvalidSignature (base64url_decode (rc_signature r));
    sig ← ok_or InvalidSignature (signature_from_slice signature_bytes);
    message ← signed_bytes r;
    if ed25519_verify relay_key message sig then Ok tt else Err InvalidSignature.

(** [AllocationReceipt::verify_bytes]: [prior] is the loop's [result]. *)
Fixpoint verify_bytes_loop (r : AllocationReceipt) (relay_public_keys : list (list byte))
    (operation_id : Uuid) (admin_public_key : list byte) (now_ms : Z)
    (prior : result ProtocolError unit) : result ProtocolError unit :=
  match relay_public_keys with
  | [] => prior
  | relay_public_key :: rest =>
      key ← ok_or InvalidSignature (key_from_bytes relay_public_key);
      let res := receipt_verify r key operation_id admin_public_key now_ms in
      if bool_decide (res = Err InvalidSignature)
      then verify_bytes_loop r rest operation_id admin_public_key now_ms res
      else res
  end.

Definition verify_bytes (r : AllocationReceipt) (relay_public_keys : list (list byte))
    (operation_id : Uuid) (admin_public_key : list byte) (now_ms : Z) :
    result ProtocolError unit :=
  verify_bytes_loop r relay_public_keys operation_id admin_public_key now_ms
    (Err InvalidSignature).
End verification.

(** ** Control decoder

    [pending] is the decoder's buffer. The loop drains one line per round;
    its fuel is the buffer length, which a round decreases
    ([decode_loop_fuel]). On an error the drained lines stay drained. *)
Section decoder.
Context `{Serde}.

Definition NEWLINE : byte := Byte.x0a.

(** [pending.drain(..=end)] at the first newline: the line without its
    newline, and what is left. *)
Fixpoint drain_line (pending : list byte) : option (list byte * list byte) :=
  match pending with
  | [] => None
  | b :: rest =>
      if decide (b = NEWLINE) then Some ([], rest)
      else
        match drain_line rest with
        | Some (line, remaining) => Some (b :: line, remaining)
        | None => None
        end
  end.

Fixpoint decode_loop (fuel : nat) (pending : list byte) (events : list TunnelEvent) :
    result ProtocolError (list TunnelEvent) * list byte :=
  match fuel with
  | O => (Ok events, pending)
  | S fuel' =>
      match drain_line pending with
      | None => (Ok events, pending)
      | Some (line, remaining) =>
          match event_from_slice line with
          | None => (Err InvalidEncoding, remaining)
          | Some event => decode_loop fuel' remaining (events ++ [event])
          end
      end
  end.

(** [ControlDecoder::push]. *)
Definition push (pending chunk : list byte) :
    result ProtocolError (list TunnelEvent) * list byte :=
  if (MAX_CONTROL_BODY <? Z.of_nat (List.length chunk))
     || (MAX_CONTROL_BODY <? Z.of_nat (List.length pending) + Z.of_nat (List.length chunk))
  then (Err TooLarge, pending)
  else
    let pending := pending ++ chunk in
    decode_loop (List.length pending) pending [].
End decoder.

(** ** Concrete parameters

    Executable instances of the library operations, on which the witnesses
    evaluate the theorems: a padding hash, byte strings as keys and
    signatures, padding in place of base64, and an injective byte encoding of JSON. *)
Module Concrete.
(** A byte string in the length of its base64url encoding. *)
Definition pad (bytes : list byte) : list byte :=
  bytes ++ replicate (Z.to_nat (Z.of_nat (List.length bytes) / 3) + 1) Byte.x2d.
Definition unpad (bytes : list byte) : list byte :=
  let m := Z.of_nat (List.length bytes) - 1 in take (Z.to_nat (3 * (m / 4) + m mod 4)) bytes.

Lemma unpad_pad bytes : unpad (pad bytes) = bytes.
Proof.
  unfold unpad, pad. rewrite length_app, length_replicate. set (n := Z.of_nat (List.length bytes)).
  assert (0 <= n / 3) as Hn by (apply Z.div_pos; unfold n; lia).
  replace (Z.of_nat _ - 1) with (n + n / 3) by (rewrite !Nat2Z.inj_add, Z2Nat.id by done; unfold n; lia).
  assert (3 * ((n + n / 3) / 4) + (n + n / 3) mod 4 = n) as ->.
  { pose proof (Z.div_mod n 3 ltac:(lia)). pose proof (Z.mod_pos_bound n 3 ltac:(lia)).
    assert ((n + n / 3) / 4 = n / 3) as Hq by (symmetry; apply (Z.div_unique _ _ _ (n mod 3)); lia).
    pose proof (Z.div_mod (n + n / 3) 4 ltac:(lia)). lia. }
  unfold n. rewrite Nat2Z.id. apply take_app_length.
Qed.

#[export] Instance crypto : Crypto := {|
  VerifyingKey := list byte;
  Signature := list byte;
  sha256 := fun bytes => take 32 (bytes ++ replicate 32 Byte.x00);
  base64url_decode := fun s => Some (unpad (str_bytes s));
  key_from_bytes := fun bytes => if decide (List.length bytes = 32%nat) then Some bytes else None;
  signature_from_slice := fun bytes => Some bytes;
  ed25519_verify := fun key _ sig => bool_decide (sig = key)
|}.

#[export] Instance crypto_length : Sha256Length.
Proof. constructor. intros bytes. cbn [sha256 crypto]. rewrite length_take, length_app, length_replicate. lia. Qed.

Fixpoint pos_bytes (p : positive) : list byte :=
  match p with
  | xH => []
  | xO p' => Byte.x00 :: pos_bytes p'
  | xI p' => Byte.x01 :: pos_bytes p'
  end.

Lemma pos_bytes_inj p q : pos_bytes p = pos_bytes q -> p = q.
Proof. revert q. induction p; intros []; cbn; intros; f_equal; naive_solver congruence. Qed.

#[export] Instance serde : Serde := {|
  jcs_to_vec := fun v => Some (pos_bytes (encode (json_tree v)));
  event_from_slice := fun line =>
    match line with
    | [b] => Some (Heartbeat WIRE_VERSION (u8 b))
    | _ => None
    end
|}.

#[export] Instance serde_injective : JcsInjective.
Proof.
  constructor. cbn. intros v w bytes Hv Hw. apply (inj json_tree), (inj encode), pos_bytes_inj.
  congruence.
Qed.
End Concrete.

(** ** Properties of the validators *)

Lemma validate_account_uri_ok env uri :
  validate_account_uri env uri = Ok tt <->
  exists account_id, uri = account_uri_prefix env +:+ account_id /\ account_id <> "" /\
    bytes_all is_ascii_digit account_id = true /\ str_len uri <= MAX_ACME_ACCOUNT_URI_LEN.
Proof.
  unfold validate_account_uri. case_match eqn:Hlen; to_prop.
  { split; [done|]. intros (id & _ & _ & _ & ?). lia. }
  destruct (strip_prefix _ uri) as [id|] eqn:Hp.
  - apply strip_prefix_Some in Hp as ->. split.
    + intros Hok. inv_ok. to_prop. eauto 6.
    + intros (id' & Heq & Hne & Hall & _).
      apply str_app_inj_l in Heq as <-.
      by rewrite Hall, bool_decide_eq_false_2 by done.
  - split; [done|]. intros (id & Heq & _).
    apply strip_prefix_Some in Heq. congruence.
Qed.

Lemma validate_hostname_ok h :
  validate_hostname h = Ok tt <->
  exists label, h = label +:+ HOSTNAME_SUFFIX /\ str_len label = 26 /\
    bytes_all (fun b => is_ascii_lowercase b || is_ascii_digit b) label = true.
Proof.
  unfold validate_hostname. destruct (strip_suffix _ h) as [label|] eqn:Hs.
  - apply strip_suffix_Some in Hs as ->. split.
    + intros Hok. inv_ok. to_prop. eauto.
    + intros (label' & Heq & Hlen & Hall).
      apply str_app_inj_r in Heq as <-.
      by rewrite Hlen, Hall.
  - split; [done|]. intros (label & Heq & _).
    apply strip_suffix_Some in Heq. congruence.
Qed.

Lemma validate_challenge_value_ok v :
  validate_challenge_value v = Ok tt <->
  str_len v = 43 /\ bytes_all is_token_byte v = true.
Proof.
  unfold validate_challenge_value. case_match eqn:Hc.
  - to_prop. naive_solver.
  - split; [done|]. intros [Hl Ha]. rewrite Hl, Ha in Hc. done.
Qed.

Lemma prefixes_differ id id' :
  account_uri_prefix Production +:+ id <> account_uri_prefix Staging +:+ id'.
Proof. discriminate. Qed.

(** [validate_acme_account_uri] returns an environment exactly when the
    URI is that environment's own prefix followed by one or more digits, 200
    bytes at most; the two environments never accept the same URI. *)
Theorem validate_acme_account_uri_spec env uri :
  validate_acme_account_uri uri = Ok env <->
  exists account_id, uri = account_uri_prefix env +:+ account_id /\ account_id <> "" /\
    bytes_all is_ascii_digit account_id = true /\ str_len uri <= MAX_ACME_ACCOUNT_URI_LEN.
Proof.
  rewrite <-validate_account_uri_ok.
  assert (forall u, is_ok (validate_account_uri u uri) = true <->
    validate_account_uri u uri = Ok tt) as Hok.
  { intros u. destruct (validate_account_uri u uri) as [[]|]; naive_solver. }
  rewrite <-Hok. unfold validate_acme_account_uri.
  destruct (is_ok (validate_account_uri Production uri)) eqn:Hp;
    destruct (is_ok (validate_account_uri Staging uri)) eqn:Hs.
  1: { apply Hok, validate_account_uri_ok in Hp as (id & -> & _).
       apply Hok, validate_account_uri_ok in Hs as (id' & Heq & _).
       by apply prefixes_differ in Heq. }
  all: destruct env; rewrite ?Hp, ?Hs; split; congruence.
Qed.

(** ** Identifiers print injectively *)
Lemma uuid_to_string_inj u v :
  uuid_wf u -> uuid_wf v -> uuid_to_string u = uuid_to_string v -> u = v.
Proof.
  unfold uuid_wf, uuid_to_string. intros Hu Hv Heq.
  assert (forall w, List.length (str_bytes (hex_encode (uuid_bytes w))) = 32%nat) as Hlen.
  { intros w. apply Nat2Z.inj. rewrite <-str_len_bytes, length_hex_encode.
    unfold uuid_bytes. by rewrite length_be_bytes. }
  pose proof (Hlen u) as Lu. pose proof (Hlen v) as Lv.
  set (hu := str_bytes (hex_encode (uuid_bytes u))) in *.
  set (hv := str_bytes (hex_encode (uuid_bytes v))) in *.
  apply (f_equal str_bytes) in Heq. rewrite !str_bytes_string in Heq.
  assert (hu = hv) as Hh.
  { apply app_inj_1 in Heq as [H1 Heq]; [|rewrite !length_take; lia].
    apply (inj (cons _)) in Heq.
    apply app_inj_1 in Heq as [H2 Heq]; [|rewrite !length_take, !length_drop; lia].
    apply (inj (cons _)) in Heq.
    apply app_inj_1 in Heq as [H3 Heq]; [|rewrite !length_take, !length_drop; lia].
    apply (inj (cons _)) in Heq.
    apply app_inj_1 in Heq as [H4 Heq]; [|rewrite !length_take, !length_drop; lia].
    apply (inj (cons _)) in Heq.
    assert (forall h : list byte, List.length h = 32%nat ->
      h = take 8 h ++ take 4 (drop 8 h) ++ take 4 (drop 12 h) ++ take 4 (drop 16 h) ++ drop 20 h)
      as Hsplit.
    { intros h Hl. do 33 (destruct h as [|? h]; [try done|]); done. }
    rewrite (Hsplit hu Lu), (Hsplit hv Lv). congruence. }
  apply (f_equal string_of_list_byte) in Hh. unfold hu, hv in Hh.
  rewrite !string_str_bytes in Hh. apply hex_encode_inj, be_bytes_inj in Hh; lia.
Qed.

(** ** Signed claims *)
Section claims.
Context `{Crypto} `{Serde}.

(** What [claims_verify] demands of a request. *)
Definition claims_accepted (c : AuthClaims) (body : list byte) (signature : string)
    (key : VerifyingKey) (scope : Scope) (action : Action) (audience : string) (now_ms : Z) : Prop :=
  c_scope c = scope /\ c_action c = action /\ c_audience c = audience /\
  now_ms < c_expires_at_ms c <= u64_saturating_add now_ms 60000 /\
  Z.of_nat (List.length body) <= MAX_CONTROL_BODY /\
  c_body_sha256 c = sha256_hex body /\
  exists raw sig message,
    base64url_decode signature = Some raw /\ signature_from_slice raw = Some sig /\
    signing_bytes c = Ok message /\ ed25519_verify key message sig = true.

(** a control request verifies exactly when its claims name the required
    scope, action and audience, expire within the next 60 seconds, hash the
    body (16 KiB at most), and carry an Ed25519 signature by the key over the
    canonical claims of wire version 1. *)
Theorem claims_verify_iff c body signature key scope action audience now_ms :
  claims_verify c body signature key scope action audience now_ms = Ok tt <->
  claims_accepted c body signature key scope action audience now_ms.
Proof.
  unfold claims_verify, claims_accepted. split.
  - intros Hv. inv_ok. to_prop. subst. repeat split; try done; try lia. eauto 8.
  - intros (-> & -> & -> & Hexp & Hlen & Hhash & raw & sig & message & Hraw & Hsig & Hm & Hed).
    rewrite !bool_decide_eq_true_2 by done. cbn [negb orb].
    rewrite (proj2 (Z.leb_gt _ _)), (proj2 (Z.ltb_ge _ _)) by lia. cbn [orb].
    rewrite (proj2 (Z.ltb_ge _ _)) by lia.
    rewrite Hraw. cbn. rewrite Hsig. cbn. rewrite Hm. cbn. by rewrite Hed.
Qed.

Lemma scope_name_inj s t : scope_name s = scope_name t -> s = t.
Proof. destruct s, t; done. Qed.
Lemma action_name_inj a b : action_name a = action_name b -> a = b.
Proof. destruct a, b; done. Qed.
Lemma state_name_inj a b : state_name a = state_name b -> a = b.
Proof. destruct a, b; done. Qed.

Lemma claims_json_inj c d :
  uuid_wf (c_installation_id c) -> uuid_wf (c_operation_id c) ->
  uuid_wf (c_installation_id d) -> uuid_wf (c_operation_id d) ->
  claims_json c = claims_json d -> c = d.
Proof.
  intros ? ? ? ? Heq. unfold claims_json in Heq.
  repeat (apply jobj_cons_inj in Heq as [? Heq]).
  repeat match goal with
    | Hj : JNum _ = JNum _ |- _ => apply jnum_inj in Hj
    | Hj : JStr _ = JStr _ |- _ => apply jstr_inj in Hj
    | Hj : uuid_to_string _ = uuid_to_string _ |- _ => apply uuid_to_string_inj in Hj; [|done..]
    | Hj : scope_name _ = scope_name _ |- _ => apply scope_name_inj in Hj
    | Hj : action_name _ = action_name _ |- _ => apply action_name_inj in Hj
    end.
  destruct c, d. cbn [c_version c_installation_id c_scope c_action c_generation c_audience
    c_operation_id c_nonce c_expires_at_ms c_body_sha256] in *. by subst.
Qed.

(** the signed bytes determine the claims. Two claims whose signing bytes
    agree are the same claims, field by field (installation, scope, action,
    generation, audience, operation, nonce, deadline and body hash), given
    that canonical JSON is injective: a signature for one operation or one
    body is never a signature for another. *)
Theorem signing_bytes_determine_claims `{!JcsInjective} c d message :
  uuid_wf (c_installation_id c) -> uuid_wf (c_operation_id c) ->
  uuid_wf (c_installation_id d) -> uuid_wf (c_operation_id d) ->
  signing_bytes c = Ok message -> signing_bytes d = Ok message -> c = d.
Proof.
  unfold signing_bytes. intros ? ? ? ? Hc Hd. inv_ok.
  match goal with Heq : CONTROL_DOMAIN ++ _ = _ |- _ => apply app_inv_head in Heq end. subst.
  apply claims_json_inj; [done..|]. by eapply jcs_injective.
Qed.

(** control claims and allocation receipts are signed in disjoint domains:
    no byte string is both the signing input of a control request and of a
    receipt, whatever the canonicalizer does. *)
Theorem signature_domains_disjoint c r message :
  signing_bytes c = Ok message -> signed_bytes r <> Ok message.
Proof.
  unfold signing_bytes, signed_bytes. intros Hc Hr. inv_ok. discriminate.
Qed.

(** *** Receipts *)
Lemma receipt_error_key_independent r k1 k2 op admin now_ms e :
  receipt_verify r k1 op admin now_ms = Err e -> e <> InvalidSignature ->
  receipt_verify r k2 op admin now_ms = Err e.
Proof.
  unfold receipt_verify. destruct (validate_hostname _) as [[]|]; cbn; [|done].
  case_match; [done|]. destruct (base64url_decode _); cbn; [|done].
  destruct (signature_from_slice _); cbn; [|done]. destruct (signed_bytes r); cbn; [|done].
  destruct (ed25519_verify k1 _ _); intros; congruence.
Qed.

Lemma verify_bytes_loop_spec r keys op admin now_ms prior :
  Forall (fun k => is_Some (key_from_bytes k)) keys -> prior <> Ok tt ->
  verify_bytes_loop r keys op admin now_ms prior = Ok tt <->
  exists k key, k ∈ keys /\ key_from_bytes k = Some key /\
    receipt_verify r key op admin now_ms = Ok tt.
Proof.
  intros Hkeys. revert prior. induction Hkeys as [|k keys [key Hkey] _ IH]; intros prior Hp.
  { cbn. split; [done|]. by intros (k & key & ?%not_elem_of_nil & _). }
  cbn. rewrite Hkey. cbn. case_bool_decide as Hres.
  - rewrite IH by congruence. split.
    + intros (k' & key' & ? & ?). exists k', key'. split; [by right | done].
    + intros (k' & key' & [->|]%elem_of_cons & Hk' & Hv); [congruence|]. eauto.
  - split.
    + intros Hok. exists k, key. split; [by left | done].
    + intros (k' & key' & _ & Hk' & Hv). destruct (receipt_verify r key op admin now_ms) as [[]|e] eqn:Hr;
        [done|]. eapply (receipt_error_key_independent _ _ key') in Hr; congruence.
Qed.

(** against a pinned set of well-formed relay keys, a receipt verifies
    exactly when it verifies under one of them; the order of the pins does not
    matter and an empty set accepts nothing. *)
Theorem verify_bytes_any_pinned_key r keys op admin now_ms :
  Forall (fun k => is_Some (key_from_bytes k)) keys ->
  verify_bytes r keys op admin now_ms = Ok tt <->
  exists k key, k ∈ keys /\ key_from_bytes k = Some key /\
    receipt_verify r key op admin now_ms = Ok tt.
Proof. intros Hkeys. by apply verify_bytes_loop_spec. Qed.

Lemma receipt_verify_ok r key op admin now_ms :
  receipt_verify r key op admin now_ms = Ok tt ->
  validate_hostname (a_hostname (rc_allocation r)) = Ok tt /\
  rc_operation_id r = op /\ rc_admin_key_sha256 r = sha256_hex admin /\
  rc_issued_at_ms r <= u64_saturating_add now_ms TRUSTED_RESPONSE_CLOCK_SKEW_MS /\
  now_ms - rc_issued_at_ms r <= 300000.
Proof.
  unfold receipt_verify. intros Hv. inv_ok. destruct x. to_prop. subst.
  unfold u64_saturating_sub in *. repeat split; try done; lia.
Qed.
End claims.

(** ** The control decoder *)
Section decoder_facts.
Context `{Serde}.

Lemma drain_line_app line remaining :
  NEWLINE ∉ line -> drain_line (line ++ NEWLINE :: remaining) = Some (line, remaining).
Proof.
  induction line as [|b line IH]; cbn; [by rewrite decide_True|].
  rewrite not_elem_of_cons. intros [Hb Hn]. rewrite decide_False, IH; done.
Qed.

Lemma drain_line_None l : drain_line l = None <-> NEWLINE ∉ l.
Proof.
  induction l as [|b l IH]; cbn; [split; [intros _; apply not_elem_of_nil | done]|].
  rewrite not_elem_of_cons. case_decide; [naive_solver|].
  destruct (drain_line l) as [[]|]; naive_solver.
Qed.

Lemma drain_line_Some l line remaining :
  drain_line l = Some (line, remaining) -> l = line ++ NEWLINE :: remaining /\ NEWLINE ∉ line.
Proof.
  revert line remaining. induction l as [|b l IH]; intros line remaining; cbn; [done|].
  case_decide as Hb; [intros [= <- <-]; subst; split; [done | apply not_elem_of_nil]|].
  destruct (drain_line l) as [[line' rest]|]; [|done]. intros [= <- <-].
  destruct (IH _ _ eq_refl) as [-> Hn]. split; [done|]. rewrite not_elem_of_cons. done.
Qed.

(** The loop decreases the buffer, so any two fuels of at least its length
    give the same result. *)
Lemma decode_loop_fuel f g pending events :
  (List.length pending <= f)%nat -> (List.length pending <= g)%nat ->
  decode_loop f pending events = decode_loop g pending events.
Proof.
  revert g pending events. induction f as [|f IH]; intros g pending events Hf Hg.
  { destruct pending; [|cbn in Hf; lia]. by destruct g. }
  destruct g as [|g].
  { destruct pending; [done | cbn in Hg; lia]. }
  cbn. destruct (drain_line pending) as [[line remaining]|] eqn:Hd; [|done].
  apply drain_line_Some in Hd as [-> _]. rewrite length_app in Hf, Hg. cbn in Hf, Hg.
  destruct (event_from_slice line); [|done]. apply IH; lia.
Qed.

Lemma decode_loop_app f pending ev0 events :
  decode_loop f pending (ev0 ++ events) =
  (fmap (app ev0) (decode_loop f pending events).1, (decode_loop f pending events).2).
Proof.
  revert pending events. induction f as [|f IH]; intros pending events; cbn; [done|].
  destruct (drain_line pending) as [[line remaining]|]; [|done].
  destruct (event_from_slice line); [|done]. by rewrite <-app_assoc, IH.
Qed.

(** What the loop leaves, on either outcome, is a suffix of its input; on
    success it holds no complete line. *)
Lemma decode_loop_rest f pending events r rest :
  (List.length pending <= f)%nat -> decode_loop f pending events = (r, rest) ->
  rest `suffix_of` pending /\ (is_ok r = true -> NEWLINE ∉ rest).
Proof.
  revert pending events. induction f as [|f IH]; intros pending events Hf; cbn.
  { destruct pending; [|cbn in Hf; lia]. intros [= <- <-].
    split; [done | intros _; apply not_elem_of_nil]. }
  destruct (drain_line pending) as [[line remaining]|] eqn:Hd.
  - apply drain_line_Some in Hd as [-> _]. rewrite length_app in Hf. cbn in Hf.
    assert (remaining `suffix_of` line ++ NEWLINE :: remaining) as Hs.
    { exists (line ++ [NEWLINE]). by rewrite <-app_assoc. }
    destruct (event_from_slice line).
    + intros [Hr Hn]%IH; [|lia]. split; [by etrans | done].
    + intros [= <- <-]. done.
  - intros [= <- <-]. split; [done|]. intros _. by apply drain_line_None.
Qed.

(** Decoding a first chunk to success and then the rest of the input is
    decoding the whole input. *)
Lemma decode_loop_chunks f pending more events done_ rest :
  (List.length pending <= f)%nat -> decode_loop f pending events = (Ok done_, rest) ->
  decode_loop (f + List.length more) (pending ++ more) events =
  decode_loop (List.length (rest ++ more)) (rest ++ more) done_.
Proof.
  revert pending events. induction f as [|f IH]; intros pending events Hf.
  { destruct pending; [|cbn in Hf; lia]. by intros [= <- <-]. }
  intros Hd. cbn [decode_loop] in Hd.
  destruct (drain_line pending) as [[line remaining]|] eqn:Hl.
  - apply drain_line_Some in Hl as [-> Hn]. rewrite length_app in Hf. cbn in Hf.
    destruct (event_from_slice line) eqn:He; [|done].
    cbn [Nat.add decode_loop]. rewrite <-app_assoc. cbn [app].
    rewrite drain_line_app by done. rewrite He. apply IH; [lia | done].
  - injection Hd as <- <-. apply decode_loop_fuel; rewrite length_app; lia.
Qed.

(** the control decoder bounds what a peer can make it hold. After any
    [push] the buffer is at most 16 KiB, an accepted push leaves no complete
    line undecoded, and a refused chunk leaves the buffer as it was. *)
Theorem push_bounds_buffer pending chunk r pending' :
  Z.of_nat (List.length pending) <= MAX_CONTROL_BODY -> push pending chunk = (r, pending') ->
  Z.of_nat (List.length pending') <= MAX_CONTROL_BODY /\
  (is_ok r = true -> NEWLINE ∉ pending') /\ (r = Err TooLarge -> pending' = pending).
Proof.
  unfold push. intros Hp. case_match eqn:Hc; [intros [= <- <-]; done|].
  to_prop. intros Hd.
  assert (r <> Err TooLarge) as Hr.
  { intros ->. revert Hd. generalize (List.length (pending ++ chunk)) at 1. intros n.
    generalize (pending ++ chunk) (@nil TunnelEvent).
    induction n as [|n IH]; intros l ev; cbn; [done|].
    destruct (drain_line l) as [[]|]; [|done]. case_match; [apply IH | done]. }
  apply decode_loop_rest in Hd as [Hs%suffix_length Hn]; [|done].
  rewrite length_app in Hs. split; [lia | done].
Qed.

(** framing does not depend on how the transport splits the stream. When
    two chunks are accepted one after the other, accepting them as one chunk
    (within the limit) yields the same events and leaves the same buffer. *)
Theorem push_chunking pending c1 c2 e1 e2 p1 p2 :
  Z.of_nat (List.length pending + List.length c1 + List.length c2) <= MAX_CONTROL_BODY ->
  push pending c1 = (Ok e1, p1) -> push p1 c2 = (Ok e2, p2) ->
  push pending (c1 ++ c2) = (Ok (e1 ++ e2), p2).
Proof.
  unfold push. intros Hlen H1 H2. rewrite !length_app.
  destruct (_ || _) eqn:G1 in H1; [done|]. destruct (_ || _) eqn:G2 in H2; [done|].
  rewrite (proj2 (Z.ltb_ge _ _)) by lia. rewrite (proj2 (Z.ltb_ge _ _)) by lia. cbn [orb].
  rewrite app_assoc, <-length_app, <-length_app, app_assoc.
  apply decode_loop_chunks with (more := c2) in H1; [|done].
  rewrite length_app, H1.
  pose proof (decode_loop_app (List.length (p1 ++ c2)) (p1 ++ c2) e1 []) as Ha.
  by rewrite app_nil_r, H2 in Ha.
Qed.

(** encoding then decoding is the identity: when each line decodes to its
    event and holds no newline, pushing the newline-terminated lines (within
    the limit) into an empty decoder yields the events in order and leaves
    the buffer empty. *)
Theorem push_roundtrip lines events :
  Forall2 (fun line event => event_from_slice line = Some event /\ NEWLINE ∉ line) lines events ->
  Z.of_nat (List.length (lines ≫= fun line => line ++ [NEWLINE])) <= MAX_CONTROL_BODY ->
  push [] (lines ≫= fun line => line ++ [NEWLINE]) = (Ok events, []).
Proof.
  intros Hl Hlen. unfold push. rewrite !(proj2 (Z.ltb_ge _ _)) by (cbn [List.length]; lia).
  cbn [orb app]. clear Hlen. rewrite <-(app_nil_l events). generalize (@nil TunnelEvent) as ev.
  induction Hl as [|line event lines events [He Hn] _ IH]; intros ev.
  { cbn. by rewrite app_nil_r. }
  rewrite bind_cons, <-app_assoc. cbn [app].
  rewrite (decode_loop_fuel _ (S (List.length (lines ≫= fun line => line ++ [NEWLINE])
    + List.length line))) by (rewrite ?length_app; cbn; lia).
  cbn [decode_loop]. rewrite drain_line_app by done. rewrite He.
  rewrite (decode_loop_fuel _ (List.length (lines ≫= fun line => line ++ [NEWLINE]))) by lia.
  rewrite IH, <-app_assoc. done.
Qed.
End decoder_facts.

(** ** Witnesses *)
Section witnesses.
Import Concrete.

Definition sample_claims (body : list byte) : AuthClaims := {|
  c_version := WIRE_VERSION; c_installation_id := 7%N; c_scope := SurfaceAdmin;
  c_action := Enroll; c_generation := 1; c_audience := "relay"; c_operation_id := 9%N;
  c_nonce := "nonce-0123456789"; c_expires_at_ms := 31000; c_body_sha256 := sha256_hex body |}.

Definition sample_key : list byte := replicate 32 Byte.x61.

Definition sample_receipt : AllocationReceipt := {|
  rc_allocation := {| a_version := WIRE_VERSION; a_installation_id := 7%N;
    a_hostname := "abcdefghijklmnopqrstuvwxyz.relay.bloom.directory";
    a_placement := "p"; a_state := PendingDns |};
  rc_operation_id := 9%N; rc_admin_key_sha256 := sha256_hex []; rc_issued_at_ms := 1000;
  rc_signature := string_of_list_byte (pad sample_key) |}.

Lemma signing_bytes_determine_claims_witness :
  exists message, signing_bytes (sample_claims []) = Ok message /\ sample_claims [] = sample_claims [].
Proof.
  destruct (signing_bytes (sample_claims [])) as [message|] eqn:Hm; [|discriminate].
  exists message. split; [done|].
  apply (signing_bytes_determine_claims (sample_claims []) (sample_claims []) message);
    [done..| exact Hm | exact Hm].
Defined.

Lemma signature_domains_disjoint_witness :
  exists message, signing_bytes (sample_claims []) = Ok message /\ signed_bytes sample_receipt <> Ok message.
Proof.
  destruct (signing_bytes (sample_claims [])) as [message|] eqn:Hm; [|discriminate].
  exists message. split; [done|].
  apply (signature_domains_disjoint (sample_claims []) sample_receipt message). exact Hm.
Defined.

Lemma verify_bytes_any_pinned_key_witness :
  verify_bytes sample_receipt [replicate 32 Byte.x62; sample_key] 9%N [] 2000 = Ok tt.
Proof.
  apply (verify_bytes_any_pinned_key sample_receipt [replicate 32 Byte.x62; sample_key] 9%N [] 2000).
  - repeat constructor; eexists; reflexivity.
  - exists sample_key, sample_key. split; [by right; left | split; vm_compute; reflexivity].
Defined.

Lemma push_bounds_buffer_witness :
  push [] [Byte.x07; NEWLINE; Byte.x08] = (Ok [Heartbeat 1 7], [Byte.x08]) /\
  Z.of_nat (List.length [Byte.x08]) <= MAX_CONTROL_BODY.
Proof.
  split; [reflexivity|].
  apply (push_bounds_buffer [] [Byte.x07; NEWLINE; Byte.x08] (Ok [Heartbeat 1 7])); [|reflexivity].
  discriminate.
Defined.

Lemma push_chunking_witness :
  push [Byte.x07] ([NEWLINE; Byte.x08] ++ [NEWLINE]) = (Ok ([Heartbeat 1 7] ++ [Heartbeat 1 8]), []).
Proof.
  apply (push_chunking [Byte.x07] [NEWLINE; Byte.x08] [NEWLINE] _ _ [Byte.x08]);
    [discriminate | reflexivity | reflexivity].
Defined.

Lemma push_roundtrip_witness :
  push [] ([[Byte.x07]; [Byte.x08]] ≫= fun line => line ++ [NEWLINE]) =
  (Ok [Heartbeat 1 7; Heartbeat 1 8], []).
Proof.
  apply (push_roundtrip [[Byte.x07]; [Byte.x08]]); [|discriminate].
  repeat constructor; by rewrite list_elem_of_singleton.
Defined.
End witnesses.

(** ** Control messages

    The request and response bodies of the control API and the JSON documents
    their [derive(Serialize)] produces, which the signed ones are hashed as. *)
Record BootstrapChallenge := {
  bc_version : Z;
  bc_nonce : string;
  bc_expires_at_ms : Z
}.

Record AllocateRequest := {
  ar_admin_public_key : string;
  ar_bootstrap_nonce : string;
  ar_operation_id : Uuid
}.

Record CredentialIssueRequest := {
  cr_scope : Scope;
  cr_token_sha256 : string;
  cr_validity_seconds : Z
}.

Record CredentialRenewRequest := {
  rn_version : Z;
  rn_installation_id : Uuid;
  rn_scope : Scope;
  rn_generation : Z;
  rn_operation_id : Uuid;
  rn_nonce : string;
  rn_expires_at_ms : Z;
  rn_new_token_sha256 : string
}.

Record AcmeAccountRequest := { aa_account_uri : string }.
Record InstallationStatusRequest := { is_installation_id : Uuid }.
Record RetireRequest := { rr_installation_id : Uuid }.

Record DnsChallengeEnsureRequest := {
  de_version : Z;
  de_installation_id : Uuid;
  de_txt_value : string
}.

Record DnsChallengeState := {
  ds_version : Z;
  ds_revision : Z;
  ds_expires_at_ms : Z
}.

(** [serde::Serialize] of the signed bodies. *)
Class Serialize (T : Type) := to_json : T -> json.

#[global] Instance serialize_allocate : Serialize AllocateRequest := fun r => JObj [
  ("admin_public_key", JStr (ar_admin_public_key r));
  ("bootstrap_nonce", JStr (ar_bootstrap_nonce r));
  ("operation_id", JStr (uuid_to_string (ar_operation_id r)))].

#[global] Instance serialize_issue : Serialize CredentialIssueRequest := fun r => JObj [
  ("scope", JStr (scope_name (cr_scope r)));
  ("token_sha256", JStr (cr_token_sha256 r));
  ("validity_seconds", JNum (cr_validity_seconds r))].

#[global] Instance serialize_account : Serialize AcmeAccountRequest := fun r =>
  JObj [("account_uri", JStr (aa_account_uri r))].

#[global] Instance serialize_status : Serialize InstallationStatusRequest := fun r =>
  JObj [("installation_id", JStr (uuid_to_string (is_installation_id r)))].

#[global] Instance serialize_retire : Serialize RetireRequest := fun r =>
  JObj [("installation_id", JStr (uuid_to_string (rr_installation_id r)))].
