(* ===== verification/Db.v ===== *)
(** * The database: src/migrations and the transactions of crates/bloom-relay-store

    The tables as finite maps keyed by their primary keys, the outbox and the
    audit log as lists in id order, and the restore fence. A transaction is a
    function [Tx A] from the database to a result and the new database: an
    error rolls every change back. Timestamps are microseconds since the
    epoch; [now()] is an argument of each transaction. A constraint violation
    (primary key, foreign key, check, [bigint] overflow) is the
    [Unavailable] error sqlx reports. Transactions are atomic: the row and
    advisory locks of the source serialize those that touch one installation.
    An identity column is the next number of its sequence. *)

From Stdlib Require Import Ascii String Strings.Byte.
From stdpp Require Import base strings list gmap.
From S2P Require Import Prelude Protocol.

(** ** Time *)
Definition seconds (n : Z) : Z := n * 1000000.
Definition minutes (n : Z) : Z := seconds (60 * n).
Definition hours (n : Z) : Z := minutes (60 * n).
Definition days (n : Z) : Z := hours (24 * n).

(** [::bigint] of a numeric [a / b] rounds half away from zero. *)
Definition round_div (a b : Z) : Z :=
  if 0 <=? a then (a + b / 2) / b else - ((- a + b / 2) / b).

(** [(extract(epoch FROM t) * 1000)::bigint]. *)
Definition epoch_ms (t : Z) : Z := round_div t 1000.

(** ** Rows *)
Inductive IpAddr := V4 (bits : Z) | V6 (bits : Z).
#[global] Instance IpAddr_eq_dec : EqDecision IpAddr.
Proof. solve_decision. Defined.

(** [state] has a check constraint listing the three names. *)
Record Installation := {
  i_hostname : string;
  i_admin_public_key : list byte;
  i_placement : string;
  i_generation : Z;
  i_state : AllocationState;
  i_acme_account_uri : option string;
  i_created_at : Z;
  i_retired_at : option Z
}.

Record Operation := {
  o_installation_id : Uuid;
  o_kind : string;
  o_request_digest : list byte;
  o_result : json;
  o_created_at : Z
}.

Record Bootstrap := {
  b_source_ip : IpAddr;
  b_expires_at : Z;
  b_created_at : Z;
  b_consumed_at : option Z
}.

Record Credential := {
  k_token_hash : list byte;
  k_expires_at : Z;
  k_revoked_at : option Z
}.

Record Lease := {
  l_generation : Z;
  l_gateway_id : string;
  l_expires_at : Z
}.

Record ChallengeState := {
  s_revision : Z;
  s_ready_revision : option Z
}.

Record Certificate := {
  ce_lineage : string;
  ce_not_before : Z;
  ce_not_after : Z
}.

Record OutboxRow := {
  x_id : Z;
  x_installation_id : Uuid;
  x_kind : string;
  x_payload : json;
  x_attempts : Z;
  x_next_attempt_at : Z;
  x_completed_at : option Z
}.

Record AuditRow := {
  au_installation_id : Uuid;
  au_operation_id : option Uuid;
  au_event : string;
  au_created_at : Z
}.

Record CtObservation := {
  ob_installation_id : option Uuid;
  ob_hostname : string;
  ob_fingerprint : string;
  ob_expected : bool
}.

Record CtAlertRow := {
  al_id : Z;
  al_source : string;
  al_position : Z;
  al_installation_id : option Uuid;
  al_hostname : string;
  al_fingerprint : string;
  al_delivered_at : option Z
}.

Record CtHealthRow := {
  he_id : Z;
  he_source : string;
  he_time_window : Z;
  he_lag_seconds : Z;
  he_delivered_at : option Z
}.

(** A checkpoint is its position and [observed_at]. *)
Record CtTables := {
  ct_checkpoints : gmap string (Z * Z);
  ct_observations : gmap (string * Z) CtObservation;
  ct_alerts : list CtAlertRow;
  ct_health_alerts : list CtHealthRow
}.

(** ** Tables *)
Record Db := {
  d_installations : gmap Uuid Installation;
  d_reservations : gmap string Uuid;
  d_operations : gmap Uuid Operation;
  d_nonces : gmap (Uuid * string) Z;
  d_bootstrap : gmap string Bootstrap;
  d_credentials : gmap (Uuid * string * Z) Credential;
  d_leases : gmap Uuid Lease;
  d_challenge_values : gmap (Uuid * string) Z;
  d_challenge_state : gmap Uuid ChallengeState;
  d_certificates : gmap (Uuid * string) Certificate;
  d_outbox : list OutboxRow;
  d_outbox_next : Z;
  d_audit : list AuditRow;
  d_revision : Z;
  d_ct : CtTables
}.

Definition set_installations (f : gmap Uuid Installation -> gmap Uuid Installation) (d : Db) : Db :=
  {| d_installations := f (d_installations d); d_reservations := d_reservations d;
     d_operations := d_operations d; d_nonces := d_nonces d; d_bootstrap := d_bootstrap d;
     d_credentials := d_credentials d; d_leases := d_leases d;
     d_challenge_values := d_challenge_values d; d_challenge_state := d_challenge_state d;
     d_certificates := d_certificates d; d_outbox := d_outbox d;
     d_outbox_next := d_outbox_next d; d_audit := d_audit d; d_revision := d_revision d;
     d_ct := d_ct d |}.
Definition set_reservations (f : gmap string Uuid -> gmap string Uuid) (d : Db) : Db :=
  {| d_installations := d_installations d; d_reservations := f (d_reservations d);
     d_operations := d_operations d; d_nonces := d_nonces d; d_bootstrap := d_bootstrap d;
     d_credentials := d_credentials d; d_leases := d_leases d;
     d_challenge_values := d_challenge_values d; d_challenge_state := d_challenge_state d;
     d_certificates := d_certificates d; d_outbox := d_outbox d;
     d_outbox_next := d_outbox_next d; d_audit := d_audit d; d_revision := d_revision d;
     d_ct := d_ct d |}.
Definition set_operations (f : gmap Uuid Operation -> gmap Uuid Operation) (d : Db) : Db :=
  {| d_installations := d_installations d; d_reservations := d_reservations d;
     d_operations := f (d_operations d); d_nonces := d_nonces d;
     d_bootstrap := d_bootstrap d; d_credentials := d_credentials d; d_leases := d_leases d;
     d_challenge_values := d_challenge_values d; d_challenge_state := d_challenge_state d;
     d_certificates := d_certificates d; d_outbox := d_outbox d;
     d_outbox_next := d_outbox_next d; d_audit := d_audit d; d_revision := d_revision d;
     d_ct := d_ct d |}.
Definition set_nonces (f : gmap (Uuid * string) Z -> gmap (Uuid * string) Z) (d : Db) : Db :=
  {| d_installations := d_installations d; d_reservations := d_reservations d;
     d_operations := d_operations d; d_nonces := f (d_nonces d);
     d_bootstrap := d_bootstrap d; d_credentials := d_credentials d; d_leases := d_leases d;
     d_challenge_values := d_challenge_values d; d_challenge_state := d_challenge_state d;
     d_certificates := d_certificates d; d_outbox := d_outbox d;
     d_outbox_next := d_outbox_next d; d_audit := d_audit d; d_revision := d_revision d;
     d_ct := d_ct d |}.
Definition set_bootstrap (f : gmap string Bootstrap -> gmap string Bootstrap) (d : Db) : Db :=
  {| d_installations := d_installations d; d_reservations := d_reservations d;
     d_operations := d_operations d; d_nonces := d_nonces d;
     d_bootstrap := f (d_bootstrap d); d_credentials := d_credentials d;
     d_leases := d_leases d; d_challenge_values := d_challenge_values d;
     d_challenge_state := d_challenge_state d; d_certificates := d_certificates d;
     d_outbox := d_outbox d; d_outbox_next := d_outbox_next d; d_audit := d_audit d;
     d_revision := d_revision d; d_ct := d_ct d |}.
Definition set_credentials
    (f : gmap (Uuid * string * Z) Credential -> gmap (Uuid * string * Z) Credential) (d : Db) : Db :=
  {| d_installations := d_installations d; d_reservations := d_reservations d;
     d_operations := d_operations d; d_nonces := d_nonces d; d_bootstrap := d_bootstrap d;
     d_credentials := f (d_credentials d); d_leases := d_leases d;
     d_challenge_values := d_challenge_values d; d_challenge_state := d_challenge_state d;
     d_certificates := d_certificates d; d_outbox := d_outbox d;
     d_outbox_next := d_outbox_next d; d_audit := d_audit d; d_revision := d_revision d;
     d_ct := d_ct d |}.
Definition set_leases (f : gmap Uuid Lease -> gmap Uuid Lease) (d : Db) : Db :=
  {| d_installations := d_installations d; d_reservations := d_reservations d;
     d_operations := d_operations d; d_nonces := d_nonces d; d_bootstrap := d_bootstrap d;
     d_credentials := d_credentials d; d_leases := f (d_leases d);
     d_challenge_values := d_challenge_values d; d_challenge_state := d_challenge_state d;
     d_certificates := d_certificates d; d_outbox := d_outbox d;
     d_outbox_next := d_outbox_next d; d_audit := d_audit d; d_revision := d_revision d;
     d_ct := d_ct d |}.
Definition set_challenge_values (f : gmap (Uuid * string) Z -> gmap (Uuid * string) Z) (d : Db) :
    Db :=
  {| d_installations := d_installations d; d_reservations := d_reservations d;
     d_operations := d_operations d; d_nonces := d_nonces d; d_bootstrap := d_bootstrap d;
     d_credentials := d_credentials d; d_leases := d_leases d;
     d_challenge_values := f (d_challenge_values d);
     d_challenge_state := d_challenge_state d; d_certificates := d_certificates d;
     d_outbox := d_outbox d; d_outbox_next := d_outbox_next d; d_audit := d_audit d;
     d_revision := d_revision d; d_ct := d_ct d |}.
Definition set_challenge_state (f : gmap Uuid ChallengeState -> gmap Uuid ChallengeState)
    (d : Db) : Db :=
  {| d_installations := d_installations d; d_reservations := d_reservations d;
     d_operations := d_operations d; d_nonces := d_nonces d; d_bootstrap := d_bootstrap d;
     d_credentials := d_credentials d; d_leases := d_leases d;
     d_challenge_values := d_challenge_values d;
     d_challenge_state := f (d_challenge_state d); d_certificates := d_certificates d;
     d_outbox := d_outbox d; d_outbox_next := d_outbox_next d; d_audit := d_audit d;
     d_revision := d_revision d; d_ct := d_ct d |}.
Definition set_certificates
    (f : gmap (Uuid * string) Certificate -> gmap (Uuid * string) Certificate) (d : Db) : Db :=
  {| d_installations := d_installations d; d_reservations := d_reservations d;
     d_operations := d_operations d; d_nonces := d_nonces d; d_bootstrap := d_bootstrap d;
     d_credentials := d_credentials d; d_leases := d_leases d;
     d_challenge_values := d_challenge_values d; d_challenge_state := d_challenge_state d;
     d_certificates := f (d_certificates d); d_outbox := d_outbox d;
     d_outbox_next := d_outbox_next d; d_audit := d_audit d; d_revision := d_revision d;
     d_ct := d_ct d |}.
Definition set_outbox (f : list OutboxRow -> list OutboxRow) (next : Z) (d : Db) : Db :=
  {| d_installations := d_installations d; d_reservations := d_reservations d;
     d_operations := d_operations d; d_nonces := d_nonces d; d_bootstrap := d_bootstrap d;
     d_credentials := d_credentials d; d_leases := d_leases d;
     d_challenge_values := d_challenge_values d; d_challenge_state := d_challenge_state d;
     d_certificates := d_certificates d; d_outbox := f (d_outbox d);
     d_outbox_next := next; d_audit := d_audit d; d_revision := d_revision d;
     d_ct := d_ct d |}.
Definition set_audit (f : list AuditRow -> list AuditRow) (d : Db) : Db :=
  {| d_installations := d_installations d; d_reservations := d_reservations d;
     d_operations := d_operations d; d_nonces := d_nonces d; d_bootstrap := d_bootstrap d;
     d_credentials := d_credentials d; d_leases := d_leases d;
     d_challenge_values := d_challenge_values d; d_challenge_state := d_challenge_state d;
     d_certificates := d_certificates d; d_outbox := d_outbox d;
     d_outbox_next := d_outbox_next d; d_audit := f (d_audit d); d_revision := d_revision d;
     d_ct := d_ct d |}.
Definition set_revision (f : Z -> Z) (d : Db) : Db :=
  {| d_installations := d_installations d; d_reservations := d_reservations d;
     d_operations := d_operations d; d_nonces := d_nonces d; d_bootstrap := d_bootstrap d;
     d_credentials := d_credentials d; d_leases := d_leases d;
     d_challenge_values := d_challenge_values d; d_challenge_state := d_challenge_state d;
     d_certificates := d_certificates d; d_outbox := d_outbox d;
     d_outbox_next := d_outbox_next d; d_audit := d_audit d; d_revision := f (d_revision d);
     d_ct := d_ct d |}.
Definition set_ct (f : CtTables -> CtTables) (d : Db) : Db :=
  {| d_installations := d_installations d; d_reservations := d_reservations d;
     d_operations := d_operations d; d_nonces := d_nonces d; d_bootstrap := d_bootstrap d;
     d_credentials := d_credentials d; d_leases := d_leases d;
     d_challenge_values := d_challenge_values d; d_challenge_state := d_challenge_state d;
     d_certificates := d_certificates d; d_outbox := d_outbox d;
     d_outbox_next := d_outbox_next d; d_audit := d_audit d; d_revision := d_revision d;
     d_ct := f (d_ct d) |}.

(** The migrated database before any request. *)
Definition empty_db : Db :=
  {| d_installations := ∅; d_reservations := ∅; d_operations := ∅; d_nonces := ∅;
     d_bootstrap := ∅; d_credentials := ∅; d_leases := ∅; d_challenge_values := ∅;
     d_challenge_state := ∅; d_certificates := ∅; d_outbox := []; d_outbox_next := 1;
     d_audit := []; d_revision := 1;
     d_ct := {| ct_checkpoints := ∅; ct_observations := ∅; ct_alerts := [];
                ct_health_alerts := [] |} |}.

(** ** Errors *)
Inductive StoreError :=
| Unavailable
| Migration
| Conflict
| InvalidRequest
| Unauthorized
| Witness (message : string).

#[global] Instance StoreError_eq_dec : EqDecision StoreError.
Proof. solve_decision. Defined.

(** ** Transactions *)
Definition Tx (A : Type) : Type := Db -> result StoreError (A * Db).

#[global] Instance tx_ret : MRet Tx := fun A a d => Ok (a, d).
#[global] Instance tx_bind : MBind Tx :=
  fun A B f m d => match m d with Ok (a, d') => f a d' | Err e => Err e end.

Definition tx_gets {A} (f : Db -> A) : Tx A := fun d => Ok (f d, d).
Definition tx_modify (f : Db -> Db) : Tx unit := fun d => Ok (tt, f d).
Definition tx_lift {A} (r : result StoreError A) : Tx A :=
  fun d => a ← r; Ok (a, d).
Definition tx_when (b : bool) (m : Tx unit) : Tx unit := if b then m else mret tt.

(** [.ok_or(e)?] on a fetched row and [if bad { return Err(e) }]. *)
Definition tx_some {A} (e : StoreError) (o : option A) : Tx A := tx_lift (ok_or e o).
Definition tx_reject (bad : bool) (e : StoreError) : Tx unit := tx_lift (reject_if bad e).

Lemma tx_bind_ok {A B} (m : Tx A) (f : A -> Tx B) d b d' :
  (m ≫= f) d = Ok (b, d') <-> exists a d1, m d = Ok (a, d1) /\ f a d1 = Ok (b, d').
Proof.
  unfold mbind, tx_bind. split.
  - destruct (m d) as [[a d1]|e]; [eauto | discriminate].
  - intros (a & d1 & -> & Hf). exact Hf.
Qed.

Lemma tx_lift_ok {A} (r : result StoreError A) d a d' :
  tx_lift r d = Ok (a, d') <-> r = Ok a /\ d' = d.
Proof. unfold tx_lift. destruct r; cbn; split; [intros [= <- <-] | intros [[= <-] ->] | | intros [? _]]; done. Qed.

Lemma tx_some_ok {A} e (o : option A) d a d' :
  tx_some e o d = Ok (a, d') <-> o = Some a /\ d' = d.
Proof. unfold tx_some. by rewrite tx_lift_ok, ok_or_ok. Qed.

Lemma tx_reject_ok bad e d u d' : tx_reject bad e d = Ok (u, d') <-> bad = false /\ d' = d.
Proof. unfold tx_reject. by rewrite tx_lift_ok, reject_if_ok. Qed.

(** ** Statements *)
Definition has_installation (id : Uuid) (d : Db) : bool :=
  bool_decide (is_Some (d_installations d !! id)).

(** [INSERT INTO installations]: primary key, unique hostname, key length. *)
Definition insert_installation (id : Uuid) (row : Installation) : Tx unit := fun d =>
  if has_installation id d
     || bool_decide (map_Exists (fun _ r => i_hostname r = i_hostname row) (d_installations d))
     || negb (bool_decide (List.length (i_admin_public_key row) = 32%nat))
  then Err Unavailable
  else Ok (tt, set_installations <[id := row]> d).

Definition insert_reservation (hostname : string) (id : Uuid) : Tx unit := fun d =>
  if bool_decide (is_Some (d_reservations d !! hostname)) || negb (has_installation id d)
  then Err Unavailable
  else Ok (tt, set_reservations <[hostname := id]> d).

Definition insert_operation (operation_id : Uuid) (row : Operation) : Tx unit := fun d =>
  if bool_decide (is_Some (d_operations d !! operation_id))
     || negb (has_installation (o_installation_id row) d)
     || negb (bool_decide (List.length (o_request_digest row) = 32%nat))
  then Err Unavailable
  else Ok (tt, set_operations <[operation_id := row]> d).

Definition outbox_row (n : Z) (id : Uuid) (kind : string) (payload : json) (now : Z) : OutboxRow :=
  {| x_id := n; x_installation_id := id; x_kind := kind; x_payload := payload;
     x_attempts := 0; x_next_attempt_at := now; x_completed_at := None |}.

Definition add_outbox (id : Uuid) (kind : string) (payload : json) (now : Z) (d : Db) : Db :=
  set_outbox (fun l => l ++ [outbox_row (d_outbox_next d) id kind payload now])
    (d_outbox_next d + 1) d.

Definition insert_outbox (id : Uuid) (kind : string) (payload : json) (now : Z) : Tx unit := fun d =>
  if has_installation id d then Ok (tt, add_outbox id kind payload now d) else Err Unavailable.

(** The trigger [advance_restore_fence]. It is deferred to the commit, which
    is the end of the atomic transaction. *)
Definition advance_restore_fence : Tx unit := fun d =>
  if d_revision d <? i64_max then Ok (tt, set_revision (Z.add 1) d) else Err Unavailable.

Definition audit_row (id : Uuid) (op : option Uuid) (event : string) (now : Z) : AuditRow :=
  {| au_installation_id := id; au_operation_id := op; au_event := event; au_created_at := now |}.

Definition add_audit (id : Uuid) (op : option Uuid) (event : string) (now : Z) (d : Db) : Db :=
  set_revision (Z.add 1) (set_audit (fun l => l ++ [audit_row id op event now]) d).

Definition insert_audit (id : Uuid) (op : option Uuid) (event : string) (now : Z) : Tx unit :=
  fun d =>
    if has_installation id d
    then (_ ← tx_modify (set_audit (fun l => l ++ [audit_row id op event now]));
          advance_restore_fence) d
    else Err Unavailable.

(** [UPDATE installations SET ... WHERE installation_id = id AND cond]: the new
    row when one matched. *)
Definition update_installation (id : Uuid) (cond : Installation -> bool)
    (f : Installation -> result StoreError Installation) : Tx (option Installation) := fun d =>
  match d_installations d !! id with
  | Some row =>
      if cond row then row' ← f row; Ok (Some row', set_installations <[id := row']> d)
      else Ok (None, d)
  | None => Ok (None, d)
  end.

(** [SELECT ... FROM installations WHERE installation_id = id AND cond]. *)
Definition select_installation (id : Uuid) (cond : Installation -> bool) (d : Db) :
    option Installation :=
  row ← d_installations d !! id; if cond row then Some row else None.

Definition set_generation (g : Z) (row : Installation) : Installation :=
  {| i_hostname := i_hostname row; i_admin_public_key := i_admin_public_key row;
     i_placement := i_placement row; i_generation := g; i_state := i_state row;
     i_acme_account_uri := i_acme_account_uri row; i_created_at := i_created_at row;
     i_retired_at := i_retired_at row |}.
Definition set_state (s : AllocationState) (retired_at : option Z) (row : Installation) :
    Installation :=
  {| i_hostname := i_hostname row; i_admin_public_key := i_admin_public_key row;
     i_placement := i_placement row; i_generation := i_generation row; i_state := s;
     i_acme_account_uri := i_acme_account_uri row; i_created_at := i_created_at row;
     i_retired_at := retired_at |}.
Definition set_placement (p : string) (row : Installation) : Installation :=
  {| i_hostname := i_hostname row; i_admin_public_key := i_admin_public_key row;
     i_placement := p; i_generation := i_generation row; i_state := i_state row;
     i_acme_account_uri := i_acme_account_uri row; i_created_at := i_created_at row;
     i_retired_at := i_retired_at row |}.
Definition set_account (uri : string) (row : Installation) : Installation :=
  {| i_hostname := i_hostname row; i_admin_public_key := i_admin_public_key row;
     i_placement := i_placement row; i_generation := i_generation row; i_state := i_state row;
     i_acme_account_uri := Some uri; i_created_at := i_created_at row;
     i_retired_at := i_retired_at row |}.

(** [generation = generation + 1] on a [bigint] column. *)
Definition next_generation (row : Installation) : result StoreError Installation :=
  if i_generation row <? i64_max then Ok (set_generation (i_generation row + 1) row)
  else Err Unavailable.

(** [INSERT INTO scoped_bearer_credentials]: primary key, foreign key, checks. *)
Definition insert_credential (id : Uuid) (scope : string) (generation : Z) (row : Credential) :
    Tx unit := fun d =>
  if bool_decide (is_Some (d_credentials d !! (id, scope, generation)))
     || negb (has_installation id d) || (generation <=? 0)
     || negb (bool_decide (List.length (k_token_hash row) = 32%nat))
  then Err Unavailable
  else Ok (tt, set_credentials <[(id, scope, generation) := row]> d).

Definition revoke (now : Z) (c : Credential) : Credential :=
  {| k_token_hash := k_token_hash c; k_expires_at := k_expires_at c; k_revoked_at := Some now |}.

(** [UPDATE ... SET revoked_at = now() WHERE (key matches)] over credentials. *)
Definition revoke_where (now : Z) (p : Uuid * string * Z -> Credential -> bool) (d : Db) : Db :=
  set_credentials (map_imap (fun key c => Some (if p key c then revoke now c else c))) d.

Definition delete_lease (id : Uuid) (d : Db) : Db := set_leases (delete id) d.

(** ** What a successful statement did *)
Lemma has_installation_true id d :
  has_installation id d = true <-> is_Some (d_installations d !! id).
Proof. apply bool_decide_eq_true. Qed.

Lemma insert_installation_ok id row d u d' :
  insert_installation id row d = Ok (u, d') <->
  d_installations d !! id = None /\
  map_Forall (fun _ r => i_hostname r <> i_hostname row) (d_installations d) /\
  List.length (i_admin_public_key row) = 32%nat /\
  u = tt /\ d' = set_installations <[id := row]> d.
Proof.
  unfold insert_installation, has_installation. split.
  - intros Hi. inv_ok. to_prop. repeat split; try done; [by apply eq_None_not_Some|].
    intros k r Hk Heq. match goal with H : ~ map_Exists _ _ |- _ => apply H end. by exists k, r.
  - intros (Hn & Hf & Hl & -> & ->). rewrite Hn, (bool_decide_eq_false_2 (map_Exists _ _)).
    + by rewrite (bool_decide_eq_true_2 (_ = 32%nat)).
    + intros (k & r & Hk & Heq). by apply (Hf k r).
Qed.

Lemma insert_reservation_ok h id d u d' :
  insert_reservation h id d = Ok (u, d') ->
  d_reservations d !! h = None /\ is_Some (d_installations d !! id) /\
  d' = set_reservations <[h := id]> d.
Proof.
  unfold insert_reservation, has_installation. intros Hi. inv_ok. to_prop.
  split_and!; auto. by apply eq_None_not_Some.
Qed.

Lemma insert_operation_ok op row d u d' :
  insert_operation op row d = Ok (u, d') ->
  d_operations d !! op = None /\ is_Some (d_installations d !! o_installation_id row) /\
  d' = set_operations <[op := row]> d.
Proof.
  unfold insert_operation, has_installation. intros Hi. inv_ok. to_prop.
  split_and!; auto. by apply eq_None_not_Some.
Qed.

Lemma insert_outbox_ok id kind payload now d u d' :
  insert_outbox id kind payload now d = Ok (u, d') ->
  is_Some (d_installations d !! id) /\ d' = add_outbox id kind payload now d.
Proof. unfold insert_outbox, has_installation. intros Hi. inv_ok. to_prop. auto. Qed.

Lemma insert_audit_ok id op event now d u d' :
  insert_audit id op event now d = Ok (u, d') ->
  is_Some (d_installations d !! id) /\ d_revision d < i64_max /\
  d' = add_audit id op event now d.
Proof.
  unfold insert_audit, has_installation. intros Hi. inv_ok.
  apply tx_bind_ok in Hi as (v & d1 & Hm & Hf). unfold tx_modify, advance_restore_fence in *.
  inv_ok. to_prop. cbn in *. auto.
Qed.

Lemma update_installation_ok id cond f d o d' :
  update_installation id cond f d = Ok (o, d') ->
  (o = None /\ d' = d /\ select_installation id cond d = None) \/
  exists row row', d_installations d !! id = Some row /\ cond row = true /\ f row = Ok row' /\
    o = Some row' /\ d' = set_installations <[id := row']> d.
Proof.
  unfold update_installation, select_installation. intros Hu.
  destruct (d_installations d !! id) as [row|]; cbn; [|inv_ok; auto].
  destruct (cond row) eqn:Hc; inv_ok; eauto 10.
Qed.

Lemma select_installation_Some id cond d row :
  select_installation id cond d = Some row <->
  d_installations d !! id = Some row /\ cond row = true.
Proof.
  unfold select_installation.
  destruct (d_installations d !! id) as [r|]; cbn; [|split; [done | by intros [? _]]].
  destruct (cond r) eqn:Hc.
  - split; [by intros [= <-] | by intros [[= <-] _]].
  - split; [done | intros [[= <-] Ht]; congruence].
Qed.

Lemma select_installation_None id cond d row :
  select_installation id cond d = None -> d_installations d !! id = Some row -> cond row = false.
Proof. unfold select_installation. intros Hs Hl. rewrite Hl in Hs. cbn in Hs. by destruct (cond row). Qed.

Lemma next_generation_ok row row' :
  next_generation row = Ok row' ->
  i_generation row < i64_max /\ row' = set_generation (i_generation row + 1) row.
Proof. unfold next_generation. intros Hn. inv_ok. by to_prop. Qed.

Lemma insert_credential_ok id scope g row d u d' :
  insert_credential id scope g row d = Ok (u, d') ->
  d_credentials d !! (id, scope, g) = None /\ 0 < g /\
  d' = set_credentials <[(id, scope, g) := row]> d.
Proof.
  unfold insert_credential, has_installation. intros Hi. inv_ok. to_prop.
  split_and!; auto; try lia. by apply eq_None_not_Some.
Qed.

(** *** and when a statement succeeds *)
Lemma insert_credential_intro id scope g row d :
  d_credentials d !! (id, scope, g) = None -> is_Some (d_installations d !! id) -> 0 < g ->
  List.length (k_token_hash row) = 32%nat ->
  insert_credential id scope g row d = Ok (tt, set_credentials <[(id, scope, g) := row]> d).
Proof.
  intros Hn Hi Hg Hl. unfold insert_credential. rewrite (proj2 (has_installation_true id d) Hi), Hn.
  rewrite (bool_decide_eq_true_2 (_ = 32%nat)) by done. rewrite (proj2 (Z.leb_gt _ _)) by lia. done.
Qed.

Lemma insert_operation_intro op row d :
  d_operations d !! op = None -> is_Some (d_installations d !! o_installation_id row) ->
  List.length (o_request_digest row) = 32%nat ->
  insert_operation op row d = Ok (tt, set_operations <[op := row]> d).
Proof.
  intros Hn Hi Hl. unfold insert_operation. rewrite (proj2 (has_installation_true _ d) Hi), Hn.
  by rewrite (bool_decide_eq_true_2 (_ = 32%nat)).
Qed.

Lemma insert_audit_intro id op event now d :
  is_Some (d_installations d !! id) -> d_revision d < i64_max ->
  insert_audit id op event now d = Ok (tt, add_audit id op event now d).
Proof.
  intros Hi Hr. unfold insert_audit. rewrite (proj2 (has_installation_true _ d) Hi).
  apply tx_bind_ok. eexists tt, _. split; [done|]. unfold advance_restore_fence. cbn [set_audit d_revision].
  by rewrite (proj2 (Z.ltb_lt _ _) Hr).
Qed.

Lemma update_installation_intro id (cond : Installation -> bool) f row row' d :
  d_installations d !! id = Some row -> cond row = true -> f row = Ok row' ->
  update_installation id cond f d = Ok (Some row', set_installations <[id := row']> d).
Proof. intros Hl Hc Hf. unfold update_installation. by rewrite Hl, Hc, Hf. Qed.

Lemma next_generation_intro row :
  i_generation row < i64_max -> next_generation row = Ok (set_generation (i_generation row + 1) row).
Proof. intros Hl. unfold next_generation. by rewrite (proj2 (Z.ltb_lt _ _) Hl). Qed.

Lemma lookup_revoke_where now p d key :
  d_credentials (revoke_where now p d) !! key =
  (fun c => if p key c then revoke now c else c) <$> d_credentials d !! key.
Proof. cbn. rewrite map_lookup_imap. by destruct (d_credentials d !! key). Qed.

(** Takes apart a transaction that succeeded. *)
Ltac inv_tx_step :=
  match goal with
  | H : ?x = ?x |- _ => clear H
  | H : mbind _ _ _ = Ok (_, _) |- _ =>
      apply tx_bind_ok in H; let x := fresh "x" in let e := fresh "d" in let Hx := fresh "Hx" in
      destruct H as (x & e & Hx & H)
  | H : tx_lift _ _ = Ok (_, _) |- _ => apply tx_lift_ok in H as [H ->]
  | H : tx_some _ _ _ = Ok (_, _) |- _ => apply tx_some_ok in H as [H ->]
  | H : tx_reject _ _ _ = Ok (_, _) |- _ => apply tx_reject_ok in H as [H ->]
  | H : tx_gets _ _ = Ok (_, _) |- _ => apply Ok_inj, pair_inj in H as [<- <-]
  | H : tx_modify _ _ = Ok (_, _) |- _ => apply Ok_inj, pair_inj in H as [_ <-]
  | H : mret _ _ = Ok (_, _) |- _ => apply Ok_inj, pair_inj in H as [<- <-]
  | H : insert_reservation _ _ _ = Ok (_, _) |- _ =>
      apply insert_reservation_ok in H as (? & ? & ->)
  | H : insert_operation _ _ _ = Ok (_, _) |- _ => apply insert_operation_ok in H as (? & ? & ->)
  | H : insert_outbox _ _ _ _ _ = Ok (_, _) |- _ => apply insert_outbox_ok in H as (? & ->)
  | H : insert_audit _ _ _ _ _ = Ok (_, _) |- _ => apply insert_audit_ok in H as (? & ? & ->)
  | H : insert_installation _ _ _ = Ok (_, _) |- _ =>
      apply insert_installation_ok in H as (? & ? & ? & -> & ->)
  | H : insert_credential _ _ _ _ _ = Ok (_, _) |- _ =>
      apply insert_credential_ok in H as (? & ? & ->)
  | H : update_installation _ _ _ _ = Ok (_, _) |- _ =>
      apply update_installation_ok in H as [(-> & -> & ?) | (? & ? & ? & ? & ? & -> & ->)]
  | H : next_generation _ = Ok _ |- _ => apply next_generation_ok in H as [? ->]
  | H : Err _ = Ok _ |- _ => discriminate H
  | H : Ok _ = Ok _ |- _ => apply Ok_inj in H; try subst
  | H : None = Some _ |- _ => discriminate H
  | H : Some _ = None |- _ => discriminate H
  | H : Some _ = Some _ |- _ => apply Some_inj' in H; try subst
  | H : (_, _) = (_, _) |- _ => apply pair_inj in H as [? ?]; try subst
  end.
Ltac inv_tx := repeat inv_tx_step.
