(* ===== verification/Witness.v ===== *)
(** * Restore witness: crates/bloom-relay-store/src/restore.rs and s3_witness.rs

    The high-water mark kept outside the database: a local file and,
    when configured, an S3 object written by compare-and-swap.
    [verify_and_advance] runs its attempts against a [WitnessEnv] that gives,
    for each attempt, the revision the database reports and what other
    writers do to the S3 object between this attempt's read and its write.
    The S3 service is the [S3] class; what the code relies on of it is
    [S3Laws]. *)

From Stdlib Require Import Ascii String Strings.Byte.
From stdpp Require Import base strings list gmap.
From S2P Require Import Prelude Protocol Db.

(** Conditional writes that lose a race re-read and retry this many times. *)
Definition REMOTE_ATTEMPTS : nat := 4.

Inductive IoError := InvalidData | InvalidInput | PermissionDenied | TimedOut | IoOther.
#[global] Instance IoError_eq_dec : EqDecision IoError.
Proof. solve_decision. Defined.

Inductive WitnessError :=
| Missing
| StaleDatabase
| RemoteContention
| Io (error : IoError)
| FromStore (error : StoreError).
#[global] Instance WitnessError_eq_dec : EqDecision WitnessError.
Proof. solve_decision. Defined.

(** [WitnessError::to_string]. *)
Definition witness_message (e : WitnessError) : string :=
  match e with
  | Missing => "restore witness missing for established database"
  | StaleDatabase => "database revision below external restore witness"
  | RemoteContention => "remote restore witness kept changing during a write"
  | Io _ => "restore witness storage unavailable"
  | FromStore _ => "database unavailable"
  end.

Record RemoteRevision := { rr_revision : Z; rr_version_tag : string }.
#[global] Instance RemoteRevision_eq_dec : EqDecision RemoteRevision.
Proof. solve_decision. Defined.

Inductive RemoteWrite := Written (written : RemoteRevision) | WriteConflict.

(** ** The local file *)

(** What [symlink_metadata] and [read] find at the witness path. *)
Inductive FsEntry :=
| FsAbsent
| FsMetadataError (e : IoError)
| FsNotFile
| FsFile (mode : Z) (contents : result IoError (list byte)).

(** [parse_revision]. A byte outside ASCII is not a digit, so input that is
    not UTF-8 fails the parse with the same error kind. *)
Definition parse_revision (bytes : list byte) : result IoError Z :=
  if 24 <? Z.of_nat (List.length bytes) then Err InvalidData
  else ok_or InvalidData (parse_u64 (list_trim_end (fun b => bool_decide (b = NEWLINE)) bytes)).

Definition read_revision (entry : FsEntry) : result IoError (option Z) :=
  match entry with
  | FsAbsent => Ok None
  | FsMetadataError e => Err e
  | FsNotFile => Err InvalidData
  | FsFile mode contents =>
      if negb (Z.land mode 7 =? 0) then Err PermissionDenied
      else bytes ← contents; Some <$> parse_revision bytes
  end.

Definition revision_body (revision : Z) : list byte := str_bytes (u64_to_string revision) ++ [NEWLINE].

(** Where [write_revision] can fail: before the rename replaces the file, or
    after it, when the directory is synced. *)
Inductive WriteFault := NoFault | FaultBeforeRename (e : IoError) | FaultAfterRename (e : IoError).

(** [write_revision]: the temporary file is created with mode [0o660] and renamed. *)
Definition write_revision (fault : WriteFault) (revision : Z) (entry : FsEntry) :
    result IoError unit * FsEntry :=
  let written := FsFile 432 (Ok (revision_body revision)) in
  match fault with
  | NoFault => (Ok tt, written)
  | FaultBeforeRename e => (Err e, entry)
  | FaultAfterRename e => (Err e, written)
  end.

(** ** The S3 object *)
Inductive GetResponse :=
| GetOk (e_tag : option string) (body : result IoError (list byte))
| GetNoSuchKey
| GetFailed.

Inductive PutCondition := IfMatch (tag : string) | IfNoneMatch.

Inductive PutResponse :=
| PutOk (e_tag : option string)
| PutStatus (status : Z)
| PutFailed.

Class S3 := {
  S3State : Type;
  s3_get : S3State -> GetResponse * S3State;
  s3_put : PutCondition -> list byte -> S3State -> PutResponse * S3State
}.

(** What S3 documents of a versioned object: a read returns the stored body
    and tag, a conditional write applies only when its condition holds of the
    stored object and stores the given body, a write answered with an error
    status changes nothing, and a tag names one body. *)
Class S3Laws `{S3} := {
  s3_object : S3State -> option (list byte * string);
  s3_get_state : forall r, s3_object (s3_get r).2 = s3_object r;
  s3_get_ok : forall r tag body,
    (s3_get r).1 = GetOk (Some tag) (Ok body) -> s3_object r = Some (body, tag);
  s3_get_missing : forall r, (s3_get r).1 = GetNoSuchKey -> s3_object r = None;
  s3_put_applied : forall c body r,
    s3_object (s3_put c body r).2 = s3_object r \/
    (exists tag, s3_object (s3_put c body r).2 = Some (body, tag)) /\
    match c with
    | IfMatch t => exists old, s3_object r = Some (old, t)
    | IfNoneMatch => s3_object r = None
    end;
  s3_put_ok : forall c body r tag,
    (s3_put c body r).1 = PutOk tag -> exists t, s3_object (s3_put c body r).2 = Some (body, t);
  s3_tag_body : forall r1 r2 b1 b2 t,
    s3_object r1 = Some (b1, t) -> s3_object r2 = Some (b2, t) -> b1 = b2
}.

Section witness.
Context `{S3}.

(** [S3Witness::read]. *)
Definition remote_read (r : S3State) : result IoError (option RemoteRevision) * S3State :=
  let (response, r') := s3_get r in
  (match response with
   | GetNoSuchKey => Ok None
   | GetFailed => Err IoOther
   | GetOk e_tag body =>
       version_tag ← ok_or InvalidInput e_tag;
       bytes ← body;
       revision ← parse_revision bytes;
       Ok (Some {| rr_revision := revision; rr_version_tag := version_tag |})
   end, r').

(** [S3Witness::write]. *)
Definition remote_write (revision : Z) (replacing : option RemoteRevision) (r : S3State) :
    result IoError RemoteWrite * S3State :=
  let condition := match replacing with
    | Some current => IfMatch (rr_version_tag current)
    | None => IfNoneMatch
    end in
  let (response, r') := s3_put condition (revision_body revision) r in
  (match response with
   | PutOk e_tag =>
       version_tag ← ok_or InvalidInput e_tag;
       Ok (Written {| rr_revision := revision; rr_version_tag := version_tag |})
   | PutStatus status =>
       if (status =? 409) || (status =? 412) then Ok WriteConflict else Err IoOther
   | PutFailed => Err IoOther
   end, r').

(** ** RestoreWitness *)
Record WitnessState := {
  ws_file : FsEntry;
  ws_remote : option S3State;
  ws_seen : option RemoteRevision
}.

(** [RestoreWitness::new]: the path must be absolute and name a file. Its
    components are the pieces between slashes, without [.] and empty ones. *)
Definition path_components (path : string) : list (list byte) :=
  filter (fun c => c <> [] /\ c <> str_bytes ".") (split_on Byte.x2f (str_bytes path)).
Definition file_name (path : string) : option (list byte) :=
  match last (path_components path) with
  | Some c => if decide (c = str_bytes "..") then None else Some c
  | None => None
  end.
Definition witness_new (path : string) : result IoError string :=
  if negb (starts_with "/" path) || bool_decide (file_name path = None) then Err InvalidInput
  else Ok path.

(** [S3Witness::from_env] on the values of its three variables: the bucket,
    key and region, or [None] when no bucket is set. *)
Definition non_empty (v : option string) : option string :=
  match v with Some s => if decide (s = EmptyString) then None else Some s | None => None end.
Definition s3_from_env (bucket key region : option string) :
    result IoError (option (string * string * string)) :=
  match non_empty bucket with
  | None =>
      if bool_decide (is_Some (non_empty key)) || bool_decide (is_Some (non_empty region))
      then Err InvalidInput else Ok None
  | Some bucket =>
      key ← ok_or InvalidInput (non_empty key);
      region ← ok_or InvalidInput (non_empty region);
      Ok (Some (bucket, key, region))
  end.

(** [RestoreWitness::from_env], over the local disk and the reachable buckets. *)
Definition witness_from_env (disk : string -> FsEntry) (buckets : string * string * string -> S3State)
    (path : string) (bucket key region : option string) : result IoError WitnessState :=
  path ← witness_new path;
  remote ← s3_from_env bucket key region;
  Ok {| ws_file := disk path; ws_remote := buckets <$> remote; ws_seen := None |}.

(** The surroundings of one call: taking the file lock, the database at each
    attempt, other writers of the S3 object, and the local file system. *)
Record WitnessEnv := {
  we_lock : result IoError unit;
  we_revision : nat -> result StoreError Z;
  we_pristine : nat -> result StoreError bool;
  we_rivals : nat -> S3State -> S3State;
  we_write : WriteFault
}.

Definition set_file (f : FsEntry) (ws : WitnessState) : WitnessState :=
  {| ws_file := f; ws_remote := ws_remote ws; ws_seen := ws_seen ws |}.
Definition set_remote (r : S3State) (ws : WitnessState) : WitnessState :=
  {| ws_file := ws_file ws; ws_remote := Some r; ws_seen := ws_seen ws |}.
Definition set_seen (s : option RemoteRevision) (ws : WitnessState) : WitnessState :=
  {| ws_file := ws_file ws; ws_remote := ws_remote ws; ws_seen := s |}.

(** [Option<u64>::max]: [None] is least. *)
Definition option_max (a b : option Z) : option Z :=
  match a, b with
  | Some x, Some y => Some (Z.max x y)
  | Some x, None => Some x
  | None, _ => b
  end.

(** The two checks on [prior]. *)
Definition check_prior (prior : option Z) (revision : Z) (pristine : result StoreError bool) :
    result WitnessError unit :=
  match prior with
  | None =>
      if negb (revision =? 1) then Err Missing
      else p ← map_err FromStore pristine; if p : bool then Ok tt else Err Missing
  | Some value => if revision <? value then Err StaleDatabase else Ok tt
  end.

(** [if local != Some(revision) { write_revision(..)? } return Ok(())]. *)
Definition finish (env : WitnessEnv) (revision : Z) (local : option Z) (ws : WitnessState) :
    result WitnessError unit * WitnessState :=
  if bool_decide (local = Some revision) then (Ok tt, ws)
  else
    let (res, entry) := write_revision (we_write env) revision (ws_file ws) in
    (map_err Io res, set_file entry ws).

Fixpoint attempts (fuel n : nat) (env : WitnessEnv) (ws : WitnessState) :
    result WitnessError unit * WitnessState :=
  match fuel with
  | O => (Err RemoteContention, ws)
  | S fuel' =>
      match we_revision env n, read_revision (ws_file ws) with
      | Err e, _ => (Err (FromStore e), ws)
      | Ok _, Err e => (Err (Io e), ws)
      | Ok revision, Ok local =>
          match ws_remote ws with
          | None =>
              match check_prior local revision (we_pristine env n) with
              | Err e => (Err e, ws)
              | Ok _ => finish env revision local ws
              end
          | Some r =>
              if bool_decide (rr_revision <$> ws_seen ws = Some revision)
                 && bool_decide (local = Some revision)
              then (Ok tt, ws)
              else
                let (got, r1) := remote_read r in
                let ws := set_remote r1 ws in
                match got with
                | Err e => (Err (Io e), ws)
                | Ok remote_revision =>
                    let remote := rr_revision <$> remote_revision in
                    match check_prior (option_max local remote) revision (we_pristine env n) with
                    | Err e => (Err e, ws)
                    | Ok _ =>
                        if bool_decide (remote = Some revision)
                        then finish env revision local (set_seen remote_revision ws)
                        else
                          let (res, r3) := remote_write revision remote_revision (we_rivals env n r1) in
                          let ws := set_remote r3 ws in
                          match res with
                          | Err e => (Err (Io e), ws)
                          | Ok (Written written) =>
                              finish env revision local (set_seen (Some written) ws)
                          | Ok WriteConflict => attempts fuel' (S n) env (set_seen None ws)
                          end
                    end
                end
          end
      end
  end.

Definition verify_and_advance (env : WitnessEnv) (ws : WitnessState) :
    result WitnessError unit * WitnessState :=
  match we_lock env with
  | Err e => (Err (Io e), ws)
  | Ok _ => attempts REMOTE_ATTEMPTS 0 env ws
  end.
End witness.

(** ** Reading back what was written *)
Lemma list_trim_end_one p l c :
  (forall b, b ∈ l -> p b = false) -> p c = true -> list_trim_end p (l ++ [c]) = l.
Proof.
  intros Hl Hc. unfold list_trim_end. rewrite reverse_app. cbn. rewrite Hc.
  rewrite <-(reverse_involutive l) at 2. f_equal.
  destruct (reverse l) as [|b k] eqn:Hr; [done|]. rewrite Hl; [done|].
  apply elem_of_reverse. rewrite Hr. by left.
Qed.

Lemma length_dec_digits fuel n acc :
  (List.length (dec_digits fuel n acc) <= fuel + List.length acc)%nat.
Proof.
  revert n acc. induction fuel as [|fuel IH]; intros n acc; cbn; [lia|].
  case_match; cbn; [lia|]. etrans; [apply IH | cbn; lia].
Qed.

Lemma parse_revision_body n : is_u64 n -> parse_revision (revision_body n) = Ok n.
Proof.
  intros Hn. unfold parse_revision, revision_body, u64_to_string. rewrite str_bytes_string.
  rewrite length_app. pose proof (length_dec_digits 20 n []) as Hl. cbn [List.length] in *.
  rewrite (proj2 (Z.ltb_ge _ _)) by lia.
  rewrite list_trim_end_one.
  - apply ok_or_ok. pose proof (parse_u64_to_string n Hn) as Hp. unfold u64_to_string in Hp.
    by rewrite str_bytes_string in Hp.
  - intros b Hb. apply dec_digits_digit in Hb; [|apply Hn].
    apply bool_decide_eq_false. by intros ->.
  - by apply bool_decide_eq_true.
Qed.

Lemma read_written_revision n :
  is_u64 n -> read_revision (FsFile 432 (Ok (revision_body n))) = Ok (Some n).
Proof. intros Hn. cbn -[revision_body]. by rewrite parse_revision_body. Qed.

#[local] Arguments parse_revision : simpl never.
#[local] Arguments revision_body : simpl never.
#[local] Arguments read_revision : simpl never.

(** [None] is below every recorded revision. *)
Definition rev_le (a b : option Z) : Prop :=
  match a, b with
  | None, _ => True
  | Some x, Some y => x <= y
  | Some _, None => False
  end.

#[global] Instance rev_le_preorder : PreOrder rev_le.
Proof.
  split; [intros [x|]; cbn; lia|]. intros [x|] [y|] [z|]; cbn; try done; lia.
Qed.

(** The revision the S3 object records, when its body is well formed. *)
Definition object_revision `{S3Laws} (r : S3State) : option Z :=
  '(body, _) ← s3_object r; result_ok (parse_revision body).

Section witness_facts.
Context `{L : S3Laws}.

Lemma remote_read_ok r v r' :
  remote_read r = (Ok v, r') ->
  s3_object r' = s3_object r /\
  match v with
  | None => s3_object r = None
  | Some m => exists body, s3_object r = Some (body, rr_version_tag m) /\
                parse_revision body = Ok (rr_revision m)
  end.
Proof.
  unfold remote_read. destruct (s3_get r) as [resp r1] eqn:Hg. intros Heq.
  apply pair_inj in Heq as [Hv <-].
  pose proof (s3_get_state r) as Hs. rewrite Hg in Hs. split; [exact Hs|].
  destruct resp as [tag body| |]; inv_ok; cbn.
  - exists x0. split; [|done]. apply s3_get_ok. by rewrite Hg.
  - apply s3_get_missing. by rewrite Hg.
Qed.

(** A conditional write by a caller that read [replacing] (or its absence)
    never lowers the object, whatever happened in between. *)
Lemma remote_write_never_lowers revision replacing r0 r res r' :
  is_u64 revision ->
  match replacing with
  | None => True
  | Some m => rr_revision m <= revision /\
      exists body, s3_object r0 = Some (body, rr_version_tag m) /\ parse_revision body = Ok (rr_revision m)
  end ->
  remote_write revision replacing r = (res, r') ->
  rev_le (object_revision r) (object_revision r').
Proof.
  unfold remote_write, object_revision. intros Hrev Hrep.
  set (c := match replacing with Some m => IfMatch _ | None => IfNoneMatch end).
  destruct (s3_put c _ r) as [resp r2] eqn:Hp. intros Heq. apply pair_inj in Heq as [_ <-].
  pose proof (s3_put_applied c (revision_body revision) r) as [Hs | [[tag Hs] Hc]];
    rewrite Hp in Hs; cbn [snd] in Hs; rewrite Hs; [done|].
  cbn. rewrite parse_revision_body by done. cbn. subst c.
  destruct replacing as [m|]; [|by rewrite Hc].
  destruct Hrep as (Hle & body & Hb & Hparse). destruct Hc as [old Hold].
  rewrite Hold. cbn. rewrite <-(s3_tag_body _ _ _ _ _ Hb Hold), Hparse. done.
Qed.

Lemma remote_write_written revision replacing r w r' :
  is_u64 revision -> remote_write revision replacing r = (Ok (Written w), r') ->
  rr_revision w = revision /\ object_revision r' = Some revision.
Proof.
  unfold remote_write, object_revision. intros Hrev.
  set (c := match replacing with Some m => IfMatch _ | None => IfNoneMatch end).
  destruct (s3_put c _ r) as [resp r2] eqn:Hp. intros Heq. apply pair_inj in Heq as [Hr <-].
  destruct resp as [tag|st|]; [|by inv_ok..].
  destruct (s3_put_ok c (revision_body revision) r tag) as [t Ht]; [by rewrite Hp|].
  rewrite Hp in Ht. cbn in Ht. rewrite Ht. cbn. rewrite parse_revision_body by done.
  inv_ok. match goal with Hw : Written _ = Written _ |- _ => injection Hw as <- end. done.
Qed.

Lemma check_prior_ok prior revision p : check_prior prior revision p = Ok tt -> rev_le prior (Some revision).
Proof. destruct prior; cbn; [|done]. intros Hc. inv_ok. by to_prop. Qed.

Lemma option_max_le a b c : rev_le (option_max a b) c <-> rev_le a c /\ rev_le b c.
Proof. destruct a, b, c; cbn; try naive_solver; lia. Qed.

Lemma finish_ok env revision local ws ws' :
  is_u64 revision -> read_revision (ws_file ws) = Ok local ->
  finish env revision local ws = (Ok tt, ws') ->
  read_revision (ws_file ws') = Ok (Some revision) /\
  ws_remote ws' = ws_remote ws /\ ws_seen ws' = ws_seen ws.
Proof.
  unfold finish. intros Hrev Hl. case_bool_decide; [intros [= <-]; by subst|].
  unfold write_revision. destruct (we_write env); cbn; intros Hw;
    apply pair_inj in Hw as [? <-]; try done. cbn.
  by rewrite (read_written_revision revision Hrev).
Qed.
End witness_facts.

Section witness_properties.
Context `{L : S3Laws}.

(** Every revision the database reports fits its unsigned column type. *)
Definition env_u64 (env : WitnessEnv) : Prop :=
  forall n revision, we_revision env n = Ok revision -> is_u64 revision.

(** Other writers of the S3 object never lower it. *)
Definition rivals_monotone (env : WitnessEnv) : Prop :=
  forall n r, rev_le (object_revision r) (object_revision (we_rivals env n r)).

Definition remote_le (a b : option S3State) : Prop :=
  match a, b with
  | None, None => True
  | Some r, Some r' => rev_le (object_revision r) (object_revision r')
  | _, _ => False
  end.

#[local] Instance remote_le_refl : Reflexive remote_le.
Proof. intros [r|]; cbn; done. Qed.

Lemma finish_remote env revision local ws res ws' :
  finish env revision local ws = (res, ws') -> ws_remote ws' = ws_remote ws.
Proof.
  unfold finish, write_revision. case_bool_decide; [by intros [= _ <-]|].
  by destruct (we_write env); intros [= _ <-].
Qed.

Lemma attempts_remote_monotone fuel n env ws res ws' :
  env_u64 env -> rivals_monotone env -> attempts fuel n env ws = (res, ws') ->
  remote_le (ws_remote ws) (ws_remote ws').
Proof.
  intros Hu Hm. revert n ws.
  induction fuel as [|fuel IH]; intros n ws; cbn.
  { by intros [= _ <-]. }
  destruct (we_revision env n) as [revision|e] eqn:Hrev;
    [|by intros [= _ <-]].
  specialize (Hu n revision Hrev) as Hru.
  destruct (read_revision (ws_file ws)) as [local|e];
    [|by intros [= _ <-]].
  destruct (ws_remote ws) as [r|] eqn:Hr.
  2:{ destruct (check_prior _ _ _); [|by intros [= _ <-]; rewrite Hr].
      intros Hf%finish_remote. by rewrite Hf, Hr. }
  destruct (_ && _); [by intros [= _ <-]; rewrite Hr|].
  destruct (remote_read r) as [got r1] eqn:Hg.
  destruct got as [remote|e]; [|intros [= _ <-]; cbn; revert Hg].
  2:{ unfold remote_read. pose proof (s3_get_state r) as Hs. destruct (s3_get r) as [resp r2].
      intros [= _ <-]. unfold object_revision. cbn in Hs. by rewrite Hs. }
  apply remote_read_ok in Hg as [Hs Hremote].
  assert (object_revision r1 = object_revision r) as Ho by (unfold object_revision; by rewrite Hs).
  destruct (check_prior _ _ _) as [[]|] eqn:Hc; [|intros [= _ <-]; cbn; by rewrite Ho].
  apply check_prior_ok, option_max_le in Hc as [_ Hle].
  case_bool_decide; [intros Hf%finish_remote; rewrite Hf; cbn; by rewrite Ho|].
  destruct (remote_write _ _ _) as [wres r3] eqn:Hw.
  assert (rev_le (object_revision r) (object_revision r3)) as Hmono.
  { etrans; [rewrite <-Ho; apply (Hm n r1)|].
    eapply (remote_write_never_lowers revision remote r); [done | | exact Hw].
    destruct remote as [m|]; [|done]. destruct Hremote as (body & ? & ?). eauto. }
  destruct wres as [[w|]|e]; [intros Hf%finish_remote; by rewrite Hf | | by intros [= _ <-]].
  intros Ha%IH. cbn in Ha. destruct (ws_remote ws') as [r4|]; [|done]. cbn in *. by etrans.
Qed.

Lemma attempts_ok fuel n env ws ws' :
  env_u64 env -> attempts fuel n env ws = (Ok tt, ws') ->
  exists k revision local, we_revision env k = Ok revision /\
    read_revision (ws_file ws) = Ok local /\ rev_le local (Some revision) /\
    read_revision (ws_file ws') = Ok (Some revision).
Proof.
  intros Hu. revert n ws. induction fuel as [|fuel IH]; intros n ws; cbn; [done|].
  destruct (we_revision env n) as [revision|e] eqn:Hrev; [|done].
  specialize (Hu n revision Hrev) as Hru.
  destruct (read_revision (ws_file ws)) as [local|e] eqn:Hl; [|done].
  destruct (ws_remote ws) as [r|] eqn:Hr.
  2:{ destruct (check_prior _ _ _) as [[]|] eqn:Hc; [|done]. apply check_prior_ok in Hc.
      intros Hf. apply finish_ok in Hf as (Hf & _); [|done..]. eauto 10. }
  destruct (_ && _) eqn:Hfast.
  { to_prop. intros [= <-]. subst local. eexists n, _, _. by rewrite Hl. }
  clear Hfast.
  destruct (remote_read r) as [[remote|e] r1]; [|done].
  destruct (check_prior _ _ _) as [[]|] eqn:Hc; [|done].
  apply check_prior_ok, option_max_le in Hc as [Hle _].
  case_bool_decide.
  { intros Hf. apply finish_ok in Hf as (Hf & _); [|done..]. eauto 10. }
  destruct (remote_write _ _ _) as [[[w|]|e] r3]; [| |done].
  - intros Hf. apply finish_ok in Hf as (Hf & _); [|done..]. eauto 10.
  - intros (k & rev' & local' & ? & Hl' & ? & ?)%IH. cbn in Hl'. rewrite Hl in Hl'. eauto 10.
Qed.

Lemma attempts_stale fuel n env ws revision v :
  we_revision env n = Ok revision -> revision < v ->
  read_revision (ws_file ws) = Ok (Some v) \/
  (exists r, ws_remote ws = Some r /\ object_revision r = Some v /\
     read_revision (ws_file ws) <> Ok (Some revision)) ->
  exists e ws', attempts fuel n env ws = (Err e, ws') /\ ws_file ws' = ws_file ws /\
    (s3_object <$> ws_remote ws') = (s3_object <$> ws_remote ws).
Proof.
  intros Hrev Hlt Hstale. destruct fuel as [|fuel]; cbn; [eauto|]. rewrite Hrev.
  destruct (read_revision (ws_file ws)) as [local|e] eqn:Hl; [|eauto].
  destruct (ws_remote ws) as [r|] eqn:Hr.
  2:{ destruct Hstale as [[= ->] | (? & ? & _)]; [|done]. cbn.
      rewrite (proj2 (Z.ltb_lt _ _)) by done. eexists _, _. split_and!; [done..|by rewrite Hr]. }
  rewrite (bool_decide_eq_false_2 (local = Some revision)), andb_false_r.
  2:{ destruct Hstale as [[= ->] | (? & _ & _ & Hne)]; [intros [= ->]; lia | congruence]. }
  destruct (remote_read r) as [got r1] eqn:Hg.
  assert (s3_object r1 = s3_object r) as Hs.
  { revert Hg. unfold remote_read. pose proof (s3_get_state r) as Hs. destruct (s3_get r).
    by intros [= _ <-]. }
  destruct got as [remote|e]; [|eexists _, _; split; [done|]; cbn; by rewrite Hs].
  apply remote_read_ok in Hg as [_ Hremote].
  destruct (check_prior _ _ _) as [[]|] eqn:Hc;
    [|eexists _, _; split; [done|]; cbn; by rewrite Hs].
  exfalso. apply check_prior_ok, option_max_le in Hc as [Hle1 Hle2].
  destruct Hstale as [[= ->] | (r' & [= <-] & Hobj & _)]; [cbn in Hle1; lia|].
  unfold object_revision in Hobj. destruct remote as [m|]; [|by rewrite Hremote in Hobj].
  destruct Hremote as (body & Hb & Hp). rewrite Hb in Hobj. cbn in Hobj. rewrite Hp in Hobj.
  injection Hobj as Heq. cbn in Hle2. lia.
Qed.

(** C3: a database rolled back below the witness is refused. When the local
    file records a revision above the database's, or there is no such local
    revision and the S3 object does, [verify_and_advance] fails and leaves
    the file and the object as they were. *)
Theorem rolled_back_database_refused env ws revision v :
  we_revision env 0 = Ok revision -> revision < v ->
  read_revision (ws_file ws) = Ok (Some v) \/
  (exists r, ws_remote ws = Some r /\ object_revision r = Some v /\
     read_revision (ws_file ws) <> Ok (Some revision)) ->
  exists e ws', verify_and_advance env ws = (Err e, ws') /\ ws_file ws' = ws_file ws /\
    (s3_object <$> ws_remote ws') = (s3_object <$> ws_remote ws).
Proof.
  unfold verify_and_advance. intros Hrev Hlt Hs.
  destruct (we_lock env); [by eapply attempts_stale | eauto].
Qed.

(** an acknowledged call leaves the local file recording a revision that
    the database reported during the call and that is no lower than the one
    recorded before. *)
Theorem acknowledged_revision_recorded env ws ws' :
  env_u64 env -> verify_and_advance env ws = (Ok tt, ws') ->
  exists k revision local, we_revision env k = Ok revision /\
    read_revision (ws_file ws) = Ok local /\ rev_le local (Some revision) /\
    read_revision (ws_file ws') = Ok (Some revision).
Proof.
  unfold verify_and_advance. intros Hu. destruct (we_lock env); [|done]. by apply attempts_ok.
Qed.

(** the S3 witness never goes down. Whatever the outcome of the call
    (success, conflict, retry, network or file failure), the object records
    no less afterwards, given that other writers, who run the same code, never
    lower it between this call's read and its conditional write. *)
Theorem remote_witness_never_lowered env ws res ws' :
  env_u64 env -> rivals_monotone env -> verify_and_advance env ws = (res, ws') ->
  remote_le (ws_remote ws) (ws_remote ws').
Proof.
  unfold verify_and_advance. intros Hu Hm. destruct (we_lock env).
  - by apply attempts_remote_monotone.
  - by intros [= _ <-].
Qed.

#[local] Arguments check_prior : simpl never.

Lemma attempts_missing fuel n env ws revision :
  we_revision env n = Ok revision -> revision <> 1 \/ we_pristine env n <> Ok true ->
  ws_file ws = FsAbsent -> (forall r, ws_remote ws = Some r -> s3_object r = None) ->
  exists e, (attempts fuel n env ws).1 = Err e.
Proof.
  intros Hrev Hnp Hf Hno. destruct fuel as [|fuel]; cbn; [eauto|]. rewrite Hrev, Hf.
  change (read_revision FsAbsent) with (Ok (E:=IoError) (@None Z)). cbn.
  assert (exists e, check_prior None revision (we_pristine env n) = Err e) as [e He].
  { unfold check_prior. destruct (Z.eqb_spec revision 1) as [->|]; [|eauto]. cbn.
    destruct (we_pristine env n) as [[]|]; cbn; eauto. destruct Hnp; congruence. }
  destruct (ws_remote ws) as [r|] eqn:Hr; [|rewrite He; eauto].
  rewrite (bool_decide_eq_false_2 (None = Some revision)), andb_false_r by done.
  destruct (remote_read r) as [got r1] eqn:Hg. destruct got as [remote|e']; [|cbn; eauto].
  apply remote_read_ok in Hg as [_ Hremote]. specialize (Hno r eq_refl).
  destruct remote as [m|]; [destruct Hremote as (? & ? & _); congruence|].
  cbn. rewrite He. cbn. eauto.
Qed.

(** without any witness only a pristine database starts: when neither the
    file nor the S3 object exists, a database past its first revision, or one
    that holds an installation or a CT checkpoint, is refused. *)
Theorem missing_witness_refused env ws revision :
  we_revision env 0 = Ok revision -> revision <> 1 \/ we_pristine env 0 <> Ok true ->
  ws_file ws = FsAbsent -> (forall r, ws_remote ws = Some r -> s3_object r = None) ->
  exists e, (verify_and_advance env ws).1 = Err e.
Proof.
  unfold verify_and_advance. intros. destruct (we_lock env); [|eauto]. by eapply attempts_missing.
Qed.
End witness_properties.

(** ** A concrete object store, for the witnesses: the tag spells the body. *)
Module ConcreteS3.
Definition holds (c : PutCondition) (obj : option (list byte)) : bool :=
  match c with
  | IfMatch t => bool_decide (string_of_list_byte <$> obj = Some t)
  | IfNoneMatch => bool_decide (obj = None)
  end.

#[export] Instance s3 : S3 := {|
  S3State := option (list byte);
  s3_get := fun obj =>
    (match obj with
     | Some body => GetOk (Some (string_of_list_byte body)) (Ok body)
     | None => GetNoSuchKey
     end, obj);
  s3_put := fun c body obj =>
    if holds c obj then (PutOk (Some (string_of_list_byte body)), Some body)
    else (PutStatus 412, obj)
|}.

#[export] Instance s3_laws : S3Laws.
Proof.
  refine {| s3_object := fun obj : @S3State s3 => body ← obj; Some (body, string_of_list_byte body) |}.
  - done.
  - intros [b|] tag body; cbn; [|done]. by intros [= <- <-].
  - by intros [b|].
  - intros c body r. cbn. destruct (holds c r) eqn:Hh; [|by left]. right. cbn. split; [eauto|].
    destruct c; cbn in Hh; to_prop; [|by subst]. destruct r; cbn in *; [|done]. simplify_eq. eauto.
  - intros c body r tag. cbn. destruct (holds c r); cbn; [eauto | done].
  - intros [a1|] [a2|] b1 b2 t; cbn; try done. intros [= <- <-] [= <- Ht].
    apply (f_equal str_bytes) in Ht. by rewrite !str_bytes_string in Ht.
Defined.

Definition env (revision : Z) : WitnessEnv :=
  {| we_lock := Ok tt; we_revision := fun _ => Ok revision; we_pristine := fun _ => Ok false;
     we_rivals := fun _ r => r; we_write := NoFault |}.

Definition state (file : FsEntry) (obj : option (list byte)) : WitnessState :=
  {| ws_file := file; ws_remote := Some (obj : @S3State s3); ws_seen := None |}.

(** A host whose file is gone, with the object at revision 5. *)
Definition replaced_host : WitnessState := state FsAbsent (Some (revision_body 5)).
End ConcreteS3.

Import ConcreteS3.

Lemma rolled_back_database_refused_witness :
  exists e ws', verify_and_advance (env 4) replaced_host = (Err e, ws') /\
    ws_file ws' = FsAbsent /\ (s3_object <$> ws_remote ws') = (s3_object <$> ws_remote replaced_host).
Proof.
  apply (rolled_back_database_refused (env 4) replaced_host 4 5); [reflexivity | lia |].
  right. exists (Some (revision_body 5) : @S3State s3). split_and!; [done | by vm_compute | done].
Defined.

Lemma env_u64_env n : is_u64 n -> env_u64 (env n).
Proof. intros Hn k revision [= <-]. exact Hn. Qed.

Lemma acknowledged_revision_recorded_witness :
  exists k revision local, we_revision (env 6) k = Ok revision /\
    read_revision (ws_file replaced_host) = Ok local /\ rev_le local (Some revision) /\
    read_revision (ws_file (verify_and_advance (env 6) replaced_host).2) = Ok (Some revision).
Proof.
  apply (acknowledged_revision_recorded (env 6) replaced_host).
  - apply env_u64_env. by vm_compute.
  - vm_compute. reflexivity.
Defined.

Lemma remote_witness_never_lowered_witness :
  remote_le (ws_remote replaced_host) (ws_remote (verify_and_advance (env 6) replaced_host).2).
Proof.
  apply (remote_witness_never_lowered (env 6) replaced_host
    (verify_and_advance (env 6) replaced_host).1).
  - apply env_u64_env. by vm_compute.
  - intros n r. reflexivity.
  - by destruct (verify_and_advance (env 6) replaced_host).
Defined.

Lemma missing_witness_refused_witness :
  exists e, (verify_and_advance (env 4) (state FsAbsent None)).1 = Err e.
Proof.
  apply (missing_witness_refused (env 4) (state FsAbsent None) 4);
    [reflexivity | left; lia | reflexivity | by intros r [= <-]].
Defined.
