(* ===== verification/Store.v ===== *)
(** * The store's connection: crates/bloom-relay-store/src/lib.rs

    [World] is the database and the restore witness. [run_tx] is the shape
    every mutating method shares: run the transaction, roll back on an error,
    otherwise commit and [acknowledge] to the witness; when the witness
    refuses, the method fails although the transaction is committed.
    Also the bearer lifetimes, integrity checks and read-only queries. *)

From Stdlib Require Import Ascii String Strings.Byte.
From stdpp Require Import base strings list gmap.
From S2P Require Import Prelude Protocol Db Witness.

(** ** Bearer lifetimes, in whole seconds and nanoseconds of a [Duration] *)
Record Duration := { secs : Z; nanos : Z }.

Definition duration_le (a b : Duration) : bool :=
  (secs a <? secs b) || ((secs a =? secs b) && (nanos a <=? nanos b)).

Record CredentialWindows := { validity : Duration; renewal_grace : Duration }.

Definition from_secs (n : Z) : Duration := {| secs := n; nanos := 0 |}.
Definition MIN_VALIDITY : Duration := from_secs (12 * 60 * 60).
Definition MAX_VALIDITY : Duration := from_secs (24 * 60 * 60).
Definition MAX_RENEWAL_GRACE : Duration := from_secs (90 * 24 * 60 * 60).

(** [CredentialWindows::new]. *)
Definition credential_windows (validity renewal_grace : Duration) :
    result StoreError CredentialWindows :=
  if negb (duration_le MIN_VALIDITY validity && duration_le validity MAX_VALIDITY)
     || negb (duration_le renewal_grace MAX_RENEWAL_GRACE)
     || negb (nanos validity =? 0) || negb (nanos renewal_grace =? 0)
  then Err InvalidRequest
  else Ok {| validity := validity; renewal_grace := renewal_grace |}.

(** [CredentialWindows::default]. *)
Definition default_windows : CredentialWindows :=
  {| validity := MAX_VALIDITY; renewal_grace := from_secs (30 * 24 * 60 * 60) |}.

(** The configuration of a [Store]. *)
Record StoreConfig := {
  acme_environment : AcmeEnvironment;
  credential_windows_of : CredentialWindows
}.

(** [Store::connect]'s defaults. *)
Definition connect_config : StoreConfig :=
  {| acme_environment := Production; credential_windows_of := default_windows |}.
Definition with_acme_environment (e : AcmeEnvironment) (c : StoreConfig) : StoreConfig :=
  {| acme_environment := e; credential_windows_of := credential_windows_of c |}.
Definition with_credential_windows (w : CredentialWindows) (c : StoreConfig) : StoreConfig :=
  {| acme_environment := acme_environment c; credential_windows_of := w |}.

(** [connect_options]: whether the URL parses, and the contents of the file
    that [BLOOM_RELAY_DATABASE_PASSWORD_FILE] names ([None] when it is not
    set), which may not be readable. The result is the password to set. *)
Definition connect_options (url_parses : bool) (password_file : option (result IoError (list byte))) :
    result StoreError (option (list byte)) :=
  if negb url_parses then Err Unavailable
  else
    match password_file with
    | None => Ok None
    | Some contents =>
        bytes ← map_err (fun _ => Unavailable) contents;
        let password := default bytes (list_strip_suffix [NEWLINE] bytes) in
        if bool_decide (password = []) || bool_decide (NEWLINE ∈ password) then Err InvalidRequest
        else Ok (Some password)
    end.

(** The schema check of [connect_runtime_with_witness]: every embedded
    migration applied with its checksum, and no other. *)
Definition schema_check (versions : list (Z * list byte * bool)) (embedded : list (Z * list byte)) :
    result StoreError unit :=
  if bool_decide (versions = (fun m => (m, true)) <$> embedded) then Ok tt else Err InvalidRequest.

(** ** Integrity *)
Definition restore_revision (d : Db) : Z := i64_as_u64 (d_revision d).
Definition restore_pristine (d : Db) : bool :=
  bool_decide (d_installations d = ∅) && bool_decide (ct_checkpoints (d_ct d) = ∅).

Section store.
Context `{S3}.

Record World := { w_db : Db; w_witness : option WitnessState }.

(** The surroundings of an acknowledgement other than the database. *)
Record AckEnv := {
  ae_lock : result IoError unit;
  ae_rivals : nat -> S3State -> S3State;
  ae_write : WriteFault
}.

Definition db_env (ae : AckEnv) (d : Db) : WitnessEnv :=
  {| we_lock := ae_lock ae; we_revision := fun _ => Ok (restore_revision d);
     we_pristine := fun _ => Ok (restore_pristine d); we_rivals := ae_rivals ae;
     we_write := ae_write ae |}.

Definition acknowledge (ae : AckEnv) (w : World) : result StoreError unit * World :=
  match w_witness w with
  | None => (Ok tt, w)
  | Some ws =>
      let (res, ws') := verify_and_advance (db_env ae (w_db w)) ws in
      (map_err (fun e => Witness (witness_message e)) res,
       {| w_db := w_db w; w_witness := Some ws' |})
  end.

Definition verify_integrity (ae : AckEnv) (w : World) : result StoreError unit * World :=
  acknowledge ae w.

Definition with_db (d : Db) (w : World) : World := {| w_db := d; w_witness := w_witness w |}.

(** A transaction that commits and acknowledges. *)
Definition run_tx {A} (ae : AckEnv) (m : Tx A) (w : World) : result StoreError A * World :=
  match m (w_db w) with
  | Err e => (Err e, w)
  | Ok (a, d') =>
      let (res, w') := acknowledge ae (with_db d' w) in
      (_ ← res; Ok a, w')
  end.

(** A statement on the pool that does not acknowledge. *)
Definition exec_tx {A} (m : Tx A) (w : World) : result StoreError A * World :=
  match m (w_db w) with
  | Err e => (Err e, w)
  | Ok (a, d') => (Ok a, with_db d' w)
  end.

(** [connect_with_witness] and [connect_runtime_with_witness] end with an
    acknowledgement. *)
Definition connect_with_witness (ae : AckEnv) (d : Db) (ws : WitnessState) :
    result StoreError unit * World :=
  acknowledge ae {| w_db := d; w_witness := Some ws |}.

(** The process environment a service starts in: the database URL and
    password file, the applied and embedded migrations, and the witness. *)
Record StartEnv := {
  se_url_parses : bool;
  se_password_file : option (result IoError (list byte));
  se_versions : result StoreError (list (Z * list byte * bool));
  se_embedded : list (Z * list byte);
  se_witness : result IoError WitnessState
}.

(** The error text of an unusable witness configuration is not modelled. *)
Definition connect_runtime_with_witness (se : StartEnv) (ae : AckEnv) (d : Db) :
    result StoreError (StoreConfig * World) :=
  _ ← connect_options (se_url_parses se) (se_password_file se);
  versions ← se_versions se;
  _ ← schema_check versions (se_embedded se);
  ws ← map_err (fun _ => Witness EmptyString) (se_witness se);
  let (ack, w) := connect_with_witness ae d ws in
  _ ← ack; Ok (connect_config, w).

Lemma acknowledge_db ae w res w' : acknowledge ae w = (res, w') -> w_db w' = w_db w.
Proof.
  unfold acknowledge. destruct (w_witness w) as [ws|]; [|by intros [= _ <-]].
  destruct (verify_and_advance _ ws). by intros [= _ <-].
Qed.

(** Whatever the witness says, the database of [run_tx] is the one before or
    the one its transaction produced. *)
Lemma run_tx_db {A} ae (m : Tx A) w res w' :
  run_tx ae m w = (res, w') ->
  w_db w' = w_db w \/ exists a, m (w_db w) = Ok (a, w_db w').
Proof.
  unfold run_tx. destruct (m (w_db w)) as [[a d']|e] eqn:Hm; [|intros [= _ <-]; by left].
  destruct (acknowledge ae (with_db d' w)) as [ack w1] eqn:Ha. intros [= _ <-].
  apply acknowledge_db in Ha. cbn in Ha. right. exists a. by rewrite Ha.
Qed.

Lemma run_tx_ok {A} ae (m : Tx A) w a w' :
  run_tx ae m w = (Ok a, w') ->
  exists d', m (w_db w) = Ok (a, d') /\ acknowledge ae (with_db d' w) = (Ok tt, w').
Proof.
  unfold run_tx. destruct (m (w_db w)) as [[a' d']|e] eqn:Hm; [|done].
  destruct (acknowledge ae (with_db d' w)) as [[[]|] w1] eqn:Ha; intros [= <- <-]. eauto.
Qed.
End store.

Section store_witness.
Context `{L : S3Laws}.

(** The revision column is a positive [bigint]. *)
Definition fence_ok (d : Db) : Prop := 0 < d_revision d <= i64_max.

Lemma restore_revision_fence d : fence_ok d -> restore_revision d = d_revision d.
Proof. intros Hf. unfold restore_revision, fence_ok in *. apply i64_as_u64_id. lia. Qed.

Lemma db_env_u64 ae d : fence_ok d -> env_u64 (db_env ae d).
Proof.
  intros Hf n revision [= <-]. rewrite restore_revision_fence by done.
  unfold fence_ok, is_u64, u64_max, i64_max in *. lia.
Qed.

(** A service does not start on a database below its witness file. *)
Lemma connect_runtime_stale se ae ws d rev :
  se_witness se = Ok ws -> read_revision (ws_file ws) = Ok (Some rev) -> fence_ok d -> d_revision d < rev ->
  is_err (connect_runtime_with_witness se ae d) = true.
Proof.
  intros Hse Hfile Hf Hlt. unfold connect_runtime_with_witness. rewrite Hse.
  destruct (connect_options _ _); cbn; [|done]. destruct (se_versions se) as [versions|]; cbn; [|done].
  destruct (schema_check _ _); cbn; [|done].
  unfold connect_with_witness, acknowledge, verify_and_advance. cbn [w_witness w_db].
  destruct (we_lock (db_env ae d)); [|done].
  destruct (attempts_stale REMOTE_ATTEMPTS 0 (db_env ae d) ws (d_revision d) rev) as (e & ws2 & -> & _);
    [cbn; by rewrite restore_revision_fence | done | by left | done].
Qed.

(** A method that returned success left the committed fence in its witness
    file. *)
Lemma acknowledged_file {A} ae (m : Tx A) w a w' ws' :
  run_tx ae m w = (Ok a, w') -> w_witness w' = Some ws' -> fence_ok (w_db w') ->
  read_revision (ws_file ws') = Ok (Some (d_revision (w_db w'))).
Proof.
  intros Hrun Hws Hf. apply run_tx_ok in Hrun as (d' & Hm & Hack).
  pose proof (acknowledge_db _ _ _ _ Hack) as Hdb. cbn in Hdb.
  unfold acknowledge in Hack. destruct (w_witness (with_db d' w)) as [ws|] eqn:Hw0;
    [|injection Hack as <-; congruence].
  destruct (verify_and_advance _ ws) as [[[]|e] ws1] eqn:Hv; cbn in Hack; [|done].
  injection Hack as <-. injection Hws as ->. cbn in Hdb, Hf.
  unfold verify_and_advance in Hv. destruct (we_lock _) in Hv; [|done].
  apply attempts_ok in Hv as (k & rev & local & [= Hrev] & _ & _ & Hfile); [|by apply db_env_u64].
  rewrite restore_revision_fence in Hrev by done. by subst rev.
Qed.
End store_witness.
