(* ===== verification/StoreCredentials.v ===== *)
(** * Scoped bearers: the credential methods of crates/bloom-relay-store/src/lib.rs

    Issue, renew and authenticate. [now] is the transaction's [now()]. The
    bodies are transactions on the database; [run_tx] makes them methods. *)

From Stdlib Require Import Ascii String Strings.Byte.
From stdpp Require Import base strings list gmap.
From S2P Require Import Prelude Protocol Db Witness Store.

(** [matches!(scope, "tunnel" | "dns_challenge")]. *)
Definition bearer_scope (scope : string) : bool :=
  bool_decide (scope = "tunnel") || bool_decide (scope = "dns_challenge").

Definition token_length_ok (bearer : string) : bool := in_range 43 128 (str_len bearer).

Definition not_retired (row : Installation) : bool := negb (bool_decide (i_state row = Retired)).
Definition is_dns_ready (row : Installation) : bool := bool_decide (i_state row = DnsReady).

(** [{"generation": .., "expires_at_ms": ..}] and its reading back. *)
Definition receipt_json (generation expires_at_ms : Z) : json :=
  JObj [("generation", JNum generation); ("expires_at_ms", JNum expires_at_ms)].

Definition receipt_of_json (v : json) : result StoreError (Z * Z) :=
  generation ← ok_or InvalidRequest (as_u64 (jget "generation" v));
  expires_at_ms ← ok_or InvalidRequest (as_u64 (jget "expires_at_ms" v));
  Ok (generation, expires_at_ms).

(** [i32::to_be_bytes] of a non-negative value and [u64::to_be_bytes]. *)
Definition i32_be_bytes (z : Z) : list byte := be_bytes 4 (z mod 2 ^ 32).
Definition u64_be_bytes (z : Z) : list byte := be_bytes 8 z.

(** The credentials a statement's [WHERE installation_id = .. AND scope = ..]
    reaches. *)
Definition of_scope (id : Uuid) (scope : string) (key : Uuid * string * Z) : bool :=
  bool_decide (key.1 = (id, scope)).

Definition is_revoked (c : Credential) : bool := bool_decide (is_Some (k_revoked_at c)).

Section credentials.
Context `{Crypto}.

Definition issue_digest (scope : string) (validity_seconds : Z) (token_hash : list byte) : list byte :=
  sha256 (str_bytes "bloom-relay/issue-bearer/v1" ++ [Byte.x00] ++ str_bytes scope
          ++ i32_be_bytes validity_seconds ++ token_hash).

Definition renew_digest (scope : string) (generation : Z) (old_hash new_hash : list byte) : list byte :=
  sha256 (str_bytes "bloom-relay/renew-bearer/v1" ++ [Byte.x00] ++ str_bytes scope
          ++ u64_be_bytes generation ++ old_hash ++ new_hash).

(** [ORDER BY generation DESC LIMIT 1] over the rows that match: the largest
    generation of a current credential with this token. *)
Definition best_generation (now : Z) (id : Uuid) (scope : string) (digest : list byte) (d : Db) :
    option Z :=
  map_fold (fun key c best =>
    if of_scope id scope key && bool_decide (k_token_hash c = digest) && negb (is_revoked c)
       && (now <? k_expires_at c)
    then option_max (Some key.2) best else best) None (d_credentials d).

Definition authenticate_bearer (now : Z) (id : Uuid) (scope bearer : string) (d : Db) : option Z :=
  if negb (token_length_ok bearer) || negb (bearer_scope scope) then None
  else
    _ ← select_installation id is_dns_ready d;
    i64_as_u64 <$> best_generation now id scope (sha256 (str_bytes bearer)) d.

Definition authenticate_bearer_with_state (now : Z) (id : Uuid) (scope bearer : string) (d : Db) :
    option (Z * AllocationState) :=
  if negb (token_length_ok bearer) || negb (bearer_scope scope) then None
  else
    row ← d_installations d !! id;
    g ← best_generation now id scope (sha256 (str_bytes bearer)) d;
    Some (i64_as_u64 g, i_state row).

(** The replay branch shared by the two methods: the stored receipt when the
    operation is this one. *)
Definition replay_receipt (existing : Operation) (id : Uuid) (kind : string) (digest : list byte)
    (fresh : bool) : Tx (Z * Z) :=
  _ ← tx_reject (negb (bool_decide (o_installation_id existing = id))
                 || negb (bool_decide (o_kind existing = kind))
                 || negb (bool_decide (o_request_digest existing = digest))
                 || negb fresh) Conflict;
  tx_lift (receipt_of_json (o_result existing)).

Definition bearer_row (token_hash : list byte) (expires_at : Z) : Credential :=
  {| k_token_hash := token_hash; k_expires_at := expires_at; k_revoked_at := None |}.

(** The statements after the old credential is revoked, common to both. *)
Definition finish_rotation (now : Z) (id operation_id : Uuid) (scope kind : string)
    (digest : list byte) (generation : Z) (token_hash : list byte) (lifetime : Z)
    (audit_operation : option Uuid) (event : string) : Tx (Z * Z) :=
  let expires_at := now + seconds lifetime in
  let expires_at_ms := epoch_ms expires_at in
  _ ← insert_credential id scope generation (bearer_row token_hash expires_at);
  _ ← tx_when (bool_decide (scope = "tunnel")) (tx_modify (delete_lease id));
  _ ← insert_operation operation_id
        {| o_installation_id := id; o_kind := kind; o_request_digest := digest;
           o_result := receipt_json generation expires_at_ms; o_created_at := now |};
  _ ← insert_audit id audit_operation event now;
  mret (i64_as_u64 generation, i64_as_u64 expires_at_ms).

Definition issue_bearer_tx (cfg : StoreConfig) (now : Z) (id operation_id : Uuid) (scope : string)
    (token_hash : list byte) (validity_seconds : Z) : Tx (Z * Z) :=
  _ ← tx_reject (negb (bearer_scope scope) || negb (in_range 60 86400 validity_seconds))
        InvalidRequest;
  let request_digest := issue_digest scope validity_seconds token_hash in
  existing ← tx_gets (fun d => d_operations d !! operation_id);
  match existing with
  | Some existing => replay_receipt existing id ("issue:" +:+ scope) request_digest true
  | None =>
      updated ← update_installation id not_retired next_generation;
      row ← tx_some Conflict updated;
      _ ← tx_modify (revoke_where now (fun key c => of_scope id scope key && negb (is_revoked c)));
      let lifetime := Z.min validity_seconds (secs (validity (credential_windows_of cfg))) in
      finish_rotation now id operation_id scope ("issue:" +:+ scope) request_digest
        (i_generation row) token_hash lifetime None "credential_rotated"
  end.

(** [c.expires_at > now() - make_interval(secs => grace)], newest for the scope. *)
Definition renewable (cfg : StoreConfig) (now : Z) (id : Uuid) (scope : string) (generation : Z)
    (d : Db) : option Credential :=
  _ ← select_installation id is_dns_ready d;
  c ← d_credentials d !! (id, scope, generation);
  if negb (is_revoked c)
     && (now - seconds (secs (renewal_grace (credential_windows_of cfg))) <? k_expires_at c)
     && bool_decide (map_Forall (fun key _ => of_scope id scope key = true -> key.2 <= generation)
                       (d_credentials d))
  then Some c else None.

Definition renew_bearer_tx (cfg : StoreConfig) (now : Z) (id operation_id : Uuid) (scope : string)
    (generation : Z) (current_token : string) (new_token_hash : list byte) : Tx (Z * Z) :=
  _ ← tx_reject (negb (bearer_scope scope) || negb (token_length_ok current_token)) InvalidRequest;
  let old_hash := sha256 (str_bytes current_token) in
  let request_digest := renew_digest scope generation old_hash new_token_hash in
  existing ← tx_gets (fun d => d_operations d !! operation_id);
  match existing with
  | Some existing =>
      replay_receipt existing id ("renew:" +:+ scope) request_digest
        (now - minutes 5 <? o_created_at existing)
  | None =>
      found ← tx_gets (renewable cfg now id scope (u64_as_i64 generation));
      credential ← tx_some Unauthorized found;
      _ ← tx_reject (negb (bool_decide (k_token_hash credential = old_hash))) Unauthorized;
      updated ← update_installation id (fun _ => true) next_generation;
      row ← tx_some Unavailable updated;
      _ ← tx_modify (revoke_where now
            (fun key _ => bool_decide (key = (id, scope, u64_as_i64 generation))));
      finish_rotation now id operation_id scope ("renew:" +:+ scope) request_digest
        (i_generation row) new_token_hash (secs (validity (credential_windows_of cfg)))
        (Some operation_id)
        (if k_expires_at credential <=? now then "credential_renewed_after_expiry"
         else "credential_renewed")
  end.
End credentials.

(** ** What the queries and transactions do *)
Lemma tx_when_modify_ok b f d u d' :
  tx_when b (tx_modify f) d = Ok (u, d') -> d' = if b then f d else d.
Proof. destruct b; cbn; intros Ht; inv_tx; done. Qed.

Lemma of_scope_true id scope key : of_scope id scope key = true <-> exists g, key = (id, scope, g).
Proof.
  unfold of_scope. rewrite bool_decide_eq_true. destruct key as [k g]; cbn. split; [|by intros (? & [= -> ->])].
  intros ->. eauto.
Qed.

Lemma is_revoked_false c : is_revoked c = false <-> k_revoked_at c = None.
Proof. unfold is_revoked. rewrite bool_decide_eq_false. symmetry. apply eq_None_not_Some. Qed.

(** A credential the bearer check accepts. *)
Definition live_credential (now : Z) (digest : list byte) (c : Credential) : Prop :=
  k_token_hash c = digest /\ k_revoked_at c = None /\ now < k_expires_at c.

Section credential_facts.
Context `{Crypto}.

Lemma best_generation_spec now id scope digest d :
  match best_generation now id scope digest d with
  | Some g => (exists c, d_credentials d !! (id, scope, g) = Some c /\ live_credential now digest c) /\
      forall g' c, d_credentials d !! (id, scope, g') = Some c -> live_credential now digest c -> g' <= g
  | None => forall g' c, d_credentials d !! (id, scope, g') = Some c -> ~ live_credential now digest c
  end.
Proof.
  unfold best_generation. apply (map_fold_weak_ind (fun best m =>
    match best with
    | Some g => (exists c, m !! (id, scope, g) = Some c /\ live_credential now digest c) /\
        forall g' c, m !! (id, scope, g') = Some c -> live_credential now digest c -> g' <= g
    | None => forall g' c, m !! (id, scope, g') = Some c -> ~ live_credential now digest c
    end)); [by intros g' c ?%lookup_empty_Some|].
  intros key c m best Hfresh IH.
  set (hit := of_scope id scope key && bool_decide (k_token_hash c = digest) && negb (is_revoked c)
       && (now <? k_expires_at c)).
  assert (hit = true <-> exists g, key = (id, scope, g) /\ live_credential now digest c) as Hhit.
  { unfold hit, live_credential. rewrite !andb_true_iff, of_scope_true, bool_decide_eq_true,
      negb_true_iff, is_revoked_false, Z.ltb_lt. naive_solver. }
  destruct hit.
  - destruct (proj1 Hhit eq_refl) as (g & -> & Hlive). cbn.
    destruct best as [b|]; cbn.
    + destruct IH as [(cb & Hcb & Hlb) Hmax]. split.
      * destruct (Z.max_spec g b) as [[Hlt ->]|[Hle ->]].
        -- exists cb. rewrite lookup_insert_ne; [done|]. intros [= ->]. lia.
        -- exists c. by rewrite lookup_insert_eq.
      * intros g' c'. rewrite lookup_insert_Some. intros [[[= <-] _] | [_ Hg']] Hl; [lia|].
        specialize (Hmax g' c' Hg' Hl). lia.
    + split; [exists c; by rewrite lookup_insert_eq|].
      intros g' c'. rewrite lookup_insert_Some. intros [[[= <-] _] | [_ Hg']] Hl; [lia|].
      by destruct (IH g' c').
  - assert (forall g' c', <[key := c]> m !! (id, scope, g') = Some c' -> live_credential now digest c' ->
      m !! (id, scope, g') = Some c') as Hold.
    { intros g' c'. rewrite lookup_insert_Some. intros [[-> ->] | [_ ?]] Hl; [|done].
      by assert (false = true) by (apply Hhit; eauto). }
    destruct best as [b|].
    + destruct IH as [(cb & Hcb & Hlb) Hmax]. split; [|intros; eauto].
      exists cb. split; [|done]. rewrite lookup_insert_ne; [done|]. intros ->. congruence.
    + intros g' c' Hg' Hl. by apply (IH g' c'); [apply Hold|].
Qed.

Lemma authenticate_bearer_Some now id scope bearer d g :
  authenticate_bearer now id scope bearer d = Some g ->
  bearer_scope scope = true /\
  exists row c g', d_installations d !! id = Some row /\ i_state row = DnsReady /\
    d_credentials d !! (id, scope, g') = Some c /\
    live_credential now (sha256 (str_bytes bearer)) c /\ g = i64_as_u64 g'.
Proof.
  unfold authenticate_bearer. destruct (negb _ || _) eqn:Hguard; [done|]. to_prop.
  destruct (select_installation id is_dns_ready d) as [row|] eqn:Hs; cbn; [|done].
  apply select_installation_Some in Hs as [Hrow Hst]. apply bool_decide_eq_true in Hst.
  pose proof (best_generation_spec now id scope (sha256 (str_bytes bearer)) d) as Hb.
  destruct (best_generation _ _ _ _ _) as [g'|]; [|done]. intros [= <-].
  destruct Hb as [(c & Hc & Hl) _]. eauto 12.
Qed.

Definition cut_lease (scope : string) (id : Uuid) (d : Db) : Db :=
  if bool_decide (scope = "tunnel") then delete_lease id d else d.

Definition rotation_operation (now : Z) (id : Uuid) (kind : string) (digest : list byte)
    (generation expires_at : Z) : Operation :=
  {| o_installation_id := id; o_kind := kind; o_request_digest := digest;
     o_result := receipt_json generation (epoch_ms expires_at); o_created_at := now |}.

(** The database after a rotation. *)
Definition rotated (now : Z) (id operation_id : Uuid) (scope kind : string) (digest : list byte)
    (generation : Z) (token_hash : list byte) (lifetime : Z) (audit_operation : option Uuid)
    (event : string) (d : Db) : Db :=
  add_audit id audit_operation event now
    (set_operations <[operation_id :=
        rotation_operation now id kind digest generation (now + seconds lifetime)]>
      (cut_lease scope id
        (set_credentials <[(id, scope, generation) :=
            bearer_row token_hash (now + seconds lifetime)]> d))).

Lemma finish_rotation_ok now id op scope kind digest g hash lifetime aop event d r d' :
  finish_rotation now id op scope kind digest g hash lifetime aop event d = Ok (r, d') ->
  0 < g /\ d_credentials d !! (id, scope, g) = None /\ d_revision d < i64_max /\
  r = (i64_as_u64 g, i64_as_u64 (epoch_ms (now + seconds lifetime))) /\
  d' = rotated now id op scope kind digest g hash lifetime aop event d.
Proof.
  unfold finish_rotation. intros Hf. inv_tx.
  match goal with Ht : tx_when _ _ _ = _ |- _ => apply tx_when_modify_ok in Ht as -> end.
  unfold rotated, cut_lease. case_bool_decide; cbn in *; done.
Qed.

Lemma finish_rotation_intro now id op scope kind digest g hash lifetime aop event d :
  0 < g -> d_credentials d !! (id, scope, g) = None -> is_Some (d_installations d !! id) ->
  d_operations d !! op = None -> d_revision d < i64_max -> List.length hash = 32%nat ->
  List.length digest = 32%nat ->
  finish_rotation now id op scope kind digest g hash lifetime aop event d =
  Ok ((i64_as_u64 g, i64_as_u64 (epoch_ms (now + seconds lifetime))),
      rotated now id op scope kind digest g hash lifetime aop event d).
Proof.
  intros Hg Hc Hi Ho Hr Hh Hd. unfold finish_rotation. cbv zeta.
  apply tx_bind_ok. eexists tt, _. split; [by apply insert_credential_intro|].
  apply tx_bind_ok. exists tt, (cut_lease scope id (set_credentials
    <[(id, scope, g) := bearer_row hash (now + seconds lifetime)]> d)). split.
  { unfold cut_lease. by case_bool_decide. }
  apply tx_bind_ok. eexists tt, _. split.
  { apply insert_operation_intro; [..|done]; unfold cut_lease; by case_bool_decide. }
  apply tx_bind_ok. eexists tt, _. split; [|done].
  apply insert_audit_intro; unfold cut_lease; by case_bool_decide.
Qed.

Lemma replay_receipt_ok existing id kind digest fresh d r d' :
  replay_receipt existing id kind digest fresh d = Ok (r, d') ->
  d' = d /\ o_installation_id existing = id /\ o_kind existing = kind /\
  o_request_digest existing = digest /\ fresh = true /\ receipt_of_json (o_result existing) = Ok r.
Proof. unfold replay_receipt. intros Hr. inv_tx. by to_prop. Qed.

(** The fresh branch of [issue_bearer]. *)
Definition issued (cfg : StoreConfig) (now : Z) (id op : Uuid) (scope : string)
    (token_hash : list byte) (validity_seconds : Z) (row : Installation) (d : Db) : Db :=
  rotated now id op scope ("issue:" +:+ scope) (issue_digest scope validity_seconds token_hash)
    (i_generation row + 1) token_hash
    (Z.min validity_seconds (secs (validity (credential_windows_of cfg)))) None "credential_rotated"
    (revoke_where now (fun key c => of_scope id scope key && negb (is_revoked c))
      (set_installations <[id := set_generation (i_generation row + 1) row]> d)).

Lemma issue_bearer_tx_ok cfg now id op scope hash vs d r d' :
  issue_bearer_tx cfg now id op scope hash vs d = Ok (r, d') ->
  bearer_scope scope = true /\ 60 <= vs <= 86400 /\
  ((exists existing, d_operations d !! op = Some existing /\ d' = d /\
      receipt_of_json (o_result existing) = Ok r) \/
   (exists row, d_operations d !! op = None /\ d_installations d !! id = Some row /\
      i_state row <> Retired /\ i_generation row < i64_max /\
      r = (i64_as_u64 (i_generation row + 1),
           i64_as_u64 (epoch_ms (now + seconds (Z.min vs (secs (validity (credential_windows_of cfg))))))) /\
      d' = issued cfg now id op scope hash vs row d)).
Proof.
  unfold issue_bearer_tx. intros Hi. apply tx_bind_ok in Hi as (u & d1 & Hg & Hi). inv_tx. to_prop.
  match goal with Hr : in_range _ _ _ = _ |- _ => apply in_range_true in Hr end.
  do 2 (split; [done|]).
  destruct (d_operations d !! op) as [existing|] eqn:Hop.
  - left. apply replay_receipt_ok in Hi as (-> & _ & _ & _ & _ & Hr). eauto.
  - right. inv_tx. apply finish_rotation_ok in Hi as (_ & _ & _ & -> & ->).
    unfold not_retired in *. to_prop. eexists. split_and!; [done..].
Qed.

(** The fresh branch of [renew_bearer]. *)
Definition renewed (cfg : StoreConfig) (now : Z) (id op : Uuid) (scope : string) (generation : Z)
    (current_token : string) (new_hash : list byte) (credential : Credential) (row : Installation)
    (d : Db) : Db :=
  rotated now id op scope ("renew:" +:+ scope)
    (renew_digest scope generation (sha256 (str_bytes current_token)) new_hash)
    (i_generation row + 1) new_hash (secs (validity (credential_windows_of cfg))) (Some op)
    (if k_expires_at credential <=? now then "credential_renewed_after_expiry" else "credential_renewed")
    (revoke_where now (fun key _ => bool_decide (key = (id, scope, u64_as_i64 generation)))
      (set_installations <[id := set_generation (i_generation row + 1) row]> d)).

Lemma renewable_Some cfg now id scope g d c :
  renewable cfg now id scope g d = Some c ->
  (exists row, d_installations d !! id = Some row /\ i_state row = DnsReady) /\
  d_credentials d !! (id, scope, g) = Some c /\ k_revoked_at c = None /\
  now - seconds (secs (renewal_grace (credential_windows_of cfg))) < k_expires_at c /\
  forall g' c', d_credentials d !! (id, scope, g') = Some c' -> g' <= g.
Proof.
  unfold renewable. destruct (select_installation _ _ _) as [row|] eqn:Hs; cbn; [|done].
  apply select_installation_Some in Hs as [Hrow Hst%bool_decide_eq_true].
  destruct (d_credentials d !! (id, scope, g)) as [c0|] eqn:Hc; cbn; [|done].
  destruct (_ && _) eqn:Hg; [|done]. to_prop. intros [= <-].
  split_and!; [eauto | done | by apply is_revoked_false | done |].
  intros g' c' Hc'. match goal with Hf : map_Forall _ _ |- _ => apply (Hf (id, scope, g') c' Hc') end.
  apply of_scope_true. eauto.
Qed.

Lemma renew_bearer_tx_ok cfg now id op scope g token hash d r d' :
  renew_bearer_tx cfg now id op scope g token hash d = Ok (r, d') ->
  bearer_scope scope = true /\
  ((exists existing, d_operations d !! op = Some existing /\ d' = d /\
      receipt_of_json (o_result existing) = Ok r) \/
   (exists row c, d_operations d !! op = None /\ d_installations d !! id = Some row /\
      i_state row = DnsReady /\ i_generation row < i64_max /\
      renewable cfg now id scope (u64_as_i64 g) d = Some c /\
      k_token_hash c = sha256 (str_bytes token) /\
      r = (i64_as_u64 (i_generation row + 1),
           i64_as_u64 (epoch_ms (now + seconds (secs (validity (credential_windows_of cfg)))))) /\
      d' = renewed cfg now id op scope g token hash c row d)).
Proof.
  unfold renew_bearer_tx. intros Hi. apply tx_bind_ok in Hi as (u & d1 & Hg & Hi). inv_tx. to_prop.
  split; [done|].
  destruct (d_operations d !! op) as [existing|] eqn:Hop.
  - left. apply replay_receipt_ok in Hi as (-> & _ & _ & _ & _ & Hr). eauto.
  - right. inv_tx. to_prop. apply finish_rotation_ok in Hi as (_ & _ & _ & -> & ->).
    match goal with Hr : renewable _ _ _ _ _ _ = Some _ |- _ =>
      pose proof (proj1 (renewable_Some _ _ _ _ _ _ _ Hr)) as (row & Hrow & Hst) end.
    simplify_eq. eexists _, _. split_and!; done.
Qed.
End credential_facts.
