(* ===== verification/StoreChallenges.v ===== *)
(** * Challenge sets: the DNS-01 methods of crates/bloom-relay-store/src/lib.rs

    The desired set of TXT values per installation, its revision, its refresh
    and expiry, and the readiness the DNS worker records. *)

From Stdlib Require Import Ascii String Strings.Byte.
From stdpp Require Import base strings list gmap sorting.
From S2P Require Import Prelude Protocol Db Witness Store StoreCredentials.

Record ChallengeValueState := { cv_revision : Z; cv_expires_at_ms : Z }.

Definition lifetime : Z := seconds (CHALLENGE_VALUE_LIFETIME_MS / 1000).

(** The rows of one installation, and those of them that are live. *)
Definition values_of (id : Uuid) (d : Db) : gmap (Uuid * string) Z :=
  filter (fun kv => kv.1.1 = id) (d_challenge_values d).
Definition live_values (now : Z) (id : Uuid) (d : Db) : gmap (Uuid * string) Z :=
  filter (fun kv => now < kv.2) (values_of id d).

(** [DELETE FROM challenge_values WHERE installation_id = id AND expires_at <= now()]. *)
Definition delete_lapsed (now : Z) (id : Uuid) (d : Db) : Db :=
  set_challenge_values (filter (fun kv => ~ (kv.1.1 = id /\ kv.2 <= now))) d.

Definition lapsed_count (now : Z) (id : Uuid) (d : Db) : nat :=
  size (filter (fun kv => kv.2 <= now) (values_of id d)).

(** [INSERT INTO challenge_state(installation_id) .. ON CONFLICT DO NOTHING]. *)
Definition ensure_challenge_state (id : Uuid) (d : Db) : Db :=
  match d_challenge_state d !! id with
  | Some _ => d
  | None => set_challenge_state <[id := {| s_revision := 0; s_ready_revision := None |}]> d
  end.

(** [UPDATE challenge_state SET revision = revision + 1]: no row, no change. *)
Definition bump_revision (id : Uuid) : Tx unit := fun d =>
  match d_challenge_state d !! id with
  | None => Ok (tt, d)
  | Some s =>
      if s_revision s <? i64_max
      then Ok (tt, set_challenge_state <[id := {| s_revision := s_revision s + 1;
                                                  s_ready_revision := s_ready_revision s |}]> d)
      else Err Unavailable
  end.

Definition challenge_set_changed (now : Z) (id : Uuid) (event : string) : Tx unit :=
  _ ← bump_revision id;
  _ ← insert_outbox id "reconcile_txt" (JObj []) now;
  insert_audit id None event now.

(** [INSERT INTO challenge_values]: primary key. *)
Definition insert_challenge_value (id : Uuid) (txt_value : string) (expires_at : Z) : Tx unit := fun d =>
  if bool_decide (is_Some (d_challenge_values d !! (id, txt_value))) then Err Unavailable
  else Ok (tt, set_challenge_values <[(id, txt_value) := expires_at]> d).

Definition current_dns_credential (now : Z) (id : Uuid) (generation : Z) (d : Db) : option Credential :=
  c ← d_credentials d !! (id, "dns_challenge", generation);
  if negb (is_revoked c) && (now <? k_expires_at c) then Some c else None.

Definition is_live (now : Z) (id : Uuid) (txt_value : string) (d : Db) : bool :=
  match d_challenge_values d !! (id, txt_value) with
  | Some expires_at => now <? expires_at
  | None => false
  end.

Definition ensure_challenge_value_tx (now : Z) (id : Uuid) (generation : Z) (txt_value : string) :
    Tx ChallengeValueState :=
  _ ← tx_lift (map_err (fun _ => InvalidRequest) (validate_challenge_value txt_value));
  row ← tx_gets (select_installation id is_dns_ready);
  _ ← tx_some Conflict row;
  credential ← tx_gets (current_dns_credential now id (u64_as_i64 generation));
  _ ← tx_some Unauthorized credential;
  _ ← tx_modify (ensure_challenge_state id);
  refreshed ← tx_gets (is_live now id txt_value);
  _ ← (if refreshed : bool then tx_modify (set_challenge_values <[(id, txt_value) := now + lifetime]>)
       else
         live ← tx_gets (fun d => size (live_values now id d));
         _ ← tx_reject (MAX_LIVE_CHALLENGE_VALUES <=? Z.of_nat live) Conflict;
         _ ← tx_modify (delete_lapsed now id);
         _ ← insert_challenge_value id txt_value (now + lifetime);
         challenge_set_changed now id "challenge_value_added");
  state ← tx_gets (fun d => d_challenge_state d !! id);
  state ← tx_some Unavailable state;
  mret {| cv_revision := i64_as_u64 (s_revision state);
          cv_expires_at_ms := i64_as_u64 (epoch_ms (now + lifetime)) |}.

Definition challenge_value_ready (now : Z) (id : Uuid) (txt_value : string) (revision : Z) (d : Db) :
    result StoreError bool :=
  if i64_max <? revision then Err InvalidRequest
  else
    Ok match d_challenge_state d !! id with
       | None => false
       | Some s =>
           is_live now id txt_value d && bool_decide (s_ready_revision s = Some (s_revision s))
           && (revision <=? s_revision s)
       end.

Definition challenge_target (id : Uuid) (d : Db) : Z * list string :=
  (i64_as_u64 (default 0 (s_revision <$> d_challenge_state d !! id)),
   merge_sort String.le ((fun kv => kv.1.2) <$> map_to_list (values_of id d))).

Definition mark_challenge_reconciled_tx (id : Uuid) (revision : Z) : Tx bool := fun d =>
  match d_challenge_state d !! id with
  | Some s =>
      if s_revision s =? u64_as_i64 revision
      then Ok (true, set_challenge_state <[id := {| s_revision := s_revision s;
                                                    s_ready_revision := Some (s_revision s) |}]> d)
      else Ok (false, d)
  | None => Ok (false, d)
  end.

(** One round of [expire_challenge_values]. *)
Definition expire_challenge_values_tx (now : Z) (id : Uuid) : Tx bool :=
  removed ← tx_gets (fun d => lapsed_count now id d);
  _ ← tx_modify (delete_lapsed now id);
  if (0 <? Z.of_nat removed)
  then _ ← challenge_set_changed now id "challenge_value_expired"; mret true
  else mret false.

(** [SELECT DISTINCT installation_id .. WHERE expires_at <= now() LIMIT n]. *)
Definition lapsed_installations (now : Z) (limit : nat) (d : Db) : list Uuid :=
  take limit (elements (list_to_set (C := gset Uuid)
    ((fun kv => kv.1.1) <$> map_to_list (filter (fun kv => kv.2 <= now) (d_challenge_values d))))).

Section sweeps.
Context `{S3}.

(** The [for] loop of a sweep: one method call per selected row, stopping at
    the first error; [times n] is [now()] of the n-th transaction. Other
    processes run before each of them ([others]). *)
Fixpoint sweep (round : nat -> Uuid -> World -> result StoreError bool * World)
    (n : nat) (ids : list Uuid) (count : Z) (w : World) : result StoreError Z * World :=
  match ids with
  | [] => (Ok count, w)
  | id :: rest =>
      let (res, w') := round n id w in
      match res with
      | Err e => (Err e, w')
      | Ok changed => sweep round (S n) rest (if changed : bool then count + 1 else count) w'
      end
  end.

Definition expire_challenge_values (ae : AckEnv) (others : nat -> World -> World) (now : Z) (times : nat -> Z) (limit : Z) (w : World) :
    result StoreError Z * World :=
  if negb (in_range 1 100 limit) then (Err InvalidRequest, w)
  else
    sweep (fun n id w => run_tx ae (expire_challenge_values_tx (times n) id) (others n w)) 0
      (lapsed_installations now (Z.to_nat limit) (w_db w)) 0 w.
End sweeps.

(** ** What a successful change did *)
Definition bump_in (id : Uuid) (m : gmap Uuid ChallengeState) : gmap Uuid ChallengeState :=
  alter (fun s => {| s_revision := s_revision s + 1; s_ready_revision := s_ready_revision s |}) id m.

Definition set_changed (now : Z) (id : Uuid) (event : string) (d : Db) : Db :=
  add_audit id None event now
    (add_outbox id "reconcile_txt" (JObj []) now (set_challenge_state (bump_in id) d)).

(** The revision column has room for one more. *)
Definition can_bump (id : Uuid) (d : Db) : Prop :=
  forall s, d_challenge_state d !! id = Some s -> s_revision s < i64_max.

Lemma bump_revision_ok id d u d' :
  bump_revision id d = Ok (u, d') -> can_bump id d /\ d' = set_challenge_state (bump_in id) d.
Proof.
  unfold bump_revision, bump_in, can_bump.
  destruct (d_challenge_state d !! id) as [s|] eqn:Hs; intros Hb; (split; [intros s'; inv_ok; to_prop; congruence|]).
  - inv_ok. to_prop. unfold set_challenge_state. f_equal.
    apply map_eq. intros k. destruct (decide (k = id)) as [->|].
    + by rewrite lookup_insert_eq, lookup_alter_eq, Hs.
    + by rewrite lookup_insert_ne, lookup_alter_ne.
  - inv_ok. unfold set_challenge_state. destruct d'; cbn in *. f_equal.
    apply map_eq. intros k. destruct (decide (k = id)) as [->|].
    + by rewrite lookup_alter_eq, Hs.
    + by rewrite lookup_alter_ne.
Qed.

Lemma challenge_set_changed_ok now id event d u d' :
  challenge_set_changed now id event d = Ok (u, d') ->
  can_bump id d /\ d' = set_changed now id event d.
Proof.
  unfold challenge_set_changed. intros Hc. inv_tx.
  match goal with Hb : bump_revision _ _ = _ |- _ => apply bump_revision_ok in Hb as [? ->] end. done.
Qed.

Lemma current_dns_credential_Some now id g d c :
  current_dns_credential now id g d = Some c ->
  d_credentials d !! (id, "dns_challenge", g) = Some c /\ k_revoked_at c = None /\
  now < k_expires_at c.
Proof.
  unfold current_dns_credential. destruct (d_credentials d !! _) as [c0|] eqn:Hc; cbn; [|done].
  destruct (_ && _) eqn:Hg; [|done]. intros [= <-]. to_prop.
  split_and!; [done | by apply is_revoked_false | done].
Qed.

(** The value is live, and stays in the set for another lifetime. *)
Definition refreshed (now : Z) (id : Uuid) (txt_value : string) (d : Db) : Db :=
  set_challenge_values <[(id, txt_value) := now + lifetime]> (ensure_challenge_state id d).

(** The value joins the set, lapsed values leave it. *)
Definition joined (now : Z) (id : Uuid) (txt_value : string) (d : Db) : Db :=
  set_changed now id "challenge_value_added"
    (set_challenge_values <[(id, txt_value) := now + lifetime]>
      (delete_lapsed now id (ensure_challenge_state id d))).

Lemma ensure_challenge_state_values id d :
  d_challenge_values (ensure_challenge_state id d) = d_challenge_values d /\
  d_installations (ensure_challenge_state id d) = d_installations d.
Proof. unfold ensure_challenge_state. by destruct (d_challenge_state d !! id). Qed.

Lemma ensure_challenge_value_tx_ok now id g txt d r d' :
  ensure_challenge_value_tx now id g txt d = Ok (r, d') ->
  validate_challenge_value txt = Ok tt /\
  (exists row, d_installations d !! id = Some row /\ i_state row = DnsReady) /\
  (exists c, current_dns_credential now id (u64_as_i64 g) d = Some c) /\
  (exists s, d_challenge_state d' !! id = Some s /\ cv_revision r = i64_as_u64 (s_revision s)) /\
  cv_expires_at_ms r = i64_as_u64 (epoch_ms (now + lifetime)) /\
  ((is_live now id txt d = true /\ d' = refreshed now id txt d) \/
   (is_live now id txt d = false /\ Z.of_nat (size (live_values now id d)) < MAX_LIVE_CHALLENGE_VALUES /\
    can_bump id (ensure_challenge_state id d) /\ d' = joined now id txt d)).
Proof.
  unfold ensure_challenge_value_tx. intros He. inv_tx.
  destruct (validate_challenge_value txt) as [[]|]; [|done].
  match goal with Hs : select_installation _ _ _ = Some _ |- _ =>
    apply select_installation_Some in Hs as [Hi Hst%bool_decide_eq_true] end.
  assert (is_live now id txt (ensure_challenge_state id d) = is_live now id txt d) as Hlive.
  { unfold is_live. by rewrite (proj1 (ensure_challenge_state_values id d)). }
  assert (live_values now id (ensure_challenge_state id d) = live_values now id d) as Hlv.
  { unfold live_values, values_of. by rewrite (proj1 (ensure_challenge_state_values id d)). }
  rewrite Hlive in *. split_and!; eauto; [].
  destruct (is_live now id txt d).
  - left. inv_tx. done.
  - right. inv_tx. to_prop. rewrite Hlv in *. unfold insert_challenge_value in *. inv_ok. to_prop.
    match goal with Hc : challenge_set_changed _ _ _ _ = _ |- _ =>
      apply challenge_set_changed_ok in Hc as [? ->] end. done.
Qed.

Lemma expire_challenge_values_tx_ok now id d r d' :
  expire_challenge_values_tx now id d = Ok (r, d') ->
  (r = false /\ lapsed_count now id d = 0%nat /\ d' = delete_lapsed now id d) \/
  (r = true /\ lapsed_count now id d <> 0%nat /\ can_bump id d /\
   d' = set_changed now id "challenge_value_expired" (delete_lapsed now id d)).
Proof.
  unfold expire_challenge_values_tx. intros He. inv_tx.
  destruct (0 <? _) eqn:Hr; to_prop; inv_tx; [right | left; split_and!; [done | lia | done]].
  match goal with Hc : challenge_set_changed _ _ _ _ = _ |- _ =>
    apply challenge_set_changed_ok in Hc as [? ->] end. split_and!; [done | lia | done..].
Qed.
