(* ===== verification/StoreLifecycle.v ===== *)
(** * Installations: the lifecycle methods of crates/bloom-relay-store/src/lib.rs

    Allocation, ACME account, DNS readiness, tunnel leases, relocation,
    retirement and the expiry of allocations that never became ready. *)

From Stdlib Require Import Ascii String Strings.Byte.
From stdpp Require Import base strings list gmap sorting.
From S2P Require Import Prelude Protocol Db Witness Store StoreCredentials StoreChallenges.

(** [BASE32_NOPAD.encode] of the data-encoding crate. *)
Class Base32 := { base32_encode : list byte -> string }.

(** RFC 4648 without padding: 16 bytes are 26 characters of [A-Z2-7]. *)
Class Base32Law `{Base32} : Prop := {
  base32_shape : forall bytes, List.length bytes = 16%nat ->
    str_len (base32_encode bytes) = 26 /\
    bytes_all (fun b => is_ascii_uppercase b || in_range 50 55 (u8 b)) (base32_encode bytes) = true
}.

Definition valid_placement (placement : string) : bool :=
  negb (bool_decide (placement = "")) && (str_len placement <=? 64)
  && bytes_all (fun b => is_ascii_alphanumeric b || bool_decide (b = Byte.x2d)) placement.

(** [allocation_from_row]. *)
Definition allocation_from_row (id : Uuid) (row : Installation) : Allocation :=
  {| a_version := WIRE_VERSION; a_installation_id := id; a_hostname := i_hostname row;
     a_placement := i_placement row; a_state := i_state row |}.

(** ** Queries *)
Definition admin_public_key (id : Uuid) (d : Db) : result StoreError (option (list byte)) :=
  match d_installations d !! id with
  | None => Ok None
  | Some row =>
      if bool_decide (List.length (i_admin_public_key row) = 32%nat)
      then Ok (Some (i_admin_public_key row)) else Err InvalidRequest
  end.

Definition hostname_of (id : Uuid) (d : Db) : option string :=
  i_hostname <$> select_installation id is_dns_ready d.

Definition allocation_status (id : Uuid) (d : Db) : option Allocation :=
  allocation_from_row id <$> d_installations d !! id.

Definition dns_identity (id : Uuid) (d : Db) : option (string * string * string) :=
  row ← select_installation id not_retired d;
  uri ← i_acme_account_uri row;
  Some (i_hostname row, uri, i_placement row).

Definition retired_hostname (id : Uuid) (d : Db) : option string :=
  i_hostname <$> select_installation id (fun row => bool_decide (i_state row = Retired)) d.

(** ** Allocation *)
Section allocate.
Context `{Base32}.

Definition hostname_of_random (random : list byte) : string :=
  str_map to_ascii_lowercase (base32_encode random) +:+ ".relay.bloom.directory".

(** [allocate], with the fresh UUID and the random bytes it draws. The replay
    query joins the operation with its installation. *)
Definition allocate_tx (now : Z) (operation_id : Uuid) (admin_key : list byte) (placement : string)
    (new_id : Uuid) (random : list byte) : Tx Allocation :=
  _ ← tx_reject (negb (valid_placement placement)) InvalidRequest;
  existing ← tx_gets (fun d =>
    op ← d_operations d !! operation_id;
    row ← d_installations d !! o_installation_id op;
    Some (o_installation_id op, row));
  match existing with
  | Some (id, row) =>
      _ ← tx_reject (negb (bool_decide (i_admin_public_key row = admin_key))
                     || negb (bool_decide (i_placement row = placement))) Conflict;
      mret (allocation_from_row id row)
  | None =>
      let hostname := hostname_of_random random in
      _ ← insert_installation new_id
            {| i_hostname := hostname; i_admin_public_key := admin_key; i_placement := placement;
               i_generation := 1; i_state := PendingDns; i_acme_account_uri := None;
               i_created_at := now; i_retired_at := None |};
      _ ← insert_reservation hostname new_id;
      let allocation :=
        {| a_version := WIRE_VERSION; a_installation_id := new_id; a_hostname := hostname;
           a_placement := placement; a_state := PendingDns |} in
      _ ← insert_operation operation_id
            {| o_installation_id := new_id; o_kind := "allocate";
               o_request_digest := replicate 32 Byte.x00; o_result := allocation_json allocation;
               o_created_at := now |};
      _ ← insert_outbox new_id "publish_name"
            (JObj [("hostname", JStr hostname); ("placement", JStr placement)]) now;
      _ ← insert_audit new_id (Some operation_id) "allocated" now;
      mret allocation
  end.
End allocate.

(** ** Account and readiness *)
Definition register_acme_account_tx (cfg : StoreConfig) (now : Z) (id : Uuid) (account_uri : string) :
    Tx unit :=
  _ ← tx_reject (is_err (validate_account_uri (acme_environment cfg) account_uri)) InvalidRequest;
  updated ← update_installation id not_retired (fun row => Ok (set_account account_uri row));
  row ← tx_some Conflict updated;
  _ ← insert_outbox id "publish_name" (JObj [("hostname", JStr (i_hostname row))]) now;
  insert_audit id None "acme_account_bound" now.

Definition pending_with_account (row : Installation) : bool :=
  bool_decide (i_state row = PendingDns) && bool_decide (is_Some (i_acme_account_uri row)).

Definition mark_dns_ready_tx (now : Z) (id : Uuid) : Tx unit :=
  updated ← update_installation id pending_with_account
    (fun row => Ok (set_state DnsReady (i_retired_at row) row));
  tx_when (bool_decide (is_Some updated)) (insert_audit id None "dns_ready" now).

(** ** Tunnel leases *)
Definition claim_tunnel_tx (now : Z) (id : Uuid) (gateway_id : string) (ttl_seconds : Z) : Tx Z :=
  _ ← tx_reject (bool_decide (gateway_id = "") || negb (in_range 5 60 ttl_seconds)) InvalidRequest;
  updated ← update_installation id
    (fun row => is_dns_ready row && bool_decide (i_placement row = gateway_id)) next_generation;
  row ← tx_some Conflict updated;
  _ ← tx_modify (set_leases <[id := {| l_generation := i_generation row; l_gateway_id := gateway_id;
                                       l_expires_at := now + seconds ttl_seconds |}]>);
  _ ← insert_audit id None "tunnel_claimed" now;
  mret (i64_as_u64 (i_generation row)).

(** The lease a gateway's [WHERE] clause finds. *)
Definition current_lease (now : Z) (id : Uuid) (gateway_id : string) (generation : Z) (d : Db) :
    option Lease :=
  l ← d_leases d !! id;
  if bool_decide (l_gateway_id l = gateway_id) && (l_generation l =? u64_as_i64 generation)
     && (now <? l_expires_at l)
  then Some l else None.

Definition lease_is_current (now : Z) (id : Uuid) (gateway_id : string) (generation : Z) (d : Db) : bool :=
  bool_decide (is_Some (current_lease now id gateway_id generation d)).

Definition renew_tunnel_tx (now : Z) (id : Uuid) (gateway_id : string) (generation : Z) : Tx bool :=
  fun d =>
    match current_lease now id gateway_id generation d with
    | Some l =>
        Ok (true, set_leases <[id := {| l_generation := l_generation l; l_gateway_id := l_gateway_id l;
                                        l_expires_at := now + seconds 45 |}]> d)
    | None => Ok (false, d)
    end.

Section tunnel_check.
Context `{S3}.

(** [tunnel_is_current] verifies the witness before it reads the lease. *)
Definition tunnel_is_current (ae : AckEnv) (now : Z) (id : Uuid) (gateway_id : string)
    (generation : Z) (w : World) : result StoreError bool * World :=
  let (res, w') := verify_integrity ae w in
  (_ ← res; Ok (lease_is_current now id gateway_id generation (w_db w')), w').
End tunnel_check.

(** ** Retirement and relocation *)
Definition retire_row (now : Z) (row : Installation) : result StoreError Installation :=
  row' ← next_generation row; Ok (set_state Retired (Some now) row').

Definition retire_digest `{Crypto} (id : Uuid) : list byte :=
  sha256 (str_bytes "bloom-relay/retire/v1" ++ [Byte.x00] ++ uuid_bytes id).

Definition relocation_digest `{Crypto} (id : Uuid) (placement : string) : list byte :=
  sha256 (str_bytes "bloom-relay/relocate/v1" ++ [Byte.x00] ++ uuid_bytes id ++ str_bytes placement).

Definition delete_challenge_values (id : Uuid) (d : Db) : Db :=
  set_challenge_values (filter (fun kv => kv.1.1 <> id)) d.

Definition retire_tx `{Crypto} (now : Z) (id operation_id : Uuid) : Tx unit :=
  existing ← tx_gets (fun d => d_operations d !! operation_id);
  match existing with
  | Some existing =>
      tx_reject (negb (bool_decide (o_installation_id existing = id))
                 || negb (bool_decide (o_kind existing = "retire"))) Conflict
  | None =>
      row ← tx_gets (fun d => d_installations d !! id);
      _ ← tx_some Conflict row;
      updated ← update_installation id not_retired (retire_row now);
      _ ← tx_when (bool_decide (is_Some updated))
            (_ ← tx_modify (delete_lease id);
             _ ← insert_outbox id "remove_records" (JObj []) now;
             _ ← insert_outbox id "remove_txt_all" (JObj []) now;
             _ ← tx_modify (delete_challenge_values id);
             insert_audit id (Some operation_id) "retired" now);
      insert_operation operation_id
        {| o_installation_id := id; o_kind := "retire"; o_request_digest := retire_digest id;
           o_result := JObj []; o_created_at := now |}
  end.

Definition relocate_tx `{Crypto} (now : Z) (id operation_id : Uuid) (placement : string) : Tx unit :=
  _ ← tx_reject (negb (valid_placement placement)) InvalidRequest;
  existing ← tx_gets (fun d => d_operations d !! operation_id);
  match existing with
  | Some existing =>
      tx_reject (negb (bool_decide (o_installation_id existing = id))
                 || negb (bool_decide (o_kind existing = "relocate"))
                 || negb (bool_decide (o_request_digest existing = relocation_digest id placement)))
        Conflict
  | None =>
      row ← tx_gets (select_installation id is_dns_ready);
      row ← tx_some Conflict row;
      _ ← tx_reject (bool_decide (i_placement row = placement)) Conflict;
      _ ← update_installation id (fun _ => true)
            (fun row => row' ← next_generation row; Ok (set_placement placement row'));
      _ ← tx_modify (delete_lease id);
      _ ← insert_outbox id "publish_name" (JObj [("placement", JStr placement)]) now;
      _ ← insert_audit id (Some operation_id) "placement_moved" now;
      insert_operation operation_id
        {| o_installation_id := id; o_kind := "relocate";
           o_request_digest := relocation_digest id placement; o_result := JObj [];
           o_created_at := now |}
  end.

(** ** Expiry of pending allocations *)
Definition pending_expired (now : Z) (row : Installation) : bool :=
  bool_decide (i_state row = PendingDns) && (i_created_at row <? now - hours 24).

(** One round of [expire_pending_allocations]. *)
Definition expire_pending_tx (now : Z) (id : Uuid) : Tx bool :=
  updated ← update_installation id (pending_expired now) (retire_row now);
  if bool_decide (is_Some updated)
  then
    _ ← insert_outbox id "remove_records" (JObj []) now;
    _ ← insert_outbox id "remove_txt_all" (JObj []) now;
    _ ← insert_audit id None "pending_allocation_expired" now;
    mret true
  else mret false.

(** [ORDER BY created_at LIMIT n]. *)
Definition created_le (a b : Uuid * Installation) : Prop := i_created_at a.2 <= i_created_at b.2.
#[global] Instance created_le_dec : RelDecision created_le.
Proof. intros a b. unfold created_le. apply _. Defined.

Definition expired_pending (now : Z) (limit : nat) (d : Db) : list Uuid :=
  take limit (fst <$> merge_sort created_le
    (map_to_list (filter (fun kv => pending_expired now kv.2 = true) (d_installations d)))).

Section sweep_pending.
Context `{S3}.

(** A round that changed nothing is rolled back and not acknowledged. *)
Definition expire_pending_round (ae : AckEnv) (now : Z) (id : Uuid) (w : World) :
    result StoreError bool * World :=
  match expire_pending_tx now id (w_db w) with
  | Ok (false, _) => (Ok false, w)
  | _ => run_tx ae (expire_pending_tx now id) w
  end.

Definition expire_pending_allocations (ae : AckEnv) (others : nat -> World -> World) (now : Z) (times : nat -> Z) (limit : Z) (w : World) :
    result StoreError Z * World :=
  if negb (in_range 1 100 limit) then (Err InvalidRequest, w)
  else
    sweep (fun n id w => expire_pending_round ae (times n) id (others n w)) 0
      (expired_pending now (Z.to_nat limit) (w_db w)) 0 w.
End sweep_pending.

(** ** What a successful method did *)
Lemma tx_when_ok b m d u d' :
  tx_when b m d = Ok (u, d') -> (b = true /\ m d = Ok (u, d')) \/ (b = false /\ d' = d).
Proof. destruct b; cbn; [auto|]. intros Hr. inv_tx. auto. Qed.

Definition allocated_row (now : Z) (admin_key : list byte) (placement hostname : string) : Installation :=
  {| i_hostname := hostname; i_admin_public_key := admin_key; i_placement := placement;
     i_generation := 1; i_state := PendingDns; i_acme_account_uri := None;
     i_created_at := now; i_retired_at := None |}.

Definition allocated_operation (now : Z) (id : Uuid) (placement hostname : string) : Operation :=
  {| o_installation_id := id; o_kind := "allocate"; o_request_digest := replicate 32 Byte.x00;
     o_result := allocation_json
       {| a_version := WIRE_VERSION; a_installation_id := id; a_hostname := hostname;
          a_placement := placement; a_state := PendingDns |};
     o_created_at := now |}.

Definition allocated (now : Z) (op : Uuid) (admin_key : list byte) (placement : string) (id : Uuid)
    (hostname : string) (d : Db) : Db :=
  add_audit id (Some op) "allocated" now
    (add_outbox id "publish_name" (JObj [("hostname", JStr hostname); ("placement", JStr placement)]) now
      (set_operations <[op := allocated_operation now id placement hostname]>
        (set_reservations <[hostname := id]>
          (set_installations <[id := allocated_row now admin_key placement hostname]> d)))).

Lemma allocate_tx_ok `{Base32} now op key placement new_id random d a d' :
  allocate_tx now op key placement new_id random d = Ok (a, d') ->
  valid_placement placement = true /\
  ((exists existing row, d_operations d !! op = Some existing /\
      d_installations d !! o_installation_id existing = Some row /\
      i_admin_public_key row = key /\ i_placement row = placement /\ d' = d /\
      a = allocation_from_row (o_installation_id existing) row) \/
   (d_operations d !! op = None /\ d_installations d !! new_id = None /\
    d_reservations d !! hostname_of_random random = None /\
    map_Forall (fun _ r => i_hostname r <> hostname_of_random random) (d_installations d) /\
    List.length key = 32%nat /\
    a = allocation_from_row new_id (allocated_row now key placement (hostname_of_random random)) /\
    d' = allocated now op key placement new_id (hostname_of_random random) d)).
Proof.
  unfold allocate_tx. intros Ha. apply tx_bind_ok in Ha as (u & d0 & Hg & Ha).
  apply tx_bind_ok in Ha as (ex & d1 & He & Ha). inv_tx. to_prop. split; [done|].
  destruct (d_operations d !! op) as [o|] eqn:Hop; cbn in *;
    [destruct (d_installations d !! o_installation_id o) as [row|] eqn:Hrow; cbn in *|].
  - left. inv_tx. to_prop. eauto 10.
  - right. inv_tx. cbn in *. congruence.
  - right. inv_tx. cbn in *. split_and!; done.
Qed.

Lemma to_ascii_lowercase_label b :
  is_ascii_uppercase b || in_range 50 55 (u8 b) = true ->
  is_ascii_lowercase (to_ascii_lowercase b) || is_ascii_digit (to_ascii_lowercase b) = true.
Proof.
  unfold to_ascii_lowercase, is_ascii_lowercase, is_ascii_digit. destruct (is_ascii_uppercase b) eqn:Hu.
  - intros _. unfold is_ascii_uppercase in Hu. apply in_range_true in Hu.
    rewrite u8_byte_of_Z by lia. apply orb_true_iff. left. apply in_range_true. lia.
  - cbn. intros Hr%in_range_true. apply orb_true_iff. right. apply in_range_true. lia.
Qed.

(** An allocated hostname is one the protocol accepts. *)
Lemma hostname_of_random_valid `{Base32} `{!Base32Law} random :
  List.length random = 16%nat -> validate_hostname (hostname_of_random random) = Ok tt.
Proof.
  intros Hlen. destruct (base32_shape random Hlen) as [Hl Ha]. apply validate_hostname_ok.
  eexists. split; [reflexivity|]. unfold str_map, bytes_all in *. rewrite str_len_bytes in *.
  rewrite !str_bytes_string, length_fmap. split; [done|].
  rewrite forallb_forall in *. intros x Hx. apply list_elem_of_In, list_elem_of_fmap in Hx as (b & -> & Hb).
  apply to_ascii_lowercase_label, Ha. by apply list_elem_of_In.
Qed.

Definition account_bound (now : Z) (id : Uuid) (uri : string) (row : Installation) (d : Db) : Db :=
  add_audit id None "acme_account_bound" now
    (add_outbox id "publish_name" (JObj [("hostname", JStr (i_hostname row))]) now
      (set_installations <[id := set_account uri row]> d)).

Lemma register_acme_account_tx_ok cfg now id uri d u d' :
  register_acme_account_tx cfg now id uri d = Ok (u, d') ->
  validate_account_uri (acme_environment cfg) uri = Ok tt /\
  exists row, d_installations d !! id = Some row /\ i_state row <> Retired /\
    d' = account_bound now id uri row d.
Proof.
  unfold register_acme_account_tx, not_retired. intros Hr. inv_tx. to_prop. split.
  - destruct (validate_account_uri _ uri) as [[]|]; done.
  - eexists. split_and!; [done..|]. done.
Qed.

Definition made_ready (now : Z) (id : Uuid) (row : Installation) (d : Db) : Db :=
  add_audit id None "dns_ready" now
    (set_installations <[id := set_state DnsReady (i_retired_at row) row]> d).

Lemma mark_dns_ready_tx_ok now id d u d' :
  mark_dns_ready_tx now id d = Ok (u, d') ->
  d' = d \/ exists row, d_installations d !! id = Some row /\ i_state row = PendingDns /\
    is_Some (i_acme_account_uri row) /\ d' = made_ready now id row d.
Proof.
  unfold mark_dns_ready_tx, pending_with_account. intros Hm. apply tx_bind_ok in Hm as (o & d1 & Hu & Hm).
  inv_tx; apply tx_when_ok in Hm as [[Hb Hm] | [Hb ->]]; to_prop; inv_tx.
  - by destruct Hb.
  - by left.
  - right. eexists. split_and!; done.
  - destruct Hb. eauto.
Qed.

Definition claimed (now : Z) (id : Uuid) (gateway : string) (ttl : Z) (row : Installation) (d : Db) : Db :=
  add_audit id None "tunnel_claimed" now
    (set_leases <[id := {| l_generation := i_generation row + 1; l_gateway_id := gateway;
                           l_expires_at := now + seconds ttl |}]>
      (set_installations <[id := set_generation (i_generation row + 1) row]> d)).

Lemma claim_tunnel_tx_ok now id gateway ttl d g d' :
  claim_tunnel_tx now id gateway ttl d = Ok (g, d') ->
  5 <= ttl <= 60 /\ exists row, d_installations d !! id = Some row /\ i_state row = DnsReady /\
    i_placement row = gateway /\ i_generation row < i64_max /\
    g = i64_as_u64 (i_generation row + 1) /\ d' = claimed now id gateway ttl row d.
Proof.
  unfold claim_tunnel_tx, is_dns_ready. intros Hc. inv_tx. to_prop.
  match goal with Hr : in_range _ _ _ = _ |- _ => apply in_range_true in Hr end.
  split; [done|]. eexists. split_and!; [done..|]. done.
Qed.

Lemma current_lease_Some now id gateway g d l :
  current_lease now id gateway g d = Some l <->
  d_leases d !! id = Some l /\ l_gateway_id l = gateway /\ l_generation l = u64_as_i64 g /\
  now < l_expires_at l.
Proof.
  unfold current_lease. destruct (d_leases d !! id) as [l0|]; cbn; [|split; [done | by intros [? _]]].
  destruct (_ && _) eqn:Hc.
  - to_prop. split; [intros [= <-]; done | by intros [[= ->] _]].
  - split; [done|]. intros ([= ->] & Hg & He & Hn). revert Hc.
    rewrite bool_decide_eq_true_2, (proj2 (Z.eqb_eq _ _) He), (proj2 (Z.ltb_lt _ _) Hn); done.
Qed.

Definition lease_renewed (now : Z) (id : Uuid) (l : Lease) (d : Db) : Db :=
  set_leases <[id := {| l_generation := l_generation l; l_gateway_id := l_gateway_id l;
                        l_expires_at := now + seconds 45 |}]> d.

Lemma renew_tunnel_tx_ok now id gateway g d r d' :
  renew_tunnel_tx now id gateway g d = Ok (r, d') ->
  (r = false /\ d' = d /\ current_lease now id gateway g d = None) \/
  (r = true /\ exists l, current_lease now id gateway g d = Some l /\ d' = lease_renewed now id l d).
Proof.
  unfold renew_tunnel_tx. destruct (current_lease _ _ _ _ _) as [l|]; intros [= <- <-]; eauto.
Qed.

Definition retired_row (now : Z) (row : Installation) : Installation :=
  set_state Retired (Some now) (set_generation (i_generation row + 1) row).

Definition retirement (now : Z) (id op : Uuid) (row : Installation) (d : Db) : Db :=
  add_audit id (Some op) "retired" now
    (delete_challenge_values id
      (add_outbox id "remove_txt_all" (JObj []) now (add_outbox id "remove_records" (JObj []) now
        (delete_lease id (set_installations <[id := retired_row now row]> d))))).

Definition retire_operation `{Crypto} (now : Z) (id : Uuid) : Operation :=
  {| o_installation_id := id; o_kind := "retire"; o_request_digest := retire_digest id;
     o_result := JObj []; o_created_at := now |}.

Lemma retire_row_ok now row row' :
  retire_row now row = Ok row' -> i_generation row < i64_max /\ row' = retired_row now row.
Proof. unfold retire_row. intros Hr. inv_ok. inv_tx. done. Qed.

Lemma retire_tx_ok `{Crypto} now id op d u d' :
  retire_tx now id op d = Ok (u, d') ->
  (exists existing, d_operations d !! op = Some existing /\ o_installation_id existing = id /\
     o_kind existing = "retire" /\ d' = d) \/
  (d_operations d !! op = None /\ exists row, d_installations d !! id = Some row /\
     ((i_state row = Retired /\ d' = set_operations <[op := retire_operation now id]> d) \/
      (i_state row <> Retired /\ i_generation row < i64_max /\
       d' = set_operations <[op := retire_operation now id]> (retirement now id op row d)))).
Proof.
  unfold retire_tx. intros Hr. apply tx_bind_ok in Hr as (ex & d0 & Hg & Hr). inv_tx.
  destruct (d_operations d !! op) as [existing|] eqn:Hop; [left; inv_tx; to_prop; eauto | right].
  split; [done|]. inv_tx; eexists; (split; [done|]).
  - left. match goal with Hs : select_installation _ _ _ = None |- _ =>
      eapply select_installation_None in Hs; [|eassumption] end.
    unfold not_retired in *. to_prop. split; [done|].
    match goal with Ht : tx_when _ _ _ = _ |- _ => apply tx_when_ok in Ht as [[Hb _] | [_ ->]] end; [|done].
    to_prop. by destruct Hb.
  - right. match goal with Hf : retire_row _ _ = _ |- _ => apply retire_row_ok in Hf as [? ->] end.
    match goal with Ht : tx_when _ _ _ = _ |- _ => apply tx_when_ok in Ht as [[_ Hm] | [Hb _]] end;
      [|to_prop; by destruct Hb]. inv_tx. simplify_eq. unfold not_retired in *. to_prop. done.
Qed.

Definition moved_row (placement : string) (row : Installation) : Installation :=
  set_placement placement (set_generation (i_generation row + 1) row).

Definition relocate_operation `{Crypto} (now : Z) (id : Uuid) (placement : string) : Operation :=
  {| o_installation_id := id; o_kind := "relocate";
     o_request_digest := relocation_digest id placement; o_result := JObj []; o_created_at := now |}.

Definition moved `{Crypto} (now : Z) (id op : Uuid) (placement : string) (row : Installation) (d : Db) : Db :=
  set_operations <[op := relocate_operation now id placement]>
    (add_audit id (Some op) "placement_moved" now
      (add_outbox id "publish_name" (JObj [("placement", JStr placement)]) now
        (delete_lease id (set_installations <[id := moved_row placement row]> d)))).

Lemma relocate_tx_ok `{Crypto} now id op placement d u d' :
  relocate_tx now id op placement d = Ok (u, d') ->
  (exists existing, d_operations d !! op = Some existing /\ o_installation_id existing = id /\
     o_kind existing = "relocate" /\ o_request_digest existing = relocation_digest id placement /\
     d' = d) \/
  (d_operations d !! op = None /\ exists row, d_installations d !! id = Some row /\
     i_state row = DnsReady /\ i_placement row <> placement /\ i_generation row < i64_max /\
     d' = moved now id op placement row d).
Proof.
  unfold relocate_tx. intros Hr. apply tx_bind_ok in Hr as (v & d0 & Hg & Hr).
  apply tx_bind_ok in Hr as (ex & d1 & He & Hr). inv_tx.
  destruct (d_operations d !! op) as [existing|] eqn:Hop; [left; inv_tx; to_prop; eauto 10 | right].
  split; [done|]. inv_tx; to_prop;
    match goal with Hs : select_installation _ is_dns_ready _ = Some _ |- _ =>
      apply select_installation_Some in Hs as [Hrow Hst%bool_decide_eq_true] end.
  - match goal with Hs : select_installation _ _ _ = None |- _ =>
      by eapply select_installation_None in Hs; [|exact Hrow] end.
  - simplify_eq. inv_ok. inv_tx. eexists. split_and!; done.
Qed.

Definition pending_retirement (now : Z) (id : Uuid) (row : Installation) (d : Db) : Db :=
  add_audit id None "pending_allocation_expired" now
    (add_outbox id "remove_txt_all" (JObj []) now (add_outbox id "remove_records" (JObj []) now
      (set_installations <[id := retired_row now row]> d))).

Lemma expire_pending_tx_ok now id d r d' :
  expire_pending_tx now id d = Ok (r, d') ->
  (r = false /\ d' = d) \/
  (r = true /\ exists row, d_installations d !! id = Some row /\ i_state row = PendingDns /\
     i_created_at row < now - hours 24 /\ i_generation row < i64_max /\
     d' = pending_retirement now id row d).
Proof.
  unfold expire_pending_tx. intros He. apply tx_bind_ok in He as (o & d0 & Hu & He). inv_tx.
  - left. change (mret (M:=Tx) false d = Ok (r, d')) in He. by inv_tx.
  - right. cbn in He. inv_tx. unfold pending_expired in *. to_prop.
    match goal with Hf : retire_row _ _ = _ |- _ => apply retire_row_ok in Hf as [? ->] end.
    split; [done|]. eexists. split_and!; done.
Qed.
