(* ===== verification/StoreBootstrap.v ===== *)
(** * Bootstrap challenges and replay nonces (crates/bloom-relay-store/src/lib.rs)

    The quotas on challenge issuance, single use of challenges and nonces,
    and the pruning of history. *)

From Stdlib Require Import Ascii String Strings.Byte.
From stdpp Require Import base strings list gmap sorting.
From S2P Require Import Prelude Protocol Db Witness Store.

(** The three counts of [create_bootstrap_challenge]. *)
Definition local_count (now : Z) (source : IpAddr) (d : Db) : nat :=
  size (filter (fun kv => b_source_ip kv.2 = source /\ now - minutes 1 < b_created_at kv.2)
          (d_bootstrap d)).
Definition global_count (now : Z) (d : Db) : nat :=
  size (filter (fun kv => now - minutes 1 < b_created_at kv.2) (d_bootstrap d)).
Definition consumed_after (t : Z) (b : Bootstrap) : bool :=
  match b_consumed_at b with Some c => t <? c | None => false end.
Definition daily_enrollments (now : Z) (source : IpAddr) (d : Db) : nat :=
  size (filter (fun kv => b_source_ip kv.2 = source /\
                  now - (days 1 + minutes 1) < b_created_at kv.2 /\
                  consumed_after (now - days 1) kv.2 = true) (d_bootstrap d)).

Definition challenge_row (now : Z) (source : IpAddr) : Bootstrap :=
  {| b_source_ip := source; b_expires_at := now + minutes 1; b_created_at := now;
     b_consumed_at := None |}.

(** [create_bootstrap_challenge]: [false] is over quota and changes nothing. *)
Definition create_bootstrap_challenge_tx (now : Z) (nonce : string) (source : IpAddr) : Tx bool := fun d =>
  if (10 <=? Z.of_nat (local_count now source d)) || (100 <=? Z.of_nat (global_count now d))
     || (20 <=? Z.of_nat (daily_enrollments now source d))
  then Ok (false, d)
  else if bool_decide (is_Some (d_bootstrap d !! nonce)) then Err Unavailable
  else Ok (true, set_bootstrap <[nonce := challenge_row now source]> d).

Definition consume (now : Z) (b : Bootstrap) : Bootstrap :=
  {| b_source_ip := b_source_ip b; b_expires_at := b_expires_at b; b_created_at := b_created_at b;
     b_consumed_at := Some now |}.

Definition consume_bootstrap_challenge_tx (now : Z) (nonce : string) (source : IpAddr) : Tx bool := fun d =>
  match d_bootstrap d !! nonce with
  | Some b =>
      if bool_decide (b_source_ip b = source) && (now <? b_expires_at b)
         && bool_decide (b_consumed_at b = None)
      then Ok (true, set_bootstrap <[nonce := consume now b]> d)
      else Ok (false, d)
  | None => Ok (false, d)
  end.

(** [consume_nonce]: an insert that a conflict turns into nothing. *)
Definition consume_nonce_tx (now : Z) (id : Uuid) (nonce : string) : Tx bool := fun d =>
  if (str_len nonce <? 16) || (128 <? str_len nonce) then Ok (false, d)
  else if bool_decide (is_Some (d_nonces d !! (id, nonce))) then Ok (false, d)
  else if has_installation id d
  then Ok (true, set_nonces <[(id, nonce) := now + minutes 5]> d)
  else Err Unavailable.

(** [DELETE .. WHERE key IN (SELECT .. WHERE p ORDER BY rank LIMIT n)]. *)
Section delete_oldest.
Context {K V : Type} `{Countable K}.

Definition rank_le (rank : V -> Z) (a b : K * V) : Prop := rank a.2 <= rank b.2.
#[global] Instance rank_le_dec rank : RelDecision (rank_le rank).
Proof. intros a b. unfold rank_le. apply _. Defined.

Definition oldest (rank : V -> Z) (p : V -> bool) (limit : nat) (m : gmap K V) : gset K :=
  list_to_set (take limit (fst <$> merge_sort (rank_le rank)
    (map_to_list (filter (fun kv => p kv.2 = true) m)))).

Definition delete_oldest (rank : V -> Z) (p : V -> bool) (limit : nat) (m : gmap K V) : gmap K V :=
  filter (fun kv => kv.1 ∉ oldest rank p limit m) m.

Lemma delete_oldest_subseteq rank p limit m : delete_oldest rank p limit m ⊆ m.
Proof. apply map_filter_subseteq. Qed.

Lemma lookup_delete_oldest_keep rank p limit m k v :
  m !! k = Some v -> p v = false -> delete_oldest rank p limit m !! k = Some v.
Proof.
  intros Hk Hp. apply map_lookup_filter_Some. split; [done|]. cbn. unfold oldest.
  rewrite elem_of_list_to_set. intros Hin%subseteq_take.
  apply list_elem_of_fmap in Hin as ([k' v'] & -> & Hin). rewrite merge_sort_Permutation in Hin.
  apply elem_of_map_to_list, map_lookup_filter_Some in Hin as [Hk' Hp']. cbn in *. congruence.
Qed.
End delete_oldest.

Definition prune_challenges_tx (now : Z) (limit : Z) : Tx Z := fun d =>
  let m := delete_oldest b_created_at (fun b => b_created_at b <? now - days 2) (Z.to_nat limit)
             (d_bootstrap d) in
  Ok (Z.of_nat (size (d_bootstrap d)) - Z.of_nat (size m), set_bootstrap (fun _ => m) d).

Definition prune_nonces_tx (now : Z) (limit : Z) : Tx Z := fun d =>
  let m := delete_oldest id (fun expires_at => expires_at <? now) (Z.to_nat limit) (d_nonces d) in
  Ok (Z.of_nat (size (d_nonces d)) - Z.of_nat (size m), set_nonces (fun _ => m) d).

Section methods.
Context `{S3}.

(** An over-quota request returns before the commit and its acknowledgement. *)
Definition create_bootstrap_challenge (ae : AckEnv) (now : Z) (nonce : string) (source : IpAddr)
    (w : World) : result StoreError bool * World :=
  match create_bootstrap_challenge_tx now nonce source (w_db w) with
  | Ok (false, _) => (Ok false, w)
  | _ => run_tx ae (create_bootstrap_challenge_tx now nonce source) w
  end.

Definition consume_bootstrap_challenge (now : Z) (nonce : string) (source : IpAddr) (w : World) :
    result StoreError bool * World :=
  exec_tx (consume_bootstrap_challenge_tx now nonce source) w.

Definition consume_nonce (now : Z) (id : Uuid) (nonce : string) (w : World) :
    result StoreError bool * World :=
  exec_tx (consume_nonce_tx now id nonce) w.

(** Two statements, each with its own [now()], then one acknowledgement. *)
Definition prune_bootstrap_and_nonces (ae : AckEnv) (others_nonces others_ack : World -> World) (now1 now2 limit : Z) (w : World) :
    result StoreError Z * World :=
  if negb (in_range 1 10000 limit) then (Err InvalidRequest, w)
  else
    let (challenges, w1) := exec_tx (prune_challenges_tx now1 limit) w in
    match challenges with
    | Err e => (Err e, w1)
    | Ok challenges =>
        let (nonces, w2) := exec_tx (prune_nonces_tx now2 limit) (others_nonces w1) in
        match nonces with
        | Err e => (Err e, w2)
        | Ok nonces =>
            let (ack, w3) := acknowledge ae (others_ack w2) in
            (_ ← ack; Ok (challenges + nonces), w3)
        end
    end.
End methods.

(** ** What a successful call did *)
Lemma create_bootstrap_challenge_tx_ok now nonce source d r d' :
  create_bootstrap_challenge_tx now nonce source d = Ok (r, d') ->
  (r = false /\ d' = d) \/
  (r = true /\ (local_count now source d < 10)%nat /\ (global_count now d < 100)%nat /\
   (daily_enrollments now source d < 20)%nat /\ d_bootstrap d !! nonce = None /\
   d' = set_bootstrap <[nonce := challenge_row now source]> d).
Proof.
  unfold create_bootstrap_challenge_tx. intros Hc. inv_ok; [by left|]. right. to_prop.
  split_and!; try done; try lia. by apply eq_None_not_Some.
Qed.

Lemma consume_bootstrap_challenge_tx_ok now nonce source d r d' :
  consume_bootstrap_challenge_tx now nonce source d = Ok (r, d') ->
  (r = false /\ d' = d) \/
  (r = true /\ exists b, d_bootstrap d !! nonce = Some b /\ b_source_ip b = source /\
   now < b_expires_at b /\ b_consumed_at b = None /\
   d' = set_bootstrap <[nonce := consume now b]> d).
Proof.
  unfold consume_bootstrap_challenge_tx. intros Hc. inv_ok; [|by left..]. right. to_prop. eauto 10.
Qed.

Lemma consume_nonce_tx_ok now id nonce d r d' :
  consume_nonce_tx now id nonce d = Ok (r, d') ->
  (r = false /\ d' = d) \/
  (r = true /\ 16 <= str_len nonce <= 128 /\ d_nonces d !! (id, nonce) = None /\
   is_Some (d_installations d !! id) /\ d' = set_nonces <[(id, nonce) := now + minutes 5]> d).
Proof.
  unfold consume_nonce_tx, has_installation. intros Hc. inv_ok; [by left..|]. right. to_prop.
  split_and!; auto; [by apply eq_None_not_Some].
Qed.
