(* ===== verification/StoreOutbox.v ===== *)
(** * DNS jobs: the outbox methods of crates/bloom-relay-store/src/lib.rs

    Claiming the oldest due job of a worker's scope and placement, and
    recording the attempt. A claim holds the row lock until it is recorded:
    [locked] are the rows other workers hold, which the query skips. *)

From Stdlib Require Import Ascii String Strings.Byte.
From stdpp Require Import base strings list gmap.
From S2P Require Import Prelude Protocol Db Witness Store.

Inductive DnsJobScope := Serving | Challenge.
#[global] Instance DnsJobScope_eq_dec : EqDecision DnsJobScope.
Proof. solve_decision. Defined.

Definition scope_as_str (s : DnsJobScope) : string :=
  match s with Serving => "serving" | Challenge => "challenge" end.

(** The kinds a scope's [WHERE] clause admits. *)
Definition kind_in_scope (scope : DnsJobScope) (kind : string) : bool :=
  (bool_decide (scope_as_str scope = "serving")
   && (bool_decide (kind = "publish_name") || bool_decide (kind = "remove_records")))
  || (bool_decide (scope_as_str scope = "challenge")
   && (bool_decide (kind = "reconcile_txt") || bool_decide (kind = "remove_txt_all"))).

Definition at_placement (placement : string) (id : Uuid) (d : Db) : bool :=
  match d_installations d !! id with
  | Some row => bool_decide (i_placement row = placement)
  | None => false
  end.

Definition due (now : Z) (placement : string) (scope : DnsJobScope) (d : Db) (x : OutboxRow) : bool :=
  at_placement placement (x_installation_id x) d && kind_in_scope scope (x_kind x)
  && bool_decide (x_completed_at x = None) && (x_next_attempt_at x <=? now).

(** [ORDER BY o.id FOR UPDATE SKIP LOCKED LIMIT 1]; the list is in id order. *)
Definition select_job (now : Z) (placement : string) (scope : DnsJobScope) (locked : Z -> bool)
    (d : Db) : option OutboxRow :=
  List.find (fun x => due now placement scope d x && negb (locked (x_id x))) (d_outbox d).

Definition update_job (n : Z) (f : OutboxRow -> OutboxRow) (d : Db) : Db :=
  set_outbox (fmap (fun x => if x_id x =? n then f x else x)) (d_outbox_next d) d.

Definition completed (now : Z) (x : OutboxRow) : OutboxRow :=
  {| x_id := x_id x; x_installation_id := x_installation_id x; x_kind := x_kind x;
     x_payload := x_payload x; x_attempts := x_attempts x; x_next_attempt_at := x_next_attempt_at x;
     x_completed_at := Some now |}.

(** [LEAST(300, 5 * POWER(2, LEAST(6, attempts)))::int], in seconds. *)
Definition backoff (attempts : Z) : Z := Z.min 300 (5 * 2 ^ Z.min 6 attempts).

Definition deferred (now : Z) (x : OutboxRow) : OutboxRow :=
  {| x_id := x_id x; x_installation_id := x_installation_id x; x_kind := x_kind x;
     x_payload := x_payload x; x_attempts := x_attempts x + 1;
     x_next_attempt_at := now + seconds (backoff (x_attempts x));
     x_completed_at := x_completed_at x |}.

Definition complete_tx (now n : Z) : Tx unit := tx_modify (update_job n (completed now)).

(** [attempts] is an [integer] column. *)
Definition defer_tx (now n : Z) : Tx unit := fun d =>
  if forallb (fun x => negb (x_id x =? n) || (x_attempts x <? i32_max)) (d_outbox d)
  then Ok (tt, update_job n (deferred now) d)
  else Err Unavailable.

Section methods.
Context `{S3}.

(** [claim_job]: the job is held only once the witness acknowledged; otherwise
    the transaction is dropped and the row freed. *)
Definition claim_job (ae : AckEnv) (now : Z) (placement : string) (scope : DnsJobScope)
    (locked : Z -> bool) (w : World) : result StoreError (option OutboxRow) * World :=
  match select_job now placement scope locked (w_db w) with
  | None => (Ok None, w)
  | Some job =>
      let (ack, w') := acknowledge ae w in
      (_ ← ack; Ok (Some job), w')
  end.

(** [ClaimedJob::complete] and [ClaimedJob::defer] check the witness first. *)
Definition record_attempt (ae ae' : AckEnv) (m : Tx unit) (w : World) :
    result StoreError unit * World :=
  let (ok, w1) := verify_integrity ae w in
  match ok with
  | Err e => (Err e, w1)
  | Ok _ => run_tx ae' m w1
  end.

Definition complete (ae ae' : AckEnv) (now n : Z) (w : World) : result StoreError unit * World :=
  record_attempt ae ae' (complete_tx now n) w.
Definition defer (ae ae' : AckEnv) (now n : Z) (w : World) : result StoreError unit * World :=
  record_attempt ae ae' (defer_tx now n) w.
End methods.

(** ** Properties of the queue *)
Lemma backoff_range attempts : 0 <= attempts -> 5 <= backoff attempts <= 300.
Proof.
  intros Ha. unfold backoff. assert (1 <= 2 ^ Z.min 6 attempts); [|lia].
  apply (Z.pow_le_mono_r 2 0); lia.
Qed.

Lemma backoff_mono a b : 0 <= a <= b -> backoff a <= backoff b.
Proof.
  intros Hab. unfold backoff.
  assert (2 ^ Z.min 6 a <= 2 ^ Z.min 6 b) by (apply Z.pow_le_mono_r; lia). lia.
Qed.

Lemma find_first {A} (p : A -> bool) l x :
  List.find p l = Some x ->
  exists l1 l2, l = l1 ++ x :: l2 /\ p x = true /\ Forall (fun y => p y = false) l1.
Proof.
  induction l as [|y l IH]; cbn; [done|]. destruct (p y) eqn:Hp.
  - intros [= <-]. exists [], l. by split_and!.
  - intros (l1 & l2 & -> & Hx & Hf)%IH. exists (y :: l1), l2. split_and!; [done..|by constructor].
Qed.

Lemma kind_scope_unique s1 s2 kind :
  kind_in_scope s1 kind = true -> kind_in_scope s2 kind = true -> s1 = s2.
Proof.
  unfold kind_in_scope. destruct s1, s2; cbn [scope_as_str]; try done; intros H1 H2;
    repeat case_bool_decide; subst; try done.
Qed.
