(* ===== verification/StoreCt.v ===== *)
(** * Certificate inventory and CT feed: crates/bloom-relay-store/src/ct.rs

    Expected certificates, contiguous feed positions, durable alerts and
    their delivery marks. Rows of the CT tables advance the restore fence by
    the triggers of the migrations. *)

From Stdlib Require Import Ascii String Strings.Byte.
From stdpp Require Import base strings list gmap.
From S2P Require Import Prelude Protocol Db Witness Store StoreCredentials.

Definition validate_fingerprint (value : string) : result StoreError unit :=
  reject_if (negb (str_len value =? 64) || negb (bytes_all is_ascii_hexdigit value)) InvalidRequest.

Definition validate_source (source : string) : result StoreError unit :=
  reject_if (bool_decide (source = "") || (64 <? str_len source)
             || negb (bytes_all (fun b => is_ascii_alphanumeric b || bool_decide (b = Byte.x2d)) source))
    InvalidRequest.

(** ** Statements *)
Definition with_checkpoints (m : gmap string (Z * Z)) (c : CtTables) : CtTables :=
  {| ct_checkpoints := m; ct_observations := ct_observations c; ct_alerts := ct_alerts c;
     ct_health_alerts := ct_health_alerts c |}.
Definition with_observations (m : gmap (string * Z) CtObservation) (c : CtTables) : CtTables :=
  {| ct_checkpoints := ct_checkpoints c; ct_observations := m; ct_alerts := ct_alerts c;
     ct_health_alerts := ct_health_alerts c |}.
Definition with_alerts (l : list CtAlertRow) (c : CtTables) : CtTables :=
  {| ct_checkpoints := ct_checkpoints c; ct_observations := ct_observations c; ct_alerts := l;
     ct_health_alerts := ct_health_alerts c |}.
Definition with_health_alerts (l : list CtHealthRow) (c : CtTables) : CtTables :=
  {| ct_checkpoints := ct_checkpoints c; ct_observations := ct_observations c;
     ct_alerts := ct_alerts c; ct_health_alerts := l |}.

Definition checkpoints (d : Db) : gmap string (Z * Z) := ct_checkpoints (d_ct d).

(** An inserted or updated checkpoint row fires the fence trigger. *)
Definition write_checkpoint (source : string) (position observed_at : Z) : Tx unit :=
  _ ← tx_modify (fun d => set_ct (with_checkpoints (<[source := (position, observed_at)]> (checkpoints d))) d);
  advance_restore_fence.

(** [INSERT INTO ct_feed_checkpoints(source, position) VALUES (.., 0) ON CONFLICT DO NOTHING]. *)
Definition insert_checkpoint (now : Z) (source : string) : Tx unit :=
  row ← tx_gets (fun d => checkpoints d !! source);
  match row with
  | Some _ => mret tt
  | None => write_checkpoint source 0 now
  end.

Definition ensure_ct_source_tx (now : Z) (source : string) : Tx unit :=
  _ ← tx_lift (validate_source source);
  insert_checkpoint now source.

Definition ct_checkpoint (source : string) (d : Db) : result StoreError (option Z) :=
  _ ← validate_source source;
  Ok (i64_as_u64 ∘ fst <$> checkpoints d !! source).

Definition mark_ct_feed_healthy_tx (now : Z) (source : string) (position : Z) : Tx unit :=
  _ ← tx_lift (validate_source source);
  row ← tx_gets (fun d => checkpoints d !! source);
  match row with
  | Some (p, _) =>
      if p =? u64_as_i64 position then write_checkpoint source p now else tx_lift (Err Conflict)
  | None => tx_lift (Err Conflict)
  end.

(** ** Alerts *)
Record CtAlert := {
  ca_id : Z; ca_source : string; ca_position : Z; ca_hostname : string; ca_fingerprint : string
}.
Record CtLagAlert := { cl_id : Z; cl_source : string; cl_lag_seconds : Z }.

Definition undelivered (source : string) (a : CtAlertRow) : bool :=
  bool_decide (al_source a = source) && bool_decide (al_delivered_at a = None).

Definition pending_ct_alerts (source : string) (limit : Z) (d : Db) : result StoreError (list CtAlert) :=
  _ ← validate_source source;
  if negb (in_range 1 100 limit) then Err InvalidRequest
  else
    Ok ((fun a => {| ca_id := al_id a; ca_source := source; ca_position := i64_as_u64 (al_position a);
                     ca_hostname := al_hostname a; ca_fingerprint := al_fingerprint a |})
        <$> take (Z.to_nat limit) (List.filter (undelivered source) (ct_alerts (d_ct d)))).

Definition deliver (now : Z) (a : CtAlertRow) : CtAlertRow :=
  {| al_id := al_id a; al_source := al_source a; al_position := al_position a;
     al_installation_id := al_installation_id a; al_hostname := al_hostname a;
     al_fingerprint := al_fingerprint a; al_delivered_at := Some now |}.

(** [WHERE id = .. AND delivered_at IS NULL]; the trigger fires per row. *)
Definition mark_ct_alert_delivered_tx (now n : Z) : Tx unit :=
  rows ← tx_gets (fun d => ct_alerts (d_ct d));
  let hit (a : CtAlertRow) := (al_id a =? n) && bool_decide (al_delivered_at a = None) in
  if existsb hit rows
  then
    _ ← tx_modify (set_ct (with_alerts ((fun a => if hit a then deliver now a else a) <$> rows)));
    advance_restore_fence
  else mret tt.

Definition lagging (now : Z) (observed_at : Z) : bool := observed_at <? now - minutes 15.
Definition lag_window (now : Z) : Z := round_div now (seconds 900).
Definition lag_seconds (now observed_at : Z) : Z := round_div (now - observed_at) (seconds 1).

Definition queue_ct_lag_alert_tx (now : Z) (source : string) : Tx unit :=
  _ ← tx_lift (validate_source source);
  row ← tx_gets (fun d => checkpoints d !! source);
  rows ← tx_gets (fun d => ct_health_alerts (d_ct d));
  match row with
  | Some (_, observed_at) =>
      if lagging now observed_at
         && negb (existsb (fun h => bool_decide (he_source h = source)
                                    && (he_time_window h =? lag_window now)) rows)
      then
        _ ← tx_modify (set_ct (with_health_alerts (rows ++
              [{| he_id := Z.of_nat (List.length rows) + 1; he_source := source;
                  he_time_window := lag_window now; he_lag_seconds := lag_seconds now observed_at;
                  he_delivered_at := None |}])));
        advance_restore_fence
      else mret tt
  | None => mret tt
  end.

Definition lag_undelivered (source : string) (h : CtHealthRow) : bool :=
  bool_decide (he_source h = source) && bool_decide (he_delivered_at h = None).

Definition pending_ct_lag_alerts (source : string) (limit : Z) (d : Db) :
    result StoreError (list CtLagAlert) :=
  _ ← validate_source source;
  if negb (in_range 1 100 limit) then Err InvalidRequest
  else
    Ok ((fun h => {| cl_id := he_id h; cl_source := source; cl_lag_seconds := i64_as_u64 (he_lag_seconds h) |})
        <$> take (Z.to_nat limit) (List.filter (lag_undelivered source) (ct_health_alerts (d_ct d)))).

Definition deliver_lag (now : Z) (h : CtHealthRow) : CtHealthRow :=
  {| he_id := he_id h; he_source := he_source h; he_time_window := he_time_window h;
     he_lag_seconds := he_lag_seconds h; he_delivered_at := Some now |}.

Definition mark_ct_lag_alert_delivered_tx (now n : Z) : Tx unit :=
  rows ← tx_gets (fun d => ct_health_alerts (d_ct d));
  let hit (h : CtHealthRow) := (he_id h =? n) && bool_decide (he_delivered_at h = None) in
  if existsb hit rows
  then
    _ ← tx_modify (set_ct (with_health_alerts ((fun h => if hit h then deliver_lag now h else h) <$> rows)));
    advance_restore_fence
  else mret tt.

Definition ct_feed_lag_seconds (now : Z) (source : string) (d : Db) : option Z :=
  (fun row => lag_seconds now row.2) <$> checkpoints d !! source.

(** ** Inventory and observations *)
Definition record_expected_certificate_tx (now : Z) (id : Uuid) (certificate : CertificateMetadata) :
    Tx unit :=
  _ ← tx_lift (map_err (fun _ => InvalidRequest) (validate_hostname (cm_hostname certificate)));
  _ ← tx_lift (validate_fingerprint (cm_key_fingerprint certificate));
  _ ← tx_reject (bool_decide (cm_lineage certificate = "") || (128 <? str_len (cm_lineage certificate))
                 || (cm_not_after_ms certificate <=? cm_not_before_ms certificate)) InvalidRequest;
  row ← tx_gets (select_installation id is_dns_ready);
  row ← tx_some Conflict row;
  _ ← tx_reject (negb (bool_decide (i_hostname row = cm_hostname certificate))
                 || negb (bool_decide (i_acme_account_uri row = Some (cm_acme_account_uri certificate))))
        Conflict;
  _ ← tx_modify (fun d =>
        let key := (id, cm_key_fingerprint certificate) in
        match d_certificates d !! key with
        | Some _ => d
        | None => set_certificates <[key :=
            {| ce_lineage := cm_lineage certificate;
               ce_not_before := 1000 * u64_as_i64 (cm_not_before_ms certificate);
               ce_not_after := 1000 * u64_as_i64 (cm_not_after_ms certificate) |}]> d
        end);
  insert_audit id None "certificate_expected" now.

(** [SELECT installation_id FROM installations WHERE hostname = ..]: hostnames
    are unique. *)
Definition owner_of (hostname : string) (d : Db) : option Uuid :=
  fst <$> head (map_to_list (filter (fun kv => i_hostname kv.2 = hostname) (d_installations d))).

Definition is_expected (owner : option Uuid) (fingerprint : string) (d : Db) : bool :=
  match owner with
  | Some id => bool_decide (is_Some (d_certificates d !! (id, fingerprint)))
  | None => false
  end.

Definition insert_observation (source : string) (position : Z) (row : CtObservation) : Tx unit := fun d =>
  if bool_decide (is_Some (ct_observations (d_ct d) !! (source, position))) then Err Unavailable
  else Ok (tt, set_ct (fun c => with_observations (<[(source, position) := row]> (ct_observations c)) c) d).

(** [INSERT INTO ct_alerts]: unique on source and position; fires the trigger. *)
Definition insert_alert (source : string) (position : Z) (owner : option Uuid)
    (hostname fingerprint : string) : Tx unit :=
  rows ← tx_gets (fun d => ct_alerts (d_ct d));
  _ ← tx_reject (existsb (fun a => bool_decide (al_source a = source) && (al_position a =? position)) rows)
        Unavailable;
  _ ← tx_modify (set_ct (with_alerts (rows ++
        [{| al_id := Z.of_nat (List.length rows) + 1; al_source := source; al_position := position;
            al_installation_id := owner; al_hostname := hostname; al_fingerprint := fingerprint;
            al_delivered_at := None |}])));
  advance_restore_fence.

(** [observe_ct] after its checks on the checkpoint: record position [position]. *)
Definition record_observation (now : Z) (source : string) (position : Z) (hostname fingerprint : string) :
    Tx bool :=
  owner ← tx_gets (owner_of hostname);
  expected ← tx_gets (is_expected owner fingerprint);
  _ ← insert_observation source position
        {| ob_installation_id := owner; ob_hostname := hostname; ob_fingerprint := fingerprint;
           ob_expected := expected |};
  _ ← tx_when (negb expected)
        (_ ← insert_alert source position owner hostname fingerprint;
         match owner with
         | Some id => insert_audit id None "unexpected_ct" now
         | None => mret tt
         end);
  _ ← write_checkpoint source position now;
  mret expected.

Definition observe_ct_tx (now : Z) (source : string) (position : Z) (hostname fingerprint : string) :
    Tx bool :=
  _ ← tx_lift (map_err (fun _ => InvalidRequest) (validate_hostname hostname));
  _ ← tx_lift (validate_fingerprint fingerprint);
  _ ← tx_reject (is_err (validate_source source) || (position =? 0) || (i64_max <? position))
        InvalidRequest;
  before ← tx_gets (fun d => d);
  _ ← insert_checkpoint now source;
  row ← tx_gets (fun d => checkpoints d !! source);
  row ← tx_some Unavailable row;
  let current := i64_as_u64 row.1 in
  if position <=? current
  then
    previous ← tx_gets (fun d => ct_observations (d_ct d) !! (source, u64_as_i64 position));
    previous ← tx_some Conflict previous;
    _ ← tx_reject (negb (bool_decide (ob_hostname previous = hostname))
                   || negb (bool_decide (ob_fingerprint previous = fingerprint))) Conflict;
    (* the transaction is dropped: nothing it did is kept *)
    _ ← tx_modify (fun _ => before);
    mret (ob_expected previous)
  else
    _ ← tx_reject (negb (position =? current + 1)) Conflict;
    record_observation now source (u64_as_i64 position) hostname fingerprint.
