(* ===== verification/StoreHistory.v ===== *)
(** * Histories of the store

    Every transaction of the store as a [Request], executed by [exec] at a
    time; [reachable] databases are those a sequence of requests produces
    from the migrated one. What no request ever undoes is [history_le], a
    preorder that each statement respects. *)

From Stdlib Require Import Ascii String Strings.Byte.
From stdpp Require Import base strings list gmap relations.
From S2P Require Import Prelude Protocol Db Witness Store StoreCredentials StoreChallenges.
From S2P Require Import StoreLifecycle StoreBootstrap StoreOutbox StoreCt.

Inductive Request :=
| CreateBootstrapChallenge (nonce : string) (source : IpAddr)
| ConsumeBootstrapChallenge (nonce : string) (source : IpAddr)
| ConsumeNonce (id : Uuid) (nonce : string)
| PruneChallenges (limit : Z)
| PruneNonces (limit : Z)
| IssueBearer (id op : Uuid) (scope : string) (token_hash : list byte) (validity_seconds : Z)
| RenewBearer (id op : Uuid) (scope : string) (generation : Z) (token : string) (new_hash : list byte)
| RegisterAccount (id : Uuid) (account_uri : string)
| MarkDnsReady (id : Uuid)
| EnsureChallengeValue (id : Uuid) (generation : Z) (txt_value : string)
| MarkChallengeReconciled (id : Uuid) (revision : Z)
| ExpireChallengeValues (id : Uuid)
| Allocate (op : Uuid) (admin_key : list byte) (placement : string) (new_id : Uuid) (random : list byte)
| ClaimTunnel (id : Uuid) (gateway_id : string) (ttl_seconds : Z)
| RenewTunnel (id : Uuid) (gateway_id : string) (generation : Z)
| ExpirePending (id : Uuid)
| Retire (id op : Uuid)
| Relocate (id op : Uuid) (placement : string)
| CompleteJob (n : Z)
| DeferJob (n : Z)
| EnsureCtSource (source : string)
| MarkCtFeedHealthy (source : string) (position : Z)
| MarkCtAlertDelivered (n : Z)
| QueueCtLagAlert (source : string)
| MarkCtLagAlertDelivered (n : Z)
| RecordExpectedCertificate (id : Uuid) (certificate : CertificateMetadata)
| ObserveCt (source : string) (position : Z) (hostname fingerprint : string).

Definition void {A} (m : Tx A) : Tx unit := _ ← m; mret tt.

Lemma void_ok {A} (m : Tx A) d u d' : void m d = Ok (u, d') -> exists a, m d = Ok (a, d').
Proof. unfold void. intros Hv. inv_tx. eauto. Qed.

Section exec.
Context `{Crypto} `{Base32} (cfg : StoreConfig).

Definition exec (now : Z) (r : Request) : Tx unit :=
  match r with
  | CreateBootstrapChallenge nonce source => void (create_bootstrap_challenge_tx now nonce source)
  | ConsumeBootstrapChallenge nonce source => void (consume_bootstrap_challenge_tx now nonce source)
  | ConsumeNonce id nonce => void (consume_nonce_tx now id nonce)
  | PruneChallenges limit => void (prune_challenges_tx now limit)
  | PruneNonces limit => void (prune_nonces_tx now limit)
  | IssueBearer id op scope hash vs => void (issue_bearer_tx cfg now id op scope hash vs)
  | RenewBearer id op scope g token hash => void (renew_bearer_tx cfg now id op scope g token hash)
  | RegisterAccount id uri => register_acme_account_tx cfg now id uri
  | MarkDnsReady id => mark_dns_ready_tx now id
  | EnsureChallengeValue id g txt => void (ensure_challenge_value_tx now id g txt)
  | MarkChallengeReconciled id rev => void (mark_challenge_reconciled_tx id rev)
  | ExpireChallengeValues id => void (expire_challenge_values_tx now id)
  | Allocate op key placement new_id random => void (allocate_tx now op key placement new_id random)
  | ClaimTunnel id gateway ttl => void (claim_tunnel_tx now id gateway ttl)
  | RenewTunnel id gateway g => void (renew_tunnel_tx now id gateway g)
  | ExpirePending id => void (expire_pending_tx now id)
  | Retire id op => retire_tx now id op
  | Relocate id op placement => relocate_tx now id op placement
  | CompleteJob n => complete_tx now n
  | DeferJob n => defer_tx now n
  | EnsureCtSource source => ensure_ct_source_tx now source
  | MarkCtFeedHealthy source position => mark_ct_feed_healthy_tx now source position
  | MarkCtAlertDelivered n => mark_ct_alert_delivered_tx now n
  | QueueCtLagAlert source => queue_ct_lag_alert_tx now source
  | MarkCtLagAlertDelivered n => mark_ct_lag_alert_delivered_tx now n
  | RecordExpectedCertificate id c => record_expected_certificate_tx now id c
  | ObserveCt source position hostname fingerprint =>
      void (observe_ct_tx now source position hostname fingerprint)
  end.

(** What the Rust types of the arguments guarantee: array lengths and [u64]. *)
Definition typed (r : Request) : Prop :=
  match r with
  | Allocate _ key _ _ random => List.length key = 32%nat /\ List.length random = 16%nat
  | IssueBearer _ _ _ hash _ => List.length hash = 32%nat
  | RenewBearer _ _ _ g _ hash => is_u64 g /\ List.length hash = 32%nat
  | EnsureChallengeValue _ g _ | RenewTunnel _ _ g | MarkChallengeReconciled _ g => is_u64 g
  | MarkCtFeedHealthy _ p | ObserveCt _ p _ _ => is_u64 p
  | _ => True
  end.

Definition step (now : Z) (d d' : Db) : Prop :=
  exists r, typed r /\ exec now r d = Ok (tt, d').

(** Requests at times the database clock never takes back. *)
Inductive history : Z -> Db -> Z -> Db -> Prop :=
| history_refl now d : history now d now d
| history_tick now now' d t d' :
    now <= now' -> history now' d t d' -> history now d t d'
| history_step now d d1 t d2 :
    step now d d1 -> history now d1 t d2 -> history now d t d2.

Definition reachable (now : Z) (d : Db) : Prop := exists start, history start empty_db now d.

Lemma history_trans t d t1 d1 t2 d2 :
  history t d t1 d1 -> history t1 d1 t2 d2 -> history t d t2 d2.
Proof. induction 1; [done | eauto using history_tick | eauto using history_step]. Qed.
End exec.

(** ** Relations every statement respects *)
Definition preserves {A} (R : Db -> Db -> Prop) (m : Tx A) : Prop :=
  forall d a d', m d = Ok (a, d') -> R d d'.

Section preserves.
Context (R : Db -> Db -> Prop) `{!PreOrder R}.

Lemma preserves_bind {A B} (m : Tx A) (f : A -> Tx B) :
  preserves R m -> (forall a, preserves R (f a)) -> preserves R (m ≫= f).
Proof. intros Hm Hf d b d2 (a & d1 & H1 & H2)%tx_bind_ok. etrans; [by eapply Hm | by eapply Hf]. Qed.

Lemma preserves_ret {A} (a : A) : preserves R (mret a).
Proof. intros d b d' Hr. by inv_tx. Qed.

Lemma preserves_gets {A} (f : Db -> A) : preserves R (tx_gets f).
Proof. intros d b d' Hr. by inv_tx. Qed.

Lemma preserves_lift {A} (r : result StoreError A) : preserves R (tx_lift r).
Proof. intros d b d' Hr. by inv_tx. Qed.

Lemma preserves_some {A} e (o : option A) : preserves R (tx_some e o).
Proof. apply preserves_lift. Qed.

Lemma preserves_reject b e : preserves R (tx_reject b e).
Proof. apply preserves_lift. Qed.

Lemma preserves_modify f : (forall d, R d (f d)) -> preserves R (tx_modify f).
Proof. intros Hf d b d' Hr. by inv_tx. Qed.

Lemma preserves_when b m : preserves R m -> preserves R (tx_when b m).
Proof. destruct b; cbn; [done|]. intros _. apply preserves_ret. Qed.

Lemma preserves_void {A} (m : Tx A) : preserves R m -> preserves R (void m).
Proof. intros Hm. apply preserves_bind; [done|]. intros _. apply preserves_ret. Qed.
End preserves.

(** Decomposes a transaction down to its statements. *)
Ltac solve_preserves db :=
  repeat first
    [ apply preserves_void; [exact _|]
    | apply preserves_bind; [exact _| |intros ?]
    | apply preserves_ret; exact _
    | apply preserves_gets; exact _
    | apply preserves_lift; exact _
    | apply preserves_some; exact _
    | apply preserves_reject; exact _
    | apply preserves_when; [exact _|]
    | progress cbv beta zeta
    | case_match
    | solve [auto with db] ].

(** ** What no request undoes *)

(** Pending, then ready, then retired; or retired straight from pending. *)
Definition state_rank (s : AllocationState) : Z :=
  match s with PendingDns => 0 | DnsReady => 1 | Retired => 2 end.

Definition row_le (a b : Installation) : Prop :=
  i_hostname b = i_hostname a /\ i_admin_public_key b = i_admin_public_key a /\
  i_created_at b = i_created_at a /\ i_generation a <= i_generation b /\
  state_rank (i_state a) <= state_rank (i_state b) /\
  (is_Some (i_acme_account_uri a) -> is_Some (i_acme_account_uri b)) /\
  (i_state a = Retired -> b = a).

#[global] Instance row_le_preorder : PreOrder row_le.
Proof.
  split; [intros a; unfold row_le; split_and!; auto; lia|].
  intros a b c (? & ? & ? & ? & ? & ? & Hab) (? & ? & ? & ? & ? & ? & Hbc).
  unfold row_le. split_and!; auto; try congruence; try lia.
  intros Ha. rewrite Hbc; [by apply Hab|]. by rewrite Hab.
Qed.

Definition inst_le (m m' : gmap Uuid Installation) : Prop :=
  forall id row, m !! id = Some row -> exists row', m' !! id = Some row' /\ row_le row row'.

#[global] Instance inst_le_preorder : PreOrder inst_le.
Proof.
  split.
  - intros m id row Hm. exists row. by split.
  - intros a b c Hab Hbc id row Ha. destruct (Hab _ _ Ha) as (row1 & Hb & ?).
    destruct (Hbc _ _ Hb) as (row2 & Hc & ?). exists row2. split; [done | by etrans].
Qed.

Record history_le (d d' : Db) : Prop := {
  hl_installations : inst_le (d_installations d) (d_installations d');
  hl_operations : d_operations d ⊆ d_operations d';
  hl_reservations : d_reservations d ⊆ d_reservations d';
  hl_audit : d_audit d `prefix_of` d_audit d';
  hl_fence : d_revision d + Z.of_nat (List.length (d_audit d')) <=
             d_revision d' + Z.of_nat (List.length (d_audit d))
}.

#[global] Instance history_le_preorder : PreOrder history_le.
Proof.
  split; [intros d; split; done || lia|].
  intros a b c [] []. split; [by etrans..|lia].
Qed.

Lemma history_le_fence d d' : history_le d d' -> d_revision d <= d_revision d'.
Proof. intros [_ _ _ Ha Hf]. apply prefix_length in Ha. lia. Qed.

(** *** Statements *)
Create HintDb hist discriminated.

(** A change to tables the history does not speak of. *)
Lemma history_le_same d d' :
  d_installations d' = d_installations d -> d_operations d' = d_operations d ->
  d_reservations d' = d_reservations d -> d_audit d' = d_audit d ->
  d_revision d <= d_revision d' -> history_le d d'.
Proof. intros Hi Ho Hr Ha Hf. split; rewrite ?Hi, ?Ho, ?Hr, ?Ha; done || lia. Qed.

Lemma hist_modify_same f :
  (forall d, d_installations (f d) = d_installations d) ->
  (forall d, d_operations (f d) = d_operations d) ->
  (forall d, d_reservations (f d) = d_reservations d) ->
  (forall d, d_audit (f d) = d_audit d) -> (forall d, d_revision (f d) = d_revision d) ->
  preserves history_le (tx_modify f).
Proof.
  intros Hi Ho Hr Ha Hf. apply preserves_modify. intros d. apply history_le_same; auto.
  by rewrite Hf.
Qed.

Lemma hist_fence : preserves history_le advance_restore_fence.
Proof.
  intros d u d' Hf. unfold advance_restore_fence in Hf. inv_ok.
  apply history_le_same; cbn; done || lia.
Qed.

Lemma hist_audit id op event now : preserves history_le (insert_audit id op event now).
Proof.
  intros d u d' Ha. inv_tx. split; cbn; try done; [by eexists|].
  rewrite length_app. cbn. lia.
Qed.

Lemma hist_outbox id kind payload now : preserves history_le (insert_outbox id kind payload now).
Proof. intros d u d' Ha. inv_tx. by apply history_le_same. Qed.

Lemma hist_credential id scope g row : preserves history_le (insert_credential id scope g row).
Proof. intros d u d' Ha. inv_tx. by apply history_le_same. Qed.

Lemma hist_operation op row : preserves history_le (insert_operation op row).
Proof. intros d u d' Ha. inv_tx. split; cbn; try done. by apply insert_subseteq. Qed.

Lemma hist_reservation h id : preserves history_le (insert_reservation h id).
Proof. intros d u d' Ha. inv_tx. split; cbn; try done. by apply insert_subseteq. Qed.

Lemma inst_le_insert m id row row' :
  m !! id = Some row -> row_le row row' -> inst_le m (<[id := row']> m).
Proof.
  intros Hm Hle k r Hk. destruct (decide (k = id)) as [->|Hne].
  - exists row'. rewrite lookup_insert_eq. split; [done|]. congruence.
  - exists r. by rewrite lookup_insert_ne.
Qed.

Lemma hist_installation id row : preserves history_le (insert_installation id row).
Proof.
  intros d u d' Ha. inv_tx. split; cbn; try done.
  intros k r Hk. exists r. rewrite lookup_insert_ne by congruence. by split.
Qed.

Lemma hist_update id cond f :
  (forall row row', cond row = true -> f row = Ok row' -> row_le row row') ->
  preserves history_le (update_installation id cond f).
Proof.
  intros Hf d o d' Hu. inv_tx; [done|]. split; cbn; try done. eapply inst_le_insert; eauto.
Qed.

Lemma row_le_set_generation row g :
  i_state row <> Retired -> i_generation row <= g -> row_le row (set_generation g row).
Proof. intros. unfold row_le; cbn. split_and!; auto; done || lia. Qed.

Lemma hist_next_generation id cond :
  (forall row, cond row = true -> i_state row <> Retired) ->
  preserves history_le (update_installation id cond next_generation).
Proof.
  intros Hc. apply hist_update. intros row row' Ht [? ->]%next_generation_ok.
  apply row_le_set_generation; [by apply Hc | lia].
Qed.

Lemma retired_row_le now row : i_state row <> Retired -> row_le row (retired_row now row).
Proof. intros Hs. unfold row_le; cbn. split_and!; auto; try lia; destruct (i_state row); cbn; done. Qed.

Lemma moved_row_le placement row : i_state row <> Retired -> row_le row (moved_row placement row).
Proof. intros Hs. unfold row_le; cbn. split_and!; auto; try lia; done. Qed.

#[export] Hint Resolve hist_fence hist_audit hist_outbox hist_credential hist_operation
  hist_reservation hist_installation : hist.
#[export] Hint Extern 5 (preserves history_le (tx_modify _)) =>
  (apply hist_modify_same; intros; reflexivity) : hist.

Lemma not_retired_true row : not_retired row = true -> i_state row <> Retired.
Proof. unfold not_retired. intros. by to_prop. Qed.

Lemma is_dns_ready_true row : is_dns_ready row = true <-> i_state row = DnsReady.
Proof. apply bool_decide_eq_true. Qed.

(** *** Methods *)
Lemma history_le_rotated now id op scope kind digest g hash lifetime aop event d :
  d_operations d !! op = None ->
  history_le d (rotated now id op scope kind digest g hash lifetime aop event d).
Proof.
  intros Hop. unfold rotated, cut_lease. case_bool_decide; split; cbn; try done;
    try (by apply insert_subseteq); try (by eexists); rewrite length_app; cbn; lia.
Qed.

Lemma history_le_row_update d id row row' :
  d_installations d !! id = Some row -> row_le row row' ->
  history_le d (set_installations <[id := row']> d).
Proof. intros Hi Hle. split; cbn; try done. by eapply inst_le_insert. Qed.

Lemma history_le_rotation now id op scope kind digest g hash lifetime aop event p row d :
  d_operations d !! op = None -> d_installations d !! id = Some row -> i_state row <> Retired ->
  history_le d (rotated now id op scope kind digest g hash lifetime aop event
    (revoke_where now p (set_installations <[id := set_generation (i_generation row + 1) row]> d))).
Proof.
  intros Hop Hi Hs. etrans; [|by apply history_le_rotated].
  etrans; [apply (history_le_row_update d id row (set_generation (i_generation row + 1) row));
    [done | apply row_le_set_generation; [done | lia]]|].
  by apply history_le_same.
Qed.

Section methods.
Context `{Crypto} `{Base32} (cfg : StoreConfig).

Lemma hist_issue now id op scope hash vs : preserves history_le (issue_bearer_tx cfg now id op scope hash vs).
Proof.
  intros d r d' (_ & _ & [(? & _ & -> & _) | (row & ? & ? & ? & _ & _ & ->)])%issue_bearer_tx_ok;
    [done|]. by apply history_le_rotation.
Qed.

Lemma hist_renew now id op scope g token hash :
  preserves history_le (renew_bearer_tx cfg now id op scope g token hash).
Proof.
  intros d r d' (_ & [(? & _ & -> & _) | (row & c & ? & ? & Hs & _ & _ & _ & _ & ->)])%renew_bearer_tx_ok;
    [done|]. apply history_le_rotation; [done..|]. by rewrite Hs.
Qed.

Lemma history_le_set_changed now id event d : history_le d (set_changed now id event d).
Proof. split; cbn; try done; [by eexists|]. rewrite length_app. cbn. lia. Qed.

Lemma history_le_ensure_state id d : history_le d (ensure_challenge_state id d).
Proof. unfold ensure_challenge_state. case_match; [done|]. by apply history_le_same. Qed.

Lemma hist_ensure now id g txt : preserves history_le (ensure_challenge_value_tx now id g txt).
Proof.
  intros d r d' (_ & _ & _ & _ & _ & [[_ ->] | (_ & _ & _ & ->)])%ensure_challenge_value_tx_ok.
  - etrans; [apply (history_le_ensure_state id) | by apply history_le_same].
  - etrans; [|apply history_le_set_changed].
    etrans; [apply (history_le_ensure_state id) | by apply history_le_same].
Qed.

Lemma hist_expire_values now id : preserves history_le (expire_challenge_values_tx now id).
Proof.
  intros d r d' [(_ & _ & ->) | (_ & _ & _ & ->)]%expire_challenge_values_tx_ok; [by apply history_le_same|].
  etrans; [|apply history_le_set_changed]. by apply history_le_same.
Qed.

Lemma hist_reconciled id rev : preserves history_le (mark_challenge_reconciled_tx id rev).
Proof.
  intros d r d' Hm. unfold mark_challenge_reconciled_tx in Hm. inv_ok; by apply history_le_same.
Qed.

Lemma hist_bootstrap now nonce source :
  preserves history_le (create_bootstrap_challenge_tx now nonce source) /\
  preserves history_le (consume_bootstrap_challenge_tx now nonce source).
Proof.
  split; intros d r d'.
  - intros [[_ ->] | (_ & _ & _ & _ & _ & ->)]%create_bootstrap_challenge_tx_ok; by apply history_le_same.
  - intros [[_ ->] | (_ & b & _ & _ & _ & _ & ->)]%consume_bootstrap_challenge_tx_ok;
      by apply history_le_same.
Qed.

Lemma hist_nonce now id nonce : preserves history_le (consume_nonce_tx now id nonce).
Proof. intros d r d' [[_ ->] | (_ & _ & _ & _ & ->)]%consume_nonce_tx_ok; by apply history_le_same. Qed.

Lemma hist_prune now limit :
  preserves history_le (prune_challenges_tx now limit) /\ preserves history_le (prune_nonces_tx now limit).
Proof. split; intros d r d' Hp; apply Ok_inj, pair_inj in Hp as [_ <-]; by apply history_le_same. Qed.

Lemma hist_allocate now op key placement new_id random :
  preserves history_le (allocate_tx now op key placement new_id random).
Proof. unfold allocate_tx. solve_preserves hist. Qed.

Lemma hist_account now id uri : preserves history_le (register_acme_account_tx cfg now id uri).
Proof.
  unfold register_acme_account_tx. solve_preserves hist. apply hist_update.
  intros row row' Hs%not_retired_true [= <-]. unfold row_le; cbn. split_and!; auto; done || lia.
Qed.

Lemma hist_ready now id : preserves history_le (mark_dns_ready_tx now id).
Proof.
  unfold mark_dns_ready_tx. solve_preserves hist. apply hist_update.
  intros row row' Hs [= <-]. unfold pending_with_account in Hs. to_prop.
  unfold row_le; cbn. split_and!; auto; try lia; destruct (i_state row); cbn; done.
Qed.

Lemma hist_claim now id gateway ttl : preserves history_le (claim_tunnel_tx now id gateway ttl).
Proof.
  unfold claim_tunnel_tx. solve_preserves hist. apply hist_next_generation.
  intros row Hs. apply andb_true_iff in Hs as [Hs _]. apply is_dns_ready_true in Hs. congruence.
Qed.

Lemma hist_renew_tunnel now id gateway g : preserves history_le (renew_tunnel_tx now id gateway g).
Proof.
  intros d r d' [(_ & -> & _) | (_ & l & _ & ->)]%renew_tunnel_tx_ok; [done|]. by apply history_le_same.
Qed.

Lemma hist_retire now id op : preserves history_le (retire_tx now id op).
Proof.
  unfold retire_tx. solve_preserves hist. apply hist_update.
  intros row row' Hs%not_retired_true [_ ->]%retire_row_ok. by apply retired_row_le.
Qed.

Lemma hist_expire_pending now id : preserves history_le (expire_pending_tx now id).
Proof.
  unfold expire_pending_tx. solve_preserves hist. apply hist_update.
  intros row row' Hs [_ ->]%retire_row_ok. unfold pending_expired in Hs. to_prop.
  apply retired_row_le. congruence.
Qed.

Lemma hist_relocate now id op placement : preserves history_le (relocate_tx now id op placement).
Proof.
  intros d r d' [(? & _ & _ & _ & _ & ->) | (Hop & row & Hi & Hs & _ & _ & ->)]%relocate_tx_ok; [done|].
  etrans; [eapply (history_le_row_update d id row (moved_row placement row)); [done|];
    apply moved_row_le; congruence|].
  split; cbn; try done; [by apply insert_subseteq | by eexists|]. rewrite length_app. cbn. lia.
Qed.

Lemma hist_jobs now n : preserves history_le (complete_tx now n) /\ preserves history_le (defer_tx now n).
Proof.
  split; [unfold complete_tx; auto with hist|].
  intros d r d' Hd. unfold defer_tx in Hd. inv_ok. by apply history_le_same.
Qed.

Lemma hist_observation source position row : preserves history_le (insert_observation source position row).
Proof. intros d r d' Hi. unfold insert_observation in Hi. inv_ok. by apply history_le_same. Qed.

Lemma hist_checkpoint now source : preserves history_le (insert_checkpoint now source).
Proof. unfold insert_checkpoint, write_checkpoint. solve_preserves hist. Qed.

Lemma hist_record_observation now source position hostname fingerprint :
  preserves history_le (record_observation now source position hostname fingerprint).
Proof.
  unfold record_observation, insert_alert, write_checkpoint. solve_preserves hist.
  apply hist_observation.
Qed.

Lemma hist_observe now source position hostname fingerprint :
  preserves history_le (observe_ct_tx now source position hostname fingerprint).
Proof.
  intros d r d' Ho. unfold observe_ct_tx in Ho. inv_tx.
  match goal with Hc : insert_checkpoint _ _ _ = _ |- _ => apply hist_checkpoint in Hc end.
  destruct (position <=? _) eqn:Hle; inv_tx; [done|].
  etrans; [eassumption|]. by eapply hist_record_observation.
Qed.

Lemma hist_certificate now id certificate :
  preserves history_le (record_expected_certificate_tx now id certificate).
Proof.
  unfold record_expected_certificate_tx. solve_preserves hist.
  apply hist_modify_same; intros d; cbv zeta; by case_match.
Qed.

Lemma exec_history_le now r d d' : exec cfg now r d = Ok (tt, d') -> history_le d d'.
Proof.
  revert d d'. cut (preserves history_le (exec cfg now r)); [intros Hp d d'; apply Hp|].
  destruct r; cbn [exec]; try (apply preserves_void; [exact _|]);
    first [ apply hist_bootstrap | apply hist_prune | apply hist_jobs | apply hist_nonce | apply hist_issue
          | apply hist_renew | apply hist_account | apply hist_ready | apply hist_ensure
          | apply hist_reconciled | apply hist_expire_values | apply hist_allocate | apply hist_claim
          | apply hist_renew_tunnel | apply hist_expire_pending | apply hist_retire
          | apply hist_relocate | apply hist_certificate | apply hist_observe | idtac ].
  - unfold ensure_ct_source_tx. solve_preserves hist.
  - unfold mark_ct_feed_healthy_tx, write_checkpoint. solve_preserves hist.
  - unfold mark_ct_alert_delivered_tx. solve_preserves hist.
  - unfold queue_ct_lag_alert_tx. solve_preserves hist.
  - unfold mark_ct_lag_alert_delivered_tx. solve_preserves hist.
Qed.

Lemma history_history_le t d t' d' : history cfg t d t' d' -> history_le d d' /\ t <= t'.
Proof.
  induction 1 as [ | | ? ? ? ? ? (r & _ & Hr) ? [IH ?]]; [split; done || lia | destruct IHhistory; split; done || lia|].
  split; [|done]. etrans; [by eapply exec_history_le | done].
Qed.
End methods.
