(* ===== verification/StoreInvariant.v ===== *)
(** * The store's well-formedness invariant

    What holds of every reachable database, and that every request keeps it:
    generations bound credentials and leases, at most one bearer per scope is
    unrevoked and it is the newest, leases belong to the placement of a ready
    installation, challenge sets are small and valid, hostnames are reserved
    by exactly their installation, jobs are well formed. The parts are
    predicates on the tables they relate, so a change to one table leaves the
    others' parts untouched. *)

From Stdlib Require Import Ascii String Strings.Byte Sorted.
From stdpp Require Import base strings list gmap sorting.
From S2P Require Import Prelude Protocol Db Witness Store StoreCredentials StoreChallenges.
From S2P Require Import StoreLifecycle StoreBootstrap StoreOutbox StoreCt StoreHistory.

(** ** The parts *)
Definition rows_ok (insts : gmap Uuid Installation) : Prop := forall id row,
  insts !! id = Some row ->
  1 <= i_generation row <= i64_max /\ is_ok (validate_hostname (i_hostname row)) = true /\
  (i_state row = DnsReady -> is_Some (i_acme_account_uri row)) /\
  (i_state row = Retired <-> is_Some (i_retired_at row)) /\
  List.length (i_admin_public_key row) = 32%nat.

Definition cred_ok (insts : gmap Uuid Installation) (creds : gmap (Uuid * string * Z) Credential) : Prop :=
  forall id scope g c, creds !! (id, scope, g) = Some c ->
  bearer_scope scope = true /\ 0 < g /\ exists row, insts !! id = Some row /\ g <= i_generation row.

(** An unrevoked credential is the newest of its scope. *)
Definition newest_ok (creds : gmap (Uuid * string * Z) Credential) : Prop :=
  forall id scope g c, creds !! (id, scope, g) = Some c -> k_revoked_at c = None ->
  forall g' c', creds !! (id, scope, g') = Some c' -> g' <= g.

Definition lease_ok (insts : gmap Uuid Installation) (leases : gmap Uuid Lease) : Prop :=
  forall id l, leases !! id = Some l ->
  exists row, insts !! id = Some row /\ i_state row = DnsReady /\
    l_gateway_id l = i_placement row /\ 0 < l_generation l <= i_generation row.

Definition values_ok (insts : gmap Uuid Installation) (states : gmap Uuid ChallengeState)
    (values : gmap (Uuid * string) Z) : Prop :=
  forall id txt e, values !! (id, txt) = Some e ->
  validate_challenge_value txt = Ok tt /\ is_Some (states !! id) /\
  exists row, insts !! id = Some row /\ i_state row = DnsReady.

Definition count_ok (values : gmap (Uuid * string) Z) : Prop :=
  forall id : Uuid, (size (filter (fun kv => kv.1.1 = id) values) <= 2)%nat.

Definition states_ok (insts : gmap Uuid Installation) (states : gmap Uuid ChallengeState) : Prop :=
  forall id s, states !! id = Some s ->
  0 <= s_revision s <= i64_max /\ (forall r, s_ready_revision s = Some r -> 0 <= r <= s_revision s) /\
  is_Some (insts !! id).

Definition hosts_ok (insts : gmap Uuid Installation) (reservations : gmap string Uuid) : Prop :=
  forall h id, reservations !! h = Some id <-> exists row, insts !! id = Some row /\ i_hostname row = h.

Definition ops_ok (insts : gmap Uuid Installation) (ops : gmap Uuid Operation) : Prop :=
  forall op o, ops !! op = Some o -> is_Some (insts !! o_installation_id o).

Definition known_kind (kind : string) : Prop :=
  kind = "publish_name" \/ kind = "remove_records" \/ kind = "reconcile_txt" \/ kind = "remove_txt_all".

Definition outbox_ok (insts : gmap Uuid Installation) (outbox : list OutboxRow) (next : Z) : Prop :=
  StronglySorted (fun x y => x_id x < x_id y) outbox /\
  Forall (fun x => x_id x < next /\ known_kind (x_kind x) /\ 0 <= x_attempts x /\
                   is_Some (insts !! x_installation_id x)) outbox.

Record WF (d : Db) : Prop := {
  wf_rows : rows_ok (d_installations d);
  wf_cred : cred_ok (d_installations d) (d_credentials d);
  wf_newest : newest_ok (d_credentials d);
  wf_lease : lease_ok (d_installations d) (d_leases d);
  wf_values : values_ok (d_installations d) (d_challenge_state d) (d_challenge_values d);
  wf_count : count_ok (d_challenge_values d);
  wf_states : states_ok (d_installations d) (d_challenge_state d);
  wf_hosts : hosts_ok (d_installations d) (d_reservations d);
  wf_ops : ops_ok (d_installations d) (d_operations d);
  wf_outbox : outbox_ok (d_installations d) (d_outbox d) (d_outbox_next d)
}.

Lemma WF_empty : WF empty_db.
Proof.
  split; cbn; try (by intros ? ? ?%lookup_empty_Some); try (by intros ? ? ? ? ?%lookup_empty_Some).
  - by intros ? ? ? ?%lookup_empty_Some.
  - intros id. rewrite map_filter_empty, map_size_empty. lia.
  - intros h id. rewrite lookup_empty. split; [done|]. by intros (row & ?%lookup_empty_Some & _).
  - split; constructor.
Qed.

(** ** Changes of an installation row *)
Section row_update.
Context (insts : gmap Uuid Installation) (id : Uuid) (row row' : Installation).
Context (Hrow : insts !! id = Some row).
Local Abbreviation insts' := (<[id := row']> insts).

Lemma lookup_update k r :
  insts !! k = Some r -> exists r', insts' !! k = Some r' /\ (k = id /\ r = row /\ r' = row' \/ k <> id /\ r' = r).
Proof using Hrow.
  intros Hk. destruct (decide (k = id)) as [->|].
  - exists row'. rewrite lookup_insert_eq. split; [done | left; split_and!; congruence].
  - exists r. rewrite lookup_insert_ne by done. auto.
Qed.

Lemma is_Some_update k : is_Some (insts !! k) -> is_Some (insts' !! k).
Proof using Hrow. intros [r Hr]. destruct (lookup_update k r Hr) as (r' & ? & _). eauto. Qed.

Lemma rows_ok_update :
  rows_ok insts -> 1 <= i_generation row' <= i64_max -> i_hostname row' = i_hostname row ->
  i_admin_public_key row' = i_admin_public_key row ->
  (i_state row' = DnsReady -> is_Some (i_acme_account_uri row')) ->
  (i_state row' = Retired <-> is_Some (i_retired_at row')) -> rows_ok insts'.
Proof using Hrow.
  intros Hok Hg Hh Hk Ha Hr k r. rewrite lookup_insert_Some. intros [[<- <-] | [_ Hl]]; [|by apply (Hok k)].
  destruct (Hok id row Hrow) as (_ & ? & _ & _ & ?). rewrite Hh, Hk. split_and!; done || lia.
Qed.

Lemma cred_ok_update creds :
  i_generation row <= i_generation row' -> cred_ok insts creds -> cred_ok insts' creds.
Proof using Hrow.
  intros Hle Hok k scope g c Hc. destruct (Hok _ _ _ _ Hc) as (? & ? & r & Hr & ?).
  split_and!; [done..|]. destruct (lookup_update k r Hr) as (r' & ? & [(-> & -> & ->)|[_ ->]]);
    eexists; split; eauto; lia.
Qed.

Lemma lease_ok_update leases :
  leases !! id = None \/
    (i_state row' = i_state row /\ i_placement row' = i_placement row /\
     i_generation row <= i_generation row') ->
  lease_ok insts leases -> lease_ok insts' leases.
Proof using Hrow.
  intros Hq Hok k l Hl. destruct (Hok _ _ Hl) as (r & Hr & Hs & Hg & ?).
  destruct (lookup_update k r Hr) as (r' & Hr' & [(-> & -> & ->)|[_ ->]]); [|eauto 10].
  destruct Hq as [Hn | (Hs' & Hp' & ?)]; [congruence|]. exists row'. split_and!; try done; try congruence; lia.
Qed.

Lemma values_ok_update states values :
  (forall txt, values !! (id, txt) = None) \/ i_state row' = i_state row ->
  values_ok insts states values -> values_ok insts' states values.
Proof using Hrow.
  intros Hq Hok k txt e Hv. destruct (Hok _ _ _ Hv) as (? & ? & r & Hr & Hs). split_and!; [done..|].
  destruct (lookup_update k r Hr) as (r' & Hr' & [(-> & -> & ->)|[_ ->]]); [|eauto].
  destruct Hq as [Hn | Hs']; [congruence|]. exists row'. split; congruence.
Qed.

Lemma states_ok_update states : states_ok insts states -> states_ok insts' states.
Proof using Hrow.
  intros Hok k s Hs. destruct (Hok _ _ Hs) as (? & ? & ?). split_and!; [lia..|done|by apply is_Some_update].
Qed.

Lemma hosts_ok_update reservations :
  i_hostname row' = i_hostname row -> hosts_ok insts reservations -> hosts_ok insts' reservations.
Proof using Hrow.
  intros Hh Hok h k. rewrite (Hok h k). split.
  - intros (r & Hr & <-). destruct (lookup_update k r Hr) as (r' & Hr' & [(-> & -> & ->)|[_ ->]]); eauto.
  - intros (r & Hr & <-). apply lookup_insert_Some in Hr as [[<- <-] | [_ ?]]; eauto.
Qed.

Lemma ops_ok_update ops : ops_ok insts ops -> ops_ok insts' ops.
Proof using Hrow. intros Hok op o Ho. apply is_Some_update. by eapply Hok. Qed.

Lemma outbox_ok_update outbox next : outbox_ok insts outbox next -> outbox_ok insts' outbox next.
Proof using Hrow.
  intros [Hs Hf]. split; [done|]. eapply Forall_impl; [done|]. cbn.
  intros x (? & ? & ? & ?). split_and!; [done..|]. by apply is_Some_update.
Qed.
End row_update.

(** A row change that keeps state, placement and hostname, and does not lower
    the generation, keeps everything. *)
Lemma WF_quiet_update d id row row' :
  d_installations d !! id = Some row ->
  i_state row' = i_state row -> i_placement row' = i_placement row ->
  i_hostname row' = i_hostname row -> i_admin_public_key row' = i_admin_public_key row ->
  i_retired_at row' = i_retired_at row ->
  (is_Some (i_acme_account_uri row) -> is_Some (i_acme_account_uri row')) ->
  i_generation row <= i_generation row' <= i64_max ->
  WF d -> WF (set_installations <[id := row']> d).
Proof.
  intros Hrow Hs Hp Hh Hk Hr Ha Hg [].
  destruct (wf_rows0 _ _ Hrow) as (? & ? & Hacc & Hret & ?).
  split; cbn; try done.
  - eapply rows_ok_update; eauto; try lia; rewrite Hs, ?Hr; auto.
  - eapply cred_ok_update; eauto. lia.
  - eapply lease_ok_update; eauto. right. split_and!; done || lia.
  - eapply values_ok_update; eauto.
  - eapply states_ok_update; eauto.
  - eapply hosts_ok_update; eauto.
  - eapply ops_ok_update; eauto.
  - eapply outbox_ok_update; eauto.
Qed.

(** ** The tables a request appends to *)
Lemma WF_add_audit id op event now d : WF d -> WF (add_audit id op event now d).
Proof. intros []. by split. Qed.

Lemma WF_add_outbox id kind payload now d :
  known_kind kind -> is_Some (d_installations d !! id) -> WF d -> WF (add_outbox id kind payload now d).
Proof.
  intros Hk Hi []. split; cbn; try done. destruct wf_outbox0 as [Hs Hf]. split.
  - apply StronglySorted_app_2; [| done | repeat constructor].
    intros x y Hx ->%list_elem_of_singleton. rewrite Forall_forall in Hf. by apply Hf in Hx as [? _].
  - apply Forall_app. split.
    + eapply Forall_impl; [done|]. cbn. intros x (? & ? & ? & ?). split_and!; done || lia.
    + apply Forall_singleton. cbn. split_and!; done || lia.
Qed.

Lemma WF_insert_operation op o d :
  is_Some (d_installations d !! o_installation_id o) -> WF d -> WF (set_operations <[op := o]> d).
Proof.
  intros Hi []. split; cbn; try done.
  intros op' o'. rewrite lookup_insert_Some. intros [[_ <-] | [_ ?]]; [done | by eapply wf_ops0].
Qed.

Lemma WF_delete_lease id d : WF d -> WF (delete_lease id d).
Proof.
  intros []. split; cbn; try done.
  intros k l [_ Hl]%lookup_delete_Some. by apply wf_lease0.
Qed.

(** ** Methods *)
Section methods.
Context `{Crypto} `{Base32} `{!Base32Law} (cfg : StoreConfig).

(** The credential table after a rotation: [p] revokes the unrevoked
    credentials of the scope, and the new generation is above all others. *)
Lemma rotation_creds insts creds now id scope g c p row :
  cred_ok insts creds -> newest_ok creds -> insts !! id = Some row -> i_generation row < g ->
  bearer_scope scope = true -> 0 < g ->
  (forall g' c', creds !! (id, scope, g') = Some c' -> k_revoked_at c' = None ->
     p (id, scope, g') c' = true) ->
  (forall id' scope' g' c', (id', scope') <> (id, scope) ->
     creds !! (id', scope', g') = Some c' -> p (id', scope', g') c' = false) ->
  let creds' := <[(id, scope, g) := c]>
    (map_imap (fun key c => Some (if p key c then revoke now c else c)) creds) in
  cred_ok (<[id := set_generation g row]> insts) creds' /\ newest_ok creds'.
Proof.
  intros Hok Hnew Hrow Hlt Hsc Hg Hp Hq creds'.
  assert (forall k c', creds' !! k = Some c' -> k <> (id, scope, g) ->
    exists c0, creds !! k = Some c0 /\ c' = if p k c0 then revoke now c0 else c0) as Hlk.
  { intros k c' Hk Hne. unfold creds' in Hk. rewrite lookup_insert_ne, map_lookup_imap in Hk by done.
    destruct (creds !! k) as [c0|]; [|done]. injection Hk as <-. eauto. }
  assert (forall g' c', creds' !! (id, scope, g') = Some c' -> g' <= g) as Hmax.
  { intros g' c' Hk. destruct (decide (g' = g)) as [->|Hne]; [lia|].
    apply Hlk in Hk as (c0 & Hc0 & _); [|congruence].
    apply Hok in Hc0 as (_ & _ & r & Hr & ?). simplify_eq. lia. }
  split.
  - intros id' scope' g' c' Hk. destruct (decide ((id', scope', g') = (id, scope, g))) as [[= -> -> ->]|Hne].
    + split_and!; [done..|]. exists (set_generation g row). rewrite lookup_insert_eq. cbn. split; [done | lia].
    + apply Hlk in Hk as (c0 & Hc0 & _); [|done].
      by apply (cred_ok_update insts id row (set_generation g row) Hrow creds ltac:(cbn; lia) Hok) in Hc0.
  - intros id' scope' g' c' Hk Hrev g2 c2 Hk2.
    destruct (decide ((id', scope') = (id, scope))) as [[= -> ->]|Hne].
    + destruct (decide (g' = g)) as [->|Hg']; [by eapply Hmax|].
      apply Hlk in Hk as (c0 & Hc0 & ->); [|congruence].
      destruct (p (id, scope, g') c0) eqn:Hpc; [done|]. by rewrite (Hp _ _ Hc0 Hrev) in Hpc.
    + apply Hlk in Hk as (c0 & Hc0 & ->); [|congruence].
      apply Hlk in Hk2 as (c3 & Hc3 & _); [|congruence].
      rewrite (Hq _ _ _ _ Hne Hc0) in Hrev. by eapply (Hnew id' scope').
Qed.

Lemma WF_rotation now id op scope kind digest hash lifetime aop event p row d :
  WF d -> d_installations d !! id = Some row -> i_generation row < i64_max ->
  bearer_scope scope = true ->
  (forall g' c', d_credentials d !! (id, scope, g') = Some c' -> k_revoked_at c' = None ->
     p (id, scope, g') c' = true) ->
  (forall id' scope' g' c', (id', scope') <> (id, scope) ->
     d_credentials d !! (id', scope', g') = Some c' -> p (id', scope', g') c' = false) ->
  WF (rotated now id op scope kind digest (i_generation row + 1) hash lifetime aop event
    (revoke_where now p (set_installations <[id := set_generation (i_generation row + 1) row]> d))).
Proof.
  intros Hwf Hrow Hlt Hsc Hp Hq. pose proof Hwf as [].
  destruct (wf_rows0 _ _ Hrow) as (? & ? & Hacc & Hret & ?).
  unfold rotated. apply WF_add_audit.
  apply WF_insert_operation.
  { unfold cut_lease. case_bool_decide; cbn; rewrite lookup_insert_eq; eauto. }
  assert (forall d, WF d -> WF (cut_lease scope id d)) as Hcut.
  { intros d0 ?. unfold cut_lease. case_bool_decide; [by apply WF_delete_lease | done]. }
  apply Hcut. clear Hcut.
  pose proof (WF_quiet_update d id row (set_generation (i_generation row + 1) row) Hrow
    eq_refl eq_refl eq_refl eq_refl eq_refl ltac:(done) ltac:(cbn; lia) Hwf) as [].
  destruct (rotation_creds (d_installations d) (d_credentials d) now id scope (i_generation row + 1)
    (bearer_row hash (now + seconds lifetime)) p row) as [Hc Hn]; try done; try lia.
Qed.

Lemma WF_issue now id op scope hash vs d r d' :
  issue_bearer_tx cfg now id op scope hash vs d = Ok (r, d') -> WF d -> WF d'.
Proof.
  intros (Hsc & _ & [(? & _ & -> & _) | (row & ? & ? & ? & ? & _ & ->)])%issue_bearer_tx_ok Hwf; [done|].
  apply WF_rotation; try done.
  - intros g' c' _ Hrev. apply andb_true_iff. split; [apply of_scope_true; eauto|].
    by rewrite (proj2 (is_revoked_false c') Hrev).
  - intros id' scope' g' c' Hne _. apply andb_false_iff. left. apply not_true_iff_false.
    intros (? & [= -> -> ->])%of_scope_true. done.
Qed.

Lemma WF_renew now id op scope g token hash d r d' :
  renew_bearer_tx cfg now id op scope g token hash d = Ok (r, d') -> WF d -> WF d'.
Proof.
  intros (Hsc & [(? & _ & -> & _) | (row & c & ? & ? & ? & ? & Hren & _ & _ & ->)])%renew_bearer_tx_ok Hwf;
    [done|].
  apply renewable_Some in Hren as (_ & Hc & Hrev & _ & Hmax).
  apply WF_rotation; try done.
  - intros g' c' Hc' Hrev'. apply bool_decide_eq_true. do 2 f_equal.
    pose proof (Hmax _ _ Hc'). pose proof (wf_newest _ Hwf _ _ _ _ Hc' Hrev' _ _ Hc). lia.
  - intros id' scope' g' c' Hne _. apply bool_decide_eq_false. intros [= -> -> ->]. done.
Qed.

Lemma values_of_insert_live (values : gmap (Uuid * string) Z) (id id' : Uuid) txt e e0 :
  values !! (id, txt) = Some e0 ->
  size (filter (fun kv => kv.1.1 = id') (<[(id, txt) := e]> values)) =
  size (filter (fun kv => kv.1.1 = id') values).
Proof.
  intros Hv. rewrite <-!size_dom. f_equal. apply set_eq. intros k.
  rewrite !elem_of_dom. unfold is_Some. setoid_rewrite map_lookup_filter_Some. cbn.
  destruct (decide (k = (id, txt))) as [->|Hne].
  - rewrite lookup_insert_eq, Hv. naive_solver.
  - rewrite lookup_insert_ne by done. naive_solver.
Qed.

(** Dropping the lapsed values leaves the live ones. *)
Lemma filter_lapsed_values (now : Z) (values : gmap (Uuid * string) Z) (id id' : Uuid) :
  filter (fun kv => kv.1.1 = id') (filter (fun kv => ~ (kv.1.1 = id /\ kv.2 <= now)) values) =
  if decide (id' = id) then filter (fun kv => now < kv.2) (filter (fun kv => kv.1.1 = id) values)
  else filter (fun kv => kv.1.1 = id') values.
Proof.
  case_decide as Hid; rewrite !map_filter_filter.
  - apply map_filter_ext. intros [i t] e _. subst. cbn. split; [intros [-> ?]; split; [lia | done]|].
    intros [? ->]. split; [done | lia].
  - apply map_filter_ext. intros [i t] e _. cbn. split; [by intros [-> _]|].
    intros ->. split; [done|]. by intros [? _].
Qed.

Lemma size_filter_le {K A} `{Countable K} (P : K * A -> Prop) `{!forall x, Decision (P x)} (m : gmap K A) :
  (size (filter P m) <= size m)%nat.
Proof. apply map_subseteq_size, map_filter_subseteq. Qed.

Lemma size_filter_insert_le (values : gmap (Uuid * string) Z) (id : Uuid) txt e (id' : Uuid) :
  (size (filter (fun kv => kv.1.1 = id') (<[(id, txt) := e]> values)) <=
   (if decide (id' = id) then 1 else 0) + size (filter (fun kv => kv.1.1 = id') values))%nat.
Proof.
  case_decide as Hid; [subst|].
  - rewrite map_filter_insert_True by done. rewrite map_size_insert. case_match; unfold Datatypes.id; lia.
  - rewrite map_filter_insert_False by (cbn; congruence).
    rewrite map_filter_delete, map_size_delete. case_match; unfold Datatypes.id; lia.
Qed.

Lemma WF_values f d :
  WF d -> values_ok (d_installations d) (d_challenge_state d) (f (d_challenge_values d)) ->
  count_ok (f (d_challenge_values d)) -> WF (set_challenge_values f d).
Proof. intros [] Hv Hc. by split. Qed.

Lemma WF_states f d :
  WF d -> states_ok (d_installations d) (f (d_challenge_state d)) ->
  (forall k, is_Some (d_challenge_state d !! k) -> is_Some (f (d_challenge_state d) !! k)) ->
  WF (set_challenge_state f d).
Proof.
  intros [] Hs Hk. split; cbn; try done. intros k txt e Hv.
  destruct (wf_values0 _ _ _ Hv) as (? & ? & ?). auto.
Qed.

Lemma WF_ensure_state id d :
  is_Some (d_installations d !! id) -> WF d -> WF (ensure_challenge_state id d).
Proof.
  intros Hi Hwf. unfold ensure_challenge_state. case_match eqn:Hs; [done|]. apply WF_states; [done|..].
  - intros k s. rewrite lookup_insert_Some. intros [[<- <-] | [_ ?]]; [|by apply (wf_states _ Hwf)].
    cbn. unfold i64_max. split_and!; done || lia.
  - intros k Hk. apply lookup_insert_is_Some'. auto.
Qed.

Lemma WF_set_changed now id event d :
  is_Some (d_installations d !! id) -> can_bump id d -> WF d -> WF (set_changed now id event d).
Proof.
  intros Hi Hb Hwf. apply WF_add_audit, WF_add_outbox; [unfold known_kind; auto | done|].
  apply WF_states; [done|..]; unfold bump_in.
  - intros k s. rewrite lookup_alter_Some. intros [(<- & s0 & Hs0 & ->) | [_ ?]]; [|by apply (wf_states _ Hwf)].
    destruct (wf_states _ Hwf _ _ Hs0) as (? & Hr & ?). specialize (Hb _ Hs0). cbn.
    split_and!; [lia..| |done]. intros r Hrr. specialize (Hr _ Hrr). lia.
  - intros k Hk. by apply lookup_alter_is_Some.
Qed.

Lemma values_ok_filter (insts : gmap Uuid Installation) (states : gmap Uuid ChallengeState)
    (values : gmap (Uuid * string) Z) (P : (Uuid * string) * Z -> Prop)
    `{!forall x, Decision (P x)} :
  values_ok insts states values -> values_ok insts states (filter P values).
Proof. intros Hv id txt e [? _]%map_lookup_filter_Some. by eapply Hv. Qed.

Lemma values_ok_insert insts states values id txt e row :
  values_ok insts states values -> validate_challenge_value txt = Ok tt -> is_Some (states !! id) ->
  insts !! id = Some row -> i_state row = DnsReady -> values_ok insts states (<[(id, txt) := e]> values).
Proof.
  intros Hv ? ? ? ? k t e'. rewrite lookup_insert_Some. intros [[[= <- <-] <-] | [_ ?]];
    [eauto 10 | by eapply Hv].
Qed.

Lemma count_ok_filter (values : gmap (Uuid * string) Z) (P : (Uuid * string) * Z -> Prop) `{!forall x, Decision (P x)} :
  count_ok values -> count_ok (filter P values).
Proof.
  intros Hc id. rewrite map_filter_comm. etrans; [apply size_filter_le | apply Hc].
Qed.

Lemma ensure_state_is_Some id d : is_Some (d_challenge_state (ensure_challenge_state id d) !! id).
Proof.
  unfold ensure_challenge_state. case_match eqn:Hs; [eauto|]. cbn. rewrite lookup_insert_eq. eauto.
Qed.

Lemma WF_ensure now id g txt d r d' :
  ensure_challenge_value_tx now id g txt d = Ok (r, d') -> WF d -> WF d'.
Proof.
  intros (Hv & (row & Hrow & Hst) & _ & _ & _ & Hcases)%ensure_challenge_value_tx_ok Hwf.
  pose proof (WF_ensure_state id d ltac:(eauto) Hwf) as Hwf1.
  pose proof (ensure_challenge_state_values id d) as [He Hi]. rewrite <-Hi in Hrow.
  pose proof (ensure_state_is_Some id d) as Hss.
  destruct Hcases as [[Hl ->] | (Hl & Hsz & Hb & ->)].
  - apply WF_values; [done|..].
    + eapply values_ok_insert; eauto. apply Hwf1.
    + intros id'. unfold is_live in Hl. rewrite <-He in Hl.
      destruct (d_challenge_values (ensure_challenge_state id d) !! (id, txt)) as [e0|] eqn:Hv0; [|done].
      rewrite (values_of_insert_live _ _ _ _ _ e0) by done. apply Hwf1.
  - apply WF_set_changed; [cbn; eauto | done |].
    apply WF_values; [apply WF_values; [done|..]|..]; cbn.
    + apply values_ok_filter, Hwf1.
    + apply count_ok_filter, Hwf1.
    + eapply values_ok_insert; eauto. apply values_ok_filter, Hwf1.
    + intros id'. etrans; [apply size_filter_insert_le|]. rewrite filter_lapsed_values, He.
      case_decide as Hid; [subst id' | pose proof (wf_count _ Hwf id'); lia].
      unfold live_values, values_of, MAX_LIVE_CHALLENGE_VALUES in Hsz. lia.
Qed.

Lemma WF_delete_lapsed now id d : WF d -> WF (delete_lapsed now id d).
Proof.
  intros Hwf. apply WF_values; [done|..].
  - apply values_ok_filter, Hwf.
  - apply count_ok_filter, Hwf.
Qed.

Lemma lapsed_has_installation now id d :
  WF d -> lapsed_count now id d <> 0%nat -> is_Some (d_installations d !! id).
Proof.
  intros Hwf Hne. unfold lapsed_count, values_of in Hne.
  apply map_size_ne_0_lookup_1 in Hne as ([k t] & e & Hk). apply map_lookup_filter_Some in Hk as [Hk _].
  apply map_lookup_filter_Some in Hk as [Hk Hid]. cbn in Hid. subst.
  destruct (wf_values _ Hwf _ _ _ Hk) as (_ & _ & row & ? & _). eauto.
Qed.

Lemma WF_expire_values now id d r d' :
  expire_challenge_values_tx now id d = Ok (r, d') -> WF d -> WF d'.
Proof.
  intros [(_ & _ & ->) | (_ & Hne & Hb & ->)]%expire_challenge_values_tx_ok Hwf;
    [by apply WF_delete_lapsed|].
  apply WF_set_changed; [|done|by apply WF_delete_lapsed].
  exact (lapsed_has_installation now id d Hwf Hne).
Qed.

Lemma WF_reconciled id rev d r d' :
  mark_challenge_reconciled_tx id rev d = Ok (r, d') -> WF d -> WF d'.
Proof.
  unfold mark_challenge_reconciled_tx. intros Hm Hwf.
  destruct (d_challenge_state d !! id) as [s|] eqn:Hs; inv_ok; try done. apply WF_states; [done|..].
  - intros k s'. rewrite lookup_insert_Some. intros [[<- <-] | [_ ?]]; [|by apply (wf_states _ Hwf)].
    destruct (wf_states _ Hwf _ _ Hs) as (? & Hr & ?). cbn. split_and!; [lia..| |done].
    intros r [= <-]. lia.
  - intros k Hk. apply lookup_insert_is_Some'. auto.
Qed.

(** A new row with a fresh id and hostname. *)
Lemma WF_allocated now op key placement id h d :
  d_installations d !! id = None -> d_reservations d !! h = None ->
  validate_hostname h = Ok tt -> List.length key = 32%nat -> WF d ->
  WF (allocated now op key placement id h d).
Proof.
  intros Hid Hres Hval Hkey []. apply WF_add_audit, WF_add_outbox;
    [unfold known_kind; auto | cbn; rewrite lookup_insert_eq; eauto|].
  apply WF_insert_operation; [cbn; rewrite lookup_insert_eq; eauto|].
  assert (forall k r, d_installations d !! k = Some r ->
    <[id := allocated_row now key placement h]> (d_installations d) !! k = Some r) as Hold.
  { intros k r Hk. rewrite lookup_insert_ne; congruence. }
  split; cbn; try done.
  - intros k r. rewrite lookup_insert_Some. intros [[<- <-] | [_ Hk]]; [|by apply (wf_rows0 k)].
    cbn. rewrite Hval. unfold i64_max. split_and!; done || lia.
  - intros k scope g c Hc. destruct (wf_cred0 _ _ _ _ Hc) as (? & ? & r & ? & ?). eauto 10.
  - intros k l Hl. destruct (wf_lease0 _ _ Hl) as (r & ? & ?). eauto.
  - intros k t e Hv. destruct (wf_values0 _ _ _ Hv) as (? & ? & r & ? & ?). eauto 10.
  - intros k st Hs. destruct (wf_states0 _ _ Hs) as (? & ? & [r ?]). split_and!; [lia..|done|eauto].
  - intros h' k. rewrite lookup_insert_Some, (wf_hosts0 h' k). split.
    + intros [[<- <-] | [_ (r & ? & ?)]]; [|eauto]. eexists. by rewrite lookup_insert_eq.
    + intros (r & Hr & <-). apply lookup_insert_Some in Hr as [[<- <-] | [Hne Hr]]; [by left|].
      right. split; [|eauto]. intros Heq.
      assert (d_reservations d !! h = Some k) as ?; [|congruence]. apply wf_hosts0. eauto.
  - intros op' o Ho. destruct (wf_ops0 _ _ Ho) as [r ?]. eauto.
  - destruct wf_outbox0 as [Hs Hf]. split; [done|]. eapply Forall_impl; [done|]. cbn.
    intros x (? & ? & ? & [r ?]). eauto 10.
Qed.

Lemma WF_account now id uri row d :
  d_installations d !! id = Some row -> WF d -> WF (account_bound now id uri row d).
Proof.
  intros Hrow Hwf. apply WF_add_audit, WF_add_outbox;
    [unfold known_kind; auto | cbn; rewrite lookup_insert_eq; eauto|].
  destruct (wf_rows _ Hwf _ _ Hrow) as (? & _).
  eapply WF_quiet_update; cbn; eauto. lia.
Qed.

Lemma no_lease d id row : WF d -> d_installations d !! id = Some row -> i_state row <> DnsReady ->
  d_leases d !! id = None.
Proof.
  intros Hwf Hrow Hs. destruct (d_leases d !! id) as [l|] eqn:Hl; [|done].
  destruct (wf_lease _ Hwf _ _ Hl) as (r & ? & ? & _). congruence.
Qed.

Lemma no_values d id row txt : WF d -> d_installations d !! id = Some row -> i_state row <> DnsReady ->
  d_challenge_values d !! (id, txt) = None.
Proof.
  intros Hwf Hrow Hs. destruct (d_challenge_values d !! (id, txt)) as [e|] eqn:Hv; [|done].
  destruct (wf_values _ Hwf _ _ _ Hv) as (_ & _ & r & ? & ?). congruence.
Qed.

(** A change of state or placement, once leases and values are out of the way. *)
Lemma WF_loud_update d id row row' :
  d_installations d !! id = Some row -> WF d -> d_leases d !! id = None ->
  (forall txt, d_challenge_values d !! (id, txt) = None) \/ i_state row' = i_state row ->
  i_hostname row' = i_hostname row -> i_admin_public_key row' = i_admin_public_key row ->
  (i_state row' = DnsReady -> is_Some (i_acme_account_uri row')) ->
  (i_state row' = Retired <-> is_Some (i_retired_at row')) ->
  i_generation row <= i_generation row' <= i64_max -> WF (set_installations <[id := row']> d).
Proof.
  intros Hrow [] Hl Hv Hh Hk Ha Hr Hg. destruct (wf_rows0 _ _ Hrow) as (? & _).
  split; cbn; try done.
  - eapply rows_ok_update; eauto. lia.
  - eapply cred_ok_update; eauto. lia.
  - eapply lease_ok_update; eauto.
  - eapply values_ok_update; eauto.
  - eapply states_ok_update; eauto.
  - eapply hosts_ok_update; eauto.
  - eapply ops_ok_update; eauto.
  - eapply outbox_ok_update; eauto.
Qed.

Lemma WF_ready now id d u d' : mark_dns_ready_tx now id d = Ok (u, d') -> WF d -> WF d'.
Proof.
  intros [-> | (row & Hrow & Hst & Hacc & ->)]%mark_dns_ready_tx_ok Hwf; [done|]. apply WF_add_audit.
  destruct (wf_rows _ Hwf _ _ Hrow) as (? & _ & _ & Hret & _).
  eapply WF_loud_update; cbn; eauto; try lia.
  - eapply no_lease; eauto. congruence.
  - left. intros txt. eapply no_values; eauto. congruence.
  - rewrite <-Hret, Hst. done.
Qed.

Lemma WF_claim now id gateway ttl d g d' : claim_tunnel_tx now id gateway ttl d = Ok (g, d') -> WF d -> WF d'.
Proof.
  intros (_ & row & Hrow & Hst & Hp & Hlt & _ & ->)%claim_tunnel_tx_ok Hwf. apply WF_add_audit.
  destruct (wf_rows _ Hwf _ _ Hrow) as (? & _).
  pose proof (WF_quiet_update d id row (set_generation (i_generation row + 1) row) Hrow
    eq_refl eq_refl eq_refl eq_refl eq_refl ltac:(done) ltac:(cbn; lia) Hwf) as [].
  split; cbn; try done. intros k l. rewrite lookup_insert_Some. intros [[<- <-] | [Hne Hl]]; [|by apply wf_lease0].
  exists (set_generation (i_generation row + 1) row). rewrite lookup_insert_eq. cbn.
  split_and!; done || lia.
Qed.

Lemma WF_renew_tunnel now id gateway g d r d' :
  renew_tunnel_tx now id gateway g d = Ok (r, d') -> WF d -> WF d'.
Proof.
  intros [(_ & -> & _) | (_ & l & Hl & ->)]%renew_tunnel_tx_ok Hwf; [done|].
  apply current_lease_Some in Hl as (Hl & _). pose proof Hwf as [].
  split; cbn; try done. intros k l'. rewrite lookup_insert_Some. intros [[<- <-] | [Hne ?]]; [|by apply wf_lease0].
  by apply (wf_lease0 _ _ Hl).
Qed.

Lemma WF_retired now id row d :
  d_installations d !! id = Some row -> i_generation row < i64_max -> WF d ->
  WF (set_installations <[id := retired_row now row]> (delete_challenge_values id (delete_lease id d))).
Proof.
  intros Hrow Hlt Hwf. destruct (wf_rows _ Hwf _ _ Hrow) as (? & _).
  eapply WF_loud_update; cbn; eauto; try lia; try done.
  - apply WF_values; [by apply WF_delete_lease|..]; cbn.
    + apply values_ok_filter, Hwf.
    + apply count_ok_filter, Hwf.
  - by rewrite lookup_delete_eq.
  - left. intros txt. apply map_lookup_filter_None. right. by intros e _ ?.
Qed.

Lemma WF_retire now id op d u d' : retire_tx now id op d = Ok (u, d') -> WF d -> WF d'.
Proof.
  intros [(? & _ & _ & _ & ->) | (_ & row & Hrow & [[Hst ->] | (Hst & Hlt & ->)])]%retire_tx_ok Hwf;
    [done | by apply WF_insert_operation; eauto |].
  apply WF_insert_operation; [cbn; rewrite lookup_insert_eq; eauto|].
  change (WF (add_audit id (Some op) "retired" now (add_outbox id "remove_txt_all" (JObj []) now
    (add_outbox id "remove_records" (JObj []) now (set_installations <[id := retired_row now row]>
      (delete_challenge_values id (delete_lease id d))))))).
  apply WF_add_audit, WF_add_outbox; [unfold known_kind; auto | cbn; rewrite lookup_insert_eq; eauto|].
  apply WF_add_outbox; [unfold known_kind; auto | cbn; rewrite lookup_insert_eq; eauto|].
  by apply WF_retired.
Qed.

Lemma WF_expire_pending now id d r d' : expire_pending_tx now id d = Ok (r, d') -> WF d -> WF d'.
Proof.
  intros [[_ ->] | (_ & row & Hrow & Hst & _ & Hlt & ->)]%expire_pending_tx_ok Hwf; [done|].
  apply WF_add_audit, WF_add_outbox; [unfold known_kind; auto | cbn; rewrite lookup_insert_eq; eauto|].
  apply WF_add_outbox; [unfold known_kind; auto | cbn; rewrite lookup_insert_eq; eauto|].
  destruct (wf_rows _ Hwf _ _ Hrow) as (? & _).
  eapply WF_loud_update; cbn; eauto; try lia; try done.
  - eapply no_lease; eauto. congruence.
  - left. intros txt. eapply no_values; eauto. congruence.
Qed.

Lemma WF_relocate now id op placement d u d' : relocate_tx now id op placement d = Ok (u, d') -> WF d -> WF d'.
Proof.
  intros [(? & _ & _ & _ & _ & ->) | (_ & row & Hrow & Hst & _ & Hlt & ->)]%relocate_tx_ok Hwf; [done|].
  apply WF_insert_operation; [cbn; rewrite lookup_insert_eq; eauto|].
  change (WF (add_audit id (Some op) "placement_moved" now (add_outbox id "publish_name"
    (JObj [("placement", JStr placement)]) now (set_installations <[id := moved_row placement row]>
      (delete_lease id d))))).
  apply WF_add_audit, WF_add_outbox; [unfold known_kind; auto | cbn; rewrite lookup_insert_eq; eauto|].
  destruct (wf_rows _ Hwf _ _ Hrow) as (? & _ & Ha & Hret & _).
  eapply WF_loud_update; cbn; eauto; try lia; try done.
  - by apply WF_delete_lease.
  - by rewrite lookup_delete_eq.
Qed.

Lemma WF_update_job n f d :
  (forall x, x_id (f x) = x_id x /\ x_kind (f x) = x_kind x /\
     x_installation_id (f x) = x_installation_id x /\ x_attempts x <= x_attempts (f x)) ->
  WF d -> WF (update_job n f d).
Proof.
  intros Hf []. split; cbn; try done. destruct wf_outbox0 as [Hs Hfa].
  assert (forall x, x_id (if x_id x =? n then f x else x) = x_id x) as Hid.
  { intros x. case_match; [apply Hf | done]. }
  split.
  - clear Hfa. induction Hs as [|x l Hs IH Hx]; cbn; constructor; [done|].
    apply Forall_fmap. eapply Forall_impl; [done|]. intros y ?. cbn. by rewrite !Hid.
  - apply Forall_fmap. eapply Forall_impl; [done|]. intros x (? & ? & ? & ?). cbn. rewrite Hid.
    destruct (Hf x) as (_ & Hk & Hi & ?). case_match; rewrite ?Hk, ?Hi; split_and!; done || lia.
Qed.

Lemma WF_jobs now n d u d' :
  complete_tx now n d = Ok (u, d') \/ defer_tx now n d = Ok (u, d') -> WF d -> WF d'.
Proof.
  intros [Hc | Hd] Hwf.
  - unfold complete_tx in Hc. inv_tx. apply WF_update_job; [|done]. intros x. cbn. split_and!; done || lia.
  - unfold defer_tx in Hd. inv_ok. apply WF_update_job; [|done]. intros x. cbn. split_and!; done || lia.
Qed.
End methods.

(** ** Requests that leave these tables alone *)
Definition core (d : Db) :=
  (d_installations d, d_reservations d, d_operations d, d_credentials d, d_leases d,
   d_challenge_values d, d_challenge_state d, d_outbox d, d_outbox_next d).

Definition core_eq (d d' : Db) : Prop := core d' = core d.
#[global] Instance core_eq_preorder : PreOrder core_eq.
Proof. split; unfold core_eq; [done | congruence]. Qed.

Lemma WF_core_eq d d' : core_eq d d' -> WF d -> WF d'.
Proof.
  unfold core_eq, core. intros Heq. injection Heq as H1 H2 H3 H4 H5 H6 H7 H8 H9.
  intros []. split; rewrite ?H1, ?H2, ?H3, ?H4, ?H5, ?H6, ?H7, ?H8, ?H9; done.
Qed.

Create HintDb frame discriminated.
Lemma frame_fence : preserves core_eq advance_restore_fence.
Proof. intros d u d' Hf. unfold advance_restore_fence in Hf. by inv_ok. Qed.
Lemma frame_audit id op event now : preserves core_eq (insert_audit id op event now).
Proof. intros d u d' Hf. by inv_tx. Qed.
Lemma frame_observation source position row : preserves core_eq (insert_observation source position row).
Proof. intros d u d' Hf. unfold insert_observation in Hf. by inv_ok. Qed.
#[export] Hint Resolve frame_fence frame_audit frame_observation : frame.
#[export] Hint Extern 5 (preserves core_eq (tx_modify _)) =>
  (apply preserves_modify; intros; reflexivity) : frame.

Lemma frame_record_observation now source position hostname fingerprint :
  preserves core_eq (record_observation now source position hostname fingerprint).
Proof. unfold record_observation, insert_alert, write_checkpoint. solve_preserves frame. Qed.

Lemma frame_checkpoint now source : preserves core_eq (insert_checkpoint now source).
Proof. unfold insert_checkpoint, write_checkpoint. solve_preserves frame. Qed.

Lemma frame_observe now source position hostname fingerprint :
  preserves core_eq (observe_ct_tx now source position hostname fingerprint).
Proof.
  intros d r d' Ho. unfold observe_ct_tx in Ho. inv_tx.
  match goal with Hc : insert_checkpoint _ _ _ = _ |- _ => apply frame_checkpoint in Hc end.
  destruct (position <=? _) eqn:Hle; inv_tx; [done|].
  etrans; [eassumption|]. by eapply frame_record_observation.
Qed.

Lemma frame_certificate now id certificate :
  preserves core_eq (record_expected_certificate_tx now id certificate).
Proof.
  unfold record_expected_certificate_tx. solve_preserves frame.
  apply preserves_modify. intros d. cbv zeta. by case_match.
Qed.

Lemma frame_ct_feed now source position n :
  preserves core_eq (ensure_ct_source_tx now source) /\
  preserves core_eq (mark_ct_feed_healthy_tx now source position) /\
  preserves core_eq (mark_ct_alert_delivered_tx now n) /\
  preserves core_eq (queue_ct_lag_alert_tx now source) /\
  preserves core_eq (mark_ct_lag_alert_delivered_tx now n).
Proof.
  unfold ensure_ct_source_tx, mark_ct_feed_healthy_tx, mark_ct_alert_delivered_tx,
    queue_ct_lag_alert_tx, mark_ct_lag_alert_delivered_tx, insert_checkpoint, write_checkpoint.
  split_and!; solve_preserves frame.
Qed.

(** ** The fence stays a positive [bigint] *)
Definition fence_le (d d' : Db) : Prop := fence_ok d -> fence_ok d'.
#[global] Instance fence_le_preorder : PreOrder fence_le.
Proof. split; unfold fence_le; auto. Qed.

(** A request that only moved the fence through its trigger. *)
Lemma fence_le_same d d' : d_revision d' = d_revision d -> fence_le d d'.
Proof. unfold fence_le, fence_ok. by intros ->. Qed.

Create HintDb fence discriminated.
Lemma fence_advance : preserves fence_le advance_restore_fence.
Proof.
  intros d u d' Hf. unfold advance_restore_fence in Hf. inv_ok. to_prop.
  unfold fence_le, fence_ok. cbn. lia.
Qed.
Lemma fence_audit id op event now : preserves fence_le (insert_audit id op event now).
Proof. intros d u d' Hf. inv_tx. unfold fence_le, fence_ok. cbn. lia. Qed.
Lemma fence_outbox id kind payload now : preserves fence_le (insert_outbox id kind payload now).
Proof. intros d u d' Hf. inv_tx. by apply fence_le_same. Qed.
Lemma fence_operation op row : preserves fence_le (insert_operation op row).
Proof. intros d u d' Hf. inv_tx. by apply fence_le_same. Qed.
Lemma fence_reservation h id : preserves fence_le (insert_reservation h id).
Proof. intros d u d' Hf. inv_tx. by apply fence_le_same. Qed.
Lemma fence_credential id scope g row : preserves fence_le (insert_credential id scope g row).
Proof. intros d u d' Hf. inv_tx. by apply fence_le_same. Qed.
Lemma fence_installation id row : preserves fence_le (insert_installation id row).
Proof. intros d u d' Hf. inv_tx. by apply fence_le_same. Qed.
Lemma fence_update id cond f : preserves fence_le (update_installation id cond f).
Proof. intros d u d' Hf. inv_tx; by apply fence_le_same. Qed.
Lemma fence_bump id : preserves fence_le (bump_revision id).
Proof. intros d u d' [_ ->]%bump_revision_ok. by apply fence_le_same. Qed.
Lemma fence_value id txt e : preserves fence_le (insert_challenge_value id txt e).
Proof. intros d u d' Hf. unfold insert_challenge_value in Hf. inv_ok. by apply fence_le_same. Qed.
Lemma fence_observation source position row : preserves fence_le (insert_observation source position row).
Proof. intros d u d' Hf. unfold insert_observation in Hf. inv_ok. by apply fence_le_same. Qed.
#[export] Hint Resolve fence_advance fence_audit fence_outbox fence_operation fence_reservation
  fence_credential fence_installation fence_update fence_bump fence_value fence_observation : fence.
#[export] Hint Extern 5 (preserves fence_le (tx_modify _)) =>
  (apply preserves_modify; intros; apply fence_le_same; reflexivity) : fence.

Lemma fence_ensure_state id : preserves fence_le (tx_modify (ensure_challenge_state id)).
Proof.
  apply preserves_modify. intros d. unfold ensure_challenge_state. case_match; by apply fence_le_same.
Qed.
Lemma fence_reconciled id revision : preserves fence_le (mark_challenge_reconciled_tx id revision).
Proof.
  intros d u d' Hm. unfold mark_challenge_reconciled_tx in Hm. inv_ok; by apply fence_le_same.
Qed.
Lemma fence_renew_tunnel now id gateway g : preserves fence_le (renew_tunnel_tx now id gateway g).
Proof.
  intros d u d' [(_ & -> & _) | (_ & l & _ & ->)]%renew_tunnel_tx_ok; by apply fence_le_same.
Qed.
Lemma fence_defer now n : preserves fence_le (defer_tx now n).
Proof. intros d u d' Hd. unfold defer_tx in Hd. inv_ok. by apply fence_le_same. Qed.
Lemma fence_record_observation now source position hostname fingerprint :
  preserves fence_le (record_observation now source position hostname fingerprint).
Proof. unfold record_observation, insert_alert, write_checkpoint. solve_preserves fence. Qed.
Lemma fence_checkpoint now source : preserves fence_le (insert_checkpoint now source).
Proof. unfold insert_checkpoint, write_checkpoint. solve_preserves fence. Qed.
Lemma fence_observe now source position hostname fingerprint :
  preserves fence_le (observe_ct_tx now source position hostname fingerprint).
Proof.
  intros d r d' Ho. unfold observe_ct_tx in Ho. inv_tx.
  match goal with Hc : insert_checkpoint _ _ _ = _ |- _ => apply fence_checkpoint in Hc end.
  destruct (position <=? _) eqn:Hle; inv_tx; [done|].
  etrans; [eassumption|]. by eapply fence_record_observation.
Qed.
Lemma fence_certificate now id certificate :
  preserves fence_le (record_expected_certificate_tx now id certificate).
Proof.
  unfold record_expected_certificate_tx. solve_preserves fence.
  apply preserves_modify. intros d. cbv zeta. case_match; by apply fence_le_same.
Qed.
#[export] Hint Resolve fence_ensure_state fence_reconciled fence_renew_tunnel fence_defer
  fence_observe fence_certificate | 0 : fence.

Section invariant.
Context `{Crypto} `{Base32} `{!Base32Law} (cfg : StoreConfig).

(** What holds of every reachable database. *)
Definition invariant (d : Db) : Prop := WF d /\ fence_ok d.

Lemma exec_WF now r d d' : typed r -> exec cfg now r d = Ok (tt, d') -> WF d -> WF d'.
Proof.
  intros Ht He Hwf. destruct r; cbn [exec] in He; try apply void_ok in He as [? He].
  - apply create_bootstrap_challenge_tx_ok in He as [[_ ->] | (_ & _ & _ & _ & _ & ->)];
      [done | by apply (WF_core_eq d); [exact eq_refl|]].
  - apply consume_bootstrap_challenge_tx_ok in He as [[_ ->] | (_ & b & _ & _ & _ & _ & ->)];
      [done | by apply (WF_core_eq d); [exact eq_refl|]].
  - apply consume_nonce_tx_ok in He as [[_ ->] | (_ & _ & _ & _ & ->)]; [done | by apply (WF_core_eq d); [exact eq_refl|]].
  - apply Ok_inj, pair_inj in He as [_ <-]. by apply (WF_core_eq d); [exact eq_refl|].
  - apply Ok_inj, pair_inj in He as [_ <-]. by apply (WF_core_eq d); [exact eq_refl|].
  - by eapply WF_issue.
  - by eapply WF_renew.
  - apply register_acme_account_tx_ok in He as (_ & row & ? & _ & ->). by apply WF_account.
  - by eapply WF_ready.
  - by eapply WF_ensure.
  - by eapply WF_reconciled.
  - by eapply WF_expire_values.
  - apply allocate_tx_ok in He as (_ & [(? & ? & _ & _ & _ & _ & -> & _) | (_ & ? & ? & _ & _ & _ & ->)]);
      [done|]. destruct Ht as [? ?]. apply WF_allocated; auto using hostname_of_random_valid.
  - by eapply WF_claim.
  - by eapply WF_renew_tunnel.
  - by eapply WF_expire_pending.
  - by eapply WF_retire.
  - by eapply WF_relocate.
  - eapply WF_jobs; eauto.
  - eapply WF_jobs; eauto.
  - eapply WF_core_eq; [|done]. by apply (frame_ct_feed now source 0 0) in He.
  - eapply WF_core_eq; [|done]. by apply (frame_ct_feed now source position 0) in He.
  - eapply WF_core_eq; [|done]. by apply (frame_ct_feed now "" 0 n) in He.
  - eapply WF_core_eq; [|done]. by apply (frame_ct_feed now source 0 0) in He.
  - eapply WF_core_eq; [|done]. by apply (frame_ct_feed now "" 0 n) in He.
  - eapply WF_core_eq; [|done]. by apply frame_certificate in He.
  - eapply WF_core_eq; [|done]. by apply frame_observe in He.
Qed.

Lemma exec_fence now r : preserves fence_le (exec cfg now r).
Proof.
  destruct r; cbn [exec].
  1: { intros d u d' [a He]%void_ok.
    apply create_bootstrap_challenge_tx_ok in He as [[_ ->] | (_ & _ & _ & _ & _ & ->)];
      by apply fence_le_same. }
  1: { intros d u d' [a He]%void_ok.
    apply consume_bootstrap_challenge_tx_ok in He as [[_ ->] | (_ & b & _ & _ & _ & _ & ->)];
      by apply fence_le_same. }
  1: { intros d u d' [a He]%void_ok.
    apply consume_nonce_tx_ok in He as [[_ ->] | (_ & _ & _ & _ & ->)]; by apply fence_le_same. }
  1: { intros d u d' [a He]%void_ok. apply Ok_inj, pair_inj in He as [_ <-]. by apply fence_le_same. }
  1: { intros d u d' [a He]%void_ok. apply Ok_inj, pair_inj in He as [_ <-]. by apply fence_le_same. }
  all: unfold issue_bearer_tx, renew_bearer_tx, finish_rotation, replay_receipt, register_acme_account_tx, mark_dns_ready_tx,
    ensure_challenge_value_tx, challenge_set_changed, expire_challenge_values_tx, allocate_tx, claim_tunnel_tx,
    expire_pending_tx, retire_tx, relocate_tx, complete_tx, ensure_ct_source_tx, mark_ct_feed_healthy_tx,
    mark_ct_alert_delivered_tx, queue_ct_lag_alert_tx, mark_ct_lag_alert_delivered_tx, insert_checkpoint,
    write_checkpoint; try (apply preserves_void; [exact _|]); auto with fence; solve_preserves fence.
Qed.

(** C5: every request that succeeds keeps the invariant: generations bound
    credentials and leases, the unrevoked bearer of a scope is its newest,
    a lease belongs to the current placement of a ready installation, at most
    two valid challenge values are stored per installation and only for ready
    ones, a hostname is reserved by exactly the installation that has it, job
    ids grow and name known kinds, and the restore fence stays positive. *)
Theorem request_keeps_invariant now r d d' :
  typed r -> exec cfg now r d = Ok (tt, d') -> invariant d -> invariant d'.
Proof.
  intros Ht He [Hwf Hf]. split; [by eapply exec_WF | by eapply exec_fence].
Qed.

Lemma history_invariant t d t' d' : history cfg t d t' d' -> invariant d -> invariant d'.
Proof.
  induction 1 as [ | | ? ? ? ? ? (r & Ht & Hr) ? IH]; [done | done|]. intros [Hwf Hf]. apply IH.
  split; [by eapply exec_WF | by eapply exec_fence].
Qed.

Lemma empty_invariant : invariant empty_db.
Proof. split; [apply WF_empty|]. unfold fence_ok, i64_max. cbn. lia. Qed.

Lemma reachable_invariant now d : reachable cfg now d -> invariant d.
Proof. intros [start Hh]. eapply history_invariant; [done | apply empty_invariant]. Qed.
End invariant.
