(* ===== verification/StoreSamples.v ===== *)
(** * A concrete run of the store

    Executable instances of the library parameters and a sample log of
    requests, from which the witnesses of the store's theorems are
    evaluated. *)

From Stdlib Require Import Ascii String Strings.Byte.
From stdpp Require Import base strings list gmap sorting.
From S2P Require Import Prelude Protocol Db Witness Store StoreCredentials StoreChallenges.
From S2P Require Import StoreLifecycle StoreBootstrap StoreOutbox StoreCt StoreHistory.
From S2P Require Import StoreInvariant.
Export Protocol.Concrete.

(** Base32 of RFC 4648 on 16 bytes: 26 groups of five bits, the last padded. *)
Definition bytes_value (l : list byte) : Z := foldl (fun acc b => acc * 256 + u8 b) 0 l.
Definition base32_digit (n : Z) : byte := byte_of_Z (if n <? 26 then 65 + n else 24 + n).
#[export] Instance base32 : Base32 := {|
  base32_encode := fun bytes => string_of_list_byte
    ((fun i => base32_digit ((bytes_value bytes * 4 / 32 ^ (25 - i)) mod 32)) <$> seqZ 0 26)
|}.

Lemma base32_digit_shape n : 0 <= n < 32 ->
  is_ascii_uppercase (base32_digit n) || in_range 50 55 (u8 (base32_digit n)) = true.
Proof.
  intros Hn. unfold base32_digit, is_ascii_uppercase. rewrite u8_byte_of_Z by (case_match; lia).
  apply orb_true_iff. case_match; to_prop; [left | right]; apply in_range_true; lia.
Qed.

#[export] Instance base32_law : Base32Law.
Proof.
  constructor. intros bytes _. split.
  - rewrite str_len_bytes. cbn [base32_encode base32]. by rewrite str_bytes_string.
  - unfold bytes_all. cbn [base32_encode base32]. rewrite str_bytes_string. apply forallb_forall.
    intros b Hb. apply list_elem_of_In, list_elem_of_fmap in Hb as (i & -> & _).
    apply base32_digit_shape, Z.mod_pos_bound. lia.
Qed.

(** ** Running a log *)
Fixpoint run_log `{Crypto} `{Base32} (cfg : StoreConfig) (now : Z) (log : list (Z * Request)) (d : Db) :
    result StoreError (Z * Db) :=
  match log with
  | [] => Ok (now, d)
  | (t, r) :: rest =>
      if t <? now then Err InvalidRequest
      else
        match exec cfg t r d with
        | Err e => Err e
        | Ok (_, d') => run_log cfg t rest d'
        end
  end.

Lemma run_log_history `{Crypto} `{Base32} cfg log now d t d' :
  Forall (fun tr => typed tr.2) log -> run_log cfg now log d = Ok (t, d') -> history cfg now d t d'.
Proof.
  intros Ht. revert now d. induction Ht as [|[s r] log Hr _ IH]; intros now d; cbn.
  { intros [= <- <-]. constructor. }
  destruct (s <? now) eqn:Hs; [done|]. to_prop. destruct (exec cfg s r d) as [[[] d1]|] eqn:He; [|done].
  intros Hl. eapply history_tick; [exact Hs|]. eapply history_step; [|by apply IH]. eexists. eauto.
Qed.

Fixpoint log_end (now : Z) (log : list (Z * Request)) : Z :=
  match log with [] => now | (t, _) :: rest => log_end t rest end.

(** The database after a log that runs to its end. *)
Definition db_after `{Crypto} `{Base32} (cfg : StoreConfig) (now : Z) (log : list (Z * Request)) (d : Db) : Db :=
  match run_log cfg now log d with Ok (_, d') => d' | Err _ => d end.

Lemma run_log_end `{Crypto} `{Base32} cfg log now d t d' :
  run_log cfg now log d = Ok (t, d') -> t = log_end now log.
Proof.
  revert now d. induction log as [|[s r] log IH]; intros now d; cbn; [by intros [= <- _]|].
  destruct (s <? now); [done|]. destruct (exec cfg s r d) as [[u d1]|]; [|done].
  apply IH.
Qed.

Lemma db_after_history `{Crypto} `{Base32} cfg now log d :
  Forall (fun tr => typed tr.2) log -> is_ok (run_log cfg now log d) = true ->
  history cfg now d (log_end now log) (db_after cfg now log d).
Proof.
  intros Ht Hok. unfold db_after. destruct (run_log cfg now log d) as [[t d']|] eqn:Hr; [|done].
  rewrite <-(run_log_end cfg log now d t d' Hr). by apply (run_log_history cfg log).
Qed.

(** ** The sample *)
Definition cfg : StoreConfig := connect_config.
Definition at_second (n : Z) : Z := seconds (1700000000 + n).
Definition inst : Uuid := 7%N.
Definition key32 : list byte := replicate 32 Byte.x61.
Definition random16 : list byte := replicate 16 Byte.x5a.
Definition account : string := "https://acme-v02.api.letsencrypt.org/acme/acct/12345".
Definition token_a : string := "aaaaaaaaaaaaaaaaaaaaaaaaaaaaaaaaaaaaaaaaaaaaa".
Definition token_b : string := "bbbbbbbbbbbbbbbbbbbbbbbbbbbbbbbbbbbbbbbbbbbbb".
Definition token_c : string := "ccccccccccccccccccccccccccccccccccccccccccccc".
Definition txt_value : string := "0123456789012345678901234567890123456789012".
Definition hash_of (token : string) : list byte := sha256 (str_bytes token).

(** An installation that became ready, with a tunnel bearer, a DNS bearer, a
    claimed tunnel and a challenge value. *)
Definition setup : list (Z * Request) := [
  (at_second 0, Allocate 100%N key32 "gw-1" inst random16);
  (at_second 1, RegisterAccount inst account);
  (at_second 2, MarkDnsReady inst);
  (at_second 3, IssueBearer inst 101%N "tunnel" (hash_of token_a) 86400);
  (at_second 4, IssueBearer inst 102%N "dns_challenge" (hash_of token_b) 86400);
  (at_second 5, ClaimTunnel inst "gw-1" 45);
  (at_second 6, EnsureChallengeValue inst 3 txt_value)].

Definition db_ready : Db := db_after cfg (at_second 0) (take 3 setup) empty_db.
Definition db_setup : Db := db_after cfg (at_second 0) setup empty_db.

Lemma setup_typed : Forall (fun tr => typed tr.2) setup.
Proof. repeat constructor; discriminate. Qed.

Lemma setup_history : history cfg (at_second 0) empty_db (at_second 6) db_setup.
Proof. apply (db_after_history cfg (at_second 0) setup); [apply setup_typed | vm_compute; reflexivity]. Qed.

Lemma db_ready_history : history cfg (at_second 0) empty_db (at_second 2) db_ready.
Proof.
  apply (db_after_history cfg (at_second 0) (take 3 setup));
    [apply Forall_take, setup_typed | vm_compute; reflexivity].
Qed.

Lemma setup_reachable : reachable cfg (at_second 6) db_setup.
Proof. exists (at_second 0). apply setup_history. Qed.

Lemma setup_invariant : invariant db_setup.
Proof. apply (reachable_invariant cfg (at_second 6)), setup_reachable. Qed.

Lemma db_ready_invariant : invariant db_ready.
Proof. apply (reachable_invariant cfg (at_second 2)). exists (at_second 0). apply db_ready_history. Qed.

(** Successful runs, by evaluation of [is_ok] alone. *)
Lemma exec_db_after `{Crypto} `{Base32} cfg t r d :
  is_ok (exec cfg t r d) = true -> exec cfg t r d = Ok (tt, db_after cfg t [(t, r)] d).
Proof.
  unfold db_after. cbn. rewrite Z.ltb_irrefl.
  by destruct (exec cfg t r d) as [[[] d']|].
Qed.

Lemma tx_ok_exists {A} (m : Tx A) d : is_ok (m d) = true -> exists a d', m d = Ok (a, d').
Proof. destruct (m d) as [[a d']|]; [eauto | done]. Qed.
