(* ===== verification/StoreEffects.v ===== *)
(** * The effects of requests, case by case

    [effect] lists what a successful request can have done to the core
    tables; [exec_effect] shows the list complete. Relations between the
    databases before and after a history are proved over its cases: how
    credentials, leases and challenge revisions evolve. *)

From Stdlib Require Import Ascii String Strings.Byte.
From stdpp Require Import base strings list gmap sorting.
From S2P Require Import Prelude Protocol Db Witness Store StoreCredentials StoreChallenges.
From S2P Require Import StoreLifecycle StoreBootstrap StoreOutbox StoreCt StoreHistory.
From S2P Require Import StoreInvariant.

(** What an outbox row asks for: its id, installation, kind and payload. *)
Definition job_of (x : OutboxRow) : Z * Uuid * string * json :=
  (x_id x, x_installation_id x, x_kind x, x_payload x).

Inductive effect (now : Z) (d : Db) : Db -> Prop :=
| eff_core d' : core_eq d d' -> effect now d d'
| eff_rotated id op scope kind digest hash lifetime aop event p row :
    d_installations d !! id = Some row -> i_state row <> Retired -> bearer_scope scope = true ->
    d_operations d !! op = None ->
    effect now d (rotated now id op scope kind digest (i_generation row + 1) hash lifetime aop event
      (revoke_where now p (set_installations <[id := set_generation (i_generation row + 1) row]> d)))
| eff_account id uri row :
    d_installations d !! id = Some row -> i_state row <> Retired ->
    effect now d (account_bound now id uri row d)
| eff_ready id row :
    d_installations d !! id = Some row -> i_state row = PendingDns ->
    effect now d (made_ready now id row d)
| eff_refreshed id txt :
    is_live now id txt d = true -> effect now d (refreshed now id txt d)
| eff_joined id txt row :
    d_installations d !! id = Some row -> i_state row = DnsReady ->
    is_live now id txt d = false -> effect now d (joined now id txt d)
| eff_lapsed id event :
    lapsed_count now id d <> 0%nat -> effect now d (set_changed now id event (delete_lapsed now id d))
| eff_nothing_lapsed id :
    lapsed_count now id d = 0%nat -> effect now d (delete_lapsed now id d)
| eff_reconciled id s :
    d_challenge_state d !! id = Some s ->
    effect now d (set_challenge_state <[id := {| s_revision := s_revision s;
                                                 s_ready_revision := Some (s_revision s) |}]> d)
| eff_allocated op key placement id h :
    d_installations d !! id = None -> d_reservations d !! h = None ->
    effect now d (allocated now op key placement id h d)
| eff_claimed id gateway ttl row :
    d_installations d !! id = Some row -> i_state row = DnsReady -> i_placement row = gateway ->
    effect now d (claimed now id gateway ttl row d)
| eff_lease_renewed id l :
    d_leases d !! id = Some l -> effect now d (lease_renewed now id l d)
| eff_operation op o :
    d_operations d !! op = None -> effect now d (set_operations <[op := o]> d)
| eff_retired id op o row :
    d_installations d !! id = Some row -> i_state row <> Retired -> d_operations d !! op = None ->
    effect now d (set_operations <[op := o]> (retirement now id op row d))
| eff_pending_expired id row :
    d_installations d !! id = Some row -> i_state row = PendingDns ->
    effect now d (pending_retirement now id row d)
| eff_moved id op o placement event payload row :
    d_installations d !! id = Some row -> i_state row = DnsReady -> d_operations d !! op = None ->
    effect now d (set_operations <[op := o]> (add_audit id (Some op) event now
      (add_outbox id "publish_name" payload now
        (delete_lease id (set_installations <[id := moved_row placement row]> d)))))
| eff_job n f :
    (forall x, job_of (f x) = job_of x) ->
    (forall x, is_Some (x_completed_at x) -> is_Some (x_completed_at (f x))) ->
    (forall x, 0 <= x_attempts x ->
       x_next_attempt_at (f x) <= Z.max (x_next_attempt_at x) (now + seconds 300)) ->
    effect now d (update_job n f d).

Section effects.
Context `{Crypto} `{Base32} (cfg : StoreConfig).

Lemma exec_effect now r d d' : exec cfg now r d = Ok (tt, d') -> effect now d d'.
Proof.
  intros He. destruct r; cbn [exec] in He; try apply void_ok in He as [? He].
  - apply create_bootstrap_challenge_tx_ok in He as [[_ ->] | (_ & _ & _ & _ & _ & ->)];
      apply eff_core; exact eq_refl.
  - apply consume_bootstrap_challenge_tx_ok in He as [[_ ->] | (_ & b & _ & _ & _ & _ & ->)];
      apply eff_core; exact eq_refl.
  - apply consume_nonce_tx_ok in He as [[_ ->] | (_ & _ & _ & _ & ->)]; apply eff_core; exact eq_refl.
  - apply Ok_inj, pair_inj in He as [_ <-]. apply eff_core. exact eq_refl.
  - apply Ok_inj, pair_inj in He as [_ <-]. apply eff_core. exact eq_refl.
  - apply issue_bearer_tx_ok in He as (Hs & _ & [(? & _ & -> & _) | (row & ? & ? & ? & _ & _ & ->)]);
      [by apply eff_core | by apply eff_rotated].
  - apply renew_bearer_tx_ok in He as (Hs & [(? & _ & -> & _) | (row & c & ? & ? & Hst & _ & _ & _ & _ & ->)]);
      [by apply eff_core | apply eff_rotated; try done; by rewrite Hst].
  - apply register_acme_account_tx_ok in He as (_ & row & ? & ? & ->). by apply eff_account.
  - apply mark_dns_ready_tx_ok in He as [-> | (row & ? & ? & _ & ->)]; [by apply eff_core | by apply eff_ready].
  - apply ensure_challenge_value_tx_ok in He as (_ & (row & ? & ?) & _ & _ & _ & [[? ->] | (? & _ & _ & ->)]);
      [by apply eff_refreshed | by eapply eff_joined].
  - unfold mark_challenge_reconciled_tx in He. destruct (d_challenge_state d !! _) as [s|] eqn:Hs;
      inv_ok; [by apply eff_reconciled | by apply eff_core..].
  - apply expire_challenge_values_tx_ok in He as [(_ & ? & ->) | (_ & ? & _ & ->)];
      [by apply eff_nothing_lapsed | by apply eff_lapsed].
  - apply allocate_tx_ok in He as (_ & [(? & ? & _ & _ & _ & _ & -> & _) | (_ & ? & ? & _ & _ & _ & ->)]);
      [by apply eff_core | by apply eff_allocated].
  - apply claim_tunnel_tx_ok in He as (_ & row & ? & ? & ? & _ & _ & ->). by apply eff_claimed.
  - apply renew_tunnel_tx_ok in He as [(_ & -> & _) | (_ & l & Hl & ->)]; [by apply eff_core|].
    apply current_lease_Some in Hl as [? _]. by apply eff_lease_renewed.
  - apply expire_pending_tx_ok in He as [[_ ->] | (_ & row & ? & ? & _ & _ & ->)];
      [by apply eff_core | by apply eff_pending_expired].
  - apply retire_tx_ok in He as [(? & _ & _ & _ & ->) | (? & row & ? & [[_ ->] | (? & _ & ->)])];
      [by apply eff_core | by apply eff_operation | by apply eff_retired].
  - apply relocate_tx_ok in He as [(? & _ & _ & _ & _ & ->) | (? & row & ? & ? & _ & _ & ->)];
      [by apply eff_core | by apply eff_moved].
  - unfold complete_tx in He. inv_tx. apply eff_job; [done | eauto | intros x _; cbn; lia].
  - unfold defer_tx in He. inv_ok. apply eff_job; [done..|].
    intros x Hx%backoff_range. cbn. unfold seconds. lia.
  - apply eff_core. by apply (frame_ct_feed now source 0 0) in He.
  - apply eff_core. by apply (frame_ct_feed now source position 0) in He.
  - apply eff_core. by apply (frame_ct_feed now "" 0 n) in He.
  - apply eff_core. by apply (frame_ct_feed now source 0 0) in He.
  - apply eff_core. by apply (frame_ct_feed now "" 0 n) in He.
  - apply eff_core. by apply frame_certificate in He.
  - apply eff_core. by apply frame_observe in He.
Qed.
End effects.

Lemma core_eq_fields d d' : core_eq d d' ->
  d_installations d' = d_installations d /\ d_credentials d' = d_credentials d /\
  d_leases d' = d_leases d /\ d_challenge_values d' = d_challenge_values d /\
  d_challenge_state d' = d_challenge_state d /\ d_reservations d' = d_reservations d /\
  d_operations d' = d_operations d /\ d_outbox d' = d_outbox d.
Proof. unfold core_eq, core. by intros [= -> -> -> -> -> -> -> -> _]. Qed.

(** ** What advances the restore fence *)
(** The installations, the bearers, the hostnames taken and the challenge
    values. *)
Definition held (d : Db) :
    gmap Uuid Installation * gmap (Uuid * string * Z) Credential * gmap string Uuid * gset (Uuid * string) :=
  (d_installations d, d_credentials d, d_reservations d, dom (d_challenge_values d)).

Lemma held_none_lapsed now id d : lapsed_count now id d = 0%nat -> held (delete_lapsed now id d) = held d.
Proof.
  unfold lapsed_count, values_of, held. intros Hn%map_size_empty_inv. cbn. do 2 f_equal. apply map_filter_id.
  intros k x Hk [Hid Hx]. apply (f_equal (fun m => m !! k)) in Hn. rewrite lookup_empty in Hn.
  rewrite (proj2 (map_lookup_filter_Some _ _ _ x)) in Hn; [done|]. split; [|done].
  by apply map_lookup_filter_Some.
Qed.

Lemma held_ensure id d : held (ensure_challenge_state id d) = held d.
Proof. unfold ensure_challenge_state. by case_match. Qed.

Lemma held_refreshed now id txt d : is_live now id txt d = true -> held (refreshed now id txt d) = held d.
Proof.
  unfold is_live, refreshed. intros Hl. rewrite <- (held_ensure id d). unfold held. cbn. f_equal.
  apply dom_insert_lookup_L. rewrite (proj1 (ensure_challenge_state_values id d)). by destruct (d_challenge_values d !! _).
Qed.

(** A request that changes one of them advances the restore fence. *)
Lemma effect_advances now d d' : effect now d d' -> held d' <> held d -> d_revision d < d_revision d'.
Proof.
  intros He Hh. destruct He; try (cbn; lia).
  - destruct Hh. apply core_eq_fields in H as (Hi & Hc & _ & Hv & _ & Hr & _). unfold held. by rewrite Hi, Hc, Hv, Hr.
  - unfold rotated, cut_lease. case_bool_decide; cbn; lia.
  - by rewrite held_refreshed in Hh.
  - unfold joined, ensure_challenge_state. case_match; cbn; lia.
  - by rewrite held_none_lapsed in Hh.
  - done.
  - done.
  - done.
  - done.
Qed.

(** ** Credentials are never deleted *)
Lemma effect_credentials now d d' key :
  effect now d d' -> is_Some (d_credentials d !! key) -> is_Some (d_credentials d' !! key).
Proof.
  intros He Hk. destruct He; try done.
  - apply core_eq_fields in H as (_ & -> & _). done.
  - assert (forall (q : Uuid * string * Z -> Credential -> bool) (m : gmap _ Credential), is_Some (m !! key) ->
      is_Some (map_imap (fun k c => Some (if q k c then revoke now c else c)) m !! key)) as Him.
    { intros q m [c Hc]. rewrite map_lookup_imap, Hc. eauto. }
    unfold rotated, cut_lease. case_bool_decide; cbn; apply lookup_insert_is_Some'; right; by apply Him.
  - unfold refreshed, ensure_challenge_state. cbn. by case_match.
  - unfold joined, ensure_challenge_state. cbn. by case_match.
Qed.

(** ** A lease's generation is fresh when it is made and never comes back *)

(** Generation [g] of [id] was handed out and is not that of a current lease. *)
Definition fenced (id : Uuid) (g : Z) (d : Db) : Prop :=
  (exists row, d_installations d !! id = Some row /\ g <= i_generation row) /\
  forall l, d_leases d !! id = Some l -> l_generation l <> g.

Lemma row_grows d d' id row :
  history_le d d' -> d_installations d !! id = Some row ->
  exists row', d_installations d' !! id = Some row' /\ row_le row row'.
Proof. intros [Hi _ _ _ _]. apply Hi. Qed.

(** The lease of [id] after a request: gone, the same generation, or newer
    than every generation handed out before. *)
Lemma effect_lease now d d' id l' :
  effect now d d' -> d_leases d' !! id = Some l' ->
  (exists l, d_leases d !! id = Some l /\ l_generation l' = l_generation l) \/
  (exists row, d_installations d !! id = Some row /\ l_generation l' = i_generation row + 1).
Proof.
  intros He Hl. destruct He; cbn in Hl; eauto.
  - apply core_eq_fields in H as (_ & _ & Hle & _). rewrite Hle in Hl. eauto.
  - unfold rotated, cut_lease in Hl. case_bool_decide; cbn in Hl; [|eauto].
    apply lookup_delete_Some in Hl as [_ ?]. eauto.
  - unfold ensure_challenge_state in Hl. destruct (d_challenge_state d !! id0); eauto.
  - unfold ensure_challenge_state in Hl. destruct (d_challenge_state d !! id0); eauto.
  - apply lookup_insert_Some in Hl as [[<- <-] | [_ ?]]; eauto.
  - apply lookup_insert_Some in Hl as [[<- <-] | [_ ?]]; eauto.
  - apply lookup_delete_Some in Hl as [_ ?]. eauto.
  - apply lookup_delete_Some in Hl as [_ ?]. eauto.
Qed.

Lemma effect_fenced now d d' id g :
  effect now d d' -> history_le d d' -> fenced id g d -> fenced id g d'.
Proof.
  intros He Hh [(row & Hrow & Hg) Hl]. split.
  - destruct (row_grows _ _ _ _ Hh Hrow) as (row' & ? & (_ & _ & _ & ? & _)). exists row'. split; [done|lia].
  - intros l' Hl'. destruct (effect_lease _ _ _ _ _ He Hl') as [(l & ? & ->) | (r & ? & ->)]; [by apply Hl|].
    simplify_eq. lia.
Qed.

(** ** A challenge set changes only with its revision *)
Definition rev_of (id : Uuid) (d : Db) : Z := default 0 (s_revision <$> d_challenge_state d !! id).
Definition members (id : Uuid) (d : Db) : gset (Uuid * string) := dom (values_of id d).

Definition retired_in (id : Uuid) (d : Db) : Prop :=
  exists row, d_installations d !! id = Some row /\ i_state row = Retired.

Definition set_evolves (id : Uuid) (d d' : Db) : Prop :=
  rev_of id d <= rev_of id d' /\
  (rev_of id d' = rev_of id d -> members id d' = members id d \/ retired_in id d').

Lemma set_evolves_same id d d' :
  d_challenge_state d' = d_challenge_state d -> d_challenge_values d' = d_challenge_values d ->
  set_evolves id d d'.
Proof.
  unfold set_evolves, rev_of, members, values_of. intros -> ->. split; [lia | auto].
Qed.

Lemma elem_of_members id d k :
  k ∈ members id d <-> k.1 = id /\ is_Some (d_challenge_values d !! k).
Proof.
  unfold members, values_of. rewrite elem_of_dom. unfold is_Some.
  setoid_rewrite map_lookup_filter_Some. cbn. naive_solver.
Qed.

Lemma members_eq id d d' :
  (forall txt, is_Some (d_challenge_values d' !! (id, txt)) <-> is_Some (d_challenge_values d !! (id, txt))) ->
  members id d' = members id d.
Proof.
  intros Hk. apply set_eq. intros [k txt]. rewrite !elem_of_members. cbn.
  split; (intros [-> ?]; split; [done | by apply Hk]).
Qed.

Lemma lookup_delete_lapsed now id0 d k :
  d_challenge_values (delete_lapsed now id0 d) !! k =
  e ← d_challenge_values d !! k; if decide (k.1 = id0 /\ e <= now) then None else Some e.
Proof.
  cbn. destruct (d_challenge_values d !! k) as [e|] eqn:Hk; cbn.
  - case_decide as Hc.
    + apply map_lookup_filter_None. right. intros e' Hk' Hn. simplify_eq. by apply Hn.
    + apply map_lookup_filter_Some. by rewrite Hk.
  - apply map_lookup_filter_None. by left.
Qed.

Lemma rev_of_ensure id id0 d : rev_of id (ensure_challenge_state id0 d) = rev_of id d.
Proof.
  unfold rev_of, ensure_challenge_state. case_match eqn:Hs; [done|]. cbn.
  destruct (decide (id = id0)) as [->|].
  - by rewrite lookup_insert_eq, Hs.
  - by rewrite lookup_insert_ne.
Qed.

Lemma rev_of_set_changed now id id0 event d :
  rev_of id (set_changed now id0 event d) =
  rev_of id d + (if decide (id = id0 /\ is_Some (d_challenge_state d !! id)) then 1 else 0).
Proof.
  unfold rev_of. cbn. unfold bump_in. destruct (decide (id = id0)) as [->|Hne].
  - rewrite lookup_alter_eq. destruct (d_challenge_state d !! id0); cbn.
    + rewrite decide_True; [lia | eauto].
    + rewrite decide_False; [lia | by intros [_ [? ?]]].
  - rewrite lookup_alter_ne, decide_False by naive_solver. lia.
Qed.

Lemma rev_of_joined now id id0 txt d :
  rev_of id (joined now id0 txt d) = rev_of id d + (if decide (id = id0) then 1 else 0).
Proof.
  unfold joined. rewrite rev_of_set_changed.
  change (rev_of id (set_challenge_values _ (delete_lapsed now id0 (ensure_challenge_state id0 d))))
    with (rev_of id (ensure_challenge_state id0 d)). rewrite rev_of_ensure. f_equal. cbn.
  destruct (decide (id = id0)) as [->|Hne].
  - by rewrite decide_True by (split; [done | apply ensure_state_is_Some]).
  - by rewrite decide_False by naive_solver.
Qed.

(** Nothing lapsed: [delete_lapsed] is the identity on the set. *)
Lemma lapsed_count_0 now id d txt e :
  lapsed_count now id d = 0%nat -> d_challenge_values d !! (id, txt) = Some e -> now < e.
Proof.
  intros Hc Hv. destruct (Z.lt_ge_cases now e); [done|]. exfalso.
  unfold lapsed_count, values_of in Hc. apply map_size_empty_inv in Hc.
  assert (filter (fun kv => kv.2 <= now) (filter (fun kv => kv.1.1 = id) (d_challenge_values d))
    !! (id, txt) = Some e) as Hl; [|by rewrite Hc in Hl].
  by rewrite !map_lookup_filter_Some.
Qed.

Lemma members_other_joined now id id0 txt d : id <> id0 -> members id (joined now id0 txt d) = members id d.
Proof.
  intros Hne. apply members_eq. intros t. cbn. rewrite lookup_insert_ne by congruence.
  fold (delete_lapsed now id0 (ensure_challenge_state id0 d)).
  change (filter _ (d_challenge_values (ensure_challenge_state id0 d)))
    with (d_challenge_values (delete_lapsed now id0 (ensure_challenge_state id0 d))).
  rewrite lookup_delete_lapsed, (proj1 (ensure_challenge_state_values id0 d)).
  destruct (d_challenge_values d !! (id, t)); cbn; [|done]. rewrite decide_False; [done|]. by intros [? _].
Qed.

Lemma members_delete_lapsed now id id0 d :
  id <> id0 \/ lapsed_count now id0 d = 0%nat -> members id (delete_lapsed now id0 d) = members id d.
Proof.
  intros Hc. apply members_eq. intros t. rewrite lookup_delete_lapsed.
  destruct (d_challenge_values d !! (id, t)) as [e|] eqn:Hv; cbn; [|done].
  rewrite decide_False; [done|]. intros [-> Hle]. destruct Hc as [?|Hc]; [done|].
  apply (lapsed_count_0 _ _ _ _ _ Hc) in Hv. lia.
Qed.

Lemma effect_set_evolves now d d' id : WF d -> effect now d d' -> set_evolves id d d'.
Proof.
  intros Hwf He. destruct He; try (by apply set_evolves_same).
  - apply core_eq_fields in H as (_ & _ & _ & ? & ? & _). by apply set_evolves_same.
  - unfold rotated, cut_lease. case_bool_decide; by apply set_evolves_same.
  - split; [unfold refreshed; rewrite <-(rev_of_ensure id id0 d); done|]. intros _. left. apply members_eq.
    intros t. cbn. rewrite (proj1 (ensure_challenge_state_values id0 d)).
    destruct (decide ((id, t) = (id0, txt))) as [[= -> ->]|].
    + rewrite lookup_insert_eq. unfold is_live in H.
      destruct (d_challenge_values d !! (id0, txt)); [|done]. split; eauto.
    + by rewrite lookup_insert_ne.
  - unfold set_evolves. rewrite rev_of_joined. destruct (decide (id = id0)) as [->|Hne]; [split; lia|].
    split; [lia|]. left. by apply members_other_joined.
  - unfold set_evolves. rewrite rev_of_set_changed.
    change (rev_of id (delete_lapsed now id0 d)) with (rev_of id d).
    destruct (decide (id = id0)) as [->|Hne].
    + rewrite decide_True; [split; lia|]. split; [done|]. cbn.
      unfold lapsed_count, values_of in H. apply map_size_ne_0_lookup_1 in H as ([k t] & e & Hk).
      apply map_lookup_filter_Some in Hk as [Hk _]. apply map_lookup_filter_Some in Hk as [Hk Hid].
      cbn in Hid. subst. by destruct (wf_values _ Hwf _ _ _ Hk) as (_ & ? & _).
    + rewrite decide_False by naive_solver. split; [lia|]. left.
      change (members id (delete_lapsed now id0 d) = members id d). apply members_delete_lapsed. by left.
  - split; [done|]. left. apply members_delete_lapsed. destruct (decide (id = id0)) as [->|]; auto.
  - unfold set_evolves, rev_of. cbn. destruct (decide (id = id0)) as [->|].
    + rewrite lookup_insert_eq, H. cbn. split; [lia | by left].
    + rewrite lookup_insert_ne by done. split; [lia | by left].
  - split; [done|]. intros _. destruct (decide (id = id0)) as [->|Hne].
    + right. eexists. cbn. by rewrite lookup_insert_eq.
    + left. apply members_eq. intros t. cbn. unfold is_Some. setoid_rewrite map_lookup_filter_Some.
      cbn. naive_solver.
Qed.
