(* ===== verification/StoreCtFeed.v ===== *)
(** * What the CT tables record over histories

    The feed of each source is recorded without gaps, every unexpected
    certificate has one alert, and observing a position again changes
    nothing. *)

From Stdlib Require Import Ascii String Strings.Byte.
From stdpp Require Import base strings list gmap.
From S2P Require Import Prelude Protocol Db Witness Store StoreCredentials StoreChallenges.
From S2P Require Import StoreLifecycle StoreBootstrap StoreOutbox StoreCt StoreHistory.

(** ** Requests that leave the CT tables alone *)
Definition ct_eq (d d' : Db) : Prop := d_ct d' = d_ct d.
#[global] Instance ct_eq_preorder : PreOrder ct_eq.
Proof. split; unfold ct_eq; [done | congruence]. Qed.

Create HintDb ctframe discriminated.
Lemma ctf_advance : preserves ct_eq advance_restore_fence.
Proof. intros d u d' Hf. unfold advance_restore_fence in Hf. by inv_ok. Qed.
Lemma ctf_audit id op event now : preserves ct_eq (insert_audit id op event now).
Proof. intros d u d' Hf. by inv_tx. Qed.
Lemma ctf_outbox id kind payload now : preserves ct_eq (insert_outbox id kind payload now).
Proof. intros d u d' Hf. by inv_tx. Qed.
Lemma ctf_operation op row : preserves ct_eq (insert_operation op row).
Proof. intros d u d' Hf. by inv_tx. Qed.
Lemma ctf_reservation h id : preserves ct_eq (insert_reservation h id).
Proof. intros d u d' Hf. by inv_tx. Qed.
Lemma ctf_credential id scope g row : preserves ct_eq (insert_credential id scope g row).
Proof. intros d u d' Hf. by inv_tx. Qed.
Lemma ctf_installation id row : preserves ct_eq (insert_installation id row).
Proof. intros d u d' Hf. by inv_tx. Qed.
Lemma ctf_update id cond f : preserves ct_eq (update_installation id cond f).
Proof. intros d u d' Hf. by inv_tx. Qed.
Lemma ctf_bump id : preserves ct_eq (bump_revision id).
Proof. by intros d u d' [_ ->]%bump_revision_ok. Qed.
Lemma ctf_value id txt e : preserves ct_eq (insert_challenge_value id txt e).
Proof. intros d u d' Hf. unfold insert_challenge_value in Hf. by inv_ok. Qed.
Lemma ctf_ensure_state id : preserves ct_eq (tx_modify (ensure_challenge_state id)).
Proof. apply preserves_modify. intros d. unfold ensure_challenge_state. by case_match. Qed.
Lemma ctf_reconciled id revision : preserves ct_eq (mark_challenge_reconciled_tx id revision).
Proof. intros d u d' Hm. unfold mark_challenge_reconciled_tx in Hm. by inv_ok. Qed.
Lemma ctf_renew_tunnel now id gateway g : preserves ct_eq (renew_tunnel_tx now id gateway g).
Proof. by intros d u d' [(_ & -> & _) | (_ & l & _ & ->)]%renew_tunnel_tx_ok. Qed.
Lemma ctf_defer now n : preserves ct_eq (defer_tx now n).
Proof. intros d u d' Hd. unfold defer_tx in Hd. by inv_ok. Qed.
Lemma ctf_create now nonce source : preserves ct_eq (create_bootstrap_challenge_tx now nonce source).
Proof.
  by intros d u d' [[_ ->] | (_ & _ & _ & _ & _ & ->)]%create_bootstrap_challenge_tx_ok.
Qed.
Lemma ctf_consume now nonce source : preserves ct_eq (consume_bootstrap_challenge_tx now nonce source).
Proof.
  by intros d u d' [[_ ->] | (_ & b & _ & _ & _ & _ & ->)]%consume_bootstrap_challenge_tx_ok.
Qed.
Lemma ctf_nonce now id nonce : preserves ct_eq (consume_nonce_tx now id nonce).
Proof. by intros d u d' [[_ ->] | (_ & _ & _ & _ & ->)]%consume_nonce_tx_ok. Qed.
Lemma ctf_prune now limit :
  preserves ct_eq (prune_challenges_tx now limit) /\ preserves ct_eq (prune_nonces_tx now limit).
Proof. split; intros d u d' Hp; apply Ok_inj, pair_inj in Hp as [_ <-]; exact eq_refl. Qed.
#[export] Hint Resolve ctf_advance ctf_audit ctf_outbox ctf_operation ctf_reservation ctf_credential
  ctf_installation ctf_update ctf_bump ctf_value ctf_ensure_state ctf_reconciled ctf_renew_tunnel ctf_defer
  ctf_create ctf_consume ctf_nonce : ctframe.
#[export] Hint Extern 5 (preserves ct_eq (tx_modify _)) =>
  (apply preserves_modify; intros; exact eq_refl) : ctframe.

Lemma ctf_certificate now id certificate :
  preserves ct_eq (record_expected_certificate_tx now id certificate).
Proof.
  unfold record_expected_certificate_tx. solve_preserves ctframe.
  apply preserves_modify. intros d. cbv zeta. by case_match.
Qed.

(** ** The feed invariant *)
Definition alert_of (a : CtAlertRow) : string * Z * option Uuid * string * string :=
  (al_source a, al_position a, al_installation_id a, al_hostname a, al_fingerprint a).
Definition unexpected (owner : option Uuid) (hostname fingerprint : string) : CtObservation :=
  {| ob_installation_id := owner; ob_hostname := hostname; ob_fingerprint := fingerprint;
     ob_expected := false |}.
Definition alert_key (a : CtAlertRow) : string * Z := (al_source a, al_position a).

Record ct_ok (c : CtTables) : Prop := {
  co_checkpoint : forall s p t, ct_checkpoints c !! s = Some (p, t) -> 0 <= p <= i64_max;
  co_observed : forall s q, is_Some (ct_observations c !! (s, q)) <->
    exists p t, ct_checkpoints c !! s = Some (p, t) /\ 1 <= q <= p;
  co_alerts : forall s q owner h f, (s, q, owner, h, f) ∈ alert_of <$> ct_alerts c <->
    ct_observations c !! (s, q) = Some (unexpected owner h f);
  co_once : NoDup (alert_key <$> ct_alerts c)
}.

Definition feed_at (c : CtTables) (s : string) (p : Z) : Prop :=
  ct_checkpoints c !! s = None /\ p = 0 \/ exists t, ct_checkpoints c !! s = Some (p, t).

Definition new_alert (c : CtTables) (s : string) (q : Z) (row : CtObservation) : CtAlertRow :=
  {| al_id := Z.of_nat (List.length (ct_alerts c)) + 1; al_source := s; al_position := q;
     al_installation_id := ob_installation_id row; al_hostname := ob_hostname row;
     al_fingerprint := ob_fingerprint row; al_delivered_at := None |}.
Definition observed (s : string) (q : Z) (row : CtObservation) (c : CtTables) : CtTables :=
  with_observations (<[(s, q) := row]> (ct_observations c))
    (if ob_expected row then c else with_alerts (ct_alerts c ++ [new_alert c s q row]) c).

Inductive ct_effect (c c' : CtTables) : Prop :=
| ct_same : c' = c -> ct_effect c c'
| ct_touch s p t :
    feed_at c s p -> c' = with_checkpoints (<[s := (p, t)]> (ct_checkpoints c)) c -> ct_effect c c'
| ct_observe s p t row :
    feed_at c s p -> p < i64_max -> ct_observations c !! (s, p + 1) = None ->
    c' = with_checkpoints (<[s := (p + 1, t)]> (ct_checkpoints c)) (observed s (p + 1) row c) ->
    ct_effect c c'
| ct_deliver f :
    (forall a, alert_of (f a) = alert_of a) -> c' = with_alerts (f <$> ct_alerts c) c -> ct_effect c c'
| ct_health l : c' = with_health_alerts l c -> ct_effect c c'.

Lemma feed_at_range c s p : ct_ok c -> feed_at c s p -> 0 <= p <= i64_max.
Proof.
  intros Hok [[_ ->] | [t Ht]]; [unfold i64_max; lia | by eapply co_checkpoint].
Qed.

(** The positions of a source are those up to its checkpoint. *)
Lemma feed_at_observed c s p q : ct_ok c -> feed_at c s p ->
  is_Some (ct_observations c !! (s, q)) <-> 1 <= q <= p.
Proof.
  intros Hok Hf. rewrite co_observed by done. destruct Hf as [[-> ->] | [t ->]].
  - split; [by intros (? & ? & ? & _) | lia].
  - split; [intros (? & ? & [= <- <-] & ?); done | eauto].
Qed.

Lemma ct_ok_touch c s p t : ct_ok c -> feed_at c s p ->
  ct_ok (with_checkpoints (<[s := (p, t)]> (ct_checkpoints c)) c).
Proof.
  intros Hok Hf. pose proof (feed_at_range _ _ _ Hok Hf) as Hp.
  pose proof (fun q => feed_at_observed c s p q Hok Hf) as Hobs. destruct Hok as [Hc Ho Ha Hd].
  split; cbn; [| |done..].
  - intros s' p' t'. rewrite lookup_insert_Some. intros [[<- [= <- <-]] | [_ ?]]; [done | by eapply Hc].
  - intros s' q. destruct (decide (s = s')) as [<-|Hne].
    + rewrite Hobs, lookup_insert_eq. split; [eauto | by intros (? & ? & [= <- <-] & ?)].
    + rewrite lookup_insert_ne by done. apply Ho.
Qed.

Lemma alert_key_of a : alert_key a = ((alert_of a).1.1.1.1, (alert_of a).1.1.1.2).
Proof. done. Qed.

Lemma ct_ok_observed c s p t row : ct_ok c -> feed_at c s p -> p < i64_max ->
  ct_observations c !! (s, p + 1) = None ->
  ct_ok (with_checkpoints (<[s := (p + 1, t)]> (ct_checkpoints c)) (observed s (p + 1) row c)).
Proof.
  intros Hok Hf Hlt Hnone. pose proof (feed_at_range _ _ _ Hok Hf) as Hp.
  pose proof (fun q => feed_at_observed c s p q Hok Hf) as Hobs. destruct Hok as [Hc Ho Ha Hd].
  assert ((s, p + 1) ∉ alert_key <$> ct_alerts c) as Hfresh.
  { intros (a & Hk & Hin)%list_elem_of_fmap.
    assert (alert_of a ∈ alert_of <$> ct_alerts c) as Hin' by by apply list_elem_of_fmap_2.
    unfold alert_of in Hin' at 1. apply Ha in Hin'. unfold alert_key in Hk. rewrite <-Hk in Hin'. congruence. }
  unfold observed. split.
  - intros s' p' t'. cbn. rewrite lookup_insert_Some. intros [[<- [= <- <-]] | [_ ?]]; [lia | by eapply Hc].
  - intros s' q. cbn. destruct (decide (s = s')) as [<-|Hne].
    + rewrite lookup_insert_eq. destruct (decide (q = p + 1)) as [->|Hq].
      * rewrite lookup_insert_eq. split; [|eauto]. intros _. exists (p + 1), t. split; [done | lia].
      * rewrite lookup_insert_ne by congruence. rewrite Hobs. split.
        { intros ?. exists (p + 1), t. split; [done | lia]. }
        { intros (? & ? & [= <- <-] & ?). lia. }
    + rewrite !lookup_insert_ne by congruence. apply Ho.
  - intros s' q owner h f. cbn. destruct (decide ((s', q) = (s, p + 1))) as [[= -> ->]|Hne].
    + rewrite lookup_insert_eq. destruct row as [o' h' f' []]; cbn.
      * split; [|done]. rewrite Ha. congruence.
      * rewrite fmap_app, elem_of_app, Ha. cbn. rewrite list_elem_of_singleton.
        split; [intros [?|[= -> -> ->]]; [congruence | done] | intros [= -> -> ->]; by right].
    + rewrite lookup_insert_ne by congruence. rewrite <-Ha. destruct (ob_expected row); cbn; [done|].
      rewrite fmap_app, elem_of_app. cbn. rewrite list_elem_of_singleton.
      split; [intros [?|Heq]; [done|] | by left]. unfold alert_of in Heq. cbn in Heq. congruence.
  - cbn. destruct (ob_expected row); cbn; [done|]. rewrite fmap_app. apply NoDup_app. cbn. split_and!; [done| |].
    + intros x Hx Hx'%list_elem_of_singleton. subst x. by apply Hfresh.
    + apply NoDup_singleton.
Qed.

Lemma ct_ok_step c c' : ct_ok c -> ct_effect c c' -> ct_ok c'.
Proof.
  intros Hok [-> | s p t Hf -> | s p t row Hf Hlt Hn -> | f Hf -> | l ->].
  - done.
  - by apply ct_ok_touch.
  - by apply ct_ok_observed.
  - destruct Hok as [Hc Ho Ha Hd].
    assert (alert_of <$> (f <$> ct_alerts c) = alert_of <$> ct_alerts c) as Heq.
    { rewrite <-list_fmap_compose. apply list_fmap_ext. intros. apply Hf. }
    split; cbn; [done..| |].
    + intros. rewrite Heq. apply Ha.
    + rewrite <-list_fmap_compose. rewrite (list_fmap_ext _ alert_key) by
        (intros; cbn; by rewrite alert_key_of, Hf). done.
  - destruct Hok. by split.
Qed.

(** ** Every request *)
Lemma insert_checkpoint_ok now s d u d' : insert_checkpoint now s d = Ok (u, d') ->
  (is_Some (checkpoints d !! s) /\ d' = d) \/
  (checkpoints d !! s = None /\ d_ct d' = with_checkpoints (<[s := (0, now)]> (checkpoints d)) (d_ct d) /\
   d_installations d' = d_installations d /\ d_certificates d' = d_certificates d).
Proof.
  unfold insert_checkpoint, write_checkpoint. intros Hi. inv_tx.
  destruct (checkpoints d !! s) as [row|] eqn:Hc; inv_tx; [left; eauto|].
  right. unfold advance_restore_fence in Hi. inv_ok. done.
Qed.

Lemma write_checkpoint_ok s p t d u d' : write_checkpoint s p t d = Ok (u, d') ->
  d_ct d' = with_checkpoints (<[s := (p, t)]> (checkpoints d)) (d_ct d).
Proof. unfold write_checkpoint. intros Hw. inv_tx. unfold advance_restore_fence in Hw. by inv_ok. Qed.

Lemma insert_alert_ok s q owner h f d u d' : insert_alert s q owner h f d = Ok (u, d') ->
  d_ct d' = with_alerts (ct_alerts (d_ct d) ++ [new_alert (d_ct d) s q (unexpected owner h f)]) (d_ct d).
Proof. unfold insert_alert. intros Hi. inv_tx. unfold advance_restore_fence in Hi. by inv_ok. Qed.

Lemma record_observation_ok now s q h f d e d' :
  record_observation now s q h f d = Ok (e, d') ->
  exists row, ob_hostname row = h /\ ob_fingerprint row = f /\ ob_expected row = e /\
    ct_observations (d_ct d) !! (s, q) = None /\
    d_ct d' = with_checkpoints (<[s := (q, now)]> (checkpoints d)) (observed s q row (d_ct d)).
Proof.
  unfold record_observation. intros Hr. inv_tx.
  match goal with Hi : insert_observation _ _ _ _ = _ |- _ => unfold insert_observation in Hi; inv_ok end.
  match goal with Hw : write_checkpoint _ _ _ _ = _ |- _ => apply write_checkpoint_ok in Hw as Hct end.
  set (row := {| ob_installation_id := owner_of h d; ob_hostname := h; ob_fingerprint := f;
                 ob_expected := is_expected (owner_of h d) f d |}) in *.
  exists row. split_and!; [done..|by to_prop; apply eq_None_not_Some |].
  assert (d_ct d3 = observed s q row (d_ct d)) as Hd3; [|rewrite Hct; unfold checkpoints; rewrite Hd3].
  - unfold tx_when, observed, row in *. cbn in *. destruct (is_expected (owner_of h d) f d); cbn in *; inv_tx; [done|].
    match goal with Ha : insert_alert _ _ _ _ _ _ = _ |- _ => apply insert_alert_ok in Ha end.
    destruct (owner_of h d); inv_tx; (etrans; [eassumption | exact eq_refl]).
  - unfold observed. by destruct (ob_expected row).
Qed.

(** After [insert_checkpoint] the source has a checkpoint, and only that
    changed. *)
Lemma insert_checkpoint_feed now s d u d' p t :
  insert_checkpoint now s d = Ok (u, d') -> checkpoints d' !! s = Some (p, t) ->
  feed_at (d_ct d) s p /\ exists m, d_ct d' = with_checkpoints m (d_ct d) /\
    forall v, <[s := v]> m = <[s := v]> (checkpoints d).
Proof.
  intros [[_ ->] | (Hnone & Hct & _)]%insert_checkpoint_ok Hs.
  - split; [right; eauto|]. exists (checkpoints d). split; [|done]. by destruct d as [? ? ? ? ? ? ? ? ? ? ? ? ? ? []].
  - unfold checkpoints in Hs. rewrite Hct in Hs. cbn in Hs. rewrite lookup_insert_eq in Hs. injection Hs as <- <-.
    split; [by left|]. eexists. split; [exact Hct|]. intros v. by rewrite insert_insert_eq.
Qed.

Lemma observe_ct_tx_ok now s q h f d e d' :
  0 <= q -> ct_ok (d_ct d) -> observe_ct_tx now s q h f d = Ok (e, d') ->
  (exists row, d' = d /\ ct_observations (d_ct d) !! (s, q) = Some row /\ ob_hostname row = h /\
     ob_fingerprint row = f /\ ob_expected row = e) \/
  (exists p row, q = p + 1 /\ feed_at (d_ct d) s p /\ p < i64_max /\ ob_hostname row = h /\
     ob_fingerprint row = f /\ ob_expected row = e /\ ct_observations (d_ct d) !! (s, q) = None /\
     d_ct d' = with_checkpoints (<[s := (q, now)]> (ct_checkpoints (d_ct d))) (observed s q row (d_ct d))).
Proof.
  intros Hq Hok Ho. unfold observe_ct_tx in Ho. inv_tx. to_prop.
  destruct x5 as [p t]. cbn [fst] in *.
  destruct (insert_checkpoint_feed _ _ _ _ _ _ _ Hx3 Hx5) as (Hf & m & Hct & Hm).
  pose proof (feed_at_range _ _ _ Hok Hf) as Hp. rewrite i64_as_u64_id, u64_as_i64_id in Ho by lia.
  destruct (Z.leb_spec q p); inv_tx; to_prop.
  - left. eexists. split_and!; [done | | done..]. rewrite Hct in *. done.
  - right. apply record_observation_ok in Ho as (row & ? & ? & ? & Hnone & Hct').
    assert (q = p + 1) as Hqp by lia. exists p, row. rewrite Hct in *. split_and!; try done; try lia.
    rewrite Hct'. unfold checkpoints. rewrite Hct. cbn. rewrite Hm. unfold observed.
    by destruct (ob_expected row).
Qed.

Lemma ensure_source_effect now s d u d' : ensure_ct_source_tx now s d = Ok (u, d') ->
  ct_effect (d_ct d) (d_ct d').
Proof.
  unfold ensure_ct_source_tx. intros He. inv_tx.
  apply insert_checkpoint_ok in He as [[_ ->] | (Hn & Hct & _)]; [by apply ct_same|].
  eapply ct_touch; [by left | exact Hct].
Qed.

Lemma healthy_effect now s p d u d' : mark_ct_feed_healthy_tx now s p d = Ok (u, d') ->
  ct_effect (d_ct d) (d_ct d').
Proof.
  unfold mark_ct_feed_healthy_tx. intros He. inv_tx. destruct (checkpoints d !! s) as [[q t]|] eqn:Hc; [|inv_tx].
  destruct (q =? u64_as_i64 p); [|inv_tx].
  apply write_checkpoint_ok in He. eapply ct_touch; [right; eauto | exact He].
Qed.

Lemma delivered_effect now n d u d' : mark_ct_alert_delivered_tx now n d = Ok (u, d') ->
  ct_effect (d_ct d) (d_ct d').
Proof.
  unfold mark_ct_alert_delivered_tx. intros He. inv_tx. cbv zeta in He.
  destruct (existsb _ _); inv_tx; [|by apply ct_same].
  unfold advance_restore_fence in He. inv_ok. eapply ct_deliver; [|exact eq_refl].
  cbn. intros a. by destruct (_ && _).
Qed.

Lemma health_effect now s n d u d' :
  queue_ct_lag_alert_tx now s d = Ok (u, d') \/ mark_ct_lag_alert_delivered_tx now n d = Ok (u, d') ->
  ct_effect (d_ct d) (d_ct d').
Proof.
  unfold queue_ct_lag_alert_tx, mark_ct_lag_alert_delivered_tx, advance_restore_fence.
  intros [He|He]; inv_tx; cbv zeta in He.
  - destruct (checkpoints d !! s) as [[? ?]|]; [|inv_tx; by apply ct_same].
    destruct (_ && _); inv_tx; [|by apply ct_same]. inv_ok. by eapply ct_health.
  - destruct (existsb _ _); inv_tx; [|by apply ct_same]. inv_ok. by eapply ct_health.
Qed.

(** A recorded position replays. *)
Lemma observe_ct_replay now s q h f d p t row :
  0 <= q <= i64_max -> q <= p <= i64_max ->
  map_err (fun _ => InvalidRequest) (validate_hostname h) = Ok tt -> validate_fingerprint f = Ok tt ->
  is_err (validate_source s) || (q =? 0) || (i64_max <? q) = false ->
  checkpoints d !! s = Some (p, t) -> ct_observations (d_ct d) !! (s, q) = Some row ->
  ob_hostname row = h -> ob_fingerprint row = f ->
  observe_ct_tx now s q h f d = Ok (ob_expected row, d).
Proof.
  intros Hq Hp Hh Hf Hv Hc Ho <- <-. unfold observe_ct_tx.
  apply tx_bind_ok. exists tt, d. split; [unfold tx_lift; by rewrite Hh|].
  apply tx_bind_ok. exists tt, d. split; [unfold tx_lift; by rewrite Hf|].
  apply tx_bind_ok. exists tt, d. split; [unfold tx_reject; by rewrite Hv|].
  apply tx_bind_ok. exists d, d. split; [done|].
  apply tx_bind_ok. exists tt, d. split.
  { unfold insert_checkpoint. apply tx_bind_ok. exists (checkpoints d !! s), d. split; [done|]. by rewrite Hc. }
  apply tx_bind_ok. exists (Some (p, t)), d. split; [by unfold tx_gets; rewrite Hc|].
  apply tx_bind_ok. exists (p, t), d. split; [done|]. cbv zeta. cbn [fst].
  rewrite i64_as_u64_id, u64_as_i64_id by lia. rewrite (proj2 (Z.leb_le q p)) by lia.
  apply tx_bind_ok. exists (Some row), d. split; [by unfold tx_gets; rewrite Ho|].
  apply tx_bind_ok. exists row, d. split; [done|].
  apply tx_bind_ok. exists tt, d. split; [|done].
  unfold tx_reject. by rewrite !bool_decide_eq_true_2.
Qed.

Lemma observe_ct_valid now s q h f d e d' : observe_ct_tx now s q h f d = Ok (e, d') ->
  map_err (fun _ => InvalidRequest) (validate_hostname h) = Ok tt /\ validate_fingerprint f = Ok tt /\
  is_err (validate_source s) || (q =? 0) || (i64_max <? q) = false.
Proof.
  intros Ho. unfold observe_ct_tx in Ho. inv_tx. clear Ho.
  repeat match goal with u : () |- _ => destruct u end. by split_and!.
Qed.

Section histories.
Context `{Crypto} `{Base32} (cfg : StoreConfig).

(** The requests of the CT worker. *)
Definition ct_request (r : Request) : bool :=
  match r with
  | EnsureCtSource _ | MarkCtFeedHealthy _ _ | MarkCtAlertDelivered _ | QueueCtLagAlert _ | MarkCtLagAlertDelivered _
  | ObserveCt _ _ _ _ => true
  | _ => false
  end.

Lemma exec_ct_frame now r d d' : ct_request r = false -> exec cfg now r d = Ok (tt, d') -> d_ct d' = d_ct d.
Proof.
  intros Hr He. destruct r; try done; cbn [exec] in *.
  all: try (apply void_ok in He as [? He]).
  all: try (by apply ctf_certificate in He).
  all: try (by eapply (proj1 (ctf_prune now limit))); try (by eapply (proj2 (ctf_prune now limit))).
  all: change (ct_eq d d'); revert d d' He;
    match goal with |- forall d d', ?m d = Ok (?x, d') -> _ =>
      cut (preserves ct_eq m); [intros Hp d d'; apply Hp|] end.
  all: unfold issue_bearer_tx, renew_bearer_tx, finish_rotation, replay_receipt, register_acme_account_tx,
    mark_dns_ready_tx, ensure_challenge_value_tx, challenge_set_changed, expire_challenge_values_tx, allocate_tx,
    claim_tunnel_tx, expire_pending_tx, retire_tx, relocate_tx, complete_tx; auto with ctframe;
    solve_preserves ctframe.
Qed.

Lemma exec_ct now r d d' :
  typed r -> ct_ok (d_ct d) -> exec cfg now r d = Ok (tt, d') -> ct_effect (d_ct d) (d_ct d').
Proof.
  intros Ht Hok He. destruct (ct_request r) eqn:Hr; [|apply ct_same; by eapply exec_ct_frame].
  destruct r; try done; cbn [exec typed] in *.
  - by eapply ensure_source_effect.
  - by eapply healthy_effect.
  - by eapply delivered_effect.
  - exact (health_effect now source 0 _ _ _ (or_introl He)).
  - exact (health_effect now EmptyString n _ _ _ (or_intror He)).
  - apply void_ok in He as [e He].
    apply observe_ct_tx_ok in He as [(row & -> & _) | (p & row & -> & ? & ? & _ & _ & _ & ? & ?)];
      [by apply ct_same|by eapply ct_observe|apply Ht|done].
Qed.

Lemma history_ct t d t' d' : history cfg t d t' d' -> ct_ok (d_ct d) -> ct_ok (d_ct d').
Proof.
  induction 1 as [ | | ? ? ? ? ? (r & Ht & Hr) ? IH]; auto. intros Hok. apply IH.
  eapply ct_ok_step; [done | by eapply exec_ct].
Qed.

Lemma empty_ct : ct_ok (d_ct empty_db).
Proof.
  split; cbn.
  - intros s p t Hs. by rewrite lookup_empty in Hs.
  - intros s q. rewrite lookup_empty. split; [by intros [? ?] | intros (p & t & Hs & _); by rewrite lookup_empty in Hs].
  - intros. rewrite lookup_empty. split; [by intros ?%elem_of_nil | done].
  - constructor.
Qed.

Lemma effect_observations c c' : ct_effect c c' -> ct_observations c ⊆ ct_observations c'.
Proof.
  intros [-> | s p t _ -> | s p t row _ _ Hn -> | f _ -> | l ->]; cbn; try done. by apply insert_subseteq.
Qed.

Lemma history_observations t d t' d' :
  history cfg t d t' d' -> ct_ok (d_ct d) -> ct_observations (d_ct d) ⊆ ct_observations (d_ct d').
Proof.
  induction 1 as [ | | ? ? ? ? ? (r & Ht & Hr) ? IH]; auto. intros Hok.
  apply exec_ct in Hr; [|done..]. etrans; [by apply effect_observations | apply IH]. by eapply ct_ok_step.
Qed.

(** the CT record is complete. In a reachable database a source's
    checkpoint is the number of its recorded positions, which have no gaps;
    and the alerts are exactly the observations that were not expected, one
    alert for each, with its hostname, fingerprint and installation. *)
Theorem ct_record_complete now d :
  reachable cfg now d ->
  (forall s p t q, checkpoints d !! s = Some (p, t) ->
     is_Some (ct_observations (d_ct d) !! (s, q)) <-> 1 <= q <= p) /\
  (forall s q row, ct_observations (d_ct d) !! (s, q) = Some row ->
     exists p t, checkpoints d !! s = Some (p, t) /\ 1 <= q <= p) /\
  (forall s q owner h f, (s, q, owner, h, f) ∈ alert_of <$> ct_alerts (d_ct d) <->
     ct_observations (d_ct d) !! (s, q) = Some (unexpected owner h f)) /\
  NoDup (alert_key <$> ct_alerts (d_ct d)).
Proof.
  intros [start Hh]. apply history_ct in Hh as Hok; [|apply empty_ct]. split_and!.
  - intros s p t q Hs. apply feed_at_observed; [done | right; eauto].
  - intros s q row Hq. apply (co_observed _ Hok). eauto.
  - apply (co_alerts _ Hok).
  - apply (co_once _ Hok).
Qed.

(** reporting a certificate again is harmless. Once a position of a feed
    was recorded, reporting the same certificate at it after any other
    requests returns the same verdict and changes nothing, so no second alert
    is raised; reporting a different one is a conflict. *)
Theorem ct_observation_idempotent now0 d now s q h f e d1 t d2 h' f' :
  reachable cfg now0 d -> is_u64 q -> observe_ct_tx now s q h f d = Ok (e, d1) ->
  history cfg now d1 t d2 ->
  observe_ct_tx t s q h f d2 = Ok (e, d2) /\
  ((h', f') <> (h, f) -> is_err (observe_ct_tx t s q h' f' d2) = true).
Proof.
  intros [start Hr] [Hq _] Ho Hh. apply history_ct in Hr as Hok; [|apply empty_ct].
  destruct (observe_ct_valid _ _ _ _ _ _ _ _ Ho) as (Hvh & Hvf & Hv).
  assert (q <= i64_max) as Hle by (clear -Hv; by to_prop).
  assert (ct_ok (d_ct d1) /\ exists row, ct_observations (d_ct d1) !! (s, q) = Some row /\ ob_hostname row = h /\
    ob_fingerprint row = f /\ ob_expected row = e) as (Hok1 & row & Hrow & Hh1 & Hf1 & He1).
  { apply observe_ct_tx_ok in Ho as [(row & -> & ?) | (p & row & -> & Hfe & Hp & ? & ? & ? & Hn & Hct)]; [eauto| |done..].
    rewrite Hct. split; [by apply ct_ok_observed|]. exists row. cbn. by rewrite lookup_insert_eq. }
  assert (ct_observations (d_ct d2) !! (s, q) = Some row) as Hrow2.
  { eapply lookup_weaken; [exact Hrow | by eapply history_observations]. }
  assert (ct_ok (d_ct d2)) as Hok2 by by eapply history_ct. split.
  - destruct (proj1 (co_observed _ Hok2 s q)) as (p & t0 & Hc & Hpq); [eauto|].
    pose proof (co_checkpoint _ Hok2 _ _ _ Hc). rewrite <-He1. apply (observe_ct_replay t s q h f d2 p t0 row); try done; lia.
  - intros Hne. destruct (observe_ct_tx t s q h' f' d2) as [[e' d3]|] eqn:Ho'; [exfalso|done].
    apply observe_ct_tx_ok in Ho' as [(row' & _ & ? & ? & ? & _) | (p & row' & -> & _ & _ & _ & _ & _ & ? & _)];
      [|congruence|done|done]. apply Hne. congruence.
Qed.
End histories.
