(* ===== verification/StoreCleanup.v ===== *)
(** * Cleanup of DNS records over histories

    Every job stays queued with its request until a worker completes it, the
    queue hands out the oldest due job, and the jobs that remove a retired
    installation's records come after every job that publishes them. *)

From Stdlib Require Import Ascii String Strings.Byte.
From stdpp Require Import base strings list gmap sorting.
From S2P Require Import Prelude Protocol Db Witness Store StoreCredentials StoreChallenges.
From S2P Require Import StoreLifecycle StoreBootstrap StoreOutbox StoreCt StoreHistory.
From S2P Require Import StoreInvariant StoreEffects.

Definition jobs (d : Db) : list (Z * Uuid * string * json) := job_of <$> d_outbox d.
Definition job_id (j : Z * Uuid * string * json) : Z := j.1.1.1.
Definition job_installation (j : Z * Uuid * string * json) : Uuid := j.1.1.2.
Definition job_kind (j : Z * Uuid * string * json) : string := j.1.2.

(** A removal job of the installation is queued after all its change jobs. *)
Definition removal_last (removal change : string) (id : Uuid) (l : list (Z * Uuid * string * json)) : Prop :=
  exists j, j ∈ l /\ job_installation j = id /\ job_kind j = removal /\
    forall k, k ∈ l -> job_installation k = id -> job_kind k = change -> job_id k < job_id j.

Definition cleanup_ok (d : Db) : Prop := forall id, retired_in id d ->
  removal_last "remove_records" "publish_name" id (jobs d) /\
  removal_last "remove_txt_all" "reconcile_txt" id (jobs d).

Lemma removal_last_app removal change id l l' :
  (forall j, j ∈ l' -> job_installation j <> id) -> removal_last removal change id l ->
  removal_last removal change id (l ++ l').
Proof.
  intros Hn (j & Hj & Hid & Hk & Hlt). exists j. split_and!; [|done..|].
  - apply elem_of_app. by left.
  - intros k [Hin|Hin]%elem_of_app; [by apply Hlt|]. intros Hi. by destruct (Hn k Hin).
Qed.

(** ** What a request adds to the queue *)
Inductive queue_effect (d d' : Db) : Prop :=
| queue_grows l :
    jobs d' = jobs d ++ l ->
    (forall id, retired_in id d' -> retired_in id d /\ forall j, j ∈ l -> job_installation j <> id) ->
    queue_effect d d'
| queue_retires id :
    jobs d' = jobs d ++ [(d_outbox_next d, id, "remove_records", JObj []);
                         (d_outbox_next d + 1, id, "remove_txt_all", JObj [])] ->
    (forall k, retired_in k d' -> k = id \/ retired_in k d) ->
    queue_effect d d'.

Lemma retired_same id d d' :
  d_installations d' = d_installations d -> retired_in id d' -> retired_in id d.
Proof. unfold retired_in. by intros ->. Qed.

(** An installation that is not retired afterwards got the new jobs. *)
Lemma retired_update k id row d d' :
  d_installations d' = <[id := row]> (d_installations d) -> i_state row <> Retired ->
  retired_in k d' -> retired_in k d /\ k <> id.
Proof.
  unfold retired_in. intros -> Hs (r & Hr & Hst). apply lookup_insert_Some in Hr as [[_ <-] | [Hne Hr]]; [done|].
  split; [eauto | done].
Qed.

Lemma retired_one k id row d d' :
  d_installations d' = <[id := row]> (d_installations d) -> retired_in k d' -> k = id \/ retired_in k d.
Proof.
  unfold retired_in. intros -> (r & Hr & Hst). apply lookup_insert_Some in Hr as [[-> _] | [_ Hr]]; eauto.
Qed.

Lemma queue_same d d' :
  jobs d' = jobs d -> (forall id, retired_in id d' -> retired_in id d) -> queue_effect d d'.
Proof.
  intros Hj Hr. apply (queue_grows _ _ []); [by rewrite app_nil_r|].
  intros id Hid. split; [by apply Hr | by intros j ?%elem_of_nil].
Qed.

Lemma queue_one d d' n id kind payload :
  jobs d' = jobs d ++ [(n, id, kind, payload)] ->
  (forall k, retired_in k d' -> retired_in k d /\ k <> id) -> queue_effect d d'.
Proof.
  intros Hj Hr. eapply queue_grows; [exact Hj|]. intros k Hk. destruct (Hr k Hk) as [? Hne]. split; [done|].
  intros j ->%list_elem_of_singleton. cbn. congruence.
Qed.

Lemma jobs_update n f d : (forall x, job_of (f x) = job_of x) -> jobs (update_job n f d) = jobs d.
Proof.
  intros Hf. unfold jobs, update_job. cbn. rewrite <-list_fmap_compose. apply list_fmap_ext.
  intros i x _. cbn. by case_match.
Qed.

Lemma jobs_add id kind payload now d :
  jobs (add_outbox id kind payload now d) = jobs d ++ [(d_outbox_next d, id, kind, payload)].
Proof. unfold jobs, add_outbox. cbn. by rewrite fmap_app. Qed.

Lemma lapsed_ready now id d : WF d -> lapsed_count now id d <> 0%nat ->
  exists row, d_installations d !! id = Some row /\ i_state row = DnsReady.
Proof.
  intros Hwf Hl. unfold lapsed_count in Hl.
  assert (exists k e, filter (fun kv => kv.2 <= now) (values_of id d) !! k = Some e) as (k & e & Hk).
  { apply map_choose. intros Heq. rewrite Heq, map_size_empty in Hl. done. }
  apply map_lookup_filter_Some in Hk as [Hk _]. unfold values_of in Hk.
  apply map_lookup_filter_Some in Hk as [Hk Hid]. cbn in Hid. destruct k as [id' txt]. cbn in Hid. subst id'.
  by destruct (wf_values _ Hwf _ _ _ Hk) as (_ & _ & ?).
Qed.

Lemma effect_queue now d d' : WF d -> effect now d d' -> queue_effect d d'.
Proof.
  intros Hwf He. destruct He as
    [d' Hc | id op scope kind digest hash lifetime aop event p row Hr Hst _ _ | id uri row Hr Hst | id row Hr Hst
    | id txt _ | id txt row Hr Hst _ | id event Hl | id _ | id s _ | op key placement id h Hn _
    | id gateway ttl row Hr Hst _ | id l _ | op o _ | id op o row Hr Hst _ | id row Hr Hst
    | id op o placement event payload row Hr Hst _ | n f Hf _ _].
  - apply core_eq_fields in Hc as (Hi & _ & _ & _ & _ & _ & _ & Ho).
    apply queue_same; [unfold jobs; by rewrite Ho | intros k; by apply retired_same].
  - unfold rotated, cut_lease. apply queue_same; [by case_bool_decide|]. intros k Hk.
    refine (proj1 (retired_update k id (set_generation (i_generation row + 1) row) d _ _ _ Hk)); [|done].
    by case_bool_decide.
  - eapply queue_one; [etrans; [apply jobs_add | exact eq_refl]|]. intros k. by apply (retired_update k id (set_account uri row)).
  - apply queue_same; [done|]. intros k Hk.
    by refine (proj1 (retired_update k id (set_state DnsReady (i_retired_at row) row) d _ _ _ Hk)).
  - apply queue_same; unfold refreshed, ensure_challenge_state; [by case_match|].
    intros k. apply retired_same. by case_match.
  - eapply queue_one; [etrans; [apply jobs_add|]; f_equal; unfold ensure_challenge_state; by case_match|].
    intros k (r & Hk & Hs). cbn in Hk. rewrite (proj2 (ensure_challenge_state_values id d)) in Hk.
    split; [by exists r | congruence].
  - destruct (lapsed_ready _ _ _ Hwf Hl) as (row & Hr & Hst). eapply queue_one; [etrans; [apply jobs_add | exact eq_refl]|].
    intros k (r & Hk & Hs). cbn in Hk. split; [by exists r | congruence].
  - apply queue_same; [done|]. intros k. by apply retired_same.
  - apply queue_same; [done|]. intros k. by apply retired_same.
  - eapply queue_one; [etrans; [apply jobs_add | exact eq_refl]|]. intros k. by apply (retired_update k id (allocated_row now key placement h)).
  - apply queue_same; [done|]. intros k Hk.
    refine (proj1 (retired_update k id (set_generation (i_generation row + 1) row) d _ _ _ Hk)); [done|].
    cbn. by rewrite Hst.
  - apply queue_same; [done|]. intros k. by apply retired_same.
  - apply queue_same; [done|]. intros k. by apply retired_same.
  - apply (queue_retires _ _ id).
    + etrans; [apply jobs_add|]. rewrite jobs_add, <-app_assoc. done.
    + intros k. by apply (retired_one k id (retired_row now row)).
  - apply (queue_retires _ _ id).
    + etrans; [apply jobs_add|]. rewrite jobs_add, <-app_assoc. done.
    + intros k. by apply (retired_one k id (retired_row now row)).
  - eapply queue_one; [etrans; [apply jobs_add | exact eq_refl]|]. intros k. apply (retired_update k id (moved_row placement row)); [done|].
    cbn. by rewrite Hst.
  - apply queue_same; [by apply jobs_update|]. intros k. by apply retired_same.
Qed.

Lemma cleanup_ok_step now d d' : WF d -> effect now d d' -> cleanup_ok d -> cleanup_ok d'.
Proof.
  intros Hwf He Hok id Hid. destruct (effect_queue _ _ _ Hwf He) as [l Hj Hr | k Hj Hr].
  - rewrite Hj. destruct (Hr id Hid) as [Hid' Hl]. destruct (Hok id Hid').
    by split; apply removal_last_app.
  - rewrite Hj. destruct (decide (id = k)) as [->|Hne].
    + assert (forall j, j ∈ jobs d -> job_id j < d_outbox_next d) as Hold.
      { destruct (wf_outbox _ Hwf) as [_ Hf]. rewrite Forall_forall in Hf.
        intros j (x & -> & Hx)%list_elem_of_fmap. by apply Hf. }
      split.
      * eexists. split_and!; [apply elem_of_app; right; left | done | done|].
        intros j [Hin|Hin]%elem_of_app _ Hk; [by apply Hold|].
        apply elem_of_cons in Hin as [->|Hin%list_elem_of_singleton]; [done | by subst j].
      * eexists. split_and!; [apply elem_of_app; right; right; left | done | done|].
        intros j [Hin|Hin]%elem_of_app _ Hk; [specialize (Hold j Hin); cbn in *; lia|].
        apply elem_of_cons in Hin as [->|Hin%list_elem_of_singleton]; [done | by subst j].
    + destruct (Hr id Hid) as [?|Hid']; [done|]. destruct (Hok id Hid').
      split; (apply removal_last_app; [|done];
        intros j [->|Hin%list_elem_of_singleton]%elem_of_cons; [|subst j]; cbn; congruence).
Qed.

(** ** Jobs persist until they are completed, and come due *)
Record queue_le (now : Z) (d d' : Db) : Prop := {
  ql_kept : forall x, x ∈ d_outbox d -> exists x', x' ∈ d_outbox d' /\ job_of x' = job_of x /\
    (is_Some (x_completed_at x) -> is_Some (x_completed_at x'));
  ql_due : Forall (fun x => x_next_attempt_at x <= now + seconds 300) (d_outbox d) ->
    Forall (fun x => x_next_attempt_at x <= now + seconds 300) (d_outbox d')
}.

Lemma queue_le_same now d d' : d_outbox d' = d_outbox d -> queue_le now d d'.
Proof. intros Ho. split; rewrite Ho; [eauto | done]. Qed.

Lemma queue_le_add now id kind payload d d' :
  d_outbox d' = d_outbox (add_outbox id kind payload now d) -> queue_le now d d'.
Proof.
  intros Ho. split; rewrite Ho; cbn.
  - intros x Hx. exists x. split_and!; [apply elem_of_app; by left | done..].
  - intros Hf. apply Forall_app. split; [done|]. constructor; [|constructor]. cbn. unfold seconds. lia.
Qed.

Lemma queue_le_trans now d1 d2 d3 : queue_le now d1 d2 -> queue_le now d2 d3 -> queue_le now d1 d3.
Proof.
  intros [Hk1 Hd1] [Hk2 Hd2]. split; [|auto]. intros x (x1 & Hx1 & Hj1 & Hc1)%Hk1.
  destruct (Hk2 x1 Hx1) as (x2 & ? & ? & ?). exists x2. split_and!; [done | congruence | auto].
Qed.

Lemma effect_queue_le now d d' : WF d -> effect now d d' -> queue_le now d d'.
Proof.
  intros Hwf He. destruct He as
    [d' Hc | id op scope kind digest hash lifetime aop event p row _ _ _ _ | id uri row _ _ | id row _ _
    | id txt _ | id txt row _ _ _ | id event _ | id _ | id s _ | op key placement id h _ _
    | id gateway ttl row _ _ _ | id l _ | op o _ | id op o row _ _ _ | id row _ _
    | id op o placement event payload row _ _ _ | n f Hf Hco Hnext].
  all: try (by apply queue_le_same); try (by eapply queue_le_add).
  - apply core_eq_fields in Hc as (_ & _ & _ & _ & _ & _ & _ & Ho). by apply queue_le_same.
  - apply queue_le_same. unfold rotated, cut_lease. by case_bool_decide.
  - apply queue_le_same. unfold refreshed, ensure_challenge_state. by case_match.
  - apply (queue_le_add now id "reconcile_txt" (JObj [])). cbn. unfold ensure_challenge_state. by case_match.
  - eapply queue_le_trans; [by eapply queue_le_add | by eapply queue_le_add].
  - eapply queue_le_trans; [by eapply queue_le_add | by eapply queue_le_add].
  - split; unfold update_job; cbn.
    + intros x Hx. eexists. split; [by apply list_elem_of_fmap_2|]. cbn. case_match; [|done].
      split; [apply Hf | apply Hco].
    + intros Hd. destruct (wf_outbox _ Hwf) as [_ Ho]. rewrite Forall_forall in *.
      intros y (x & -> & Hx)%list_elem_of_fmap. cbn. specialize (Hd x Hx).
      destruct (Ho x Hx) as (_ & _ & Ha & _). case_match; [|done]. specialize (Hnext x Ha). lia.
Qed.

Section histories.
Context `{Crypto} `{Base32} `{!Base32Law} (cfg : StoreConfig).

Lemma history_cleanup t d t' d' :
  history cfg t d t' d' -> invariant d -> cleanup_ok d -> cleanup_ok d'.
Proof.
  induction 1 as [ | | ? ? ? ? ? (r & Ht & Hr) Hh IH]; auto. intros Hinv Hc. apply IH.
  - eapply (history_invariant cfg); [|done]. eapply history_step; [by exists r | constructor].
  - eapply cleanup_ok_step; [apply Hinv | by eapply exec_effect | done].
Qed.

(** the records of a retired installation are removed last. In a
    reachable database a retired installation has a job that removes its
    serving records, queued after every job that publishes them, and a job
    that removes its TXT records, queued after every job that changes them. *)
Theorem removal_follows_publication now d id :
  reachable cfg now d -> retired_in id d ->
  removal_last "remove_records" "publish_name" id (jobs d) /\
  removal_last "remove_txt_all" "reconcile_txt" id (jobs d).
Proof.
  intros [start Hh] Hid. apply history_cleanup in Hh; [by apply Hh | apply empty_invariant|].
  intros k (row & Hk & _). cbn in Hk. by rewrite lookup_empty in Hk.
Qed.

Lemma history_queue t d t' d' :
  history cfg t d t' d' -> invariant d ->
  Forall (fun x => x_next_attempt_at x <= t + seconds 300) (d_outbox d) ->
  Forall (fun x => x_next_attempt_at x <= t' + seconds 300) (d_outbox d') /\
  forall x, x ∈ d_outbox d -> exists x', x' ∈ d_outbox d' /\ job_of x' = job_of x /\
    (is_Some (x_completed_at x) -> is_Some (x_completed_at x')).
Proof.
  induction 1 as [ | ? ? ? ? ? Hle _ IH | now d d1 ? ? (r & Ht & Hr) Hh IH]; [eauto| |]; intros Hinv Hd.
  - apply IH; [done|]. eapply Forall_impl; [done|]. cbn. lia.
  - assert (queue_le now d d1) as [Hk Hdue] by (eapply effect_queue_le; [apply Hinv | by eapply exec_effect]).
    destruct IH as [Hd' Hk']; [|by apply Hdue|].
    { eapply (history_invariant cfg); [|done]. eapply history_step; [by exists r | constructor]. }
    split; [done|]. intros x (x1 & Hx1 & Hj1 & Hc1)%Hk. destruct (Hk' x1 Hx1) as (x2 & ? & ? & ?).
    exists x2. split_and!; [done | congruence | auto].
Qed.

(** C37: queued DNS work is never lost. A job stays in the outbox with its
    installation, kind and payload through any requests, stays completed once
    completed, and while it is not completed the worker of the installation's
    placement finds it due at the latest 300 seconds later. *)
Theorem queued_job_never_lost now d t d' x :
  reachable cfg now d -> x ∈ d_outbox d -> history cfg now d t d' ->
  exists x', x' ∈ d_outbox d' /\ job_of x' = job_of x /\
    (is_Some (x_completed_at x) -> is_Some (x_completed_at x')) /\
    (x_completed_at x' = None -> exists row scope, d_installations d' !! x_installation_id x = Some row /\
       forall later, t + seconds 300 <= later -> due later (i_placement row) scope d' x' = true).
Proof.
  intros [start Hr] Hx Hh. assert (invariant d) as Hinv by (eapply (history_invariant cfg); [exact Hr | apply empty_invariant]).
  apply history_queue in Hr as [Hd _]; [|apply empty_invariant | constructor].
  apply history_queue in Hh as Hq; [|done..]. destruct Hq as [Hd' Hk]. destruct (Hk x Hx) as (x' & Hx' & Hj & Hc).
  exists x'. split_and!; [done..|]. intros Hopen.
  assert (invariant d') as [Hwf _] by by eapply (history_invariant cfg).
  destruct (wf_outbox _ Hwf) as [_ Hf]. rewrite Forall_forall in Hf, Hd'.
  destruct (Hf x' Hx') as (_ & Hkind & _ & [row Hrow]). injection Hj as Hid Hin Hki Hp. rewrite <-Hin.
  assert (exists scope, kind_in_scope scope (x_kind x') = true) as [scope Hscope].
  { destruct Hkind as [-> | [-> | [-> | ->]]]; [exists Serving | exists Serving | exists Challenge | exists Challenge];
      vm_compute; reflexivity. }
  exists row, scope. split; [done|]. intros later Hlater. unfold due, at_placement. specialize (Hd' x' Hx').
  rewrite Hrow, Hscope, Hopen, !bool_decide_eq_true_2 by done. apply Z.leb_le. lia.
Qed.

(** a worker is handed the oldest job it may run. A claimed job is not
    held by another worker, is due at the worker's placement and belongs to
    its scope and to no other, and no such job has a smaller id; a worker is
    told there is none only when there is none. *)
Theorem claim_job_oldest_due `{S3} now0 d now placement scope locked ae w job w' :
  reachable cfg now0 d -> w_db w = d -> claim_job ae now placement scope locked w = (Ok job, w') ->
  match job with
  | Some x =>
      x ∈ d_outbox d /\ locked (x_id x) = false /\ due now placement scope d x = true /\
      (forall other, kind_in_scope other (x_kind x) = true -> other = scope) /\
      (forall y, y ∈ d_outbox d -> locked (x_id y) = false -> due now placement scope d y = true ->
         x_id x <= x_id y)
  | None => forall y, y ∈ d_outbox d -> due now placement scope d y = true -> locked (x_id y) = true
  end.
Proof.
  intros [start Hr] <- Hc.
  assert (invariant (w_db w)) as [Hwf _] by (eapply (history_invariant cfg); [exact Hr | apply empty_invariant]).
  unfold claim_job in Hc. destruct (select_job _ _ _ _ _) as [x|] eqn:Hs; unfold select_job in Hs.
  - destruct (acknowledge ae w) as [[[]|] w1]; cbn in Hc; [|done]. injection Hc as <- <-.
    apply find_first in Hs as (l1 & l2 & Ho & Hp & Hbefore). to_prop.
    destruct (wf_outbox _ Hwf) as [Hsorted _]. rewrite Ho in *. split_and!.
    + apply elem_of_app. right. left.
    + done.
    + done.
    + intros other Hk. eapply kind_scope_unique; [exact Hk|]. unfold due in *. by to_prop.
    + intros y Hy Hl Hd. apply elem_of_app in Hy as [Hy|Hy].
      { rewrite Forall_forall in Hbefore. specialize (Hbefore y Hy). cbn in Hbefore. by rewrite Hd, Hl in Hbefore. }
      apply elem_of_cons in Hy as [->|Hy]; [done|].
      apply StronglySorted_app_1_r in Hsorted. apply StronglySorted_inv in Hsorted as [_ Hgt].
      rewrite Forall_forall in Hgt. specialize (Hgt y Hy). lia.
  - injection Hc as <- <-. intros y Hy Hd.
    pose proof (List.find_none _ _ Hs y) as Hn. cbn in Hn. rewrite Hd in Hn.
    destruct (locked (x_id y)); [done|]. exfalso. apply list_elem_of_In in Hy. by specialize (Hn Hy).
Qed.
End histories.
