(* ===== verification/StoreProperties.v ===== *)
(** * What the store guarantees over whole histories

    The theorems about authority and identity: what is never undone, bearer
    rotation, tunnel fencing, retirement, hostname allocation, idempotent
    operations and the DNS-01 challenge protocol. Each speaks of arbitrary
    histories of requests; the witnesses run one on a concrete database. *)

From Stdlib Require Import Ascii String Strings.Byte.
From stdpp Require Import base strings list gmap sorting.
From S2P Require Import Prelude Protocol Db Witness Store StoreCredentials StoreChallenges.
From S2P Require Import StoreLifecycle StoreBootstrap StoreOutbox StoreCt StoreHistory.
From S2P Require Import StoreInvariant StoreEffects.

Section properties.
Context `{Crypto} `{Base32} `{!Base32Law} (cfg : StoreConfig).

(** ** Lifting effects to histories *)
Lemma history_credentials t d t' d' key :
  history cfg t d t' d' -> is_Some (d_credentials d !! key) -> is_Some (d_credentials d' !! key).
Proof.
  induction 1 as [ | | ? ? ? ? ? (r & _ & Hr) ? IH]; auto. intros Hk. apply IH.
  eapply effect_credentials; [by eapply exec_effect | done].
Qed.

Lemma history_fenced t d t' d' id g : history cfg t d t' d' -> fenced id g d -> fenced id g d'.
Proof.
  induction 1 as [ | | ? ? ? ? ? (r & _ & Hr) ? IH]; auto. intros Hf. apply IH.
  eapply effect_fenced; [by eapply exec_effect | by eapply exec_history_le | done].
Qed.

Lemma retired_in_stays d d' id : history_le d d' -> retired_in id d -> retired_in id d'.
Proof.
  intros Hh (row & Hrow & Hs). destruct (row_grows _ _ _ _ Hh Hrow) as (row' & ? & Hle).
  destruct Hle as (_ & _ & _ & _ & _ & _ & Heq). exists row'. split; [done|]. by rewrite Heq.
Qed.

Lemma history_set_evolves t d t' d' id :
  history cfg t d t' d' -> invariant d -> set_evolves id d d'.
Proof.
  induction 1 as [? d | | ? d d1 ? d2 (r & Ht & Hr) Hh IH]; [intros _; by apply set_evolves_same | auto|].
  intros [Hwf Hf].
  pose proof (effect_set_evolves _ _ _ id Hwf (exec_effect cfg _ _ _ _ Hr)) as [Hle1 Heq1].
  destruct IH as [Hle2 Heq2].
  { split; [by eapply exec_WF | by eapply exec_fence]. }
  pose proof (proj1 (history_history_le cfg _ _ _ _ Hh)) as Hhl.
  split; [lia|]. intros He. destruct Heq2 as [Hm2 | Hr2]; [lia| |by right].
  destruct Heq1 as [Hm1 | Hr1]; [lia | left; congruence | right; by eapply retired_in_stays].
Qed.

(** what is never undone. Along any history an installation keeps its
    hostname, administrator key and creation time, its generation never
    decreases, its state only moves forward (and a retired row is frozen), a
    bound ACME account stays bound; recorded operations and hostname
    reservations are never changed or removed; the audit log is append-only,
    and each audited change advances the restore fence. *)
Theorem history_never_undone t d t' d' : history cfg t d t' d' -> history_le d d'.
Proof. intros Hh. by apply history_history_le in Hh as [? _]. Qed.

(** ** Bearers *)
Lemma live_is_newest d id scope g g' c c' :
  WF d -> d_credentials d !! (id, scope, g) = Some c -> k_revoked_at c = None ->
  d_credentials d !! (id, scope, g') = Some c' -> g' <= g.
Proof. intros Hwf Hc Hr Hc'. exact (wf_newest _ Hwf _ _ _ _ Hc Hr _ _ Hc'). Qed.

Lemma credential_generation_range d id scope g c :
  WF d -> d_credentials d !! (id, scope, g) = Some c -> 0 <= g <= i64_max.
Proof.
  intros Hwf Hc. destruct (wf_cred _ Hwf _ _ _ _ Hc) as (_ & ? & row & Hr & ?).
  destruct (wf_rows _ Hwf _ _ Hr) as (? & _). lia.
Qed.

(** C27: at any moment at most one bearer per installation and scope is
    accepted: two bearers that authenticate have the same digest and the same
    generation. *)
Theorem one_bearer_authenticates now d now1 now2 id scope b1 b2 g1 g2 :
  reachable cfg now d ->
  authenticate_bearer now1 id scope b1 d = Some g1 ->
  authenticate_bearer now2 id scope b2 d = Some g2 ->
  sha256 (str_bytes b1) = sha256 (str_bytes b2) /\ g1 = g2.
Proof.
  intros [Hwf _]%reachable_invariant.
  intros (_ & r1 & c1 & k1 & _ & _ & Hc1 & (Hd1 & Hv1 & _) & ->)%authenticate_bearer_Some.
  intros (_ & r2 & c2 & k2 & _ & _ & Hc2 & (Hd2 & Hv2 & _) & ->)%authenticate_bearer_Some.
  assert (k1 = k2) as ->; [|simplify_eq; by rewrite <-Hd1, <-Hd2].
  apply Z.le_antisymm; [by eapply (live_is_newest d id scope k2) | by eapply (live_is_newest d id scope k1)].
Qed.

(** The generation a rotation returned. *)
Lemma rotation_generation now r d d' g e id op scope :
  (exists hash vs, r = IssueBearer id op scope hash vs /\
     issue_bearer_tx cfg now id op scope hash vs d = Ok ((g, e), d')) \/
  (exists g0 token hash, r = RenewBearer id op scope g0 token hash /\
     renew_bearer_tx cfg now id op scope g0 token hash d = Ok ((g, e), d')) ->
  d_operations d !! op = None -> WF d ->
  is_Some (d_credentials d' !! (id, scope, g)) /\ 0 <= g <= i64_max.
Proof.
  intros Hr Hop Hwf.
  assert (exists row, d_installations d !! id = Some row /\ i_generation row < i64_max /\
    g = i64_as_u64 (i_generation row + 1) /\
    is_Some (d_credentials d' !! (id, scope, i_generation row + 1))) as (row & Hrow & Hlt & -> & Hc).
  { destruct Hr as [(hash & vs & _ & Hi) | (g0 & token & hash & _ & Hi)].
    - apply issue_bearer_tx_ok in Hi as (_ & _ & [(? & ? & _) | (row & _ & ? & _ & ? & [= -> _] & ->)]);
        [congruence|]. exists row. split_and!; [done..|].
      unfold issued, rotated, cut_lease. case_bool_decide; cbn; rewrite lookup_insert_eq; eauto.
    - apply renew_bearer_tx_ok in Hi as (_ & [(? & ? & _) | (row & c & _ & ? & _ & ? & _ & _ & [= -> _] & ->)]);
        [congruence|]. exists row. split_and!; [done..|].
      unfold renewed, rotated, cut_lease. case_bool_decide; cbn; rewrite lookup_insert_eq; eauto. }
  destruct (wf_rows _ Hwf _ _ Hrow) as (? & _). rewrite i64_as_u64_id by lia. split; [done | lia].
Qed.

(** a rotated-out bearer never comes back. After an issue or a renewal
    returned generation [g], every later authentication in that scope, at any
    time and after any requests, is for generation [g] or a later one. *)
Theorem rotation_fences_older_bearers now r d d1 t d2 g e id op scope now' bearer g' :
  invariant d -> typed r ->
  ((exists hash vs, r = IssueBearer id op scope hash vs /\
      issue_bearer_tx cfg now id op scope hash vs d = Ok ((g, e), d1)) \/
   (exists g0 token hash, r = RenewBearer id op scope g0 token hash /\
      renew_bearer_tx cfg now id op scope g0 token hash d = Ok ((g, e), d1))) ->
  d_operations d !! op = None -> history cfg now d1 t d2 ->
  authenticate_bearer now' id scope bearer d2 = Some g' -> g <= g'.
Proof.
  intros [Hwf Hf] Ht Hr Hop Hh Ha.
  destruct (rotation_generation now r d d1 g e id op scope Hr Hop Hwf) as [Hc Hg].
  assert (exec cfg now r d = Ok (tt, d1)) as He.
  { destruct Hr as [(? & ? & -> & Hi) | (? & ? & ? & -> & Hi)]; cbn [exec]; unfold void;
      apply tx_bind_ok; eauto. }
  assert (invariant d2) as [Hwf2 _].
  { eapply history_invariant; [exact Hh|]. split; [by eapply exec_WF | by eapply exec_fence]. }
  eapply history_credentials in Hc as [c Hc]; [|exact Hh].
  apply authenticate_bearer_Some in Ha as (_ & row & c' & k & _ & _ & Hk & (_ & Hrev & _) & ->).
  pose proof (credential_generation_range _ _ _ _ _ Hwf2 Hk).
  rewrite i64_as_u64_id by lia. by eapply (live_is_newest d2 id scope).
Qed.

(** ** Tunnels *)

(** Requests that take the tunnel away from its current gateway. *)
Definition fences_tunnel (r : Request) (id : Uuid) : Prop :=
  match r with
  | ClaimTunnel i _ _ | Retire i _ | Relocate i _ _ | ExpirePending i => i = id
  | IssueBearer i _ scope _ _ | RenewBearer i _ scope _ _ _ => i = id /\ scope = "tunnel"
  | _ => False
  end.

Lemma rotated_no_lease now id op kind digest g hash lifetime aop event d :
  d_leases (rotated now id op "tunnel" kind digest g hash lifetime aop event d) !! id = None.
Proof.
  unfold rotated, cut_lease. rewrite bool_decide_eq_true_2 by done. cbn. by rewrite lookup_delete_eq.
Qed.

(** Such a request leaves no lease, or the lease of its own new generation. *)
Lemma fencing_lease now r d d1 id row row1 l :
  WF d -> fences_tunnel r id -> exec cfg now r d = Ok (tt, d1) ->
  d_installations d !! id = Some row -> d_installations d1 !! id = Some row1 ->
  i_generation row < i_generation row1 -> d_leases d1 !! id = Some l ->
  l_generation l = i_generation row + 1.
Proof.
  intros Hwf Hr He Hrow Hrow1 Hlt Hl.
  destruct r; try done; cbn [fences_tunnel] in Hr; cbn [exec] in He; try apply void_ok in He as [? He].
  - destruct Hr as [-> ->].
    apply issue_bearer_tx_ok in He as (_ & _ & [(? & _ & -> & _) | (r & _ & ? & _ & _ & _ & ->)]);
      [simplify_eq; lia|]. unfold issued in Hl. by rewrite rotated_no_lease in Hl.
  - destruct Hr as [-> ->].
    apply renew_bearer_tx_ok in He as (_ & [(? & _ & -> & _) | (r & c & _ & ? & _ & _ & _ & _ & _ & ->)]);
      [simplify_eq; lia|]. unfold renewed in Hl. by rewrite rotated_no_lease in Hl.
  - subst. apply claim_tunnel_tx_ok in He as (_ & r & ? & _ & _ & _ & _ & ->). cbn in Hl.
    rewrite lookup_insert_eq in Hl. by simplify_eq.
  - subst. apply expire_pending_tx_ok in He as [[_ ->] | (_ & r & ? & Hs & _ & _ & ->)]; [simplify_eq; lia|].
    cbn in Hl. destruct (wf_lease _ Hwf _ _ Hl) as (r' & ? & ? & _). congruence.
  - subst. apply retire_tx_ok in He as [(? & _ & _ & _ & ->) | (_ & r & ? & [[_ ->] | (_ & _ & ->)])];
      [simplify_eq; lia | cbn in Hrow1; simplify_eq; lia|].
    cbn in Hl. by rewrite lookup_delete_eq in Hl.
  - subst. apply relocate_tx_ok in He as [(? & _ & _ & _ & _ & ->) | (_ & r & ? & _ & _ & _ & ->)];
      [simplify_eq; lia|]. cbn in Hl. by rewrite lookup_delete_eq in Hl.
Qed.

(** tunnel fencing. When a claim, a tunnel bearer rotation, a move or a
    retirement advanced the generation of an installation, no generation
    handed out before it is ever current again: the gateway check fails for
    it at any later time, on any gateway, after any requests. *)
Theorem superseded_tunnel_never_current now r d d1 t d2 id row row1 g gateway now' :
  invariant d -> typed r -> fences_tunnel r id -> exec cfg now r d = Ok (tt, d1) ->
  d_installations d !! id = Some row -> d_installations d1 !! id = Some row1 ->
  i_generation row < i_generation row1 -> 0 <= g <= i_generation row ->
  history cfg now d1 t d2 -> lease_is_current now' id gateway g d2 = false.
Proof.
  intros [Hwf _] Ht Hr He Hrow Hrow1 Hlt Hg Hh.
  assert (fenced id g d1) as Hf.
  { split; [exists row1; split; [done | lia]|]. intros l Hl.
    rewrite (fencing_lease now r d d1 id row row1 l) by done. lia. }
  eapply history_fenced in Hf as [_ Hf]; [|exact Hh].
  apply bool_decide_eq_false. intros [l Hl]. apply current_lease_Some in Hl as (Hl & _ & Hgen & _).
  destruct (wf_rows _ Hwf _ _ Hrow) as (? & _). rewrite u64_as_i64_id in Hgen by lia. by apply (Hf l).
Qed.

(** ** Retirement *)

(** C28: retirement is final. Once an installation is retired, then after any
    history it has no hostname to serve, no bearer of it authenticates, no
    tunnel is current, its challenge set is empty, and claiming a tunnel,
    ensuring a challenge value, renewing a bearer afresh or binding an account
    fails. *)
Theorem retirement_is_final t d t' d' id :
  invariant d -> retired_in id d -> history cfg t d t' d' ->
  hostname_of id d' = None /\
  (forall now scope bearer, authenticate_bearer now id scope bearer d' = None) /\
  (forall now gateway g, lease_is_current now id gateway g d' = false) /\ members id d' = ∅ /\
  (forall now gateway ttl, is_err (claim_tunnel_tx now id gateway ttl d') = true) /\
  (forall now g txt, is_err (ensure_challenge_value_tx now id g txt d') = true) /\
  (forall now op scope g token hash, d_operations d' !! op = None ->
     is_err (renew_bearer_tx cfg now id op scope g token hash d') = true) /\
  (forall now uri, is_err (register_acme_account_tx cfg now id uri d') = true).
Proof.
  intros Hinv Hr Hh.
  pose proof (proj1 (history_history_le cfg _ _ _ _ Hh)) as Hle.
  destruct (retired_in_stays _ _ _ Hle Hr) as (row & Hrow & Hst).
  eapply history_invariant in Hinv as [Hwf _]; [|exact Hh].
  assert (forall cond, (forall r, cond r = true -> i_state r <> Retired) ->
    select_installation id cond d' = None) as Hsel.
  { intros cond Hc. unfold select_installation. rewrite Hrow. cbn. destruct (cond row) eqn:E; [|done].
    by apply Hc in E. }
  assert (select_installation id is_dns_ready d' = None) as Hdns.
  { apply Hsel. intros r Hd%is_dns_ready_true. congruence. }
  assert (forall A (x : result StoreError (A * Db)), (forall a e, x <> Ok (a, e)) -> is_err x = true) as Herr.
  { intros A [[a e]|] Hx; [by destruct (Hx a e) | done]. }
  split_and!.
  - unfold hostname_of. by rewrite Hdns.
  - intros now scope bearer. unfold authenticate_bearer. rewrite Hdns. by case_match.
  - intros now gateway g. apply bool_decide_eq_false. intros [l Hl].
    apply current_lease_Some in Hl as (Hl & _). rewrite (no_lease d' id row Hwf Hrow) in Hl; congruence.
  - apply set_eq. intros k. rewrite elem_of_members, elem_of_empty. split; [|done]. intros [<- [e He]].
    destruct k as [k txt]. cbn in *. rewrite (no_values d' k row txt Hwf Hrow) in He; congruence.
  - intros now gateway ttl. apply Herr. intros a e (_ & r & ? & ? & _)%claim_tunnel_tx_ok. congruence.
  - intros now g txt. apply Herr. intros a e (_ & (r & ? & ?) & _)%ensure_challenge_value_tx_ok. congruence.
  - intros now op scope g token hash Hop. apply Herr.
    intros a e (_ & [(? & ? & _) | (r & c & _ & ? & ? & _)])%renew_bearer_tx_ok; congruence.
  - intros now uri. apply Herr. intros a e (_ & r & ? & ? & _)%register_acme_account_tx_ok. congruence.
Qed.

(** ** Hostnames *)
Lemma allocate_row now op key placement new_id random d a d' :
  allocate_tx now op key placement new_id random d = Ok (a, d') ->
  exists row, d_installations d' !! a_installation_id a = Some row /\ i_hostname row = a_hostname a.
Proof.
  intros (_ & [(o & row & _ & ? & _ & _ & -> & ->) | (_ & _ & _ & _ & _ & -> & ->)])%allocate_tx_ok.
  - by exists row.
  - eexists. cbn. by rewrite lookup_insert_eq.
Qed.

(** a hostname is never given to two installations. Whatever happens
    between two allocations (retirement of the first included), equal
    hostnames mean the same installation; and every allocated hostname is a
    valid relay name. *)
Theorem hostname_names_one_installation now op key p id random d a d1 t d2
    op' key' p' id' random' a' d3 :
  invariant d -> List.length key = 32%nat -> List.length random = 16%nat ->
  List.length key' = 32%nat -> List.length random' = 16%nat ->
  allocate_tx now op key p id random d = Ok (a, d1) -> history cfg now d1 t d2 ->
  allocate_tx t op' key' p' id' random' d2 = Ok (a', d3) ->
  validate_hostname (a_hostname a) = Ok tt /\
  (a_hostname a = a_hostname a' -> a_installation_id a = a_installation_id a').
Proof.
  intros Hinv Hk Hr Hk' Hr' Ha Hh Ha'.
  assert (exec cfg now (Allocate op key p id random) d = Ok (tt, d1)) as He.
  { cbn [exec]. unfold void. apply tx_bind_ok. eauto. }
  assert (exec cfg t (Allocate op' key' p' id' random') d2 = Ok (tt, d3)) as He'.
  { cbn [exec]. unfold void. apply tx_bind_ok. eauto. }
  assert (history cfg now d1 t d3) as Hh3.
  { clear -Hh He' Hk' Hr'. induction Hh; [|by eapply history_tick; eauto|by eapply history_step; eauto].
    eapply history_step; [|apply history_refl]. eexists. split; [|exact He']. by split. }
  assert (invariant d1) as Hinv1.
  { destruct Hinv. split; [eapply exec_WF; [|exact He|done]; by split | by eapply exec_fence]. }
  pose proof (history_invariant cfg _ _ _ _ Hh3 Hinv1) as [Hwf3 _].
  apply allocate_row in Ha as (row & Hrow & Hhost). apply allocate_row in Ha' as (row' & Hrow' & Hhost').
  split.
  - destruct Hinv1 as [Hwf1 _]. destruct (wf_rows _ Hwf1 _ _ Hrow) as (_ & Hv & _).
    rewrite <-Hhost. by destruct (validate_hostname (i_hostname row)) as [[]|].
  - intros Heq. apply history_history_le in Hh3 as [Hle _].
    destruct (row_grows _ _ _ _ Hle Hrow) as (row2 & Hrow2 & (Hh2 & _)).
    pose proof (proj2 (wf_hosts _ Hwf3 (a_hostname a) (a_installation_id a))
      (ex_intro _ row2 (conj Hrow2 (eq_trans Hh2 Hhost)))) as Hr1.
    pose proof (proj2 (wf_hosts _ Hwf3 (a_hostname a') (a_installation_id a'))
      (ex_intro _ row' (conj Hrow' Hhost'))) as Hr2.
    rewrite Heq in Hr1. congruence.
Qed.

(** ** Replays *)

(** Bearer lifetimes that [credential_windows] accepted. *)
Definition windows_ok : Prop :=
  credential_windows (validity (credential_windows_of cfg)) (renewal_grace (credential_windows_of cfg))
  = Ok (credential_windows_of cfg).

Lemma windows_ok_secs : windows_ok -> 43200 <= secs (validity (credential_windows_of cfg)) <= 86400.
Proof.
  unfold windows_ok, credential_windows. intros Hw. inv_ok. to_prop.
  repeat match goal with Hd : duration_le _ _ = true |- _ =>
    unfold duration_le, MIN_VALIDITY, MAX_VALIDITY, MAX_RENEWAL_GRACE in Hd; cbn in Hd end. lia.
Qed.

Lemma epoch_ms_range t : 0 <= t <= 2 * i64_max -> 0 <= epoch_ms t <= i64_max.
Proof.
  intros Ht. unfold epoch_ms, round_div. rewrite (proj2 (Z.leb_le _ _)) by lia. unfold i64_max in *.
  change (1000 / 2) with 500. split; [apply Z.div_pos; lia|]. apply Z.div_le_upper_bound; lia.
Qed.

Lemma receipt_roundtrip g e :
  0 <= g <= i64_max -> 0 <= e <= i64_max -> receipt_of_json (receipt_json g e) = Ok (i64_as_u64 g, i64_as_u64 e).
Proof.
  intros Hg He. unfold receipt_of_json.
  assert (jget "generation" (receipt_json g e) = JNum g) as -> by reflexivity.
  assert (jget "expires_at_ms" (receipt_json g e) = JNum e) as -> by reflexivity.
  unfold as_u64. rewrite !i64_as_u64_id by done. unfold i64_max, u64_max in *.
  rewrite !(proj2 (in_range_true _ _ _)) by lia. done.
Qed.

(** The operation a fresh rotation records replays to its own receipt. *)
Lemma rotation_receipt now id kind digest g lifetime :
  0 <= g <= i64_max -> 0 <= now <= i64_max -> 0 <= lifetime <= 86400 ->
  receipt_of_json (o_result (rotation_operation now id kind digest g (now + seconds lifetime))) =
  Ok (i64_as_u64 g, i64_as_u64 (epoch_ms (now + seconds lifetime))).
Proof.
  intros. cbn. apply receipt_roundtrip; [done|]. apply epoch_ms_range. unfold seconds, i64_max in *. lia.
Qed.

Lemma lookup_rotated now id op scope kind digest g hash lifetime aop event d :
  d_operations (rotated now id op scope kind digest g hash lifetime aop event d) !! op =
  Some (rotation_operation now id kind digest g (now + seconds lifetime)).
Proof. unfold rotated, cut_lease. case_bool_decide; cbn; by rewrite lookup_insert_eq. Qed.

Lemma operation_persists t d t' d' op o :
  history cfg t d t' d' -> d_operations d !! op = Some o -> d_operations d' !! op = Some o.
Proof. intros [[_ Ho _ _ _] _]%history_history_le Hop. by eapply lookup_weaken. Qed.

Lemma replay_ok existing id kind digest fresh r d :
  o_installation_id existing = id -> o_kind existing = kind -> o_request_digest existing = digest ->
  fresh = true -> receipt_of_json (o_result existing) = Ok r ->
  replay_receipt existing id kind digest fresh d = Ok (r, d).
Proof.
  intros <- <- <- -> Hr. unfold replay_receipt, tx_reject, reject_if, tx_lift.
  rewrite !bool_decide_eq_true_2 by done. cbn. by rewrite Hr.
Qed.

(** issuing a bearer is idempotent. Repeating the operation at any later
    time, after any requests, returns the receipt of the first call and
    changes nothing. *)
Theorem issue_bearer_idempotent now now' id op scope hash vs d r d1 t d2 :
  invariant d -> windows_ok -> 0 <= now <= i64_max -> d_operations d !! op = None ->
  issue_bearer_tx cfg now id op scope hash vs d = Ok (r, d1) -> history cfg now d1 t d2 ->
  issue_bearer_tx cfg now' id op scope hash vs d2 = Ok (r, d2).
Proof.
  intros [Hwf _] Hw Hnow Hop Hi Hh. pose proof (windows_ok_secs Hw).
  apply issue_bearer_tx_ok in Hi as (Hs & Hv & [(? & ? & _) | (row & _ & Hrow & _ & Hlt & -> & ->)]);
    [congruence|].
  destruct (wf_rows _ Hwf _ _ Hrow) as (? & _).
  pose proof (operation_persists _ _ _ _ op _ Hh (lookup_rotated _ _ _ _ _ _ _ _ _ _ _ _)) as Ho.
  unfold issue_bearer_tx. apply tx_bind_ok. exists tt, d2. split.
  { apply tx_reject_ok. rewrite Hs, (proj2 (in_range_true _ _ _) Hv). done. }
  apply tx_bind_ok. eexists _, d2. split; [done|]. cbn beta. rewrite Ho.
  apply replay_ok; try done. apply rotation_receipt; lia.
Qed.

(** renewing a bearer is idempotent for five minutes: a client that lost
    the response gets the same receipt again, and the bearer is not rotated
    twice. *)
Theorem renew_bearer_idempotent now now' id op scope g token hash d r d1 t d2 :
  invariant d -> windows_ok -> 0 <= now <= i64_max -> d_operations d !! op = None ->
  now' - minutes 5 < now ->
  renew_bearer_tx cfg now id op scope g token hash d = Ok (r, d1) -> history cfg now d1 t d2 ->
  renew_bearer_tx cfg now' id op scope g token hash d2 = Ok (r, d2).
Proof.
  intros [Hwf _] Hw Hnow Hop Hfresh Hi Hh. pose proof (windows_ok_secs Hw).
  assert (token_length_ok token = true) as Htok.
  { unfold renew_bearer_tx in Hi. apply tx_bind_ok in Hi as (? & ? & Hg & _). inv_tx. by to_prop. }
  apply renew_bearer_tx_ok in Hi as
    (Hs & [(? & ? & _) | (row & c & _ & Hrow & _ & Hlt & _ & _ & -> & ->)]); [congruence|].
  destruct (wf_rows _ Hwf _ _ Hrow) as (? & _).
  pose proof (operation_persists _ _ _ _ op _ Hh (lookup_rotated _ _ _ _ _ _ _ _ _ _ _ _)) as Ho.
  unfold renew_bearer_tx. apply tx_bind_ok. exists tt, d2. split.
  { apply tx_reject_ok. by rewrite Hs, Htok. }
  apply tx_bind_ok. eexists _, d2. split; [done|]. cbn beta. rewrite Ho.
  apply replay_ok; try done; [by apply Z.ltb_lt|]. apply rotation_receipt; lia.
Qed.

(** retiring and moving are idempotent: repeating either operation later,
    even after other requests changed the installation, succeeds and changes
    nothing. *)
Theorem retire_and_relocate_idempotent now now' r d d1 t d2 :
  (exists id op, r = Retire id op) \/ (exists id op placement, r = Relocate id op placement) ->
  exec cfg now r d = Ok (tt, d1) -> history cfg now d1 t d2 -> exec cfg now' r d2 = Ok (tt, d2).
Proof.
  intros [(id & op & ->) | (id & op & placement & ->)] He Hh; cbn [exec] in *.
  - assert (exists o, d_operations d1 !! op = Some o /\ o_installation_id o = id /\ o_kind o = "retire")
      as (o & Ho & Hid & Hk).
    { apply retire_tx_ok in He as [(o & ? & ? & ? & ->) | (_ & row & _ & [[_ ->] | (_ & _ & ->)])]; [eauto|..];
        (eexists; cbn; by rewrite lookup_insert_eq). }
    apply (operation_persists _ _ _ _ _ _ Hh) in Ho. unfold retire_tx. apply tx_bind_ok.
    eexists _, d2. split; [done|]. cbn beta. rewrite Ho. apply tx_reject_ok.
    by rewrite !bool_decide_eq_true_2 by done.
  - assert (valid_placement placement = true) as Hv.
    { unfold relocate_tx in He. apply tx_bind_ok in He as (? & ? & Hg & _). inv_tx. by to_prop. }
    assert (exists o, d_operations d1 !! op = Some o /\ o_installation_id o = id /\ o_kind o = "relocate" /\
      o_request_digest o = relocation_digest id placement) as (o & Ho & Hid & Hk & Hd).
    { apply relocate_tx_ok in He as [(o & ? & ? & ? & ? & ->) | (_ & row & _ & _ & _ & _ & ->)]; [eauto|].
      eexists. cbn. by rewrite lookup_insert_eq. }
    apply (operation_persists _ _ _ _ _ _ Hh) in Ho. unfold relocate_tx. apply tx_bind_ok.
    exists tt, d2. split; [apply tx_reject_ok; by rewrite Hv|]. apply tx_bind_ok.
    eexists _, d2. split; [done|]. cbn beta. rewrite Ho. apply tx_reject_ok.
    by rewrite !bool_decide_eq_true_2 by done.
Qed.

(** ** Challenge sets *)
Lemma elem_of_challenge_target id d rev values txt :
  challenge_target id d = (rev, values) -> txt ∈ values <-> is_Some (d_challenge_values d !! (id, txt)).
Proof.
  unfold challenge_target. intros [= _ <-]. rewrite merge_sort_Permutation, list_elem_of_fmap. split.
  - intros ([[k t] e] & -> & Hin). apply elem_of_map_to_list, map_lookup_filter_Some in Hin as [Hv Hid].
    cbn in *. subst. eauto.
  - intros [e He]. exists ((id, txt), e). split; [done|]. apply elem_of_map_to_list.
    by apply map_lookup_filter_Some.
Qed.

Lemma NoDup_same_owner (id : Uuid) (l : list ((Uuid * string) * Z)) :
  Forall (fun kv => kv.1.1 = id) l -> NoDup l.*1 -> NoDup ((fun kv => kv.1.2) <$> l).
Proof.
  induction l as [|[[k t] e] l IH]; [constructor|]. cbn.
  intros [Hk Hid]%Forall_cons [Hn Hnd]%NoDup_cons. cbn in Hk. subst k.
  apply NoDup_cons. split; [|by apply IH]. intros ([[k t'] e'] & Ht & Hin')%list_elem_of_fmap.
  cbn in Ht. subst t'. apply Hn, list_elem_of_fmap. rewrite Forall_forall in Hid.
  pose proof (Hid _ Hin') as Hk. cbn in Hk. subst. by exists ((id, t), e').
Qed.

(** the set handed to the DNS worker is always publishable: at most two
    values, all distinct and of the DNS-01 form; and none for an installation
    that is not ready. *)
Theorem challenge_target_publishable now d id rev values :
  reachable cfg now d -> challenge_target id d = (rev, values) ->
  (List.length values <= 2)%nat /\ NoDup values /\
  Forall (fun v => validate_challenge_value v = Ok tt) values /\
  (values <> [] -> exists row, d_installations d !! id = Some row /\ i_state row = DnsReady).
Proof.
  intros [Hwf _]%reachable_invariant Ht.
  pose proof (elem_of_challenge_target id d rev values) as Hin. specialize (fun txt => Hin txt Ht).
  unfold challenge_target in Ht. injection Ht as _ Hv. split_and!.
  - rewrite <-Hv, merge_sort_Permutation, length_fmap, length_map_to_list. apply (wf_count _ Hwf).
  - rewrite <-Hv, merge_sort_Permutation.
    assert (Forall (fun kv : (Uuid * string) * Z => kv.1.1 = id) (map_to_list (values_of id d))) as Hid.
    { apply Forall_forall. intros [[k t] e] Hkv. by apply elem_of_map_to_list, map_lookup_filter_Some in Hkv as [_ ?]. }
    exact (NoDup_same_owner id _ Hid (NoDup_fst_map_to_list (values_of id d))).
  - apply Forall_forall. intros txt [e He]%Hin. by destruct (wf_values _ Hwf _ _ _ He) as [? _].
  - intros Hne. destruct values as [|txt l]; [done|].
    destruct (proj1 (Hin txt) ltac:(by left)) as [e He].
    by destruct (wf_values _ Hwf _ _ _ He) as (_ & _ & ?).
Qed.

Lemma rev_of_range id d : WF d -> 0 <= rev_of id d <= i64_max.
Proof.
  intros Hwf. unfold rev_of. destruct (d_challenge_state d !! id) as [s|] eqn:Hs; cbn; [|unfold i64_max; lia].
  by destruct (wf_states _ Hwf _ _ Hs) as [? _].
Qed.

(** readiness is never reported for a value that was not published. The
    worker reads the target set, publishes and observes it, and records its
    revision; if the record is accepted, then a value is reported ready only
    if it is in the set that was read, whatever requests ran in between; and
    unless the installation was retired meanwhile the stored set is exactly
    the one that was read. *)
Theorem ready_value_was_published t d id rev values t1 d1 d2 now q txt :
  invariant d -> challenge_target id d = (rev, values) -> history cfg t d t1 d1 ->
  mark_challenge_reconciled_tx id rev d1 = Ok (true, d2) ->
  (challenge_value_ready now id txt q d2 = Ok true -> txt ∈ values) /\
  (retired_in id d1 \/ members id d2 = members id d).
Proof.
  intros Hinv Ht Hh Hm. destruct Hinv as [Hwf Hf].
  pose proof (rev_of_range id d Hwf) as Hrange.
  pose proof (history_set_evolves _ _ _ _ id Hh (conj Hwf Hf)) as [Hle Heq].
  pose proof (history_invariant cfg _ _ _ _ Hh (conj Hwf Hf)) as [Hwf1 _].
  assert (rev = rev_of id d) as Hrev.
  { unfold challenge_target in Ht. injection Ht as <- _. by rewrite i64_as_u64_id. }
  assert (rev_of id d1 = rev_of id d /\ d_challenge_values d2 = d_challenge_values d1) as [Hsame Hvals].
  { unfold mark_challenge_reconciled_tx in Hm. unfold rev_of at 1.
    destruct (d_challenge_state d1 !! id) as [s|]; [|done]. destruct (_ =? _) eqn:Hs; [|done].
    injection Hm as <-. apply Z.eqb_eq in Hs. rewrite Hrev, u64_as_i64_id in Hs by done. done. }
  assert (members id d2 = members id d1) as Hmem by (unfold members, values_of; by rewrite Hvals).
  specialize (Heq Hsame).
  assert (forall v, is_Some (d_challenge_values d2 !! (id, v)) -> is_Some (d_challenge_values d !! (id, v))) as Hsub.
  { intros v Hv. destruct Heq as [Heq | (row & Hrow & Hst)].
    - assert ((id, v) ∈ members id d) as Hin; [|by apply elem_of_members in Hin as [_ ?]].
      rewrite <-Heq, <-Hmem. by apply elem_of_members.
    - rewrite Hvals in Hv. destruct Hv as [e He]. rewrite (no_values d1 id row v Hwf1 Hrow) in He; congruence. }
  split.
  - intros Hr. apply (elem_of_challenge_target id d rev values txt Ht), Hsub.
    unfold challenge_value_ready in Hr. case_match; [done|]. inv_ok. to_prop.
    destruct (d_challenge_state d2 !! id); [|done]. to_prop. unfold is_live in *.
    destruct (d_challenge_values d2 !! (id, txt)); [eauto | done].
  - destruct Heq as [Heq | Hr]; [right; congruence | by left].
Qed.

(** ** Enabled requests succeed *)

Lemma issue_bearer_tx_succeeds `{!Sha256Length} now id op scope bearer vs d row :
  WF d -> d_installations d !! id = Some row -> i_state row <> Retired ->
  i_generation row < i64_max -> d_revision d < i64_max -> d_operations d !! op = None ->
  bearer_scope scope = true -> 60 <= vs <= 86400 -> windows_ok ->
  issue_bearer_tx cfg now id op scope (sha256 (str_bytes bearer)) vs d =
    Ok ((i_generation row + 1,
         i64_as_u64 (epoch_ms (now + seconds (Z.min vs (secs (validity (credential_windows_of cfg))))))),
        issued cfg now id op scope (sha256 (str_bytes bearer)) vs row d).
Proof.
  intros Hwf Hrow Hst Hlt Hrev Hop Hsc Hvs Hw. pose proof (windows_ok_secs Hw).
  destruct (wf_rows _ Hwf _ _ Hrow) as (Hgen & _).
  assert (d_credentials d !! (id, scope, i_generation row + 1) = None) as Hfresh.
  { destruct (d_credentials d !! _) as [c|] eqn:Hc; [|done].
    destruct (wf_cred _ Hwf _ _ _ _ Hc) as (_ & _ & r & ? & ?). simplify_eq. lia. }
  rewrite <- (i64_as_u64_id (i_generation row + 1)) at 1 by lia.
  unfold issue_bearer_tx. apply tx_bind_ok. exists tt, d. split.
  { apply tx_reject_ok. by rewrite Hsc, (proj2 (in_range_true _ _ _) Hvs). }
  apply tx_bind_ok. exists None, d. split; [unfold tx_gets; by rewrite Hop|]. cbn beta iota.
  apply tx_bind_ok. eexists _, _. split.
  { apply (update_installation_intro id not_retired next_generation row
      (set_generation (i_generation row + 1) row)); [done | | by apply next_generation_intro].
    unfold not_retired. by rewrite bool_decide_eq_false_2. }
  apply tx_bind_ok. eexists _, _. split; [by apply tx_some_ok|].
  apply tx_bind_ok. eexists tt, _. split; [done|].
  apply finish_rotation_intro; cbn; try done; try lia; try apply sha256_length.
  - by rewrite map_lookup_imap, Hfresh.
  - rewrite lookup_insert_eq. eauto.
Qed.

(** no constraint of the schema gets in the way of a rotation. A
    well-formed issue request with a fresh operation id for an installation
    that is not retired succeeds, returns the next generation, and (once the
    installation is ready) the new bearer authenticates at once under it. *)
Theorem issue_bearer_succeeds `{!Sha256Length} now id op scope bearer vs d row :
  invariant d -> d_installations d !! id = Some row -> i_state row <> Retired ->
  i_generation row < i64_max -> d_revision d < i64_max -> d_operations d !! op = None ->
  bearer_scope scope = true -> token_length_ok bearer = true -> 60 <= vs <= 86400 -> windows_ok ->
  exists e d', issue_bearer_tx cfg now id op scope (sha256 (str_bytes bearer)) vs d =
                 Ok ((i_generation row + 1, e), d') /\
    (i_state row = DnsReady -> authenticate_bearer now id scope bearer d' = Some (i_generation row + 1)).
Proof.
  intros [Hwf _] Hrow Hst Hlt Hrev Hop Hsc Htok Hvs Hw. pose proof (windows_ok_secs Hw).
  destruct (wf_rows _ Hwf _ _ Hrow) as (Hgen & _).
  set (hash := sha256 (str_bytes bearer)).
  set (lt := Z.min vs (secs (validity (credential_windows_of cfg)))).
  pose proof (issue_bearer_tx_succeeds now id op scope bearer vs d row
    Hwf Hrow Hst Hlt Hrev Hop Hsc Hvs Hw) as Hi. fold hash lt in Hi.
  eexists _, _. split; [exact Hi|]. intros Hready.
  apply WF_issue in Hi as Hwf'; [|done]. set (d' := issued cfg now id op scope hash vs row d) in *.
  assert (d_installations d' !! id = Some (set_generation (i_generation row + 1) row)) as Hrow'.
  { unfold d', issued, rotated, cut_lease. case_bool_decide; cbn; by rewrite lookup_insert_eq. }
  assert (d_credentials d' !! (id, scope, i_generation row + 1) =
    Some (bearer_row hash (now + seconds lt))) as Hc'.
  { unfold d', issued, rotated, cut_lease. case_bool_decide; cbn; by rewrite lookup_insert_eq. }
  unfold authenticate_bearer. rewrite Hsc, Htok. cbn [negb orb].
  rewrite (proj2 (select_installation_Some id is_dns_ready d' _)
    (conj Hrow' (proj2 (is_dns_ready_true (set_generation (i_generation row + 1) row)) Hready))). cbn -[i64_as_u64].
  assert (live_credential now hash (bearer_row hash (now + seconds lt))) as Hlive.
  { split_and!; cbn; try done. unfold lt, seconds. lia. }
  fold hash. pose proof (best_generation_spec now id scope hash d') as Hb.
  destruct (best_generation now id scope hash d') as [g|]; cbn -[i64_as_u64].
  - destruct Hb as [(c & Hc & _) Hmax]. specialize (Hmax _ _ Hc' Hlive).
    destruct (wf_cred _ Hwf' _ _ _ _ Hc) as (_ & _ & r & Hr & Hle). rewrite Hrow' in Hr. injection Hr as <-.
    cbn in Hle. assert (g = i_generation row + 1) as -> by lia. rewrite i64_as_u64_id by lia. done.
  - by destruct (Hb _ _ Hc').
Qed.

(** ** Backups *)
(** The witness file of a later start, not set back since an acknowledgement. *)
Definition witness_kept `{S3} (ws ws2 : WitnessState) : Prop :=
  forall rev, read_revision (ws_file ws) = Ok (Some rev) ->
    exists rev2, read_revision (ws_file ws2) = Ok (Some rev2) /\ rev <= rev2.

(** C16: a change of authority the store acknowledged cannot be undone by
    restoring a backup. Take a request that returned success under a witness
    and changed the installations, the bearers, the hostnames taken or the set
    of challenge values, and a backup of the database from any moment before
    it. A service started on that backup refuses to start, whatever the state
    of the S3 witness, provided its witness file has not been set back since
    the acknowledgement. (Changes of other tables, such as a nonce, an
    outbox job's progress or an observed revision, do not all advance the
    fence, and the theorem does not speak of them.) *)
Theorem acknowledged_change_survives_restore `{S3Laws} ae ae' t0 backup t1 now r w w' ws' se ws2 :
  reachable cfg t0 backup -> history cfg t0 backup t1 (w_db w) ->
  run_tx ae (exec cfg now r) w = (Ok tt, w') -> w_witness w' = Some ws' -> held (w_db w') <> held (w_db w) ->
  se_witness se = Ok ws2 -> witness_kept ws' ws2 ->
  is_err (connect_runtime_with_witness se ae' backup) = true.
Proof.
  intros Hb Hh Hrun Hws Hheld Hse Hkept. apply reachable_invariant in Hb.
  pose proof (history_le_fence _ _ (proj1 (history_history_le cfg _ _ _ _ Hh))) as Hle.
  apply run_tx_ok in Hrun as Hx. destruct Hx as (d' & Hx & Hack). apply acknowledge_db in Hack. cbn in Hack.
  rewrite <- Hack in Hx. pose proof (effect_advances _ _ _ (exec_effect cfg _ _ _ _ Hx) Hheld) as Hlt.
  assert (fence_ok (w_db w')) as Hf.
  { eapply exec_fence; [exact Hx|]. by eapply history_invariant. }
  destruct (Hkept _ (acknowledged_file _ _ _ _ _ _ Hrun Hws Hf)) as (rev2 & Hfile & Hrev).
  eapply connect_runtime_stale; [done|done|by destruct Hb|]. lia.
Qed.
End properties.
