(* ===== verification/StoreWitnesses.v ===== *)
(** * The store's theorems on a concrete run

    Each lemma applies one theorem of the store to the sample database of
    [StoreSamples] and discharges its hypotheses by evaluation. *)

From Stdlib Require Import Ascii String Strings.Byte.
From stdpp Require Import base strings list gmap sorting.
From S2P Require Import Prelude Protocol Db Witness Store StoreCredentials StoreChallenges.
From S2P Require Import StoreLifecycle StoreBootstrap StoreOutbox StoreCt StoreHistory.
From S2P Require Import StoreInvariant StoreEffects StoreSamples StoreCtFeed StoreCleanup.
From S2P Require Import StoreProperties.

Lemma row_with {A} (f : Installation -> A) d id a :
  f <$> d_installations d !! id = Some a -> exists row, d_installations d !! id = Some row /\ f row = a.
Proof. rewrite fmap_Some. intros (row & ? & ->). eauto. Qed.

(** Moving the sample installation to another placement. *)
Definition move : Request := Relocate inst 103%N "gw-2".
Definition db_moved : Db := db_after cfg (at_second 7) [(at_second 7, move)] db_setup.
Definition retire_it : Request := Retire inst 104%N.
Definition db_retired : Db := db_after cfg (at_second 7) [(at_second 7, retire_it)] db_setup.

Lemma request_keeps_invariant_witness : invariant db_moved.
Proof.
  apply (request_keeps_invariant cfg (at_second 7) move db_setup).
  - exact I.
  - apply (exec_db_after cfg (at_second 7) move db_setup). vm_compute. reflexivity.
  - apply setup_invariant.
Defined.

Lemma history_never_undone_witness : history_le empty_db db_setup.
Proof. apply (history_never_undone cfg (at_second 0) empty_db (at_second 6)). apply setup_history. Defined.

Lemma one_bearer_authenticates_witness :
  authenticate_bearer (at_second 7) inst "tunnel" token_a db_setup = Some 2 /\ (2 : Z) = 2.
Proof.
  split; [vm_compute; reflexivity|].
  apply (one_bearer_authenticates cfg (at_second 6) db_setup (at_second 7) (at_second 8) inst "tunnel"
    token_a token_a 2 2); [apply setup_reachable | vm_compute; reflexivity..].
Defined.

Lemma rotation_fences_older_bearers_witness :
  exists g e d1, issue_bearer_tx cfg (at_second 7) inst 105%N "tunnel" (hash_of token_c) 3600 db_setup =
                   Ok ((g, e), d1) /\
    forall now bearer g', authenticate_bearer now inst "tunnel" bearer d1 = Some g' -> g <= g'.
Proof.
  destruct (tx_ok_exists (issue_bearer_tx cfg (at_second 7) inst 105%N "tunnel" (hash_of token_c) 3600) db_setup)
    as ([g e] & d1 & Hi); [vm_compute; reflexivity|].
  exists g, e, d1. split; [done|]. intros now bearer g'.
  apply (rotation_fences_older_bearers cfg (at_second 7)
    (IssueBearer inst 105%N "tunnel" (hash_of token_c) 3600) db_setup d1 (at_second 7) d1 g e inst 105%N).
  - apply setup_invariant.
  - vm_compute. reflexivity.
  - left. eexists _, _. split; [reflexivity | exact Hi].
  - vm_compute. reflexivity.
  - constructor.
Defined.

Lemma superseded_tunnel_never_current_witness :
  lease_is_current (at_second 8) inst "gw-1" 4 db_setup = true /\
  forall now gateway, lease_is_current now inst gateway 4 db_moved = false.
Proof.
  split; [vm_compute; reflexivity|]. intros now gateway.
  destruct (row_with i_generation db_setup inst 4) as (row & Hr & Hg); [vm_compute; reflexivity|].
  destruct (row_with i_generation db_moved inst 5) as (row' & Hr' & Hg'); [vm_compute; reflexivity|].
  apply (superseded_tunnel_never_current cfg (at_second 7) move db_setup db_moved (at_second 7) db_moved
    inst row row').
  - apply setup_invariant.
  - exact I.
  - reflexivity.
  - apply (exec_db_after cfg (at_second 7) move db_setup). vm_compute. reflexivity.
  - exact Hr.
  - exact Hr'.
  - rewrite Hg, Hg'. reflexivity.
  - rewrite Hg. split; discriminate.
  - constructor.
Defined.

Lemma retirement_is_final_witness :
  hostname_of inst db_setup <> None /\ hostname_of inst db_retired = None /\
  forall now bearer, authenticate_bearer now inst "tunnel" bearer db_retired = None.
Proof.
  split; [vm_compute; discriminate|].
  destruct (retirement_is_final cfg (at_second 7) db_retired (at_second 7) db_retired inst)
    as (Hh & Ha & _).
  - apply (history_invariant cfg (at_second 7) db_setup (at_second 7)); [|apply setup_invariant].
    eapply history_step; [|constructor]. exists retire_it. split; [exact I|].
    apply (exec_db_after cfg (at_second 7) retire_it db_setup). vm_compute. reflexivity.
  - apply (row_with i_state). vm_compute. reflexivity.
  - constructor.
  - split; [exact Hh | intros now bearer; apply Ha].
Defined.

Lemma cfg_windows_ok : windows_ok cfg.
Proof. vm_compute. reflexivity. Qed.

Lemma now_in_range n : 0 <= n <= 1000 -> 0 <= at_second n <= i64_max.
Proof. unfold at_second, seconds, i64_max. lia. Qed.

Lemma hostname_names_one_installation_witness :
  exists a d1 a' d3,
    allocate_tx (at_second 0) 100%N key32 "gw-1" inst random16 empty_db = Ok (a, d1) /\
    allocate_tx (at_second 0) 200%N key32 "gw-1" 8%N (replicate 16 Byte.x5b) d1 = Ok (a', d3) /\
    validate_hostname (a_hostname a) = Ok tt /\
    (a_hostname a = a_hostname a' -> a_installation_id a = a_installation_id a').
Proof.
  set (d0 := db_after cfg (at_second 0) (take 1 setup) empty_db).
  assert (exists a, allocate_tx (at_second 0) 100%N key32 "gw-1" inst random16 empty_db = Ok (a, d0)) as [a Ha].
  { assert (exec cfg (at_second 0) (Allocate 100%N key32 "gw-1" inst random16) empty_db = Ok (tt, d0)) as He.
    { apply (exec_db_after cfg (at_second 0)). vm_compute. reflexivity. }
    apply void_ok in He. exact He. }
  destruct (tx_ok_exists (allocate_tx (at_second 0) 200%N key32 "gw-1" 8%N (replicate 16 Byte.x5b)) d0)
    as (a' & d3 & Ha'); [vm_compute; reflexivity|].
  exists a, d0, a', d3. split; [done|]. split; [done|].
  apply (hostname_names_one_installation cfg (at_second 0) 100%N key32 "gw-1" inst random16 empty_db a d0
    (at_second 0) d0 200%N key32 "gw-1" 8%N (replicate 16 Byte.x5b) a' d3);
    [apply empty_invariant | reflexivity | reflexivity | reflexivity | reflexivity | exact Ha | constructor
    | exact Ha'].
Defined.

Lemma issue_bearer_idempotent_witness :
  exists r d1, issue_bearer_tx cfg (at_second 7) inst 105%N "tunnel" (hash_of token_c) 3600 db_setup = Ok (r, d1) /\
    issue_bearer_tx cfg (at_second 900) inst 105%N "tunnel" (hash_of token_c) 3600 d1 = Ok (r, d1).
Proof.
  destruct (tx_ok_exists (issue_bearer_tx cfg (at_second 7) inst 105%N "tunnel" (hash_of token_c) 3600) db_setup)
    as (r & d1 & Hi); [vm_compute; reflexivity|].
  exists r, d1. split; [done|].
  apply (issue_bearer_idempotent cfg (at_second 7) (at_second 900) inst 105%N "tunnel" (hash_of token_c) 3600
    db_setup r d1 (at_second 7) d1); [apply setup_invariant | apply cfg_windows_ok | apply now_in_range; lia
    | vm_compute; reflexivity | exact Hi | constructor].
Defined.

Lemma renew_bearer_idempotent_witness :
  exists r d1, renew_bearer_tx cfg (at_second 7) inst 106%N "tunnel" 2 token_a (hash_of token_c) db_setup = Ok (r, d1) /\
    renew_bearer_tx cfg (at_second 200) inst 106%N "tunnel" 2 token_a (hash_of token_c) d1 = Ok (r, d1).
Proof.
  destruct (tx_ok_exists (renew_bearer_tx cfg (at_second 7) inst 106%N "tunnel" 2 token_a (hash_of token_c)) db_setup)
    as (r & d1 & Hi); [vm_compute; reflexivity|].
  exists r, d1. split; [done|].
  apply (renew_bearer_idempotent cfg (at_second 7) (at_second 200) inst 106%N "tunnel" 2 token_a (hash_of token_c)
    db_setup r d1 (at_second 7) d1); [apply setup_invariant | apply cfg_windows_ok | apply now_in_range; lia
    | vm_compute; reflexivity | vm_compute; reflexivity | exact Hi | constructor].
Defined.

Lemma retire_and_relocate_idempotent_witness :
  exec cfg (at_second 7) retire_it db_setup = Ok (tt, db_retired) /\
  exec cfg (at_second 900) retire_it db_retired = Ok (tt, db_retired).
Proof.
  assert (exec cfg (at_second 7) retire_it db_setup = Ok (tt, db_retired)) as He.
  { apply (exec_db_after cfg (at_second 7) retire_it db_setup). vm_compute. reflexivity. }
  split; [exact He|].
  apply (retire_and_relocate_idempotent cfg (at_second 7) (at_second 900) retire_it db_setup db_retired
    (at_second 7) db_retired); [left; eexists _, _; reflexivity | exact He | constructor].
Defined.

Lemma challenge_target_publishable_witness :
  exists rev, challenge_target inst db_setup = (rev, [txt_value]) /\ (List.length [txt_value] <= 2)%nat.
Proof.
  assert (challenge_target inst db_setup = (1, [txt_value])) as Ht by (vm_compute; reflexivity).
  exists 1. split; [exact Ht|].
  apply (challenge_target_publishable cfg (at_second 6) db_setup inst 1 [txt_value]); [apply setup_reachable | exact Ht].
Defined.

Lemma ready_value_was_published_witness :
  exists d2, mark_challenge_reconciled_tx inst 1 db_setup = Ok (true, d2) /\
    (challenge_value_ready (at_second 8) inst txt_value 1 d2 = Ok true -> txt_value ∈ [txt_value]).
Proof.
  destruct (tx_ok_exists (mark_challenge_reconciled_tx inst 1) db_setup) as (b & d2 & Hm);
    [vm_compute; reflexivity|].
  assert (b = true) as ->.
  { assert (fst <$> mark_challenge_reconciled_tx inst 1 db_setup = Ok true) as Hb by (vm_compute; reflexivity).
    rewrite Hm in Hb. by injection Hb. }
  exists d2. split; [exact Hm|].
  apply (ready_value_was_published cfg (at_second 6) db_setup inst 1 [txt_value] (at_second 6) db_setup d2);
    [apply setup_invariant | vm_compute; reflexivity | constructor | exact Hm].
Defined.

Lemma issue_bearer_succeeds_witness :
  exists row e d', d_installations db_setup !! inst = Some row /\
    issue_bearer_tx cfg (at_second 7) inst 105%N "tunnel" (hash_of token_c) 3600 db_setup =
      Ok ((i_generation row + 1, e), d') /\
    authenticate_bearer (at_second 7) inst "tunnel" token_c d' = Some (i_generation row + 1).
Proof.
  destruct (row_with (fun r => (i_state r, i_generation r)) db_setup inst (DnsReady, 4)) as (row & Hr & Hs);
    [vm_compute; reflexivity|]. injection Hs as Hst Hg.
  destruct (issue_bearer_succeeds cfg (at_second 7) inst 105%N "tunnel" token_c 3600 db_setup row)
    as (e & d' & Hi & Ha).
  - apply setup_invariant.
  - exact Hr.
  - rewrite Hst. discriminate.
  - rewrite Hg. reflexivity.
  - vm_compute. reflexivity.
  - vm_compute. reflexivity.
  - reflexivity.
  - vm_compute. reflexivity.
  - split; discriminate.
  - apply cfg_windows_ok.
  - exists row, e, d'. split; [exact Hr|]. split; [exact Hi | exact (Ha Hst)].
Defined.

(** ** A CT feed with one unexpected certificate *)
Definition a_hostname : string := "aaaaaaaaaaaaaaaaaaaaaaaaaa.relay.bloom.directory".
Definition a_fingerprint : string := "0123456789abcdef0123456789abcdef0123456789abcdef0123456789abcdef".
Definition feed_log : list (Z * Request) :=
  [(at_second 7, EnsureCtSource "log"); (at_second 8, ObserveCt "log" 1 a_hostname a_fingerprint)].
Definition db_feed : Db := db_after cfg (at_second 6) feed_log db_setup.

Lemma feed_reachable : reachable cfg (at_second 8) db_feed.
Proof.
  exists (at_second 0). eapply history_trans; [apply setup_history|].
  refine (db_after_history cfg (at_second 6) feed_log db_setup _ _).
  - repeat constructor; discriminate.
  - vm_compute. reflexivity.
Qed.

Lemma ct_record_complete_witness : NoDup (alert_key <$> ct_alerts (d_ct db_feed)).
Proof. apply (ct_record_complete cfg (at_second 8) db_feed). apply feed_reachable. Defined.

Lemma ct_observation_idempotent_witness :
  exists d1, observe_ct_tx (at_second 9) "log" 2 a_hostname a_fingerprint db_feed = Ok (false, d1) /\
    observe_ct_tx (at_second 9) "log" 2 a_hostname a_fingerprint d1 = Ok (false, d1).
Proof.
  assert (exists d1, observe_ct_tx (at_second 9) "log" 2 a_hostname a_fingerprint db_feed = Ok (false, d1)) as [d1 Ho].
  { assert (is_ok (observe_ct_tx (at_second 9) "log" 2 a_hostname a_fingerprint db_feed) = true) as Hok
      by (vm_compute; reflexivity).
    assert (match observe_ct_tx (at_second 9) "log" 2 a_hostname a_fingerprint db_feed with
            | Ok (e, _) => e | Err _ => true end = false) as He by (vm_compute; reflexivity).
    destruct (observe_ct_tx _ _ _ _ _ _) as [[[] d1]|]; [discriminate | eauto | discriminate]. }
  exists d1. split; [exact Ho|].
  apply (ct_observation_idempotent cfg (at_second 8) db_feed (at_second 9) "log" 2 a_hostname a_fingerprint false
    d1 (at_second 9) d1 EmptyString EmptyString).
  - apply feed_reachable.
  - split; discriminate.
  - exact Ho.
  - constructor.
Defined.

(** ** Queued work *)
Lemma retired_history : history cfg (at_second 6) db_setup (at_second 7) db_retired.
Proof.
  eapply history_tick; [|refine (db_after_history cfg (at_second 7) [(at_second 7, retire_it)] db_setup _ _)].
  - by vm_compute.
  - repeat constructor.
  - vm_compute. reflexivity.
Qed.

Lemma retired_reachable : reachable cfg (at_second 7) db_retired.
Proof. exists (at_second 0). eapply history_trans; [apply setup_history | apply retired_history]. Qed.

Lemma removal_follows_publication_witness :
  removal_last "remove_records" "publish_name" inst (jobs db_retired).
Proof.
  apply (removal_follows_publication cfg (at_second 7) db_retired inst).
  - apply retired_reachable.
  - destruct (row_with i_state db_retired inst Retired) as (row & Hrow & Hs); [vm_compute; reflexivity|].
    exists row. split; [exact Hrow | exact Hs].
Defined.

Lemma queued_job_never_lost_witness :
  exists x x', x ∈ d_outbox db_setup /\ x' ∈ d_outbox db_retired /\ job_of x' = job_of x.
Proof.
  destruct (d_outbox db_setup) as [|x l] eqn:Ho.
  { exfalso. assert (List.length (d_outbox db_setup) <> 0%nat) as Hl by (vm_compute; discriminate).
    apply Hl. rewrite Ho. reflexivity. }
  assert (x ∈ d_outbox db_setup) as Hx by (rewrite Ho; left).
  destruct (queued_job_never_lost cfg (at_second 6) db_setup (at_second 7) db_retired x) as (x' & Hx' & Hj & _).
  - apply setup_reachable.
  - exact Hx.
  - apply retired_history.
  - exists x, x'. rewrite <-Ho. split; [exact Hx|]. split; [exact Hx' | exact Hj].
Defined.

(** ** The witness file of a running service *)
#[local] Existing Instance ConcreteS3.s3.
#[local] Existing Instance ConcreteS3.s3_laws.

Definition quiet_ack : AckEnv :=
  {| ae_lock := Ok tt; ae_rivals := fun _ r => r; ae_write := NoFault |}.

(** A service whose file records the current fence. *)
Definition world_setup : World :=
  {| w_db := db_setup;
     w_witness := Some {| ws_file := FsFile 432 (Ok (revision_body (restore_revision db_setup)));
                          ws_remote := None; ws_seen := None |} |}.

Definition move_run := run_tx quiet_ack (exec cfg (at_second 7) move) world_setup.

(** A later start with the same file. *)
Definition restart (ws : WitnessState) : StartEnv :=
  {| se_url_parses := true; se_password_file := None; se_versions := Ok []; se_embedded := [];
     se_witness := Ok {| ws_file := ws_file ws; ws_remote := None; ws_seen := None |} |}.

Lemma acknowledged_change_survives_restore_witness :
  exists ws', w_witness move_run.2 = Some ws' /\
    is_err (connect_runtime_with_witness (restart ws') quiet_ack db_setup) = true.
Proof.
  assert (exists ws', w_witness move_run.2 = Some ws') as [ws' Hw].
  { assert ((fun _ => tt) <$> w_witness move_run.2 = Some tt) as Hs by (vm_compute; reflexivity).
    apply fmap_Some in Hs as (ws' & ? & _). eauto. }
  exists ws'. split; [exact Hw|].
  apply (acknowledged_change_survives_restore cfg quiet_ack quiet_ack (at_second 6) db_setup (at_second 6) (at_second 7) move
    world_setup move_run.2 ws' (restart ws') {| ws_file := ws_file ws'; ws_remote := None; ws_seen := None |}).
  - apply setup_reachable.
  - apply history_refl.
  - fold move_run. assert (move_run.1 = Ok tt) as Hok by (vm_compute; reflexivity).
    rewrite <-Hok. by destruct move_run.
  - exact Hw.
  - intros Hh. apply (f_equal (fun x => i_placement <$> x.1.1.1 !! inst)) in Hh. vm_compute in Hh. discriminate Hh.
  - exact eq_refl.
  - intros rev Hrev. exists rev. split; [exact Hrev|apply Z.le_refl].
Defined.

Definition claim_run := claim_job quiet_ack (at_second 7) "gw-1" Serving (fun _ => false) world_setup.

Lemma claim_job_oldest_due_witness :
  exists x, x ∈ d_outbox db_setup /\ due (at_second 7) "gw-1" Serving db_setup x = true.
Proof.
  assert (exists x w', claim_run = (Ok (Some x), w')) as (x & w' & Hc).
  { assert (match claim_run.1 with Ok (Some _) => true | _ => false end = true) as Hs by (vm_compute; reflexivity).
    destruct claim_run as [[[x|]|] w']; [eauto | discriminate | discriminate]. }
  exists x.
  apply (claim_job_oldest_due cfg (at_second 6) db_setup (at_second 7) "gw-1" Serving (fun _ => false) quiet_ack
    world_setup (Some x) w') in Hc as (Hx & _ & Hd & _); [split; [exact Hx | exact Hd] | apply setup_reachable | exact eq_refl].
Defined.
