(* ===== verification/StoreQuotas.v ===== *)
(** * Quotas, single use and replay protection over histories

    The bootstrap challenge quotas, the single use of challenges, and the
    protection of signed requests against replay, for arbitrary histories of
    the store. *)

From Stdlib Require Import Ascii String Strings.Byte.
From stdpp Require Import base strings list gmap sorting.
From S2P Require Import Prelude Protocol Db Witness Store StoreCredentials StoreChallenges.
From S2P Require Import StoreLifecycle StoreBootstrap StoreOutbox StoreCt StoreHistory.
From S2P Require Import StoreInvariant StoreEffects StoreSamples.

(** ** Requests that leave challenges and nonces alone *)
Definition aux_eq (d d' : Db) : Prop := d_bootstrap d' = d_bootstrap d /\ d_nonces d' = d_nonces d.
#[global] Instance aux_eq_preorder : PreOrder aux_eq.
Proof. split; [done|]. unfold aux_eq. intros a b c [] []. split; congruence. Qed.

Create HintDb aux discriminated.
Lemma aux_advance : preserves aux_eq advance_restore_fence.
Proof. intros d u d' Hf. unfold advance_restore_fence in Hf. by inv_ok. Qed.
Lemma aux_audit id op event now : preserves aux_eq (insert_audit id op event now).
Proof. intros d u d' Hf. by inv_tx. Qed.
Lemma aux_outbox id kind payload now : preserves aux_eq (insert_outbox id kind payload now).
Proof. intros d u d' Hf. by inv_tx. Qed.
Lemma aux_operation op row : preserves aux_eq (insert_operation op row).
Proof. intros d u d' Hf. by inv_tx. Qed.
Lemma aux_reservation h id : preserves aux_eq (insert_reservation h id).
Proof. intros d u d' Hf. by inv_tx. Qed.
Lemma aux_credential id scope g row : preserves aux_eq (insert_credential id scope g row).
Proof. intros d u d' Hf. by inv_tx. Qed.
Lemma aux_installation id row : preserves aux_eq (insert_installation id row).
Proof. intros d u d' Hf. by inv_tx. Qed.
Lemma aux_update id cond f : preserves aux_eq (update_installation id cond f).
Proof. intros d u d' Hf. by inv_tx. Qed.
Lemma aux_bump id : preserves aux_eq (bump_revision id).
Proof. by intros d u d' [_ ->]%bump_revision_ok. Qed.
Lemma aux_value id txt e : preserves aux_eq (insert_challenge_value id txt e).
Proof. intros d u d' Hf. unfold insert_challenge_value in Hf. by inv_ok. Qed.
Lemma aux_observation source position row : preserves aux_eq (insert_observation source position row).
Proof. intros d u d' Hf. unfold insert_observation in Hf. by inv_ok. Qed.
Lemma aux_ensure_state id : preserves aux_eq (tx_modify (ensure_challenge_state id)).
Proof. apply preserves_modify. intros d. unfold ensure_challenge_state. by case_match. Qed.
Lemma aux_reconciled id revision : preserves aux_eq (mark_challenge_reconciled_tx id revision).
Proof. intros d u d' Hm. unfold mark_challenge_reconciled_tx in Hm. by inv_ok. Qed.
Lemma aux_renew_tunnel now id gateway g : preserves aux_eq (renew_tunnel_tx now id gateway g).
Proof. by intros d u d' [(_ & -> & _) | (_ & l & _ & ->)]%renew_tunnel_tx_ok. Qed.
Lemma aux_defer now n : preserves aux_eq (defer_tx now n).
Proof. intros d u d' Hd. unfold defer_tx in Hd. by inv_ok. Qed.
#[export] Hint Resolve aux_advance aux_audit aux_outbox aux_operation aux_reservation aux_credential
  aux_installation aux_update aux_bump aux_value aux_observation aux_ensure_state aux_reconciled
  aux_renew_tunnel aux_defer : aux.
#[export] Hint Extern 5 (preserves aux_eq (tx_modify _)) =>
  (apply preserves_modify; intros; split; reflexivity) : aux.

Lemma aux_checkpoint now source : preserves aux_eq (insert_checkpoint now source).
Proof. unfold insert_checkpoint, write_checkpoint. solve_preserves aux. Qed.
Lemma aux_record_observation now source position hostname fingerprint :
  preserves aux_eq (record_observation now source position hostname fingerprint).
Proof. unfold record_observation, insert_alert, write_checkpoint. solve_preserves aux. Qed.
Lemma aux_observe now source position hostname fingerprint :
  preserves aux_eq (observe_ct_tx now source position hostname fingerprint).
Proof.
  intros d r d' Ho. unfold observe_ct_tx in Ho. inv_tx.
  match goal with Hc : insert_checkpoint _ _ _ = _ |- _ => apply aux_checkpoint in Hc end.
  destruct (position <=? _) eqn:Hle; inv_tx; [done|].
  etrans; [eassumption|]. by eapply aux_record_observation.
Qed.
Lemma aux_certificate now id certificate :
  preserves aux_eq (record_expected_certificate_tx now id certificate).
Proof.
  unfold record_expected_certificate_tx. solve_preserves aux.
  apply preserves_modify. intros d. cbv zeta. by case_match.
Qed.
#[export] Hint Resolve aux_observe aux_certificate : aux.

(** What a request does to challenges and nonces. *)
Inductive aux_effect (now : Z) (d d' : Db) : Prop :=
| aux_same : aux_eq d d' -> aux_effect now d d'
| aux_create nonce source :
    (local_count now source d < 10)%nat -> (global_count now d < 100)%nat ->
    (daily_enrollments now source d < 20)%nat -> d_bootstrap d !! nonce = None ->
    d' = set_bootstrap <[nonce := challenge_row now source]> d -> aux_effect now d d'
| aux_consume nonce b :
    d_bootstrap d !! nonce = Some b -> now < b_expires_at b -> b_consumed_at b = None ->
    d' = set_bootstrap <[nonce := consume now b]> d -> aux_effect now d d'
| aux_nonce id nonce :
    d_nonces d !! (id, nonce) = None ->
    d' = set_nonces <[(id, nonce) := now + minutes 5]> d -> aux_effect now d d'
| aux_prune_challenges limit :
    d' = set_bootstrap (delete_oldest b_created_at (fun b => b_created_at b <? now - days 2) limit) d ->
    aux_effect now d d'
| aux_prune_nonces limit :
    d' = set_nonces (delete_oldest Datatypes.id (fun e => e <? now) limit) d -> aux_effect now d d'.

Section aux.
Context `{Crypto} `{Base32} (cfg : StoreConfig).

Lemma exec_aux now r d d' : exec cfg now r d = Ok (tt, d') -> aux_effect now d d'.
Proof.
  intros He. destruct r; cbn [exec] in He.
  1: { apply void_ok in He as [? He].
       apply create_bootstrap_challenge_tx_ok in He as [[_ ->] | (_ & ? & ? & ? & ? & ->)];
         [by apply aux_same | by eapply aux_create]. }
  1: { apply void_ok in He as [? He].
       apply consume_bootstrap_challenge_tx_ok in He as [[_ ->] | (_ & b & ? & _ & ? & ? & ->)];
         [by apply aux_same | by eapply aux_consume]. }
  1: { apply void_ok in He as [? He]. apply consume_nonce_tx_ok in He as [[_ ->] | (_ & _ & ? & _ & ->)];
         [by apply aux_same | by eapply aux_nonce]. }
  1: { apply void_ok in He as [? He]. apply Ok_inj, pair_inj in He as [_ <-]. by eapply aux_prune_challenges. }
  1: { apply void_ok in He as [? He]. apply Ok_inj, pair_inj in He as [_ <-]. by eapply aux_prune_nonces. }
  all: apply aux_same; revert d d' He;
    match goal with |- forall d d', ?m d = Ok (tt, d') -> _ =>
      cut (preserves aux_eq m); [intros Hp d d'; apply Hp|] end.
  all: unfold issue_bearer_tx, renew_bearer_tx, finish_rotation, replay_receipt, register_acme_account_tx,
    mark_dns_ready_tx, ensure_challenge_value_tx, challenge_set_changed, expire_challenge_values_tx, allocate_tx,
    claim_tunnel_tx, expire_pending_tx, retire_tx, relocate_tx, complete_tx, ensure_ct_source_tx,
    mark_ct_feed_healthy_tx, mark_ct_alert_delivered_tx, queue_ct_lag_alert_tx, mark_ct_lag_alert_delivered_tx,
    insert_checkpoint, write_checkpoint;
    try (apply preserves_void; [exact _|]); auto with aux; solve_preserves aux.
Qed.
End aux.

(** ** Counting rows *)
Section counting.
Context {K V : Type} `{Countable K} (P : K * V -> Prop) `{!forall x, Decision (P x)}.

Lemma size_filter_insert (m : gmap K V) k v :
  (size (filter P (<[k := v]> m)) <= (if decide (P (k, v)) then 1 else 0) + size (filter P m))%nat.
Proof.
  case_decide.
  - rewrite map_filter_insert_True by done. rewrite map_size_insert. case_match; unfold Datatypes.id; lia.
  - rewrite map_filter_insert_False by done. rewrite map_filter_delete, map_size_delete.
    case_match; unfold Datatypes.id; lia.
Qed.

Lemma size_filter_replace (m : gmap K V) k v v' :
  m !! k = Some v -> (P (k, v') <-> P (k, v)) -> size (filter P (<[k := v']> m)) = size (filter P m).
Proof.
  intros Hk HP. rewrite <-!size_dom. f_equal. apply set_eq. intros i.
  rewrite !elem_of_dom. unfold is_Some. setoid_rewrite map_lookup_filter_Some.
  destruct (decide (i = k)) as [->|Hne].
  - rewrite lookup_insert_eq, Hk. naive_solver.
  - by rewrite lookup_insert_ne.
Qed.

Lemma size_filter_mono (m m' : gmap K V) : m ⊆ m' -> (size (filter P m) <= size (filter P m'))%nat.
Proof.
  intros Hs. apply map_subseteq_size, map_subseteq_spec. intros k v [Hk Hp]%map_lookup_filter_Some.
  apply map_lookup_filter_Some. split; [by eapply lookup_weaken | done].
Qed.
End counting.

Lemma size_filter_impl {K V} `{Countable K} (P Q : K * V -> Prop)
    `{!forall x, Decision (P x)} `{!forall x, Decision (Q x)} (m : gmap K V) :
  (forall k v, m !! k = Some v -> P (k, v) -> Q (k, v)) -> (size (filter P m) <= size (filter Q m))%nat.
Proof.
  intros HPQ. apply map_subseteq_size, map_subseteq_spec. intros k v [Hk Hp]%map_lookup_filter_Some.
  apply map_lookup_filter_Some. auto.
Qed.

(** ** Challenge quotas *)

(** Challenges a source, or anyone, was issued in the minute that ends at [t]. *)
Definition in_minute (t : Z) (b : Bootstrap) : Prop := t - minutes 1 < b_created_at b <= t.
#[global] Instance in_minute_dec t b : Decision (in_minute t b).
Proof. unfold in_minute. apply _. Defined.

Definition issued_to (source : IpAddr) (t : Z) (d : Db) : nat :=
  size (filter (fun kv => b_source_ip kv.2 = source /\ in_minute t kv.2) (d_bootstrap d)).
Definition issued_in_minute (t : Z) (d : Db) : nat :=
  size (filter (fun kv => in_minute t kv.2) (d_bootstrap d)).

Record quota_ok (now : Z) (d : Db) : Prop := {
  qo_past : forall nonce b, d_bootstrap d !! nonce = Some b -> b_created_at b <= now;
  qo_source : forall source t, (issued_to source t d <= 10)%nat;
  qo_global : forall t, (issued_in_minute t d <= 100)%nat
}.

Lemma quota_ok_create now d nonce source :
  (local_count now source d < 10)%nat -> (global_count now d < 100)%nat -> quota_ok now d ->
  quota_ok now (set_bootstrap <[nonce := challenge_row now source]> d).
Proof.
  intros Hl Hg [Hp Hs Ha]. split; cbn.
  - intros n b. rewrite lookup_insert_Some. intros [[_ <-] | [_ ?]]; [done | by eapply Hp].
  - intros src t. unfold issued_to. etrans; [apply size_filter_insert|]. case_decide as Hc; [|apply Hs].
    cbn in Hc. destruct Hc as [<- Hm]. unfold in_minute in Hm. cbn in Hm.
    assert (size (filter (fun kv => b_source_ip kv.2 = source /\ in_minute t kv.2) (d_bootstrap d)) <=
      local_count now source d)%nat; [|lia].
    apply size_filter_impl. intros k b Hb [? [? ?]]. cbn in *. split; [done|]. lia.
  - intros t. unfold issued_in_minute. etrans; [apply size_filter_insert|]. case_decide as Hm; [|apply Ha].
    unfold in_minute in Hm. cbn in Hm.
    assert (size (filter (fun kv => in_minute t kv.2) (d_bootstrap d)) <= global_count now d)%nat; [|lia].
    apply size_filter_impl. intros k b Hb [? ?]. cbn in *. lia.
Qed.

Lemma quota_ok_subseteq now d m :
  m ⊆ d_bootstrap d -> quota_ok now d -> quota_ok now (set_bootstrap (fun _ => m) d).
Proof.
  intros Hm [Hp Hs Ha]. split; cbn.
  - intros n b Hb. eapply Hp. by eapply lookup_weaken.
  - intros src t. etrans; [|apply (Hs src t)]. by apply size_filter_mono.
  - intros t. etrans; [|apply (Ha t)]. by apply size_filter_mono.
Qed.

Lemma quota_ok_step now d d' : aux_effect now d d' -> quota_ok now d -> quota_ok now d'.
Proof.
  intros [[Hb Hn] | nonce source Hl Hg _ _ -> | nonce b Hb _ Hc -> | id nonce _ -> | limit -> | limit ->] Hq.
  - destruct Hq as [Hp Hs Ha]. split; unfold issued_to, issued_in_minute in *; rewrite Hb; auto.
  - by apply quota_ok_create.
  - destruct Hq as [Hp Hs Ha]. split; cbn.
    + intros n b'. rewrite lookup_insert_Some. intros [[<- <-] | [_ ?]]; [by apply (Hp _ _ Hb) | by eapply Hp].
    + intros src t. unfold issued_to. cbn. rewrite (size_filter_replace _ _ _ b) by done. apply Hs.
    + intros t. unfold issued_in_minute. cbn. rewrite (size_filter_replace _ _ _ b) by done. apply Ha.
  - destruct Hq. by split.
  - apply (quota_ok_subseteq now d), Hq. apply delete_oldest_subseteq.
  - destruct Hq. by split.
Qed.

Lemma quota_ok_later now now' d : now <= now' -> quota_ok now d -> quota_ok now' d.
Proof. intros Hle [Hp Hs Ha]. split; auto. intros n b Hb. specialize (Hp n b Hb). lia. Qed.

Lemma no_challenge n b : d_bootstrap empty_db !! n = Some b -> False.
Proof. cbn. by rewrite lookup_empty. Qed.

Lemma empty_quota now : quota_ok now empty_db.
Proof.
  split.
  - by intros n b ?%no_challenge.
  - intros src t. unfold issued_to. cbn. rewrite map_filter_empty, map_size_empty. lia.
  - intros t. unfold issued_in_minute. cbn. rewrite map_filter_empty, map_size_empty. lia.
Qed.

Section quota.
Context `{Crypto} `{Base32} (cfg : StoreConfig).

Lemma history_quota t d t' d' : history cfg t d t' d' -> quota_ok t d -> quota_ok t' d'.
Proof.
  induction 1 as [ | | ? ? ? ? ? (r & _ & Hr) ? IH]; [done | eauto using quota_ok_later|].
  intros Hq. apply IH. eapply quota_ok_step; [by eapply exec_aux | done].
Qed.

(** the bootstrap quotas hold of every window. In any reachable database
    and for any minute, at most 10 challenges were issued to one source and
    at most 100 in all, consumed and expired challenges counted. *)
Theorem bootstrap_quota now d source t :
  reachable cfg now d -> (issued_to source t d <= 10)%nat /\ (issued_in_minute t d <= 100)%nat.
Proof.
  intros [start Hh]. apply history_quota in Hh as [_ Hs Ha]; [done | apply empty_quota].
Qed.
End quota.

(** ** Single use *)

(** A challenge lives one minute. *)
Definition lifetimes_ok (d : Db) : Prop := forall nonce b,
  d_bootstrap d !! nonce = Some b -> b_expires_at b = b_created_at b + minutes 1.

Lemma lifetimes_ok_step now d d' : aux_effect now d d' -> lifetimes_ok d -> lifetimes_ok d'.
Proof.
  intros [[Hb _] | nonce source _ _ _ _ -> | nonce b Hb _ _ -> | id nonce _ -> | limit -> | limit ->] Hl n b' Hb';
    cbn in Hb'; try (by apply (Hl n)).
  - rewrite Hb in Hb'. by apply (Hl n).
  - apply lookup_insert_Some in Hb' as [[_ <-] | [_ ?]]; [done | by apply (Hl n)].
  - apply lookup_insert_Some in Hb' as [[_ <-] | [_ ?]]; [exact (Hl nonce b Hb) | by apply (Hl n)].
  - apply (Hl n). eapply lookup_weaken; [exact Hb' | apply delete_oldest_subseteq].
Qed.

(** The challenge was used, and is too recent to prune before [until]. *)
Definition used_until (until : Z) (nonce : string) (d : Db) : Prop := exists b,
  d_bootstrap d !! nonce = Some b /\ b_consumed_at b <> None /\ until - days 2 <= b_created_at b.

Lemma used_until_step until now d d' nonce :
  now <= until -> aux_effect now d d' -> used_until until nonce d -> used_until until nonce d'.
Proof.
  intros Hle [[Hb _] | n source _ _ _ Hn -> | n b' Hb' _ Hc' -> | id n _ -> | limit -> | limit ->] (b & Hb0 & Hc & Hcr);
    cbn; try (by exists b).
  - exists b. by rewrite Hb.
  - exists b. cbn. by rewrite lookup_insert_ne by congruence.
  - exists b. cbn. by rewrite lookup_insert_ne by congruence.
  - exists b. cbn. split; [|done]. apply lookup_delete_oldest_keep; [done|]. apply Z.ltb_ge. lia.
Qed.

Section single_use.
Context `{Crypto} `{Serde} `{Base32} (cfg : StoreConfig).

Lemma history_lifetimes t d t' d' : history cfg t d t' d' -> lifetimes_ok d -> lifetimes_ok d'.
Proof.
  induction 1 as [ | | ? ? ? ? ? (r & _ & Hr) ? IH]; auto. intros Hl. apply IH.
  eapply lifetimes_ok_step; [by eapply exec_aux | done].
Qed.

Lemma history_used t d t' d' until nonce :
  history cfg t d t' d' -> t' <= until -> used_until until nonce d -> used_until until nonce d'.
Proof.
  induction 1 as [ | | ? ? ? ? ? (r & _ & Hr) Hh IH]; auto. intros Hle Hu. apply IH; [done|].
  apply history_history_le in Hh as [_ Ht].
  eapply used_until_step; [|by eapply exec_aux|done]. lia.
Qed.

(** a bootstrap challenge is consumed at most once: after a successful
    consumption, no request of the next day (the challenge itself expires
    after a minute) consumes it again, from any source. *)
Theorem challenge_consumed_once now0 d now nonce source d1 t d2 source' :
  reachable cfg now0 d -> consume_bootstrap_challenge_tx now nonce source d = Ok (true, d1) ->
  history cfg now d1 t d2 -> t <= now + days 1 ->
  consume_bootstrap_challenge_tx t nonce source' d2 = Ok (false, d2).
Proof.
  intros [start Hr] Hc Hh Ht.
  assert (lifetimes_ok d) as Hl.
  { eapply history_lifetimes; [exact Hr|]. by intros n b ?%no_challenge. }
  apply consume_bootstrap_challenge_tx_ok in Hc as [[? _] | (_ & b & Hb & _ & Hexp & _ & ->)]; [done|].
  apply (history_used _ _ _ _ (now + days 1) nonce) in Hh as (b2 & Hb2 & Hc2 & _); [|done|].
  - unfold consume_bootstrap_challenge_tx. rewrite Hb2, (bool_decide_eq_false_2 (b_consumed_at b2 = None)) by done.
    by rewrite andb_false_r.
  - exists (consume now b). cbn. rewrite lookup_insert_eq. split_and!; try done.
    rewrite (Hl _ _ Hb) in Hexp. unfold days, hours, minutes, seconds in *. lia.
Qed.

(** ** Replay of signed requests *)
Lemma nonce_kept t d t' d' id nonce e :
  history cfg t d t' d' -> t' <= e -> d_nonces d !! (id, nonce) = Some e ->
  d_nonces d' !! (id, nonce) = Some e.
Proof.
  induction 1 as [ | | now d d1 ? ? (r & _ & Hr) Hh IH]; auto. intros Hle Hn. apply IH; [done|].
  apply history_history_le in Hh as [_ Ht]. apply exec_aux in Hr.
  destruct Hr as [[_ ->] | n source _ _ _ _ -> | n b _ _ _ -> | id' n Hnew -> | limit -> | limit ->]; cbn; try done.
  - rewrite lookup_insert_ne; [done|]. congruence.
  - apply lookup_delete_oldest_keep; [done|]. apply Z.ltb_ge. lia.
Qed.

(** C29: a signed request is accepted at most once. If its claims verified and
    its nonce was consumed, then whenever the same claims verify again (they
    expire within a minute) the nonce is refused, after any requests and
    prunings in between, as long as the service clock and the database clock
    stay within two minutes of each other. *)
Theorem signed_request_accepted_once c body signature key scope action audience a1 a2 n1 n2 id d d1 d2 :
  claims_verify c body signature key scope action audience a1 = Ok tt ->
  claims_verify c body signature key scope action audience a2 = Ok tt ->
  consume_nonce_tx n1 id (c_nonce c) d = Ok (true, d1) -> history cfg n1 d1 n2 d2 ->
  Z.abs (n1 - 1000 * a1) <= minutes 2 -> Z.abs (n2 - 1000 * a2) <= minutes 2 ->
  consume_nonce_tx n2 id (c_nonce c) d2 = Ok (false, d2).
Proof.
  intros Hv1 Hv2 Hc Hh Hs1 Hs2.
  assert (a2 < c_expires_at_ms c <= a1 + 60000) as Hexp.
  { unfold claims_verify in Hv1, Hv2.
    destruct (_ || _ || _) in Hv1; [done|]. destruct ((_ <=? a1) || _) eqn:E1 in Hv1; [done|].
    destruct (_ || _ || _) in Hv2; [done|]. destruct ((_ <=? a2) || _) eqn:E2 in Hv2; [done|].
    to_prop. unfold u64_saturating_add in *. lia. }
  apply consume_nonce_tx_ok in Hc as [[? _] | (_ & Hlen & _ & Hi & ->)]; [done|].
  apply (nonce_kept _ _ _ _ id (c_nonce c) (n1 + minutes 5)) in Hh.
  - unfold consume_nonce_tx. rewrite Hh. case_match; [done|]. by rewrite bool_decide_eq_true_2 by eauto.
  - unfold minutes, seconds in *. lia.
  - cbn. by rewrite lookup_insert_eq.
Qed.
End single_use.

(** ** The daily quota *)
Lemma size_filter_or {K V} `{Countable K} (P Q R : K * V -> Prop)
    `{!forall x, Decision (P x)} `{!forall x, Decision (Q x)} `{!forall x, Decision (R x)} (m : gmap K V) :
  (forall k v, m !! k = Some v -> P (k, v) -> Q (k, v) \/ R (k, v)) ->
  (size (filter P m) <= size (filter Q m) + size (filter R m))%nat.
Proof.
  intros HP. rewrite <-!size_dom.
  etrans; [apply (subseteq_size _ (dom (filter Q m) ∪ dom (filter R m)))|].
  - intros k [v Hk]%elem_of_dom. apply map_lookup_filter_Some in Hk as [Hk Hp].
    rewrite elem_of_union, !elem_of_dom. unfold is_Some. setoid_rewrite map_lookup_filter_Some.
    destruct (HP k v Hk Hp); [left | right]; eauto.
  - rewrite size_union_alt. apply Nat.add_le_mono_l, subseteq_size. set_solver.
Qed.

Lemma latest_exists (m : gmap string Bootstrap) : m <> ∅ ->
  exists k b, m !! k = Some b /\ forall k' b', m !! k' = Some b' -> b_created_at b' <= b_created_at b.
Proof.
  induction m as [|k b m Hk IH] using map_ind; [done|]. intros _.
  destruct (decide (m = ∅)) as [->|Hne].
  - exists k, b. rewrite lookup_insert_eq. split; [done|]. intros k' b'.
    rewrite lookup_insert_Some, lookup_empty. by intros [[_ <-] | [_ ?]].
  - destruct (IH Hne) as (k0 & b0 & Hk0 & Hmax).
    destruct (decide (b_created_at b0 <= b_created_at b)) as [Hle|Hlt].
    + exists k, b. rewrite lookup_insert_eq. split; [done|]. intros k' b'.
      rewrite lookup_insert_Some. intros [[_ <-] | [_ Hb']]; [done|]. specialize (Hmax _ _ Hb'). lia.
    + exists k0, b0. rewrite lookup_insert_ne by congruence. split; [done|]. intros k' b'.
      rewrite lookup_insert_Some. intros [[_ <-] | [_ Hb']]; [lia | by eapply Hmax].
Qed.

(** Enrollments of a source strictly between two moments. *)
Definition enrolled (source : IpAddr) (lo hi : Z) (b : Bootstrap) : Prop :=
  b_source_ip b = source /\ consumed_after lo b = true /\ consumed_after (hi - 1) b = false.
#[global] Instance enrolled_dec source lo hi b : Decision (enrolled source lo hi b).
Proof. unfold enrolled. apply _. Defined.
Definition enrollments (source : IpAddr) (lo hi : Z) (d : Db) : nat :=
  size (filter (fun kv => enrolled source lo hi kv.2) (d_bootstrap d)).

(** Each challenge was issued to a source with fewer than 20 enrollments in
    the day before it, and consumed while it lived. *)
Record daily_ok (d : Db) : Prop := {
  do_before : forall nonce b, d_bootstrap d !! nonce = Some b ->
    (enrollments (b_source_ip b) (b_created_at b - days 1) (b_created_at b) d < 20)%nat;
  do_alive : forall nonce b c, d_bootstrap d !! nonce = Some b -> b_consumed_at b = Some c ->
    c < b_created_at b + minutes 1
}.

Lemma daily_ok_create now d nonce source :
  (daily_enrollments now source d < 20)%nat -> daily_ok d ->
  daily_ok (set_bootstrap <[nonce := challenge_row now source]> d).
Proof.
  intros Hd [Hb Ha].
  assert (forall src lo hi, (enrollments src lo hi (set_bootstrap <[nonce := challenge_row now source]> d) <=
    enrollments src lo hi d)%nat) as Hm.
  { intros src lo hi. unfold enrollments. cbn. etrans; [apply size_filter_insert|].
    rewrite decide_False; [done|]. by intros (_ & ? & _). }
  split; cbn.
  - intros n b. rewrite lookup_insert_Some. intros [[_ <-] | [_ Hn]]; cbn.
    + eapply Nat.le_lt_trans; [apply Hm|]. eapply Nat.le_lt_trans; [|apply Hd].
      apply size_filter_impl. intros k b Hk (Hs & Hc & _). cbn in *. split_and!; [done| |done].
      unfold consumed_after in Hc. destruct (b_consumed_at b) as [c|] eqn:Hco; [|done]. to_prop.
      specialize (Ha _ _ _ Hk Hco). lia.
    + eapply Nat.le_lt_trans; [apply Hm|]. by eapply Hb.
  - intros n b c. rewrite lookup_insert_Some. intros [[_ <-] | [_ Hn]]; [done | by eapply Ha].
Qed.

Lemma daily_ok_consume now d nonce b :
  quota_ok now d -> lifetimes_ok d -> d_bootstrap d !! nonce = Some b -> now < b_expires_at b ->
  b_consumed_at b = None -> daily_ok d -> daily_ok (set_bootstrap <[nonce := consume now b]> d).
Proof.
  intros Hq Hl Hk He Hc [Hb Ha].
  assert (forall src lo hi, hi <= now ->
    enrollments src lo hi (set_bootstrap <[nonce := consume now b]> d) = enrollments src lo hi d) as Hm.
  { intros src lo hi Hh. unfold enrollments. cbn. apply (size_filter_replace _ _ _ b); [done|].
    unfold enrolled, consumed_after, consume. cbn. rewrite Hc.
    split; [|by intros (_ & ? & _)]. intros (_ & _ & ?). to_prop. lia. }
  split; cbn.
  - intros n b'. rewrite lookup_insert_Some. intros [[_ <-] | [_ Hn]]; cbn; rewrite Hm.
    1, 3: by eapply Hb. all: by eapply (qo_past _ _ Hq).
  - intros n b' c. rewrite lookup_insert_Some. intros [[_ <-] | [_ Hn]]; [|by eapply Ha].
    cbn. intros [= <-]. by rewrite <-(Hl _ _ Hk).
Qed.

Lemma daily_ok_subseteq d m : m ⊆ d_bootstrap d -> daily_ok d -> daily_ok (set_bootstrap (fun _ => m) d).
Proof.
  intros Hm [Hb Ha]. split; cbn.
  - intros n b Hn. eapply Nat.le_lt_trans; [by apply size_filter_mono|].
    eapply Hb. by eapply lookup_weaken.
  - intros n b c Hn. eapply Ha. by eapply lookup_weaken.
Qed.

Lemma daily_ok_step now d d' :
  aux_effect now d d' -> quota_ok now d -> lifetimes_ok d -> daily_ok d -> daily_ok d'.
Proof.
  intros [[Hb _] | nonce source _ _ Hd _ -> | nonce b Hb He Hc -> | id nonce _ -> | limit -> | limit ->] Hq Hl Hok.
  - destruct Hok as [H1 H2]. split; unfold enrollments in *; rewrite Hb; auto.
  - by apply daily_ok_create.
  - by apply (daily_ok_consume now d).
  - destruct Hok. by split.
  - apply (daily_ok_subseteq d), Hok. apply delete_oldest_subseteq.
  - destruct Hok. by split.
Qed.

(** At most 19 enrollments precede the issuance of the last challenge
    enrolled; the others used challenges of its minute. *)
Lemma daily_ok_bound now d source :
  quota_ok now d -> daily_ok d -> (daily_enrollments now source d <= 29)%nat.
Proof.
  intros Hq [Hb Ha]. unfold daily_enrollments.
  match goal with |- (size ?m <= _)%nat => destruct (decide (m = ∅)) as [->|(k & b & Hk & Hmax)%latest_exists] end.
  { rewrite map_size_empty. lia. }
  apply map_lookup_filter_Some in Hk as [Hk (<- & _ & Hc)]. cbn in *.
  assert (29 = 19 + 10)%nat as -> by done.
  etrans; [apply (size_filter_or _
    (fun kv => enrolled (b_source_ip b) (b_created_at b - days 1) (b_created_at b) kv.2)
    (fun kv => b_source_ip kv.2 = b_source_ip b /\ in_minute (b_created_at b) kv.2))|].
  - intros k' b' Hk' Hp'. cbn in Hp'.
    assert (b_created_at b' <= b_created_at b) as Hle by (eapply Hmax, map_lookup_filter_Some; eauto).
    destruct Hp' as (Hs & _ & Hc'). pose proof (qo_past _ _ Hq _ _ Hk) as Hnow.
    unfold consumed_after in Hc'. destruct (b_consumed_at b') as [c|] eqn:Hco; [|done].
    pose proof (Ha _ _ _ Hk' Hco) as Hlive. to_prop.
    destruct (decide (c < b_created_at b)) as [Hlt|Hge]; [left | right].
    + unfold enrolled, consumed_after. cbn. rewrite Hco. split_and!; [done|..].
      * apply Z.ltb_lt. lia.
      * apply Z.ltb_ge. lia.
    + unfold in_minute. cbn. split; [done|]. lia.
  - apply Nat.add_le_mono; [|apply (qo_source _ _ Hq)].
    specialize (Hb _ _ Hk). unfold enrollments in Hb. lia.
Qed.

(** ** A source that enrolls 29 installations in one day *)
Definition a_source : IpAddr := V4 3221225985.
Definition nonce_of (n : nat) : string := String (ascii_of_nat (65 + n)) "-challenge".
Definition batch (t : Z) (from count : nat) : list (Z * Request) :=
  ((fun n => (at_second t, CreateBootstrapChallenge (nonce_of n) a_source)) <$> seq from count) ++
  ((fun n => (at_second (t + 1), ConsumeBootstrapChallenge (nonce_of n) a_source)) <$> seq from count).
Definition enrollment_run : list (Z * Request) := batch 0 0 10 ++ batch 100 10 9 ++ batch 200 19 10.
Definition db_enrolled : Db := db_after cfg (at_second 0) enrollment_run empty_db.

Lemma enrollment_run_typed : Forall (fun tr => typed tr.2) enrollment_run.
Proof.
  unfold enrollment_run, batch. repeat (apply Forall_app; split).
  all: apply Forall_fmap, Forall_forall; intros; exact I.
Qed.

Lemma enrolled_reachable : reachable cfg (at_second 201) db_enrolled.
Proof.
  exists (at_second 0). assert (log_end (at_second 0) enrollment_run = at_second 201) as <-.
  { vm_compute. reflexivity. }
  refine (db_after_history cfg (at_second 0) enrollment_run empty_db enrollment_run_typed _).
  vm_compute. reflexivity.
Qed.

(** C38: the daily quota is checked when a challenge is issued, so a source
    can complete more than the documented 20 enrollments in a day: 29, and
    never more than 29. *)
Theorem daily_enrollments_at_most_29 :
  (forall (H : Crypto) (B : Base32) cfg now d source,
     reachable cfg now d -> (daily_enrollments now source d <= 29)%nat) /\
  (exists now d, reachable cfg now d /\ daily_enrollments now a_source d = 29%nat).
Proof.
  split.
  - intros H B c now d source [start Hh].
    assert (forall t d t' d', history c t d t' d' -> quota_ok t d -> lifetimes_ok d -> daily_ok d ->
      quota_ok t' d' /\ daily_ok d') as Hind.
    { induction 1 as [ | | ? ? ? ? ? (r & _ & Hr) ? IH]; [done | eauto using quota_ok_later|].
      intros Hq Hl Hd. apply exec_aux in Hr.
      apply IH; [by eapply quota_ok_step | by eapply lifetimes_ok_step | by eapply daily_ok_step]. }
    destruct (Hind _ _ _ _ Hh) as [Hq Hd]; [apply empty_quota | by intros n b ?%no_challenge | |].
    + split; [by intros n b ?%no_challenge | by intros n b e ?%no_challenge].
    + by apply daily_ok_bound.
  - exists (at_second 201), db_enrolled. split; [apply enrolled_reachable|]. vm_compute. reflexivity.
Qed.

Lemma daily_enrollments_at_most_29_witness :
  (daily_enrollments (at_second 201) a_source db_enrolled <= 29)%nat.
Proof.
  apply (proj1 daily_enrollments_at_most_29 _ _ cfg (at_second 201) db_enrolled a_source).
  apply enrolled_reachable.
Defined.

Lemma bootstrap_quota_witness :
  issued_to a_source (at_second 201) db_enrolled = 10%nat /\
  (issued_to a_source (at_second 201) db_enrolled <= 10)%nat.
Proof.
  split; [vm_compute; reflexivity|].
  apply (bootstrap_quota cfg (at_second 201) db_enrolled a_source (at_second 201)).
  apply enrolled_reachable.
Defined.

(** A database with one challenge issued, and then consumed. *)
Definition one_challenge : list (Z * Request) :=
  [(at_second 0, CreateBootstrapChallenge (nonce_of 0) a_source)].
Definition db_challenge : Db := db_after cfg (at_second 0) one_challenge empty_db.

Lemma challenge_reachable : reachable cfg (at_second 0) db_challenge.
Proof.
  exists (at_second 0). refine (db_after_history cfg (at_second 0) one_challenge empty_db _ _).
  - repeat constructor.
  - vm_compute. reflexivity.
Qed.

Lemma true_run (m : Tx bool) d :
  match m d with Ok (r, _) => r | Err _ => false end = true -> exists d', m d = Ok (true, d').
Proof. destruct (m d) as [[[] d']|]; [eauto | done | done]. Qed.

Lemma challenge_consumed_once_witness :
  exists d1, consume_bootstrap_challenge_tx (at_second 5) (nonce_of 0) a_source db_challenge = Ok (true, d1) /\
    consume_bootstrap_challenge_tx (at_second 6) (nonce_of 0) a_source d1 = Ok (false, d1).
Proof.
  destruct (true_run (consume_bootstrap_challenge_tx (at_second 5) (nonce_of 0) a_source) db_challenge)
    as [d1 Hc]; [vm_compute; reflexivity|]. exists d1. split; [exact Hc|].
  apply (challenge_consumed_once cfg (at_second 0) db_challenge (at_second 5) (nonce_of 0) a_source d1
    (at_second 6) d1 a_source).
  - apply challenge_reachable.
  - exact Hc.
  - eapply history_tick; [|constructor]. by vm_compute.
  - by vm_compute.
Defined.

(** A signed retirement of the sample installation, sent twice. *)
Definition retire_claims : AuthClaims :=
  {| c_version := 1; c_installation_id := inst; c_scope := SurfaceAdmin; c_action := RetireInstallation;
     c_generation := 0; c_audience := "https://relay.example"; c_operation_id := 9%N;
     c_nonce := "nonce-0123456789"; c_expires_at_ms := 1700000060000;
     c_body_sha256 := sha256_hex (str_bytes "{}") |}.

Lemma signed_request_accepted_once_witness :
  exists d1, consume_nonce_tx (at_second 7) inst (c_nonce retire_claims) db_setup = Ok (true, d1) /\
    consume_nonce_tx (at_second 9) inst (c_nonce retire_claims) d1 = Ok (false, d1).
Proof.
  destruct (true_run (consume_nonce_tx (at_second 7) inst (c_nonce retire_claims)) db_setup)
    as [d1 Hc]; [vm_compute; reflexivity|]. exists d1. split; [exact Hc|].
  apply (signed_request_accepted_once (H := Protocol.Concrete.crypto) (H0 := Protocol.Concrete.serde)
    cfg retire_claims (str_bytes "{}") (string_of_list_byte (pad key32)) key32
    SurfaceAdmin RetireInstallation "https://relay.example" 1700000007000 1700000009000
    (at_second 7) (at_second 9) inst db_setup d1 d1).
  - vm_compute. reflexivity.
  - vm_compute. reflexivity.
  - exact Hc.
  - eapply history_tick; [|constructor]. by vm_compute.
  - by vm_compute.
  - by vm_compute.
Defined.
