(* ===== verification/Ingress.v ===== *)
(** * Browser ingress: the local parts of crates/bloom-relay/src/main.rs

    The connection quota, reading the ClientHello, and the byte bridge
    between a browser and a tunnel stream. Times are microseconds of the
    monotonic clock. *)

From Stdlib Require Import Ascii String Strings.Byte.
From stdpp Require Import base strings list gmap countable.
From S2P Require Import Prelude Protocol Db.

#[global] Instance IpAddr_countable : Countable IpAddr.
Proof.
  apply (inj_countable' (fun a => match a with V4 n => inl n | V6 n => inr n end)
    (fun s => match s with inl n => V4 n | inr n => V6 n end)). by intros [].
Defined.

(** ** IngressQuota *)
Record IngressQuota := {
  iq_start : Z;
  iq_total : Z;
  iq_sources : gmap IpAddr Z
}.

Definition ingress_quota_new (now : Z) : IngressQuota :=
  {| iq_start := now; iq_total := 0; iq_sources := ∅ |}.

Definition source_count (source : IpAddr) (q : IngressQuota) : Z :=
  default 0 (iq_sources q !! source).

(** The window that [now] falls in; [duration_since] saturates at zero. *)
Definition roll_window (now : Z) (q : IngressQuota) : IngressQuota :=
  if seconds 60 <=? Z.max 0 (now - iq_start q)
  then {| iq_start := now; iq_total := 0; iq_sources := ∅ |}
  else q.

Definition allow_at (source : IpAddr) (now : Z) (q : IngressQuota) : bool * IngressQuota :=
  let q := roll_window now q in
  if (5000 <=? iq_total q) || (120 <=? source_count source q) then (false, q)
  else (true, {| iq_start := iq_start q; iq_total := iq_total q + 1;
                 iq_sources := <[source := source_count source q + 1]> (iq_sources q) |}).

(** The connections of a log that are admitted, with their times. *)
Fixpoint admitted (log : list (IpAddr * Z)) (q : IngressQuota) : list (IpAddr * Z) :=
  match log with
  | [] => []
  | (source, now) :: rest =>
      let (ok, q') := allow_at source now q in
      if ok then (source, now) :: admitted rest q' else admitted rest q'
  end.
Definition quota_after (log : list (IpAddr * Z)) (q : IngressQuota) : IngressQuota :=
  foldl (fun q c => (allow_at c.1 c.2 q).2) q log.

(** ** Admission: a slot of a semaphore *)
Definition admit_connection (free : Z) : option Z := if 0 <? free then Some (free - 1) else None.

(** [MAX_GATEWAY_STREAMS.min(BUFFER_BUDGET / (2 * BUFFER_PER_DIRECTION))]. *)
Definition ingress_slots : Z := Z.min MAX_GATEWAY_STREAMS (BUFFER_BUDGET / (2 * BUFFER_PER_DIRECTION)).

(** ** read_sni

    [accept] is rustls's parser: what it makes of the bytes so far. *)
Inductive Hello := NeedMore | Malformed | ServerName (name : option string).
Inductive SniError := HelloTooLarge | HelloMalformed | MissingSni | SniInvalid | ReadFailed | SniTimeout.

Section read_sni.
Context (accept : list byte -> Hello).

(** [reads] are the results of the reads; a chunk has at most 4096 bytes, and
    an empty one is the end of the stream. Without more reads the timeout
    ends the loop. *)
Fixpoint read_sni (reads : list (option (list byte))) (prefix : list byte) :
    result SniError (string * list byte) :=
  match reads with
  | [] => Err SniTimeout
  | None :: _ => Err ReadFailed
  | Some chunk :: rest =>
      if (Z.of_nat (List.length chunk) =? 0)
         || (MAX_CLIENT_HELLO <? Z.of_nat (List.length prefix) + Z.of_nat (List.length chunk))
      then Err HelloTooLarge
      else
        let prefix := prefix ++ chunk in
        match accept prefix with
        | NeedMore => read_sni rest prefix
        | Malformed => Err HelloMalformed
        | ServerName None => Err MissingSni
        | ServerName (Some host) =>
            _ ← map_err (fun _ => SniInvalid) (validate_hostname host);
            Ok (host, prefix)
        end
  end.
End read_sni.

(** ** send_data and bridge *)
Inductive BridgeError := StreamClosed | BrowserFailed | TunnelFailed | BridgeIdle.

(** The capacities the HTTP/2 stream grants, each at least one byte; when the
    list ends the stream is closed. *)
Fixpoint send_data (capacities : list Z) (bytes : list byte) : result BridgeError (list (list byte)) :=
  match bytes with
  | [] => Ok []
  | _ =>
      match capacities with
      | [] => Err StreamClosed
      | capacity :: rest =>
          let count := Z.to_nat (Z.min (Z.min capacity (Z.of_nat (List.length bytes))) 16384) in
          chunks ← send_data rest (drop count bytes);
          Ok (take count bytes :: chunks)
      end
  end.

(** What one turn of the loop sees. *)
Inductive BridgeEvent :=
| BrowserRead (bytes : list byte) (capacities : list Z)
| BrowserEof
| BrowserReadError
| TunnelData (bytes : list byte) (written : bool)
| TunnelError
| TunnelEnd
| Idle.

Record Bridge := {
  br_to_tunnel : list (list byte);
  br_to_browser : list (list byte);
  br_browser_done : bool;
  br_tunnel_done : bool
}.

Definition bridge_start (prefix : list byte) (capacities : list Z) : result BridgeError Bridge :=
  chunks ← send_data capacities prefix;
  Ok {| br_to_tunnel := chunks; br_to_browser := []; br_browser_done := false; br_tunnel_done := false |}.

(** A branch of [select!] is enabled until its side is done; a disabled
    branch sees no event. *)
Definition enabled (b : Bridge) (e : BridgeEvent) : bool :=
  match e with
  | BrowserRead _ _ | BrowserEof | BrowserReadError => negb (br_browser_done b)
  | TunnelData _ _ | TunnelError | TunnelEnd => negb (br_tunnel_done b)
  | Idle => true
  end.

Definition bridge_turn (b : Bridge) (e : BridgeEvent) : result BridgeError Bridge :=
  match e with
  | BrowserRead bytes capacities =>
      chunks ← send_data capacities bytes;
      Ok {| br_to_tunnel := br_to_tunnel b ++ chunks; br_to_browser := br_to_browser b;
            br_browser_done := br_browser_done b; br_tunnel_done := br_tunnel_done b |}
  | BrowserEof =>
      Ok {| br_to_tunnel := br_to_tunnel b; br_to_browser := br_to_browser b;
            br_browser_done := true; br_tunnel_done := br_tunnel_done b |}
  | BrowserReadError => Err BrowserFailed
  | TunnelData bytes written =>
      if written
      then Ok {| br_to_tunnel := br_to_tunnel b; br_to_browser := br_to_browser b ++ [bytes];
                 br_browser_done := br_browser_done b; br_tunnel_done := br_tunnel_done b |}
      else Err BrowserFailed
  | TunnelError => Err TunnelFailed
  | TunnelEnd =>
      Ok {| br_to_tunnel := br_to_tunnel b; br_to_browser := br_to_browser b;
            br_browser_done := br_browser_done b; br_tunnel_done := true |}
  | Idle => Err BridgeIdle
  end.

(** [while !(browser_done && tunnel_done)]; [None] when the events run out
    before the loop ends. *)
Fixpoint bridge_loop (b : Bridge) (events : list BridgeEvent) : option (result BridgeError Bridge) :=
  if br_browser_done b && br_tunnel_done b then Some (Ok b)
  else
    match events with
    | [] => None
    | e :: rest =>
        if enabled b e then
          match bridge_turn b e with
          | Ok b' => bridge_loop b' rest
          | Err err => Some (Err err)
          end
        else bridge_loop b rest
    end.

(** ** Bytes are forwarded unchanged *)

(** What the browser sent before its end of stream, and the tunnel before its. *)
Fixpoint browser_bytes (events : list BridgeEvent) : list byte :=
  match events with
  | BrowserRead bytes _ :: rest => bytes ++ browser_bytes rest
  | BrowserEof :: _ => []
  | _ :: rest => browser_bytes rest
  | [] => []
  end.
Fixpoint tunnel_bytes (events : list BridgeEvent) : list byte :=
  match events with
  | TunnelData bytes _ :: rest => bytes ++ tunnel_bytes rest
  | TunnelEnd :: _ => []
  | _ :: rest => tunnel_bytes rest
  | [] => []
  end.

Definition frame_ok (chunk : list byte) : Prop := Z.of_nat (List.length chunk) <= 16384.

Lemma send_data_ok capacities bytes chunks :
  send_data capacities bytes = Ok chunks -> concat chunks = bytes /\ Forall frame_ok chunks.
Proof.
  revert bytes chunks. induction capacities as [|c rest IH]; intros [|b bytes] chunks; cbn -[drop take];
    try (by intros [= <-]); try done.
  intros (cs & Hc & [= <-])%bind_ok. apply IH in Hc as [Hj Hf]. split.
  - cbn [concat]. rewrite Hj. apply take_drop.
  - constructor; [|done]. unfold frame_ok. rewrite length_take. lia.
Qed.

(** Enough positive capacities send everything. *)
Lemma send_data_total capacities bytes :
  Forall (fun c => 1 <= c) capacities -> (List.length bytes <= List.length capacities)%nat ->
  exists chunks, send_data capacities bytes = Ok chunks.
Proof.
  intros Hc. revert bytes. induction Hc as [|c rest Hc _ IH]; intros [|b bytes]; cbn -[drop take]; eauto; [lia|].
  intros Hl. set (n := Z.to_nat _).
  assert (1 <= n <= List.length (b :: bytes))%nat as Hn by (subst n; cbn; lia).
  destruct (IH (drop n (b :: bytes))) as [chunks ->]; [rewrite length_drop; cbn in *; lia|].
  cbn. eauto.
Qed.

Lemma read_sni_ok accept reads prefix host bytes :
  read_sni accept reads prefix = Ok (host, bytes) ->
  validate_hostname host = Ok tt /\ accept bytes = ServerName (Some host) /\
  Z.of_nat (List.length bytes) <= MAX_CLIENT_HELLO /\
  exists taken rest, reads = (Some <$> taken) ++ rest /\ bytes = prefix ++ concat taken.
Proof.
  revert prefix. induction reads as [|[chunk|] reads IH]; intros prefix; cbn; try done.
  destruct (_ || _) eqn:Hsize; [done|]. to_prop. destruct (accept (prefix ++ chunk)) as [| |[name|]] eqn:Ha; try done.
  - intros (Hv & Hacc & Hl & taken & rest & -> & ->)%IH. split_and!; [done..|].
    exists (chunk :: taken), rest. cbn. by rewrite <-app_assoc.
  - intros (u & Hv & [= -> <-])%bind_ok. destruct (validate_hostname host) as [[]|]; [|done].
    split_and!; [done..|rewrite length_app; lia|].
    exists [chunk], reads. cbn. by rewrite app_nil_r.
Qed.

Lemma bridge_loop_ok b events b' :
  bridge_loop b events = Some (Ok b') ->
  Forall frame_ok (br_to_tunnel b) ->
  Forall frame_ok (br_to_tunnel b') /\
  concat (br_to_tunnel b') =
    concat (br_to_tunnel b) ++ (if br_browser_done b then [] else browser_bytes events) /\
  concat (br_to_browser b') =
    concat (br_to_browser b) ++ (if br_tunnel_done b then [] else tunnel_bytes events).
Proof.
  revert b. induction events as [|e events IH]; intros b; cbn [bridge_loop].
  { destruct (br_browser_done b) eqn:Hb, (br_tunnel_done b) eqn:Ht; cbn; try done.
    intros [= <-] Hf. by rewrite !app_nil_r. }
  destruct (br_browser_done b && br_tunnel_done b) eqn:Hd.
  { intros [= <-] Hf. apply andb_true_iff in Hd as [-> ->]. by rewrite !app_nil_r. }
  destruct (enabled b e) eqn:He.
  - destruct e as [bytes caps| | |bytes written| | |]; cbn in *; try done.
    + destruct (send_data caps bytes) as [chunks|] eqn:Hs; cbn; [|done]. apply send_data_ok in Hs as [<- Hc].
      intros Hl Hf. apply IH in Hl as (? & -> & ->); cbn; [|by apply Forall_app]. split; [done|].
      destruct (br_browser_done b); [done|]. rewrite concat_app, <-app_assoc. done.
    + intros Hl Hf. apply IH in Hl as (? & -> & ->); cbn; [|done]. by destruct (br_browser_done b).
    + destruct written; [|done]. intros Hl Hf. apply IH in Hl as (? & -> & ->); cbn; [|done].
      split_and!; [done..|]. destruct (br_tunnel_done b); [done|]. rewrite concat_app, <-app_assoc. cbn.
      by rewrite app_nil_r.
    + intros Hl Hf. apply IH in Hl as (? & -> & ->); cbn; [|done]. by destruct (br_tunnel_done b).
  - intros Hl Hf. apply IH in Hl as (? & -> & ->); [|done].
    destruct e; cbn in *; try done; destruct (br_browser_done b), (br_tunnel_done b); done.
Qed.

(** a browser connection is relayed byte for byte. The bytes sent to the
    tunnel are exactly those read for the ClientHello, within 64 KiB and
    naming a valid relay hostname, followed by those the browser sent before
    its end of stream, in frames of at most 16 KiB; the bytes sent to the
    browser are exactly those of the tunnel. *)
Theorem browser_bytes_unchanged accept reads host prefix capacities b events b' :
  read_sni accept reads [] = Ok (host, prefix) -> bridge_start prefix capacities = Ok b ->
  bridge_loop b events = Some (Ok b') ->
  validate_hostname host = Ok tt /\ Z.of_nat (List.length prefix) <= MAX_CLIENT_HELLO /\
  Forall frame_ok (br_to_tunnel b') /\
  concat (br_to_browser b') = tunnel_bytes events /\
  exists taken rest, reads = (Some <$> taken) ++ rest /\
    concat (br_to_tunnel b') = concat taken ++ browser_bytes events.
Proof.
  intros (Hv & _ & Hl & taken & rest & -> & ->)%read_sni_ok Hs Hb. cbn [app] in *. unfold bridge_start in Hs.
  apply bind_ok in Hs as (chunks & [Hj Hf]%send_data_ok & [= <-]).
  apply bridge_loop_ok in Hb as (Hf' & Ht & Hbr); [|done]. cbn in Ht, Hbr. rewrite Hj in Ht.
  split_and!; [done..|]. exists taken, rest. done.
Qed.

(** ** The quota over time *)

(** Times that do not decrease. *)
Inductive ordered : Z -> list (IpAddr * Z) -> Prop :=
| ordered_nil t : ordered t []
| ordered_cons t source now rest : t <= now -> ordered now rest -> ordered t ((source, now) :: rest).

Section windows.
Context (p : IpAddr -> bool) (used : IngressQuota -> Z) (limit : Z).

(** A counter of the admitted connections that satisfy [p] in the window. *)
Definition tick (source : IpAddr) (ok : bool) : Z := if ok && p source then 1 else 0.
Definition counts : Prop := forall source now q ok q',
  iq_start q <= now -> allow_at source now q = (ok, q') ->
  (tick source ok = 1 -> used q' <= limit) /\
  (iq_start q' = iq_start q /\ now < iq_start q + seconds 60 /\ used q' = used q + tick source ok \/
   iq_start q' = now /\ iq_start q + seconds 60 <= now /\ used q' = tick source ok).
Context (Hcounts : counts) (Hlimit : 0 <= limit).

Definition in_interval (lo hi : Z) (c : IpAddr * Z) : bool := p c.1 && (lo <=? c.2) && (c.2 <? hi).
Definition count (lo hi : Z) (log : list (IpAddr * Z)) (q : IngressQuota) : Z :=
  Z.of_nat (List.length (List.filter (in_interval lo hi) (admitted log q))).

Lemma count_cons lo hi source now rest q ok q' :
  allow_at source now q = (ok, q') ->
  count lo hi ((source, now) :: rest) q =
    (if (lo <=? now) && (now <? hi) then tick source ok else 0) + count lo hi rest q'.
Proof.
  intros Ha. unfold count, tick. cbn [admitted]. rewrite Ha. destruct ok; cbn [List.filter andb].
  - unfold in_interval at 1. cbn. destruct (p source), (lo <=? now), (now <? hi); cbn; lia.
  - by destruct (_ && _).
Qed.

Lemma tick_range source ok : 0 <= tick source ok <= 1.
Proof. unfold tick. destruct (_ && _); lia. Qed.

Lemma count_late lo hi t log q : hi <= t -> ordered t log -> count lo hi log q = 0.
Proof.
  intros Ht Ho. revert q Ht. induction Ho as [|t source now rest Hle Ho IH]; intros q Ht; [done|].
  destruct (allow_at source now q) as [ok q'] eqn:Ha. rewrite (count_cons _ _ _ _ _ _ _ _ Ha), IH by lia.
  replace (now <? hi) with false by (symmetry; apply Z.ltb_ge; lia). by rewrite andb_false_r.
Qed.

Lemma count_window lo hi t log q :
  iq_start q <= t -> ordered t log -> used q <= limit -> hi <= iq_start q + seconds 60 ->
  count lo hi log q <= limit - used q.
Proof using Hcounts.
  intros Hs Ho. revert q Hs. induction Ho as [|t source now rest Hle Ho IH]; intros q Hs Hu Hh.
  { unfold count. cbn. lia. }
  destruct (allow_at source now q) as [ok q'] eqn:Ha. rewrite (count_cons _ _ _ _ _ _ _ _ Ha).
  pose proof (tick_range source ok). destruct (Hcounts source now q ok q' ltac:(lia) Ha) as [Hu' [(? & ? & ?) | (? & ? & ?)]].
  - assert (used q' <= limit) by lia. specialize (IH q' ltac:(lia) ltac:(lia) ltac:(lia)).
    destruct (_ && _); lia.
  - rewrite (count_late lo hi now) by (done || lia).
    replace (now <? hi) with false by (symmetry; apply Z.ltb_ge; lia). rewrite andb_false_r. lia.
Qed.

Lemma count_two_windows lo hi t log q :
  iq_start q <= t -> ordered t log -> used q <= limit -> hi <= iq_start q + seconds 120 ->
  count lo hi log q <= 2 * limit - used q.
Proof using Hcounts Hlimit.
  intros Hs Ho. revert q Hs. induction Ho as [|t source now rest Hle Ho IH]; intros q Hs Hu Hh.
  { unfold count. cbn. lia. }
  destruct (allow_at source now q) as [ok q'] eqn:Ha. rewrite (count_cons _ _ _ _ _ _ _ _ Ha).
  pose proof (tick_range source ok). destruct (Hcounts source now q ok q' ltac:(lia) Ha) as [Hu' [(? & ? & ?) | (? & ? & ?)]].
  - assert (used q' <= limit) by lia. specialize (IH q' ltac:(lia) ltac:(lia) ltac:(lia)).
    destruct (_ && _); lia.
  - assert (used q' <= limit) by lia. unfold seconds in *.
    pose proof (count_window lo hi now rest q' ltac:(lia) Ho ltac:(lia) ltac:(unfold seconds; lia)).
    destruct (_ && _); lia.
Qed.

Lemma count_sliding lo t log q :
  iq_start q <= t -> ordered t log -> 0 <= used q <= limit ->
  count lo (lo + seconds 60) log q <= 2 * limit.
Proof using Hcounts Hlimit.
  intros Hs Ho. revert q Hs. induction Ho as [|t source now rest Hle Ho IH]; intros q Hs Hu.
  { unfold count. cbn. lia. }
  destruct (decide (lo <= iq_start q + seconds 60)) as [Hlo|Hlo].
  { pose proof (count_two_windows lo (lo + seconds 60) t ((source, now) :: rest) q Hs
      (ordered_cons _ _ _ _ Hle Ho) ltac:(lia) ltac:(unfold seconds in *; lia)). lia. }
  destruct (allow_at source now q) as [ok q'] eqn:Ha. rewrite (count_cons _ _ _ _ _ _ _ _ Ha).
  pose proof (tick_range source ok). destruct (Hcounts source now q ok q' ltac:(lia) Ha) as [Hu' [(? & ? & ?) | (? & ? & ?)]].
  - replace (lo <=? now) with false by (symmetry; apply Z.leb_gt; lia). cbn [andb].
    specialize (IH q' ltac:(lia)). lia.
  - destruct (decide (lo <= now)).
    + pose proof (count_two_windows lo (lo + seconds 60) now rest q' ltac:(lia) Ho ltac:(lia)
        ltac:(unfold seconds in *; lia)). destruct (_ && _); lia.
    + replace (lo <=? now) with false by (symmetry; apply Z.leb_gt; lia). cbn [andb].
      specialize (IH q' ltac:(lia)). lia.
Qed.
End windows.

Lemma allow_cases source now q ok q' :
  iq_start q <= now -> allow_at source now q = (ok, q') ->
  exists q0, (q0 = q /\ now < iq_start q + seconds 60 \/
              q0 = ingress_quota_new now /\ iq_start q + seconds 60 <= now) /\
    iq_start q' = iq_start q0 /\
    (if ok then iq_total q0 < 5000 /\ source_count source q0 < 120 /\ iq_total q' = iq_total q0 + 1 /\
       iq_sources q' = <[source := source_count source q0 + 1]> (iq_sources q0)
     else q' = q0).
Proof.
  intros Hle Ha. unfold allow_at in Ha. cbv zeta in Ha. exists (roll_window now q). split.
  { unfold roll_window. destruct (Z.leb_spec (seconds 60) (Z.max 0 (now - iq_start q))); [right | left];
      (split; [done|]); unfold seconds in *; lia. }
  destruct (_ || _) eqn:Hc.
  - injection Ha as <- <-. done.
  - injection Ha as <- <-. cbn. to_prop. split_and!; done || lia.
Qed.

Lemma total_counts : counts (fun _ => true) iq_total 5000.
Proof.
  intros source now q ok q' Hle Ha. unfold tick. rewrite andb_true_r.
  destruct (allow_cases _ _ _ _ _ Hle Ha) as (q0 & Hq0 & Hs & Hr).
  destruct ok; [destruct Hr as (Ht & _ & Ht' & _) | subst q']; (split; [lia || done|]);
    destruct Hq0 as [[-> ?] | [-> ?]]; cbn in *; [left | right | left | right]; split_and!; lia.
Qed.

Lemma source_counts s : counts (fun a => bool_decide (a = s)) (source_count s) 120.
Proof.
  intros source now q ok q' Hle Ha. destruct (allow_cases _ _ _ _ _ Hle Ha) as (q0 & Hq0 & Hs & Hr).
  assert (source_count s q' = source_count s q0 + tick (fun a => bool_decide (a = s)) source ok /\
    (tick (fun a => bool_decide (a = s)) source ok = 1 -> source_count s q' <= 120)) as [Hc Hl].
  { unfold tick. destruct ok; [destruct Hr as (_ & Ht & _ & Hso) | subst q'; cbn; split; [lia | done]].
    unfold source_count at 1 3. rewrite Hso. cbn. case_bool_decide as Heq.
    - subst source. rewrite lookup_insert_eq. cbn. lia.
    - rewrite lookup_insert_ne by done. fold (source_count s q0). split; [lia | done]. }
  split; [done|]. destruct Hq0 as [[-> ?] | [-> ?]]; cbn in *; [left | right]; split_and!; try lia.
  unfold source_count, ingress_quota_new in Hc. cbn in Hc. rewrite lookup_empty in Hc. cbn in Hc.
  unfold source_count. lia.
Qed.

(** The table of sources is no larger than the number of admissions. *)
Lemma sources_bounded source now q ok q' :
  iq_start q <= now -> allow_at source now q = (ok, q') ->
  Z.of_nat (size (iq_sources q)) <= iq_total q <= 5000 ->
  Z.of_nat (size (iq_sources q')) <= iq_total q' <= 5000.
Proof.
  intros Hle Ha Hq. destruct (allow_cases _ _ _ _ _ Hle Ha) as (q0 & Hq0 & _ & Hr).
  assert (Z.of_nat (size (iq_sources q0)) <= iq_total q0 <= 5000) as Hq1.
  { destruct Hq0 as [[-> _] | [-> _]]; [done|]. cbn. rewrite map_size_empty. lia. }
  destruct ok; [|by subst q']. destruct Hr as (Ht & _ & -> & ->). rewrite map_size_insert.
  case_match; unfold Datatypes.id; lia.
Qed.

Definition from_source (s : IpAddr) (lo : Z) (c : IpAddr * Z) : bool :=
  bool_decide (c.1 = s) && (lo <=? c.2) && (c.2 <? lo + seconds 60).
Definition in_minute_from (lo : Z) (c : IpAddr * Z) : bool := (lo <=? c.2) && (c.2 <? lo + seconds 60).

(** ingress is bounded for every interval, not only for the fixed
    windows. Of connections that arrive in order, any 60 seconds admit at most
    twice the window's quota: 240 of a source and 10,000 in all; and the
    table of sources never has more than 5,000 entries. *)
Theorem ingress_quota_bounds t log s lo :
  ordered t log ->
  let q := ingress_quota_new t in
  Z.of_nat (List.length (List.filter (from_source s lo) (admitted log q))) <= 240 /\
  Z.of_nat (List.length (List.filter (in_minute_from lo) (admitted log q))) <= 10000 /\
  Z.of_nat (size (iq_sources (quota_after log q))) <= 5000.
Proof.
  intros Ho q. split_and!.
  - pose proof (count_sliding _ _ 120 (source_counts s) ltac:(lia) lo t log q ltac:(done) Ho) as Hc.
    unfold count in Hc. change (in_interval _ _ _) with (from_source s lo) in Hc.
    assert (0 <= source_count s q <= 120) as Hq by (unfold source_count, q; cbn; rewrite lookup_empty; cbn; lia).
    specialize (Hc Hq). lia.
  - pose proof (count_sliding _ _ 5000 total_counts ltac:(lia) lo t log q ltac:(done) Ho ltac:(cbn; lia)) as Hc.
    unfold count in Hc. change (in_interval _ _ _) with (in_minute_from lo) in Hc. lia.
  - assert (iq_start q <= t) as Hs by done.
    assert (Z.of_nat (size (iq_sources q)) <= iq_total q <= 5000) as Hb by (cbn; rewrite map_size_empty; lia).
    clearbody q. revert q Hs Hb. induction Ho as [|t source now rest Hle Ho IH]; intros q Hs Hb; cbn; [lia|].
    destruct (allow_at source now q) as [ok q'] eqn:Ha. cbn. apply IH.
    + destruct (allow_cases source now q ok q' ltac:(lia) Ha) as (q0 & Hq0 & -> & _).
      destruct Hq0 as [[-> ?] | [-> _]]; cbn; lia.
    + by eapply (sources_bounded source now q); [lia|..].
Qed.

(** ** Witnesses *)

(** 130 connections of one source at once: 120 are admitted. *)
Definition burst : list (IpAddr * Z) := replicate 130 (V4 3221225985, 7).

Lemma burst_ordered : ordered 7 burst.
Proof. unfold burst. generalize 130%nat. intros n. induction n; cbn; by constructor. Qed.

Lemma ingress_quota_bounds_witness :
  List.length (admitted burst (ingress_quota_new 7)) = 120%nat /\
  Z.of_nat (List.length (List.filter (from_source (V4 3221225985) 0) (admitted burst (ingress_quota_new 7)))) <= 240.
Proof.
  split; [vm_compute; reflexivity|].
  apply (ingress_quota_bounds 7 burst (V4 3221225985) 0). apply burst_ordered.
Defined.

Definition sample_host : string := "aaaaaaaaaaaaaaaaaaaaaaaaaa.relay.bloom.directory".
Definition sample_accept (bytes : list byte) : Hello :=
  if decide (List.length bytes = 3%nat) then ServerName (Some sample_host) else NeedMore.
Definition sample_reads : list (option (list byte)) := [Some [Byte.x16; Byte.x03]; Some [Byte.x01]].
Definition sample_events : list BridgeEvent :=
  [TunnelData [Byte.x02] true; BrowserRead [Byte.x17; Byte.x18] [1; 1]; BrowserEof; TunnelEnd].
Definition sample_bridge : Bridge :=
  {| br_to_tunnel := [[Byte.x16; Byte.x03]; [Byte.x01]]; br_to_browser := [];
     br_browser_done := false; br_tunnel_done := false |}.

Lemma browser_bytes_unchanged_witness :
  exists b', bridge_loop sample_bridge sample_events = Some (Ok b') /\ concat (br_to_browser b') = [Byte.x02].
Proof.
  eexists. split; [vm_compute; reflexivity|].
  eapply (browser_bytes_unchanged sample_accept sample_reads sample_host [Byte.x16; Byte.x03; Byte.x01] [2; 5]
    sample_bridge sample_events); vm_compute; reflexivity.
Defined.
