(* ===== verification/Gateway.v ===== *)
(** * The gateway: crates/bloom-relay/src/main.rs

    The shared state of the gateway process and its handlers: opening a
    tunnel ([POST /v1/tunnel]), attaching a stream ([CONNECT]), browser
    connections and tunnel lifecycles.

    The handlers run concurrently. Each is a computation in the monad [GwM],
    and at every point where the source awaits (a store call, a lock, a
    channel) [e_others] lets the other tasks change the shared state; between
    two such points a handler is atomic, as it is in the source, where the
    shared maps are only touched under their locks. [e_store] says which
    store calls fail, before or after their effect, and [e_respond] which
    responses cannot be sent. *)

From Stdlib Require Import Ascii String Strings.Byte.
From stdpp Require Import base strings list gmap.
From S2P Require Import Prelude Protocol Db Witness Store StoreCredentials StoreLifecycle Ingress.

(** ** State *)
Record Tunnel := { t_id : Uuid; t_generation : Z; t_ref : N }.
#[global] Instance Tunnel_eq_dec : EqDecision Tunnel.
Proof. solve_decision. Defined.

Record Ticket := {
  k_host : string;
  k_id : Uuid;
  k_generation : Z;
  k_deadline : Z;
  k_ref : N
}.

(** [g_now] is the database clock and [g_instant] the monotonic clock of the
    process. [t_ref] names a tunnel object, whose cancel flag, free stream
    permits and control messages are shared, and [k_ref] the one-shot channel
    of a ticket, on which [g_delivered] records the claim. [g_issued] is an
    auxiliary variable: every ticket ever issued, by its channel. *)
Record Gw := {
  g_now : Z;
  g_instant : Z;
  g_db : Db;
  g_tunnels : gmap string Tunnel;
  g_tickets : gmap string Ticket;
  g_streams : Z;
  g_lifecycles : Z;
  g_cancelled : gset N;
  g_permits : gmap N Z;
  g_messages : list (N * TunnelEvent);
  g_delivered : gmap N (Uuid * Z);
  g_issued : gmap N Ticket;
  g_next : N
}.

Definition MAX_TUNNEL_LIFECYCLES : Z := 5000.
Definition MAX_TUNNEL_LIFECYCLES_PER_CONNECTION : Z := 256.

(** The state [main] creates over an open store. *)
Definition gateway_start (now instant : Z) (d : Db) : Gw :=
  {| g_now := now; g_instant := instant; g_db := d; g_tunnels := ∅; g_tickets := ∅;
     g_streams := ingress_slots; g_lifecycles := MAX_TUNNEL_LIFECYCLES; g_cancelled := ∅;
     g_permits := ∅; g_messages := []; g_delivered := ∅; g_issued := ∅; g_next := 0 |}.

Definition set_db (d : Db) (g : Gw) : Gw :=
  {| g_now := g_now g; g_instant := g_instant g; g_db := d; g_tunnels := g_tunnels g; g_tickets := g_tickets g;
     g_streams := g_streams g; g_lifecycles := g_lifecycles g; g_cancelled := g_cancelled g;
     g_permits := g_permits g; g_messages := g_messages g; g_delivered := g_delivered g;
     g_issued := g_issued g; g_next := g_next g |}.
Definition set_tunnels (f : gmap string Tunnel -> gmap string Tunnel) (g : Gw) : Gw :=
  {| g_now := g_now g; g_instant := g_instant g; g_db := g_db g; g_tunnels := f (g_tunnels g); g_tickets := g_tickets g;
     g_streams := g_streams g; g_lifecycles := g_lifecycles g; g_cancelled := g_cancelled g;
     g_permits := g_permits g; g_messages := g_messages g; g_delivered := g_delivered g;
     g_issued := g_issued g; g_next := g_next g |}.
Definition set_tickets (f : gmap string Ticket -> gmap string Ticket) (g : Gw) : Gw :=
  {| g_now := g_now g; g_instant := g_instant g; g_db := g_db g; g_tunnels := g_tunnels g; g_tickets := f (g_tickets g);
     g_streams := g_streams g; g_lifecycles := g_lifecycles g; g_cancelled := g_cancelled g;
     g_permits := g_permits g; g_messages := g_messages g; g_delivered := g_delivered g;
     g_issued := g_issued g; g_next := g_next g |}.
Definition set_slots (streams lifecycles : Z) (permits : gmap N Z) (g : Gw) : Gw :=
  {| g_now := g_now g; g_instant := g_instant g; g_db := g_db g; g_tunnels := g_tunnels g; g_tickets := g_tickets g;
     g_streams := streams; g_lifecycles := lifecycles; g_cancelled := g_cancelled g;
     g_permits := permits; g_messages := g_messages g; g_delivered := g_delivered g;
     g_issued := g_issued g; g_next := g_next g |}.
Definition set_channels (cancelled : gset N) (messages : list (N * TunnelEvent)) (delivered : gmap N (Uuid * Z))
    (issued : gmap N Ticket) (next : N) (g : Gw) : Gw :=
  {| g_now := g_now g; g_instant := g_instant g; g_db := g_db g; g_tunnels := g_tunnels g; g_tickets := g_tickets g;
     g_streams := g_streams g; g_lifecycles := g_lifecycles g; g_cancelled := cancelled;
     g_permits := g_permits g; g_messages := messages; g_delivered := delivered;
     g_issued := issued; g_next := next |}.

Definition add_lifecycles (n : Z) (g : Gw) : Gw := set_slots (g_streams g) (g_lifecycles g + n) (g_permits g) g.
Definition add_streams (n : Z) (g : Gw) : Gw := set_slots (g_streams g + n) (g_lifecycles g) (g_permits g) g.
Definition add_permits (r : N) (n : Z) (g : Gw) : Gw :=
  set_slots (g_streams g) (g_lifecycles g) (alter (Z.add n) r (g_permits g)) g.
Definition take_ref (g : Gw) : Gw :=
  set_channels (g_cancelled g) (g_messages g) (g_delivered g) (g_issued g) (g_next g + 1)%N g.
Definition cancel (r : N) (g : Gw) : Gw :=
  set_channels ({[r]} ∪ g_cancelled g) (g_messages g) (g_delivered g) (g_issued g) (g_next g) g.
Definition post_message (r : N) (e : TunnelEvent) (g : Gw) : Gw :=
  set_channels (g_cancelled g) (g_messages g ++ [(r, e)]) (g_delivered g) (g_issued g) (g_next g) g.
Definition issue (key : string) (ticket : Ticket) (g : Gw) : Gw :=
  set_tickets <[key := ticket]>
    (set_channels (g_cancelled g) (g_messages g) (g_delivered g) (<[k_ref ticket := ticket]> (g_issued g))
      (g_next g + 1)%N g).
Definition deliver_claim (r : N) (claim : Uuid * Z) (g : Gw) : Gw :=
  set_channels (g_cancelled g) (g_messages g) (<[r := claim]> (g_delivered g)) (g_issued g) (g_next g) g.

(** ** The monad of handlers *)
Inductive StoreFault := StoreOk | StoreDown | AckFails.
Record Env := {
  e_others : nat -> Gw -> Gw;
  e_store : nat -> StoreFault;
  e_respond : nat -> bool
}.

Inductive GwError := TlsFailed | StoreFailed | ResponseFailed | Refused (reason : string) | SniFailed (e : SniError).

Definition GwM (A : Type) : Type := Env -> nat * Gw -> result GwError A * (nat * Gw).
#[global] Instance gw_ret : MRet GwM := fun A a e s => (Ok a, s).
#[global] Instance gw_bind : MBind GwM := fun A B f m e s =>
  match m e s with
  | (Ok a, s') => f a e s'
  | (Err err, s') => (Err err, s')
  end.

Definition fail {A} (err : GwError) : GwM A := fun _ s => (Err err, s).
Definition gets {A} (f : Gw -> A) : GwM A := fun _ s => (Ok (f s.2), s).
Definition update (f : Gw -> Gw) : GwM unit := fun _ s => (Ok tt, (s.1, f s.2)).
(** An await: the other tasks run. *)
Definition yield : GwM unit := fun e s => (Ok tt, (S s.1, e_others e s.1 s.2)).
(** [send_response], which does not wait. *)
Definition respond : GwM unit := fun e s =>
  (if e_respond e s.1 then Ok tt else Err ResponseFailed, (S s.1, s.2)).

(** A store call at the database's time. *)
Definition store_tx {A} (m : Z -> Tx A) : GwM A := fun e s =>
  let g := e_others e s.1 s.2 in
  match e_store e s.1 with
  | StoreDown => (Err StoreFailed, (S s.1, g))
  | fault =>
      match m (g_now g) (g_db g) with
      | Err _ => (Err StoreFailed, (S s.1, g))
      | Ok (a, d') =>
          (match fault with AckFails => Err StoreFailed | _ => Ok a end, (S s.1, set_db d' g))
      end
  end.
Definition store_read {A} (f : Z -> Db -> A) : GwM A := store_tx (fun now => tx_gets (f now)).

(** Permits held by a computation that fails are dropped. *)
Definition releasing {A} (f : Gw -> Gw) (m : GwM A) : GwM A := fun e s =>
  match m e s with
  | (Err err, s') => (Err err, (s'.1, f s'.2))
  | r => r
  end.

(** ** Pure helpers *)
Definition ticket_owner_matches (active_host : string) (active_id : Uuid) (active_generation : Z)
    (ticket_host : string) (ticket_id : Uuid) (ticket_generation : Z) : bool :=
  bool_decide (active_host = ticket_host) && bool_decide (active_id = ticket_id)
  && (active_generation =? ticket_generation).

Definition ticket_claim_matches (ticket : Ticket) (id : Uuid) (host : string) (generation : Z)
    (authority : option string) (now : Z) : bool :=
  (now <? k_deadline ticket) && bool_decide (authority = Some (k_host ticket))
  && ticket_owner_matches host id generation (k_host ticket) (k_id ticket) (k_generation ticket).

Definition generation_can_replace (current : option Z) (candidate : Z) : bool :=
  match current with Some generation => generation <? candidate | None => true end.

(** [tunnels.get(host).is_some_and(|t| t.id == id && t.generation == generation)]. *)
Definition owns_host (host : string) (id : Uuid) (generation : Z) (g : Gw) : bool :=
  match g_tunnels g !! host with
  | Some t => bool_decide (t_id t = id) && (t_generation t =? generation)
  | None => false
  end.

(** The request headers that are present and readable as text. *)
Record Headers := {
  h_version : option string;
  h_installation : option string;
  h_hostname : option string;
  h_generation : option string;
  h_authorization : option string;
  h_ticket : option string;
  h_authority : option string
}.

Definition parse_u16 (s : string) : option Z :=
  n ← parse_u64 (str_bytes s); if n <=? 65535 then Some n else None.

(** ** Handlers *)
Inductive Status := S200 | S401 | S404 | S409 | S410 | S503.

Section handlers.
Context `{Crypto} (uuid_parse_str : string -> option Uuid) (gateway_id : string).

Definition wire_version (h : Headers) : option Z := v ← h_version h; parse_u16 v.
Definition installation (h : Headers) : option Uuid := v ← h_installation h; uuid_parse_str v.
Definition bearer (h : Headers) : option string := v ← h_authorization h; strip_prefix "Bearer " v.
Definition generation_header (h : Headers) : option Z := v ← h_generation h; parse_u64 (str_bytes v).

(** The checks both requests share: version, hostname syntax, the hostname
    stored for the installation, and the bearer. *)
Definition bearer_valid (version : option Z) (id : Uuid) (host token : string) : GwM bool :=
  if negb (bool_decide (version = Some WIRE_VERSION)) || is_err (validate_hostname host) then mret false
  else
    stored ← store_read (fun _ d => hostname_of id d);
    if negb (bool_decide (stored = Some host)) then mret false
    else
      generation ← store_read (fun now d => authenticate_bearer now id "tunnel" token d);
      mret (bool_decide (is_Some generation)).

(** [store.tunnel_is_current]; its witness check is one of the faults. *)
Definition tunnel_current (id : Uuid) (generation : Z) : GwM bool :=
  store_read (fun now d => lease_is_current now id gateway_id generation d).

(** *** POST /v1/tunnel

    [local] are the free lifecycle permits of the connection. The result is
    the status, the permits left and the tunnel whose lifecycle starts. *)
Definition install_tunnel (id : Uuid) (host : string) (generation local : Z) :
    GwM (Status * Z * option (string * Tunnel)) :=
  _ ← yield;
  current ← gets (fun g => g_tunnels g !! host);
  if negb (generation_can_replace (t_generation <$> current) generation)
  then _ ← respond; _ ← update (add_lifecycles 1); mret (S409, local, None)
  else
    _ ← respond;
    r ← gets g_next;
    let tunnel := {| t_id := id; t_generation := generation; t_ref := r |} in
    _ ← update (fun g =>
      let g := set_tunnels <[host := tunnel]> (take_ref g) in
      let g := set_slots (g_streams g) (g_lifecycles g) (<[r := MAX_INSTALLATION_STREAMS]> (g_permits g)) g in
      match current with Some displaced => cancel (t_ref displaced) g | None => g end);
    mret (S200, local - 1, Some (host, tunnel)).

Definition claim_and_install (id : Uuid) (host : string) (local : Z) :
    GwM (Status * Z * option (string * Tunnel)) :=
  generation ← store_tx (fun now => claim_tunnel_tx now id gateway_id 45);
  install_tunnel id host generation local.

Definition acquire_lifecycle : GwM bool :=
  _ ← yield;
  free ← gets g_lifecycles;
  if 0 <? free then _ ← update (add_lifecycles (-1)); mret true else mret false.

Definition post_tunnel (h : Headers) (local : Z) : GwM (Status * Z * option (string * Tunnel)) :=
  match installation h, h_hostname h, bearer h with
  | Some id, Some host, Some token =>
      valid ← bearer_valid (wire_version h) id host token;
      if negb valid then _ ← respond; mret (S401, local, None)
      else if local <=? 0 then _ ← respond; mret (S503, local, None)
      else
        acquired ← acquire_lifecycle;
        if negb acquired then _ ← respond; mret (S503, local, None)
        else releasing (add_lifecycles 1) (claim_and_install id host local)
  | _, _, _ => _ ← respond; mret (S401, local, None)
  end.

(** *** CONNECT *)
Definition attach_valid (version : option Z) (id : Uuid) (host : string) (generation : Z) (token : string) :
    GwM bool :=
  valid ← bearer_valid version id host token;
  if negb valid then mret false
  else
    _ ← yield;
    owns ← gets (owns_host host id generation);
    if negb owns then mret false else tunnel_current id generation.

(** Under the lock of the tickets: take the ticket if the claim matches. *)
Definition claim_ticket (h : Headers) (id : Uuid) (host : string) (generation : Z) : GwM (option Ticket) :=
  match h_ticket h with
  | None => mret None
  | Some key =>
      _ ← yield;
      found ← gets (fun g => g_tickets g !! key);
      now ← gets g_instant;
      match found with
      | Some ticket =>
          if ticket_claim_matches ticket id host generation (h_authority h) now
          then _ ← update (set_tickets (delete key)); mret (Some ticket)
          else mret None
      | None => mret None
      end
  end.

Definition finish_claim (id : Uuid) (host : string) (generation : Z) (ticket : Ticket) : GwM Status :=
  _ ← yield;
  owns ← gets (owns_host host id generation);
  still_current ← (if (owns : bool) then tunnel_current id generation else mret false : GwM bool);
  if (still_current : bool)
  then _ ← respond; _ ← update (deliver_claim (k_ref ticket) (id, generation)); mret S200
  else _ ← respond; mret S410.

Definition connect (h : Headers) : GwM Status :=
  match installation h, h_hostname h, generation_header h, bearer h with
  | Some id, Some host, Some generation, Some token =>
      valid ← attach_valid (wire_version h) id host generation token;
      if negb valid then _ ← respond; mret S401
      else
        ticket ← claim_ticket h id host generation;
        match ticket with
        | Some ticket => finish_claim id host generation ticket
        | None => _ ← respond; mret S410
        end
  | _, _, _, _ => _ ← respond; mret S401
  end.

(** *** A browser connection, up to the bridge

    [key] and [connection_id] are the fresh UUIDs, [now_ms] the wall clock,
    and [sent] whether the control channel took the message in time. The
    result is the claim that was delivered. *)
Definition remove_ticket (key : string) : GwM unit := _ ← yield; update (set_tickets (delete key)).

Definition open_ticket (key host : string) (tunnel : Tunnel) : GwM N :=
  deadline ← gets (fun g => g_instant g + seconds 10);
  _ ← yield;
  r ← gets g_next;
  _ ← update (issue key {| k_host := host; k_id := t_id tunnel; k_generation := t_generation tunnel;
                           k_deadline := deadline; k_ref := r |});
  mret r.

Definition request_stream (key host : string) (connection_id : Uuid) (now_ms : Z) (sent : bool)
    (tunnel : Tunnel) : GwM (Uuid * Z) :=
  current ← tunnel_current (t_id tunnel) (t_generation tunnel);
  if negb current then fail (Refused "stale tunnel")
  else
    r ← open_ticket key host tunnel;
    _ ← yield;
    if negb sent
    then _ ← remove_ticket key; fail (Refused "tunnel control stream unavailable")
    else
      _ ← update (post_message (t_ref tunnel)
        (Open WIRE_VERSION key connection_id host (t_generation tunnel) (now_ms + 10000)));
      _ ← yield;
      claim ← gets (fun g => g_delivered g !! r);
      _ ← remove_ticket key;
      match claim with
      | Some claim => mret claim
      | None => fail (Refused "stream not claimed")
      end.

(** The permits are dropped when the connection ends, which is after the
    bridge when the stream was claimed. *)
Definition browser_connection (hello : result SniError (string * list byte)) (key : string)
    (connection_id : Uuid) (now_ms : Z) (sent : bool) : GwM (string * Tunnel * (Uuid * Z)) :=
  free ← gets g_streams;
  if free <=? 0 then fail (Refused "no permits")
  else
    _ ← update (add_streams (-1));
    releasing (add_streams 1) (
      _ ← yield;
      match hello with
      | Err e => fail (SniFailed e)
      | Ok (host, _) =>
          _ ← yield;
          found ← gets (fun g => g_tunnels g !! host);
          match found with
          | None => fail (Refused "no tunnel")
          | Some tunnel =>
              permits ← gets (fun g => default 0 (g_permits g !! t_ref tunnel));
              if permits <=? 0 then fail (Refused "no permits")
              else
                _ ← update (add_permits (t_ref tunnel) (-1));
                releasing (add_permits (t_ref tunnel) 1) (
                  claim ← request_stream key host connection_id now_ms sent tunnel;
                  mret (host, tunnel, claim))
          end
      end).

(** *** A tunnel's lifecycle *)
Inductive Action := Cancel | Reset | Message (message : option (list byte)) | HeartbeatTick.

(** [renew_lifecycle]: a failing, interrupted or late renewal counts as lost. *)
Definition renew_lifecycle (tunnel : Tunnel) : GwM bool := fun e s =>
  match store_tx (fun now => renew_tunnel_tx now (t_id tunnel) gateway_id (t_generation tunnel)) e s with
  | (Ok renewed, s') => (Ok renewed, s')
  | (Err _, s') => (Ok false, s')
  end.

(** One turn of the loop; [sent] is whether the control stream took the data
    in time. [false] leaves the loop. *)
Definition lifecycle_turn (host : string) (tunnel : Tunnel) (action : Action) (sent : bool) : GwM bool :=
  match action with
  | Cancel | Reset | Message None => mret false
  | Message (Some _) => _ ← yield; mret sent
  | HeartbeatTick =>
      _ ← yield;
      owns ← gets (owns_host host (t_id tunnel) (t_generation tunnel));
      if negb owns then mret false
      else
        renewed ← renew_lifecycle tunnel;
        if negb renewed then mret false
        else _ ← yield; mret sent
  end.

Definition lifecycle_end (host : string) (tunnel : Tunnel) : GwM unit :=
  _ ← yield;
  owns ← gets (owns_host host (t_id tunnel) (t_generation tunnel));
  _ ← (if (owns : bool) then update (set_tunnels (delete host)) else mret tt : GwM unit);
  update (add_lifecycles 1).

(** The actions seen. When they run out the task is aborted with the
    connection that spawned it: its permit is dropped, and the tunnel stays in
    the map. *)
Fixpoint tunnel_lifecycle (host : string) (tunnel : Tunnel) (actions : list (Action * bool)) : GwM unit :=
  match actions with
  | [] => update (add_lifecycles 1)
  | (action, sent) :: rest =>
      continue ← lifecycle_turn host tunnel action sent;
      if (continue : bool) then tunnel_lifecycle host tunnel rest else lifecycle_end host tunnel
  end.

(** *** A control connection *)
Inductive ConnectionEvent :=
| PostTunnel (h : Headers)
| ConnectStream (h : Headers)
| OtherRequest
| LifecycleDone
| AuthenticationDeadline
| ConnectionClosed.

(** Whether a request passed authentication, from its status. *)
Definition authenticates (s : Status) : bool :=
  match s with S401 | S404 => false | _ => true end.

(** [serve_control_connection]: the flag [authenticated] and the lifecycle
    permits of the connection; the deadline only fires before the first
    authenticated request. *)
Fixpoint serve_control_connection (events : list ConnectionEvent) (authenticated : bool) (local : Z) :
    GwM (list (string * Tunnel)) :=
  match events with
  | [] | ConnectionClosed :: _ => mret []
  | PostTunnel h :: rest =>
      r ← post_tunnel h local;
      let '(status, local, started) := r in
      tunnels ← serve_control_connection rest (authenticated || authenticates status) local;
      mret (match started with Some t => t :: tunnels | None => tunnels end)
  | ConnectStream h :: rest =>
      status ← connect h;
      serve_control_connection rest (authenticated || authenticates status) local
  | OtherRequest :: rest => _ ← respond; serve_control_connection rest authenticated local
  | LifecycleDone :: rest => serve_control_connection rest authenticated (local + 1)
  | AuthenticationDeadline :: rest =>
      if authenticated then serve_control_connection rest authenticated local else mret []
  end.

(** [control_connection]: the TLS handshake and the protocol it agreed on, the
    HTTP/2 handshake, the requests; then the lifecycles of the connection are
    told to end and waited for, also after an error. *)
Definition control_connection (tls : Timed (option (option string))) (h2 : Timed bool) (events : list ConnectionEvent) : GwM unit :=
  _ ← yield;
  match tls with
  | InTime (Some alpn) =>
      if negb (bool_decide (alpn = Some "h2"%string)) then fail (Refused "HTTP/2 required")
      else
        _ ← yield;
        match h2 with
        | InTime true => fun e s =>
            let (served, s1) := serve_control_connection events false MAX_TUNNEL_LIFECYCLES_PER_CONNECTION e s in
            let (_, s2) := yield e s1 in
            (_ ← served; Ok tt, s2)
        | _ => fail TlsFailed
        end
  | _ => fail TlsFailed
  end.
End handlers.
