(* ===== verification/GatewayTasks.v ===== *)
(** * The gateway's tasks under interference

    A rely-guarantee argument about the handlers of [Gateway]: [gw_ok] is the
    invariant of the shared state and [gw_step] what one task may do to the
    others. [triple] is a Hoare triple for a task whose other tasks keep to
    both, and every handler is shown to keep to them as well. *)

From Stdlib Require Import Ascii String Strings.Byte.
From stdpp Require Import base strings list gmap.
From S2P Require Import Prelude Protocol Db Witness Store StoreCredentials StoreChallenges.
From S2P Require Import StoreLifecycle StoreHistory StoreInvariant StoreEffects Ingress Gateway.

(** The installation exists and has the hostname. *)
Definition owner_of_host (id : Uuid) (host : string) (d : Db) : Prop :=
  exists row, d_installations d !! id = Some row /\ i_hostname row = host.

Section tasks.
Context `{Crypto} `{Base32} `{!Base32Law} (cfg : StoreConfig).

Record gw_ok (g : Gw) : Prop := {
  go_db : reachable cfg (g_now g) (g_db g);
  go_tunnels : forall host t, g_tunnels g !! host = Some t ->
    owner_of_host (t_id t) host (g_db g) /\ is_u64 (t_generation t);
  go_issued : forall r k, g_issued g !! r = Some k ->
    (r < g_next g)%N /\ k_ref k = r /\ owner_of_host (k_id k) (k_host k) (g_db g);
  go_tickets : forall key k, g_tickets g !! key = Some k -> g_issued g !! k_ref k = Some k;
  go_one_key : forall key1 key2 k, g_tickets g !! key1 = Some k -> g_tickets g !! key2 = Some k -> key1 = key2;
  go_delivered : forall r claim, g_delivered g !! r = Some claim ->
    exists k, g_issued g !! r = Some k /\ claim = (k_id k, k_generation k)
}.

Record gw_step (g g' : Gw) : Prop := {
  gs_db : history cfg (g_now g) (g_db g) (g_now g') (g_db g');
  gs_instant : g_instant g <= g_instant g';
  gs_next : (g_next g <= g_next g')%N;
  gs_issued : g_issued g ⊆ g_issued g';
  gs_tickets : forall key k, g_tickets g' !! key = Some k ->
    g_tickets g !! key = Some k \/ (g_next g <= k_ref k)%N;
  gs_cancelled : g_cancelled g ⊆ g_cancelled g'
}.

#[global] Instance gw_step_preorder : PreOrder gw_step.
Proof.
  split.
  - intros g. split; [constructor | lia.. | done | auto | done].
  - intros a b c [] []. split; [by eapply history_trans | lia | lia | by etrans | | by etrans].
    intros key k [Hk|Hk]%gs_tickets1; [|right; lia]. destruct (gs_tickets0 key k Hk); auto.
Qed.

(** ** Stability *)
Lemma owner_stable id host g g' :
  gw_step g g' -> owner_of_host id host (g_db g) -> owner_of_host id host (g_db g').
Proof.
  intros Hs (row & Hrow & <-). apply gs_db in Hs. apply history_history_le in Hs as [Hle _].
  destruct (row_grows _ _ _ _ Hle Hrow) as (row' & ? & (? & _)). exists row'. split; [done | congruence].
Qed.

(** A ticket that left the table does not come back. *)
Definition ticket_gone (r : N) (g : Gw) : Prop :=
  (r < g_next g)%N /\ forall key k, g_tickets g !! key = Some k -> k_ref k <> r.

Lemma ticket_gone_stable r g g' : gw_step g g' -> ticket_gone r g -> ticket_gone r g'.
Proof.
  intros Hs [Hr Hg]. split; [pose proof (gs_next _ _ Hs); lia|]. intros key k Hk.
  destruct (gs_tickets _ _ Hs _ _ Hk) as [Hk'|Hk']; [by apply (Hg key) | lia].
Qed.

(** ** Triples *)
Definition others_ok (e : Env) : Prop := forall n g,
  gw_ok g -> gw_ok (e_others e n g) /\ gw_step g (e_others e n g).

Definition triple {A} (P : Gw -> Prop) (m : GwM A) (Q : A -> Gw -> Prop) : Prop :=
  forall e n g res n' g', others_ok e -> gw_ok g -> P g -> m e (n, g) = (res, (n', g')) ->
  gw_ok g' /\ gw_step g g' /\ match res with Ok a => Q a g' | Err _ => True end.

(** A property of the shared state that other tasks do not break. *)
Definition stable (P : Gw -> Prop) : Prop := forall g g', gw_ok g' -> gw_step g g' -> P g -> P g'.

Lemma triple_ret {A} (a : A) P Q : (forall g, P g -> Q a g) -> triple P (mret a) Q.
Proof. intros HQ e n g res n' g' _ Hg HP [= <- <- <-]. split_and!; [done | done | by apply HQ]. Qed.

Lemma triple_fail {A} err P (Q : A -> Gw -> Prop) : triple P (fail err) Q.
Proof. intros e n g res n' g' _ Hg _ [= <- <- <-]. done. Qed.

Lemma triple_bind {A B} (m : GwM A) (f : A -> GwM B) P Q R :
  triple P m Q -> (forall a, triple (Q a) (f a) R) -> triple P (m ≫= f) R.
Proof.
  intros Hm Hf e n g res n' g' He Hg HP Hb. unfold mbind, gw_bind in Hb.
  destruct (m e (n, g)) as [[a|err] [n1 g1]] eqn:Hm1.
  - destruct (Hm _ _ _ _ _ _ He Hg HP Hm1) as (Hg1 & Hs1 & HQ).
    destruct (Hf a _ _ _ _ _ _ He Hg1 HQ Hb) as (? & ? & ?). split_and!; [done | by etrans | done].
  - injection Hb as <- <- <-. destruct (Hm _ _ _ _ _ _ He Hg HP Hm1) as (? & ? & _). done.
Qed.

Lemma triple_conseq {A} (P P' : Gw -> Prop) (m : GwM A) (Q Q' : A -> Gw -> Prop) :
  triple P' m Q' -> (forall g, P g -> P' g) -> (forall a g, Q' a g -> Q a g) -> triple P m Q.
Proof.
  intros Hm HP HQ e n g res n' g' He Hg Hp Hr. destruct (Hm _ _ _ _ _ _ He Hg (HP _ Hp) Hr) as (? & ? & ?).
  split_and!; [done..|]. destruct res; auto.
Qed.

Lemma triple_pre {A} (P' P : Gw -> Prop) (m : GwM A) (Q : A -> Gw -> Prop) :
  (forall g, P g -> P' g) -> triple P' m Q -> triple P m Q.
Proof. intros HP Hm. eapply triple_conseq; eauto. Qed.

Lemma triple_gets {A} (f : Gw -> A) P : triple P (gets f) (fun a g => P g /\ a = f g).
Proof. intros e n g res n' g' _ Hg HP [= <- <- <-]. done. Qed.

Lemma triple_gets_ok {A} (f : Gw -> A) P : triple P (gets f) (fun a g => P g /\ a = f g /\ gw_ok g).
Proof. intros e n g res n' g' _ Hg HP [= <- <- <-]. done. Qed.

Lemma triple_yield P : stable P -> triple P yield (fun _ => P).
Proof.
  intros HP e n g res n' g' He Hg Hp [= <- <- <-]. destruct (He n g Hg) as [? ?]. split_and!; [done..|].
  by eapply HP.
Qed.

Lemma triple_respond P : triple P respond (fun _ => P).
Proof. intros e n g res n' g' _ Hg HP [= <- <- <-]. split_and!; [done..|]. by destruct (e_respond e n). Qed.

Lemma triple_update f P (Q : Gw -> Prop) :
  (forall g, gw_ok g -> P g -> gw_ok (f g) /\ gw_step g (f g) /\ Q (f g)) ->
  triple P (update f) (fun _ => Q).
Proof. intros Hf e n g res n' g' _ Hg HP [= <- <- <-]. by apply Hf. Qed.

Lemma triple_releasing {A} f (m : GwM A) P Q :
  (forall g, gw_ok g -> gw_ok (f g) /\ gw_step g (f g)) -> triple P m Q -> triple P (releasing f m) Q.
Proof.
  intros Hf Hm e n g res n' g' He Hg HP Hr. unfold releasing in Hr.
  destruct (m e (n, g)) as [[a|err] [n1 g1]] eqn:Hm1.
  - injection Hr as <- <- <-. by apply (Hm _ _ _ _ _ _ He Hg HP Hm1).
  - injection Hr as <- <- <-. destruct (Hm _ _ _ _ _ _ He Hg HP Hm1) as (Hg1 & Hs1 & _).
    destruct (Hf g1 Hg1). split_and!; [done | by etrans | done].
Qed.

(** Every fact about the past stays. *)
Lemma stable_since g0 : stable (gw_step g0).
Proof. intros g g' _ Hs Hold. by etrans. Qed.
Lemma stable_and P Q : stable P -> stable Q -> stable (fun g => P g /\ Q g).
Proof. intros HP HQ g g' Hg Hs [Hp Hq]. split; [by eapply HP | by eapply HQ]. Qed.
Lemma stable_const (P : Prop) : stable (fun _ => P).
Proof. by intros g g' _ _ HP. Qed.
Lemma stable_owner id host : stable (fun g => owner_of_host id host (g_db g)).
Proof. intros g g' _ Hs. by apply owner_stable. Qed.
Lemma stable_issued r k : stable (fun g => g_issued g !! r = Some k).
Proof. intros g g' _ Hs Hk. eapply lookup_weaken; [exact Hk | apply Hs]. Qed.
Lemma stable_gone r : stable (ticket_gone r).
Proof. intros g g' _ Hs. by apply ticket_gone_stable. Qed.

(** It held at some moment since. *)
Definition once (P : Gw -> Prop) (g0 g : Gw) : Prop := exists g1, gw_step g0 g1 /\ gw_step g1 g /\ P g1.
Lemma stable_once P g0 : stable (once P g0).
Proof. intros g g' _ Hs (g1 & ? & ? & ?). exists g1. split_and!; [done | by etrans | done]. Qed.
End tasks.


Ltac gw_bind := eapply triple_bind; [|intros ?; cbv beta].
Ltac gw_done := repeat first
  [ assumption | apply stable_const | apply stable_owner | apply stable_issued | apply stable_gone
  | apply stable_once | apply stable_since | apply stable_and ].

Section calls.
Context `{Crypto} `{Base32} `{!Base32Law} (cfg : StoreConfig).
Abbreviation triple := (triple cfg).
Abbreviation stable := (stable cfg).
Abbreviation gw_ok := (gw_ok cfg).
Abbreviation gw_step := (gw_step cfg).
Abbreviation once := (once cfg).

(** ** Changes of the shared state *)
Lemma gw_set_db g d' :
  gw_ok g -> history cfg (g_now g) (g_db g) (g_now g) d' -> gw_ok (set_db d' g) /\ gw_step g (set_db d' g).
Proof.
  intros Hg Hh. assert (gw_step g (set_db d' g)) as Hs by (split; cbn; auto; lia).
  split; [|done]. pose proof (fun id host => owner_stable cfg id host _ _ Hs) as Ho. cbn in Ho.
  destruct Hg as [[start Hr] Ht Hi Hk Hone Hd]. split; cbn.
  - exists start. by eapply history_trans.
  - intros host t Hl. destruct (Ht host t Hl). auto.
  - intros r k Hl. destruct (Hi r k Hl) as (? & ? & ?). auto.
  - done.
  - done.
  - done.
Qed.

Lemma gw_set_slots a b c g : gw_ok g -> gw_ok (set_slots a b c g) /\ gw_step g (set_slots a b c g).
Proof. intros []. split; split; cbn; auto; try lia. constructor. Qed.

Lemma gw_add_lifecycles n g : gw_ok g -> gw_ok (add_lifecycles n g) /\ gw_step g (add_lifecycles n g).
Proof. apply gw_set_slots. Qed.
Lemma gw_add_streams n g : gw_ok g -> gw_ok (add_streams n g) /\ gw_step g (add_streams n g).
Proof. apply gw_set_slots. Qed.
Lemma gw_add_permits r n g : gw_ok g -> gw_ok (add_permits r n g) /\ gw_step g (add_permits r n g).
Proof. apply gw_set_slots. Qed.

Lemma gw_take_ref g : gw_ok g -> gw_ok (take_ref g) /\ gw_step g (take_ref g).
Proof.
  intros [Hd Ht Hi Hk Hone He]. split; split; cbn; auto; try lia; [|constructor].
  intros r k Hl. destruct (Hi r k Hl) as (? & ? & ?). split_and!; [lia | done | done].
Qed.

Lemma gw_cancel r g : gw_ok g -> gw_ok (cancel r g) /\ gw_step g (cancel r g).
Proof. intros []. split; split; cbn; auto; try lia; [constructor | set_solver]. Qed.

Lemma gw_post_message r e g : gw_ok g -> gw_ok (post_message r e g) /\ gw_step g (post_message r e g).
Proof. intros []. split; split; cbn; auto; try lia. constructor. Qed.

Lemma gw_insert_tunnel host t g :
  gw_ok g -> owner_of_host (t_id t) host (g_db g) -> is_u64 (t_generation t) ->
  gw_ok (set_tunnels <[host := t]> g) /\ gw_step g (set_tunnels <[host := t]> g).
Proof.
  intros [Hd Ht Hi Hk Hone He] Ho Hu. split; split; cbn; auto; try lia; [|constructor].
  intros h t'. rewrite lookup_insert_Some. intros [[<- <-] | [_ ?]]; auto.
Qed.

Lemma gw_delete_tunnel host g :
  gw_ok g -> gw_ok (set_tunnels (delete host) g) /\ gw_step g (set_tunnels (delete host) g).
Proof.
  intros [Hd Ht Hi Hk Hone He]. split; split; cbn; auto; try lia; [|constructor].
  intros h t' [_ ?]%lookup_delete_Some; auto.
Qed.

Lemma gw_delete_ticket key g :
  gw_ok g -> gw_ok (set_tickets (delete key) g) /\ gw_step g (set_tickets (delete key) g).
Proof.
  intros [Hd Ht Hi Hk Hone He]. split; split; cbn; auto; try lia.
  - intros k' k [_ ?]%lookup_delete_Some. by eapply Hk.
  - intros k1 k2 k [_ ?]%lookup_delete_Some [_ ?]%lookup_delete_Some. by eapply Hone.
  - constructor.
  - intros k' k [_ ?]%lookup_delete_Some. auto.
Qed.

(** The claimed ticket is gone for good. *)
Lemma gw_claimed key k g :
  gw_ok g -> g_tickets g !! key = Some k -> ticket_gone (k_ref k) (set_tickets (delete key) g).
Proof.
  intros Hg Hk. pose proof (go_tickets _ _ Hg _ _ Hk) as Hi.
  destruct (go_issued _ _ Hg _ _ Hi) as (Hr & _ & _). split; [done|]. cbn.
  intros key' k' [Hne Hk']%lookup_delete_Some Heq. pose proof (go_tickets _ _ Hg _ _ Hk') as Hi'.
  rewrite Heq in Hi'. assert (k' = k) as -> by congruence. apply Hne. by eapply (go_one_key _ _ Hg).
Qed.

Lemma gw_issue key k g :
  gw_ok g -> k_ref k = g_next g -> owner_of_host (k_id k) (k_host k) (g_db g) ->
  gw_ok (issue key k g) /\ gw_step g (issue key k g).
Proof.
  intros Hg Hr Ho. pose proof Hg as [Hd Ht Hi Hk Hone He].
  assert (forall k', g_issued g !! k_ref k' = Some k' -> k' <> k) as Hnew.
  { intros k' Hk' ->. apply Hi in Hk' as (? & _). lia. }
  split; split; cbn; auto.
  - intros r k'. rewrite lookup_insert_Some. intros [[<- <-] | [_ Hl]]; [split_and!; [lia | done..]|].
    destruct (Hi r k' Hl) as (? & ? & ?). split_and!; [lia | done | done].
  - intros key' k'. rewrite lookup_insert_Some. intros [[_ <-] | [_ Hl]]; [by rewrite lookup_insert_eq|].
    apply Hk in Hl. rewrite lookup_insert_ne; [done|]. intros Heq. rewrite <-Heq in Hl.
    apply Hi in Hl as (? & _). lia.
  - intros k1 k2 k'. rewrite !lookup_insert_Some. intros [[<- <-] | [? Hl1]] [[? Heq] | [? Hl2]]; auto.
    + exfalso. by eapply Hnew; [eapply Hk|].
    + exfalso. by eapply Hnew; [eapply Hk|].
    + by eapply Hone.
  - intros r claim Hl. destruct (He r claim Hl) as (k' & Hi' & ->). exists k'. split; [|done].
    rewrite lookup_insert_ne; [done|]. apply Hi in Hi' as (? & _). lia.
  - constructor.
  - lia.
  - lia.
  - apply insert_subseteq. destruct (g_issued g !! k_ref k) as [k'|] eqn:Hl; [|done].
    apply Hi in Hl as (? & _). lia.
  - intros key' k'. rewrite lookup_insert_Some. intros [[_ <-] | [_ ?]]; [right; lia | auto].
Qed.

Lemma gw_deliver k g :
  gw_ok g -> g_issued g !! k_ref k = Some k ->
  gw_ok (deliver_claim (k_ref k) (k_id k, k_generation k) g) /\
  gw_step g (deliver_claim (k_ref k) (k_id k, k_generation k) g).
Proof.
  intros [Hd Ht Hi Hk Hone He] Hiss. split; split; cbn; auto; try lia; [|constructor].
  intros r claim. rewrite lookup_insert_Some. intros [[<- <-] | [_ ?]]; eauto.
Qed.

(** ** Store calls *)
Lemma triple_store_tx {A} (m : Z -> Tx A) P Q :
  stable P ->
  (forall g a d', gw_ok g -> P g -> m (g_now g) (g_db g) = Ok (a, d') ->
     history cfg (g_now g) (g_db g) (g_now g) d' /\ Q a (set_db d' g)) ->
  triple P (store_tx m) Q.
Proof.
  intros HP Hm e n g res n' g' He Hg Hp Hr. unfold store_tx in Hr. cbn in Hr.
  destruct (He n g Hg) as [Hg1 Hs1]. set (g1 := e_others e n g) in *.
  assert (P g1) as Hp1 by by eapply HP.
  destruct (e_store e n); [| by injection Hr as <- <- <- |];
    (destruct (m (g_now g1) (g_db g1)) as [[a d']|] eqn:Hm1; [|by injection Hr as <- <- <-]);
    injection Hr as <- <- <-; destruct (Hm _ _ _ Hg1 Hp1 Hm1) as [Hh HQ];
    destruct (gw_set_db g1 d' Hg1 Hh); split_and!; (done || by etrans).
Qed.

Lemma triple_store_read {A} (f : Z -> Db -> A) P :
  stable P -> triple P (store_read f) (fun a g => P g /\ a = f (g_now g) (g_db g)).
Proof.
  intros HP. apply triple_store_tx; [done|]. intros g a d' Hg Hp [= <- <-]. split; [constructor|].
  by destruct g.
Qed.
End calls.
