(* ===== verification/GatewayProperties.v ===== *)
(** * What the gateway's handlers guarantee

    Each handler keeps the invariant and the step relation of
    [GatewayTasks] whatever the other tasks do; a stream is only attached to
    the tunnel of the hostname's owner, once, and never for a superseded
    generation. *)

From Stdlib Require Import Ascii String Strings.Byte.
From stdpp Require Import base strings list gmap.
From S2P Require Import Prelude Protocol Db Witness Store StoreCredentials StoreChallenges.
From S2P Require Import StoreLifecycle StoreHistory StoreInvariant StoreEffects StoreProperties.
From S2P Require Import Ingress Gateway GatewayTasks.

Section handlers.
Context `{Crypto} `{Base32} `{!Base32Law} (cfg : StoreConfig).
Context (uuid_parse_str : string -> option Uuid) (gateway_id : string).
Abbreviation triple := (triple cfg).
Abbreviation stable := (stable cfg).
Abbreviation gw_ok := (gw_ok cfg).
Abbreviation gw_step := (gw_step cfg).
Abbreviation once := (once cfg).

Definition leased (id : Uuid) (generation : Z) (g : Gw) : Prop :=
  lease_is_current (g_now g) id gateway_id generation (g_db g) = true.
Definition bearer_live (id : Uuid) (token : string) (g : Gw) : Prop :=
  is_Some (authenticate_bearer (g_now g) id "tunnel" token (g_db g)).

Lemma once_now P g0 g : gw_step g0 g -> P g -> once P g0 g.
Proof. intros Hs HP. by exists g. Qed.

Lemma hostname_owner id d host : hostname_of id d = Some host -> owner_of_host id host d.
Proof.
  unfold hostname_of. intros (row & Hs & ->)%fmap_Some.
  apply select_installation_Some in Hs as [? _]. by exists row.
Qed.

(** ** Authentication *)
Definition authenticated_by (g0 : Gw) (version : option Z) (id : Uuid) (host token : string) (g : Gw) : Prop :=
  version = Some WIRE_VERSION /\ validate_hostname host = Ok tt /\ owner_of_host id host (g_db g) /\
  once (bearer_live id token) g0 g.

Lemma stable_authenticated g0 version id host token : stable (authenticated_by g0 version id host token).
Proof. unfold authenticated_by. gw_done. Qed.

Lemma triple_bearer_valid g0 version id host token :
  triple (gw_step g0) (bearer_valid version id host token)
    (fun valid g => gw_step g0 g /\ (valid = true -> authenticated_by g0 version id host token g)).
Proof.
  unfold bearer_valid. destruct (_ || _) eqn:Hv; [apply triple_ret; naive_solver|]. to_prop.
  assert (validate_hostname host = Ok tt) as Hhost by (clear -Hv; by destruct (validate_hostname host) as [[]|]).
  gw_bind; [apply triple_store_read; gw_done|]. case_bool_decide as Hstored; [|apply triple_ret; cbn; naive_solver].
  cbn [negb]. apply (triple_pre _ (fun g => gw_step g0 g /\ owner_of_host id host (g_db g))).
  { intros g [? ->]. split; [done | by apply hostname_owner]. }
  gw_bind; [apply triple_store_read; gw_done|]. apply triple_ret.
  intros g [[Hs Ho] ->]. split; [exact Hs|]. intros Hauth. to_prop. split_and!; [done..|]. by apply once_now.
Qed.

Lemma triple_tunnel_current P id generation : stable P ->
  triple P (tunnel_current gateway_id id generation)
    (fun current g => P g /\ (current = true -> leased id generation g)).
Proof.
  intros HP. eapply triple_conseq; [by apply triple_store_read | done|]. intros a g [? ->]. auto.
Qed.

(** ** CONNECT *)
Lemma triple_attach_valid g0 version id host generation token :
  triple (gw_step g0) (attach_valid gateway_id version id host generation token)
    (fun valid g => gw_step g0 g /\ (valid = true ->
       authenticated_by g0 version id host token g /\ once (leased id generation) g0 g)).
Proof.
  unfold attach_valid. gw_bind; [apply triple_bearer_valid|]. destruct a; cbn [negb];
    [|apply triple_ret; intros g [? ?]; split; done].
  apply (triple_pre _ (fun g => gw_step g0 g /\ authenticated_by g0 version id host token g));
    [intros g [? ?]; auto|].
  pose proof (stable_authenticated g0 version id host token).
  gw_bind; [apply triple_yield; gw_done|]. gw_bind; [apply triple_gets|].
  destruct a0; cbn [negb]; [|apply triple_ret; intros g [[? ?] _]; split; done].
  eapply triple_conseq; [apply (triple_tunnel_current (fun g => gw_step g0 g /\ authenticated_by g0 version id host token g)); gw_done
    | intros g [? _]; done|]. cbn. intros a0 g [[Hs Ha] Hl]. split; [done|]. intros ->.
  split; [done|]. apply once_now; auto.
Qed.

Definition ticket_was_open (h : Headers) (k : Ticket) (g : Gw) : Prop :=
  exists key, h_ticket h = Some key /\ g_tickets g !! key = Some k /\ g_instant g < k_deadline k.

Definition claimed_ticket (g0 : Gw) (h : Headers) (id : Uuid) (host : string) (generation : Z)
    (k : Ticket) (g : Gw) : Prop :=
  g_issued g !! k_ref k = Some k /\ ticket_gone (k_ref k) g /\ k_id k = id /\ k_host k = host /\
  k_generation k = generation /\ h_authority h = Some host /\ once (ticket_was_open h k) g0 g.

Lemma stable_claimed g0 h id host generation k : stable (claimed_ticket g0 h id host generation k).
Proof. unfold claimed_ticket. gw_done. Qed.

Lemma triple_claim_ticket g0 P h id host generation : stable P ->
  triple (fun g => gw_step g0 g /\ P g) (claim_ticket h id host generation)
    (fun found g => (gw_step g0 g /\ P g) /\
       match found with Some k => claimed_ticket g0 h id host generation k g | None => True end).
Proof.
  intros HP. unfold claim_ticket. destruct (h_ticket h) as [key|] eqn:Hkey; [|by apply triple_ret].
  gw_bind; [apply triple_yield; gw_done|]. gw_bind; [apply triple_gets|]. gw_bind; [apply triple_gets|].
  destruct a0 as [k|]; [|apply triple_ret; by intros g [[? _] _]].
  destruct (ticket_claim_matches _ _ _ _ _ _) eqn:Hm; [|apply triple_ret; by intros g [[? _] _]].
  gw_bind; [apply (triple_update _ _ _ (fun g => (gw_step g0 g /\ P g) /\ claimed_ticket g0 h id host generation k g))
    | by apply triple_ret].
  intros g Hg [[[Hs Hp] Hk] ->]. destruct (gw_delete_ticket cfg key g Hg) as [Hg' Hs'].
  split_and!; [done | done | by etrans | by eapply HP |].
  unfold ticket_claim_matches, ticket_owner_matches in Hm. to_prop. subst.
  split_and!; try done.
  - cbn. by eapply (go_tickets _ _ Hg).
  - by eapply (gw_claimed cfg).
  - exists g. split_and!; [done | done | by exists key].
Qed.

Definition attached (g0 : Gw) (h : Headers) (id : Uuid) (host : string) (generation : Z) (g : Gw) : Prop :=
  exists k, claimed_ticket g0 h id host generation k g /\
    g_delivered g !! k_ref k = Some (id, generation) /\ leased id generation g.

Lemma triple_finish_claim g0 P h id host generation k : stable P ->
  triple (fun g => P g /\ claimed_ticket g0 h id host generation k g) (finish_claim gateway_id id host generation k)
    (fun status g => P g /\ (status = S200 -> attached g0 h id host generation g)).
Proof.
  intros HP. unfold finish_claim. pose proof (stable_claimed g0 h id host generation k).
  gw_bind; [apply triple_yield; gw_done|]. gw_bind; [apply triple_gets|].
  set (Pre := fun g => P g /\ claimed_ticket g0 h id host generation k g).
  assert (stable Pre) by (unfold Pre; gw_done).
  eapply (triple_bind _ _ _ _ (fun current g => Pre g /\ (current = true -> leased id generation g))).
  { destruct a0; [|apply triple_ret; intros g [? _]; by split].
    apply (triple_pre _ Pre); [by intros g [? _] | by apply triple_tunnel_current]. }
  intros [].
  - gw_bind; [apply triple_respond|].
    gw_bind; [apply (triple_update _ _ _ (fun g => P g /\ attached g0 h id host generation g))
      | apply triple_ret; intros g [? ?]; by split].
    intros g Hg [[Hp Hc] Hl]. specialize (Hl eq_refl). pose proof Hc as (Hi & _ & <- & <- & <- & _).
    destruct (gw_deliver cfg k g Hg Hi) as [Hg' Hs']. split_and!; [done | done | by eapply HP |].
    exists k. split_and!; [by eapply stable_claimed | by cbn; rewrite lookup_insert_eq | exact Hl].
  - gw_bind; [apply triple_respond|]. apply triple_ret. intros g [[? _] _]. by split.
Qed.

(** What an attached stream proves of its request. *)
Definition connect_ok (g0 : Gw) (h : Headers) (g : Gw) : Prop :=
  exists id host generation token,
    installation uuid_parse_str h = Some id /\ h_hostname h = Some host /\
    generation_header h = Some generation /\ bearer h = Some token /\
    authenticated_by g0 (wire_version h) id host token g /\ attached g0 h id host generation g.

Lemma triple_connect g0 h :
  triple (gw_step g0) (connect uuid_parse_str gateway_id h)
    (fun status g => gw_step g0 g /\ (status = S200 -> connect_ok g0 h g)).
Proof.
  assert (triple (gw_step g0) (_ ← respond; mret S401)
    (fun status g => gw_step g0 g /\ (status = S200 -> connect_ok g0 h g))) as Hrefuse.
  { gw_bind; [apply triple_respond|]. apply triple_ret. by split. }
  unfold connect. destruct (installation uuid_parse_str h) as [id|] eqn:Hid; [|done].
  destruct (h_hostname h) as [host|] eqn:Hhost; [|done].
  destruct (generation_header h) as [generation|] eqn:Hgen; [|done].
  destruct (bearer h) as [token|] eqn:Htoken; [|done].
  gw_bind; [apply triple_attach_valid|]. destruct a; cbn [negb];
    [|apply (triple_pre _ (gw_step g0)); [by intros g [? _] | done]].
  set (Auth := fun g => gw_step g0 g /\ authenticated_by g0 (wire_version h) id host token g).
  assert (stable Auth) as HA by (pose proof (stable_authenticated g0 (wire_version h) id host token); unfold Auth; gw_done).
  apply (triple_pre _ (fun g => gw_step g0 g /\ Auth g)).
  { intros g [Hs Ha]. destruct (Ha eq_refl) as [? _]. split; [done | by split]. }
  gw_bind; [by apply triple_claim_ticket|]. destruct a as [k|].
  - eapply triple_conseq; [by apply (triple_finish_claim g0 Auth) | by intros g [[_ ?] ?]|]. cbn.
    intros status g [[Hs Ha] Hatt]. split; [done|]. intros ->. by exists id, host, generation, token; auto 10.
  - gw_bind; [apply triple_respond|]. apply triple_ret. intros g [[? _] _]. by split.
Qed.

(** ** POST /v1/tunnel *)
Definition registers (id : Uuid) (host : string) (r : Status * Z * option (string * Tunnel)) (g : Gw) : Prop :=
  match r.2 with
  | Some (h, t) => h = host /\ t_id t = id /\ is_u64 (t_generation t) /\ g_tunnels g !! host = Some t
  | None => True
  end.

Lemma triple_install_tunnel P id host generation local : stable P -> is_u64 generation ->
  triple (fun g => P g /\ owner_of_host id host (g_db g)) (install_tunnel id host generation local)
    (fun r g => P g /\ registers id host r g).
Proof.
  intros HP Hu. unfold install_tunnel. gw_bind; [apply triple_yield; gw_done|]. gw_bind; [apply triple_gets|].
  destruct (generation_can_replace _ _); cbn [negb].
  - gw_bind; [apply triple_respond|]. gw_bind; [apply triple_gets|].
    set (t := {| t_id := id; t_generation := generation; t_ref := a2 |}).
    gw_bind; [apply (triple_update _ _ _ (fun g => P g /\ g_tunnels g !! host = Some t))
      | apply triple_ret; by intros g [? ?]].
    intros g Hg [[[Hp Ho] _] _]. cbv zeta.
    destruct (gw_take_ref cfg g Hg) as [Hg1 Hs1].
    destruct (gw_insert_tunnel cfg host t (take_ref g) Hg1) as [Hg2 Hs2]; [done..|].
    match goal with |- context [set_slots ?x ?y ?z ?w] =>
      destruct (gw_set_slots cfg x y z w Hg2) as [Hg3 Hs3]; set (g3 := set_slots x y z w) in * end.
    assert (g_tunnels g3 !! host = Some t) as Ht by (cbn; by rewrite lookup_insert_eq).
    assert (gw_step g g3) by (etrans; [exact Hs1 | by etrans]).
    destruct a0 as [displaced|]; [|split_and!; [done..|by eapply HP|done]].
    destruct (gw_cancel cfg (t_ref displaced) g3 Hg3). assert (gw_step g (cancel (t_ref displaced) g3)) by by etrans.
    split_and!; [done | done | by eapply HP | done].
  - gw_bind; [apply triple_respond|].
    gw_bind; [apply (triple_update _ _ _ P) | by apply triple_ret].
    intros g Hg [[Hp _] _]. destruct (gw_add_lifecycles cfg 1 g Hg). split_and!; [done | done | by eapply HP].
Qed.

Lemma is_u64_cast z : is_u64 (i64_as_u64 z).
Proof. unfold is_u64, i64_as_u64, u64_max. pose proof (Z.mod_pos_bound z (2 ^ 64) ltac:(lia)). lia. Qed.

Lemma triple_claim_and_install P id host local : stable P ->
  triple (fun g => P g /\ owner_of_host id host (g_db g)) (claim_and_install gateway_id id host local)
    (fun r g => P g /\ registers id host r g).
Proof.
  intros HP. unfold claim_and_install.
  eapply (triple_bind _ _ _ _ (fun generation g => (P g /\ owner_of_host id host (g_db g)) /\ is_u64 generation)).
  - apply triple_store_tx; [gw_done|]. intros g generation d' Hg [Hp Ho] Hc.
    assert (history cfg (g_now g) (g_db g) (g_now g) d') as Hh.
    { eapply history_step; [|constructor]. exists (ClaimTunnel id gateway_id 45). split; [done|]. cbn.
      unfold void. apply tx_bind_ok. eauto. }
    split; [done|]. destruct (gw_set_db cfg g d' Hg Hh) as [? Hs]. split_and!; [by eapply HP | by eapply (owner_stable cfg)|].
    unfold claim_tunnel_tx in Hc. inv_tx. apply is_u64_cast.
  - intros generation e n g res n' g' He Hg [Hp Hu] Hr.
    by apply (triple_install_tunnel P id host generation local HP Hu e n g res n' g').
Qed.

(** A tunnel that [POST /v1/tunnel] started. *)
Definition post_ok (g0 : Gw) (h : Headers) (r : Status * Z * option (string * Tunnel)) (g : Gw) : Prop :=
  match r.2 with
  | Some (host, t) =>
      h_hostname h = Some host /\ installation uuid_parse_str h = Some (t_id t) /\ is_u64 (t_generation t) /\
      g_tunnels g !! host = Some t /\
      exists token, bearer h = Some token /\ authenticated_by g0 (wire_version h) (t_id t) host token g
  | None => True
  end.

Lemma triple_post_tunnel g0 h local :
  triple (gw_step g0) (post_tunnel uuid_parse_str gateway_id h local)
    (fun r g => gw_step g0 g /\ post_ok g0 h r g).
Proof.
  assert (forall s, triple (gw_step g0) (_ ← respond; mret (s, local, None))
    (fun r g => gw_step g0 g /\ post_ok g0 h r g)) as Hrefuse.
  { intros s. gw_bind; [apply triple_respond|]. apply triple_ret. by split. }
  unfold post_tunnel. destruct (installation uuid_parse_str h) as [id|] eqn:Hid; [|apply Hrefuse].
  destruct (h_hostname h) as [host|] eqn:Hhost; [|apply Hrefuse]. destruct (bearer h) as [token|] eqn:Ht; [|apply Hrefuse].
  gw_bind; [apply triple_bearer_valid|]. destruct a; cbn [negb];
    [|apply (triple_pre _ (gw_step g0)); [by intros g [? _] | apply Hrefuse]].
  destruct (local <=? 0); [apply (triple_pre _ (gw_step g0)); [by intros g [? _] | apply Hrefuse]|].
  set (Auth := fun g => gw_step g0 g /\ authenticated_by g0 (wire_version h) id host token g).
  assert (stable Auth) as HA by (pose proof (stable_authenticated g0 (wire_version h) id host token); unfold Auth; gw_done).
  apply (triple_pre _ Auth); [intros g [Hs Ha]; split; auto|].
  eapply (triple_bind _ _ _ _ (fun _ => Auth)).
  { unfold acquire_lifecycle. gw_bind; [by apply triple_yield|]. gw_bind; [apply triple_gets|].
    destruct (0 <? a0); [|apply triple_ret; by intros g [? _]].
    gw_bind; [apply (triple_update _ _ _ Auth) | by apply triple_ret].
    intros g Hg [Ha _]. destruct (gw_add_lifecycles cfg (-1) g Hg). split_and!; [done | done | by eapply HA]. }
  intros acquired. destruct acquired; cbn [negb];
    [|apply (triple_pre _ (gw_step g0)); [by intros g [? _] | apply Hrefuse]].
  apply triple_releasing; [apply gw_add_lifecycles|].
  eapply triple_conseq; [by apply (triple_claim_and_install Auth id host local)
    | intros g Ha; split; [exact Ha | apply Ha]|].
  cbn. intros r g [[Hs Ha] Hr]. split; [done|]. unfold registers, post_ok in *. destruct r.2 as [[h' t]|]; [|done].
  destruct Hr as (-> & <- & ? & ?). eauto 10.
Qed.

(** ** Browser connections *)
Definition ticket_for (host : string) (t : Tunnel) (deadline : Z) (r : N) : Ticket :=
  {| k_host := host; k_id := t_id t; k_generation := t_generation t; k_deadline := deadline; k_ref := r |}.

Lemma triple_open_ticket P key host t : stable P ->
  triple (fun g => P g /\ owner_of_host (t_id t) host (g_db g)) (open_ticket key host t)
    (fun r g => P g /\ exists deadline, g_issued g !! r = Some (ticket_for host t deadline r)).
Proof.
  intros HP. unfold open_ticket. gw_bind; [apply triple_gets|].
  apply (triple_pre _ (fun g => P g /\ owner_of_host (t_id t) host (g_db g))); [by intros g [? _]|].
  gw_bind; [apply triple_yield; gw_done|]. gw_bind; [apply triple_gets|].
  gw_bind; [apply (triple_update _ _ _ (fun g => P g /\ g_issued g !! a1 = Some (ticket_for host t a a1)))
    | apply triple_ret; intros g [? ?]; eauto].
  intros g Hg [[Hp Ho] ->]. destruct (gw_issue cfg key (ticket_for host t a (g_next g)) g Hg eq_refl Ho) as [? ?].
  split_and!; [done | done | by eapply HP | by cbn; rewrite lookup_insert_eq].
Qed.

Lemma stable_exists {A} (P : A -> Gw -> Prop) : (forall a, stable (P a)) -> stable (fun g => exists a, P a g).
Proof. intros HP g g' Hg Hs [a Ha]. exists a. by eapply HP. Qed.

Lemma triple_remove_ticket P key : stable P -> triple P (remove_ticket key) (fun _ => P).
Proof.
  intros HP. unfold remove_ticket. gw_bind; [by apply triple_yield|]. apply triple_update.
  intros g Hg Hp. destruct (gw_delete_ticket cfg key g Hg). split_and!; [done | done | by eapply HP].
Qed.

Lemma triple_request_stream g0 P key host connection_id now_ms sent t : stable P ->
  triple (fun g => gw_step g0 g /\ P g /\ owner_of_host (t_id t) host (g_db g))
    (request_stream gateway_id key host connection_id now_ms sent t)
    (fun claim g => gw_step g0 g /\ P g /\ claim = (t_id t, t_generation t) /\
       once (leased (t_id t) (t_generation t)) g0 g).
Proof.
  intros HP. unfold request_stream. gw_bind; [apply triple_tunnel_current; gw_done|].
  destruct a; cbn [negb]; [|apply triple_fail].
  set (Inv := fun g => gw_step g0 g /\ P g /\ once (leased (t_id t) (t_generation t)) g0 g).
  assert (stable Inv) as HI by (unfold Inv; gw_done).
  apply (triple_pre _ (fun g => Inv g /\ owner_of_host (t_id t) host (g_db g))).
  { intros g [(Hs & Hp & Ho) Hl]. split; [|done]. split_and!; [done..|]. apply once_now; auto. }
  gw_bind; [by apply triple_open_ticket|]. rename a into r.
  set (Open := fun g => exists deadline, g_issued g !! r = Some (ticket_for host t deadline r)).
  assert (stable Open) as HO by (apply stable_exists; intros; gw_done).
  gw_bind; [apply triple_yield; gw_done|].
  destruct sent; cbn [negb]; [|gw_bind; [apply triple_remove_ticket; gw_done | apply triple_fail]].
  gw_bind; [apply (triple_update _ _ _ (fun g => Inv g /\ Open g))|].
  { intros g Hg [Hi Ho]. match goal with |- context [post_message ?x ?y _] =>
      destruct (gw_post_message cfg x y g Hg) as [? ?] end.
    split_and!; [done | done | by eapply HI | by eapply HO]. }
  gw_bind; [apply triple_yield; gw_done|]. gw_bind; [apply triple_gets_ok|].
  eapply (triple_bind _ _ _ _ (fun _ g => Inv g /\
    match a2 with Some claim => claim = (t_id t, t_generation t) | None => True end)).
  - apply (triple_pre _ (fun g => Inv g /\
      match a2 with Some claim => claim = (t_id t, t_generation t) | None => True end));
      [|apply triple_remove_ticket; gw_done].
    intros g ([Hi [deadline Ho]] & -> & Hg). split; [done|]. destruct (g_delivered g !! r) as [claim|] eqn:Hd; [|done].
    destruct (go_delivered _ _ Hg _ _ Hd) as (k & Hk & ->). rewrite Ho in Hk. by injection Hk as <-.
  - intros _. destruct a2 as [claim|]; [apply triple_ret | apply triple_fail].
    intros g [(? & ? & ?) ->]. done.
Qed.

(** A browser connection whose stream was claimed. *)
Definition browser_ok (g0 : Gw) (hello : result SniError (string * list byte))
    (r : string * Tunnel * (Uuid * Z)) (g : Gw) : Prop :=
  let '(host, t, claim) := r in
  (exists prefix, hello = Ok (host, prefix)) /\ owner_of_host (t_id t) host (g_db g) /\
  claim = (t_id t, t_generation t) /\ once (leased (t_id t) (t_generation t)) g0 g.

Lemma triple_browser_connection g0 hello key connection_id now_ms sent :
  triple (gw_step g0) (browser_connection gateway_id hello key connection_id now_ms sent)
    (fun r g => gw_step g0 g /\ browser_ok g0 hello r g).
Proof.
  unfold browser_connection. gw_bind; [apply triple_gets|]. destruct (a <=? 0); [apply triple_fail|].
  gw_bind; [apply (triple_update _ _ _ (gw_step g0))|].
  { intros g Hg [Hs _]. destruct (gw_add_streams cfg (-1) g Hg). split_and!; [done | done | by etrans]. }
  apply triple_releasing; [apply gw_add_streams|]. gw_bind; [apply triple_yield; gw_done|].
  destruct hello as [[host prefix]|]; [|apply triple_fail].
  gw_bind; [apply triple_yield; gw_done|]. gw_bind; [apply triple_gets_ok|]. destruct a3 as [t|]; [|apply triple_fail].
  set (Inv := fun g => gw_step g0 g /\ owner_of_host (t_id t) host (g_db g)).
  assert (stable Inv) as HI by (unfold Inv; gw_done).
  apply (triple_pre _ Inv).
  { intros g (Hs & Ht & Hg). symmetry in Ht. destruct (go_tunnels _ _ Hg _ _ Ht). by split. }
  gw_bind; [apply triple_gets|]. destruct (a3 <=? 0); [apply triple_fail|].
  gw_bind; [apply (triple_update _ _ _ Inv)|].
  { intros g Hg [Hi _]. destruct (gw_add_permits cfg (t_ref t) (-1) g Hg). split_and!; [done | done | by eapply HI]. }
  apply triple_releasing; [apply gw_add_permits|].
  gw_bind; [apply (triple_pre _ (fun g => gw_step g0 g /\ Inv g /\ owner_of_host (t_id t) host (g_db g)));
    [intros g [? ?]; split_and!; [done | by split | done] | by apply triple_request_stream]|].
  apply triple_ret. intros g (Hs & [_ Ho] & -> & Hl). split; [done|]. split_and!; eauto.
Qed.

(** ** Lifecycles and control connections *)
Lemma triple_renew_lifecycle P t : stable P -> is_u64 (t_generation t) ->
  triple P (renew_lifecycle gateway_id t) (fun _ => P).
Proof.
  intros HP Hu e n g res n' g' He Hg Hp Hr. unfold renew_lifecycle in Hr.
  destruct (store_tx _ e (n, g)) as [r' [n1 g1]] eqn:Hs.
  assert (triple P (store_tx (fun now => renew_tunnel_tx now (t_id t) gateway_id (t_generation t))) (fun _ => P)) as Ht.
  { apply triple_store_tx; [done|]. intros g2 a d' Hg2 Hp2 Hx.
    assert (history cfg (g_now g2) (g_db g2) (g_now g2) d') as Hh.
    { eapply history_step; [|constructor]. exists (RenewTunnel (t_id t) gateway_id (t_generation t)).
      split; [done|]. cbn. unfold void. apply tx_bind_ok. eauto. }
    split; [done|]. destruct (gw_set_db cfg g2 d' Hg2 Hh). by eapply HP. }
  destruct (Ht _ _ _ _ _ _ He Hg Hp Hs) as (Hg1 & Hs1 & _).
  destruct r'; injection Hr as <- <- <-; split_and!; try done; by eapply HP.
Qed.

Lemma triple_lifecycle_turn host t action sent : is_u64 (t_generation t) ->
  triple (fun _ => True) (lifecycle_turn gateway_id host t action sent) (fun _ _ => True).
Proof.
  intros Hu. destruct action as [| |[]|]; cbn [lifecycle_turn]; try (by apply triple_ret).
  - gw_bind; [apply triple_yield; gw_done | by apply triple_ret].
  - gw_bind; [apply triple_yield; gw_done|]. gw_bind; [apply triple_gets|].
    destruct a0; cbn [negb]; [|by apply triple_ret].
    apply (triple_pre _ (fun _ => True)); [done|].
    gw_bind; [apply triple_renew_lifecycle; [gw_done | done]|]. destruct a0; cbn [negb]; [|by apply triple_ret].
    gw_bind; [apply triple_yield; gw_done | by apply triple_ret].
Qed.

Lemma triple_lifecycle_end host t : triple (fun _ => True) (lifecycle_end host t) (fun _ _ => True).
Proof.
  unfold lifecycle_end. gw_bind; [apply triple_yield; gw_done|]. gw_bind; [apply triple_gets|].
  eapply (triple_bind _ _ _ _ (fun _ _ => True)).
  - destruct a0; [|by apply triple_ret]. apply triple_update. intros g Hg _.
    destruct (gw_delete_tunnel cfg host g Hg). done.
  - intros _. apply triple_update. intros g Hg _. destruct (gw_add_lifecycles cfg 1 g Hg). done.
Qed.

Lemma triple_tunnel_lifecycle host t actions : is_u64 (t_generation t) ->
  triple (fun _ => True) (tunnel_lifecycle gateway_id host t actions) (fun _ _ => True).
Proof.
  intros Hu. induction actions as [|[action sent] actions IH]; cbn [tunnel_lifecycle].
  { apply triple_update. intros g Hg _. destruct (gw_add_lifecycles cfg 1 g Hg). done. }
  gw_bind; [by apply triple_lifecycle_turn|]. destruct a; [done | apply triple_lifecycle_end].
Qed.

Lemma triple_any {A} (m : GwM A) Q : (forall g0, triple (gw_step g0) m (Q g0)) -> triple (fun _ => True) m (fun _ _ => True).
Proof.
  intros Hm e n g res n' g' He Hg _ Hr. destruct (Hm g e n g res n' g' He Hg ltac:(done) Hr) as (? & ? & _).
  split_and!; [done..|]. by destruct res.
Qed.

Lemma triple_serve events authenticated local :
  triple (fun _ => True) (serve_control_connection uuid_parse_str gateway_id events authenticated local)
    (fun _ _ => True).
Proof.
  revert authenticated local. induction events as [|e events IH]; intros authenticated local;
    cbn [serve_control_connection]; [by apply triple_ret|].
  destruct e as [h|h| | | |]; try done.
  - gw_bind; [eapply triple_any; intros; apply triple_post_tunnel|]. destruct a as [[status l] started].
    gw_bind; [apply IH | by apply triple_ret].
  - gw_bind; [eapply triple_any; intros; apply triple_connect | apply IH].
  - gw_bind; [apply triple_respond | apply IH].
  - destruct authenticated; [apply IH | by apply triple_ret].
  - by apply triple_ret.
Qed.

Lemma triple_control_connection tls h2 events :
  triple (fun _ => True) (control_connection uuid_parse_str gateway_id tls h2 events) (fun _ _ => True).
Proof.
  unfold control_connection. gw_bind; [by apply triple_yield|]. destruct tls as [|[alpn|]]; try apply triple_fail.
  destruct (negb _); [apply triple_fail|]. gw_bind; [by apply triple_yield|]. destruct h2 as [|[]]; try apply triple_fail.
  intros e n g r n' g' He Hg _. destruct (serve_control_connection _ _ events _ _ e (n, g)) as [served [n1 g1]] eqn:Hs.
  destruct (triple_serve events _ _ e n g served n1 g1 He Hg I Hs) as (Hg1 & Hst & _).
  destruct (yield e (n1, g1)) as [u [n2 g2]] eqn:Hy.
  destruct (triple_yield cfg (fun _ => True) ltac:(done) e n1 g1 u n2 g2 He Hg1 I Hy) as (Hg2 & Hst2 & _).
  intros [= <- <- <-]. split; [done|]. split; [by etrans|]. by destruct served.
Qed.

(** ** Theorems *)
Inductive Task :=
| ControlConnection (tls : Timed (option (option string))) (h2 : Timed bool) (events : list ConnectionEvent)
| BrowserConnection (hello : result SniError (string * list byte)) (key : string) (connection_id : Uuid)
    (now_ms : Z) (sent : bool)
| Lifecycle (host : string) (t : Tunnel) (actions : list (Action * bool)).

Definition run_task (task : Task) : GwM unit :=
  match task with
  | ControlConnection tls h2 events => control_connection uuid_parse_str gateway_id tls h2 events
  | BrowserConnection hello key connection_id now_ms sent =>
      _ ← browser_connection gateway_id hello key connection_id now_ms sent; mret tt
  | Lifecycle host t actions => tunnel_lifecycle gateway_id host t actions
  end.

Definition task_typed (task : Task) : Prop :=
  match task with Lifecycle _ t _ => is_u64 (t_generation t) | _ => True end.

Lemma triple_task task : task_typed task -> triple (fun _ => True) (run_task task) (fun _ _ => True).
Proof.
  intros Ht. destruct task; cbn [run_task task_typed] in *.
  - apply triple_control_connection.
  - gw_bind; [eapply triple_any; intros; apply triple_browser_connection | by apply triple_ret].
  - by apply triple_tunnel_lifecycle.
Qed.

(** C32: the gateway's tasks do not interfere. Whatever the other tasks do
    within the invariant and the step relation, and whichever store calls and
    responses fail, each task keeps both itself: registered tunnels and
    tickets belong to the installation of their hostname, a ticket is under
    one key, taken tickets never come back, and the database only moves
    through the store's requests. *)
Theorem gateway_tasks_keep_invariant task e n g res n' g' :
  task_typed task -> others_ok cfg e -> gw_ok g -> run_task task e (n, g) = (res, (n', g')) ->
  gw_ok g' /\ gw_step g g'.
Proof.
  intros Ht He Hg Hr. destruct (triple_task task Ht e n g res n' g' He Hg I Hr) as (? & ? & _). done.
Qed.

(** C30: a browser's stream goes to the owner of the hostname it named. When a
    browser connection obtains a stream, the hostname is the one of its
    ClientHello, the tunnel is registered by the installation that owns the
    hostname, the stream was claimed by that installation with that tunnel's
    generation, and the lease of that generation was current at this gateway
    during the call; whatever the other tasks do. *)
Theorem browser_stream_reaches_owner e n g hello key connection_id now_ms sent host t claim n' g' :
  others_ok cfg e -> gw_ok g ->
  browser_connection gateway_id hello key connection_id now_ms sent e (n, g) = (Ok (host, t, claim), (n', g')) ->
  (exists prefix, hello = Ok (host, prefix)) /\ owner_of_host (t_id t) host (g_db g') /\
  claim = (t_id t, t_generation t) /\
  exists g1, gw_step g g1 /\ gw_step g1 g' /\
    lease_is_current (g_now g1) (t_id t) gateway_id (t_generation t) (g_db g1) = true.
Proof.
  intros He Hg Hr.
  destruct (triple_browser_connection g hello key connection_id now_ms sent e n g _ _ _ He Hg ltac:(done) Hr)
    as (_ & _ & _ & Hb). exact Hb.
Qed.

(** C2: a stream is attached once, to an authenticated holder of the current
    lease. When a [CONNECT] succeeds, its bearer authenticated as the
    installation whose hostname it named, the lease of its generation is
    current at this gateway, and it took a ticket that was open under the key
    it presented, for that hostname, installation and generation; no later
    claim can take the ticket again. *)
Theorem connect_attaches_once e n g h n' g' :
  others_ok cfg e -> gw_ok g -> connect uuid_parse_str gateway_id h e (n, g) = (Ok S200, (n', g')) ->
  exists id host generation token k,
    installation uuid_parse_str h = Some id /\ h_hostname h = Some host /\
    generation_header h = Some generation /\ bearer h = Some token /\
    owner_of_host id host (g_db g') /\
    lease_is_current (g_now g') id gateway_id generation (g_db g') = true /\
    (exists g1, gw_step g g1 /\ gw_step g1 g' /\ is_Some (authenticate_bearer (g_now g1) id "tunnel" token (g_db g1))) /\
    (exists g1 key, gw_step g g1 /\ gw_step g1 g' /\ h_ticket h = Some key /\ g_tickets g1 !! key = Some k /\
       g_instant g1 < k_deadline k) /\
    k_host k = host /\ k_id k = id /\ k_generation k = generation /\
    g_delivered g' !! k_ref k = Some (id, generation) /\
    forall g2 key k2, gw_step g' g2 -> g_tickets g2 !! key = Some k2 -> k_ref k2 <> k_ref k.
Proof.
  intros He Hg Hr. destruct (triple_connect g h e n g _ _ _ He Hg ltac:(done) Hr) as (_ & _ & _ & Hc).
  destruct (Hc eq_refl) as (id & host & generation & token & ? & ? & ? & ? & (_ & _ & ? & ?) & k & Hk & ? & Hl).
  destruct Hk as (_ & Hgone & ? & ? & ? & _ & (g1 & ? & ? & key & ? & ? & ?)).
  exists id, host, generation, token, k. split_and!; try done.
  - by exists g1, key.
  - intros g2 key2 k2 Hs. by apply (ticket_gone_stable cfg _ _ _ Hs Hgone).
Qed.

Lemma fenced_not_leased id generation g g1 :
  gw_ok g -> gw_step g g1 -> 0 <= generation -> fenced id generation (g_db g) -> ~ leased id generation g1.
Proof.
  intros Hg Hs Hnn Hf Hl. destruct (go_db _ _ Hg) as [start Hr].
  assert (invariant (g_db g)) as [Hwf _] by (eapply (history_invariant cfg); [exact Hr | apply empty_invariant]).
  pose proof Hf as [(row & Hrow & Hle) _]. destruct (wf_rows _ Hwf _ _ Hrow) as (? & _).
  apply (history_fenced cfg _ _ _ _ _ _ (gs_db _ _ _ Hs)) in Hf as [_ Hf].
  unfold leased, lease_is_current in Hl. to_prop. destruct Hl as [l Hl].
  apply current_lease_Some in Hl as (Hl & _ & Hgen & _). rewrite u64_as_i64_id in Hgen by lia. by apply (Hf l).
Qed.

(** C31: a superseded generation gets no stream. Once a generation of an
    installation was handed out and is no longer the lease's, no [CONNECT]
    with it succeeds and no browser's stream is claimed with it, whatever
    tunnels and tickets the gateway still has. *)
Theorem superseded_generation_gets_no_stream e n g id generation :
  others_ok cfg e -> gw_ok g -> 0 <= generation -> fenced id generation (g_db g) ->
  (forall h n' g', installation uuid_parse_str h = Some id -> generation_header h = Some generation ->
     connect uuid_parse_str gateway_id h e (n, g) <> (Ok S200, (n', g'))) /\
  (forall hello key connection_id now_ms sent host t n' g',
     browser_connection gateway_id hello key connection_id now_ms sent e (n, g) <>
       (Ok (host, t, (id, generation)), (n', g'))).
Proof.
  intros He Hg Hnn Hf. split.
  - intros h n' g' Hid Hgen Hr. destruct (triple_connect g h e n g _ _ _ He Hg ltac:(done) Hr) as (_ & _ & Hs & Hc).
    destruct (Hc eq_refl) as (id' & host & generation' & token & ? & _ & ? & _ & _ & k & _ & _ & Hl).
    simplify_eq. by eapply fenced_not_leased.
  - intros hello key connection_id now_ms sent host t n' g' Hr.
    destruct (triple_browser_connection g hello key connection_id now_ms sent e n g _ _ _ He Hg ltac:(done) Hr)
      as (_ & _ & _ & _ & _ & [= -> ->] & g1 & Hs & _ & Hl). by eapply (fenced_not_leased (t_id t)).
Qed.
End handlers.
