(* ===== verification/GatewayWitnesses.v ===== *)
(** * The gateway's theorems on a concrete run

    A gateway over the sample database opens a tunnel; a browser asks for a
    stream, and while it waits the tunnel's client claims the ticket. *)

From Stdlib Require Import Ascii String Strings.Byte.
From stdpp Require Import base strings list gmap.
From S2P Require Import Prelude Protocol Db Witness Store StoreCredentials StoreChallenges.
From S2P Require Import StoreLifecycle StoreHistory StoreInvariant StoreEffects StoreSamples StoreProperties.
From S2P Require Import Ingress Gateway GatewayTasks GatewayProperties.

Definition parse_id (s : string) : option Uuid := if decide (s = "inst"%string) then Some inst else None.
Definition sample_hostname : string := default EmptyString (hostname_of inst db_setup).

Definition headers : Headers :=
  {| h_version := Some "1"; h_installation := Some "inst"; h_hostname := Some sample_hostname;
     h_generation := Some "5"; h_authorization := Some ("Bearer " +:+ token_a);
     h_ticket := Some "key-1"; h_authority := Some sample_hostname |}%string.

(** No other task runs, and nothing fails. *)
Definition alone : Env :=
  {| e_others := fun _ g => g; e_store := fun _ => StoreOk; e_respond := fun _ => true |}.

Definition start : Gw := gateway_start (at_second 6) 0 db_setup.
Definition post_run := post_tunnel parse_id "gw-1" headers 256 alone (0%nat, start).
Definition with_tunnel : Gw := post_run.2.2.
Definition tunnel_5 : Tunnel := {| t_id := inst; t_generation := 5; t_ref := 0 |}.
Definition ticket_run := open_ticket "key-1" sample_hostname tunnel_5 alone (0%nat, with_tunnel).
Definition with_ticket : Gw := ticket_run.2.2.
Definition connect_run := connect parse_id "gw-1" headers alone (0%nat, with_ticket).

(** The tunnel's client claims the ticket while the browser waits. *)
Definition claimed_meanwhile : Env :=
  {| e_others := fun n g => if Nat.eqb n 5 then (connect parse_id "gw-1" headers alone (0%nat, g)).2.2 else g;
     e_store := fun _ => StoreOk; e_respond := fun _ => true |}.
Definition browser_run :=
  browser_connection "gw-1" (Ok (sample_hostname, [])) "key-1" 77%N 0 true claimed_meanwhile (0%nat, with_tunnel).

Lemma alone_ok : others_ok cfg alone.
Proof. intros n g Hg. by split. Qed.

Lemma claimed_meanwhile_ok : others_ok cfg claimed_meanwhile.
Proof.
  intros n g Hg. cbn. destruct (Nat.eqb n 5); [|by split].
  destruct (connect parse_id "gw-1" headers alone (0%nat, g)) as [res [n' g']] eqn:Hc. cbn.
  destruct (triple_connect cfg parse_id "gw-1" g headers alone 0%nat g res n' g' alone_ok Hg (PreOrder_Reflexive _) Hc)
    as (Hok & Hs & _). split; [exact Hok | exact Hs].
Qed.

Lemma start_ok : gw_ok cfg start.
Proof.
  split; cbn; try (intros; by rewrite ?lookup_empty in *); [apply setup_reachable|..].
  all: intros; match goal with Hl : _ = Some _ |- _ => by rewrite lookup_empty in Hl end.
Qed.

Lemma with_tunnel_ok : gw_ok cfg with_tunnel.
Proof.
  unfold with_tunnel. destruct post_run as [res [n' g']] eqn:Hr.
  destruct (triple_post_tunnel cfg parse_id "gw-1" start headers 256 alone 0%nat start res n' g'
    alone_ok start_ok (PreOrder_Reflexive _) Hr) as (Hok & _). exact Hok.
Qed.

Lemma gateway_tasks_keep_invariant_witness :
  gw_ok cfg (run_task parse_id "gw-1" (ControlConnection (InTime (Some (Some "h2"%string))) (InTime true) [PostTunnel headers]) alone (0%nat, start)).2.2.
Proof.
  destruct (run_task parse_id "gw-1" (ControlConnection (InTime (Some (Some "h2"%string))) (InTime true) [PostTunnel headers]) alone (0%nat, start)) as [res [n' g']] eqn:Hr.
  apply (gateway_tasks_keep_invariant cfg parse_id "gw-1" (ControlConnection (InTime (Some (Some "h2"%string))) (InTime true) [PostTunnel headers]) alone 0%nat start
    res n' g' I alone_ok start_ok Hr).
Defined.

Lemma browser_stream_reaches_owner_witness :
  exists host t claim n' g', browser_run = (Ok (host, t, claim), (n', g')) /\ claim = (t_id t, t_generation t).
Proof.
  assert (is_ok browser_run.1 = true) as Hok by (vm_compute; reflexivity).
  destruct browser_run as [[[[host t] claim]|] [n' g']] eqn:Hr; [|discriminate Hok].
  exists host, t, claim, n', g'. split; [reflexivity|].
  apply (browser_stream_reaches_owner cfg "gw-1" claimed_meanwhile 0%nat with_tunnel (Ok (sample_hostname, [])) "key-1"
    77%N 0 true host t claim n' g' claimed_meanwhile_ok with_tunnel_ok Hr).
Defined.

Lemma owner_sample : owner_of_host inst sample_hostname (g_db with_tunnel).
Proof.
  apply (hostname_owner inst (g_db with_tunnel) sample_hostname).
  assert (bool_decide (hostname_of inst (g_db with_tunnel) = Some sample_hostname) = true) as Hb
    by (vm_compute; reflexivity). by apply bool_decide_eq_true in Hb.
Qed.

Lemma with_ticket_ok : gw_ok cfg with_ticket.
Proof.
  unfold with_ticket. destruct ticket_run as [res [n' g']] eqn:Hr.
  destruct (triple_open_ticket cfg (fun _ => True) "key-1" sample_hostname tunnel_5
    ltac:(apply stable_const) alone 0%nat with_tunnel res n' g' alone_ok with_tunnel_ok (conj I owner_sample) Hr) as (Hok & _).
  exact Hok.
Qed.

Lemma connect_attaches_once_witness :
  exists n' g' id generation, connect_run = (Ok S200, (n', g')) /\
    lease_is_current (g_now g') id "gw-1" generation (g_db g') = true.
Proof.
  assert (match connect_run.1 with Ok S200 => true | _ => false end = true) as Hok by (vm_compute; reflexivity).
  destruct connect_run as [[[]|] [n' g']] eqn:Hr; [|discriminate Hok..].
  destruct (connect_attaches_once cfg parse_id "gw-1" alone 0%nat with_ticket headers n' g' alone_ok with_ticket_ok Hr)
    as (id & host & generation & token & k & _ & _ & _ & _ & _ & Hl & _).
  exists n', g', id, generation. split; [reflexivity | exact Hl].
Defined.

(** Generation 4 held the lease before the tunnel was opened. *)
Lemma superseded_generation_gets_no_stream_witness :
  fenced inst 4 (g_db with_tunnel) /\
  forall n' g', connect parse_id "gw-1" {| h_version := Some "1"; h_installation := Some "inst";
    h_hostname := Some sample_hostname; h_generation := Some "4"; h_authorization := Some ("Bearer " +:+ token_a);
    h_ticket := Some "key-1"; h_authority := Some sample_hostname |}%string alone (0%nat, with_tunnel) <> (Ok S200, (n', g')).
Proof.
  assert (fenced inst 4 (g_db with_tunnel)) as Hf.
  { split.
    - assert (i_generation <$> d_installations (g_db with_tunnel) !! inst = Some 5) as Hg by (vm_compute; reflexivity).
      apply fmap_Some in Hg as (row & Hrow & Hg). exists row. split; [exact Hrow | lia].
    - intros l Hl. assert (l_generation <$> d_leases (g_db with_tunnel) !! inst = Some 5) as Hg by (vm_compute; reflexivity).
      rewrite Hl in Hg. injection Hg as ->. discriminate. }
  split; [exact Hf|]. intros n' g'.
  refine (proj1 (superseded_generation_gets_no_stream cfg parse_id "gw-1" alone 0%nat with_tunnel inst 4
    alone_ok with_tunnel_ok _ Hf) _ n' g' _ _).
  - discriminate.
  - vm_compute. reflexivity.
  - vm_compute. reflexivity.
Defined.
