(* ===== verification/ClientAddr.v ===== *)
(** * Client addresses: crates/bloom-relay-control/src/client_addr.rs

    The PROXY protocol v2 header that names the client of a connection. An
    address is its bits, as [Ipv4Addr::from] and [Ipv6Addr::from] read them
    from octets. *)

From Stdlib Require Import Ascii String Strings.Byte.
From stdpp Require Import base strings list.
From S2P Require Import Prelude Protocol Db Witness.

Definition SocketAddr : Type := IpAddr * Z.

Definition SIGNATURE : list byte :=
  [Byte.x0d; Byte.x0a; Byte.x0d; Byte.x0a; Byte.x00; Byte.x0d; Byte.x0a; Byte.x51; Byte.x55; Byte.x49; Byte.x54; Byte.x0a].
Definition MAX_BODY : Z := 512.

(** ** Configuration *)
Definition is_loopback (ip : IpAddr) : bool :=
  match ip with
  | V4 bits => Z.shiftr bits 24 =? 127
  | V6 bits => bits =? 1
  end.

Record ClientAddrAcceptor := { proxy_v2 : bool }.

Inductive AcceptorError := NotLoopback | UnknownProtocol.

Definition acceptor_from_env (var : EnvVar) (bind : SocketAddr) :
    result AcceptorError ClientAddrAcceptor :=
  match var with
  | NotPresent => Ok {| proxy_v2 := false |}
  | NotUnicode => Err UnknownProtocol
  | Value value =>
      if bool_decide (value = EmptyString) || bool_decide (value = "none"%string) then Ok {| proxy_v2 := false |}
      else if bool_decide (value = "v2"%string)
      then if is_loopback bind.1 then Ok {| proxy_v2 := true |} else Err NotLoopback
      else Err UnknownProtocol
  end.

(** ** The header *)
Definition byte_at (l : list byte) (i : nat) : Z := match l !! i with Some b => u8 b | None => 0 end.
Definition be_value (l : list byte) : Z := foldl (fun acc b => 256 * acc + u8 b) 0 l.

(** [body_length] of the 16-byte prefix. *)
Definition body_length (prefix : list byte) : result IoError Z :=
  if negb (bool_decide (take 12 prefix = SIGNATURE)) then Err InvalidData
  else
    let length := be_value (take 2 (drop 14 prefix)) in
    if MAX_BODY <? length then Err InvalidData else Ok length.

(** [Ipv6Addr::to_canonical]: an IPv4-mapped address is its IPv4 address. *)
Definition to_canonical (bits : Z) : IpAddr :=
  if Z.shiftr bits 32 =? 65535 then V4 (bits mod 2 ^ 32) else V6 bits.

Definition parse (prefix body : list byte) : result IoError (option SocketAddr) :=
  length ← body_length prefix;
  if negb (length =? Z.of_nat (List.length body)) then Err InvalidData
  else if negb (Z.shiftr (byte_at prefix 12) 4 =? 2) then Err InvalidData
  else
    let command := Z.land (byte_at prefix 12) 15 in
    if command =? 0 then Ok None
    else if negb (command =? 1) then Err InvalidData
    else
      let family := byte_at prefix 13 in
      let size := Z.of_nat (List.length body) in
      if (family =? 17) && (12 <=? size)
      then Ok (Some (V4 (be_value (take 4 body)), be_value (take 2 (drop 8 body))))
      else if (family =? 33) && (36 <=? size)
      then Ok (Some (to_canonical (be_value (take 16 body)), be_value (take 2 (drop 32 body))))
      else Err InvalidData.

(** [read_proxy_v2]: the address and the bytes left unread; a short stream is
    an unexpected end. *)
Definition read_proxy_v2 (stream : list byte) : result IoError (option SocketAddr * list byte) :=
  if Z.of_nat (List.length stream) <? 16 then Err IoOther
  else
    let prefix := take 16 stream in
    let rest := drop 16 stream in
    length ← body_length prefix;
    if Z.of_nat (List.length rest) <? length then Err IoOther
    else
      client ← parse prefix (take (Z.to_nat length) rest);
      Ok (client, drop (Z.to_nat length) rest).

(** [accept]: the client of a connection and the bytes left for TLS; [peer] is
    the outcome of [peer_addr], [timely] whether the header arrived within the
    timeout. *)
Definition accept (acceptor : ClientAddrAcceptor) (peer : result IoError SocketAddr) (timely : bool)
    (stream : list byte) : result IoError (SocketAddr * list byte) :=
  peer ← peer;
  if proxy_v2 acceptor then
    if negb timely then Err TimedOut
    else
      r ← read_proxy_v2 stream;
      Ok (default peer r.1, r.2)
  else Ok (peer, stream).

(** ** The header a proxy writes *)
Definition encode_header (command family : Z) (body : list byte) : list byte :=
  SIGNATURE ++ [byte_of_Z (32 + command); byte_of_Z family] ++ be_bytes 2 (Z.of_nat (List.length body)) ++ body.

(** Source and destination addresses and ports, then optional TLVs. *)
Definition encode_addresses (width : nat) (source destination source_port destination_port : Z) (tlvs : list byte) :
    list byte :=
  be_bytes width source ++ be_bytes width destination ++ be_bytes 2 source_port ++ be_bytes 2 destination_port ++ tlvs.

(** What a header says of its client: nothing for a connection the proxy
    opened itself, the source address of a proxied TCP connection. *)
Inductive names : Z -> Z -> list byte -> option SocketAddr -> Prop :=
| names_local family body : 0 <= family < 256 -> names 0 family body None
| names_tcp4 source destination sport dport tlvs :
    0 <= source < 2 ^ 32 -> 0 <= destination < 2 ^ 32 -> 0 <= sport < 2 ^ 16 -> 0 <= dport < 2 ^ 16 ->
    names 1 17 (encode_addresses 4 source destination sport dport tlvs) (Some (V4 source, sport))
| names_tcp6 source destination sport dport tlvs :
    0 <= source < 2 ^ 128 -> 0 <= destination < 2 ^ 128 -> 0 <= sport < 2 ^ 16 -> 0 <= dport < 2 ^ 16 ->
    names 1 33 (encode_addresses 16 source destination sport dport tlvs) (Some (to_canonical source, sport)).

(** ** Big-endian values *)
Lemma be_value_snoc l b : be_value (l ++ [b]) = 256 * be_value l + u8 b.
Proof. unfold be_value. by rewrite foldl_app. Qed.

Lemma be_value_range l : 0 <= be_value l < 256 ^ Z.of_nat (List.length l).
Proof.
  induction l as [|b l IH] using rev_ind; [cbn; lia|].
  rewrite be_value_snoc, length_app, Nat2Z.inj_add, Z.pow_add_r by lia.
  change (256 ^ Z.of_nat (List.length [b])) with 256. pose proof (u8_range b). lia.
Qed.

Lemma be_bytes_value n l : List.length l = n -> be_bytes n (be_value l) = l.
Proof.
  revert l. induction n as [|n IH]; intros l Hl.
  - by destruct l.
  - destruct l as [|b l _] using rev_ind; [done|].
    rewrite length_app in Hl. cbn in Hl |- *. pose proof (u8_range b).
    rewrite be_value_snoc. replace (_ / 256) with (be_value l) by (apply Z.div_unique with (u8 b); lia).
    rewrite IH by lia. do 2 f_equal.
    rewrite <- (byte_of_Z_u8 b) at 2. unfold byte_of_Z. do 3 f_equal.
    rewrite Z.add_comm, Z.mul_comm. apply Z.mod_add. lia.
Qed.

Lemma be_value_bytes n z : 0 <= z < 256 ^ Z.of_nat n -> be_value (be_bytes n z) = z.
Proof.
  intros Hz. apply (be_bytes_inj n); [|done|].
  - pose proof (be_value_range (be_bytes n z)) as Hr. by rewrite length_be_bytes in Hr.
  - apply be_bytes_value, length_be_bytes.
Qed.

(** ** The fields of a header *)
Lemma encode_addresses_fields w s d sp dp tlvs :
  0 <= s < 256 ^ Z.of_nat w -> 0 <= sp < 2 ^ 16 ->
  let body := encode_addresses w s d sp dp tlvs in
  be_value (take w body) = s /\ be_value (take 2 (drop (w + w) body)) = sp /\ (w + w + 4 <= List.length body)%nat.
Proof.
  intros Hs Hp body. unfold body, encode_addresses. split_and!.
  - rewrite take_app_length' by (by rewrite length_be_bytes). by apply be_value_bytes.
  - rewrite app_assoc, drop_app_length' by (rewrite length_app, !length_be_bytes; lia).
    rewrite take_app_length' by (by rewrite length_be_bytes). apply be_value_bytes. cbn. lia.
  - rewrite !length_app, !length_be_bytes. lia.
Qed.

Lemma split_value n l : (n <= List.length l)%nat -> l = be_bytes n (be_value (take n l)) ++ drop n l.
Proof. intros Hl. rewrite be_bytes_value by (rewrite length_take; lia). by rewrite take_drop. Qed.

Lemma value_take_range n l :
  (n <= List.length l)%nat -> 0 <= be_value (take n l) < 256 ^ Z.of_nat n.
Proof.
  intros Hl. pose proof (be_value_range (take n l)) as Hr. rewrite length_take in Hr.
  by replace (n `min` List.length l)%nat with n in Hr by lia.
Qed.

Lemma addresses_shape w body :
  (w + w + 4 <= List.length body)%nat ->
  body = encode_addresses w (be_value (take w body)) (be_value (take w (drop w body)))
           (be_value (take 2 (drop (w + w) body))) (be_value (take 2 (drop (w + w + 2) body)))
           (drop (w + w + 4) body).
Proof.
  intros Hl. unfold encode_addresses.
  rewrite (split_value w body) at 1 by lia. f_equal.
  rewrite (split_value w (drop w body)) at 1 by (rewrite length_drop; lia). f_equal. rewrite drop_drop.
  rewrite (split_value 2 (drop (w + w) body)) at 1 by (rewrite length_drop; lia). f_equal. rewrite drop_drop.
  rewrite (split_value 2 (drop (w + w + 2) body)) at 1 by (rewrite length_drop; lia). f_equal. rewrite drop_drop.
  f_equal. lia.
Qed.

(** The version and command nibbles of byte 12. *)
Lemma nibbles v c : 0 <= c < 16 -> Z.shiftr (16 * v + c) 4 = v /\ Z.land (16 * v + c) 15 = c.
Proof.
  intros Hc. rewrite Z.shiftr_div_pow2 by lia. change 15 with (Z.ones 4). rewrite Z.land_ones by lia.
  change (2 ^ 4) with 16. split; symmetry; [apply Z.div_unique with c|apply Z.mod_unique with v]; lia.
Qed.

Lemma version_command b : Z.shiftr b 4 = 2 -> b = 32 + Z.land b 15 /\ 0 <= Z.land b 15 < 16.
Proof.
  rewrite Z.shiftr_div_pow2 by lia. change 15 with (Z.ones 4). rewrite Z.land_ones by lia.
  change (2 ^ 4) with 16. intros Hb. pose proof (Z.div_mod b 16). pose proof (Z.mod_pos_bound b 16). lia.
Qed.

Definition prefix_of (version_command family l1 l2 : byte) : list byte :=
  SIGNATURE ++ [version_command; family; l1; l2].

Lemma body_length_prefix b12 b13 l1 l2 :
  body_length (prefix_of b12 b13 l1 l2) =
  if MAX_BODY <? be_value [l1; l2] then Err InvalidData else Ok (be_value [l1; l2]).
Proof. reflexivity. Qed.

(** What a header says, given its fields. *)
Definition well_formed (b12 b13 l1 l2 : byte) (body : list byte) (client : option SocketAddr) : Prop :=
  be_value [l1; l2] = Z.of_nat (List.length body) /\ Z.of_nat (List.length body) <= MAX_BODY /\
  u8 b12 = 32 + Z.land (u8 b12) 15 /\ names (Z.land (u8 b12) 15) (u8 b13) body client.

Lemma parse_sound b12 b13 l1 l2 body client :
  parse (prefix_of b12 b13 l1 l2) body = Ok client -> well_formed b12 b13 l1 l2 body client.
Proof.
  unfold parse, well_formed. rewrite body_length_prefix.
  change (byte_at (prefix_of b12 b13 l1 l2) 12) with (u8 b12).
  change (byte_at (prefix_of b12 b13 l1 l2) 13) with (u8 b13).
  pose proof (u8_range b13) as Hb13.
  destruct (Z.ltb_spec MAX_BODY (be_value [l1; l2])); [done|]. cbn [mbind result_bind].
  destruct (Z.eqb_spec (be_value [l1; l2]) (Z.of_nat (List.length body))) as [Hlen|]; [|done].
  destruct (Z.eqb_spec (Z.shiftr (u8 b12) 4) 2) as [Hv%version_command|]; [|done]. cbn [negb].
  destruct (Z.eqb_spec (Z.land (u8 b12) 15) 0) as [Hc|]; [intros [= <-]; rewrite Hc in *; split_and!; try lia; by constructor|].
  destruct (Z.eqb_spec (Z.land (u8 b12) 15) 1) as [Hc|]; [|done]. rewrite Hc in *. cbn [negb].
  destruct (Z.eqb_spec (u8 b13) 17) as [->|]; [destruct (Z.leb_spec 12 (Z.of_nat (List.length body)))|];
    cbn [andb]; [|done|].
  + intros [= <-]. split_and!; try lia. rewrite (addresses_shape 4 body) at 1 by lia.
    constructor; (eapply value_take_range; rewrite ?length_drop; lia).
  + destruct (Z.eqb_spec (u8 b13) 33) as [->|]; [destruct (Z.leb_spec 36 (Z.of_nat (List.length body)))|];
      cbn [andb]; [|done|done].
    intros [= <-]. split_and!; try lia. rewrite (addresses_shape 16 body) at 1 by lia.
    constructor; (eapply value_take_range; rewrite ?length_drop; lia).
Qed.

Lemma parse_complete b12 b13 l1 l2 body client :
  well_formed b12 b13 l1 l2 body client -> parse (prefix_of b12 b13 l1 l2) body = Ok client.
Proof.
  unfold parse, well_formed. rewrite body_length_prefix.
  change (byte_at (prefix_of b12 b13 l1 l2) 12) with (u8 b12).
  change (byte_at (prefix_of b12 b13 l1 l2) 13) with (u8 b13).
  intros (Hlen & Hmax & Hb12 & Hn).
  assert (Hv : Z.shiftr (u8 b12) 4 = 2).
  { rewrite Hb12. change 32 with (16 * 2). apply nibbles. inversion Hn; lia. }
  rewrite Hlen, Hv. destruct (Z.ltb_spec MAX_BODY (Z.of_nat (List.length body))); [lia|].
  cbn [mbind result_bind]. rewrite Z.eqb_refl. cbn [negb Z.eqb Pos.eqb].
  inversion Hn as [? ? _ Hc|????? Hs Hd Hp Hq Hc Hf|????? Hs Hd Hp Hq Hc Hf]; subst; [done|..]; cbn [Z.eqb Pos.eqb negb].
  + destruct (encode_addresses_fields 4 source destination sport dport tlvs Hs Hp) as (Hsrc & Hport & Hsz).
    change (4 + 4)%nat with 8%nat in Hport. rewrite Hsrc, Hport.
    destruct (Z.leb_spec 12 (Z.of_nat (List.length (encode_addresses 4 source destination sport dport tlvs)))); [done|lia].
  + destruct (encode_addresses_fields 16 source destination sport dport tlvs Hs Hp) as (Hsrc & Hport & Hsz).
    change (16 + 16)%nat with 32%nat in Hport. rewrite Hsrc, Hport.
    destruct (Z.leb_spec 36 (Z.of_nat (List.length (encode_addresses 16 source destination sport dport tlvs)))); [done|lia].
Qed.

(** A stream long enough for the prefix, with the signature, is a prefix and
    the bytes after it. *)
Lemma prefix_shape stream n :
  (16 <= List.length stream)%nat -> body_length (take 16 stream) = Ok n ->
  exists b12 b13 l1 l2 tail, stream = prefix_of b12 b13 l1 l2 ++ tail.
Proof.
  unfold body_length. rewrite take_take. change (12 `min` 16)%nat with 12%nat. intros Hl.
  case_bool_decide as Hsig; cbn [negb]; [intros _|done].
  assert (Hrest : (4 <= List.length (drop 12 stream))%nat) by (rewrite length_drop; lia).
  rewrite <- (take_drop 12 stream), Hsig. clear Hsig Hl.
  destruct (drop 12 stream) as [|b12 [|b13 [|l1 [|l2 tail]]]]; cbn in Hrest; try lia.
  by exists b12, b13, l1, l2, tail.
Qed.

(** Reading after a well-formed prefix. *)
Lemma read_prefix b12 b13 l1 l2 tail client rest :
  read_proxy_v2 (prefix_of b12 b13 l1 l2 ++ tail) = Ok (client, rest) <->
  exists body, tail = body ++ rest /\ well_formed b12 b13 l1 l2 body client.
Proof.
  unfold read_proxy_v2.
  rewrite (take_app_length' (prefix_of b12 b13 l1 l2)), (drop_app_length' (prefix_of b12 b13 l1 l2)) by done.
  destruct (Z.ltb_spec (Z.of_nat (List.length (prefix_of b12 b13 l1 l2 ++ tail))) 16) as [Hs|_];
    [rewrite length_app in Hs; cbn in Hs; lia|].
  rewrite body_length_prefix. pose proof (be_value_range [l1; l2]) as Hr. split.
  - destruct (MAX_BODY <? _); [done|]. cbn [mbind result_bind].
    destruct (Z.ltb_spec (Z.of_nat (List.length tail)) (be_value [l1; l2])); [done|].
    destruct (parse _ _) as [c|] eqn:Hp; [|done]. cbn. intros [= <- <-].
    exists (take (Z.to_nat (be_value [l1; l2])) tail). rewrite take_drop. split; [done|]. by apply parse_sound.
  - intros (body & -> & Hw). pose proof Hw as (Hlen & Hmax & _).
    destruct (Z.ltb_spec MAX_BODY (be_value [l1; l2])); [lia|]. cbn [mbind result_bind].
    rewrite Hlen, length_app, Nat2Z.id.
    destruct (Z.ltb_spec (Z.of_nat (List.length body + List.length rest)) (Z.of_nat (List.length body))); [lia|].
    rewrite take_app_length, drop_app_length. by rewrite (parse_complete _ _ _ _ _ _ Hw).
Qed.

Lemma encode_header_prefix command family body :
  encode_header command family body =
  prefix_of (byte_of_Z (32 + command)) (byte_of_Z family)
    (byte_of_Z (Z.of_nat (List.length body) / 256)) (byte_of_Z (Z.of_nat (List.length body))) ++ body.
Proof. unfold encode_header, prefix_of. by rewrite <- !app_assoc. Qed.

Lemma names_range command family body client :
  names command family body client -> 0 <= command < 2 /\ 0 <= family < 256.
Proof. intros []; lia. Qed.

(** C39: The reader accepts exactly the PROXY v2 headers. A read succeeds if
    and only if the stream starts with a version 2 header of at most 512 body
    bytes for a local connection or for TCP over IPv4 or IPv6; it then reports
    the source address and port of that header, an IPv4-mapped address as its
    IPv4 address, and leaves every byte behind the header unread. *)
Theorem proxy_header_exact stream client rest :
  read_proxy_v2 stream = Ok (client, rest) <->
  exists command family body,
    stream = encode_header command family body ++ rest /\
    Z.of_nat (List.length body) <= MAX_BODY /\ names command family body client.
Proof.
  split.
  - intros Hr.
    assert (exists b12 b13 l1 l2 tail, stream = prefix_of b12 b13 l1 l2 ++ tail)
      as (b12 & b13 & l1 & l2 & tail & ->).
    { unfold read_proxy_v2 in Hr. destruct (Z.ltb_spec (Z.of_nat (List.length stream)) 16); [done|].
      destruct (body_length (take 16 stream)) eqn:Hb; [|done]. apply (prefix_shape stream _ ltac:(lia) Hb). }
    apply read_prefix in Hr as (body & -> & Hlen & Hmax & Hv & Hn).
    exists (Z.land (u8 b12) 15), (u8 b13), body. split; [|done].
    unfold encode_header. rewrite <- Hv, <- Hlen, (be_bytes_value 2), !byte_of_Z_u8 by done.
    unfold prefix_of. by rewrite <- !app_assoc.
  - intros (command & family & body & -> & Hmax & Hn). pose proof (names_range _ _ _ _ Hn) as [Hc Hf].
    rewrite encode_header_prefix, <- app_assoc. apply read_prefix. exists body. split; [done|].
    unfold well_formed. rewrite !u8_byte_of_Z by lia.
    change 32 with (16 * 2). destruct (nibbles 2 command ltac:(lia)) as [_ ->]. split_and!; [|done..].
    apply (be_value_bytes 2). unfold MAX_BODY in Hmax. cbn. lia.
Qed.
