(* ===== verification/Dns.v ===== *)
(** * DNS changes: crates/bloom-relay-dns/src/lib.rs

    The records of an assigned name, their validation, the provider interface
    the worker publishes through, what a provider promises ([ProviderLaws]),
    and the in-memory provider. *)

From Stdlib Require Import Ascii String Strings.Byte.
From stdpp Require Import base strings list gmap.
From S2P Require Import Prelude Protocol Db.

Definition TTL_SECONDS : Z := 300.

Record NameRecords := {
  nr_hostname : string;
  nr_addresses : list IpAddr;
  nr_acme_account_uri : string
}.

Inductive DnsError :=
| InvalidHostname (e : ProtocolError)
| InvalidChange
| Unavailable
| Conflict.

(** ** Addresses as text *)
(** [u16] in lower-case hexadecimal without padding. *)
Fixpoint hex_digits (fuel : nat) (n : Z) (acc : list byte) : list byte :=
  match fuel with
  | O => acc
  | S fuel =>
      let acc := hex_digit (n mod 16) :: acc in
      if n <? 16 then acc else hex_digits fuel (n / 16) acc
  end.
Definition u16_hex (n : Z) : string := string_of_list_byte (hex_digits 4 n []).

(** [Display for Ipv4Addr]. *)
Definition octet (bits : Z) (i : Z) : Z := Z.land (Z.shiftr bits (8 * i)) 255.
Definition ipv4_to_string (bits : Z) : string :=
  String.concat "." (map (fun i => u64_to_string (octet bits i)) [3; 2; 1; 0]).

Definition segments (bits : Z) : list Z :=
  map (fun i => Z.land (Z.shiftr bits (16 * i)) 65535) [7; 6; 5; 4; 3; 2; 1; 0].

(** The first longest run of zero segments, as its start and length. *)
Fixpoint longest_zeros (i : nat) (segs : list Z) (longest current : nat * nat) : nat * nat :=
  match segs with
  | [] => longest
  | s :: segs =>
      if s =? 0 then
        let current := if Nat.eqb current.2 0 then (i, 1%nat) else (current.1, S current.2) in
        longest_zeros (S i) segs (if Nat.ltb longest.2 current.2 then current else longest) current
      else longest_zeros (S i) segs longest (0%nat, 0%nat)
  end.

(** [Display for Ipv6Addr]. *)
Definition ipv6_to_string (bits : Z) : string :=
  if Z.shiftr bits 32 =? 65535 then "::ffff:" +:+ ipv4_to_string (bits mod 2 ^ 32)
  else
    let segs := segments bits in
    let hex l := String.concat ":" (map u16_hex l) in
    let '(start, len) := longest_zeros 0 segs (0%nat, 0%nat) (0%nat, 0%nat) in
    if Nat.ltb 1 len then hex (take start segs) +:+ "::" +:+ hex (drop (start + len) segs)
    else hex segs.

Definition ip_to_string (ip : IpAddr) : string :=
  match ip with V4 bits => ipv4_to_string bits | V6 bits => ipv6_to_string bits end.

Definition is_unspecified (ip : IpAddr) : bool :=
  match ip with V4 bits | V6 bits => bits =? 0 end.

(** ** Validation *)
Definition QUOTE : string := String "034"%char EmptyString.

Definition hostname_checked (hostname : string) : result DnsError unit :=
  map_err InvalidHostname (validate_hostname hostname).

Definition validate_records (records : NameRecords) : result DnsError unit :=
  _ ← hostname_checked (nr_hostname records);
  reject_if
    (Nat.eqb (List.length (nr_addresses records)) 0
     || (4 <? Z.of_nat (List.length (nr_addresses records)))
     || existsb is_unspecified (nr_addresses records)
     || is_err (validate_acme_account_uri (nr_acme_account_uri records)))
    InvalidChange.

Definition caa_values (acme_account_uri : string) : result DnsError (list string) :=
  if is_err (validate_acme_account_uri acme_account_uri) then Err InvalidChange
  else
    Ok ["0 issue " +:+ QUOTE +:+ "letsencrypt.org; validationmethods=dns-01; accounturi="
          +:+ acme_account_uri +:+ QUOTE;
        "0 issuewild " +:+ QUOTE +:+ ";" +:+ QUOTE].

(** The set's size is the number of distinct values. *)
Definition validate_challenge_values (values : list string) : result DnsError unit :=
  reject_if
    ((MAX_LIVE_CHALLENGE_VALUES <? Z.of_nat (List.length values))
     || negb (Nat.eqb (size (list_to_set values : gset string)) (List.length values))
     || existsb (fun value => is_err (validate_challenge_value value)) values)
    InvalidChange.

Definition challenge_name (hostname : string) : result DnsError string :=
  _ ← hostname_checked hostname;
  Ok ("_acme-challenge." +:+ hostname).

(** ** The provider interface *)
Class Provider (S : Type) := {
  publish_name : NameRecords -> S -> result DnsError unit * S;
  set_challenge : string -> list string -> S -> result DnsError unit * S;
  retire_name : string -> S -> result DnsError unit * S;
  retire_challenge : string -> S -> result DnsError unit * S
}.

(** What a successful change guarantees of the zone. *)
Class ProviderLaws (S : Type) `{Provider S} := {
  serves : S -> NameRecords -> Prop;
  challenge_is : S -> string -> list string -> Prop;
  name_gone : S -> string -> Prop;
  publish_serves records s s' :
    publish_name records s = (Ok tt, s') -> serves s' records;
  set_challenge_exact hostname values s s' :
    set_challenge hostname values s = (Ok tt, s') -> challenge_is s' hostname values;
  retire_name_gone hostname s s' :
    retire_name hostname s = (Ok tt, s') -> name_gone s' hostname;
  retire_challenge_gone hostname s s' :
    retire_challenge hostname s = (Ok tt, s') -> challenge_is s' hostname []
}.

(** ** The in-memory provider *)
Record MemoryState := {
  names : gmap string NameRecords;
  challenges : gmap string (list string)
}.

Definition memory_records (hostname : string) (m : MemoryState) : option NameRecords := names m !! hostname.
Definition memory_challenge (hostname : string) (m : MemoryState) : list string :=
  default [] (challenges m !! hostname).

(** An operation that validates, then changes the state under the lock. *)
Definition memory_op (check : result DnsError unit) (change : MemoryState -> MemoryState) (m : MemoryState) :
    result DnsError unit * MemoryState :=
  match check with Ok _ => (Ok tt, change m) | Err e => (Err e, m) end.

#[global] Instance MemoryProvider : Provider MemoryState := {
  publish_name records :=
    memory_op (validate_records records)
      (fun m => {| names := <[nr_hostname records := records]> (names m); challenges := challenges m |});
  set_challenge hostname values :=
    memory_op (_ ← challenge_name hostname; validate_challenge_values values)
      (fun m => {| names := names m;
                   challenges := match values with
                                 | [] => delete hostname (challenges m)
                                 | _ => <[hostname := values]> (challenges m)
                                 end |});
  retire_name hostname :=
    memory_op (hostname_checked hostname)
      (fun m => {| names := delete hostname (names m); challenges := challenges m |});
  retire_challenge hostname :=
    memory_op (_ ← challenge_name hostname; Ok tt)
      (fun m => {| names := names m; challenges := delete hostname (challenges m) |})
}.

Lemma memory_op_ok check change m m' :
  memory_op check change m = (Ok tt, m') -> is_ok check = true /\ m' = change m.
Proof. unfold memory_op. destruct check; [by intros [= <-]|done]. Qed.

#[global, refine] Instance MemoryProvider_laws : ProviderLaws MemoryState := {
  serves m records := memory_records (nr_hostname records) m = Some records;
  challenge_is m hostname values := memory_challenge hostname m = values;
  name_gone m hostname := memory_records hostname m = None
}.
Proof.
  all: intros *; intros [_ ->]%memory_op_ok; unfold memory_records, memory_challenge; cbn.
  - apply lookup_insert_eq.
  - destruct values; [by rewrite lookup_delete_eq | by rewrite lookup_insert_eq].
  - apply lookup_delete_eq.
  - by rewrite lookup_delete_eq.
Defined.
