(* ===== verification/Cloudflare.v ===== *)
(** * The Cloudflare provider: crates/bloom-relay-dns/src/cloudflare.rs

    The DNS v4 API is a parameter ([CloudflareApi]): a request changes the
    zone and answers, and any call may fail before or after its effect. JSON
    request bodies are the typed [Body]. *)

From Stdlib Require Import Ascii String Strings.Byte.
From stdpp Require Import base strings list gmap.
From S2P Require Import Prelude Protocol Db Dns.

Definition SERVING_COMMENT : string := "bloom-relay serving v1".
Definition CHALLENGE_PREFIX : string := "bloom-relay challenge v1 ".
Definition CHALLENGE_COMMENT : string := "bloom-relay challenge v1 set".

Inductive CloudflareScope := CfServing | CfChallenge.
#[global] Instance CloudflareScope_eq_dec : EqDecision CloudflareScope.
Proof. solve_decision. Defined.

Record CaaData := { flags : Z; tag : string; value : string }.

Record Record_ := {
  id : string;
  name : string;
  kind : string;
  content : string;
  ttl : Z;
  proxied : bool;
  comment : string;
  data : option CaaData
}.

Definition RecordKey : Type := string * string.

(** A request body; an absent field is not in the JSON object. *)
Record Body := {
  b_type : string;
  b_name : string;
  b_content : option string;
  b_ttl : Z;
  b_proxied : option bool;
  b_comment : string;
  b_data : option CaaData
}.

Record Envelope (T : Type) := { success : bool; result_ : option T; total_pages : option Z }.
Arguments success {T}.
Arguments result_ {T}.
Arguments total_pages {T}.

Inductive Request :=
| Get (name_exact : string)
| Post (body : Body)
| Delete (id : string)
| Patch (id : string) (body : Body).

(** A transport failure, or a status and the body's chunks, [None] a chunk
    that failed to arrive. *)
Inductive Response := TransportFailed | Answer (status : Z) (chunks : list (option (list byte))).

(** The service: its zones, their records, and its replies; the decoders are
    the JSON library at the two result types. *)
Class CloudflareApi := {
  zone : Type;
  zone_records : zone -> list Record_;
  api : Request -> zone -> Response * zone;
  decode_records : list byte -> option (Envelope (list Record_));
  decode_value : list byte -> option (Envelope unit)
}.

(** ** Requests *)
Definition valid_id (s : string) : bool := (str_len s =? 32) && bytes_all is_ascii_hexdigit s.

Definition is_ascii_control (b : byte) : bool := (u8 b <? 32) || (u8 b =? 127).
Definition is_ascii_whitespace (b : byte) : bool :=
  (u8 b =? 32) || (u8 b =? 9) || (u8 b =? 10) || (u8 b =? 12) || (u8 b =? 13).

Record CloudflareProvider := { base_zone : string; token : string; scope : CloudflareScope }.

(** [new]; [built] is whether the HTTP client could be built. *)
Definition cloudflare_new (built : bool) (zone_id token_ : string) (scope_ : CloudflareScope) :
    result DnsError CloudflareProvider :=
  if negb (valid_id zone_id) || bool_decide (token_ = EmptyString)
     || existsb (fun b => is_ascii_whitespace b || is_ascii_control b) (str_bytes token_)
  then Err InvalidChange
  else if negb built then Err Unavailable
  else Ok {| base_zone := zone_id; token := token_; scope := scope_ |}.

Definition require (p : CloudflareProvider) (s : CloudflareScope) : result DnsError unit :=
  if bool_decide (scope p = s) then Ok tt else Err InvalidChange.

(** The body of an answer, at most 256 KiB. *)
Fixpoint read_chunks (body : list byte) (chunks : list (option (list byte))) : result DnsError (list byte) :=
  match chunks with
  | [] => Ok body
  | None :: _ => Err Unavailable
  | Some chunk :: chunks =>
      if 256 * 1024 <? Z.of_nat (List.length body) + Z.of_nat (List.length chunk) then Err Unavailable
      else read_chunks (body ++ chunk) chunks
  end.

Definition send {T} (decode : list byte -> option (Envelope T)) (response : Response) :
    result DnsError (Envelope T) :=
  match response with
  | TransportFailed => Err Unavailable
  | Answer status chunks =>
      if status =? 409 then Err Conflict
      else if negb (in_range 200 299 status) then Err Unavailable
      else
        body ← read_chunks [] chunks;
        envelope ← ok_or Unavailable (decode body);
        if negb (success envelope) then Err Unavailable else Ok envelope
  end.

(** ** Planning the serving records *)
Definition key (r : Record_) : result DnsError RecordKey :=
  if bool_decide (kind r = "CAA"%string) then
    d ← ok_or Conflict (data r);
    if negb (flags d =? 0) || negb (bool_decide (tag d = "issue"%string) || bool_decide (tag d = "issuewild"%string))
    then Err Conflict
    else Ok (kind r, tag d +:+ ":" +:+ value d)
  else Ok (kind r, content r).

Definition create_rank (b : Body) : Z :=
  if bool_decide (b_type b = "CAA"%string) then
    match b_data b with
    | Some d =>
        if bool_decide (tag d = "issuewild"%string) then 0 else if bool_decide (tag d = "issue"%string) then 1 else 2
    | None => 2
    end
  else 2.

Definition delete_rank (r : Record_) : Z :=
  if bool_decide (kind r = "CAA"%string) then
    match data r with
    | Some d =>
        if bool_decide (tag d = "issue"%string) then 0 else if bool_decide (tag d = "issuewild"%string) then 2 else 1
    | None => 1
    end
  else 1.

(** [sort_by_key] is stable. *)
Section sort.
Context {A : Type} (rank : A -> Z).

Fixpoint insert_by (x : A) (l : list A) : list A :=
  match l with
  | [] => [x]
  | y :: l' => if rank x <=? rank y then x :: l else y :: insert_by x l'
  end.
Definition sort_by_key (l : list A) : list A := foldr insert_by [] l.
End sort.

(** [BTreeMap<RecordKey, _>] as its entries in key order; inserting an
    existing key replaces its value. *)
Definition key_compare (a b : RecordKey) : comparison :=
  match String.compare a.1 b.1 with Eq => String.compare a.2 b.2 | c => c end.
Fixpoint btree_insert {V} (k : RecordKey) (v : V) (m : list (RecordKey * V)) : list (RecordKey * V) :=
  match m with
  | [] => [(k, v)]
  | (k', v') :: m' =>
      match key_compare k k' with
      | Lt => (k, v) :: m
      | Eq => (k', v) :: m'
      | Gt => (k', v') :: btree_insert k v m'
      end
  end.
Definition btree_collect {V} (l : list (RecordKey * V)) : list (RecordKey * V) :=
  foldl (fun m e => btree_insert e.1 e.2 m) [] l.
Definition btree_get {V} (k : RecordKey) (m : list (RecordKey * V)) : option V :=
  snd <$> find (fun e => bool_decide (e.1 = k)) m.

Record ServingPlan := {
  stale : list Record_;
  missing : list Body;
  updates : list (Record_ * Body)
}.

Definition address_or_caa (k : string) : bool :=
  bool_decide (k = "A"%string) || bool_decide (k = "AAAA"%string) || bool_decide (k = "CAA"%string).

(** The loop over the existing records: the stale ones, the updates, and the
    keys found. *)
Fixpoint plan_loop (desired : list (RecordKey * Body)) (found : list RecordKey) (existing : list Record_) :
    result DnsError (list Record_ * list (Record_ * Body) * list RecordKey) :=
  match existing with
  | [] => Ok ([], [], found)
  | r :: existing =>
      if bool_decide (kind r = "CNAME"%string) || bool_decide (kind r = "NS"%string) then Err Conflict
      else if negb (address_or_caa (kind r)) then plan_loop desired found existing
      else if negb (bool_decide (comment r = SERVING_COMMENT)) then Err Conflict
      else
        k ← key r;
        match btree_get k desired with
        | Some body =>
            if bool_decide (k ∈ found) then
              '(s, u, f) ← plan_loop desired found existing; Ok (r :: s, u, f)
            else
              '(s, u, f) ← plan_loop desired (k :: found) existing;
              Ok (s, if negb (ttl r =? TTL_SECONDS) || proxied r then (r, body) :: u else u, f)
        | None => '(s, u, f) ← plan_loop desired found existing; Ok (r :: s, u, f)
        end
  end.

Definition plan_serving (existing : list Record_) (desired : list (RecordKey * Body)) : result DnsError ServingPlan :=
  let desired_map := btree_collect desired in
  '(s, u, found) ← plan_loop desired_map [] existing;
  Ok {| stale := sort_by_key delete_rank s;
        missing := sort_by_key create_rank
                     (map snd (List.filter (fun e => negb (bool_decide (e.1 ∈ found))) desired_map));
        updates := u |}.

Definition quoted (s : string) : string := QUOTE +:+ s +:+ QUOTE.

Definition txt_content (r : Record_) : string :=
  default (content r) (s ← strip_prefix QUOTE (content r); strip_suffix QUOTE s).

Definition address_entry (hostname : string) (ip : IpAddr) : RecordKey * Body :=
  let k := match ip with V4 _ => "A"%string | V6 _ => "AAAA"%string end in
  ((k, ip_to_string ip),
   {| b_type := k; b_name := hostname; b_content := Some (ip_to_string ip); b_ttl := TTL_SECONDS;
      b_proxied := Some false; b_comment := SERVING_COMMENT; b_data := None |}).

(** The loop over the addresses: a key already pushed is skipped. *)
Fixpoint push_addresses (hostname : string) (ips : list IpAddr) (desired : list (RecordKey * Body)) :
    list (RecordKey * Body) :=
  match ips with
  | [] => desired
  | ip :: ips =>
      let e := address_entry hostname ip in
      if existsb (fun x => bool_decide (x.1 = e.1)) desired then push_addresses hostname ips desired
      else push_addresses hostname ips (desired ++ [e])
  end.

(** [str::contains]. *)
Fixpoint str_contains (p s : string) : bool :=
  starts_with p s || match s with EmptyString => false | String _ s => str_contains p s end.

Definition caa_entry (records : NameRecords) (v : string) : RecordKey * Body :=
  let '(t, c) :=
    if str_contains " issuewild " v then ("issuewild"%string, ";"%string)
    else ("issue"%string, "letsencrypt.org; validationmethods=dns-01; accounturi=" +:+ nr_acme_account_uri records) in
  (("CAA"%string, t +:+ ":" +:+ c),
   {| b_type := "CAA"; b_name := nr_hostname records; b_content := None; b_ttl := TTL_SECONDS;
      b_proxied := None; b_comment := SERVING_COMMENT; b_data := Some {| flags := 0; tag := t; value := c |} |}).

Definition serving_desired (records : NameRecords) : result DnsError (list (RecordKey * Body)) :=
  _ ← validate_records records;
  values ← caa_values (nr_acme_account_uri records);
  Ok (push_addresses (nr_hostname records) (nr_addresses records) [] ++ map (caa_entry records) values).

(** ** The operations *)
Definition ZoneM `{CloudflareApi} (A : Type) : Type := zone -> result DnsError A * zone.
#[global] Instance ZoneM_ret `{CloudflareApi} : MRet ZoneM := fun _ a z => (Ok a, z).
#[global] Instance ZoneM_bind `{CloudflareApi} : MBind ZoneM := fun _ _ f m z =>
  match m z with (Ok a, z') => f a z' | (Err e, z') => (Err e, z') end.

Section operations.
Context `{CloudflareApi}.

Definition lift {A} (r : result DnsError A) : ZoneM A := fun z => (r, z).

Definition call {T} (decode : list byte -> option (Envelope T)) (request : Request) : ZoneM (Envelope T) := fun z =>
  let (response, z') := api request z in (send decode response, z').

(** [for x in l { f(x).await? }] *)
Fixpoint for_each {A} (f : A -> ZoneM unit) (l : list A) : ZoneM unit :=
  match l with
  | [] => mret tt
  | x :: l => f x ≫= fun _ => for_each f l
  end.

Definition checked_list (n : string) (envelope : Envelope (list Record_)) : result DnsError (list Record_) :=
  _ ← reject_if (match total_pages envelope with None => true | Some pages => 1 <? pages end) Unavailable;
  records ← ok_or Unavailable (result_ envelope);
  _ ← reject_if ((1000 <? Z.of_nat (List.length records))
                 || existsb (fun r => negb (bool_decide (name r = n)) || negb (valid_id (id r))) records) Unavailable;
  Ok records.

Definition list_ (n : string) : ZoneM (list Record_) :=
  envelope ← call decode_records (Get n); lift (checked_list n envelope).

Definition create (body : Body) : ZoneM unit :=
  envelope ← call decode_value (Post body);
  lift (reject_if (bool_decide (result_ envelope = None)) Unavailable).

Definition delete (r : Record_) : ZoneM unit :=
  _ ← lift (reject_if (negb (valid_id (id r))) Unavailable);
  _ ← call decode_value (Delete (id r)); mret tt.

Definition update (r : Record_) (body : Body) : ZoneM unit :=
  _ ← lift (reject_if (negb (valid_id (id r))) Unavailable);
  envelope ← call decode_value (Patch (id r) body);
  lift (reject_if (bool_decide (result_ envelope = None)) Unavailable).

(** The plan's three loops. *)
Definition apply_plan (plan : ServingPlan) : ZoneM unit :=
  _ ← for_each create (missing plan);
  _ ← for_each (fun u => update u.1 u.2) (updates plan);
  for_each delete (stale plan).

Definition reconcile_serving (n : string) (desired : list (RecordKey * Body)) : ZoneM unit :=
  existing ← list_ n;
  plan ← lift (plan_serving existing desired);
  apply_plan plan.

Definition cf_publish_name (p : CloudflareProvider) (records : NameRecords) : ZoneM unit :=
  _ ← lift (require p CfServing);
  desired ← lift (serving_desired records);
  reconcile_serving (nr_hostname records) desired.

(** One record per wanted value is kept; the others are deleted. *)
Fixpoint keep_wanted (values kept : list string) (records : list Record_) : ZoneM (list string) :=
  match records with
  | [] => mret kept
  | r :: records =>
      if bool_decide (txt_content r ∈ values) && negb (bool_decide (txt_content r ∈ kept))
      then keep_wanted values (txt_content r :: kept) records
      else _ ← delete r; keep_wanted values kept records
  end.

Definition txt_body (n v : string) : Body :=
  {| b_type := "TXT"; b_name := n; b_content := Some (quoted v); b_ttl := 60; b_proxied := None;
     b_comment := CHALLENGE_COMMENT; b_data := None |}.

Definition cf_set_challenge (p : CloudflareProvider) (hostname : string) (values : list string) : ZoneM unit :=
  _ ← lift (require p CfChallenge);
  _ ← lift (validate_challenge_values values);
  n ← lift (challenge_name hostname);
  records ← list_ n;
  _ ← lift (reject_if (existsb (fun r => negb (bool_decide (kind r = "TXT"%string))
                                         || negb (starts_with CHALLENGE_PREFIX (comment r))) records) Conflict);
  kept ← keep_wanted values [] records;
  for_each (fun v => create (txt_body n v)) (List.filter (fun v => negb (bool_decide (v ∈ kept))) values).

Definition cf_retire_name (p : CloudflareProvider) (hostname : string) : ZoneM unit :=
  _ ← lift (require p CfServing);
  _ ← lift (hostname_checked hostname);
  existing ← list_ hostname;
  let records := List.filter (fun r => address_or_caa (kind r)) existing in
  _ ← lift (reject_if (existsb (fun r => negb (bool_decide (comment r = SERVING_COMMENT))) records) Conflict);
  _ ← lift (mapM key (List.filter (fun r => bool_decide (kind r = "CAA"%string)) records));
  for_each delete (sort_by_key delete_rank records).

Definition cf_retire_challenge (p : CloudflareProvider) (hostname : string) : ZoneM unit :=
  _ ← lift (require p CfChallenge);
  n ← lift (challenge_name hostname);
  existing ← list_ n;
  let records := List.filter (fun r => bool_decide (kind r = "TXT"%string)) existing in
  _ ← lift (reject_if (existsb (fun r => negb (starts_with CHALLENGE_PREFIX (comment r))) records) Conflict);
  for_each delete records.
End operations.

(** [Provider for CloudflareProvider]. *)
#[global] Instance cloudflare_provider `{CloudflareApi} (p : CloudflareProvider) : Provider zone := {
  publish_name := cf_publish_name p;
  set_challenge := cf_set_challenge p;
  retire_name := cf_retire_name p;
  retire_challenge := cf_retire_challenge p
}.

(** ** What the service documents *)
(** The record a body writes, over the fields of the record it replaces. *)
Record written (b : Body) (old : option Record_) (r : Record_) : Prop := {
  w_name : name r = b_name b;
  w_kind : kind r = b_type b;
  w_ttl : ttl r = b_ttl b;
  w_comment : comment r = b_comment b;
  w_content c : b_content b = Some c -> content r = c;
  w_proxied : proxied r = default (default false (proxied <$> old)) (b_proxied b);
  w_data d : b_data b = Some d -> data r = Some d
}.

(** The effect of a request on the records. *)
Definition effect (request : Request) (rs rs' : list Record_) : Prop :=
  match request with
  | Get _ => rs' ≡ₚ rs
  | Post b => exists r, written b None r /\ rs' ≡ₚ r :: rs
  | Delete i => rs' ≡ₚ List.filter (fun r => negb (bool_decide (id r = i))) rs
  | Patch i b => exists old r rest,
      id old = i /\ id r = i /\ written b (Some old) r /\ rs ≡ₚ old :: rest /\ rs' ≡ₚ r :: rest
  end.

Class CloudflareLaws `{CloudflareApi} := {
  (* identifiers are unique *)
  ids_unique z : NoDup (map id (zone_records z));
  (* a request has its effect or none *)
  api_effect request z :
    zone_records (api request z).2 ≡ₚ zone_records z \/
    effect request (zone_records z) (zone_records (api request z).2);
  (* a successful reply reports that it had it *)
  api_value request z envelope :
    send decode_value (api request z).1 = Ok envelope ->
    effect request (zone_records z) (zone_records (api request z).2);
  (* a complete listing has the records of the exact name *)
  api_list n z envelope records pages :
    send decode_records (api (Get n) z).1 = Ok envelope ->
    result_ envelope = Some records -> total_pages envelope = Some pages -> pages <= 1 ->
    records ≡ₚ List.filter (fun r => bool_decide (name r = n)) (zone_records z)
}.
