(* ===== verification/CloudflareTrace.v ===== *)
(** * What a run of the Cloudflare provider does to the zone

    Each loop of the provider leaves the zone after some prefix of its calls,
    whatever the outcome: the lemmas here say which records that is, as lists
    up to permutation. *)

From Stdlib Require Import String.
From stdpp Require Import base strings list.
From S2P Require Import Prelude Protocol Db Dns Cloudflare.

Section trace.
Context `{CloudflareLaws}.

Implicit Types (rs rest : list Record_) (z : zone).

(** ** Single calls *)
Lemma zone_bind_inv {A B} (m : ZoneM A) (k : A -> ZoneM B) z out z' :
  (m ≫= k) z = (out, z') ->
  (exists a z1, m z = (Ok a, z1) /\ k a z1 = (out, z')) \/ (exists e, m z = (Err e, z') /\ out = Err e).
Proof.
  unfold mbind, ZoneM_bind. destruct (m z) as [[a|e] z1] eqn:Hm.
  - intros Hk. left. eauto.
  - intros [= <- <-]. right. eauto.
Qed.

Lemma call_inv {T} decode (request : Request) z (out : result DnsError (Envelope T)) z' :
  call decode request z = (out, z') -> out = send decode (api request z).1 /\ z' = (api request z).2.
Proof. unfold call. destruct (api request z). by intros [= <- <-]. Qed.

(** A call that reports a value, then checks it. *)
Definition had_effect (request : Request) (out : result DnsError unit) (z z' : zone) : Prop :=
  effect request (zone_records z) (zone_records z') \/ (is_err out = true /\ zone_records z' ≡ₚ zone_records z).

Lemma call_value_inv request (k : Envelope unit -> result DnsError unit) z out z' :
  (call decode_value request ≫= (fun e => lift (k e))) z = (out, z') -> had_effect request out z z'.
Proof.
  intros [(e & z1 & [He ->]%call_inv & Hk)|(e & [He ->]%call_inv & ->)]%zone_bind_inv.
  - injection Hk as <- <-. left. eapply api_value. by rewrite <- He.
  - destruct (api_effect request z) as [Hn|He']; [by right | by left].
Qed.

Lemma guarded_inv {A} (b : bool) e (m : ZoneM A) z out z' :
  (lift (reject_if b e) ≫= fun _ => m) z = (out, z') ->
  (b = false /\ m z = (out, z')) \/ (out = Err e /\ z' = z).
Proof. destruct b; cbn; [intros [= <- <-]; by right | intros ?; by left]. Qed.

Lemma create_inv body z out z' : create body z = (out, z') -> had_effect (Post body) out z z'.
Proof. apply call_value_inv. Qed.

Lemma delete_inv r z out z' : delete r z = (out, z') -> had_effect (Delete (id r)) out z z'.
Proof.
  intros [[_ Hc]|[-> ->]]%guarded_inv; [|by right].
  eapply (call_value_inv _ (fun _ => Ok tt)), Hc.
Qed.

Lemma update_inv r body z out z' : update r body z = (out, z') -> had_effect (Patch (id r) body) out z z'.
Proof. intros [[_ Hc]|[-> ->]]%guarded_inv; [|by right]. eapply call_value_inv, Hc. Qed.

Lemma list_inv n z out z' :
  list_ n z = (out, z') ->
  zone_records z' ≡ₚ zone_records z /\
  forall records, out = Ok records ->
    records ≡ₚ List.filter (fun r => bool_decide (name r = n)) (zone_records z).
Proof.
  assert (Hsame : zone_records (api (Get n) z).2 ≡ₚ zone_records z) by (by destruct (api_effect (Get n) z)).
  intros [(e & z1 & [He ->]%call_inv & Hk)|(e & [He ->]%call_inv & ->)]%zone_bind_inv; split; try done.
  - by injection Hk as _ <-.
  - injection Hk as <- _. intros records Hok. unfold checked_list in Hok.
    destruct (total_pages e) as [pages|] eqn:Hp; cbn in Hok; [|done].
    destruct (Z.ltb_spec 1 pages); cbn in Hok; [done|].
    destruct (result_ e) as [rs|] eqn:Hr; cbn in Hok; [|done].
    destruct (_ || _); cbn in Hok; [done|]. injection Hok as <-.
    eapply api_list; eauto.
Qed.

(** ** Records and identifiers *)
Lemma filter_ids_absent i rest :
  (forall r, r ∈ rest -> id r <> i) -> List.filter (fun r => negb (bool_decide (id r = i))) rest = rest.
Proof.
  induction rest as [|r rest IH]; intros Hr; cbn; [done|].
  rewrite bool_decide_false by (apply Hr; left). cbn. f_equal. apply IH. intros x Hx. apply Hr. by right.
Qed.

Lemma filter_perm {A} (f : A -> bool) l k : l ≡ₚ k -> List.filter f l ≡ₚ List.filter f k.
Proof.
  induction 1; cbn; repeat case_match; try done; try by constructor.
  by etrans.
Qed.

Lemma ids_split r rest z :
  zone_records z ≡ₚ r :: rest -> forall x, x ∈ rest -> id x <> id r.
Proof.
  intros Hz x Hx Heq. pose proof (ids_unique z) as Hn. rewrite Hz in Hn. cbn in Hn.
  apply NoDup_cons in Hn as [Hni _]. apply Hni. rewrite <- Heq. by apply list_elem_of_fmap_2.
Qed.

Lemma delete_head r rest z z' out :
  zone_records z ≡ₚ r :: rest -> delete r z = (out, z') ->
  zone_records z' ≡ₚ rest \/ (is_err out = true /\ zone_records z' ≡ₚ r :: rest).
Proof.
  intros Hz [He|[Herr He]]%delete_inv; [left|right; split; [done|by rewrite He]].
  cbn in He. rewrite He, (filter_perm _ _ _ Hz). cbn. rewrite bool_decide_true by done. cbn.
  rewrite filter_ids_absent; [done|]. by eapply ids_split.
Qed.

Lemma update_head r body rest z z' out :
  zone_records z ≡ₚ r :: rest -> update r body z = (out, z') ->
  (exists r', written body (Some r) r' /\ zone_records z' ≡ₚ r' :: rest) \/
  (is_err out = true /\ zone_records z' ≡ₚ r :: rest).
Proof.
  intros Hz [He|[Herr He]]%update_inv; [left|right; split; [done|by rewrite He]].
  destruct He as (old & r' & rest' & Hio & Hir & Hw & Hzo & Hz').
  assert (old = r) as ->.
  { rewrite Hzo in Hz. assert (Hin : old ∈ r :: rest) by (rewrite <- Hz; left).
    apply elem_of_cons in Hin as [|Hin]; [done|].
    exfalso. eapply (ids_split r rest z); [by rewrite Hzo|done|done]. }
  exists r'. split; [done|]. rewrite Hz' . apply perm_skip.
  apply (Permutation_cons_inv (a := r)). by rewrite <- Hzo, Hz.
Qed.

(** ** Loops *)
Lemma for_each_map {A B} (f : B -> ZoneM unit) (g : A -> B) l z :
  for_each (fun x => f (g x)) l z = for_each f (map g l) z.
Proof.
  revert z. induction l as [|x l IH]; intros z; [done|]. cbn. unfold mbind, ZoneM_bind.
  destruct (f (g x) z) as [[]]; [apply IH|done].
Qed.

Lemma creates_trace bodies z out z' :
  for_each create bodies z = (out, z') ->
  exists made todo new,
    bodies = made ++ todo /\ Forall2 (fun b r => written b None r) made new /\
    zone_records z' ≡ₚ new ++ zone_records z /\ (is_ok out = true -> todo = []).
Proof.
  revert z. induction bodies as [|b bodies IH]; intros z; cbn [for_each].
  { intros [= <- <-]. by exists [], [], []. }
  intros [(u & z1 & Hc & Hk)|(e & Hc & ->)]%zone_bind_inv; apply create_inv in Hc as [He|[Herr He]]; try done.
  - destruct He as (r & Hw & He). apply IH in Hk as (made & todo & new & -> & Hf & Hz & Ht).
    exists (b :: made), todo, (r :: new). split_and!; [done|by constructor| |done].
    rewrite Hz, He. cbn. by rewrite Permutation_middle.
  - destruct He as (r & Hw & He). exists [b], bodies, [r]. split_and!; [done|by apply Forall2_cons_2|by rewrite He|done].
  - exists [], (b :: bodies), []. split_and!; [done|constructor|by rewrite He|done].
Qed.

Lemma deletes_trace l rest z out z' :
  zone_records z ≡ₚ l ++ rest -> for_each delete l z = (out, z') ->
  exists gone todo,
    l = gone ++ todo /\ zone_records z' ≡ₚ todo ++ rest /\ (is_ok out = true -> todo = []).
Proof.
  revert z. induction l as [|r l IH]; intros z Hz; cbn [for_each].
  { intros [= <- <-]. by exists [], []. }
  intros [(u & z1 & Hc & Hk)|(e & Hc & ->)]%zone_bind_inv;
    apply (delete_head r (l ++ rest)) in Hc as [He|[Herr He]]; try done.
  - apply IH in Hk as (gone & todo & -> & Hz' & Ht); [|done]. by exists (r :: gone), todo.
  - by exists [r], l.
  - by exists [], (r :: l).
Qed.

Lemma updates_trace us rest z out z' :
  zone_records z ≡ₚ map fst us ++ rest -> for_each (fun u => update u.1 u.2) us z = (out, z') ->
  exists made todo new,
    us = made ++ todo /\ Forall2 (fun u r => written u.2 (Some u.1) r) made new /\
    zone_records z' ≡ₚ new ++ map fst todo ++ rest /\ (is_ok out = true -> todo = []).
Proof.
  revert z rest. induction us as [|u us IH]; intros z rest Hz; cbn [for_each].
  { intros [= <- <-]. by exists [], [], []. }
  intros [(v & z1 & Hc & Hk)|(e & Hc & ->)]%zone_bind_inv;
    apply (update_head u.1 u.2 (map fst us ++ rest)) in Hc as [He|[Herr He]]; try done.
  - destruct He as (r & Hw & He).
    apply (IH z1 (r :: rest)) in Hk as (made & todo & new & -> & Hf & Hz' & Ht);
      [|by rewrite He, Permutation_middle].
    exists (u :: made), todo, (r :: new). split_and!; [done|by constructor| |done].
    rewrite Hz'. cbn. by rewrite <- !Permutation_middle.
  - destruct He as (r & Hw & He). exists [u], us, [r]. split_and!; [done|by apply Forall2_cons_2|by rewrite He|done].
  - exists [], (u :: us), []. split_and!; [done|constructor|by rewrite He|done].
Qed.

(** Some of the listed records remain; on success they are one per kept
    value. *)
Lemma keep_trace values l rest kept z out z' :
  zone_records z ≡ₚ l ++ rest -> keep_wanted values kept l z = (out, z') ->
  exists left gone,
    l ≡ₚ left ++ gone /\ zone_records z' ≡ₚ left ++ rest /\
    forall kept', out = Ok kept' ->
      kept' ≡ₚ map txt_content left ++ kept /\ (NoDup kept -> NoDup kept') /\
      Forall (fun r => txt_content r ∈ values) left.
Proof.
  revert kept z rest. induction l as [|r l IH]; intros kept z rest Hz; cbn [keep_wanted].
  { intros [= <- <-]. exists [], []. split_and!; [done..|]. by intros ? [= <-]. }
  destruct (bool_decide (txt_content r ∈ values) && negb (bool_decide (txt_content r ∈ kept))) eqn:Hkeep.
  - to_prop. intros Hk. apply (IH _ _ (r :: rest)) in Hk as (left & gone & Hl & Hz' & Hok);
      [|by rewrite Hz, <- Permutation_middle].
    exists (r :: left), gone. split_and!; [by rewrite Hl|by rewrite Hz', <- Permutation_middle|].
    intros kept' Ho. destruct (Hok kept' Ho) as (Hp & Hnd & Hin). split_and!; [|intros Hn|by constructor; [tauto|]].
    + rewrite Hp. cbn. by rewrite <- Permutation_middle.
    + apply Hnd. constructor; tauto.
  - intros [(u & z1 & Hc & Hk)|(e & Hc & ->)]%zone_bind_inv;
      apply (delete_head r (l ++ rest)) in Hc as [He|[Herr He]]; try done.
    + apply (IH _ _ rest) in Hk as (left & gone & Hl & Hz' & Hok); [|done]. exists left, (r :: gone).
      split_and!; [by rewrite Hl, <- Permutation_middle|done..].
    + exists l, [r]. split_and!; [by rewrite <- Permutation_cons_append|done..].
    + exists (r :: l), []. split_and!; [by rewrite app_nil_r|done..].
Qed.
End trace.
