(* ===== verification/CloudflarePlan.v ===== *)
(** * The serving plan of the Cloudflare provider

    The records a name should have, and how [plan_serving] divides the
    existing ones. *)

From Stdlib Require Import Ascii String Sorting.Sorted.
From stdpp Require Import base strings list sets.
From S2P Require Import Prelude Protocol Db Dns Cloudflare CloudflareTrace.

(** ** Stable sort by rank *)
Section sort_facts.
Context {A : Type} (rank : A -> Z).

Lemma insert_by_perm x l : insert_by rank x l ≡ₚ x :: l.
Proof. induction l as [|y l IH]; cbn; [done|]. case_match; [done|]. rewrite IH. constructor. Qed.

Lemma sort_by_key_perm l : sort_by_key rank l ≡ₚ l.
Proof. induction l as [|x l IH]; cbn; [done|]. by rewrite insert_by_perm, IH. Qed.

Lemma insert_by_sorted x l :
  StronglySorted (fun a b => rank a <= rank b) l -> StronglySorted (fun a b => rank a <= rank b) (insert_by rank x l).
Proof.
  induction 1 as [|y l Hs IH Hy]; cbn; [by repeat constructor|].
  destruct (Z.leb_spec (rank x) (rank y)).
  - constructor; [by constructor|]. constructor; [done|]. eapply List.Forall_impl, Hy. intros; cbn in *; lia.
  - constructor; [done|]. rewrite insert_by_perm. constructor; [lia|done].
Qed.

Lemma sort_by_key_sorted l : StronglySorted (fun a b => rank a <= rank b) (sort_by_key rank l).
Proof. induction l; cbn; [constructor | by apply insert_by_sorted]. Qed.

(** What comes first in a sorted list has the lower rank. *)
Lemma sort_by_key_split l a b x y :
  sort_by_key rank l = a ++ b -> x ∈ a -> y ∈ b -> rank x <= rank y.
Proof.
  intros Hl. pose proof (sort_by_key_sorted l) as Hs. rewrite Hl in Hs. clear Hl l.
  induction a as [|w a IH]; [by intros ?%not_elem_of_nil|]. cbn in Hs. apply StronglySorted_inv in Hs as [Hs Hw].
  intros [->|Hx]%elem_of_cons Hy; [|by apply IH]. rewrite Forall_forall in Hw. apply Hw. set_solver.
Qed.
End sort_facts.

(** ** The map of desired records *)
Lemma string_compare_refl s : String.compare s s = Eq.
Proof. induction s as [|c s IH]; cbn; [done|]. unfold Ascii.compare. by rewrite N.compare_refl. Qed.

Lemma key_compare_eq a b : key_compare a b = Eq <-> a = b.
Proof.
  unfold key_compare. destruct a as [a1 a2], b as [b1 b2]; cbn. split.
  - destruct (String.compare a1 b1) eqn:H1; [|done..]. intros H2.
    by apply String.compare_eq_iff in H1 as ->; apply String.compare_eq_iff in H2 as ->.
  - intros [= -> ->]. by rewrite !string_compare_refl.
Qed.

Section btree.
Context {V : Type}.
Implicit Types m l : list (RecordKey * V).

Lemma btree_insert_perm k v m : k ∉ map fst m -> btree_insert k v m ≡ₚ (k, v) :: m.
Proof.
  induction m as [|[k' v'] m IH]; cbn; [done|]. rewrite not_elem_of_cons. intros [Hk Hm].
  destruct (key_compare k k') eqn:Hc; [apply key_compare_eq in Hc; done|done|].
  rewrite IH by done. constructor.
Qed.

Lemma btree_collect_perm_acc l m :
  NoDup (map fst (l ++ m)) -> foldl (fun m e => btree_insert e.1 e.2 m) m l ≡ₚ l ++ m.
Proof.
  revert m. induction l as [|[k v] l IH]; intros m Hn; cbn; [done|].
  cbn in Hn. apply NoDup_cons in Hn as [Hk Hn].
  assert (Hi : btree_insert k v m ≡ₚ (k, v) :: m)
    by (apply btree_insert_perm; intros ?; apply Hk; rewrite map_app; set_solver).
  rewrite IH; [by rewrite Hi, <- Permutation_middle|].
  rewrite Hi, <- Permutation_middle. cbn. by constructor.
Qed.

Lemma btree_collect_perm l : NoDup (map fst l) -> btree_collect l ≡ₚ l.
Proof. intros Hn. unfold btree_collect. by rewrite btree_collect_perm_acc, app_nil_r by (by rewrite app_nil_r). Qed.

Lemma btree_get_Some k m v : btree_get k m = Some v -> (k, v) ∈ m.
Proof.
  unfold btree_get. destruct (find _ m) as [[k' v']|] eqn:Hf; [|done]. cbn. intros [= ->].
  apply find_some in Hf as [Hin Hk]. cbn in Hk. apply bool_decide_eq_true in Hk as ->. by apply list_elem_of_In.
Qed.
End btree.

(** ** What the existing records are *)
(** Relay-managed serving records of a name. *)
Definition managed_kind (r : Record_) : Prop := address_or_caa (kind r) = true /\ comment r = SERVING_COMMENT.

Record divided (D : list (RecordKey * Body)) (existing s : list Record_) (u : list (Record_ * Body))
    (kept other : list Record_) (keys : list RecordKey) : Prop := {
  div_all : existing ≡ₚ kept ++ map fst u ++ s ++ other;
  div_keys : map key (kept ++ map fst u) ≡ₚ map Ok keys;
  div_wanted : forall k, k ∈ keys -> k ∈ map fst D;
  div_kept : Forall (fun r => ttl r = TTL_SECONDS /\ proxied r = false) kept;
  div_updates : Forall (fun x => exists k, key x.1 = Ok k /\ (k, x.2) ∈ D) u;
  div_managed : Forall managed_kind (kept ++ map fst u ++ s);
  div_other : Forall (fun r => address_or_caa (kind r) = false) other
}.

Lemma divided_other D existing s u kept other keys r :
  address_or_caa (kind r) = false -> divided D existing s u kept other keys ->
  divided D (r :: existing) s u kept (r :: other) keys.
Proof.
  intros Hr []. split; try done; [|by constructor]. by rewrite div_all0, !app_assoc, Permutation_middle.
Qed.

Lemma divided_stale D existing s u kept other keys r :
  managed_kind r -> divided D existing s u kept other keys -> divided D (r :: existing) (r :: s) u kept other keys.
Proof.
  intros Hr []. split; try done.
  - rewrite div_all0, app_assoc, Permutation_middle. by rewrite <- app_assoc.
  - rewrite app_assoc, <- Permutation_middle, <- app_assoc. by constructor.
Qed.

Lemma divided_kept D existing s u kept other keys r k b :
  managed_kind r -> key r = Ok k -> (k, b) ∈ D -> ttl r = TTL_SECONDS -> proxied r = false ->
  divided D existing s u kept other keys -> divided D (r :: existing) s u (r :: kept) other (k :: keys).
Proof.
  intros Hr Hk Hb Ht Hp []. split; cbn; try done.
  - by rewrite div_all0.
  - by rewrite Hk, div_keys0.
  - intros k' [->|]%elem_of_cons; [|by auto]. by apply (list_elem_of_fmap_2 fst D (k, b)).
  - by constructor.
  - by constructor.
Qed.

Lemma divided_update D existing s u kept other keys r k b :
  managed_kind r -> key r = Ok k -> (k, b) ∈ D ->
  divided D existing s u kept other keys -> divided D (r :: existing) s ((r, b) :: u) kept other (k :: keys).
Proof.
  intros Hr Hk Hb []. split; cbn; try done.
  - by rewrite div_all0, <- Permutation_middle.
  - rewrite <- Permutation_middle. cbn. by rewrite Hk, div_keys0.
  - intros k' [->|]%elem_of_cons; [|by auto]. by apply (list_elem_of_fmap_2 fst D (k, b)).
  - constructor; [by exists k|done].
  - rewrite <- Permutation_middle. by constructor.
Qed.

Lemma plan_loop_spec D found existing s u found' :
  NoDup found -> plan_loop D found existing = Ok (s, u, found') ->
  exists kept other keys,
    divided D existing s u kept other keys /\ found' ≡ₚ keys ++ found /\ NoDup found'.
Proof.
  revert found s u found'. induction existing as [|r existing IH]; intros found s u found' Hn; cbn [plan_loop].
  { intros [= <- <- <-]. exists [], [], []. split; [split; cbn; try done; by intros ? ?%not_elem_of_nil|done]. }
  destruct (_ || _); [done|].
  destruct (address_or_caa (kind r)) eqn:Hkind; cbn [negb].
  2: { intros (kept & other & keys & Hd & Hf)%IH; [|done]. exists kept, (r :: other), keys.
       split; [by apply divided_other|done]. }
  case_bool_decide as Hc; cbn [negb]; [|done].
  destruct (key r) as [k|] eqn:Hk; cbn [mbind result_bind]; [|done].
  destruct (btree_get k D) as [b|] eqn:Hb; [case_bool_decide as Hin|].
  - intros ([[s1 u1] f1] & Hl & [= <- <- <-])%bind_ok. apply IH in Hl as (kept & other & keys & Hd & Hf); [|done].
    exists kept, other, keys. split; [by apply divided_stale|done].
  - intros ([[s1 u1] f1] & Hl & [= <- <- <-])%bind_ok.
    apply IH in Hl as (kept & other & keys & Hd & Hf & Hf'); [|by constructor]. apply btree_get_Some in Hb.
    assert (f1 ≡ₚ (k :: keys) ++ found) by (rewrite Hf; cbn; by rewrite <- Permutation_middle).
    destruct (Z.eqb_spec (ttl r) TTL_SECONDS); [destruct (proxied r) eqn:Hp|]; cbn.
    + exists kept, other, (k :: keys). split; [by apply divided_update|done].
    + exists (r :: kept), other, (k :: keys). split; [by eapply divided_kept|done].
    + exists kept, other, (k :: keys). split; [by apply divided_update|done].
  - intros ([[s1 u1] f1] & Hl & [= <- <- <-])%bind_ok. apply IH in Hl as (kept & other & keys & Hd & Hf); [|done].
    exists kept, other, keys. split; [by apply divided_stale|done].
Qed.

Lemma elem_of_keys_filter (D : list (RecordKey * Body)) (found : list RecordKey) k :
  k ∈ map fst (List.filter (fun e => negb (bool_decide (e.1 ∈ found))) D) <-> k ∈ map fst D /\ k ∉ found.
Proof.
  induction D as [|[k' b] D IH]; cbn; [set_solver|].
  case_bool_decide; cbn; rewrite ?elem_of_cons, IH; naive_solver.
Qed.

Lemma NoDup_keys_filter (D : list (RecordKey * Body)) (found : list RecordKey) :
  NoDup (map fst D) -> NoDup (map fst (List.filter (fun e => negb (bool_decide (e.1 ∈ found))) D)).
Proof.
  induction D as [|[k b] D IH]; cbn; [done|]. intros [Hk Hn]%NoDup_cons.
  case_bool_decide; cbn; [by apply IH|]. constructor; [|by apply IH]. by intros [? _]%elem_of_keys_filter.
Qed.

Lemma keys_partition (D : list (RecordKey * Body)) (found : list RecordKey) :
  NoDup (map fst D) -> NoDup found -> (forall k, k ∈ found -> k ∈ map fst D) ->
  map fst D ≡ₚ map fst (List.filter (fun e => negb (bool_decide (e.1 ∈ found))) D) ++ found.
Proof.
  intros HD Hf Hin. apply NoDup_Permutation; [done| |].
  - apply NoDup_app. split_and!; [by apply NoDup_keys_filter| |done]. by intros k [_ ?]%elem_of_keys_filter.
  - intros k. rewrite elem_of_app, elem_of_keys_filter. destruct (decide (k ∈ found)); naive_solver.
Qed.

(** The entries of [desired] whose key no kept or updated record has. *)
Lemma plan_serving_spec existing desired plan :
  NoDup (map fst desired) -> plan_serving existing desired = Ok plan ->
  exists kept other keys entries,
    divided desired existing (stale plan) (updates plan) kept other keys /\
    missing plan ≡ₚ map snd entries /\ missing plan = sort_by_key create_rank (map snd entries) /\
    map fst desired ≡ₚ map fst entries ++ keys /\ (forall e, e ∈ entries -> e ∈ desired).
Proof.
  unfold plan_serving. intros Hn ([[s u] found] & Hl & [= <-])%bind_ok. cbn.
  apply plan_loop_spec in Hl as (kept & other & keys & Hd & Hf & Hnf); [|constructor].
  rewrite app_nil_r in Hf. pose proof (btree_collect_perm desired Hn) as HD.
  exists kept, other, keys, (List.filter (fun e => negb (bool_decide (e.1 ∈ found))) (btree_collect desired)).
  split_and!; [| |done| |].
  - destruct Hd. split; try done.
    + by rewrite div_all0, sort_by_key_perm.
    + intros k Hk. rewrite <- HD. by auto.
    + eapply Forall_impl; [exact div_updates0|]. intros x (k & ? & ?). exists k. by rewrite <- HD.
    + by rewrite sort_by_key_perm.
  - by rewrite sort_by_key_perm.
  - rewrite <- Hf, <- HD at 1. apply keys_partition; [by rewrite HD|done|].
    intros k Hk. apply Hd. by rewrite <- Hf.
  - intros e He. apply list_elem_of_In, filter_In in He as [He _]. apply list_elem_of_In in He. by rewrite <- HD.
Qed.

(** ** What a name should have *)
Definition address_key (ip : IpAddr) : RecordKey :=
  (match ip with V4 _ => "A"%string | V6 _ => "AAAA"%string end, ip_to_string ip).
Definition issue_key (uri : string) : RecordKey :=
  ("CAA"%string, "issue:letsencrypt.org; validationmethods=dns-01; accounturi=" +:+ uri).
Definition denial_key : RecordKey := ("CAA"%string, "issuewild:;"%string).

(** An address of the name, the account's authorization, or the wildcard
    denial. *)
Definition wanted (records : NameRecords) (k : RecordKey) : Prop :=
  (exists ip, ip ∈ nr_addresses records /\ k = address_key ip) \/
  k = issue_key (nr_acme_account_uri records) \/ k = denial_key.

(** An entry of the desired list: writing its body gives a record of its key. *)
Record entry_ok (h : string) (e : RecordKey * Body) : Prop := {
  eo_name : b_name e.2 = h;
  eo_comment : b_comment e.2 = SERVING_COMMENT;
  eo_ttl : b_ttl e.2 = TTL_SECONDS;
  eo_kind : address_or_caa (b_type e.2) = true;
  eo_key old r : written e.2 old r -> key r = Ok e.1;
  eo_proxied : b_type e.2 <> "CAA"%string -> b_proxied e.2 = Some false;
  eo_data : b_type e.2 = "CAA"%string -> is_Some (b_data e.2)
}.

Lemma address_entry_ok h ip : entry_ok h (address_entry h ip).
Proof.
  split; try done; [by destruct ip| |by destruct ip].
  intros old r [? Hk ? ? Hc]. unfold key. cbn in *. rewrite Hk, (Hc _ eq_refl). by destruct ip.
Qed.

Lemma caa_entry_ok records v : entry_ok (nr_hostname records) (caa_entry records v).
Proof.
  unfold caa_entry. destruct (str_contains _ v); split; try done; cbn.
  all: intros old r [? Hk ? ? ? ? Hd]; unfold key; cbn in *; by rewrite Hk, (Hd _ eq_refl).
Qed.

Lemma push_addresses_spec h ips desired :
  Forall (entry_ok h) desired -> NoDup (map fst desired) ->
  let all := push_addresses h ips desired in
  Forall (entry_ok h) all /\ NoDup (map fst all) /\
  forall k, k ∈ map fst all <-> k ∈ map fst desired \/ exists ip, ip ∈ ips /\ k = address_key ip.
Proof.
  revert desired. induction ips as [|ip ips IH]; intros desired Ho Hn; cbn.
  { split_and!; [done..|]. set_solver. }
  destruct (existsb _ desired) eqn:He.
  - apply existsb_exists in He as (x & Hx & Hxk). apply bool_decide_eq_true in Hxk. apply list_elem_of_In in Hx.
    destruct (IH desired Ho Hn) as (H1 & H2 & H3). split_and!; [done..|]. intros k. rewrite H3.
    apply (list_elem_of_fmap_2 fst) in Hx. rewrite Hxk in Hx.
    change (address_key ip ∈ map fst desired) in Hx. set_solver.
  - destruct (IH (desired ++ [address_entry h ip])) as (H1 & H2 & H3).
    + apply Forall_app. split; [done|]. constructor; [apply address_entry_ok|constructor].
    + rewrite map_app, NoDup_app. split_and!; [done| |by apply NoDup_singleton].
      intros k Hk Hk'. cbn in Hk'. apply list_elem_of_singleton in Hk' as ->.
      apply list_elem_of_fmap in Hk as (x & Hx & Hin).
      apply not_true_iff_false in He. apply He, existsb_exists. exists x. split; [by apply list_elem_of_In|]. by apply bool_decide_eq_true.
    + split_and!; [done..|]. intros k. rewrite H3, map_app, elem_of_app.
      change (map fst [address_entry h ip]) with [address_key ip]. set_solver.
Qed.

(** ** The two CAA values *)
Lemma str_contains_absent c p s :
  bytes_all (fun b => negb (Byte.eqb b (byte_of_ascii c))) s = true -> str_contains (String c p) s = false.
Proof.
  induction s as [|a s IH]; [done|]. unfold bytes_all, str_bytes. cbn. intros [Ha Hs]%andb_prop.
  rewrite IH by done. rewrite orb_false_r. apply not_true_iff_false. intros [t Ht]%starts_with_true.
  cbn in Ht. injection Ht as -> _. apply negb_true_iff, Byte.eqb_false in Ha. by apply Ha.
Qed.

(** [p] cannot start inside [pre], whatever follows it. *)
Fixpoint compatible (p t : string) : bool :=
  match p, t with
  | String a p, String b t => Ascii.eqb a b && compatible p t
  | _, _ => true
  end.
Fixpoint never_starts (p pre : string) : bool :=
  match pre with EmptyString => true | String _ pre' => negb (compatible p pre) && never_starts p pre' end.

Lemma compatible_app p t r x : p +:+ r = t +:+ x -> compatible p t = true.
Proof.
  revert t. induction p as [|a p IH]; intros [|b t]; try done. cbn. intros [= -> Heq].
  rewrite Ascii.eqb_refl. by apply IH.
Qed.

Lemma str_contains_app p pre x : never_starts p pre = true -> str_contains p (pre +:+ x) = str_contains p x.
Proof.
  induction pre as [|a pre IH]; [done|]. cbn [never_starts]. intros [Hn Hp]%andb_prop.
  change (String a pre +:+ x) with (String a (pre +:+ x)). cbn [str_contains]. rewrite IH by done.
  destruct (starts_with p (String a (pre +:+ x))) eqn:Hs; [|done].
  apply starts_with_true in Hs as [t Ht]. symmetry in Ht.
  apply (compatible_app p (String a pre)) in Ht. by rewrite Ht in Hn.
Qed.

Lemma account_uri_no_space uri :
  is_ok (validate_acme_account_uri uri) = true ->
  bytes_all (fun b => negb (Byte.eqb b (byte_of_ascii " "%char))) uri = true.
Proof.
  unfold validate_acme_account_uri. intros Hok.
  assert (exists env, validate_account_uri env uri = Ok tt) as (env & (n & -> & _ & Hd & _)%validate_account_uri_ok).
  { destruct (validate_account_uri Production uri) as [[]|] eqn:H1; [by exists Production|].
    destruct (validate_account_uri Staging uri) as [[]|] eqn:H2; [by exists Staging|done]. }
  rewrite bytes_all_app. apply andb_true_intro. split; [by destruct env|].
  unfold bytes_all in *. rewrite forallb_forall in *. intros b Hb.
  specialize (Hd b Hb). by destruct b.
Qed.

Lemma issue_entry records :
  bytes_all (fun b => negb (Byte.eqb b (byte_of_ascii " "%char))) (nr_acme_account_uri records) = true ->
  (caa_entry records ("0 issue " +:+ QUOTE +:+ "letsencrypt.org; validationmethods=dns-01; accounturi="
                        +:+ nr_acme_account_uri records +:+ QUOTE)).1 = issue_key (nr_acme_account_uri records).
Proof.
  intros Huri. unfold caa_entry.
  pose (pre := "0 issue " +:+ QUOTE +:+ "letsencrypt.org; validationmethods=dns-01; accounturi=").
  assert (str_contains " issuewild " (pre +:+ (nr_acme_account_uri records +:+ QUOTE)) = false) as Hc.
  { rewrite str_contains_app by (vm_compute; reflexivity). apply str_contains_absent. by rewrite bytes_all_app, Huri. }
  change (pre +:+ (nr_acme_account_uri records +:+ QUOTE))
    with ("0 issue " +:+ QUOTE +:+ "letsencrypt.org; validationmethods=dns-01; accounturi="
            +:+ nr_acme_account_uri records +:+ QUOTE) in Hc.
  by rewrite Hc.
Qed.

Lemma serving_desired_spec records desired :
  serving_desired records = Ok desired ->
  Forall (entry_ok (nr_hostname records)) desired /\ NoDup (map fst desired) /\
  forall k, k ∈ map fst desired <-> wanted records k.
Proof.
  unfold serving_desired, caa_values. intros (u & _ & Hd)%bind_ok.
  destruct (is_err _) eqn:Huri; [done|]. apply negb_false_iff, account_uri_no_space in Huri.
  apply Ok_inj in Hd as <-.
  set (es := map (caa_entry records) _).
  assert (Hes : map fst es = [issue_key (nr_acme_account_uri records); denial_key]).
  { subst es. cbn [map]. by rewrite issue_entry. }
  destruct (push_addresses_spec (nr_hostname records) (nr_addresses records) [] ltac:(constructor) ltac:(constructor))
    as (Ho & Hn & Hk).
  split_and!.
  - apply Forall_app. split; [done|]. subst es. constructor; [|constructor; [|constructor]]; apply caa_entry_ok.
  - rewrite map_app, Hes. apply NoDup_app. split_and!; [done| |].
    + intros k [?%not_elem_of_nil|(ip & _ & ->)]%Hk; [done|].
      rewrite !elem_of_cons. intros [Hf|[Hf|?%not_elem_of_nil]]; [..|done];
        apply (f_equal fst) in Hf; destruct ip; discriminate Hf.
    + constructor; [|apply NoDup_singleton]. rewrite list_elem_of_singleton. intros Hf.
      apply (f_equal snd) in Hf. discriminate Hf.
  - intros k. rewrite map_app, Hes, elem_of_app, Hk, !elem_of_cons. unfold wanted.
    pose proof (not_elem_of_nil k). tauto.
Qed.
