(* ===== verification/CloudflareProperties.v ===== *)
(** * What the Cloudflare provider guarantees

    Against the documented API ([CloudflareLaws]): a successful change leaves
    exactly the requested records, no run touches a record it does not manage,
    and no run leaves a certificate authorization without the wildcard denial. *)

From Stdlib Require Import Ascii String.
From stdpp Require Import base strings list sets gmap fin_sets.
From S2P Require Import Prelude Protocol Db Dns Cloudflare CloudflareTrace CloudflarePlan.

Section properties.
Context `{CloudflareLaws}.
Implicit Types (z : zone) (p : CloudflareProvider) (rs : list Record_).

(** ** Runs of [publish_name] *)
(** The zone after some prefix of the plan's calls: the new records, the
    updated ones, those still to update, the kept, those still to delete, and
    the rest of the zone. *)
Definition after_prefix (missing : list Body) (upd : list (Record_ * Body)) (kept stale other rs' : list Record_)
    (ok : bool) : Prop :=
  exists made_c todo_c new made_u todo_u renewed gone todo_d,
    missing = made_c ++ todo_c /\ upd = made_u ++ todo_u /\ stale = gone ++ todo_d /\
    Forall2 (fun b r => written b None r) made_c new /\
    Forall2 (fun x r => written x.2 (Some x.1) r) made_u renewed /\
    rs' ≡ₚ new ++ renewed ++ map fst todo_u ++ kept ++ todo_d ++ other /\
    (todo_c = [] \/ (made_u = [] /\ gone = [])) /\
    (ok = true -> todo_c = [] /\ todo_u = [] /\ todo_d = []).

Lemma apply_plan_trace plan kept other z out z' :
  zone_records z ≡ₚ kept ++ map fst (updates plan) ++ stale plan ++ other ->
  apply_plan plan z = (out, z') ->
  after_prefix (missing plan) (updates plan) kept (stale plan) other (zone_records z') (is_ok out).
Proof.
  intros Hz Hrun. unfold apply_plan in Hrun.
  apply zone_bind_inv in Hrun as [(u & z1 & Hc & Hrun)|(e & Hc & ->)].
  2: { apply creates_trace in Hc as (mc & tc & new & Hm & Hf & Hz1 & _).
       exists mc, tc, new, [], (updates plan), [], [], (stale plan). split_and!; try done; [|by right].
       rewrite Hz1, Hz. cbn. by rewrite (Permutation_app_swap_app kept). }
  apply creates_trace in Hc as (mc & tc & new & Hm & Hf & Hz1 & Htc). specialize (Htc eq_refl) as ->.
  assert (Hz1' : zone_records z1 ≡ₚ map fst (updates plan) ++ new ++ kept ++ stale plan ++ other).
  { by rewrite Hz1, Hz, (Permutation_app_swap_app kept), (Permutation_app_swap_app new). }
  apply zone_bind_inv in Hrun as [(v & z2 & Hu & Hrun)|(e & Hu & ->)].
  2: { apply (updates_trace _ _ _ _ _ Hz1') in Hu as (mu & tu & ren & Hmu & Hfu & Hz2 & _).
       exists mc, [], new, mu, tu, ren, [], (stale plan). split_and!; try done; [|by left].
       rewrite Hz2. by rewrite !(Permutation_app_swap_app new). }
  apply (updates_trace _ _ _ _ _ Hz1') in Hu as (mu & tu & ren & Hmu & Hfu & Hz2 & Htu). specialize (Htu eq_refl) as ->.
  assert (Hz2' : zone_records z2 ≡ₚ stale plan ++ new ++ ren ++ kept ++ other).
  { rewrite Hz2. cbn. rewrite (Permutation_app_swap_app ren), !(Permutation_app_swap_app (stale plan)). done. }
  apply (deletes_trace _ _ _ _ _ Hz2') in Hrun as (gone & td & Hst & Hz3 & Htd).
  exists mc, [], new, mu, [], ren, gone, td. split_and!; try done; [|by left|intros Ho; split_and!; auto].
  rewrite Hz3. cbn. rewrite !(Permutation_app_swap_app td). done.
Qed.

(** The serving records of a name. *)
Definition serving_at (h : string) (r : Record_) : bool := bool_decide (name r = h) && address_or_caa (kind r).
(** Those the relay manages. *)
Definition managed (h : string) (r : Record_) : bool := serving_at h r && bool_decide (comment r = SERVING_COMMENT).

Record planned (h : string) (desired : list (RecordKey * Body)) (rs : list Record_) (missing : list Body)
    (upd : list (Record_ * Body)) (kept stale other : list Record_) (keys : list RecordKey)
    (entries : list (RecordKey * Body)) : Prop := {
  pl_all : rs ≡ₚ kept ++ map fst upd ++ stale ++ other;
  pl_keys : map key (kept ++ map fst upd) ≡ₚ map Ok keys;
  pl_split : map fst desired ≡ₚ map fst entries ++ keys;
  pl_missing : missing = sort_by_key create_rank (map snd entries);
  pl_entries e : e ∈ entries -> e ∈ desired;
  pl_kept : Forall (fun r => ttl r = TTL_SECONDS /\ proxied r = false) kept;
  pl_updates : Forall (fun x => exists k, key x.1 = Ok k /\ (k, x.2) ∈ desired) upd;
  pl_managed : Forall (fun r => managed h r = true) (kept ++ map fst upd ++ stale);
  pl_other : Forall (fun r => serving_at h r = false) other
}.

Lemma filter_split {A} (f : A -> bool) (l : list A) : l ≡ₚ List.filter f l ++ List.filter (fun x => negb (f x)) l.
Proof.
  induction l as [|x l IH]; cbn; [done|]. destruct (f x); cbn; [by rewrite <- IH|].
  by rewrite <- Permutation_middle, <- IH.
Qed.

Lemma Forall_filter {A} (f : A -> bool) (l : list A) : Forall (fun x => f x = true) (List.filter f l).
Proof. apply Forall_forall. intros x Hx. apply list_elem_of_In, filter_In in Hx as [_ Hx]. done. Qed.

Lemma plan_of_zone h desired rs existing plan :
  NoDup (map fst desired) ->
  existing ≡ₚ List.filter (fun r => bool_decide (name r = h)) rs -> plan_serving existing desired = Ok plan ->
  exists kept other keys entries,
    planned h desired rs (missing plan) (updates plan) kept (stale plan) other keys entries.
Proof.
  intros Hn He Hp. apply plan_serving_spec in Hp as (kept & other & keys & entries & Hd & _ & Hm & Hs & Hin); [|done].
  destruct Hd as [div_all div_keys div_wanted div_kept div_updates div_managed div_other]. set (away := List.filter (fun r => negb (bool_decide (name r = h))) rs).
  assert (Hname : Forall (fun r => bool_decide (name r = h) = true) (kept ++ map fst (updates plan) ++ stale plan ++ other)).
  { rewrite <- div_all, He. apply Forall_filter. }
  rewrite !Forall_app in Hname. destruct Hname as (Hn1 & Hn2 & Hn3 & Hn4).
  exists kept, (other ++ away), keys, entries. split; try done.
  - rewrite (filter_split (fun r => bool_decide (name r = h)) rs), <- He, div_all. by rewrite <- !app_assoc.
  - assert (Hall : Forall (fun r => bool_decide (name r = h) = true) (kept ++ map fst (updates plan) ++ stale plan))
      by (by rewrite !Forall_app).
    rewrite Forall_forall in *. intros r Hr. specialize (Hall r Hr). destruct (div_managed r Hr) as [Hk Hc].
    unfold managed, serving_at. rewrite Hall, Hk. by apply bool_decide_eq_true.
  - apply Forall_app. split; eapply Forall_impl; [exact div_other| |apply Forall_filter|]; cbn; intros r Hr; unfold serving_at.
    + by rewrite Hr, andb_false_r.
    + by apply negb_true_iff in Hr as ->.
Qed.

Lemma lift_inv {A B} (r : result DnsError A) (k : A -> ZoneM B) z out z' :
  (lift r ≫= k) z = (out, z') ->
  (exists a, r = Ok a /\ k a z = (out, z')) \/ (is_err out = true /\ z' = z).
Proof.
  intros [(a & z1 & [= -> ->] & Hk)|(e & [= -> ->] & ->)]%zone_bind_inv; [left; by exists a | by right].
Qed.

Lemma publish_trace p records z out z' :
  cf_publish_name p records z = (out, z') ->
  (is_err out = true /\ zone_records z' ≡ₚ zone_records z) \/
  exists desired missing upd kept stale other keys entries,
    serving_desired records = Ok desired /\
    planned (nr_hostname records) desired (zone_records z) missing upd kept stale other keys entries /\
    after_prefix missing upd kept stale other (zone_records z') (is_ok out).
Proof.
  intros [(u & _ & Hrun)|[? ->]]%lift_inv; [|by left].
  apply lift_inv in Hrun as [(desired & Hd & Hrun)|[? ->]]; [|by left].
  apply zone_bind_inv in Hrun as [(existing & z1 & Hl & Hrun)|(e & Hl & ->)];
    apply list_inv in Hl as [Hz1 Hl]; [|by left].
  apply lift_inv in Hrun as [(plan & Hp & Hrun)|[? ->]]; [|by left].
  right. destruct (serving_desired_spec _ _ Hd) as (_ & Hn & _).
  destruct (plan_of_zone (nr_hostname records) desired (zone_records z) existing plan Hn (Hl _ eq_refl) Hp)
    as (kept & other & keys & entries & Hpl).
  exists desired, (missing plan), (updates plan), kept, (stale plan), other, keys, entries. split_and!; [done..|].
  apply (apply_plan_trace plan kept other z1); [|done]. rewrite Hz1. apply Hpl.
Qed.

(** ** Records a plan wrote *)
Definition good (h : string) (r : Record_) : Prop :=
  managed h r = true /\ ttl r = TTL_SECONDS /\ (kind r <> "CAA"%string -> proxied r = false).

Lemma written_good h e old r : entry_ok h e -> written e.2 old r -> good h r /\ key r = Ok e.1.
Proof.
  intros [] Hw. pose proof (eo_key old r Hw). destruct Hw. split; [|done]. split_and!.
  - unfold managed, serving_at. rewrite w_name, w_kind, w_comment, eo_name, eo_kind, eo_comment.
    by rewrite !bool_decide_true.
  - by rewrite w_ttl.
  - rewrite w_kind. intros Hk. by rewrite w_proxied, eo_proxied.
Qed.

Lemma new_records h (es : list (RecordKey * Body)) new :
  Forall (entry_ok h) es -> Forall2 (fun b r => written b None r) (map snd es) new ->
  Forall (good h) new /\ map key new = map (fun e => Ok e.1) es.
Proof.
  revert new. induction es as [|e es IH]; intros new Ho Hw; cbn in Hw.
  - apply Forall2_nil_inv_l in Hw as ->. by split; [constructor|].
  - apply Forall2_cons_inv_l in Hw as (r & new' & Hr & Hw & ->). apply Forall_cons in Ho as [He Ho].
    destruct (written_good _ _ _ _ He Hr) as [Hg Hk]. destruct (IH new' Ho Hw) as [Hgs Hks].
    split; [by constructor|]. cbn. by rewrite Hk, Hks.
Qed.

Lemma renewed_records h desired (us : list (Record_ * Body)) renewed :
  Forall (entry_ok h) desired ->
  Forall (fun x => exists k, key x.1 = Ok k /\ (k, x.2) ∈ desired) us ->
  Forall2 (fun x r => written x.2 (Some x.1) r) us renewed ->
  Forall (good h) renewed /\ map key renewed = map key (map fst us).
Proof.
  intros Hd. revert renewed. induction us as [|x us IH]; intros renewed Hu Hw.
  - apply Forall2_nil_inv_l in Hw as ->. by split; [constructor|].
  - apply Forall2_cons_inv_l in Hw as (r & renewed' & Hr & Hw & ->).
    apply Forall_cons in Hu as [(k & Hk & Hin) Hu]. rewrite Forall_forall in Hd.
    destruct (written_good h (k, x.2) _ _ (Hd _ Hin) Hr) as [Hg Hk']. destruct (IH renewed' Hu Hw) as [Hgs Hks].
    split; [by constructor|]. cbn. by rewrite Hk, Hk', Hks.
Qed.

(** The bodies made so far are those of some of the entries. *)
Lemma made_entries (entries : list (RecordKey * Body)) made todo :
  sort_by_key create_rank (map snd entries) = made ++ todo ->
  exists es rest, entries ≡ₚ es ++ rest /\ made = map snd es /\ todo = map snd rest.
Proof.
  intros Hs. pose proof (sort_by_key_perm create_rank (map snd entries)) as Hp. rewrite Hs in Hp.
  apply Permutation_map_inv in Hp as (es & Hes & Hp).
  symmetry in Hes. apply map_eq_app in Hes as (a & b & -> & <- & <-). by exists a, b.
Qed.

(** ** Exactness *)
Definition served (h : string) (rs : list Record_) : list Record_ := List.filter (serving_at h) rs.

(** The serving records of the name are one per wanted key, with the relay's
    TTL and comment, unproxied. *)
Definition publishes (records : NameRecords) (rs : list Record_) : Prop :=
  Forall (good (nr_hostname records)) (served (nr_hostname records) rs) /\
  exists keys, map key (served (nr_hostname records) rs) ≡ₚ map Ok keys /\ NoDup keys /\
    forall k, k ∈ keys <-> wanted records k.

Lemma filter_all {A} (f : A -> bool) (l : list A) : Forall (fun x => f x = true) l -> List.filter f l = l.
Proof. induction 1 as [|x l Hx Hl IH]; cbn; [done|]. by rewrite Hx, IH. Qed.
Lemma filter_none {A} (f : A -> bool) (l : list A) : Forall (fun x => f x = false) l -> List.filter f l = [].
Proof. induction 1 as [|x l Hx Hl IH]; cbn; [done|]. by rewrite Hx. Qed.

Lemma good_serving h l : Forall (good h) l -> Forall (fun r => serving_at h r = true) l.
Proof. intros Hl. eapply Forall_impl; [exact Hl|]. by intros r ([? _]%andb_prop & _). Qed.

Lemma publish_exact p records z z' :
  cf_publish_name p records z = (Ok tt, z') -> publishes records (zone_records z').
Proof.
  intros [[? _]|(desired & missing & upd & kept & stale & other & keys & entries & Hd & [Hall Hkeys Hsplit Hmiss Hents Hkept Hupds Hman Hoth] & Hrun)]%publish_trace;
    [done|].
  destruct Hrun as (mc & tc & new & mu & tu & renewed & gone & td & Hm & Hu & Hst & Hnew & Hren & Hz & _ & Hok).
  destruct (Hok eq_refl) as (-> & -> & ->). rewrite app_nil_r in Hm, Hu. subst mc mu.
  destruct (serving_desired_spec _ _ Hd) as (Hentry & Hnd & Hwant).
  destruct (made_entries entries missing []) as (es & rest & Hes & -> & Hrest); [by rewrite app_nil_r, Hmiss|].
  symmetry in Hrest. apply map_eq_nil in Hrest as ->. rewrite app_nil_r in Hes.
  assert (Hes_ok : Forall (entry_ok (nr_hostname records)) es).
  { apply Forall_forall. intros e He. rewrite Forall_forall in Hentry. apply Hentry, Hents. by rewrite Hes. }
  destruct (new_records _ _ _ Hes_ok Hnew) as [Hg1 Hk1].
  destruct (renewed_records _ _ _ _ Hentry Hupds Hren) as [Hg2 Hk2].
  assert (Hg3 : Forall (good (nr_hostname records)) kept).
  { rewrite Forall_app in Hman. destruct Hman as [Hmk _]. rewrite Forall_forall in *.
    intros r Hr. destruct (Hkept r Hr). by split_and!; [apply Hmk| |]. }
  assert (Hserved : served (nr_hostname records) (zone_records z') ≡ₚ new ++ renewed ++ kept).
  { unfold served. rewrite (filter_perm _ _ _ Hz). cbn [map app]. rewrite !List.filter_app.
    rewrite (filter_none _ other), app_nil_r by done. by rewrite !filter_all by (by apply good_serving). }
  split; [by rewrite Hserved, !Forall_app|].
  exists (map fst desired). split_and!; [|done..].
  rewrite Hserved, !map_app, Hk1, Hk2, Hsplit, map_app, <- Hkeys, Hes, map_app, !map_map.
  by rewrite (Permutation_app_comm (map key kept)).
Qed.

(** ** Every run *)
(** What an interrupted run has written: records of planned keys. *)
Lemma run_records h desired rs missing upd kept stale other keys entries mc tc new mu tu renewed :
  Forall (entry_ok h) desired -> planned h desired rs missing upd kept stale other keys entries ->
  missing = mc ++ tc -> upd = mu ++ tu ->
  Forall2 (fun b r => written b None r) mc new -> Forall2 (fun x r => written x.2 (Some x.1) r) mu renewed ->
  exists es rest,
    entries ≡ₚ es ++ rest /\ mc = map snd es /\ tc = map snd rest /\ Forall (good h) new /\
    map key new = map (fun e => Ok e.1) es /\ Forall (good h) renewed /\ map key renewed = map key (map fst mu).
Proof.
  intros Hentry [] -> -> Hnew Hren.
  destruct (made_entries entries mc tc) as (es & rest & Hes & -> & ->); [done|].
  assert (Hes_ok : Forall (entry_ok h) es).
  { apply Forall_forall. intros e He. rewrite Forall_forall in Hentry. apply Hentry, pl_entries0. rewrite Hes. set_solver. }
  destruct (new_records _ _ _ Hes_ok Hnew) as [Hg1 Hk1]. apply Forall_app in pl_updates0 as [Hmu _].
  destruct (renewed_records _ _ _ _ Hentry Hmu Hren) as [Hg2 Hk2].
  by exists es, rest.
Qed.

Definition foreign (h : string) (rs : list Record_) : list Record_ := List.filter (fun r => negb (managed h r)) rs.

Lemma foreign_managed h l : Forall (fun r => managed h r = true) l -> foreign h l = [].
Proof. intros Hl. apply filter_none. eapply Forall_impl; [exact Hl|]. by intros r ->. Qed.
Lemma foreign_good h l : Forall (good h) l -> foreign h l = [].
Proof. intros Hl. apply foreign_managed. eapply Forall_impl; [exact Hl|]. by intros r [? _]. Qed.
Lemma foreign_app h l k : foreign h (l ++ k) = foreign h l ++ foreign h k.
Proof. apply List.filter_app. Qed.
Lemma foreign_perm h l k : l ≡ₚ k -> foreign h l ≡ₚ foreign h k.
Proof. apply filter_perm. Qed.

Lemma publish_foreign p records z out z' :
  cf_publish_name p records z = (out, z') ->
  foreign (nr_hostname records) (zone_records z') ≡ₚ foreign (nr_hostname records) (zone_records z).
Proof.
  intros [[_ Hz]|(desired & missing & upd & kept & stale & other & keys & entries & Hd & Hp & Hrun)]%publish_trace;
    [by apply foreign_perm|].
  destruct Hrun as (mc & tc & new & mu & tu & renewed & gone & td & Hm & Hu & Hst & Hnew & Hren & Hz & _).
  destruct (serving_desired_spec _ _ Hd) as (Hentry & _).
  destruct (run_records _ _ _ _ _ _ _ _ _ _ _ _ _ _ _ _ Hentry Hp Hm Hu Hnew Hren)
    as (es & rest & _ & _ & _ & Hg1 & _ & Hg2 & _).
  destruct Hp as [Hall _ _ _ _ _ _ Hman _]. rewrite (foreign_perm _ _ _ Hz), (foreign_perm _ _ _ Hall).
  rewrite Hu, Hst, map_app, !Forall_app in Hman. destruct Hman as (H1 & (H2 & H3) & H4 & H5).
  rewrite Hu, Hst, map_app, !foreign_app, (foreign_good _ new), (foreign_good _ renewed) by done.
  by rewrite (foreign_managed _ kept), (foreign_managed _ (map fst mu)), (foreign_managed _ (map fst tu)),
    (foreign_managed _ gone), (foreign_managed _ td).
Qed.

(** ** Certificate authority authorization *)
Definition caa_tag (h t : string) (r : Record_) : bool :=
  bool_decide (name r = h) && bool_decide (kind r = "CAA"%string) &&
  match data r with Some d => bool_decide (tag d = t) | None => false end.
(** Any certificate may be issued to the named account ... *)
Definition authorizes (h : string) (r : Record_) : bool := caa_tag h "issue" r.
(** ... but no wildcard one. *)
Definition denies (h : string) (r : Record_) : bool :=
  caa_tag h "issuewild" r && match data r with Some d => bool_decide (value d = ";"%string) | None => false end.

(** No authorization without the wildcard denial. *)
Definition caa_safe (h : string) (rs : list Record_) : Prop :=
  (exists r, r ∈ rs /\ authorizes h r = true) -> exists r, r ∈ rs /\ denies h r = true.

Lemma caa_safe_perm h rs rs' : rs' ≡ₚ rs -> caa_safe h rs -> caa_safe h rs'.
Proof. intros Hp Hs (r & Hr & Ha). destruct Hs as (d & Hd & Hd'); [exists r; by rewrite <- Hp|]. exists d. by rewrite Hp. Qed.

Lemma key_denies h r : name r = h -> key r = Ok denial_key -> denies h r = true.
Proof.
  intros Hn. unfold key, denies, caa_tag. rewrite (bool_decide_true (name r = h)) by done.
  case_bool_decide as Hk; [|intros Hd%Ok_inj; apply (f_equal fst) in Hd; done].
  destruct (data r) as [d|]; [|done]. cbn [mbind result_bind ok_or andb].
  destruct (negb (flags d =? 0)); [done|]. cbn [orb].
  destruct (bool_decide (tag d = "issue"%string)) eqn:Hi; cbn [orb negb].
  - apply bool_decide_eq_true in Hi as ->. intros Hd%Ok_inj. apply (f_equal snd) in Hd. discriminate Hd.
  - destruct (bool_decide (tag d = "issuewild"%string)) eqn:Ht; [|done]. apply bool_decide_eq_true in Ht as ->.
    cbn [negb andb]. intros Hd%Ok_inj. apply (f_equal snd) in Hd.
    apply bool_decide_eq_true. injection Hd as Hd. exact Hd.
Qed.

Lemma managed_name h r : managed h r = true -> name r = h.
Proof. unfold managed, serving_at. intros [[Hn _]%andb_prop _]%andb_prop. by apply bool_decide_eq_true in Hn. Qed.

Lemma good_name h r : good h r -> name r = h.
Proof. intros [? _]. by apply managed_name. Qed.

(** A record among [l] with a given key. *)
Lemma key_in (l : list Record_) k : Ok k ∈ map key l -> exists r, r ∈ l /\ key r = Ok k.
Proof. intros (r & Hk & Hr)%list_elem_of_fmap. by exists r. Qed.

(** A record that authorizes came from a body of rank 1. *)
Lemma authorizes_rank h es new r :
  Forall (entry_ok h) es -> Forall2 (fun b r => written b None r) (map snd es) new ->
  r ∈ new -> authorizes h r = true -> exists b, b ∈ map snd es /\ create_rank b = 1.
Proof.
  intros Ho Hw Hr Ha. apply list_elem_of_lookup in Hr as [i Hi].
  eapply Forall2_lookup_r in Hw as (b & Hb & Hwr); [|exact Hi]. apply list_elem_of_lookup_2 in Hb.
  exists b. split; [done|]. apply list_elem_of_fmap in Hb as (e & -> & He).
  rewrite Forall_forall in Ho. destruct (Ho e He) as [_ _ _ _ _ _ Hdata]. destruct Hwr as [_ Hwk _ _ _ _ Hwd].
  unfold authorizes, caa_tag in Ha. apply andb_prop in Ha as [[_ Hk]%andb_prop Hd].
  apply bool_decide_eq_true in Hk. unfold create_rank. rewrite <- Hwk, (bool_decide_true _ Hk).
  destruct (Hdata ltac:(congruence)) as [d Hbd]. rewrite Hbd. rewrite (Hwd _ Hbd) in Hd.
  apply bool_decide_eq_true in Hd as ->. done.
Qed.

(** The record a body creates. *)
Definition created (b : Body) : Record_ :=
  {| id := EmptyString; name := b_name b; kind := b_type b; content := default EmptyString (b_content b);
     ttl := b_ttl b; proxied := default false (b_proxied b); comment := b_comment b; data := b_data b |}.

Lemma created_written b : written b None (created b).
Proof. split; try done. cbn. by intros c ->. Qed.

Lemma denial_rank h (e : RecordKey * Body) : entry_ok h e -> e.1 = denial_key -> create_rank e.2 = 0.
Proof.
  intros He Hk. pose proof (created_written e.2) as Hw. destruct (written_good _ _ _ _ He Hw) as [Hg Hkey].
  rewrite Hk in Hkey. apply (key_denies h) in Hkey; [|by apply good_name].
  unfold denies, caa_tag in Hkey. cbn in Hkey. apply andb_prop in Hkey as [[[_ Hc]%andb_prop Ht]%andb_prop _].
  unfold create_rank. rewrite Hc. destruct (b_data e.2) as [d|]; [|done]. by rewrite Ht.
Qed.

(** Records of the name, one of them with the denial's key, deny. *)
Lemma denial_present h l rs' :
  Forall (fun r => name r = h) l -> Ok denial_key ∈ map key l -> (forall r, r ∈ l -> r ∈ rs') ->
  exists r, r ∈ rs' /\ denies h r = true.
Proof.
  intros Hn (r & Hr & Hk)%key_in Hin. exists r. split; [by apply Hin|]. apply key_denies; [|done].
  rewrite Forall_forall in Hn. by apply Hn.
Qed.

(** The sort creates the denial before any authorization. *)
Lemma denial_created_first h (entries es rest : list (RecordKey * Body)) new r e :
  Forall (entry_ok h) (es ++ rest) -> sort_by_key create_rank (map snd entries) = map snd es ++ map snd rest ->
  Forall2 (fun b r => written b None r) (map snd es) new -> r ∈ new -> authorizes h r = true ->
  e ∈ rest -> denial_key = e.1 -> False.
Proof.
  intros Ho Hs Hnew Hr Ha He Hek. apply Forall_app in Ho as [Ho1 Ho2]. rewrite Forall_forall in Ho2.
  destruct (authorizes_rank h es new r) as (b & Hb & Hrank); [done..|].
  pose proof (denial_rank h e (Ho2 e He) (eq_sym Hek)).
  assert (create_rank b <= create_rank e.2); [|lia].
  apply (sort_by_key_split create_rank (map snd entries) (map snd es) (map snd rest)); [done..|].
  by apply list_elem_of_fmap_2.
Qed.

Lemma publish_caa p records z out z' :
  cf_publish_name p records z = (out, z') ->
  caa_safe (nr_hostname records) (zone_records z) -> caa_safe (nr_hostname records) (zone_records z').
Proof.
  intros [[_ Hz]|(desired & missing & upd & kept & stale & other & keys & entries & Hd & Hp & Hrun)]%publish_trace;
    [by apply caa_safe_perm|].
  destruct Hrun as (mc & tc & new & mu & tu & renewed & gone & td & Hm & Hu & Hst & Hnew & Hren & Hz & Hstage & _).
  destruct (serving_desired_spec _ _ Hd) as (Hentry & _ & Hwant).
  destruct (run_records _ _ _ _ _ _ _ _ _ _ _ _ _ _ _ _ Hentry Hp Hm Hu Hnew Hren)
    as (es & rest & Hes & -> & -> & Hg1 & Hk1 & Hg2 & Hk2).
  destruct Hp as [Hall Hkeys Hsplit Hmiss Hents _ _ Hman _].
  assert (Hes_ok : forall e, e ∈ es ++ rest -> entry_ok (nr_hostname records) e).
  { intros e He. rewrite Forall_forall in Hentry. apply Hentry, Hents. by rewrite Hes. }
  assert (Hden : denial_key ∈ map fst es \/ denial_key ∈ map fst rest \/ denial_key ∈ keys).
  { assert (Hin : denial_key ∈ map fst desired) by (apply Hwant; unfold wanted; auto).
    rewrite Hsplit, Hes, map_app, !elem_of_app in Hin. tauto. }
  assert (Hpresent : denial_key ∈ map fst es \/ denial_key ∈ keys ->
    exists r, r ∈ zone_records z' /\ denies (nr_hostname records) r = true).
  { intros Hd'. apply (denial_present _ (new ++ renewed ++ map fst tu ++ kept)).
    - rewrite Hu, map_app, !Forall_app in Hman. destruct Hman as (H1 & (_ & H2) & _).
      rewrite !Forall_app. split_and!; (eapply Forall_impl; [eassumption|]; eauto using managed_name, good_name).
    - rewrite !map_app, Hk1, Hk2, !elem_of_app. destruct Hd' as [Hd'|Hd'].
      + left. apply (list_elem_of_fmap_2 (@Ok DnsError _)) in Hd'. by rewrite map_map in Hd'.
      + apply (list_elem_of_fmap_2 (@Ok DnsError _)) in Hd'.
        rewrite <- Hkeys, Hu, !map_app, !elem_of_app in Hd'. tauto.
    - intros r. rewrite Hz, !elem_of_app. tauto. }
  destruct (decide (denial_key ∈ map fst rest)) as [Hrest|]; [|intros _ _; apply Hpresent; tauto].
  apply list_elem_of_fmap in Hrest as (e & Hek & He).
  destruct Hstage as [Hnil%map_eq_nil|[-> ->]]; [by subst rest; apply not_elem_of_nil in He|].
  intros Hsafe (r & Hr & Ha). rewrite Hz in Hr. apply elem_of_app in Hr as [Hr|Hr].
  - destruct (denial_created_first (nr_hostname records) entries es rest new r e); try done; [|by rewrite <- Hmiss].
    apply Forall_forall, Hes_ok.
  - apply Forall2_nil_inv_l in Hren as ->. destruct Hsafe as (d & Hdin & Hdd).
    + exists r. rewrite Hall, Hu, Hst. split; [|done]. clear -Hr. set_solver.
    + exists d. split; [|done]. rewrite Hall, Hu, Hst in Hdin. rewrite Hz. clear -Hdin. set_solver.
Qed.

(** The only account a record authorizes is the given one, by DNS-01. *)
Definition bound_to (account : string) (r : Record_) : Prop :=
  data r = Some {| flags := 0; tag := "issue";
                   value := "letsencrypt.org; validationmethods=dns-01; accounturi=" +:+ account |}.

Lemma wanted_bound records h r k :
  authorizes h r = true -> key r = Ok k -> wanted records k -> bound_to (nr_acme_account_uri records) r.
Proof.
  unfold authorizes, caa_tag, key, bound_to. intros [[_ Hk]%andb_prop Hd]%andb_prop. rewrite Hk.
  apply bool_decide_eq_true in Hk as ->. destruct (data r) as [[f t v]|]; [|done].
  cbn [mbind result_bind ok_or tag flags value] in *. apply bool_decide_eq_true in Hd as ->.
  cbn [bool_decide orb negb]. rewrite orb_false_r. destruct (f =? 0) eqn:Hf; cbn [negb]; [|done].
  apply Z.eqb_eq in Hf as ->. intros Hk%Ok_inj [(ip & _ & ->)|[->| ->]].
  - apply (f_equal fst) in Hk. by destruct ip.
  - apply (f_equal snd) in Hk.
    apply (inj (String.append "issue:") v ("letsencrypt.org; validationmethods=dns-01; accounturi=" +:+ _)) in Hk as ->. done.
  - apply (f_equal snd) in Hk. discriminate Hk.
Qed.

(** An authorization the name has after a run was there before or names the
    installation's own account. *)
Lemma publish_bound p records z out z' r :
  cf_publish_name p records z = (out, z') -> r ∈ zone_records z' -> authorizes (nr_hostname records) r = true ->
  r ∈ zone_records z \/ bound_to (nr_acme_account_uri records) r.
Proof.
  intros [[_ Hz]|(desired & missing & upd & kept & stale & other & keys & entries & Hd & Hp & Hrun)]%publish_trace;
    [intros Hr; left; by rewrite <- Hz|].
  destruct Hrun as (mc & tc & new & mu & tu & renewed & gone & td & Hm & Hu & Hst & Hnew & Hren & Hz & _).
  destruct (serving_desired_spec _ _ Hd) as (Hentry & _ & Hwant).
  destruct (run_records _ _ _ _ _ _ _ _ _ _ _ _ _ _ _ _ Hentry Hp Hm Hu Hnew Hren)
    as (es & rest & Hes & -> & -> & _ & Hk1 & _ & Hk2).
  destruct Hp as [Hall Hkeys Hsplit _ _ _ _ _ _]. rewrite Hz. intros Hr Ha.
  assert (Hw : forall l, (forall k, Ok k ∈ map key l -> k ∈ map fst desired) ->
    Forall (fun x => exists k, x = Ok k) (map key l) -> r ∈ l -> bound_to (nr_acme_account_uri records) r).
  { intros l Hl Hok Hin. apply (list_elem_of_fmap_2 key) in Hin. rewrite Forall_forall in Hok.
    destruct (Hok _ Hin) as [k Hk]. rewrite Hk in Hin. apply (wanted_bound records _ r k Ha Hk), Hwant, Hl, Hin. }
  rewrite !elem_of_app in Hr. destruct Hr as [Hr|[Hr|Hr]].
  - right. apply (Hw new); [..|done]; rewrite Hk1.
    + intros k (e & [= ->] & He)%list_elem_of_fmap. rewrite Hsplit, Hes, map_app, !elem_of_app.
      left. left. by apply list_elem_of_fmap_2.
    + apply Forall_map, Forall_forall. eauto.
  - right. apply (Hw renewed); [..|done]; rewrite Hk2.
    + intros k Hin. rewrite Hsplit, elem_of_app. right.
      assert (Hin' : Ok k ∈ map (@Ok DnsError _) keys) by (rewrite <- Hkeys, Hu, !map_app, !elem_of_app; tauto).
      apply list_elem_of_fmap in Hin' as (k' & [= ->] & Hk'). done.
    + apply Forall_forall. intros x Hx. assert (Hin : x ∈ map (@Ok DnsError _) keys).
      { rewrite <- Hkeys, Hu, !map_app, !elem_of_app. tauto. }
      apply list_elem_of_fmap in Hin as (k & -> & _). eauto.
  - left. rewrite Hall, Hu, Hst. clear -Hr. set_solver.
Qed.

(** After a publication that succeeds only the installation's account is
    authorized. *)
Lemma publishes_bound records rs r :
  publishes records rs -> r ∈ rs -> authorizes (nr_hostname records) r = true ->
  bound_to (nr_acme_account_uri records) r.
Proof.
  intros (_ & keys & Hk & _ & Hwant) Hr Ha.
  assert (Hs : r ∈ served (nr_hostname records) rs).
  { apply list_elem_of_In, filter_In. split; [by apply list_elem_of_In|]. revert Ha.
    unfold authorizes, caa_tag, serving_at. intros [[Hn Hc]%andb_prop _]%andb_prop. rewrite Hn.
    apply bool_decide_eq_true in Hc as ->. done. }
  apply (list_elem_of_fmap_2 key) in Hs. change (key <$> ?l) with (map key l) in Hs. rewrite Hk in Hs.
  apply list_elem_of_fmap in Hs as (k & Hkey & Hin). apply (wanted_bound records _ r k Ha Hkey), Hwant, Hin.
Qed.

(** ** Runs of [retire_name] *)
Lemma existsb_negb_false {A} (f : A -> bool) (l : list A) :
  existsb (fun x => negb (f x)) l = false -> Forall (fun x => f x = true) l.
Proof. induction l as [|x l IH]; cbn; [done|]. intros [Hx Hl]%orb_false_iff. apply negb_false_iff in Hx. auto. Qed.

(** The records listed at a name, those a filter selects, and the rest of the
    zone. *)
Lemma listed_split n f existing rs :
  existing ≡ₚ List.filter (fun r => bool_decide (name r = n)) rs ->
  exists other, rs ≡ₚ List.filter f existing ++ other /\
    Forall (fun r => bool_decide (name r = n) && f r = false) other /\
    Forall (fun r => name r = n /\ f r = true) (List.filter f existing).
Proof.
  intros He. exists (List.filter (fun r => negb (f r)) existing ++ List.filter (fun r => negb (bool_decide (name r = n))) rs).
  split_and!.
  - rewrite (filter_split (fun r => bool_decide (name r = n)) rs) at 1.
    by rewrite <- He, app_assoc, <- (filter_split f existing).
  - apply Forall_app. split; (eapply Forall_impl; [apply Forall_filter|]; cbn; intros r Hr%negb_true_iff).
    + by rewrite Hr, andb_false_r.
    + by rewrite Hr.
  - apply Forall_forall. intros r Hr. apply list_elem_of_In, filter_In in Hr as [Hr Hf]. split; [|done].
    apply list_elem_of_In in Hr. rewrite He in Hr. apply list_elem_of_In, filter_In in Hr as [_ Hr].
    by apply bool_decide_eq_true in Hr.
Qed.

(** The zone after some prefix of the deletions of [l]. *)
Definition after_deletes (l other rs' : list Record_) (ok : bool) : Prop :=
  exists gone todo, l = gone ++ todo /\ rs' ≡ₚ todo ++ other /\ (ok = true -> todo = []).

Lemma retire_trace p h z out z' :
  cf_retire_name p h z = (out, z') ->
  (is_err out = true /\ zone_records z' ≡ₚ zone_records z) \/
  exists l other,
    zone_records z ≡ₚ l ++ other /\ Forall (fun r => managed h r = true) l /\
    Forall (fun r => serving_at h r = false) other /\
    after_deletes (sort_by_key delete_rank l) other (zone_records z') (is_ok out).
Proof.
  intros [(u & _ & Hrun)|[? ->]]%lift_inv; [|by left].
  apply lift_inv in Hrun as [(u' & _ & Hrun)|[? ->]]; [|by left].
  apply zone_bind_inv in Hrun as [(existing & z1 & Hl & Hrun)|(e & Hl & ->)];
    apply list_inv in Hl as [Hz1 Hl]; [|by left].
  apply guarded_inv in Hrun as [[Hc Hrun]|[-> ->]]; [|by left].
  apply lift_inv in Hrun as [(ks & _ & Hrun)|[? ->]]; [|by left]. right.
  destruct (listed_split h (fun r => address_or_caa (kind r)) _ _ (Hl _ eq_refl)) as (other & Hz & Ho & Hn).
  exists (List.filter (fun r => address_or_caa (kind r)) existing), other. split_and!; [done| |done|].
  - apply existsb_negb_false in Hc. rewrite Forall_forall in *. intros r Hr. specialize (Hc r Hr).
    destruct (Hn r Hr) as [Hname Hk]. unfold managed, serving_at. by rewrite (bool_decide_true _ Hname), Hk, Hc.
  - eapply deletes_trace in Hrun; [exact Hrun|]. by rewrite sort_by_key_perm, Hz1.
Qed.

Lemma retire_exact p h z z' : cf_retire_name p h z = (Ok tt, z') -> served h (zone_records z') = [].
Proof.
  intros [[? _]|(l & other & _ & _ & Ho & gone & todo & _ & Hz & Hok)]%retire_trace; [done|].
  rewrite (Hok eq_refl) in Hz. apply Permutation_nil_r. unfold served. rewrite (filter_perm _ _ _ Hz). cbn.
  by rewrite filter_none.
Qed.

Lemma retire_foreign p h z out z' :
  cf_retire_name p h z = (out, z') -> foreign h (zone_records z') ≡ₚ foreign h (zone_records z).
Proof.
  intros [[_ Hz]|(l & other & Hz & Hm & _ & gone & todo & Hl & Hz' & _)]%retire_trace; [by apply foreign_perm|].
  rewrite (foreign_perm _ _ _ Hz), (foreign_perm _ _ _ Hz'), !foreign_app, (foreign_managed _ l) by done.
  assert (Hm' : Forall (fun r => managed h r = true) (gone ++ todo)) by (by rewrite <- Hl, sort_by_key_perm).
  apply Forall_app in Hm' as [_ Hm']. by rewrite (foreign_managed _ todo).
Qed.

Lemma authorizes_serving h r : authorizes h r = true -> serving_at h r = true /\ delete_rank r = 0.
Proof.
  unfold authorizes, caa_tag, serving_at, delete_rank. intros [[Hn Hk]%andb_prop Hd]%andb_prop. rewrite Hn, Hk.
  apply bool_decide_eq_true in Hk as ->. split; [done|]. destruct (data r); [|done]. by rewrite Hd.
Qed.

Lemma denies_serving h r : denies h r = true -> serving_at h r = true /\ delete_rank r = 2.
Proof.
  unfold denies, caa_tag, serving_at, delete_rank. intros [[[Hn Hk]%andb_prop Hd]%andb_prop _]%andb_prop. rewrite Hn, Hk.
  apply bool_decide_eq_true in Hk as ->. split; [done|]. destruct (data r) as [d|]; [|done].
  apply bool_decide_eq_true in Hd as ->. done.
Qed.

Lemma retire_caa p h z out z' :
  cf_retire_name p h z = (out, z') -> caa_safe h (zone_records z) -> caa_safe h (zone_records z').
Proof.
  intros [[_ Hz]|(l & other & Hz & Hm & Ho & gone & todo & Hl & Hz' & _)]%retire_trace; [by apply caa_safe_perm|].
  intros Hsafe (r & Hr & Ha). destruct (authorizes_serving _ _ Ha) as [Hs Hrank].
  assert (Hback : forall x, serving_at h x = true -> x ∈ todo ++ other -> x ∈ todo).
  { intros x Hx [|Hin]%elem_of_app; [done|]. rewrite Forall_forall in Ho. rewrite (Ho x Hin) in Hx. done. }
  rewrite Hz' in Hr. apply Hback in Hr; [|done].
  assert (Hl' : l ≡ₚ gone ++ todo) by (by rewrite <- Hl, sort_by_key_perm).
  destruct Hsafe as (d & Hd & Hdd).
  { exists r. rewrite Hz, Hl'. split; [|done]. clear -Hr. set_solver. }
  destruct (denies_serving _ _ Hdd) as [Hsd Hrd]. exists d. rewrite Hz'. split; [|done].
  rewrite Hz, Hl', !elem_of_app in Hd. rewrite elem_of_app. destruct Hd as [[Hd|Hd]|Hd]; [|tauto..].
  pose proof (sort_by_key_split delete_rank l gone todo d r Hl Hd Hr). lia.
Qed.

Lemma retire_authorizes p h z out z' r :
  cf_retire_name p h z = (out, z') -> r ∈ zone_records z' -> r ∈ zone_records z.
Proof.
  intros [[_ Hz]|(l & other & Hz & _ & _ & gone & todo & Hl & Hz' & _)]%retire_trace; [by rewrite Hz|].
  assert (Hl' : l ≡ₚ gone ++ todo) by (by rewrite <- Hl, sort_by_key_perm).
  rewrite Hz', Hz, Hl'. clear. set_solver.
Qed.

(** ** Runs of [set_challenge] and [retire_challenge] *)
Definition txt_at (n : string) (r : Record_) : bool := bool_decide (name r = n) && bool_decide (kind r = "TXT"%string).
Definition challenge_managed (n : string) (r : Record_) : bool := txt_at n r && starts_with CHALLENGE_PREFIX (comment r).
Definition challenge_foreign (n : string) (rs : list Record_) : list Record_ :=
  List.filter (fun r => negb (challenge_managed n r)) rs.
(** The TXT values a resolver sees at the name. *)
Definition txt_values (n : string) (rs : list Record_) : list string := map txt_content (List.filter (txt_at n) rs).

Lemma txt_content_quoted r v : content r = quoted v -> txt_content r = v.
Proof.
  intros Hc. unfold txt_content. rewrite Hc. unfold quoted.
  assert (strip_prefix QUOTE (QUOTE +:+ v +:+ QUOTE) = Some (v +:+ QUOTE)) as -> by (by apply strip_prefix_Some).
  change (default (quoted v) (strip_suffix QUOTE (v +:+ QUOTE)) = v).
  by assert (strip_suffix QUOTE (v +:+ QUOTE) = Some v) as -> by (by apply strip_suffix_Some).
Qed.

Lemma new_txt n vs new :
  Forall2 (fun b r => written b None r) (map (txt_body n) vs) new ->
  Forall (fun r => challenge_managed n r = true) new /\ map txt_content new = vs.
Proof.
  revert new. induction vs as [|v vs IH]; intros new Hw; cbn in Hw.
  - apply Forall2_nil_inv_l in Hw as ->. by split; [constructor|].
  - apply Forall2_cons_inv_l in Hw as (r & new' & [Hn Hk _ Hc Hcon _ _] & Hw & ->).
    destruct (IH new' Hw) as [Hm Hv]. cbn [txt_body b_name b_type b_comment b_content] in *.
    split; [|by cbn [map]; rewrite (txt_content_quoted r v), Hv by (by apply Hcon)]. constructor; [|done]. unfold challenge_managed, txt_at. rewrite Hn, Hk, Hc.
    rewrite !bool_decide_true by done. by vm_compute.
Qed.

Definition after_set (n : string) (values : list string) (l other rs' : list Record_) (ok : bool) : Prop :=
  exists left gone made new,
    l ≡ₚ left ++ gone /\ Forall2 (fun b r => written b None r) (map (txt_body n) made) new /\
    rs' ≡ₚ new ++ left ++ other /\ (ok = true -> map txt_content left ++ made ≡ₚ values).

Lemma wanted_partition (values kept : list string) :
  NoDup values -> NoDup kept -> (forall v, v ∈ kept -> v ∈ values) ->
  kept ++ List.filter (fun v => negb (bool_decide (v ∈ kept))) values ≡ₚ values.
Proof.
  intros Hv Hk Hin. apply NoDup_Permutation; [|done|].
  - apply NoDup_app. split_and!; [done| |].
    + intros v Hvk Hf. apply list_elem_of_In, filter_In in Hf as [_ Hf]. by rewrite bool_decide_true in Hf.
    + apply NoDup_ListNoDup, List.NoDup_filter, NoDup_ListNoDup, Hv.
  - intros v. rewrite elem_of_app, (list_elem_of_In (List.filter _ _)), filter_In, <- list_elem_of_In, negb_true_iff,
      bool_decide_eq_false. destruct (decide (v ∈ kept)); naive_solver.
Qed.

Lemma set_size_le (l : list string) : (size (list_to_set l : gset string) <= List.length l)%nat.
Proof.
  induction l as [|x l IH]; cbn; [by rewrite size_empty|].
  rewrite size_union_alt, size_singleton.
  assert (size ((list_to_set l : gset string) ∖ {[x]}) <= size (list_to_set l : gset string))%nat
    by (apply subseteq_size; set_solver). lia.
Qed.

Lemma set_size_NoDup (l : list string) : size (list_to_set l : gset string) = List.length l -> NoDup l.
Proof.
  induction l as [|x l IH]; cbn; [constructor|]. intros Hs. pose proof (set_size_le l).
  destruct (decide (x ∈ l)) as [Hx|Hx].
  - replace ({[x]} ∪ list_to_set l : gset string) with (list_to_set l : gset string) in Hs by set_solver. lia.
  - constructor; [done|]. apply IH. rewrite size_union, size_singleton in Hs by set_solver. lia.
Qed.

Lemma challenge_values_NoDup values u : validate_challenge_values values = Ok u -> NoDup values.
Proof.
  unfold validate_challenge_values. intros [[_ Hs]%orb_false_iff _]%reject_if_ok%orb_false_iff.
  apply negb_false_iff, Nat.eqb_eq in Hs. by apply set_size_NoDup.
Qed.

Lemma challenge_checked n l :
  Forall (fun r => bool_decide (name r = n) = true) l ->
  existsb (fun r => negb (bool_decide (kind r = "TXT"%string)) || negb (starts_with CHALLENGE_PREFIX (comment r))) l = false ->
  Forall (fun r => challenge_managed n r = true) l.
Proof.
  induction 1 as [|r l Hr Hl IH]; cbn; [constructor|].
  intros [[Hk%negb_false_iff Hc%negb_false_iff]%orb_false_iff Hrest]%orb_false_iff.
  constructor; [|by apply IH]. unfold challenge_managed, txt_at. by rewrite Hr, Hk, Hc.
Qed.

Lemma set_trace p h values z out z' :
  cf_set_challenge p h values z = (out, z') ->
  (is_err out = true /\ zone_records z' ≡ₚ zone_records z) \/
  exists n l other,
    challenge_name h = Ok n /\ zone_records z ≡ₚ l ++ other /\ Forall (fun r => challenge_managed n r = true) l /\
    Forall (fun r => txt_at n r = false) other /\ after_set n values l other (zone_records z') (is_ok out).
Proof.
  intros [(u & _ & Hrun)|[? ->]]%lift_inv; [|by left].
  apply lift_inv in Hrun as [(u' & Hv & Hrun)|[? ->]]; [|by left].
  apply lift_inv in Hrun as [(n & Hn & Hrun)|[? ->]]; [|by left].
  apply zone_bind_inv in Hrun as [(l & z1 & Hl & Hrun)|(e & Hl & ->)];
    apply list_inv in Hl as [Hz1 Hl]; [|by left]. specialize (Hl _ eq_refl).
  apply guarded_inv in Hrun as [[Hc Hrun]|[-> ->]]; [|by left]. right.
  set (other := List.filter (fun r => negb (bool_decide (name r = n))) (zone_records z)).
  assert (Hz : zone_records z ≡ₚ l ++ other) by (by rewrite Hl; apply filter_split).
  assert (Ho : Forall (fun r => txt_at n r = false) other).
  { eapply Forall_impl; [apply Forall_filter|]. cbn. intros r Hr%negb_true_iff. unfold txt_at. by rewrite Hr. }
  clearbody other. exists n, l, other. split_and!; [done..| |done|].
  - apply challenge_checked; [rewrite Hl; apply Forall_filter|done].
  - rewrite <- Hz1 in Hz. apply zone_bind_inv in Hrun as [(kept & z2 & Hk & Hrun)|(e & Hk & ->)];
      destruct (keep_trace _ _ _ _ _ _ _ Hz Hk) as (left & gone & Hlg & Hz2 & Hkept).
    2: { exists left, gone, [], []. split_and!; [done|constructor|done|done]. }
    rewrite (for_each_map create (txt_body n)) in Hrun.
    destruct (Hkept _ eq_refl) as (Hp & Hnd & Hin). rewrite app_nil_r in Hp.
    apply creates_trace in Hrun as (made & todo & new & Hm & Hf & Hz' & Hok).
    apply map_eq_app in Hm as (vs & vs' & Hvs & <- & <-).
    exists left, gone, vs, new. split_and!; [done|done|by rewrite Hz', Hz2|].
    intros Hall. apply Hok, map_eq_nil in Hall as ->. rewrite app_nil_r in Hvs. rewrite <- Hvs, <- Hp.
    apply wanted_partition; [by eapply challenge_values_NoDup|apply Hnd; constructor|].
    intros v. rewrite Hp. intros (r & -> & Hr)%list_elem_of_fmap. rewrite Forall_forall in Hin. by apply Hin.
Qed.

Lemma challenge_managed_txt n l :
  Forall (fun r => challenge_managed n r = true) l -> Forall (fun r => txt_at n r = true) l.
Proof. intros Hl. eapply Forall_impl; [exact Hl|]. by intros r [? _]%andb_prop. Qed.

Lemma challenge_foreign_managed n l : Forall (fun r => challenge_managed n r = true) l -> challenge_foreign n l = [].
Proof. intros Hl. apply filter_none. eapply Forall_impl; [exact Hl|]. by intros r ->. Qed.
Lemma challenge_foreign_app n l k : challenge_foreign n (l ++ k) = challenge_foreign n l ++ challenge_foreign n k.
Proof. apply List.filter_app. Qed.
Lemma challenge_foreign_perm n l k : l ≡ₚ k -> challenge_foreign n l ≡ₚ challenge_foreign n k.
Proof. apply filter_perm. Qed.

Lemma set_exact p h values z z' n :
  cf_set_challenge p h values z = (Ok tt, z') -> challenge_name h = Ok n -> txt_values n (zone_records z') ≡ₚ values.
Proof.
  intros [[? _]|(n' & l & other & Hn & _ & Hm & Ho & left & gone & made & new & Hl & Hnew & Hz & Hok)]%set_trace Hn';
    [done|]. assert (n' = n) as -> by congruence. destruct (new_txt _ _ _ Hnew) as [Hg Hv].
  rewrite Hl, Forall_app in Hm. destruct Hm as [Hm _]. unfold txt_values. rewrite (filter_perm _ _ _ Hz), !List.filter_app.
  rewrite (filter_none _ other), app_nil_r by done.
  rewrite !filter_all by (by apply challenge_managed_txt). rewrite map_app, Hv, Permutation_app_comm. by apply Hok.
Qed.

Lemma set_foreign p h values z out z' n :
  cf_set_challenge p h values z = (out, z') -> challenge_name h = Ok n ->
  challenge_foreign n (zone_records z') ≡ₚ challenge_foreign n (zone_records z).
Proof.
  intros [[_ Hz]|(n' & l & other & Hn & Hz & Hm & _ & left & gone & made & new & Hl & Hnew & Hz' & _)]%set_trace Hn';
    [by apply challenge_foreign_perm|]. assert (n' = n) as -> by congruence. destruct (new_txt _ _ _ Hnew) as [Hg _].
  rewrite (challenge_foreign_perm _ _ _ Hz), (challenge_foreign_perm _ _ _ Hz'), !challenge_foreign_app,
    (challenge_foreign_managed _ l), (challenge_foreign_managed _ new) by done.
  rewrite Hl, Forall_app in Hm. by rewrite (challenge_foreign_managed _ left) by tauto.
Qed.

Lemma retire_challenge_trace p h z out z' :
  cf_retire_challenge p h z = (out, z') ->
  (is_err out = true /\ zone_records z' ≡ₚ zone_records z) \/
  exists n l other,
    challenge_name h = Ok n /\ zone_records z ≡ₚ l ++ other /\ Forall (fun r => challenge_managed n r = true) l /\
    Forall (fun r => txt_at n r = false) other /\ after_deletes l other (zone_records z') (is_ok out).
Proof.
  intros [(u & _ & Hrun)|[? ->]]%lift_inv; [|by left].
  apply lift_inv in Hrun as [(n & Hn & Hrun)|[? ->]]; [|by left].
  apply zone_bind_inv in Hrun as [(existing & z1 & Hl & Hrun)|(e & Hl & ->)];
    apply list_inv in Hl as [Hz1 Hl]; [|by left].
  apply guarded_inv in Hrun as [[Hc Hrun]|[-> ->]]; [|by left]. right.
  destruct (listed_split n (fun r => bool_decide (kind r = "TXT"%string)) _ _ (Hl _ eq_refl)) as (other & Hz & Ho & Hf).
  eexists n, _, other. split_and!; [done|exact Hz| |done|].
  - apply existsb_negb_false in Hc. rewrite Forall_forall in *. intros r Hr. specialize (Hc r Hr).
    destruct (Hf r Hr) as [Hname Hk]. unfold challenge_managed, txt_at. by rewrite (bool_decide_true _ Hname), Hk, Hc.
  - eapply deletes_trace; [|exact Hrun]. by rewrite Hz1.
Qed.

Lemma retire_challenge_exact p h z z' n :
  cf_retire_challenge p h z = (Ok tt, z') -> challenge_name h = Ok n -> txt_values n (zone_records z') = [].
Proof.
  intros [[? _]|(n' & l & other & Hn & _ & _ & Ho & gone & todo & _ & Hz & Hok)]%retire_challenge_trace Hn'; [done|].
  assert (n' = n) as -> by congruence. rewrite (Hok eq_refl) in Hz. apply Permutation_nil_r. unfold txt_values.
  rewrite (filter_perm _ _ _ Hz). cbn. by rewrite filter_none.
Qed.

Lemma retire_challenge_foreign p h z out z' n :
  cf_retire_challenge p h z = (out, z') -> challenge_name h = Ok n ->
  challenge_foreign n (zone_records z') ≡ₚ challenge_foreign n (zone_records z).
Proof.
  intros [[_ Hz]|(n' & l & other & Hn & Hz & Hm & _ & gone & todo & Hl & Hz' & _)]%retire_challenge_trace Hn';
    [by apply challenge_foreign_perm|]. assert (n' = n) as -> by congruence.
  rewrite (challenge_foreign_perm _ _ _ Hz), (challenge_foreign_perm _ _ _ Hz'), !challenge_foreign_app,
    (challenge_foreign_managed _ l) by done.
  rewrite Hl, Forall_app in Hm. by rewrite (challenge_foreign_managed _ todo) by tauto.
Qed.

(** ** The provider's contract *)
#[export, refine] Instance cloudflare_laws p : ProviderLaws zone (H := cloudflare_provider p) := {
  serves z records := publishes records (zone_records z);
  challenge_is z h values := forall n, challenge_name h = Ok n -> txt_values n (zone_records z) ≡ₚ values;
  name_gone z h := served h (zone_records z) = []
}.
Proof.
  - intros records z z'. apply publish_exact.
  - intros h values z z' Hrun n. by apply (set_exact p h values z).
  - intros h z z'. apply retire_exact.
  - intros h z z' Hrun n Hn. by rewrite (retire_challenge_exact p h z z' n Hrun Hn).
Defined.

(** ** Correctness *)

(** A publication that succeeds leaves the name with exactly the wanted
    records. Among the zone's A, AAAA and CAA records at the hostname there is
    one for each ingress address, one authorizing the installation's own ACME
    account for DNS-01, and one denying wildcard issuance, each once, with a
    TTL of 300 seconds and the relay's comment, the addresses unproxied. *)
Theorem published_name_exact p records z z' :
  cf_publish_name p records z = (Ok tt, z') -> publishes records (zone_records z').
Proof. apply publish_exact. Qed.

(** C4: Take a hostname of the zone where, to begin with, no certificate
    authorization (CAA [issue]) stands without the wildcard denial (CAA
    [issuewild ";"]); a name with neither is one. However a publication or a
    retirement of that hostname ends, completed or cut short by a failed call
    before or after the call took effect, this still holds. An authorization
    present after a publication was there before it or allows exactly the
    installation's own ACME account, by DNS-01, and after a publication that
    succeeds all of them do. A retirement adds no record. *)
Theorem authorization_never_without_denial p records h z out z' :
  caa_safe h (zone_records z) ->
  (cf_publish_name p records z = (out, z') /\ nr_hostname records = h ->
   caa_safe h (zone_records z') /\
   forall r, r ∈ zone_records z' -> authorizes h r = true ->
     (r ∈ zone_records z \/ bound_to (nr_acme_account_uri records) r) /\
     (out = Ok tt -> bound_to (nr_acme_account_uri records) r)) /\
  (cf_retire_name p h z = (out, z') ->
   caa_safe h (zone_records z') /\ forall r, r ∈ zone_records z' -> r ∈ zone_records z).
Proof.
  intros Hs. split; [intros [Hrun <-]|intros Hrun]; (split; [eauto using publish_caa, retire_caa|]).
  - intros r Hr Ha. split; [by eapply publish_bound|]. intros ->.
    apply (publishes_bound records (zone_records z')); [by eapply publish_exact|done..].
  - intros r. by eapply retire_authorizes.
Qed.

(** A challenge change that succeeds leaves exactly the requested TXT
    values at the challenge name, each once; retiring the challenge leaves
    none. *)
Theorem challenge_values_exact p h values n z z' :
  challenge_name h = Ok n ->
  (cf_set_challenge p h values z = (Ok tt, z') -> txt_values n (zone_records z') ≡ₚ values) /\
  (cf_retire_challenge p h z = (Ok tt, z') -> txt_values n (zone_records z') = []).
Proof. intros Hn. split; intros Hrun; [by eapply set_exact | by eapply retire_challenge_exact]. Qed.

(** C40: No run, successful or not, touches a record the relay does not manage.
    Serving changes keep every record that is not an A, AAAA or CAA record of
    the hostname with the relay's comment; challenge changes keep every record
    that is not a TXT record of the challenge name with the relay's prefix. *)
Theorem foreign_records_untouched p records h values n z out z' :
  challenge_name h = Ok n -> nr_hostname records = h ->
  (cf_publish_name p records z = (out, z') \/ cf_retire_name p h z = (out, z') ->
   foreign h (zone_records z') ≡ₚ foreign h (zone_records z)) /\
  (cf_set_challenge p h values z = (out, z') \/ cf_retire_challenge p h z = (out, z') ->
   challenge_foreign n (zone_records z') ≡ₚ challenge_foreign n (zone_records z)).
Proof.
  intros Hn <-. split; intros [Hrun|Hrun]; [by eapply publish_foreign | by eapply retire_foreign |
    by eapply set_foreign | by eapply retire_challenge_foreign].
Qed.
End properties.
