(* ===== verification/CloudflareSamples.v ===== *)
(** * A Cloudflare service

    A concrete instance of the API with the documented effects: a zone is a
    list of slots, a record's identifier is its slot's, and a script says
    which calls fail, before or after their effect. *)

From Stdlib Require Import Ascii String Strings.Byte.
From stdpp Require Import base strings list countable.
From S2P Require Import Prelude Protocol Db Dns Cloudflare CloudflareTrace CloudflarePlan CloudflareProperties.

Module CloudflareConcrete.

(** ** Replies as bytes *)
#[global] Instance CaaData_eq_dec : EqDecision CaaData.
Proof. solve_decision. Defined.
#[global] Instance Record_eq_dec : EqDecision Record_.
Proof. solve_decision. Defined.

Definition caa_fields (d : CaaData) : list positive := [encode (flags d); encode (tag d); encode (value d)].
Definition caa_of_fields (l : list positive) : option CaaData :=
  match l with
  | [f; t; v] => f ← decode f; t ← decode t; v ← decode v; Some {| flags := f; tag := t; value := v |}
  | _ => None
  end.
Lemma caa_fields_inv d : caa_of_fields (caa_fields d) = Some d.
Proof. destruct d. cbn. by rewrite !decode_encode. Qed.
#[global] Instance CaaData_countable : Countable CaaData := inj_countable caa_fields caa_of_fields caa_fields_inv.

Definition record_fields (r : Record_) : list positive :=
  [encode (id r); encode (name r); encode (kind r); encode (content r); encode (ttl r); encode (proxied r);
   encode (comment r); encode (data r)].
Definition record_of_fields (l : list positive) : option Record_ :=
  match l with
  | [i; n; k; c; t; p; m; d] =>
      i ← decode i; n ← decode n; k ← decode k; c ← decode c; t ← decode t; p ← decode p; m ← decode m; d ← decode d;
      Some {| id := i; name := n; kind := k; content := c; ttl := t; proxied := p; comment := m; data := d |}
  | _ => None
  end.
Lemma record_fields_inv r : record_of_fields (record_fields r) = Some r.
Proof. destruct r. cbn. by rewrite !decode_encode. Qed.
#[global] Instance Record_countable : Countable Record_ := inj_countable record_fields record_of_fields record_fields_inv.

(** A positive number, one bit a byte. *)
Fixpoint bits (p : positive) : list byte :=
  match p with xH => [] | xO p => Byte.x00 :: bits p | xI p => Byte.x01 :: bits p end.
Fixpoint unbits (l : list byte) : positive :=
  match l with [] => xH | b :: l => if Byte.eqb b Byte.x00 then xO (unbits l) else xI (unbits l) end.
Lemma unbits_bits p : unbits (bits p) = p.
Proof. induction p; cbn; congruence. Qed.

Definition listing (l : list byte) : option (Envelope (list Record_)) :=
  rs ← decode (unbits l); Some {| success := true; result_ := Some rs; total_pages := Some 1 |}.

(** ** Zones *)
(** Calls succeed, fail without effect, or fail after their effect. *)
Inductive Fault := NoFault | Before | After.
Record Zone := { slots : list (option Record_); script : list Fault }.

Definition id_of (i : nat) : string :=
  string_of_list_byte (replicate i Byte.x61 ++ replicate (32 - i) Byte.x30).
Definition with_id (i : nat) (r : Record_) : Record_ :=
  {| id := id_of i; name := name r; kind := kind r; content := content r; ttl := ttl r; proxied := proxied r;
     comment := comment r; data := data r |}.

Fixpoint records_from (i : nat) (l : list (option Record_)) : list Record_ :=
  match l with
  | [] => []
  | None :: l => records_from (S i) l
  | Some r :: l => with_id i r :: records_from (S i) l
  end.

Fixpoint remove_id (i : nat) (s : string) (l : list (option Record_)) : list (option Record_) :=
  match l with
  | [] => []
  | x :: l => (if bool_decide (id_of i = s) then None else x) :: remove_id (S i) s l
  end.

Definition patched (b : Body) (r : Record_) : Record_ :=
  {| id := id r; name := b_name b; kind := b_type b; content := default (content r) (b_content b); ttl := b_ttl b;
     proxied := default (proxied r) (b_proxied b); comment := b_comment b;
     data := match b_data b with Some d => Some d | None => data r end |}.

Fixpoint patch_id (i : nat) (s : string) (b : Body) (l : list (option Record_)) : option (list (option Record_)) :=
  match l with
  | [] => None
  | Some r :: l' =>
      if bool_decide (id_of i = s) then Some (Some (patched b r) :: l') else cons (Some r) <$> patch_id (S i) s b l'
  | None :: l' => cons None <$> patch_id (S i) s b l'
  end.

(** The slots after a request, [None] when the record does not exist. *)
Definition serve (request : Request) (l : list (option Record_)) : option (list (option Record_)) :=
  match request with
  | Get _ => Some l
  | Post b => Some (l ++ [Some (created b)])
  | Delete s => Some (remove_id 0 s l)
  | Patch s b => patch_id 0 s b l
  end.

Definition reply (request : Request) (l : list (option Record_)) : Response :=
  match request with
  | Get n => Answer 200 [Some (bits (encode (List.filter (fun r => bool_decide (name r = n)) (records_from 0 l))))]
  | _ => Answer 200 [Some []]
  end.

Definition respond (request : Request) (z : Zone) : Response * Zone :=
  let fault := default NoFault (head (script z)) in
  let script' := tail (script z) in
  match serve request (slots z) with
  | None => (Answer 404 [], {| slots := slots z; script := script' |})
  | Some l =>
      match fault with
      | NoFault => (reply request (slots z), {| slots := l; script := script' |})
      | Before => (TransportFailed, {| slots := slots z; script := script' |})
      | After => (TransportFailed, {| slots := l; script := script' |})
      end
  end.

#[export] Instance Cloudflare_api : CloudflareApi := {
  zone := Zone;
  zone_records z := records_from 0 (slots z);
  api := respond;
  decode_records := listing;
  decode_value _ := Some {| success := true; result_ := Some tt; total_pages := None |}
}.

(** ** The documented behaviour *)
Definition is_a (b : byte) : bool := Byte.eqb b Byte.x61.
Lemma count_id i : List.length (List.filter is_a (str_bytes (id_of i))) = i.
Proof.
  unfold id_of. rewrite str_bytes_string, List.filter_app, filter_all, filter_none.
  - by rewrite app_nil_r, length_replicate.
  - by apply Forall_replicate.
  - by apply Forall_replicate.
Qed.

Lemma id_of_inj i j : id_of i = id_of j -> i = j.
Proof. intros Heq. by rewrite <- (count_id i), <- (count_id j), Heq. Qed.

Lemma records_ids i l s : s ∈ map id (records_from i l) -> exists j, (i <= j)%nat /\ s = id_of j.
Proof.
  revert i. induction l as [|[r|] l IH]; intros i; cbn.
  - by intros ?%not_elem_of_nil.
  - intros [->|(j & ? & ?)%IH]%elem_of_cons; [by exists i|]. exists j. split; [lia|done].
  - intros (j & ? & ?)%IH. exists j. split; [lia|done].
Qed.

Lemma records_NoDup i l : NoDup (map id (records_from i l)).
Proof.
  revert i. induction l as [|[r|] l IH]; intros i; cbn; [constructor| |done].
  constructor; [|done]. intros (j & Hj & Heq%id_of_inj)%records_ids. lia.
Qed.

Lemma remove_id_records i s l :
  records_from i (remove_id i s l) = List.filter (fun r => negb (bool_decide (id r = s))) (records_from i l).
Proof.
  revert i. induction l as [|[r|] l IH]; intros i; cbn; [done| |].
  - case_bool_decide; cbn; by rewrite IH.
  - case_bool_decide; by rewrite IH.
Qed.

Lemma append_records i l r : records_from i (l ++ [Some r]) = records_from i l ++ [with_id (i + List.length l) r].
Proof.
  revert i. induction l as [|[x|] l IH]; intros i; cbn; [by rewrite Nat.add_0_r|..]; rewrite IH, <- Nat.add_succ_comm; done.
Qed.

Lemma patch_id_records i s b l l' :
  patch_id i s b l = Some l' ->
  exists old r rest, id old = s /\ id r = s /\ written b (Some old) r /\
    records_from i l ≡ₚ old :: rest /\ records_from i l' ≡ₚ r :: rest.
Proof.
  revert i l'. induction l as [|[x|] l IH]; intros i l'; cbn; [done| |].
  - case_bool_decide as Hi.
    + intros [= <-]. exists (with_id i x), (with_id i (patched b x)), (records_from (S i) l).
      split_and!; [done..| |done|done]. split; try done; cbn; [by intros c -> | by intros d ->].
    + intros (l1 & Hl & ->)%fmap_Some. cbn. apply IH in Hl as (old & r & rest & ? & ? & ? & H1 & H2).
      exists old, r, (with_id i x :: rest). split_and!; [done..| |]; rewrite ?H1, ?H2; constructor.
  - intros (l1 & Hl & ->)%fmap_Some. by apply IH in Hl.
Qed.

Lemma serve_effect request l l' :
  serve request l = Some l' -> effect request (records_from 0 l) (records_from 0 l').
Proof.
  destruct request as [n|b|s|s b]; cbn [serve effect].
  - by intros [= ->].
  - intros [= <-]. exists (with_id (List.length l) (created b)). rewrite append_records, Permutation_app_comm.
    split; [|done]. destruct (created_written b). by split.
  - intros [= <-]. by rewrite remove_id_records.
  - apply patch_id_records.
Qed.

Lemma respond_cases request z :
  (slots (respond request z).2 = slots z /\ forall T (dec : list byte -> option (Envelope T)), is_err (send dec (respond request z).1) = true) \/
  (exists l, serve request (slots z) = Some l /\ slots (respond request z).2 = l).
Proof.
  unfold respond. destruct (serve request (slots z)) as [l|]; [|by left].
  destruct (default NoFault (head (script z))); [right; by exists l|by left|right; by exists l].
Qed.

#[export] Instance Cloudflare_laws : CloudflareLaws.
Proof.
  split; cbn [zone_records api zone Cloudflare_api decode_value decode_records].
  - intros z. apply records_NoDup.
  - intros request z. destruct (respond_cases request z) as [[-> _]|(l & Hl & ->)]; [by left|].
    right. by apply serve_effect.
  - intros request z e Hs. destruct (respond_cases request z) as [[_ Herr]|(l & Hl & ->)]; [|by apply serve_effect].
    specialize (Herr unit (fun _ => Some {| success := true; result_ := Some tt; total_pages := None |})).
    by rewrite Hs in Herr.
  - intros n z e records pages Hs Hr _ _. unfold respond in Hs. cbn [serve] in Hs.
    destruct (default NoFault (head (script z))); cbn [fst reply send] in Hs; try done.
    cbn [Z.eqb Pos.eqb in_range Z.leb Z.compare Pos.compare Pos.compare_cont andb negb read_chunks] in Hs.
    destruct (_ <? _); cbn [mbind result_bind] in Hs; [done|].
    rewrite app_nil_l in Hs. unfold listing in Hs. rewrite unbits_bits, decode_encode in Hs.
    cbn in Hs. injection Hs as <-. cbn in Hr. by injection Hr as <-.
Qed.
End CloudflareConcrete.

(** ** Runs on a zone *)
Import CloudflareConcrete.

Definition sample_host : string := "abcdefghijklmnopqrstuvwxyz.relay.bloom.directory".
Definition sample_uri : string := "https://acme-v02.api.letsencrypt.org/acme/acct/42".
Definition sample_name : NameRecords :=
  {| nr_hostname := sample_host; nr_addresses := [V4 3221225985; V6 42540766411282592856903984951653826561];
     nr_acme_account_uri := sample_uri |}.
Definition sample_provider (s : CloudflareScope) : CloudflareProvider :=
  {| base_zone := id_of 1; token := "token"; scope := s |}.
Definition row (k c m : string) : option Record_ :=
  Some {| id := EmptyString; name := sample_host; kind := k; content := c; ttl := 300; proxied := false; comment := m; data := None |}.
Definition caa_row (t v : string) : option Record_ :=
  Some {| id := EmptyString; name := sample_host; kind := "CAA"; content := EmptyString; ttl := 300; proxied := false;
          comment := SERVING_COMMENT; data := Some {| flags := 0; tag := t; value := v |} |}.
(** A retired address, an earlier account's authorization with the denial, and
    a record the relay does not manage. *)
Definition sample_slots : list (option Record_) :=
  [row "A" "192.0.2.9" SERVING_COMMENT; caa_row "issue" "letsencrypt.org; accounturi=old"; caa_row "issuewild" ";";
   row "TXT" "owner" EmptyString].
Definition sample_zone (faults : list Fault) : @zone Cloudflare_api := {| slots := sample_slots; script := faults |}.

Lemma run_pair {A B} (m : A * B) a : m.1 = a -> m = (a, m.2).
Proof. by destruct m; intros <-. Qed.

Definition sample_values : list string := ["AAAAAAAAAAAAAAAAAAAAAAAAAAAAAAAAAAAAAAAAAAA"%string].
Local Abbreviation publish_run faults := (cf_publish_name (sample_provider CfServing) sample_name (sample_zone faults)).
Local Abbreviation challenge_run faults :=
  (cf_set_challenge (sample_provider CfChallenge) sample_host sample_values (sample_zone faults)).
Definition sample_challenge : string := "_acme-challenge." +:+ sample_host.

Lemma published_name_exact_witness : publishes sample_name (zone_records (publish_run []).2).
Proof.
  apply (published_name_exact (sample_provider CfServing) sample_name (sample_zone [])).
  apply run_pair. vm_compute. reflexivity.
Defined.

(** The second creation fails after its effect; the old account's
    authorization stands beside the new one, both under the denial. *)
Lemma authorization_never_without_denial_witness :
  let run := publish_run [NoFault; NoFault; After] in
  is_err run.1 = true /\ caa_safe sample_host (zone_records run.2) /\
  (forall r, r ∈ zone_records run.2 -> authorizes sample_host r = true ->
     r ∈ zone_records (sample_zone []) \/ bound_to (nr_acme_account_uri sample_name) r) /\
  existsb (authorizes sample_host) (zone_records run.2) = true.
Proof.
  intros run. split; [vm_compute; reflexivity|].
  destruct (authorization_never_without_denial (sample_provider CfServing) sample_name sample_host
    (sample_zone [NoFault; NoFault; After]) run.1 run.2) as [Hpub _].
  - intros _. exists (with_id 2 (created {| b_type := "CAA"; b_name := sample_host; b_content := None; b_ttl := 300;
      b_proxied := None; b_comment := SERVING_COMMENT; b_data := Some {| flags := 0; tag := "issuewild"; value := ";" |} |})).
    split; [|vm_compute; reflexivity]. do 2 apply list_elem_of_further. apply list_elem_of_here.
  - destruct Hpub as [Hsafe Hbound]; [split; [exact (run_pair run _ eq_refl)|reflexivity]|].
    split; [exact Hsafe|]. split; [|vm_compute; reflexivity].
    intros r Hr Ha. exact (proj1 (Hbound r Hr Ha)).
Defined.

Lemma challenge_values_exact_witness : txt_values sample_challenge (zone_records (challenge_run []).2) ≡ₚ sample_values.
Proof.
  apply (challenge_values_exact (sample_provider CfChallenge) sample_host sample_values sample_challenge (sample_zone [])).
  - vm_compute. reflexivity.
  - apply run_pair. vm_compute. reflexivity.
Defined.

Lemma foreign_records_untouched_witness :
  foreign sample_host (zone_records (publish_run []).2) ≡ₚ foreign sample_host (zone_records (sample_zone [])).
Proof.
  apply (foreign_records_untouched (sample_provider CfServing) sample_name sample_host sample_values sample_challenge
    (sample_zone []) (publish_run []).1).
  - vm_compute. reflexivity.
  - reflexivity.
  - left. exact (run_pair (publish_run []) _ eq_refl).
Defined.
