(* ===== verification/IpText.v ===== *)
(** * Addresses from text: [str::parse::<IpAddr>]

    The standard library's recursive-descent parser, as the configuration of
    the services uses it. A parser takes the bytes left and returns a value
    and the bytes after it. *)

From Stdlib Require Import Ascii String Strings.Byte.
From stdpp Require Import base strings list.
From S2P Require Import Prelude Protocol Db Dns.

Definition Parser (A : Type) : Type := list byte -> option (A * list byte).

Definition digit_value (radix : Z) (b : byte) : option Z :=
  let c := u8 b in
  let v := if in_range 48 57 c then c - 48 else if in_range 97 102 c then c - 87 else if in_range 65 70 c then c - 55 else 99 in
  if v <? radix then Some v else None.

(** [read_number]: the digits up to the first other byte; too many digits or
    a value above [limit] fail. *)
Fixpoint read_digits (radix limit : Z) (max : nat) (acc : Z) (count : nat) (l : list byte) : option (Z * nat * list byte) :=
  match l with
  | b :: l' =>
      match digit_value radix b with
      | Some v =>
          let acc := acc * radix + v in
          if (limit <? acc) || Nat.ltb max (S count) then None else read_digits radix limit max acc (S count) l'
      | None => Some (acc, count, l)
      end
  | [] => Some (acc, count, l)
  end.
Definition read_number (radix limit : Z) (max : nat) (zero_prefix : bool) : Parser Z := fun l =>
  '(v, count, rest) ← read_digits radix limit max 0 0 l;
  if Nat.eqb count 0 then None
  else if negb zero_prefix && Nat.ltb 1 count && bool_decide (head l = Some Byte.x30) then None
  else Some (v, rest).

Definition read_given_char (c : byte) : Parser unit := fun l =>
  match l with b :: l => if Byte.eqb b c then Some (tt, l) else None | [] => None end.

Definition read_separator {A} (sep : byte) (index : nat) (inner : Parser A) : Parser A := fun l =>
  if Nat.eqb index 0 then inner l else '(_, l) ← read_given_char sep l; inner l.

Definition DOT : byte := Byte.x2e.
Definition COLON : byte := Byte.x3a.

Fixpoint read_octets (n index : nat) (acc : Z) : Parser Z := fun l =>
  match n with
  | O => Some (acc, l)
  | S n => '(v, l) ← read_separator DOT index (read_number 10 255 3 false) l; read_octets n (S index) (256 * acc + v) l
  end.
Definition read_ipv4_addr : Parser Z := read_octets 4 0 0.

(** [read_groups] into [n] slots from [index]: the groups read, and whether
    they ended with an IPv4 address. *)
Fixpoint read_groups (n index : nat) (l : list byte) : list Z * bool * list byte :=
  match n with
  | O => ([], false, l)
  | S n' =>
      match (if Nat.ltb 1 n then read_separator COLON index read_ipv4_addr l else None) with
      | Some (bits, l) => ([bits / 65536; bits mod 65536], true, l)
      | None =>
          match read_separator COLON index (read_number 16 65535 4 true) l with
          | Some (g, l) => let '(gs, v4, l) := read_groups n' (S index) l in (g :: gs, v4, l)
          | None => ([], false, l)
          end
      end
  end.

Definition bits_of_segments (segs : list Z) : Z := foldl (fun acc s => 65536 * acc + s) 0 segs.

Definition read_ipv6_addr : Parser Z := fun l =>
  let '(head, head_v4, l) := read_groups 8 0 l in
  if Nat.eqb (List.length head) 8 then Some (bits_of_segments head, l)
  else if head_v4 then None
  else
    '(_, l) ← read_given_char COLON l;
    '(_, l) ← read_given_char COLON l;
    let '(tail, _, l) := read_groups (8 - (List.length head + 1)) 0 l in
    Some (bits_of_segments (head ++ replicate (8 - List.length head - List.length tail) 0 ++ tail), l).

(** The whole text must be an address. *)
Definition parse_ip (s : string) : option IpAddr :=
  let whole {A} (p : Parser A) := match p (str_bytes s) with Some (a, []) => Some a | _ => None end in
  match read_ipv4_addr (str_bytes s) with
  | Some (bits, rest) => match rest with [] => Some (V4 bits) | _ => None end
  | None => V6 <$> whole read_ipv6_addr
  end.

(** ** Sockets: [str::parse::<SocketAddrV4>] and [str::parse::<SocketAddr>] *)
(** A colon and a port, whose number of digits is not limited. *)
Definition read_port : Parser Z := fun l =>
  '(_, l) ← read_given_char COLON l; read_number 10 65535 (List.length l) true l.
Definition read_socket_v4 : Parser (Z * Z) := fun l =>
  '(bits, l) ← read_ipv4_addr l; '(port, l) ← read_port l; Some ((bits, port), l).
(** The scope identifier is read and not kept. *)
Definition read_scope_id : Parser Z := fun l =>
  match read_given_char Byte.x25 l with
  | Some (_, l') => match read_number 10 4294967295 (List.length l') true l' with Some r => Some r | None => Some (0, l) end
  | None => Some (0, l)
  end.
Definition read_socket_v6 : Parser (IpAddr * Z) := fun l =>
  '(_, l) ← read_given_char Byte.x5b l; '(bits, l) ← read_ipv6_addr l; '(_, l) ← read_scope_id l;
  '(_, l) ← read_given_char Byte.x5d l; '(port, l) ← read_port l; Some ((V6 bits, port), l).
Definition parse_whole {A} (p : Parser A) (s : string) : option A :=
  match p (str_bytes s) with Some (a, []) => Some a | _ => None end.
Definition parse_socket_v4 (s : string) : option (Z * Z) := parse_whole read_socket_v4 s.
Definition parse_socket_addr (s : string) : option (IpAddr * Z) :=
  parse_whole (fun l => match read_socket_v4 l with Some (a, l) => Some ((V4 a.1, a.2), l) | None => read_socket_v6 l end) s.

(** The text forms of [ip_to_string] are read back. *)
Example parse_ip_examples :
  Forall (fun ip => parse_ip (ip_to_string ip) = Some ip)
    [V4 0; V4 3221225985; V4 4294967295; V6 0; V6 1; V6 281470698521601; V6 42540766411282592856903984951653826561;
     V6 42540766411282592875350729025363378176; V6 (2 ^ 128 - 1); V6 42540766490510755111434487684093378560] /\
  parse_ip "192.0.2.01" = None /\ parse_ip "192.0.2.256" = None /\ parse_ip "1:2:3:4:5:6:7::8" = None /\
  parse_ip "::1.2.3.4:5" = None /\ parse_ip "2001:DB8::192.0.2.1" = Some (V6 42540766411282592856903984954875052545).
Proof. split_and!; [repeat constructor; vm_compute; reflexivity|vm_compute; reflexivity..]. Qed.
