(* ===== verification/Observer.v ===== *)
(** * Observing DNS: crates/bloom-relay-dns/src/observer.rs

    The checks that a change is visible, against an authoritative and a
    recursive resolver. The resolver library is a parameter: what the [n]-th
    query of the observation answers. *)

From Stdlib Require Import Ascii String Strings.Byte.
From stdpp Require Import base strings list gmap.
From S2P Require Import Prelude Protocol Db Dns.

Inductive Which := Authoritative | Recursive.
#[global] Instance Which_eq_dec : EqDecision Which.
Proof. solve_decision. Defined.

Inductive RecordType := TypeA | TypeAAAA | TypeCAA | TypeTXT.
#[global] Instance RecordType_eq_dec : EqDecision RecordType.
Proof. solve_decision. Defined.

Inductive RData :=
| RA (bits : Z)
| RAAAA (bits : Z)
| RCAA (tag : string) (value : list byte)
| RTXT (parts : list (list byte))
| ROther.

Inductive Answer := Answers (records : list RData) | NoRecords | LookupFailed.

(** The network during an observation, and a computation that queries it. *)
Definition Net : Type := nat -> Which -> string -> RecordType -> Answer.
Definition Obs (A : Type) : Type := Net -> nat -> A * nat.
#[global] Instance Obs_ret : MRet Obs := fun _ a _ n => (a, n).
#[global] Instance Obs_bind : MBind Obs := fun _ _ f m e n => let (a, n') := m e n in f a e n'.

Definition lookup_ (w : Which) (name : string) (kind : RecordType) : Obs Answer := fun e n => (e n w name kind, S n).

(** [a.await && b.await] *)
Definition and_then (a b : Obs bool) : Obs bool := ok ← a; if (ok : bool) then b else mret false.

(** ** [String::from_utf8_lossy]

    The length of the first character, or of the invalid sequence that one
    replacement character stands for. *)
Definition continuation (b : byte) : bool := in_range 128 191 (u8 b).
Definition second_ok (first second : byte) : bool :=
  let f := u8 first in
  if f =? 224 then in_range 160 191 (u8 second)
  else if f =? 237 then in_range 128 159 (u8 second)
  else if f =? 240 then in_range 144 191 (u8 second)
  else if f =? 244 then in_range 128 143 (u8 second)
  else continuation second.
Definition utf8_width (first : byte) : nat :=
  let f := u8 first in
  if f <? 128 then 1 else if in_range 194 223 f then 2 else if in_range 224 239 f then 3
  else if in_range 240 244 f then 4 else 0.

Fixpoint continuations (n : nat) (l : list byte) : nat :=
  match n, l with S n, b :: l => if continuation b then S (continuations n l) else 0 | _, _ => 0 end.

Definition utf8_chunk (l : list byte) : bool * nat :=
  match l with
  | [] => (true, 0%nat)
  | first :: rest =>
      match utf8_width first, rest with
      | 0%nat, _ => (false, 1%nat)
      | 1%nat, _ => (true, 1%nat)
      | S (S more), second :: rest =>
          if negb (second_ok first second) then (false, 1%nat)
          else let k := continuations more rest in (Nat.eqb k more, S (S k))
      | _, [] => (false, 1%nat)
      end
  end.

Fixpoint lossy (fuel : nat) (l : list byte) : list byte :=
  match fuel, l with
  | S fuel, _ :: _ =>
      let '(valid, n) := utf8_chunk l in
      (if valid then take n l else [Byte.xef; Byte.xbf; Byte.xbd]) ++ lossy fuel (drop n l)
  | _, _ => []
  end.
Definition from_utf8_lossy (l : list byte) : string := string_of_list_byte (lossy (List.length l) l).

(** ** The checks *)
Definition observer_new (authoritative : list IpAddr) : result DnsError (list IpAddr) :=
  if Nat.eqb (List.length authoritative) 0 || (8 <? Z.of_nat (List.length authoritative)) || existsb is_unspecified authoritative
  then Err InvalidChange else Ok authoritative.

Definition record_absent (w : Which) (name : string) (kind : RecordType) : Obs bool :=
  answer ← lookup_ w name kind;
  mret match answer with Answers l => Nat.eqb (List.length l) 0 | NoRecords => true | LookupFailed => false end.

Definition address_text (r : RData) : option string :=
  match r with RA bits => Some (ipv4_to_string bits) | RAAAA bits => Some (ipv6_to_string bits) | _ => None end.
Definition addresses_in (answer : Answer) : option (gset string) :=
  match answer with
  | Answers l => Some (list_to_set (omap address_text l))
  | NoRecords => Some ∅
  | LookupFailed => None
  end.
Definition lookup_addresses (w : Which) (name : string) (kind : RecordType) : Obs (option (gset string)) :=
  answer ← lookup_ w name kind; mret (addresses_in answer).

Definition caa_text (r : RData) : option string :=
  match r with RCAA tag value => Some ("0 " +:+ tag +:+ " " +:+ QUOTE +:+ from_utf8_lossy value +:+ QUOTE) | _ => None end.
Definition caa_in (answer : Answer) : option (gset string) :=
  match answer with Answers l => Some (list_to_set (omap caa_text l)) | _ => None end.

Definition is_ipv4 (ip : IpAddr) : bool := match ip with V4 _ => true | V6 _ => false end.
Definition expected_v4 (records : NameRecords) : gset string :=
  list_to_set (map ip_to_string (List.filter is_ipv4 (nr_addresses records))).
Definition expected_v6 (records : NameRecords) : gset string :=
  list_to_set (map ip_to_string (List.filter (fun ip => negb (is_ipv4 ip)) (nr_addresses records))).

Definition check_name (w : Which) (records : NameRecords) : Obs bool :=
  let name := nr_hostname records +:+ "." in
  observed_v4 ← lookup_addresses w name TypeA;
  match observed_v4 with
  | None => mret false
  | Some observed_v4 =>
      observed_v6 ← lookup_addresses w name TypeAAAA;
      match observed_v6 with
      | None => mret false
      | Some observed_v6 =>
          if negb (bool_decide (observed_v4 = expected_v4 records)) || negb (bool_decide (observed_v6 = expected_v6 records))
          then mret false
          else
            match caa_values (nr_acme_account_uri records) with
            | Err _ => mret false
            | Ok expected =>
                answer ← lookup_ w name TypeCAA;
                mret (bool_decide (caa_in answer = Some (list_to_set expected)))
            end
      end
  end.

Definition txt_is (value : string) (r : RData) : bool :=
  match r with RTXT parts => bool_decide (concat parts = str_bytes value) | _ => false end.
Definition check_txt (w : Which) (name value : string) : Obs bool :=
  answer ← lookup_ w (name +:+ ".") TypeTXT;
  mret match answer with Answers l => existsb (txt_is value) l | _ => false end.

(** [self.resolvers()?]: the two resolvers, or a build failure. *)
Definition ObsR (A : Type) : Type := Obs (result DnsError A).
Definition with_resolvers (built : bool) (check : result DnsError unit) (m : Obs bool) : ObsR bool :=
  match check with
  | Err e => mret (Err e)
  | Ok _ => if built then ok ← m; mret (Ok ok) else mret (Err Unavailable)
  end.

Definition name_visible (built : bool) (records : NameRecords) : ObsR bool :=
  with_resolvers built (validate_records records)
    (and_then (check_name Authoritative records) (check_name Recursive records)).

Definition challenge_absent (built : bool) (hostname : string) : ObsR bool :=
  match challenge_name hostname with
  | Err e => mret (Err e)
  | Ok name =>
      with_resolvers built (Ok tt)
        (and_then (record_absent Authoritative (name +:+ ".") TypeTXT) (record_absent Recursive (name +:+ ".") TypeTXT))
  end.

Fixpoint all_visible (name : string) (values : list string) : Obs bool :=
  match values with
  | [] => mret true
  | value :: values =>
      and_then (check_txt Authoritative name value) (and_then (check_txt Recursive name value) (all_visible name values))
  end.

Definition challenge_values_visible (built : bool) (hostname : string) (values : list string) : ObsR bool :=
  match values with
  | [] => challenge_absent built hostname
  | _ =>
      match challenge_name hostname with
      | Err e => mret (Err e)
      | Ok name => with_resolvers built (Ok tt) (all_visible name values)
      end
  end.

(** The two nested loops, resolver by resolver. *)
Fixpoint all_absent (name : string) (queries : list (Which * RecordType)) : Obs bool :=
  match queries with
  | [] => mret true
  | (w, kind) :: queries => and_then (record_absent w name kind) (all_absent name queries)
  end.

Definition name_absent (built : bool) (hostname : string) : ObsR bool :=
  with_resolvers built (hostname_checked hostname)
    (all_absent (hostname +:+ ".")
       (w ← [Authoritative; Recursive]; kind ← [TypeA; TypeAAAA; TypeCAA]; [(w, kind)])).

(** ** What a positive answer means *)
(** Some query between [n] and [n'] was answered so. *)
Definition seen (e : Net) (n n' : nat) (w : Which) (name : string) (kind : RecordType) (P : Answer -> Prop) : Prop :=
  exists k, (n <= k < n')%nat /\ P (e k w name kind).

Definition absent_answer (a : Answer) : Prop := a = Answers [] \/ a = NoRecords.
Definition txt_answer (value : string) (a : Answer) : Prop :=
  exists l parts, a = Answers l /\ RTXT parts ∈ l /\ concat parts = str_bytes value.
Definition caa_answer (uri : string) (a : Answer) : Prop :=
  exists values, caa_values uri = Ok values /\ caa_in a = Some (list_to_set values).

(** Both resolvers answered with exactly the records of a name. *)
Definition name_seen (e : Net) (n n' : nat) (records : NameRecords) : Prop := forall w,
  seen e n n' w (nr_hostname records +:+ ".") TypeA (fun a => addresses_in a = Some (expected_v4 records)) /\
  seen e n n' w (nr_hostname records +:+ ".") TypeAAAA (fun a => addresses_in a = Some (expected_v6 records)) /\
  seen e n n' w (nr_hostname records +:+ ".") TypeCAA (caa_answer (nr_acme_account_uri records)).

Lemma seen_weaken e n n' m m' w name kind P :
  seen e n n' w name kind P -> (m <= n)%nat -> (n' <= m')%nat -> seen e m m' w name kind P.
Proof. intros (k & Hk & HP) ? ?. exists k. split; [lia|done]. Qed.

Lemma and_then_true a b e n n' :
  and_then a b e n = (true, n') -> exists m, a e n = (true, m) /\ b e m = (true, n').
Proof.
  unfold and_then, mbind, Obs_bind. destruct (a e n) as [[] m]; [|done]. intros Hb. by exists m.
Qed.

(** A check only moves on in the sequence of queries. *)
Definition forward {A} (m : Obs A) : Prop := forall e n, (n <= (m e n).2)%nat.
Lemma forward_ret {A} (a : A) : forward (mret a).
Proof. by intros e n. Qed.
Lemma forward_lookup w name kind : forward (lookup_ w name kind).
Proof. intros e n. cbn. lia. Qed.
Lemma forward_bind {A B} (m : Obs A) (f : A -> Obs B) : forward m -> (forall a, forward (f a)) -> forward (m ≫= f).
Proof.
  intros Hm Hf e n. unfold mbind, Obs_bind. specialize (Hm e n). destruct (m e n) as [a n1]. specialize (Hf a e n1). cbn in *. lia.
Qed.
Ltac forward_walk :=
  repeat first [apply forward_ret|apply forward_lookup|apply forward_bind; [|intros ?]|progress case_match|assumption].
Lemma forward_and_then a b : forward a -> forward b -> forward (and_then a b).
Proof. intros. unfold and_then. forward_walk. Qed.
Lemma forward_resolvers built check m : forward m -> forward (with_resolvers built check m).
Proof. intros. unfold with_resolvers. forward_walk. Qed.
Lemma forward_name_visible built records : forward (name_visible built records).
Proof. apply forward_resolvers, forward_and_then; unfold check_name, lookup_addresses; forward_walk. Qed.
Lemma forward_challenge_absent built h : forward (challenge_absent built h).
Proof.
  unfold challenge_absent. case_match; [|apply forward_ret].
  apply forward_resolvers, forward_and_then; unfold record_absent; forward_walk.
Qed.
Lemma forward_values_visible built h values : forward (challenge_values_visible built h values).
Proof.
  unfold challenge_values_visible. destruct values as [|v values]; [apply forward_challenge_absent|].
  case_match; [|apply forward_ret]. apply forward_resolvers. generalize (v :: values) as l.
  induction l; [apply forward_ret|]. cbn [all_visible].
  repeat apply forward_and_then; [unfold check_txt; forward_walk..|done].
Qed.
Lemma forward_name_absent built h : forward (name_absent built h).
Proof.
  unfold name_absent. apply forward_resolvers. match goal with |- forward (all_absent _ ?l) => generalize l end.
  intros l. induction l as [|[w kind] l IH]; [apply forward_ret|]. cbn [all_absent].
  apply forward_and_then; [unfold record_absent; forward_walk|done].
Qed.

(** A check is [sound] for [Q] when its positive answers imply [Q] of the
    queries it made. *)
Definition sound (m : Obs bool) (e : Net) (Q : nat -> nat -> Prop) : Prop := forall n n',
  m e n = (true, n') -> (n <= n')%nat /\ Q n n'.

Lemma and_then_sound a b e (Q R S : nat -> nat -> Prop) :
  sound a e Q -> sound b e R ->
  (forall n m n', (n <= m)%nat -> (m <= n')%nat -> Q n m -> R m n' -> S n n') -> sound (and_then a b) e S.
Proof.
  intros Ha Hb HS n n' (m & H1 & H2)%and_then_true. apply Ha in H1 as [? ?]. apply Hb in H2 as [? ?].
  split; [lia|]. by eapply HS.
Qed.

Lemma record_absent_sound e w name kind :
  sound (record_absent w name kind) e (fun n n' => seen e n n' w name kind absent_answer).
Proof.
  intros n n'. unfold record_absent, lookup_, mbind, Obs_bind, mret, Obs_ret. intros [= Ha <-]. split; [lia|].
  exists n. split; [lia|]. unfold absent_answer. destruct (e n w name kind) as [[|]| |]; try done; auto.
Qed.

Lemma check_txt_sound e w name value :
  sound (check_txt w name value) e (fun n n' => seen e n n' w (name +:+ ".") TypeTXT (txt_answer value)).
Proof.
  intros n n'. unfold check_txt, lookup_, mbind, Obs_bind, mret, Obs_ret. intros [= Ha <-]. split; [lia|].
  exists n. split; [lia|]. destruct (e n w (name +:+ ".") TypeTXT) as [l| |] eqn:He; try done.
  apply existsb_exists in Ha as (r & Hr & Ht). destruct r as [| | |parts|]; try done. exists l, parts.
  split_and!; [done|by apply list_elem_of_In|by apply bool_decide_eq_true in Ht].
Qed.

Lemma check_name_sound e w records :
  sound (check_name w records) e (fun n n' =>
    seen e n n' w (nr_hostname records +:+ ".") TypeA (fun a => addresses_in a = Some (expected_v4 records)) /\
    seen e n n' w (nr_hostname records +:+ ".") TypeAAAA (fun a => addresses_in a = Some (expected_v6 records)) /\
    seen e n n' w (nr_hostname records +:+ ".") TypeCAA (caa_answer (nr_acme_account_uri records))).
Proof.
  intros n n'. unfold check_name, lookup_addresses, lookup_, mbind, Obs_bind, mret, Obs_ret.
  destruct (addresses_in (e n _ _ _)) as [v4|] eqn:H4; [|done].
  destruct (addresses_in (e (S n) _ _ _)) as [v6|] eqn:H6; [|done].
  destruct (bool_decide_reflect (v4 = expected_v4 records)); [|done].
  destruct (bool_decide_reflect (v6 = expected_v6 records)); [|done]. cbn.
  destruct (caa_values (nr_acme_account_uri records)) as [values|] eqn:Hv; [|done].
  intros [= Hc%bool_decide_eq_true <-]. subst. split; [lia|]. split_and!.
  - exists n. split; [lia|done].
  - exists (S n). split; [lia|done].
  - exists (S (S n)). split; [lia|]. by exists values.
Qed.

Lemma with_resolvers_true built check m e n n' :
  with_resolvers built check m e n = (Ok true, n') -> is_ok check = true /\ m e n = (true, n').
Proof.
  unfold with_resolvers. destruct check; [|done]. destruct built; [|done]. unfold mbind, Obs_bind.
  destruct (m e n) as [b m']. cbn. by intros [= -> ->].
Qed.

Lemma name_visible_sound built records e n n' :
  name_visible built records e n = (Ok true, n') -> name_seen e n n' records.
Proof.
  intros [_ (m & [H1 Ha]%check_name_sound & [H2 Hb]%check_name_sound)%and_then_true]%with_resolvers_true.
  destruct Ha as (? & ? & ?), Hb as (? & ? & ?). intros []; split_and!; eapply seen_weaken; eauto.
Qed.

(** Both resolvers answered the query so. *)
Definition both_saw (e : Net) (n n' : nat) (name : string) (kind : RecordType) (P : Answer -> Prop) : Prop :=
  forall w, seen e n n' w name kind P.

Lemma challenge_absent_sound built h e n n' :
  challenge_absent built h e n = (Ok true, n') ->
  exists name, challenge_name h = Ok name /\ both_saw e n n' (name +:+ ".") TypeTXT absent_answer.
Proof.
  unfold challenge_absent. destruct (challenge_name h) as [name|]; [|done].
  intros [_ (m & [? Ha]%record_absent_sound & [? Hb]%record_absent_sound)%and_then_true]%with_resolvers_true.
  exists name. split; [done|]. intros []; eapply seen_weaken; eauto.
Qed.

Lemma all_visible_sound e name values :
  sound (all_visible name values) e (fun n n' =>
    forall v, v ∈ values -> both_saw e n n' (name +:+ ".") TypeTXT (txt_answer v)).
Proof.
  induction values as [|v values IH].
  { intros n n' [= <-]. split; [done|]. by intros v ?%not_elem_of_nil. }
  intros n n' (m & [? Ha]%check_txt_sound & (m' & [? Hb]%check_txt_sound & [? Hc]%IH)%and_then_true)%and_then_true.
  split; [lia|]. intros v' [->|Hv]%elem_of_cons w.
  - destruct w; eapply seen_weaken; eauto; lia.
  - eapply seen_weaken; [by apply Hc|lia|lia].
Qed.

(** Every value was seen at the challenge name, or none for the empty set. *)
Definition values_seen (e : Net) (n n' : nat) (h : string) (values : list string) : Prop :=
  exists name, challenge_name h = Ok name /\
    (forall v, v ∈ values -> both_saw e n n' (name +:+ ".") TypeTXT (txt_answer v)) /\
    (values = [] -> both_saw e n n' (name +:+ ".") TypeTXT absent_answer).

Lemma challenge_values_visible_sound built h values e n n' :
  challenge_values_visible built h values e n = (Ok true, n') -> values_seen e n n' h values.
Proof.
  unfold challenge_values_visible, values_seen. destruct values as [|v values].
  - intros (name & Hn & Ha)%challenge_absent_sound. exists name. split_and!; [done| |done]. by intros v ?%not_elem_of_nil.
  - destruct (challenge_name h) as [name|]; [|done].
    intros [_ [_ Ha]%all_visible_sound]%with_resolvers_true. by exists name.
Qed.

(** The addresses and the CAA policy of a name are gone. *)
Definition name_unseen (e : Net) (n n' : nat) (h : string) : Prop :=
  forall kind, kind <> TypeTXT -> both_saw e n n' (h +:+ ".") kind absent_answer.

Lemma all_absent_sound e name queries :
  sound (all_absent name queries) e (fun n n' =>
    forall w kind, (w, kind) ∈ queries -> seen e n n' w name kind absent_answer).
Proof.
  induction queries as [|[w kind] queries IH].
  { intros n n' [= <-]. split; [done|]. by intros w kind ?%not_elem_of_nil. }
  intros n n' (m & [? Ha]%record_absent_sound & [? Hb]%IH)%and_then_true. split; [lia|].
  intros w' kind' [[= -> ->]|Hq]%elem_of_cons; eapply seen_weaken; eauto; lia.
Qed.

Lemma name_absent_sound built h e n n' :
  name_absent built h e n = (Ok true, n') -> name_unseen e n n' h.
Proof.
  intros [_ [_ Ha]%all_absent_sound]%with_resolvers_true. intros kind Hk w. apply Ha.
  destruct w, kind; try done; cbn; rewrite !elem_of_cons; tauto.
Qed.
