(* ===== verification/DnsWorker.v ===== *)
(** * The DNS worker: crates/bloom-relay-control/src/dns_worker.rs

    One worker of a placement and scope: it claims a job, carries it out
    against the provider and the resolvers, and records the attempt. At every
    await other processes may change the database and the zone ([v_others]),
    and every call may fail. The provider is any instance of the interface. *)

From Stdlib Require Import Ascii String Strings.Byte.
From stdpp Require Import base strings list gmap.
From S2P Require Import Prelude Protocol Db Witness Store StoreChallenges StoreLifecycle StoreOutbox Dns IpText Cloudflare Observer.

(** ** Configuration *)
Inductive ProviderKind := KindRoute53 | KindCloudflare.

Definition provider_kind_parse (value : string) : option ProviderKind :=
  if bool_decide (value = "route53"%string) then Some KindRoute53
  else if bool_decide (value = "cloudflare"%string) then Some KindCloudflare
  else None.

Definition configured_kind (selector : EnvVar) : option ProviderKind :=
  match selector with
  | NotPresent => provider_kind_parse "route53"
  | NotUnicode => None
  | Value s => provider_kind_parse s
  end.

Definition cloudflare_scope (scope : DnsJobScope) : CloudflareScope :=
  match scope with Serving => CfServing | Challenge => CfChallenge end.

Definition COMMA : byte := Byte.x2c.

Definition addresses (var : EnvVar) : option (list IpAddr) :=
  match var with
  | Value s =>
      parsed ← mapM (fun part => parse_ip (string_of_list_byte part)) (split_on COMMA (str_bytes s));
      if Nat.eqb (List.length parsed) 0 || (8 <? Z.of_nat (List.length parsed)) || existsb is_unspecified parsed
      then None else Some parsed
  | _ => None
  end.

(** [cloudflare_token] on the file's contents, [None] when it cannot be read
    as text. *)
Definition CR : byte := Byte.x0d.
Definition cloudflare_token (contents : option (list byte)) : option string :=
  bytes ← contents;
  if 4096 <? Z.of_nat (List.length bytes) then None
  else Some (string_of_list_byte (list_trim_end (fun b => Byte.eqb b CR || Byte.eqb b NEWLINE) bytes)).

Definition job_allowed (scope : DnsJobScope) (kind : string) : bool :=
  match scope with
  | Serving => bool_decide (kind = "publish_name"%string) || bool_decide (kind = "remove_records"%string)
  | Challenge => bool_decide (kind = "reconcile_txt"%string) || bool_decide (kind = "remove_txt_all"%string)
  end.

(** ** The worker's state *)
Inductive Call :=
| PublishName (records : NameRecords)
| SetChallenge (hostname : string) (values : list string)
| RetireName (hostname : string)
| RetireChallenge (hostname : string).

Inductive WkError := WkStore (e : StoreError) | WkDns (e : DnsError) | OutsideScope.

Section worker.
Context `{S3} {Zone : Type} `{Provider Zone}.

(** A provider call: its outcome, the database at its moment and the zone
    after it. *)
Record Event := { ev_call : Call; ev_ok : bool; ev_db : Db; ev_zone : Zone }.

(** [k_held] is the installation whose lock the claimed job's transaction
    holds; [k_log] is auxiliary: the provider calls made. *)
Record Wk := { k_now : Z; k_world : World; k_provider : Zone; k_held : option Uuid; k_log : list Event }.

Record WkEnv := {
  v_others : nat -> Wk -> Wk;
  v_fault : nat -> option StoreError;
  v_ack : nat -> AckEnv;
  v_net : Net;
  v_built : nat -> bool;
  v_locked : nat -> Z -> bool
}.

Definition WkM (A : Type) : Type := WkEnv -> nat * Wk -> result WkError A * (nat * Wk).
#[global] Instance wk_ret : MRet WkM := fun _ a _ s => (Ok a, s).
#[global] Instance wk_bind : MBind WkM := fun _ _ f m e s =>
  match m e s with (Ok a, s') => f a e s' | (Err err, s') => (Err err, s') end.

Definition set_world (w : World) (s : Wk) : Wk :=
  {| k_now := k_now s; k_world := w; k_provider := k_provider s; k_held := k_held s; k_log := k_log s |}.
Definition set_held (o : option Uuid) (s : Wk) : Wk :=
  {| k_now := k_now s; k_world := k_world s; k_provider := k_provider s; k_held := o; k_log := k_log s |}.
Definition called (c : Call) (ok : bool) (p : Zone) (s : Wk) : Wk :=
  {| k_now := k_now s; k_world := k_world s; k_provider := p; k_held := k_held s;
     k_log := k_log s ++ [{| ev_call := c; ev_ok := ok; ev_db := w_db (k_world s); ev_zone := p |}] |}.

(** An await: the others run, and the call may find the store unavailable. *)
Definition store_call {A} (f : WkEnv -> nat -> Wk -> result StoreError A * World) : WkM A := fun e s =>
  let s1 := v_others e s.1 s.2 in
  match v_fault e s.1 with
  | Some err => (Err (WkStore err), (S s.1, s1))
  | None => let (r, w) := f e s.1 s1 in (map_err WkStore r, (S s.1, set_world w s1))
  end.

Definition store_get {A} (f : Db -> A) : WkM A :=
  store_call (fun _ _ s => (Ok (f (w_db (k_world s))), k_world s)).
Definition integrity : WkM unit := store_call (fun e n s => verify_integrity (v_ack e n) (k_world s)).
Definition commit {A} (m : Z -> Tx A) : WkM A :=
  store_call (fun e n s => run_tx (v_ack e n) (m (k_now s)) (k_world s)).

Definition run_call (c : Call) : Zone -> result DnsError unit * Zone :=
  match c with
  | PublishName records => publish_name records
  | SetChallenge hostname values => set_challenge hostname values
  | RetireName hostname => retire_name hostname
  | RetireChallenge hostname => retire_challenge hostname
  end.
Definition provider_call (c : Call) : WkM unit := fun e s =>
  let s1 := v_others e s.1 s.2 in
  let (r, p) := run_call c (k_provider s1) in
  (map_err WkDns r, (S s.1, called c (is_ok r) p s1)).

Definition observe (m : bool -> ObsR bool) : WkM bool := fun e s =>
  let (r, n) := m (v_built e s.1) (v_net e) s.1 in (map_err WkDns r, (S n, v_others e n s.2)).

(** ** [process] *)
Definition fenced_call (c : Call) : WkM unit :=
  _ ← integrity; _ ← provider_call c; integrity.

Definition process_publish (placement : string) (ingress : list IpAddr) (id : Uuid) : WkM bool :=
  identity ← store_get (dns_identity id);
  match identity with
  | None => mret true
  | Some (hostname, acme_account_uri, at_) =>
      if negb (bool_decide (at_ = placement)) then mret false
      else
        let records := {| nr_hostname := hostname; nr_addresses := ingress; nr_acme_account_uri := acme_account_uri |} in
        _ ← fenced_call (PublishName records);
        visible ← observe (fun built => name_visible built records);
        if negb visible then mret false
        else _ ← commit (fun now => mark_dns_ready_tx now id); mret true
  end.

Definition process_reconcile (placement : string) (id : Uuid) : WkM bool :=
  identity ← store_get (dns_identity id);
  match identity with
  | None => mret true
  | Some (hostname, _, at_) =>
      if negb (bool_decide (at_ = placement)) then mret false
      else
        target ← store_get (challenge_target id);
        _ ← fenced_call (SetChallenge hostname target.2);
        visible ← observe (fun built => challenge_values_visible built hostname target.2);
        if negb visible then mret false
        else _ ← commit (fun _ => mark_challenge_reconciled_tx id target.1); mret true
  end.

Definition process_remove (id : Uuid) (call : string -> Call) (absent : bool -> string -> ObsR bool) : WkM bool :=
  retired ← store_get (retired_hostname id);
  match retired with
  | None => mret true
  | Some hostname =>
      _ ← fenced_call (call hostname);
      observe (fun built => absent built hostname)
  end.

Definition process (scope : DnsJobScope) (placement : string) (ingress : list IpAddr) (job : OutboxRow) : WkM bool :=
  let id := x_installation_id job in
  if negb (job_allowed scope (x_kind job)) then fun e s => (Err OutsideScope, s)
  else if bool_decide (x_kind job = "publish_name"%string) then process_publish placement ingress id
  else if bool_decide (x_kind job = "reconcile_txt"%string) then process_reconcile placement id
  else if bool_decide (x_kind job = "remove_records"%string) then process_remove id RetireName name_absent
  else if bool_decide (x_kind job = "remove_txt_all"%string) then process_remove id RetireChallenge challenge_absent
  else mret false.

(** ** [run] *)
Inductive Outcome := Completed | Deferred | NotRecorded | Idle | OutboxUnavailable.

(** Recording the attempt checks the witness, commits, and acknowledges. *)
Definition record (m : Z -> Z -> Tx unit) (job : OutboxRow) : WkM unit :=
  store_call (fun e n s => record_attempt (v_ack e n) (v_ack e (S n)) (m (k_now s) (x_id job)) (k_world s)).

Definition claim (scope : DnsJobScope) (placement : string) : WkM (option OutboxRow) :=
  store_call (fun e n s => claim_job (v_ack e n) (k_now s) placement scope (v_locked e n) (k_world s)).

(** A turn of the loop; the gauge and the sleeps are not part of the state.
    The claim's transaction ends with the recording, whatever its outcome. *)
Definition turn (scope : DnsJobScope) (placement : string) (ingress : list IpAddr) (e : WkEnv) (s : nat * Wk) :
    Outcome * (nat * Wk) :=
  match claim scope placement e s with
  | (Err _, s1) => (OutboxUnavailable, s1)
  | (Ok None, s1) => (Idle, s1)
  | (Ok (Some job), (n1, s1)) =>
      let (r, s2) := process scope placement ingress job e (n1, set_held (Some (x_installation_id job)) s1) in
      let done := match r with Ok b => b | Err _ => false end in
      let '(r', (n3, s3)) := record (if done then complete_tx else defer_tx) job e s2 in
      (match r' with Ok _ => if done then Completed else Deferred | Err _ => NotRecorded end, (n3, set_held None s3))
  end.

Fixpoint run (turns : nat) (scope : DnsJobScope) (placement : string) (ingress : list IpAddr) (e : WkEnv)
    (s : nat * Wk) : nat * Wk :=
  match turns with
  | O => s
  | S turns => run turns scope placement ingress e (turn scope placement ingress e s).2
  end.
End worker.
