(* ===== verification/CloudflareRefinement.v ===== *)
(** * The Cloudflare provider refines the in-memory one

    The provider the tests use is an abstract specification: a map of names
    and a map of challenge sets. A zone is related to it by what resolvers
    see, and every successful change of the zone is the same change of the
    maps. *)

From Stdlib Require Import Ascii String.
From stdpp Require Import base strings list sets gmap.
From S2P Require Import Prelude Protocol Db Dns Cloudflare CloudflareTrace CloudflarePlan CloudflareProperties CloudflareSamples DnsWorker.

Section refinement.
Context `{CloudflareLaws}.
Implicit Types (z : zone) (rs : list Record_).

(** The two providers of a deployment, one per scope, on the same zone. *)
Definition provider_scope (c : Call) : CloudflareScope :=
  match c with PublishName _ | RetireName _ => CfServing | _ => CfChallenge end.
Definition cloudflare_call (base token_ : string) (c : Call) (z : zone) : result DnsError unit * zone :=
  @run_call _ (cloudflare_provider {| base_zone := base; token := token_; scope := provider_scope c |}) c z.
Definition memory_call (c : Call) (m : MemoryState) : result DnsError unit * MemoryState := run_call c m.

(** What resolvers see at the relay's hostnames and their challenge names.
    Records at the zone's other names, such as the CAA records of the base
    domain, are not the providers'. *)
Record zone_is (z : zone) (m : MemoryState) : Prop := {
  zi_name h : hostname_checked h = Ok tt ->
              match memory_records h m with
              | Some records => nr_hostname records = h /\ publishes records (zone_records z)
              | None => served h (zone_records z) = []
              end;
  zi_challenge h n : challenge_name h = Ok n -> txt_values n (zone_records z) ≡ₚ memory_challenge h m
}.

(** ** Changes stay at their name *)
Lemma filter_filter_implied {A} (f g : A -> bool) (l : list A) :
  (forall x, f x = true -> g x = true) -> List.filter f (List.filter g l) = List.filter f l.
Proof.
  intros Hfg. induction l as [|x l IH]; cbn; [done|]. destruct (g x) eqn:Hg; cbn; [by rewrite IH|].
  destruct (f x) eqn:Hf; [by rewrite (Hfg _ Hf) in Hg|done].
Qed.

Lemma served_elsewhere h h' rs rs' :
  h' <> h -> foreign h rs' ≡ₚ foreign h rs -> served h' rs' ≡ₚ served h' rs.
Proof.
  intros Hne Hf. unfold served.
  assert (Hi : forall r, serving_at h' r = true -> negb (managed h r) = true).
  { intros r. unfold managed, serving_at. intros [Hn%bool_decide_eq_true _]%andb_prop.
    rewrite (bool_decide_false (name r = h)) by congruence. done. }
  rewrite <- (filter_filter_implied _ _ rs' Hi), <- (filter_filter_implied _ _ rs Hi). by apply filter_perm.
Qed.

Lemma txt_kept h n rs rs' : foreign h rs' ≡ₚ foreign h rs -> txt_values n rs' ≡ₚ txt_values n rs.
Proof.
  intros Hf. unfold txt_values.
  assert (Hi : forall r, txt_at n r = true -> negb (managed h r) = true).
  { intros r. unfold managed, serving_at, txt_at. intros [_ Hk%bool_decide_eq_true]%andb_prop. rewrite Hk.
    cbn. by rewrite andb_false_r. }
  rewrite <- (filter_filter_implied _ _ rs' Hi), <- (filter_filter_implied _ _ rs Hi). by apply Permutation_map, filter_perm.
Qed.

Lemma served_kept n h rs rs' : challenge_foreign n rs' ≡ₚ challenge_foreign n rs -> served h rs' ≡ₚ served h rs.
Proof.
  intros Hf. unfold served.
  assert (Hi : forall r, serving_at h r = true -> negb (challenge_managed n r) = true).
  { intros r. unfold challenge_managed, serving_at, txt_at. intros [_ Hk]%andb_prop.
    destruct (bool_decide_reflect (kind r = "TXT"%string)) as [Ht|]; [by rewrite Ht in Hk|]. by rewrite andb_false_r. }
  rewrite <- (filter_filter_implied _ _ rs' Hi), <- (filter_filter_implied _ _ rs Hi). by apply filter_perm.
Qed.

Lemma txt_elsewhere n n' rs rs' :
  n' <> n -> challenge_foreign n rs' ≡ₚ challenge_foreign n rs -> txt_values n' rs' ≡ₚ txt_values n' rs.
Proof.
  intros Hne Hf. unfold txt_values.
  assert (Hi : forall r, txt_at n' r = true -> negb (challenge_managed n r) = true).
  { intros r. unfold challenge_managed, txt_at. intros [Hn%bool_decide_eq_true _]%andb_prop.
    rewrite (bool_decide_false (name r = n)) by congruence. done. }
  rewrite <- (filter_filter_implied _ _ rs' Hi), <- (filter_filter_implied _ _ rs Hi). by apply Permutation_map, filter_perm.
Qed.

Lemma publishes_perm records rs rs' :
  served (nr_hostname records) rs' ≡ₚ served (nr_hostname records) rs -> publishes records rs -> publishes records rs'.
Proof.
  intros Hs [Hg (keys & Hk & Hn & Hw)]. split; [by rewrite Hs|]. exists keys. by rewrite Hs.
Qed.

(** The name of a map entry, kept by a change that keeps its serving records. *)
Definition name_as (z : zone) (h : string) (o : option NameRecords) : Prop :=
  match o with
  | Some records => nr_hostname records = h /\ publishes records (zone_records z)
  | None => served h (zone_records z) = []
  end.

Lemma name_as_kept z z' h o :
  served h (zone_records z') ≡ₚ served h (zone_records z) -> name_as z h o -> name_as z' h o.
Proof.
  intros Hs. destruct o as [records|]; cbn.
  - intros [<- Hp]. split; [done|]. by eapply publishes_perm.
  - intros Hn. rewrite Hn in Hs. by apply Permutation_nil_r in Hs.
Qed.

Lemma challenge_name_inj h h' n : challenge_name h = Ok n -> challenge_name h' = Ok n -> h = h'.
Proof.
  unfold challenge_name. destruct (hostname_checked h), (hostname_checked h'); cbn; try done.
  intros Ha%Ok_inj Hb%Ok_inj. rewrite <- Hb in Ha. by apply str_app_inj_l in Ha.
Qed.

(** ** What a successful run checked *)
Lemma publish_checked p records z z' : cf_publish_name p records z = (Ok tt, z') -> validate_records records = Ok tt.
Proof.
  intros [(u & _ & Hrun)|[? _]]%lift_inv; [|done]. apply lift_inv in Hrun as [(desired & Hd & _)|[? _]]; [|done].
  unfold serving_desired in Hd. by apply bind_ok in Hd as ([] & ? & _).
Qed.

Lemma set_checked p h values z z' :
  cf_set_challenge p h values z = (Ok tt, z') ->
  exists n, challenge_name h = Ok n /\ validate_challenge_values values = Ok tt.
Proof.
  intros [(u & _ & Hrun)|[? _]]%lift_inv; [|done]. apply lift_inv in Hrun as [([] & Hv & Hrun)|[? _]]; [|done].
  apply lift_inv in Hrun as [(n & Hn & _)|[? _]]; [|done]. by exists n.
Qed.

Lemma retire_checked p h z z' : cf_retire_name p h z = (Ok tt, z') -> hostname_checked h = Ok tt.
Proof.
  intros [(u & _ & Hrun)|[? _]]%lift_inv; [|done]. by apply lift_inv in Hrun as [([] & Hv & _)|[? _]].
Qed.

Lemma retire_challenge_checked p h z z' :
  cf_retire_challenge p h z = (Ok tt, z') -> exists n, challenge_name h = Ok n.
Proof.
  intros [(u & _ & Hrun)|[? _]]%lift_inv; [|done]. apply lift_inv in Hrun as [(n & Hn & _)|[? _]]; [|done]. by exists n.
Qed.

(** ** The simulation, one change at a time *)
(** A serving change of [h]: the other names and all challenges are kept. *)
Lemma serving_change z z' m h o :
  zone_is z m -> foreign h (zone_records z') ≡ₚ foreign h (zone_records z) -> name_as z' h o ->
  zone_is z' {| names := partial_alter (fun _ => o) h (names m); challenges := challenges m |}.
Proof.
  intros [Hn Hc] Hf Ho. split.
  - intros h' Hh'. unfold memory_records. cbn. destruct (decide (h' = h)) as [->|Hne].
    + rewrite lookup_partial_alter_eq. exact Ho.
    + rewrite lookup_partial_alter_ne by done. apply (name_as_kept z); [by eapply served_elsewhere|]. by apply Hn.
  - intros h' n Hn'. rewrite (txt_kept h n _ _ Hf). by apply Hc.
Qed.

(** A challenge change of [h]: the other challenges and all names are kept. *)
Lemma challenge_change z z' m h n o :
  zone_is z m -> challenge_name h = Ok n ->
  challenge_foreign n (zone_records z') ≡ₚ challenge_foreign n (zone_records z) ->
  txt_values n (zone_records z') ≡ₚ default [] o ->
  zone_is z' {| names := names m; challenges := partial_alter (fun _ => o) h (challenges m) |}.
Proof.
  intros [Hn Hc] Hname Hf Hv. split.
  - intros h' Hh'. apply (name_as_kept z); [by eapply served_kept|]. by apply Hn.
  - intros h' n' Hn'. unfold memory_challenge. cbn. destruct (decide (h' = h)) as [->|Hne].
    + rewrite lookup_partial_alter_eq. by assert (n' = n) as -> by congruence.
    + rewrite lookup_partial_alter_ne by done. rewrite (txt_elsewhere n n' (zone_records z) (zone_records z')); [by apply Hc| |done].
      intros ->. apply Hne. by eapply challenge_name_inj.
Qed.

Lemma simulation base token_ c z z' m :
  zone_is z m -> cloudflare_call base token_ c z = (Ok tt, z') ->
  exists m', memory_call c m = (Ok tt, m') /\ zone_is z' m'.
Proof.
  intros Hz. unfold cloudflare_call, memory_call, memory_op.
  destruct c as [records|h values|h|h]; cbn [run_call publish_name set_challenge retire_name retire_challenge
    cloudflare_provider MemoryProvider]; intros Hrun; unfold memory_op.
  - rewrite (publish_checked _ _ _ _ Hrun). eexists. split; [done|]. cbn [insert map_insert].
    eapply serving_change; [done|by eapply publish_foreign|]. split; [done|by eapply publish_exact].
  - destruct (set_checked _ _ _ _ _ Hrun) as (n & Hn & Hv). rewrite Hn. cbn [mbind result_bind]. rewrite Hv.
    eexists. split; [done|].
    pose proof (set_exact _ _ _ _ _ _ Hrun Hn) as Hx. pose proof (set_foreign _ _ _ _ _ _ _ Hrun Hn) as Hf.
    destruct values; by eapply challenge_change.
  - rewrite (retire_checked _ _ _ _ Hrun). eexists. split; [done|].
    eapply (serving_change _ _ _ _ None); [done|by eapply retire_foreign|]. by eapply retire_exact.
  - destruct (retire_challenge_checked _ _ _ _ Hrun) as (n & Hn). rewrite Hn. cbn [mbind result_bind].
    eexists. split; [done|]. eapply (challenge_change _ _ _ _ _ None); [done|done|by eapply retire_challenge_foreign|].
    by rewrite (retire_challenge_exact _ _ _ _ _ Hrun Hn).
Qed.

(** A run of successful changes. *)
Fixpoint cloudflare_calls (base token_ : string) (cs : list Call) (z : zone) : option zone :=
  match cs with
  | [] => Some z
  | c :: cs => match cloudflare_call base token_ c z with (Ok _, z') => cloudflare_calls base token_ cs z' | _ => None end
  end.
Fixpoint memory_calls (cs : list Call) (m : MemoryState) : option MemoryState :=
  match cs with
  | [] => Some m
  | c :: cs => match memory_call c m with (Ok _, m') => memory_calls cs m' | _ => None end
  end.

(** C9: The Cloudflare provider refines the in-memory one. If, at the relay's
    hostnames and their challenge names, a zone shows what the maps of the
    in-memory provider hold, whatever it has at other names, then after any
    sequence of successful publications, challenge changes and retirements the
    in-memory provider accepts the same sequence and the zone shows what its
    maps hold then: for every hostname, the records of the latest publication
    or none, and the TXT values of the latest challenge set. *)
Theorem cloudflare_refines_memory base token_ cs z z' m :
  zone_is z m -> cloudflare_calls base token_ cs z = Some z' ->
  exists m', memory_calls cs m = Some m' /\ zone_is z' m'.
Proof.
  revert z m. induction cs as [|c cs IH]; intros z m Hz; cbn.
  { intros [= <-]. by exists m. }
  destruct (cloudflare_call base token_ c z) as [[[]|] z1] eqn:Hc; [|done]. intros Hrun.
  destruct (simulation _ _ _ _ _ _ Hz Hc) as (m1 & Hm & Hz1). rewrite Hm. by eapply IH.
Qed.
End refinement.

(** ** A sequence of changes *)
Import CloudflareConcrete.

Definition sample_changes : list Call :=
  [PublishName sample_name; SetChallenge sample_host sample_values; RetireName sample_host].
(** A zone that has the CAA record of its base domain and nothing else. *)
Definition base_caa : Record_ := with_id 1
  {| id := EmptyString; name := "relay.bloom.directory"; kind := "CAA"; content := EmptyString; ttl := 300;
     proxied := false; comment := EmptyString; data := Some {| flags := 0; tag := "issue"; value := "letsencrypt.org" |} |}.
Definition fresh_zone : @zone Cloudflare_api := {| slots := [Some base_caa]; script := [] |}.
Definition no_names : MemoryState := {| names := ∅; challenges := ∅ |}.

Lemma fresh_zone_is : zone_is fresh_zone no_names.
Proof.
  split.
  - intros h Hh. cbn -[hostname_checked]. unfold serving_at. rewrite bool_decide_false; [done|].
    intros <-. vm_compute in Hh. discriminate Hh.
  - intros h n _. unfold txt_values, txt_at. cbn. by rewrite andb_false_r.
Qed.

Lemma cloudflare_refines_memory_witness : exists z' m',
  cloudflare_calls (id_of 1) "token" sample_changes fresh_zone = Some z' /\
  memory_calls sample_changes no_names = Some m' /\ zone_is z' m'.
Proof.
  destruct (cloudflare_calls (id_of 1) "token" sample_changes fresh_zone) as [z'|] eqn:Hrun.
  - destruct (cloudflare_refines_memory (id_of 1) "token" sample_changes fresh_zone z' no_names) as (m' & Hm & Hz).
    + exact fresh_zone_is.
    + exact Hrun.
    + exists z', m'. split; [reflexivity|]. split; [exact Hm|exact Hz].
  - assert (is_Some (cloudflare_calls (id_of 1) "token" sample_changes fresh_zone)) as [z Hz]
      by (vm_compute; eexists; reflexivity).
    rewrite Hrun in Hz. discriminate Hz.
Defined.
