(* ===== verification/DnsWorkerProperties.v ===== *)
(** * What the DNS worker guarantees

    A rely-guarantee argument about [process]: the other processes only run
    store requests, and while the claim holds the installation's lock they
    neither retire nor relocate it. *)

From Stdlib Require Import Ascii String Strings.Byte.
From stdpp Require Import base strings list gmap.
From S2P Require Import Prelude Protocol Db Witness Store StoreCredentials StoreChallenges StoreLifecycle StoreOutbox.
From S2P Require Import StoreHistory StoreInvariant StoreEffects Dns Observer DnsWorker.

Section worker_facts.
Context {St3 : S3} {Cr : Crypto} {B32 : Base32} {B32L : Base32Law} {Zone : Type} {Pr : Provider Zone} {PrL : ProviderLaws Zone}.
Context (cfg : StoreConfig) (scope : DnsJobScope) (placement : string) (ingress : list IpAddr).

Local Abbreviation Wk := (DnsWorker.Wk (Zone := Zone)).
Local Abbreviation Event := (DnsWorker.Event (Zone := Zone)).
Local Abbreviation WkM := (DnsWorker.WkM (Zone := Zone)).

Definition db (s : Wk) : Db := w_db (k_world s).

(** What the installation's lock keeps. *)
Definition lock_kept (id : Uuid) (d d' : Db) : Prop := forall row, d_installations d !! id = Some row ->
  exists row', d_installations d' !! id = Some row' /\ i_placement row' = i_placement row /\
    (i_state row <> Retired -> i_state row' <> Retired).

#[local] Instance lock_kept_preorder id : PreOrder (lock_kept id).
Proof.
  split; [by intros d row Hrow; exists row|].
  intros a b c Hab Hbc row Hrow. destruct (Hab _ Hrow) as (r1 & H1 & ? & ?). destruct (Hbc _ H1) as (r2 & ? & ? & ?).
  exists r2. split_and!; [done|congruence|auto].
Qed.

(** The other processes during an attempt. *)
Record quiet (s s' : Wk) : Prop := {
  q_history : history cfg (k_now s) (db s) (k_now s') (db s');
  q_held : k_held s' = k_held s;
  q_lock id : k_held s = Some id -> lock_kept id (db s) (db s');
  q_log : k_log s' = k_log s
}.

(** The provider calls this worker may make for the installation, given the
    database at the moment of the call. *)
Definition call_allowed (id : Uuid) (ev : Event) : Prop :=
  match ev_call ev with
  | PublishName records =>
      scope = Serving /\ nr_addresses records = ingress /\
      exists uri, dns_identity id (ev_db ev) = Some (nr_hostname records, uri, placement)
  | SetChallenge hostname values =>
      scope = Challenge /\ exists uri, dns_identity id (ev_db ev) = Some (hostname, uri, placement)
  | RetireName hostname => scope = Serving /\ retired_hostname id (ev_db ev) = Some hostname
  | RetireChallenge hostname => scope = Challenge /\ retired_hostname id (ev_db ev) = Some hostname
  end.

Context (id : Uuid).

Record wk_step (s s' : Wk) : Prop := {
  ws_history : history cfg (k_now s) (db s) (k_now s') (db s');
  ws_held : k_held s' = k_held s;
  ws_lock : k_held s = Some id -> lock_kept id (db s) (db s');
  ws_log : exists new, k_log s' = k_log s ++ new /\ Forall (call_allowed id) new
}.

#[local] Instance wk_step_preorder : PreOrder wk_step.
Proof.
  split.
  - intros s. split; [constructor|done|done|]. exists []. by rewrite app_nil_r.
  - intros a b c [H1 D1 L1 (n1 & E1 & F1)] [H2 D2 L2 (n2 & E2 & F2)].
    split; [by eapply history_trans|congruence|intros Hh; etrans; [by apply L1|apply L2; congruence]|].
    exists (n1 ++ n2). rewrite E2, E1, app_assoc. split; [done|]. by apply Forall_app.
Qed.

Lemma quiet_step s s' : quiet s s' -> wk_step s s'.
Proof. intros [? ? ? Hl]. split; [done|done|auto|]. exists []. by rewrite Hl, app_nil_r. Qed.

(** ** Facts other processes cannot change *)
Definition stable (P : Wk -> Prop) : Prop := forall s s', wk_step s s' -> P s -> P s'.

Lemma identity_stable d d' h uri p t t' :
  history cfg t d t' d' -> lock_kept id d d' -> dns_identity id d = Some (h, uri, p) ->
  exists uri', dns_identity id d' = Some (h, uri', p).
Proof.
  intros Hh Hl. unfold dns_identity, select_installation.
  destruct (d_installations d !! id) as [row|] eqn:Hrow; [|done]. cbn.
  destruct (not_retired row) eqn:Hnr; [|done]. cbn.
  destruct (i_acme_account_uri row) as [u|] eqn:Hu; [|done]. cbn. intros [= <- <- <-].
  destruct (Hl _ Hrow) as (row' & Hrow' & Hp & Hs). apply history_history_le in Hh as [Hle _].
  destruct (hl_installations _ _ Hle _ _ Hrow) as (row2 & Hrow2 & Hh & _ & _ & _ & _ & Hsu & _). rewrite Hrow' in Hrow2. injection Hrow2 as <-.
  destruct Hsu as [u' Hu']; [by rewrite Hu|]. exists u'.
  apply not_retired_true in Hnr. rewrite Hrow'. cbn. unfold not_retired. rewrite bool_decide_false by auto. cbn.
  by rewrite Hu', Hh, Hp.
Qed.

Definition live_as (h : string) (s : Wk) : Prop :=
  k_held s = Some id /\ exists uri, dns_identity id (db s) = Some (h, uri, placement).
Lemma live_as_stable h : stable (live_as h).
Proof.
  intros s s' [Hh Hd Hl _] (Hk & uri & Hi). split; [congruence|]. eapply identity_stable; eauto.
Qed.

Definition retired_as (h : string) (s : Wk) : Prop := retired_hostname id (db s) = Some h.
Lemma retired_as_stable h : stable (retired_as h).
Proof.
  intros s s' [Hh _ _ _]. unfold retired_as, retired_hostname, select_installation.
  destruct (d_installations (db s) !! id) as [row|] eqn:Hrow; [|done]. cbn. case_bool_decide as Hr; [|done].
  cbn. intros [= <-]. apply history_history_le in Hh as [Hle _]. destruct (hl_installations _ _ Hle _ _ Hrow) as (row' & -> & _ & _ & _ & _ & _ & _ & Heq).
  rewrite (Heq Hr). cbn. by rewrite bool_decide_true.
Qed.

(** ** Triples *)
(** [lo] is the number of awaits before the attempt. *)
Context (e : WkEnv (Zone := Zone)) (others : forall n s, quiet s (v_others e n s)) (lo : nat).

Definition wtriple {A} (P : Wk -> Prop) (m : WkM A) (Q : A -> Wk -> Prop) : Prop :=
  forall n s r n' s', (lo <= n)%nat -> P s -> m e (n, s) = (r, (n', s')) ->
  (n <= n')%nat /\ wk_step s s' /\ match r with Ok a => Q a s' | Err _ => True end.

Lemma wt_ret {A} (a : A) (P : Wk -> Prop) (Q : A -> Wk -> Prop) : (forall s, P s -> Q a s) -> wtriple P (mret a) Q.
Proof. intros HQ n s r n' s' Hn HP [= <- <- <-]. split_and!; [done|done|by apply HQ]. Qed.

Lemma wt_bind {A B} (m : WkM A) (f : A -> WkM B) P Q R :
  wtriple P m Q -> (forall a, wtriple (Q a) (f a) R) -> wtriple P (m ≫= f) R.
Proof.
  intros Hm Hf n s r n' s' Hn HP Hb. unfold mbind, wk_bind in Hb.
  destruct (m e (n, s)) as [[a|err] [n1 s1]] eqn:Hm1; destruct (Hm _ _ _ _ _ Hn HP Hm1) as (Hn1 & Hs1 & HQ).
  - destruct (Hf a _ _ _ _ _ (Nat.le_trans _ _ _ Hn Hn1) HQ Hb) as (Hn2 & Hs2 & HR). split_and!; [lia|by etrans|done].
  - by injection Hb as <- <- <-.
Qed.

Lemma wt_pre {A} (P' P : Wk -> Prop) (m : WkM A) Q : (forall s, P s -> P' s) -> wtriple P' m Q -> wtriple P m Q.
Proof. intros HP Hm n s r n' s' Hn Hs. apply Hm; [done|]. by apply HP. Qed.

Lemma wt_post {A} (P : Wk -> Prop) (m : WkM A) (Q Q' : A -> Wk -> Prop) :
  (forall a s, Q a s -> Q' a s) -> wtriple P m Q -> wtriple P m Q'.
Proof.
  intros HQ Hm n s r n' s' Hn HP Hr. destruct (Hm _ _ _ _ _ Hn HP Hr) as (? & ? & ?). split_and!; [done..|]. destruct r; auto.
Qed.

Lemma wstable_and P Q : stable P -> stable Q -> stable (fun s => P s /\ Q s).
Proof. intros HP HQ s s' Hs [? ?]. split; [by eapply HP|by eapply HQ]. Qed.
Lemma stable_pure (X : Prop) : stable (fun _ => X).
Proof. by intros s s' _. Qed.
Lemma stable_ex {A} (P : A -> Wk -> Prop) : (forall a, stable (P a)) -> stable (fun s => exists a, P a s).
Proof. intros HP s s' Hs [a Ha]. exists a. by eapply HP. Qed.

Lemma set_world_id (s : Wk) : set_world (k_world s) s = s.
Proof. by destruct s. Qed.

Lemma wt_store_call {A} (f : WkEnv -> nat -> Wk -> result StoreError A * World) P Q :
  stable P ->
  (forall n s r w, P s -> f e n s = (r, w) ->
     wk_step s (set_world w s) /\ match r with Ok a => Q a (set_world w s) | Err _ => True end) ->
  wtriple P (store_call f) Q.
Proof.
  intros HP Hf n s r n' s' Hn Hs. unfold store_call. cbn [fst snd].
  assert (Hq : wk_step s (v_others e n s)) by apply quiet_step, others.
  destruct (v_fault e n); [intros [= <- <- <-]; split; [lia|done]|].
  destruct (f e n (v_others e n s)) as [r1 w] eqn:Hr. intros [= <- <- <-].
  destruct (Hf _ _ _ _ (HP _ _ Hq Hs) Hr) as [Hst HQ]. split_and!; [lia|by etrans|]. by destruct r1.
Qed.

Lemma wt_get {A} (f : Db -> A) P : stable P -> wtriple P (store_get f) (fun a s => P s /\ a = f (db s)).
Proof.
  intros HP. apply wt_store_call; [done|]. intros n s r w Hs [= <- <-]. rewrite set_world_id. by split.
Qed.

Lemma step_same_db s w : w_db w = db s -> wk_step s (set_world w s).
Proof.
  intros Hw. split; unfold db in *; cbn; rewrite ?Hw; [constructor|done|done|]. exists []. by rewrite app_nil_r.
Qed.

Lemma wt_integrity P : stable P -> wtriple P integrity (fun _ => P).
Proof.
  intros HP. apply wt_store_call; [done|]. intros n s r w Hs Hv. apply acknowledge_db in Hv.
  assert (Hst : wk_step s (set_world w s)) by (by apply step_same_db). split; [done|]. destruct r; [by eapply HP|done].
Qed.

(** A transaction that is one of the store's requests. *)
Lemma wt_commit {A} (m : Z -> Tx A) P :
  stable P ->
  (forall now d a d', m now d = Ok (a, d') -> step cfg now d d' /\ lock_kept id d d') ->
  wtriple P (commit m) (fun a s' => P s' /\ exists now d, m now d = Ok (a, db s')).
Proof.
  intros HP Hm. apply wt_store_call; [done|]. intros n s r w Hs Hr.
  assert (Hst : wk_step s (set_world w s)).
  { destruct (run_tx_db _ _ _ _ _ Hr) as [Hd|(a & Hd)]; [by apply step_same_db|].
    apply Hm in Hd as [Hd Hk]. split; [|done|done|exists []; by rewrite app_nil_r].
    eapply history_step; [exact Hd|constructor]. }
  split; [done|]. destruct r as [a|]; [|done]. split; [by eapply HP|].
  apply run_tx_ok in Hr as (d' & Hd & Ha). apply acknowledge_db in Ha. exists (k_now s), (db s).
  unfold db. cbn. by rewrite Ha.
Qed.

(** What the provider promises of a successful call. *)
Definition call_done (c : Call) (zone : Zone) : Prop :=
  match c with
  | PublishName records => serves zone records
  | SetChallenge hostname values => challenge_is zone hostname values
  | RetireName hostname => name_gone zone hostname
  | RetireChallenge hostname => challenge_is zone hostname []
  end.
(** A call of the attempt that began in [s0] succeeded. *)
Definition was_done (s0 : Wk) (c : Call) (s : Wk) : Prop :=
  exists new ev, k_log s = k_log s0 ++ new /\ ev ∈ new /\ ev_call ev = c /\ ev_ok ev = true /\ call_done c (ev_zone ev).

Lemma was_done_stable s0 c : stable (was_done s0 c).
Proof.
  intros s s' [_ _ _ (more & Hl & _)] (new & ev & Hn & Hin & ?). exists (new ++ more), ev.
  split_and!; [by rewrite Hl, Hn, app_assoc|rewrite elem_of_app; by left|tauto..].
Qed.

Lemma run_call_done c p p' : run_call c p = (Ok tt, p') -> call_done c p'.
Proof.
  destruct c; cbn; [apply publish_serves|apply set_challenge_exact|apply retire_name_gone|apply retire_challenge_gone].
Qed.

Lemma wt_provider s0 c P :
  stable P -> (forall s, P s -> wk_step s0 s) ->
  (forall s ok p, P s -> call_allowed id {| ev_call := c; ev_ok := ok; ev_db := db s; ev_zone := p |}) ->
  wtriple P (provider_call c) (fun _ s => P s /\ was_done s0 c s).
Proof.
  intros HP Hbegan Hc n s r n' s' Hn Hs. unfold provider_call. cbn [fst snd].
  assert (Hq : wk_step s (v_others e n s)) by apply quiet_step, others.
  destruct (run_call c (k_provider (v_others e n s))) as [r1 p] eqn:Hr. intros [= <- <- <-].
  assert (Hst : wk_step (v_others e n s) (called c (is_ok r1) p (v_others e n s))).
  { split; [constructor|done|done|]. eexists. split; [done|]. constructor; [|constructor]. apply Hc. by eapply HP. }
  split_and!; [lia|by etrans|]. destruct r1 as [[]|]; [|done]. split; [by apply (HP (v_others e n s)), (HP s)|].
  destruct (ws_log _ _ (Hbegan _ (HP _ _ Hq Hs))) as (new & Hl & _).
  exists (new ++ [{| ev_call := c; ev_ok := true; ev_db := db (v_others e n s); ev_zone := p |}]), {| ev_call := c; ev_ok := true; ev_db := db (v_others e n s); ev_zone := p |}.
  split_and!; [by cbn; rewrite Hl, app_assoc|rewrite elem_of_app; right; by apply list_elem_of_singleton|done|done|by eapply run_call_done].
Qed.

Lemma wt_observe m P :
  stable P -> (forall built, forward (m built)) ->
  wtriple P (observe m) (fun b s => P s /\
    (b = true -> exists built n n', (lo <= n)%nat /\ m built (v_net e) n = (Ok true, n'))).
Proof.
  intros HP Hfw n s r n' s' Hn Hs. unfold observe. cbn [fst snd]. pose proof (Hfw (v_built e n) (v_net e) n) as Hle.
  destruct (m (v_built e n) (v_net e) n) as [r1 n1] eqn:Hm. intros [= <- <- <-].
  assert (Hq : wk_step s (v_others e n1 s)) by apply quiet_step, others.
  cbn in Hle. split_and!; [lia|done|]. destruct r1 as [b|]; [|done]. split; [by eapply HP|]. intros ->. by exists (v_built e n), n, n1.
Qed.

Lemma wt_fenced s0 c P :
  stable P -> (forall s, P s -> wk_step s0 s) ->
  (forall s ok p, P s -> call_allowed id {| ev_call := c; ev_ok := ok; ev_db := db s; ev_zone := p |}) ->
  wtriple P (fenced_call c) (fun _ s => P s /\ was_done s0 c s).
Proof.
  intros HP Hbegan Hc. eapply wt_bind; [by apply wt_integrity|]. intros [].
  eapply wt_bind; [by apply wt_provider|]. intros []. apply (wt_integrity (fun s => P s /\ was_done s0 c s)).
  apply wstable_and; [done|apply was_done_stable].
Qed.

(** ** The jobs *)
Lemma lock_kept_same d d' : d_installations d' = d_installations d -> lock_kept id d d'.
Proof. intros Heq row Hrow. exists row. by rewrite Heq. Qed.

Lemma mark_ready_step now d u d' :
  mark_dns_ready_tx now id d = Ok (u, d') -> step cfg now d d' /\ lock_kept id d d'.
Proof.
  intros Hm. split; [exists (MarkDnsReady id); by destruct u|].
  apply mark_dns_ready_tx_ok in Hm as [-> | (row & Hrow & Hst & _ & ->)]; [done|].
  intros row' Hrow'. rewrite Hrow in Hrow'. injection Hrow' as <-. cbn. rewrite lookup_insert_eq. eexists. done.
Qed.

Lemma mark_reconciled_step rev now d b d' :
  is_u64 rev -> mark_challenge_reconciled_tx id rev d = Ok (b, d') -> step cfg now d d' /\ lock_kept id d d'.
Proof.
  intros Hr Hm. split.
  - exists (MarkChallengeReconciled id rev). split; [done|]. cbn. unfold void, mbind, tx_bind. by rewrite Hm.
  - unfold mark_challenge_reconciled_tx in Hm. inv_ok; by apply lock_kept_same.
Qed.

(** Something was so at a moment of the attempt that began in [s0]. *)
Definition between (s0 : Wk) (X : Db -> Prop) (s : Wk) : Prop := exists s1, wk_step s0 s1 /\ wk_step s1 s /\ X (db s1).

Lemma between_stable s0 X : stable (between s0 X).
Proof. intros s s' Hs (s1 & ? & ? & ?). exists s1. split_and!; [done|by etrans|done]. Qed.
Lemma began_stable s0 : stable (wk_step s0).
Proof. intros s s' Hs ?. by etrans. Qed.
Lemma between_began s0 X s : between s0 X s -> wk_step s0 s.
Proof. intros (s1 & ? & ? & _). by etrans. Qed.
Lemma between_now s0 (X : Db -> Prop) s : wk_step s0 s -> X (db s) -> between s0 X s.
Proof. intros Hs HX. by exists s. Qed.

Definition records_of (h uri : string) : NameRecords :=
  {| nr_hostname := h; nr_addresses := ingress; nr_acme_account_uri := uri |}.
Definition dns_ready (d : Db) : Prop := exists row, d_installations d !! id = Some row /\ i_state row = DnsReady.

(** Why a publication was complete: there was nothing to publish, or the
    records were written, seen on both resolvers, and the installation is
    ready. *)
Definition publish_done (s0 : Wk) (done : bool) (s : Wk) : Prop := done = true ->
  between s0 (fun d => dns_identity id d = None) s \/
  exists h uri, between s0 (fun d => dns_identity id d = Some (h, uri, placement)) s /\
    was_done s0 (PublishName (records_of h uri)) s /\
    (exists n n', (lo <= n)%nat /\ name_seen (v_net e) n n' (records_of h uri)) /\
    dns_ready (db s).

Lemma live_as_ready h now d u s : mark_dns_ready_tx now id d = Ok (u, db s) -> live_as h s -> dns_ready (db s).
Proof.
  intros Hm (_ & uri & Hi). unfold dns_identity, select_installation in Hi.
  destruct (d_installations (db s) !! id) as [row'|] eqn:Hrow'; [|done]. cbn in Hi.
  destruct (not_retired row') eqn:Hnr; [|done]. apply not_retired_true in Hnr. cbn in Hi.
  exists row'. split; [done|].
  pose proof Hm as Hok. apply mark_dns_ready_tx_ok in Hok as [Heq | (row & Hrow & _ & _ & Heq)].
  - destruct (i_state row') eqn:Hs; [exfalso|done|done]. rewrite <- Heq in Hm.
    unfold mark_dns_ready_tx in Hm. apply tx_bind_ok in Hm as (o & d1 & Hu & Hw).
    unfold update_installation in Hu. rewrite Hrow' in Hu. cbn in Hu.
    unfold pending_with_account in Hu. rewrite Hs in Hu. destruct (i_acme_account_uri row'); [|done].
    cbn in Hu. rewrite !bool_decide_true in Hu by done. injection Hu as <- <-. cbn in Hw.
    apply insert_audit_ok in Hw as (_ & _ & Hd). rewrite Hd in Hrow'. cbn in Hrow'.
    rewrite lookup_insert_eq in Hrow'. apply Some_inj', (f_equal i_state) in Hrow'. cbn in Hrow'. congruence.
  - rewrite Heq in Hrow'. cbn in Hrow'. rewrite lookup_insert_eq in Hrow'. by injection Hrow' as <-.
Qed.

Lemma wt_publish s0 :
  scope = Serving -> k_held s0 = Some id -> wtriple (wk_step s0) (process_publish placement ingress id) (publish_done s0).
Proof.
  intros Hsc Hheld. unfold process_publish.
  eapply wt_bind; [apply wt_get, began_stable|]. intros [[[h uri] at_]|]; cbn beta iota.
  2: { apply wt_ret. intros s [Hs Hi] _. left. by apply between_now. }
  case_bool_decide as Hp; cbn [negb]; [subst at_|by apply wt_ret].
  pose (P := fun s => live_as h s /\ between s0 (fun d => dns_identity id d = Some (h, uri, placement)) s).
  assert (HP : stable P) by (apply wstable_and; [apply live_as_stable|apply between_stable]).
  apply (wt_pre P).
  { intros s [Hs Hi]. split; [|by apply between_now]. split; [by rewrite (ws_held _ _ Hs)|by exists uri]. }
  eapply wt_bind; [apply (wt_fenced s0 (PublishName (records_of h uri)) P); [done|by intros s [_ Hb]; eapply between_began|]|].
  { intros s ok p [(_ & uri' & Hi) _]. split_and!; [done|done|]. by exists uri'. }
  intros []. eapply wt_bind; [apply wt_observe; [apply wstable_and; [done|apply was_done_stable]|intros; apply forward_name_visible]|].
  intros [|]; cbn [negb]; [|by apply wt_ret]. cbn beta.
  eapply wt_bind; [eapply wt_commit; [|intros now d a d'; apply mark_ready_step]|].
  { apply wstable_and; [apply wstable_and; [done|apply was_done_stable]|apply stable_pure]. }
  intros []. apply wt_ret. intros s ((([Hl Hb] & Hw) & Hsee) & now & d & Hm) _. right.
  destruct (Hsee eq_refl) as (built & n & n' & Hlo & Hv%name_visible_sound).
  exists h, uri. split_and!; [done|done|by exists n, n'|by eapply live_as_ready].
Qed.

(** Why a reconciliation was complete: there was nothing to publish, or the
    set of a revision was written, seen on both resolvers, and recorded. *)
Definition reconcile_done (s0 : Wk) (done : bool) (s : Wk) : Prop := done = true ->
  between s0 (fun d => dns_identity id d = None) s \/
  exists h rev values, live_as h s /\ between s0 (fun d => challenge_target id d = (rev, values)) s /\
    was_done s0 (SetChallenge h values) s /\ (exists n n', (lo <= n)%nat /\ values_seen (v_net e) n n' h values) /\
    exists d b, mark_challenge_reconciled_tx id rev d = Ok (b, db s).

Lemma challenge_target_u64 d : is_u64 (challenge_target id d).1.
Proof. unfold challenge_target, is_u64, i64_as_u64, u64_max. cbn [fst]. pose proof (Z.mod_pos_bound (default 0 (s_revision <$> d_challenge_state d !! id)) (2 ^ 64) ltac:(lia)). lia. Qed.

Lemma wt_reconcile s0 :
  scope = Challenge -> k_held s0 = Some id -> wtriple (wk_step s0) (process_reconcile placement id) (reconcile_done s0).
Proof.
  intros Hsc Hheld. unfold process_reconcile.
  eapply wt_bind; [apply wt_get, began_stable|]. intros [[[h uri] at_]|]; cbn beta iota.
  2: { apply wt_ret. intros s [Hs Hi] _. left. by apply between_now. }
  case_bool_decide as Hp; cbn [negb]; [subst at_|by apply wt_ret].
  apply (wt_pre (fun s => wk_step s0 s /\ live_as h s)); [|].
  { intros s [Hs Hi]. split; [done|]. split; [by rewrite (ws_held _ _ Hs)|by exists uri]. }
  eapply wt_bind; [apply wt_get, wstable_and; [apply began_stable|apply live_as_stable]|].
  intros [rev values]. cbn [fst snd].
  pose (P := fun s => (live_as h s /\ between s0 (fun d => challenge_target id d = (rev, values)) s) /\ is_u64 rev).
  assert (HP : stable P) by (apply wstable_and; [apply wstable_and; [apply live_as_stable|apply between_stable]|apply stable_pure]).
  apply (wt_pre P).
  { intros s [[Hs Hi] Ht]. split; [split; [done|by apply between_now]|]. pose proof (challenge_target_u64 (db s)) as Hu.
    by rewrite <- Ht in Hu. }
  eapply wt_bind; [apply (wt_fenced s0 (SetChallenge h values) P); [done|by intros s [[_ Hb] _]; eapply between_began|]|].
  { intros s ok p [[(_ & uri' & Hi) _] _]. split; [done|]. by exists uri'. }
  intros []. eapply wt_bind; [apply wt_observe; [apply wstable_and; [done|apply was_done_stable]|intros; apply forward_values_visible]|].
  intros [|]; cbn [negb]; [|by apply wt_ret]. cbn beta.
  destruct (decide (is_u64 rev)) as [Hr|Hr]; [|by intros n s r n' s' _ [[[_ ?] _] _]].
  eapply wt_bind; [eapply wt_commit; [|intros now d a d'; by apply mark_reconciled_step]|].
  { apply wstable_and; [apply wstable_and; [done|apply was_done_stable]|apply stable_pure]. }
  intros b. apply wt_ret. intros s (([[[Hl Hb] _] Hw] & Hsee) & now & d & Hm) _. right.
  destruct (Hsee eq_refl) as (built & n & n' & Hlo & Hv%challenge_values_visible_sound).
  exists h, rev, values. split_and!; [done|done|done|by exists n, n'|by exists d, b].
Qed.

(** Why a removal was complete: the installation is not retired, or its
    records were deleted and seen to be gone. *)
Definition remove_done (s0 : Wk) (call : string -> Call) (gone : string -> Prop) (done : bool) (s : Wk) : Prop :=
  done = true ->
  between s0 (fun d => retired_hostname id d = None) s \/
  exists h, retired_as h s /\ was_done s0 (call h) s /\ gone h.

Lemma wt_remove s0 call absent (gone : string -> Prop) :
  (forall h s ok p, retired_as h s -> call_allowed id {| ev_call := call h; ev_ok := ok; ev_db := db s; ev_zone := p |}) ->
  (forall built h, forward (absent built h)) ->
  (forall built h n n', (lo <= n)%nat -> absent built h (v_net e) n = (Ok true, n') -> gone h) ->
  wtriple (wk_step s0) (process_remove id call absent) (remove_done s0 call gone).
Proof.
  intros Hcall Hfw Habs. unfold process_remove.
  eapply wt_bind; [apply wt_get, began_stable|]. intros [h|]; cbn beta iota.
  2: { apply wt_ret. intros s [Hs Hi] _. left. by apply between_now. }
  pose (P := fun s => wk_step s0 s /\ retired_as h s).
  assert (HP : stable P) by (apply wstable_and; [apply began_stable|apply retired_as_stable]).
  apply (wt_pre P); [by intros s [? Hi]|].
  eapply wt_bind; [apply (wt_fenced s0 (call h) P); [done|by intros s [? _]|by intros s ok p [_ ?]; apply Hcall]|].
  intros []. eapply wt_post; [|apply wt_observe; [apply wstable_and; [exact HP|apply was_done_stable]|intros; apply Hfw]].
  intros b s [[[_ Hret] Hw] Hsee] ->. right.
  destruct (Hsee eq_refl) as (built & m & m' & Hlo & Hv). exists h. split_and!; [done|done|by eapply Habs].
Qed.

(** Why a job was complete, by its kind; there are no other kinds. *)
Definition job_done (kind : string) (s0 s : Wk) : Prop :=
  (kind = "publish_name"%string /\ publish_done s0 true s) \/
  (kind = "reconcile_txt"%string /\ reconcile_done s0 true s) \/
  (kind = "remove_records"%string /\
     remove_done s0 RetireName (fun h => exists n n', (lo <= n)%nat /\ name_unseen (v_net e) n n' h) true s) \/
  (kind = "remove_txt_all"%string /\
     remove_done s0 RetireChallenge (fun h => exists name n n', (lo <= n)%nat /\ challenge_name h = Ok name /\
       both_saw (v_net e) n n' (name +:+ ".") TypeTXT absent_answer) true s).

Lemma allowed_scope (sc : DnsJobScope) kind :
  job_allowed sc kind = true ->
  (kind = "publish_name"%string -> sc = Serving) /\ (kind = "remove_records"%string -> sc = Serving) /\
  (kind = "reconcile_txt"%string -> sc = Challenge) /\ (kind = "remove_txt_all"%string -> sc = Challenge).
Proof. intros Ha. split_and!; intros ->; by destruct sc. Qed.

Lemma wt_process job s0 :
  x_installation_id job = id -> k_held s0 = Some id ->
  wtriple (wk_step s0) (process scope placement ingress job)
    (fun done s => done = true -> job_done (x_kind job) s0 s).
Proof.
  intros Hid Hheld. unfold process. rewrite Hid.
  destruct (job_allowed scope (x_kind job)) eqn:Ha; cbn [negb].
  2: { by intros n s r n' s' _ Hs [= <- <- <-]. }
  destruct (allowed_scope _ _ Ha) as (S1 & S2 & S3 & S4).
  repeat case_bool_decide; [..|by apply wt_ret].
  - eapply wt_post; [|apply wt_publish; auto]. intros done s Hd ->. by left.
  - eapply wt_post; [|apply wt_reconcile; auto]. intros done s Hd ->. right. by left.
  - eapply wt_post; [|eapply wt_remove; [|intros; apply forward_name_absent|]].
    + intros done s Hd ->. do 2 right. left. split; [done|exact Hd].
    + intros h s ok p Hr. split; [by apply S2|done].
    + intros built h n n' Hlo Hv. exists n, n'. split; [done|]. by eapply name_absent_sound.
  - eapply wt_post; [|eapply wt_remove; [|intros; apply forward_challenge_absent|]].
    + intros done s Hd ->. do 3 right. split; [done|exact Hd].
    + intros h s ok p Hr. split; [by apply S4|done].
    + intros built h n n' Hlo (name & Hn & Hv)%challenge_absent_sound. by exists name, n, n'.
Qed.
End worker_facts.

(** ** Turns of the loop *)
Section worker_turns.
Context {St3 : S3} {Cr : Crypto} {B32 : Base32} {B32L : Base32Law} {Zone : Type} {Pr : Provider Zone} {PrL : ProviderLaws Zone}.
Context (cfg : StoreConfig) (scope : DnsJobScope) (placement : string) (ingress : list IpAddr).
Context (e : WkEnv (Zone := Zone)) (others : forall n s, quiet cfg s (v_others e n s)).
Local Abbreviation Wk := (DnsWorker.Wk (Zone := Zone)).

(** The calls of a turn, each for some installation. *)
Definition calls_allowed (s s' : Wk) : Prop :=
  exists new, k_log s' = k_log s ++ new /\
    Forall (fun ev => exists id, call_allowed scope placement ingress id ev) new.

#[local] Instance calls_allowed_preorder : PreOrder calls_allowed.
Proof.
  split; [intros s; exists []; by rewrite app_nil_r|].
  intros a b c (n1 & E1 & F1) (n2 & E2 & F2). exists (n1 ++ n2). rewrite E2, E1, app_assoc. split; [done|].
  by apply Forall_app.
Qed.

Lemma store_call_log {A} (f : WkEnv -> nat -> Wk -> result StoreError A * World) s r s' :
  store_call f e s = (r, s') -> k_log s'.2 = k_log s.2.
Proof.
  unfold store_call. pose proof (others s.1 s.2) as [_ _ _ Hl]. destruct (v_fault e s.1); [by intros [= <- <-]|].
  destruct (f e s.1 _). by intros [= <- <-].
Qed.

Lemma record_ok m job n s u n' s' :
  record m job e (n, s) = (Ok u, (n', s')) ->
  exists now d, history cfg (k_now s) (db s) now d /\ m now (x_id job) d = Ok (u, db s').
Proof.
  unfold record, store_call. cbn [fst snd]. destruct (v_fault e n); [done|]. unfold record_attempt.
  pose proof (q_history _ _ _ (others n s)) as Hq.
  destruct (verify_integrity (v_ack e n) _) as [[[]|] w1] eqn:Hv; [|done]. apply acknowledge_db in Hv.
  destruct (run_tx _ _ w1) as [[u'|] w2] eqn:Hr; [|done]. intros [= <- <- <-].
  apply run_tx_ok in Hr as (d' & Hm & Ha). apply acknowledge_db in Ha. exists (k_now (v_others e n s)), (w_db w1).
  split; [by rewrite Hv|]. unfold db. cbn. by rewrite Ha.
Qed.

(** A claimed job is in the outbox and due. *)
Lemma claim_ok n s job n' s' :
  claim scope placement e (n, s) = (Ok (Some job), (n', s')) ->
  job ∈ d_outbox (db s') /\ due (k_now s') placement scope (db s') job = true.
Proof.
  unfold claim, store_call. cbn [fst snd]. destruct (v_fault e n); [done|]. unfold claim_job.
  destruct (select_job _ _ _ _ _) as [x|] eqn:Hs; [|done].
  destruct (acknowledge _ _) as [[[]|] w1] eqn:Ha; cbn; [|done]. apply acknowledge_db in Ha. intros [= <- <- <-].
  unfold select_job in Hs. apply find_some in Hs as [Hin Hd]. to_prop. unfold db. cbn. rewrite Ha.
  split; [by apply list_elem_of_In|done].
Qed.

(** The attempt of a turn that completed its job: what was claimed, the state
    in which it was processed, and how it was recorded. *)
Definition completed_by (n : nat) (s : Wk) (job : OutboxRow) (n1 : nat) (s1 s2 s' : Wk) : Prop :=
  (exists c, claim scope placement e (n, s) = (Ok (Some job), (n1, c)) /\
     s1 = set_held (Some (x_installation_id job)) c) /\
  job ∈ d_outbox (db s1) /\ due (k_now s1) placement scope (db s1) job = true /\
  (exists n2, process scope placement ingress job e (n1, s1) = (Ok true, (n2, s2))) /\
  (exists now d, history cfg (k_now s2) (db s2) now d /\ complete_tx now (x_id job) d = Ok (tt, db s')) /\
  k_log s' = k_log s2.

Lemma turn_facts n s out n' s' :
  turn scope placement ingress e (n, s) = (out, (n', s')) ->
  calls_allowed s s' /\
  (out = Completed -> exists job n1 s1 s2, completed_by n s job n1 s1 s2 s' /\
     job_done cfg scope placement ingress (x_installation_id job) e n1 (x_kind job) s1 s2).
Proof.
  unfold turn. destruct (claim scope placement e (n, s)) as [[[job|]|err] [n1 s1]] eqn:Hclaim;
    apply store_call_log in Hclaim as Hc; cbn in Hc; [|intros [= <- <- <-]; split; [exists []; by rewrite app_nil_r|done]..].
  set (t1 := set_held (Some (x_installation_id job)) s1).
  destruct (process scope placement ingress job e (n1, t1)) as [r [n2 s2]] eqn:Hp.
  destruct (wt_process cfg scope placement ingress (x_installation_id job) e others n1 job t1 eq_refl eq_refl n1 t1 r n2 s2
    (le_n _) ltac:(apply wk_step_preorder) Hp) as (_ & Hst & Hdone).
  destruct (record _ job e (n2, s2)) as [r' [n3 s3]] eqn:Hr. intros [= <- <- <-].
  pose proof Hr as Hlog. apply store_call_log in Hlog. cbn in Hlog.
  split.
  { destruct Hst as [_ _ _ (new & Hn & Hf)]. exists new. cbn in *. rewrite Hlog, Hn, Hc. split; [done|].
    eapply Forall_impl; [exact Hf|]. intros ev ?. by exists (x_installation_id job). }
  destruct r' as [u|]; [|done]. destruct r as [[|]|]; try done. intros _. exists job, n1, t1, s2.
  split; [|by apply Hdone]. destruct u. apply record_ok in Hr. destruct (claim_ok _ _ _ _ _ Hclaim) as [Hin Hdue].
  split_and!; [by exists s1|done|done|by exists n2|exact Hr|done].
Qed.

(** Every provider call of a worker's life. *)
Lemma run_calls turns n s : calls_allowed s (run turns scope placement ingress e (n, s)).2.
Proof.
  revert n s. induction turns as [|turns IH]; intros n s; cbn [run snd]; [apply calls_allowed_preorder|].
  destruct (turn scope placement ingress e (n, s)) as [out [n' s']] eqn:Ht. apply turn_facts in Ht as [Hc _].
  etrans; [exact Hc|apply IH].
Qed.

(** C26: A worker only ever changes the DNS of installations it may change.
    However many turns it runs and whatever fails, every call it makes to its
    provider is within its scope and is, at the moment of the call, for the
    hostname of an installation that is live at the worker's own placement
    (publications, which use the worker's ingress addresses, and challenge
    changes), or of a retired one (removals). *)
Theorem worker_changes_own_names_only turns n s :
  calls_allowed s (run turns scope placement ingress e (n, s)).2.
Proof. apply run_calls. Qed.

End worker_turns.
