(* ===== verification/ReceiptSigner.v ===== *)
(** * Receipt signer: crates/bloom-relay-control/src/receipt_signer.rs

    The Ed25519 key that signs allocation receipts, local or held by AWS KMS:
    its configuration, the check of the key KMS reports, and the signature
    check before a signature is returned. The Ed25519 and hex libraries are
    the classes [Signing] and [Hex]; a KMS answer is an argument. *)

From Stdlib Require Import Ascii String Strings.Byte.
From stdpp Require Import base strings list gmap.
From S2P Require Import Prelude Protocol.

(** ed25519-dalek's signing half and unpadded base64url encoding. *)
Class Signing `{Crypto} := {
  SigningKey : Type;
  signing_key_from_bytes : list byte -> SigningKey;
  verifying_key : SigningKey -> VerifyingKey;
  ed25519_sign : SigningKey -> list byte -> Signature;
  signature_to_bytes : Signature -> list byte;
  key_to_bytes : VerifyingKey -> list byte;
  base64url_encode : list byte -> string
}.

Class SigningLaws `{Signing} : Prop := {
  signature_roundtrip : forall sig, signature_from_slice (signature_to_bytes sig) = Some sig;
  key_roundtrip : forall key, key_from_bytes (key_to_bytes (verifying_key key)) = Some (verifying_key key);
  key_length : forall key, List.length (key_to_bytes (verifying_key key)) = 32%nat;
  base64url_roundtrip : forall bytes, base64url_decode (base64url_encode bytes) = Some bytes;
  base64url_length : forall bytes, List.length bytes = 32%nat -> str_len (base64url_encode bytes) = 43;
  (** A signature by a key verifies under it. *)
  sign_verifies : forall key message, ed25519_verify (verifying_key key) message (ed25519_sign key message) = true
}.

(** ** [str::trim]: the UTF-8 encodings of the characters of White_Space. *)
Definition WHITE_SPACE : list (list byte) :=
  ((fun b => [b]) <$> [Byte.x09; Byte.x0a; Byte.x0b; Byte.x0c; Byte.x0d; Byte.x20])
  ++ ((fun b => [Byte.xc2; b]) <$> [Byte.x85; Byte.xa0])
  ++ [[Byte.xe1; Byte.x9a; Byte.x80]]
  ++ ((fun b => [Byte.xe2; Byte.x80; b]) <$>
       [Byte.x80; Byte.x81; Byte.x82; Byte.x83; Byte.x84; Byte.x85; Byte.x86; Byte.x87; Byte.x88; Byte.x89; Byte.x8a;
        Byte.xa8; Byte.xa9; Byte.xaf])
  ++ [[Byte.xe2; Byte.x81; Byte.x9f]; [Byte.xe3; Byte.x80; Byte.x80]].

Fixpoint strip_all (fuel : nat) (patterns : list (list byte)) (l : list byte) : list byte :=
  match fuel with
  | O => l
  | S fuel => match head (omap (fun w => list_strip_prefix w l) patterns) with
              | Some rest => strip_all fuel patterns rest
              | None => l
              end
  end.
Definition trim (s : string) : string :=
  let front := strip_all (String.length s) WHITE_SPACE (str_bytes s) in
  string_of_list_byte (reverse (strip_all (String.length s) (reverse <$> WHITE_SPACE) (reverse front))).

(** [str::to_ascii_lowercase]. *)
Definition lowercase (s : string) : string := string_of_list_byte (to_ascii_lowercase <$> str_bytes s).

(** ** Configuration *)
Inductive SignerError :=
| NotKeyArn
| KmsFailed
| WrongKeySpec
| NoPublicKey
| NotSubjectPublicKeyInfo
| BadPublicKey
| KeyPathUnset
| KeyUnreadable
| SeedLength
| UnexpectedPublicKey
| SignFailed
| NoSignature
| BadSignature.

Definition ED25519_SPKI_PREFIX : list byte :=
  [Byte.x30; Byte.x2a; Byte.x30; Byte.x05; Byte.x06; Byte.x03; Byte.x2b; Byte.x65; Byte.x70; Byte.x03; Byte.x21; Byte.x00].

Definition ARN_SEPARATOR : byte := Byte.x3a.

(** The region of a key ARN. *)
Definition kms_region (key_arn : string) : result SignerError string :=
  match string_of_list_byte <$> split_on ARN_SEPARATOR (str_bytes key_arn) with
  | [arn; _; kms; region; _; key] =>
      if bool_decide (arn = "arn"%string) && bool_decide (kms = "kms"%string)
         && negb (bool_decide (region = ""%string)) && starts_with "key/" key
      then Ok region else Err NotKeyArn
  | _ => Err NotKeyArn
  end.

(** What KMS GetPublicKey answers. *)
Inductive KeySpec := EccNistEdwards25519 | OtherSpec.
Inductive KeyUsage := SignVerify | OtherUsage.
#[global] Instance KeySpec_eq_dec : EqDecision KeySpec.
Proof. solve_decision. Defined.
#[global] Instance KeyUsage_eq_dec : EqDecision KeyUsage.
Proof. solve_decision. Defined.
Record GetPublicKeyOutput := {
  gp_key_spec : option KeySpec;
  gp_key_usage : option KeyUsage;
  gp_public_key : option (list byte)
}.

Section signer.
Context `{Signing}.

Inductive ReceiptSigner :=
| Local (key : SigningKey)
| Kms (key_arn : string) (public : VerifyingKey).

(** [ReceiptSigner::kms]; [None] is a failed call. *)
Definition signer_kms (answer : option GetPublicKeyOutput) (key_arn : string) : result SignerError ReceiptSigner :=
  output ← ok_or KmsFailed answer;
  if negb (bool_decide (gp_key_spec output = Some EccNistEdwards25519))
     || negb (bool_decide (gp_key_usage output = Some SignVerify))
  then Err WrongKeySpec
  else
    der ← ok_or NoPublicKey (gp_public_key output);
    raw ← ok_or NotSubjectPublicKeyInfo (list_strip_prefix ED25519_SPKI_PREFIX der);
    if negb (bool_decide (List.length raw = 32%nat)) then Err NotSubjectPublicKeyInfo
    else
      public ← ok_or BadPublicKey (key_from_bytes raw);
      Ok (Kms key_arn public).

Definition public_key (signer : ReceiptSigner) : VerifyingKey :=
  match signer with Local key => verifying_key key | Kms _ public => public end.

(** [env::var(..).ok().filter(|v| !v.is_empty())]. *)
Definition set_value (var : EnvVar) : option string :=
  match var with Value s => if bool_decide (s = ""%string) then None else Some s | _ => None end.

(** [ReceiptSigner::from_env], given the three variables, the contents of the
    key file and KMS's answers for a key in a region. *)
Definition signer_from_env (kms_key key_path expected_public : EnvVar) (read : string -> option (list byte))
    (get_public_key : string -> string -> option GetPublicKeyOutput) : result SignerError ReceiptSigner :=
  signer ← match set_value kms_key with
    | Some key_arn => region ← kms_region key_arn; signer_kms (get_public_key region key_arn) key_arn
    | None =>
        path ← match key_path with Value path => Ok path | _ => Err KeyPathUnset end;
        bytes ← ok_or KeyUnreadable (read path);
        if negb (bool_decide (List.length bytes = 32%nat)) then Err SeedLength
        else Ok (Local (signing_key_from_bytes bytes))
    end;
  match set_value expected_public with
  | Some expected =>
      if negb (bool_decide (hex_encode (key_to_bytes (public_key signer)) = lowercase (trim expected)))
      then Err UnexpectedPublicKey else Ok signer
  | None => Ok signer
  end.

(** [ReceiptSigner::sign]: KMS's answer is [None] when the call fails, and may
    hold no signature. *)
Definition sign (signer : ReceiptSigner) (answer : option (option (list byte))) (message : list byte) :
    result SignerError (list byte) :=
  signature ← match signer with
    | Local key => Ok (ed25519_sign key message)
    | Kms _ _ =>
        output ← ok_or SignFailed answer;
        bytes ← ok_or NoSignature output;
        ok_or BadSignature (signature_from_slice bytes)
    end;
  if ed25519_verify (public_key signer) message signature then Ok (signature_to_bytes signature) else Err BadSignature.

(** ** Facts *)
Lemma sign_ok signer answer message bytes :
  sign signer answer message = Ok bytes ->
  exists signature, bytes = signature_to_bytes signature /\ ed25519_verify (public_key signer) message signature = true.
Proof.
  unfold sign. intros Hs. apply bind_ok in Hs as (signature & _ & Hs).
  destruct (ed25519_verify _ _ _) eqn:Hv; [|done]. injection Hs as <-. eauto.
Qed.

Lemma sign_local `{!SigningLaws} key answer message :
  sign (Local key) answer message = Ok (signature_to_bytes (ed25519_sign key message)).
Proof. unfold sign. cbn. by rewrite sign_verifies. Qed.

(** The key of a configured signer is the expected one. *)
Lemma signer_from_env_pinned kms_key key_path expected read get_public_key signer :
  signer_from_env kms_key key_path (Value expected) read get_public_key = Ok signer -> expected <> ""%string ->
  hex_encode (key_to_bytes (public_key signer)) = lowercase (trim expected).
Proof.
  unfold signer_from_env. intros Hf Hne. apply bind_ok in Hf as (s & _ & Hf). cbn in Hf.
  rewrite bool_decide_false in Hf by done. by case_bool_decide; inv_ok.
Qed.
End signer.
