(* ===== verification/ControlApi.v ===== *)
(** * Control API: crates/bloom-relay-control/src/main.rs

    The handlers of the control API over the store, the witness and the
    receipt signer. A handler is a computation of [ApM]: at every await other
    processes run ([n_others]), a store call may not reach the database or
    lose its reply ([n_fault]), and the acknowledgements, clocks, random bytes
    and KMS answers are the environment's. [p_log] is auxiliary: the store
    transactions this handler ran, each with the database before and after.
    A request arrives decoded here; [ControlHttp] has the routes and the
    extraction in front of the handlers. *)

From Stdlib Require Import Ascii String Strings.Byte.
From stdpp Require Import base strings list gmap.
From S2P Require Import Prelude Protocol Db Witness Store StoreCredentials StoreChallenges.
From S2P Require Import StoreLifecycle StoreBootstrap StoreCt StoreHistory ReceiptSigner.

(** The hex crate. *)
Class Hex := hex_decode : string -> option (list byte).

(** ** Errors *)
Record ApiError := { e_status : Z; e_code : ErrorCode; e_retryable : bool }.

Definition unauthorized : ApiError := {| e_status := 401; e_code := CodeUnauthorized; e_retryable := false |}.
Definition unavailable : ApiError := {| e_status := 503; e_code := CodeDependencyUnavailable; e_retryable := true |}.
Definition invalid : ApiError := {| e_status := 400; e_code := CodeInvalidRequest; e_retryable := false |}.
Definition conflict (retryable : bool) : ApiError :=
  {| e_status := 409; e_code := CodeConflict; e_retryable := retryable |}.
Definition replayed : ApiError := {| e_status := 410; e_code := CodeExpiredOrReplayed; e_retryable := false |}.
Definition quota_exceeded : ApiError := {| e_status := 429; e_code := CodeQuotaExceeded; e_retryable := true |}.

(** ** Configuration *)
Definition parse_acme_environment (configured : option string) : result ProtocolError AcmeEnvironment :=
  acme_from_str (default "production"%string configured).

Definition acme_environment_from_env (configured : EnvVar) : result ProtocolError AcmeEnvironment :=
  match configured with
  | Value value => parse_acme_environment (Some value)
  | NotPresent => parse_acme_environment None
  | NotUnicode => Err InvalidAcmeEnvironment
  end.

Inductive WindowError := NotSeconds | NotAscii | OutOfRange.

(** A [Duration] of whole seconds. *)
Definition window_seconds (value : EnvVar) (default : Duration) : result WindowError Duration :=
  match value with
  | NotPresent => Ok default
  | Value raw => n ← ok_or NotSeconds (parse_u64 (str_bytes raw)); Ok (from_secs n)
  | NotUnicode => Err NotAscii
  end.

Definition credential_windows_from_env (validity_var renewal_grace_var : EnvVar) :
    result WindowError CredentialWindows :=
  validity_ ← window_seconds validity_var (validity default_windows);
  renewal_grace_ ← window_seconds renewal_grace_var (renewal_grace default_windows);
  map_err (fun _ => OutOfRange) (credential_windows validity_ renewal_grace_).

(** ** Computations *)

(** A store call that never reached the database, or whose reply was lost. *)
Inductive Fault := NotSent | ReplyLost.

Record Entry := { l_request : Request; l_now : Z; l_before : Db; l_after : Db }.
(** The request headers that are present and readable as text. *)
Record HeaderMap := { hm_authorization : option string; hm_installation : option string }.

Section api.
Context `{S3} `{Signing} `{Serde} `{Base32} `{Hex}.

Record Api := { p_now : Z; p_world : World; p_log : list Entry }.

Definition api_db (s : Api) : Db := w_db (p_world s).

Record ApiEnv := {
  n_others : nat -> Api -> Api;
  n_fault : nat -> option Fault;
  n_ack : nat -> AckEnv;
  n_clock : nat -> Z;
  n_nonce : nat -> list byte;
  n_uuid : nat -> Uuid;
  n_label : nat -> list byte;
  n_kms : nat -> list byte -> option (option (list byte))
}.

Definition ApM (A : Type) : Type := ApiEnv -> nat * Api -> result ApiError A * (nat * Api).
#[global] Instance ap_ret : MRet ApM := fun _ a _ s => (Ok a, s).
#[global] Instance ap_bind : MBind ApM := fun _ _ f m e s =>
  match m e s with (Ok a, s') => f a e s' | (Err err, s') => (Err err, s') end.

Definition ap_lift {A} (r : result ApiError A) : ApM A := fun _ s => (r, s).
Definition ap_some {A} (err : ApiError) (o : option A) : ApM A := ap_lift (ok_or err o).
Definition ap_reject (b : bool) (err : ApiError) : ApM unit := ap_lift (if b then Err err else Ok tt).
Definition now_ms : ApM Z := fun e s => (Ok (n_clock e s.1), (S s.1, s.2)).

Definition logged_as (r : Request) (w : World) (s : Api) : Api :=
  {| p_now := p_now s; p_world := w;
     p_log := p_log s ++ [{| l_request := r; l_now := p_now s; l_before := api_db s; l_after := w_db w |}] |}.

(** A query. *)
Definition query {A} (on_error : StoreError -> ApiError) (f : Z -> Db -> result StoreError A) : ApM A := fun e s =>
  let s1 := n_others e s.1 s.2 in
  (match n_fault e s.1 with
   | Some _ => Err (on_error Unavailable)
   | None => map_err on_error (f (p_now s1) (api_db s1))
   end, (S s.1, s1)).

(** A call that runs the transaction of request [r]. *)
Definition transact {A} (on_error : StoreError -> ApiError) (r : Request)
    (f : AckEnv -> Z -> World -> result StoreError A * World) : ApM A := fun e s =>
  let s1 := n_others e s.1 s.2 in
  match n_fault e s.1 with
  | Some NotSent => (Err (on_error Unavailable), (S s.1, s1))
  | fault =>
      let (res, w) := f (n_ack e s.1) (p_now s1) (p_world s1) in
      (match fault with None => map_err on_error res | Some _ => Err (on_error Unavailable) end,
       (S s.1, logged_as r w s1))
  end.

Definition ack_tx {A} (m : Z -> Tx A) : AckEnv -> Z -> World -> result StoreError A * World :=
  fun ae now w => run_tx ae (m now) w.

(** The service: [AppState], with the store's configuration. *)
Record AppState := {
  st_config : StoreConfig;
  st_signer : ReceiptSigner;
  st_audience : string;
  st_placement : string
}.

(** [main]'s configuration of the service, in its order. *)
Inductive ConfigError :=
| VariableUnset
| WrongAudience
| SignerRefused (error : SignerError)
| BadAcmeEnvironment (error : ProtocolError)
| BadWindows (error : WindowError).

Definition env_var (var : EnvVar) : result ConfigError string :=
  match var with Value s => Ok s | _ => Err VariableUnset end.

Definition configure (audience placement witness_path acme_environment validity renewal_grace : EnvVar)
    (signer : result SignerError ReceiptSigner) : result ConfigError AppState :=
  audience ← env_var audience;
  if negb (bool_decide (audience = "relay-control.bloom.directory"%string)) then Err WrongAudience
  else
    placement ← env_var placement;
    receipt_signer ← map_err SignerRefused signer;
    _ ← env_var witness_path;
    environment ← map_err BadAcmeEnvironment (acme_environment_from_env acme_environment);
    windows ← map_err BadWindows (credential_windows_from_env validity renewal_grace);
    Ok {| st_config := with_credential_windows windows (with_acme_environment environment connect_config);
          st_signer := receipt_signer; st_audience := audience; st_placement := placement |}.

Definition only_unavailable (_ : StoreError) : ApiError := unavailable.
Definition conflict_or_unavailable (error : StoreError) : ApiError :=
  match error with Conflict => conflict false | _ => unavailable end.
Definition invalid_conflict_or_unavailable (error : StoreError) : ApiError :=
  match error with InvalidRequest => invalid | Conflict => conflict false | _ => unavailable end.

Section handlers.
Context (uuid_parse_str : string -> option Uuid) (st : AppState).

(** ** Authentication *)
Definition bearer_header (headers : HeaderMap) : option string :=
  value ← hm_authorization headers; strip_prefix "Bearer " value.

Definition authenticate_dns (headers : HeaderMap) (id : Uuid) (generation : option Z) : ApM Z :=
  bearer ← ap_some unauthorized (bearer_header headers);
  found ← query only_unavailable (fun now d => Ok (authenticate_bearer_with_state now id "dns_challenge" bearer d));
  observed ← ap_lift match found with
    | Some (g, DnsReady) => Ok g
    | Some (_, PendingDns) => Err (conflict true)
    | _ => Err unauthorized
    end;
  _ ← ap_reject (match generation with Some value => negb (value =? observed) | None => false end) unauthorized;
  mret observed.

Definition authorize_admin {T} `{Serialize T} (request : SignedRequest T) (action : Action) : ApM unit :=
  let id := c_installation_id (r_claims request) in
  stored ← query only_unavailable (fun _ d => admin_public_key id d);
  bytes ← ap_some unauthorized stored;
  key ← ap_some unavailable (key_from_bytes bytes);
  body ← ap_some invalid (jcs_to_vec (to_json (r_body request)));
  now ← now_ms;
  _ ← ap_lift (map_err (fun _ => unauthorized)
        (claims_verify (r_claims request) body (r_signature request) key SurfaceAdmin action (st_audience st) now));
  fresh ← transact only_unavailable (ConsumeNonce id (c_nonce (r_claims request)))
            (fun _ now w => consume_nonce now id (c_nonce (r_claims request)) w);
  ap_reject (negb fresh) replayed.

(** ** Installations *)
Definition installation_status (request : SignedRequest InstallationStatusRequest) : ApM Allocation :=
  let id := is_installation_id (r_body request) in
  _ ← ap_reject (negb (bool_decide (id = c_installation_id (r_claims request)))) unauthorized;
  _ ← authorize_admin request InstallationStatus;
  found ← query only_unavailable (fun _ d => Ok (allocation_status id d));
  ap_some unauthorized found.

Definition retire_installation (request : SignedRequest RetireRequest) : ApM Z :=
  let id := rr_installation_id (r_body request) in
  let op := c_operation_id (r_claims request) in
  _ ← ap_reject (negb (bool_decide (id = c_installation_id (r_claims request)))) unauthorized;
  _ ← authorize_admin request RetireInstallation;
  _ ← transact conflict_or_unavailable (Retire id op) (ack_tx (fun now => retire_tx now id op));
  mret 202.

Definition register_acme_account (request : SignedRequest AcmeAccountRequest) : ApM Z :=
  let id := c_installation_id (r_claims request) in
  let uri := aa_account_uri (r_body request) in
  _ ← authorize_admin request RegisterAcmeAccount;
  _ ← transact invalid_conflict_or_unavailable (RegisterAccount id uri)
        (ack_tx (fun now => register_acme_account_tx (st_config st) now id uri));
  mret 202.

(** ** Challenges and certificates *)
Definition ensure_error (error : StoreError) : ApiError :=
  match error with
  | InvalidRequest => invalid
  | Unauthorized => unauthorized
  | Conflict => conflict true
  | _ => unavailable
  end.

Definition ensure_dns_challenge (headers : HeaderMap) (request : DnsChallengeEnsureRequest) : ApM DnsChallengeState :=
  let id := de_installation_id request in
  _ ← ap_reject (negb (de_version request =? WIRE_VERSION)) invalid;
  generation ← authenticate_dns headers id None;
  ensured ← transact ensure_error (EnsureChallengeValue id generation (de_txt_value request))
              (ack_tx (fun now => ensure_challenge_value_tx now id generation (de_txt_value request)));
  mret {| ds_version := WIRE_VERSION; ds_revision := cv_revision ensured;
          ds_expires_at_ms := cv_expires_at_ms ensured |}.

Definition ready_error (error : StoreError) : ApiError :=
  match error with InvalidRequest => invalid | _ => unavailable end.

Definition dns_challenge_ready (id : Uuid) (revision : Z) (value : string) (headers : HeaderMap) : ApM Z :=
  _ ← authenticate_dns headers id None;
  ready ← query ready_error (fun now d => challenge_value_ready now id value revision d);
  mret (if ready : bool then 204 else 202).

Definition record_certificate (headers : HeaderMap) (certificate : CertificateMetadata) : ApM Z :=
  id ← ap_some invalid (value ← hm_installation headers; uuid_parse_str value);
  _ ← authenticate_dns headers id None;
  _ ← transact invalid_conflict_or_unavailable (RecordExpectedCertificate id certificate)
        (ack_tx (fun now => record_expected_certificate_tx now id certificate));
  mret 202.

(** ** Credentials *)
Definition bearer_scope_of (scope : Scope) : option string :=
  match scope with ScopeTunnel => Some "tunnel"%string | ScopeDnsChallenge => Some "dns_challenge"%string | SurfaceAdmin => None end.

(** [hex::decode] into a [[u8; 32]]. *)
Definition digest_of_hex (s : string) : result ApiError (list byte) :=
  hash ← ok_or invalid (hex_decode s);
  if bool_decide (List.length hash = 32%nat) then Ok hash else Err invalid.

Definition renew_error (error : StoreError) : ApiError :=
  match error with Conflict => conflict false | Unauthorized => unauthorized | _ => unavailable end.

Definition renew_credential (headers : HeaderMap) (request : CredentialRenewRequest) : ApM CredentialIssueReceipt :=
  _ ← ap_reject (negb (rn_version request =? WIRE_VERSION)) invalid;
  scope ← ap_some invalid (bearer_scope_of (rn_scope request));
  now1 ← now_ms;
  _ ← ap_reject (rn_expires_at_ms request <=? now1) invalid;
  now2 ← now_ms;
  _ ← ap_reject (u64_saturating_add now2 60000 <? rn_expires_at_ms request) invalid;
  _ ← ap_reject ((str_len (rn_nonce request) <? 16) || (128 <? str_len (rn_nonce request))) invalid;
  bearer ← ap_some unauthorized (bearer_header headers);
  hash ← ap_lift (digest_of_hex (rn_new_token_sha256 request));
  let id := rn_installation_id request in
  let op := rn_operation_id request in
  renewed ← transact renew_error (RenewBearer id op scope (rn_generation request) bearer hash)
              (ack_tx (fun now => renew_bearer_tx (st_config st) now id op scope (rn_generation request) bearer hash));
  mret {| ci_version := WIRE_VERSION; ci_scope := rn_scope request; ci_generation := renewed.1;
          ci_operation_id := op; ci_expires_at_ms := renewed.2 |}.

Definition issue_credential (request : SignedRequest CredentialIssueRequest) : ApM CredentialIssueReceipt :=
  scope ← ap_some invalid (bearer_scope_of (cr_scope (r_body request)));
  _ ← authorize_admin request IssueCredential;
  hash ← ap_lift (digest_of_hex (cr_token_sha256 (r_body request)));
  let id := c_installation_id (r_claims request) in
  let op := c_operation_id (r_claims request) in
  let validity_seconds := u32_as_i32 (cr_validity_seconds (r_body request)) in
  issued ← transact only_unavailable (IssueBearer id op scope hash validity_seconds)
             (ack_tx (fun now => issue_bearer_tx (st_config st) now id op scope hash validity_seconds));
  mret {| ci_version := WIRE_VERSION; ci_scope := cr_scope (r_body request); ci_generation := issued.1;
          ci_operation_id := op; ci_expires_at_ms := issued.2 |}.

(** ** Enrollment *)
Definition random_nonce : ApM (list byte) := fun e s => (Ok (n_nonce e s.1), s).

Definition challenge (source : IpAddr) : ApM BootstrapChallenge :=
  random ← random_nonce;
  let nonce := base64url_encode random in
  created ← transact only_unavailable (CreateBootstrapChallenge nonce source)
              (fun ae now w => create_bootstrap_challenge ae now nonce source w);
  _ ← ap_reject (negb created) quota_exceeded;
  now ← now_ms;
  mret {| bc_version := WIRE_VERSION; bc_nonce := nonce; bc_expires_at_ms := (now + 60000) mod 2 ^ 64 |}.

(** [Store::allocate] draws the identifier and the label's random bytes. *)
Definition allocate (op : Uuid) (key : list byte) : ApM Allocation := fun e s =>
  transact conflict_or_unavailable (Allocate op key (st_placement st) (n_uuid e s.1) (n_label e s.1))
    (ack_tx (fun now => allocate_tx now op key (st_placement st) (n_uuid e s.1) (n_label e s.1))) e s.

Definition sign_receipt (message : list byte) : ApM (list byte) := fun e s =>
  (map_err (fun _ => unavailable) (sign (st_signer st) (n_kms e s.1 message) message), (S s.1, n_others e s.1 s.2)).

Definition enroll_key (request : AllocateRequest) : result ApiError (list byte * VerifyingKey) :=
  bytes ← ok_or invalid (base64url_decode (ar_admin_public_key request));
  if negb (bool_decide (List.length bytes = 32%nat)) then Err invalid
  else key ← ok_or invalid (key_from_bytes bytes); Ok (bytes, key).

Definition receipt_of (allocation : Allocation) (op : Uuid) (key : list byte) (now : Z) (signature : string) : AllocationReceipt :=
  {| rc_allocation := allocation; rc_operation_id := op; rc_admin_key_sha256 := sha256_hex key;
     rc_issued_at_ms := now; rc_signature := signature |}.

Definition enroll (source : IpAddr) (request : SignedRequest AllocateRequest) : ApM AllocationReceipt :=
  let claims := r_claims request in
  let op := ar_operation_id (r_body request) in
  let nonce := ar_bootstrap_nonce (r_body request) in
  key ← ap_lift (enroll_key (r_body request));
  body ← ap_some invalid (jcs_to_vec (to_json (r_body request)));
  _ ← ap_reject (negb (bool_decide (c_installation_id claims = uuid_nil))
                 || negb (bool_decide (c_operation_id claims = op))
                 || negb (bool_decide (c_nonce claims = nonce))) unauthorized;
  now ← now_ms;
  _ ← ap_lift (map_err (fun _ => unauthorized)
        (claims_verify claims body (r_signature request) key.2 SurfaceAdmin Enroll (st_audience st) now));
  consumed ← transact only_unavailable (ConsumeBootstrapChallenge nonce source)
               (fun _ now w => consume_bootstrap_challenge now nonce source w);
  _ ← ap_reject (negb consumed) replayed;
  allocation ← allocate op key.1;
  issued_at ← now_ms;
  message ← ap_lift (map_err (fun _ => unavailable) (signed_bytes (receipt_of allocation op key.1 issued_at "")));
  signature ← sign_receipt message;
  mret (receipt_of allocation op key.1 issued_at (base64url_encode signature)).

(** ** Routes *)
Inductive ApiRequest :=
| PostBootstrapChallenge (source : IpAddr)
| PostEnroll (source : IpAddr) (request : SignedRequest AllocateRequest)
| PostCredentials (request : SignedRequest CredentialIssueRequest)
| PostRenew (headers : HeaderMap) (request : CredentialRenewRequest)
| PostAcmeAccount (request : SignedRequest AcmeAccountRequest)
| PostStatus (request : SignedRequest InstallationStatusRequest)
| PostRetire (request : SignedRequest RetireRequest)
| PostCertificates (headers : HeaderMap) (certificate : CertificateMetadata)
| PostDnsChallenge (headers : HeaderMap) (request : DnsChallengeEnsureRequest)
| GetChallengeReady (id : Uuid) (revision : Z) (value : string) (headers : HeaderMap).

Inductive ApiResponse :=
| StatusOnly (status : Z)
| OfChallenge (body : BootstrapChallenge)
| OfReceipt (body : AllocationReceipt)
| OfCredential (body : CredentialIssueReceipt)
| OfAllocation (body : Allocation)
| OfChallengeState (body : DnsChallengeState).

Definition handle (request : ApiRequest) : ApM ApiResponse :=
  match request with
  | PostBootstrapChallenge source => r ← challenge source; mret (OfChallenge r)
  | PostEnroll source request => r ← enroll source request; mret (OfReceipt r)
  | PostCredentials request => r ← issue_credential request; mret (OfCredential r)
  | PostRenew headers request => r ← renew_credential headers request; mret (OfCredential r)
  | PostAcmeAccount request => r ← register_acme_account request; mret (StatusOnly r)
  | PostStatus request => r ← installation_status request; mret (OfAllocation r)
  | PostRetire request => r ← retire_installation request; mret (StatusOnly r)
  | PostCertificates headers certificate => r ← record_certificate headers certificate; mret (StatusOnly r)
  | PostDnsChallenge headers request => r ← ensure_dns_challenge headers request; mret (OfChallengeState r)
  | GetChallengeReady id revision value headers => r ← dns_challenge_ready id revision value headers; mret (StatusOnly r)
  end.
End handlers.
End api.
