(* ===== verification/ControlLogic.v ===== *)
(** * Reasoning about the control API's handlers

    A handler runs from a state [s0] while the other processes only run store
    requests. [holds] describes a moment of the run: the database has evolved
    by requests since [s0], every transaction the handler ran was authorized
    by the request it serves, and a fact about them and the database. The
    rules of [apt] carry such facts through awaits, store calls and errors. *)

From Stdlib Require Import Ascii String Strings.Byte.
From stdpp Require Import base strings list gmap.
From S2P Require Import Prelude Protocol Db Witness Store StoreCredentials StoreChallenges.
From S2P Require Import StoreLifecycle StoreBootstrap StoreCt StoreHistory StoreInvariant ReceiptSigner ControlApi.

Lemma void_run {A} (m : Tx A) d a d' : m d = Ok (a, d') -> void m d = Ok (tt, d').
Proof. unfold void, mbind, tx_bind. by intros ->. Qed.

Section logic.
Context {St3 : S3} {Cr : Crypto} {Sg : Signing} {Sd : Serde} {B32 : Base32} {HX : Hex}.
Context (cfg : StoreConfig).

(** The other processes between two steps of a handler. *)
Record quiet (s s' : Api) : Prop := {
  q_history : history cfg (p_now s) (api_db s) (p_now s') (api_db s');
  q_log : p_log s' = p_log s
}.

Context (e : ApiEnv) (others : forall n s, quiet s (n_others e n s)).
Context (s0 : Api) (authorized : list Entry -> Entry -> Prop).

(** A transaction is its request on the database it found, or nothing. *)
Definition entry_ran (en : Entry) : Prop :=
  l_after en = l_before en \/ exec cfg (l_now en) (l_request en) (l_before en) = Ok (tt, l_after en).

(** Every transaction is authorized given the earlier ones. *)
Definition log_ok (new : list Entry) : Prop := forall before en after,
  new = before ++ en :: after -> authorized before en /\ entry_ran en.

Lemma log_ok_nil : log_ok [].
Proof. intros [|] en after; done. Qed.

Lemma log_ok_snoc new en : log_ok new -> authorized new en -> entry_ran en -> log_ok (new ++ [en]).
Proof.
  intros Hok Hen Hran before en' after Heq. destruct after as [|x after _] using rev_ind.
  - apply app_inj_tail in Heq as [-> ->]. done.
  - rewrite app_comm_cons, app_assoc in Heq. apply app_inj_tail in Heq as [-> _]. by eapply Hok.
Qed.

(** A transaction that only consumes a nonce or a challenge, or changed
    nothing. *)
Definition consumption (r : Request) : Prop :=
  match r with ConsumeNonce _ _ | ConsumeBootstrapChallenge _ _ => True | _ => False end.
Definition harmless (en : Entry) : Prop := consumption (l_request en) \/ l_after en = l_before en.

Definition Fact : Type := list Entry -> Z -> Db -> Prop.
Definition holds (F : Fact) (s : Api) : Prop :=
  history cfg (p_now s0) (api_db s0) (p_now s) (api_db s) /\
  exists new, p_log s = p_log s0 ++ new /\ log_ok new /\ F new (p_now s) (api_db s).

(** A client error changed nothing but nonces and challenges. *)
Definition refused (err : ApiError) : Fact := fun new _ _ => e_status err < 500 -> Forall harmless new.

Definition stable (F : Fact) : Prop := forall new t d t' d', history cfg t d t' d' -> F new t d -> F new t' d'.

Definition apt {A} (F : Fact) (m : ApM A) (Q : A -> Fact) : Prop := forall n s r n' s',
  holds F s -> m e (n, s) = (r, (n', s')) ->
  match r with Ok a => holds (Q a) s' | Err err => holds (refused err) s' end.

Lemma holds_weaken (F G : Fact) s : (forall new t d, F new t d -> G new t d) -> holds F s -> holds G s.
Proof. intros Himp (Hh & new & Hl & Hok & HF). split; [done|]. exists new. auto. Qed.

Lemma holds_others F n s : stable F -> holds F s -> holds F (n_others e n s).
Proof.
  intros HF (Hh & new & Hl & Hok & Hf). destruct (others n s) as [Hq Hlog].
  split; [by eapply history_trans|]. exists new. rewrite Hlog. split_and!; [done..|by eapply HF].
Qed.

Lemma apt_ret {A} (a : A) (F : Fact) (Q : A -> Fact) :
  (forall new t d, F new t d -> Q a new t d) -> apt F (mret a) Q.
Proof. intros HQ n s r n' s' HF [= <- _ <-]. by eapply holds_weaken. Qed.

Lemma apt_bind {A B} (m : ApM A) (f : A -> ApM B) F Q R :
  apt F m Q -> (forall a, apt (Q a) (f a) R) -> apt F (m ≫= f) R.
Proof.
  intros Hm Hf n s r n' s' HF Hb. unfold mbind, ap_bind in Hb.
  destruct (m e (n, s)) as [[a|err] [n1 s1]] eqn:Hm1; specialize (Hm _ _ _ _ _ HF Hm1).
  - by apply (Hf a _ _ _ _ _ Hm Hb).
  - by injection Hb as <- _ <-.
Qed.

Lemma apt_pre {A} (F G : Fact) (m : ApM A) Q : (forall new t d, F new t d -> G new t d) -> apt G m Q -> apt F m Q.
Proof. intros Himp Hm n s r n' s' HF. apply Hm. by eapply holds_weaken. Qed.

Lemma apt_pure {A} (P : Prop) (F : Fact) (m : ApM A) Q :
  (P -> apt F m Q) -> apt (fun new t d => P /\ F new t d) m Q.
Proof. intros Hm n s r n' s' (Hh & new & Hl & Hok & HP & HF). apply (Hm HP). split; [done|]. exists new. done. Qed.

Lemma apt_post {A} F (m : ApM A) (Q R : A -> Fact) :
  (forall a new t d, Q a new t d -> R a new t d) -> apt F m Q -> apt F m R.
Proof.
  intros Himp Hm n s [a|err] n' s' HF Hr; specialize (Hm _ _ _ _ _ HF Hr); [|done].
  eapply holds_weaken; [|exact Hm]. auto.
Qed.

(** Pure steps refuse while the transactions are harmless, or are server
    errors. *)
Definition calm (F : Fact) : Prop := forall new t d, F new t d -> Forall harmless new.

Lemma apt_lift {A B} (r : result ApiError A) (f : A -> ApM B) F Q :
  (forall err, r = Err err -> 500 <= e_status err \/ calm F) ->
  (forall a, r = Ok a -> apt F (f a) Q) -> apt F (ap_lift r ≫= f) Q.
Proof.
  intros He Hf n s r' n' s' HF Hr. unfold mbind, ap_bind, ap_lift in Hr. destruct r as [a|err].
  - by eapply (Hf a).
  - injection Hr as <- _ <-. eapply holds_weaken; [|done].
    intros new t d Hd Hs. destruct (He _ eq_refl) as [|Hc]; [lia|by eapply Hc].
Qed.

Lemma apt_some {A B} err (o : option A) (f : A -> ApM B) F Q :
  500 <= e_status err \/ calm F -> (forall a, o = Some a -> apt F (f a) Q) -> apt F (ap_some err o ≫= f) Q.
Proof.
  intros Hc Hf. apply apt_lift; destruct o as [a|]; intros x Hx; inversion Hx; subst; auto.
Qed.

Lemma apt_reject {B} b err (f : unit -> ApM B) F Q :
  calm F -> (b = false -> apt F (f tt) Q) -> apt F (ap_reject b err ≫= f) Q.
Proof. intros Hc Hf. apply apt_lift; [auto|]. intros [] Hb. apply Hf. by destruct b. Qed.

Lemma apt_last {A} (r : result ApiError A) F (Q : A -> Fact) :
  (forall err, r = Err err -> 500 <= e_status err \/ calm F) ->
  (forall a new t d, r = Ok a -> F new t d -> Q a new t d) -> apt F (ap_lift r) Q.
Proof.
  intros He HQ n s r' n' s' HF [= <- _ <-]. destruct r as [a|err]; (eapply holds_weaken; [|done]).
  - auto.
  - intros new t d Hd Hs. destruct (He _ eq_refl) as [|Hc]; [lia|by eapply Hc].
Qed.

Lemma apt_now {B} (f : Z -> ApM B) F Q : (forall n, apt F (f (n_clock e n)) Q) -> apt F (now_ms ≫= f) Q.
Proof. intros Hf n s r n' s' HF Hr. exact (Hf n _ _ _ _ _ HF Hr). Qed.

Lemma apt_random {B} (f : list byte -> ApM B) F Q :
  (forall n, apt F (f (n_nonce e n)) Q) -> apt F (random_nonce ≫= f) Q.
Proof. intros Hf n s r n' s' HF Hr. exact (Hf n _ _ _ _ _ HF Hr). Qed.

Lemma apt_query {A} on_error (f : Z -> Db -> result StoreError A) F :
  stable F -> calm F -> apt F (query on_error f) (fun a new t d => F new t d /\ f t d = Ok a /\ history cfg (p_now s0) (api_db s0) t d).
Proof.
  intros HF Hc n s r n' s' Hs. unfold query. cbn. intros Heq. apply (holds_others _ n) in Hs; [|done].
  injection Heq as Hr <- <-. destruct (n_fault e n); [subst r; eapply holds_weaken; [|done]; intros ???? _; by eapply Hc|].
  destruct (f _ _) as [a|err] eqn:Hf; subst r; cbn.
  - destruct Hs as (Hh & new & Hl & Hok & Hs). split; [done|]. exists new. by split_and!.
  - eapply holds_weaken; [|done]. intros ???? _. by eapply Hc.
Qed.

(** ** Transactions *)

(** The call [f] runs request [r], and an error that becomes a client error
    left the database as it was. *)
Record implements {A} (on_error : StoreError -> ApiError) (r : Request)
    (f : AckEnv -> Z -> World -> result StoreError A * World) : Prop := {
  im_typed : typed r;
  im_exec ae now w res w' : f ae now w = (res, w') ->
    w_db w' = w_db w \/ exec cfg now r (w_db w) = Ok (tt, w_db w');
  im_fault : 500 <= e_status (on_error Unavailable);
  im_refused ae now w err w' : f ae now w = (Err err, w') -> e_status (on_error err) < 500 -> w_db w' = w_db w
}.

Lemma implements_ack {A} on_error r (m : Z -> Tx A) :
  typed r -> (forall now d a d', m now d = Ok (a, d') -> exec cfg now r d = Ok (tt, d')) ->
  (forall err, on_error err = unavailable \/ err <> Unavailable /\ forall msg, err <> Db.Witness msg) ->
  implements on_error r (ack_tx m).
Proof.
  intros Ht Hexec He. assert (500 <= e_status (on_error Unavailable)) as Hf.
  { destruct (He Unavailable) as [->|[? _]]; [cbn; lia|done]. }
  split; [done| |done|]; unfold ack_tx.
  - intros ae now w res w' [Hs|[a Ha]]%run_tx_db; [by left|right]. eauto.
  - intros ae now w err w'. unfold run_tx. destruct (m now (w_db w)) as [[a d]|err'] eqn:Hm; [|by intros [= _ <-]].
    destruct (acknowledge ae (with_db d w)) as [[[]|err'] w1] eqn:Ha; [done|]. cbn. intros [= <- _] Hs.
    unfold acknowledge in Ha. destruct (w_witness (with_db d w)); [|done].
    destruct (verify_and_advance _ _) as [[[]|we] ws]; [done|]. injection Ha as <- _.
    destruct (He (Db.Witness (witness_message we))) as [Heq|[_ Hn]]; [rewrite Heq in Hs; cbn in Hs; lia|by destruct (Hn (witness_message we))].
Qed.

(** After a transaction that succeeded. *)
Definition ran {A} (F : Fact) (r : Request) (f : AckEnv -> Z -> World -> result StoreError A * World) (a : A) : Fact :=
  fun new t d => exists before en, new = before ++ [en] /\ F before (l_now en) (l_before en) /\ l_request en = r /\
    l_after en = d /\ l_now en = t /\ history cfg t (l_before en) t d /\ exists ae w w', w_db w = l_before en /\ w_db w' = l_after en /\ f ae t w = (Ok a, w').

Lemma holds_logged F r w s d :
  holds F s -> api_db s = d -> typed r -> (w_db w = d \/ exec cfg (p_now s) r d = Ok (tt, w_db w)) ->
  (forall new, F new (p_now s) d -> entry_ran {| l_request := r; l_now := p_now s; l_before := d; l_after := w_db w |} ->
     authorized new {| l_request := r; l_now := p_now s; l_before := d; l_after := w_db w |}) ->
  holds (fun new t d' => exists before, new = before ++ [{| l_request := r; l_now := p_now s; l_before := d; l_after := w_db w |}] /\
    F before (p_now s) d /\ t = p_now s /\ d' = w_db w) (logged_as r w s).
Proof.
  intros (Hh & new & Hl & Hok & HF) <- Ht Hexec Hau. split.
  - unfold logged_as, api_db in *. cbn in *. destruct Hexec as [->|Hexec]; [done|].
    eapply history_trans; [done|]. eapply history_step; [|constructor]. by exists r.
  - exists (new ++ [{| l_request := r; l_now := p_now s; l_before := api_db s; l_after := w_db w |}]). cbn. rewrite Hl, app_assoc. split; [done|].
    split; [apply log_ok_snoc; auto|]. exists new. auto.
Qed.

Lemma apt_transact {A} on_error r (f : AckEnv -> Z -> World -> result StoreError A * World) F :
  stable F -> calm F -> implements on_error r f ->
  (forall new t d d', F new t d -> entry_ran {| l_request := r; l_now := t; l_before := d; l_after := d' |} ->
     authorized new {| l_request := r; l_now := t; l_before := d; l_after := d' |}) ->
  apt F (transact on_error r f) (ran F r f).
Proof.
  intros HF Hc [Ht Hexec Hf Hr] Hau n s res n' s' Hs. unfold transact. cbn [fst snd]. apply (holds_others _ n) in Hs; [|done].
  set (s1 := n_others e n s) in *. clearbody s1. destruct (f (n_ack e n) (p_now s1) (p_world s1)) as [fr w] eqn:Hfr.
  assert (forall err, e_status err < 500 -> w_db w = api_db s1 -> holds (refused err) (logged_as r w s1)) as Hcalm.
  { intros err Herr Hsame. eapply holds_weaken, (holds_logged F r w s1 (api_db s1)); eauto. cbn.
    intros new t d (before & -> & HF' & _ & _) _. apply Forall_app. split; [by eapply Hc|]. constructor; [by right|constructor]. }
  assert (holds (refused (on_error Unavailable)) (logged_as r w s1)) as Hlost.
  { eapply holds_weaken, (holds_logged F r w s1 (api_db s1)); eauto. intros new t d _ Hs'. lia. }
  destruct (n_fault e n) as [[]|].
  - intros [= <- _ <-]. eapply holds_weaken; [|done]. intros ???? Hs'. lia.
  - by intros [= <- _ <-].
  - intros [= <- _ <-]. destruct fr as [a|err]; cbn.
    + eapply holds_weaken, (holds_logged F r w s1 (api_db s1)); eauto.
      intros new t d (before & -> & HF' & -> & ->). eexists before, _. split_and!; [done..| |].
      { cbn. destruct (Hexec _ _ _ _ _ Hfr) as [->|Hw]; [constructor|]. eapply history_step; [by exists r|constructor]. }
      exists (n_ack e n), (p_world s1), w. done.
    + destruct (decide (e_status (on_error err) < 500)) as [Hlt|]; [by eapply Hcalm; [|eapply Hr]|].
      eapply holds_weaken, (holds_logged F r w s1 (api_db s1)); eauto. intros new t d _ Hs'. lia.
Qed.

(** A handler's last transaction. *)
Lemma apt_commit {A B} on_error r (m : Z -> Tx A) (g : A -> B) F :
  stable F -> calm F -> typed r -> (forall now d a d', m now d = Ok (a, d') -> exec cfg now r d = Ok (tt, d')) ->
  (forall err, on_error err = unavailable \/ err <> Unavailable /\ forall msg, err <> Db.Witness msg) ->
  (forall new t d d', F new t d -> entry_ran {| l_request := r; l_now := t; l_before := d; l_after := d' |} ->
     authorized new {| l_request := r; l_now := t; l_before := d; l_after := d' |}) ->
  apt F (transact on_error r (ack_tx m) ≫= fun a => mret (g a)) (fun _ _ _ _ => True).
Proof.
  intros HF Hc Ht Hexec He Hau. eapply apt_bind; [by apply apt_transact; [..|apply implements_ack|]|].
  intros a. by apply apt_ret.
Qed.

(** A consumption that succeeded is harmless, as what came before it. *)
Lemma ran_calm {A} F r (f : AckEnv -> Z -> World -> result StoreError A * World) a :
  calm F -> consumption r -> calm (ran F r f a).
Proof.
  intros Hc Hr new t d (before & en & -> & HF & Heq & _). apply Forall_app. split; [by eapply Hc|].
  constructor; [left; by rewrite Heq|constructor].
Qed.
End logic.
