(* ===== verification/ControlProperties.v ===== *)
(** * What the control API guarantees

    Which transactions each request authorizes, that the handlers run no
    other, and that a request refused as the client's error changes nothing
    but the nonce or challenge it spent. *)

From Stdlib Require Import Ascii String Strings.Byte.
From stdpp Require Import base strings list gmap.
From S2P Require Import Prelude Protocol Db Witness Store StoreCredentials StoreChallenges.
From S2P Require Import StoreLifecycle StoreBootstrap StoreCt StoreHistory StoreInvariant ReceiptSigner ControlApi ControlLogic.

Section authority.
Context {St3 : S3} {Cr : Crypto} {Sg : Signing} {Sd : Serde} {B32 : Base32} {HX : Hex}.
Context (uuid_parse_str : string -> option Uuid) (st : AppState) (e : ApiEnv).
Local Abbreviation cfg := (st_config st).

(** ** Authority *)

(** The request carries a signature under the key for exactly the action, at
    a reading of the service's clock. *)
Definition signed_by {T} `{Serialize T} (bytes : list byte) (request : SignedRequest T) (action : Action) : Prop :=
  exists key body n, key_from_bytes bytes = Some key /\ jcs_to_vec (to_json (r_body request)) = Some body /\
    claims_verify (r_claims request) body (r_signature request) key SurfaceAdmin action (st_audience st) (n_clock e n) = Ok tt.

Definition admin_signed {T} `{Serialize T} (request : SignedRequest T) (action : Action) (d : Db) : Prop :=
  exists row, d_installations d !! c_installation_id (r_claims request) = Some row /\
    signed_by (i_admin_public_key row) request action.

(** An earlier transaction spent the nonce, which had not been spent. *)
Definition nonce_spent {T} (request : SignedRequest T) (before : list Entry) : Prop :=
  let key := (c_installation_id (r_claims request), c_nonce (r_claims request)) in
  exists en, en ∈ before /\ l_request en = ConsumeNonce key.1 key.2 /\
    d_nonces (l_before en) !! key = None /\ is_Some (d_nonces (l_after en) !! key).

(** An administrator's request: it spends its nonce, then runs [P]. *)
Definition admin_entry {T} `{Serialize T} (request : SignedRequest T) (action : Action) (P : Request -> Prop)
    (before : list Entry) (en : Entry) : Prop :=
  admin_signed request action (l_before en) /\
  (l_request en = ConsumeNonce (c_installation_id (r_claims request)) (c_nonce (r_claims request)) \/
   nonce_spent request before /\ P (l_request en)).

(** The bearer was the current DNS credential of a ready installation at a
    moment between the request's arrival and the transaction. *)
Definition dns_bearer (s0 : Api) (headers : HeaderMap) (id : Uuid) (g : Z) (t : Z) (d : Db) : Prop :=
  exists bearer now d1, bearer_header headers = Some bearer /\
    history cfg (p_now s0) (api_db s0) now d1 /\ history cfg now d1 t d /\
    authenticate_bearer_with_state now id "dns_challenge" bearer d1 = Some (g, DnsReady).

Definition enroll_entry (source : IpAddr) (request : SignedRequest AllocateRequest) (before : list Entry) (en : Entry) : Prop :=
  let body := r_body request in
  exists key, enroll_key body = Ok key /\ signed_by key.1 request Enroll /\
    c_nonce (r_claims request) = ar_bootstrap_nonce body /\ c_operation_id (r_claims request) = ar_operation_id body /\
    (l_request en = ConsumeBootstrapChallenge (ar_bootstrap_nonce body) source \/
     (exists id label, l_request en = Allocate (ar_operation_id body) key.1 (st_placement st) id label) /\
     exists spent b, spent ∈ before /\ l_request spent = ConsumeBootstrapChallenge (ar_bootstrap_nonce body) source /\
       d_bootstrap (l_before spent) !! ar_bootstrap_nonce body = Some b /\ b_source_ip b = source /\
       b_consumed_at b = None /\ l_now spent < b_expires_at b /\
       d_bootstrap (l_after spent) !! ar_bootstrap_nonce body = Some (consume (l_now spent) b)).

(** What each request may run. *)
Definition authorized (s0 : Api) (request : ApiRequest) (before : list Entry) (en : Entry) : Prop :=
  match request with
  | PostBootstrapChallenge source => exists nonce, l_request en = CreateBootstrapChallenge nonce source /\
      (l_after en = l_before en \/ l_after en = set_bootstrap <[nonce := challenge_row (l_now en) source]> (l_before en))
  | PostEnroll source request => enroll_entry source request before en
  | PostCredentials request =>
      admin_entry request IssueCredential (fun r => exists scope hash,
        bearer_scope_of (cr_scope (r_body request)) = Some scope /\ digest_of_hex (cr_token_sha256 (r_body request)) = Ok hash /\
        r = IssueBearer (c_installation_id (r_claims request)) (c_operation_id (r_claims request)) scope hash
              (u32_as_i32 (cr_validity_seconds (r_body request)))) before en
  | PostRenew headers request => exists bearer scope hash,
      bearer_header headers = Some bearer /\ bearer_scope_of (rn_scope request) = Some scope /\
      digest_of_hex (rn_new_token_sha256 request) = Ok hash /\
      l_request en = RenewBearer (rn_installation_id request) (rn_operation_id request) scope (rn_generation request) bearer hash /\
      (l_after en = l_before en \/ exists c,
         renewable cfg (l_now en) (rn_installation_id request) scope (u64_as_i64 (rn_generation request)) (l_before en) = Some c /\
         k_token_hash c = sha256 (str_bytes bearer))
  | PostAcmeAccount request =>
      admin_entry request RegisterAcmeAccount (fun r =>
        r = RegisterAccount (c_installation_id (r_claims request)) (aa_account_uri (r_body request))) before en
  | PostStatus request => admin_entry request InstallationStatus (fun _ => False) before en
  | PostRetire request =>
      admin_entry request RetireInstallation (fun r =>
        r = Retire (c_installation_id (r_claims request)) (c_operation_id (r_claims request))) before en
  | PostCertificates headers certificate => exists id text g,
      hm_installation headers = Some text /\ uuid_parse_str text = Some id /\
      dns_bearer s0 headers id g (l_now en) (l_before en) /\ l_request en = RecordExpectedCertificate id certificate
  | PostDnsChallenge headers request => exists g,
      dns_bearer s0 headers (de_installation_id request) g (l_now en) (l_before en) /\
      l_request en = EnsureChallengeValue (de_installation_id request) g (de_txt_value request)
  | GetChallengeReady _ _ _ _ => False
  end.

(** What the Rust type of a request guarantees. *)
Definition request_typed (request : ApiRequest) : Prop :=
  match request with PostRenew _ request => is_u64 (rn_generation request) | _ => True end.

(** ** Facts that outlive other processes *)
Lemma admin_signed_history {T} `{Serialize T} (request : SignedRequest T) action t d t' d' :
  history cfg t d t' d' -> admin_signed request action d -> admin_signed request action d'.
Proof.
  intros [Hle _]%history_history_le (row & Hrow & Hs).
  destruct (hl_installations _ _ Hle _ _ Hrow) as (row' & Hrow' & _ & Hk & _). exists row'. by rewrite Hk.
Qed.

Lemma dns_bearer_history s0 headers id g t d t' d' :
  history cfg t d t' d' -> dns_bearer s0 headers id g t d -> dns_bearer s0 headers id g t' d'.
Proof. intros Hh (b & now & d1 & ? & ? & ? & ?). exists b, now, d1. split_and!; [done..|by eapply history_trans|done]. Qed.

Lemma consume_nonce_true now id nonce w w' :
  consume_nonce now id nonce w = (Ok true, w') ->
  d_nonces (w_db w) !! (id, nonce) = None /\ is_Some (d_nonces (w_db w') !! (id, nonce)).
Proof.
  unfold consume_nonce, exec_tx, consume_nonce_tx. repeat case_match; intros Heq; simplify_eq.
  to_prop. split; [by apply eq_None_not_Some|]. cbn. by rewrite lookup_insert_eq.
Qed.

Lemma consume_challenge_true now nonce source w w' :
  consume_bootstrap_challenge now nonce source w = (Ok true, w') ->
  exists b, d_bootstrap (w_db w) !! nonce = Some b /\ b_source_ip b = source /\ b_consumed_at b = None /\
    now < b_expires_at b /\ d_bootstrap (w_db w') !! nonce = Some (consume now b).
Proof.
  unfold consume_bootstrap_challenge, exec_tx, consume_bootstrap_challenge_tx.
  destruct (d_bootstrap (w_db w) !! nonce) as [b|] eqn:Hb; [|done].
  destruct (_ && _) eqn:Hc; intros Heq; [|done]. simplify_eq. to_prop. exists b.
  split_and!; [done..|]. cbn. by rewrite lookup_insert_eq.
Qed.

(** ** The handlers *)
Context (others : forall n s, quiet cfg s (n_others e n s)) (labels : forall n, List.length (n_label e n) = 16%nat).
Context (s0 : Api) (served : ApiRequest).

Local Abbreviation ok := (authorized s0 served).
Local Abbreviation triple := (apt cfg e s0 ok).
Definition start : Fact := fun new _ _ => new = [].

Lemma start_stable : stable cfg start.
Proof. intros new t d t' d' _. done. Qed.
Lemma start_calm : calm start.
Proof. intros new t d ->. constructor. Qed.

Lemma start_and_calm (F : Fact) : calm (fun new t d => start new t d /\ F new t d).
Proof. intros new t d [Hn _]. rewrite Hn. constructor. Qed.

Definition admin_ready {T} `{Serialize T} (request : SignedRequest T) (action : Action) : Fact := fun new _ d =>
  admin_signed request action d /\ nonce_spent request new /\ Forall harmless new.

Lemma admin_ready_stable {T} `{Serialize T} (request : SignedRequest T) action : stable cfg (admin_ready request action).
Proof. intros new t d t' d' Hh (? & ? & ?). split_and!; [by eapply admin_signed_history|done..]. Qed.
Lemma admin_ready_calm {T} `{Serialize T} (request : SignedRequest T) action : calm (admin_ready request action).
Proof. by intros new t d (_ & _ & ?). Qed.

Lemma implements_consume_nonce id nonce :
  implements cfg only_unavailable (ConsumeNonce id nonce) (fun _ now w => consume_nonce now id nonce w).
Proof.
  split; [done| |cbn; lia|].
  - intros _ now w res w'. unfold consume_nonce, exec_tx. cbn [exec].
    destruct (consume_nonce_tx now id nonce (w_db w)) as [[a d]|] eqn:Hc; intros [= _ <-]; [right|by left].
    by eapply void_run.
  - intros _ now w err w' _. cbn. lia.
Qed.

Lemma implements_consume_challenge nonce source :
  implements cfg only_unavailable (ConsumeBootstrapChallenge nonce source)
    (fun _ now w => consume_bootstrap_challenge now nonce source w).
Proof.
  split; [done| |cbn; lia|].
  - intros _ now w res w'. unfold consume_bootstrap_challenge, exec_tx. cbn [exec].
    destruct (consume_bootstrap_challenge_tx now nonce source (w_db w)) as [[a d]|] eqn:Hc; intros [= _ <-]; [right|by left].
    by eapply void_run.
  - intros _ now w err w' _. cbn. lia.
Qed.

(** [authorize_admin] runs one transaction, which spends the nonce. *)
Lemma apt_authorize_admin {T} `{Serialize T} (request : SignedRequest T) action :
  (forall t d d', admin_signed request action d ->
     ok [] {| l_request := ConsumeNonce (c_installation_id (r_claims request)) (c_nonce (r_claims request));
              l_now := t; l_before := d; l_after := d' |}) ->
  triple start (authorize_admin st request action) (fun _ => admin_ready request action).
Proof.
  intros Hau. set (id := c_installation_id (r_claims request)).
  eapply apt_bind; [apply apt_query; [done|apply start_stable|apply start_calm]|]. intros stored.
  apply apt_some; [right; apply start_and_calm|]. intros bytes ->.
  eapply apt_pre with (G := fun new t d => start new t d /\ exists row, d_installations d !! id = Some row /\ i_admin_public_key row = bytes).
  { intros new t d (Hn & Hk & _). split; [done|]. unfold admin_public_key in Hk. fold id in Hk.
    destruct (d_installations d !! id) as [row|]; [|done]. case_bool_decide; [|done]. injection Hk as <-. eauto. }
  apply apt_some; [by left|]. intros key Hkey. apply apt_some; [right; apply start_and_calm|]. intros body Hbody. apply apt_now. intros n.
  apply apt_lift; [right; apply start_and_calm|]. intros [] Hv.
  eapply apt_pre with (G := fun new t d => start new t d /\ admin_signed request action d).
  { intros new t d [Hn (row & Hrow & <-)]. split; [done|]. exists row. split; [done|]. exists key, body, n. split_and!; [done..|].
    by destruct (claims_verify _ _ _ _ _ _ _ _) as [[]|]. }
  eapply apt_bind.
  { apply apt_transact; [done| |apply start_and_calm|apply implements_consume_nonce|intros new t d d' [-> Hs] _; by apply Hau].
    intros new t d t' d' Hh [? ?]. split; [done|]. by eapply admin_signed_history. }
  intros fresh. apply apt_last; [right; apply ran_calm; [apply start_and_calm|done]|]. intros [] new t d Hf Hran. destruct fresh; [|done].
  split; [|split]; [| |refine (ran_calm _ _ _ _ _ _ _ new t d Hran); [apply start_and_calm|done]];
    destruct Hran as (before & en & -> & [_ Hs] & Hreq & Ha & _ & Hh & ae & w & w' & Hw & Hw' & Hc).
  - by eapply admin_signed_history.
  - apply consume_nonce_true in Hc as [Hn Hy]. rewrite Hw in Hn. rewrite Hw' in Hy.
    exists en. rewrite elem_of_app, list_elem_of_singleton. auto.
Qed.

(** [authenticate_dns] runs no transaction. *)
Definition dns_ready_for (headers : HeaderMap) (id : Uuid) (g : Z) : Fact := fun new t d =>
  start new t d /\ dns_bearer s0 headers id g t d.

Lemma dns_ready_stable headers id g : stable cfg (dns_ready_for headers id g).
Proof. intros new t d t' d' Hh [? ?]. split; [done|by eapply dns_bearer_history]. Qed.

Lemma apt_authenticate_dns {B} headers id (f : Z -> ApM B) Q :
  (forall g, is_u64 g -> triple (dns_ready_for headers id g) (f g) Q) ->
  triple start (authenticate_dns headers id None ≫= f) Q.
Proof.
  intros Hf. eapply apt_bind; [|intros g; apply (apt_pure _ _ _ _ (is_u64 g)), Hf].
  unfold authenticate_dns. apply apt_some; [right; apply start_calm|]. intros bearer Hb.
  eapply apt_bind; [apply apt_query; [done|apply start_stable|apply start_calm]|]. intros found.
  apply apt_lift; [right; apply start_and_calm|]. intros g Hg.
  apply apt_reject; [apply start_and_calm|]. intros _. apply apt_ret. intros new t d (Hn & Hq & Hh).
  destruct found as [[g' []]|]; try done. injection Hg as ->. injection Hq as Hq.
  split.
  - unfold authenticate_bearer_with_state in Hq. case_match; [done|].
    destruct (d_installations d !! id); [|done]. cbn in Hq. destruct (best_generation _ _ _ _ _) as [z|]; [|done].
    injection Hq as <- _. unfold is_u64, i64_as_u64, u64_max. pose proof (Z.mod_pos_bound z (2 ^ 64)). lia.
  - split; [done|]. exists bearer, t, d. split_and!; [done..|constructor|done].
Qed.

(** *** One lemma per handler *)
Local Ltac spends_nonce Hsv := rewrite Hsv; intros ? ? ? ?; split; [done|by left].
Local Abbreviation served_ok m := (triple start m (fun _ _ _ _ => True)).

Lemma create_challenge_db ae now nonce source w res w' :
  create_bootstrap_challenge ae now nonce source w = (res, w') ->
  (w_db w' = w_db w \/ exec cfg now (CreateBootstrapChallenge nonce source) (w_db w) = Ok (tt, w_db w')) /\
  (res = Ok false -> w_db w' = w_db w).
Proof.
  unfold create_bootstrap_challenge.
  destruct (create_bootstrap_challenge_tx now nonce source (w_db w)) as [[[] d]|] eqn:Hc.
  - intros Hr. pose proof (run_tx_db _ _ _ _ _ Hr) as Hd. split.
    + destruct Hd as [?|[a Ha]]; [by left|right]. by eapply void_run.
    + intros ->. apply run_tx_ok in Hr as (d' & Hd' & _). congruence.
  - intros [= <- <-]. auto.
  - unfold run_tx. rewrite Hc. intros [= <- <-]. auto.
Qed.

(** What the two transactions that need no signature changed. *)
Lemma create_ran t nonce source d d' :
  entry_ran cfg {| l_request := CreateBootstrapChallenge nonce source; l_now := t; l_before := d; l_after := d' |} ->
  d' = d \/ d' = set_bootstrap <[nonce := challenge_row t source]> d.
Proof.
  intros [Hs|He]; [by left|]. cbn in He. apply void_ok in He as [b Hb]. unfold create_bootstrap_challenge_tx in Hb.
  destruct (_ || _); [injection Hb as _ <-; by left|]. case_bool_decide; [done|]. injection Hb as _ <-. by right.
Qed.
Lemma renew_ran t id op scope g bearer hash d d' :
  entry_ran cfg {| l_request := RenewBearer id op scope g bearer hash; l_now := t; l_before := d; l_after := d' |} ->
  d' = d \/ exists c, renewable cfg t id scope (u64_as_i64 g) d = Some c /\ k_token_hash c = sha256 (str_bytes bearer).
Proof.
  intros [Hs|He]; [by left|]. cbn in He. apply void_ok in He as [r Hr].
  apply renew_bearer_tx_ok in Hr as (_ & [(? & _ & -> & _)|(row & c & _ & _ & _ & _ & Hc & Hh & _)]); eauto.
Qed.

Lemma challenge_served source : served = PostBootstrapChallenge source -> served_ok (challenge source).
Proof.
  intros Hsv. apply apt_random. intros n. set (nonce := base64url_encode (n_nonce e n)).
  eapply apt_bind; [apply apt_transact; [done|apply start_stable|apply start_calm| |]|].
  - split; [done| |cbn; lia|intros ????? _; cbn; lia]. intros ae now w res w' Hr. by apply create_challenge_db in Hr as [? _].
  - intros new t d d' _ Hran. rewrite Hsv. exists nonce. split; [done|]. by apply create_ran.
  - intros [].
    + apply apt_lift; [done|]. intros [] _. apply apt_now. intros ?. by apply apt_ret.
    + apply apt_lift; [|done]. intros err _. right. intros new t d (before & en & -> & Hn & _ & <- & _ & _ & ae & w & w' & Hw & Hw' & Hc).
      apply create_challenge_db in Hc as [_ Hc]. rewrite Hn. constructor; [right; rewrite <-Hw', <-Hw; by apply Hc|constructor].
Qed.

Lemma status_served request : served = PostStatus request -> served_ok (installation_status st request).
Proof.
  intros Hsv. apply apt_reject; [apply start_calm|]. intros _.
  eapply apt_bind; [apply apt_authorize_admin; spends_nonce Hsv|]. intros [].
  eapply apt_bind; [apply apt_query; [done|apply admin_ready_stable|apply admin_ready_calm]|]. intros found.
  apply apt_last; [|done]. intros err Herr. right. by intros new t d [(_ & _ & ?) _].
Qed.

Lemma retire_served request : served = PostRetire request -> served_ok (retire_installation st request).
Proof.
  intros Hsv. apply apt_reject; [apply start_calm|]. intros Hid. to_prop.
  eapply apt_bind; [apply apt_authorize_admin; spends_nonce Hsv|]. intros [].
  apply apt_commit; [done|apply admin_ready_stable|apply admin_ready_calm|done|by intros ?? [] ?| |].
  - intros []; cbn; auto.
  - intros new t d d' (Ha & Hn & _) _. rewrite Hsv. split; [done|]. right. rewrite <-Hid. done.
Qed.

Lemma account_served request : served = PostAcmeAccount request -> served_ok (register_acme_account st request).
Proof.
  intros Hsv. eapply apt_bind; [apply apt_authorize_admin; spends_nonce Hsv|]. intros [].
  apply apt_commit; [done|apply admin_ready_stable|apply admin_ready_calm|done|by intros ?? [] ?| |].
  - intros []; cbn; auto.
  - intros new t d d' (Ha & Hn & _) _. rewrite Hsv. split; [done|]. right. done.
Qed.

Lemma digest_of_hex_length text hash : digest_of_hex text = Ok hash -> List.length hash = 32%nat.
Proof.
  unfold digest_of_hex. intros Hd. apply bind_ok in Hd as (h & _ & Hd). case_bool_decide; [|done]. by injection Hd as <-.
Qed.

Lemma issue_served request : served = PostCredentials request -> served_ok (issue_credential st request).
Proof.
  intros Hsv. apply apt_some; [right; apply start_calm|]. intros scope Hscope.
  eapply apt_bind; [apply apt_authorize_admin; spends_nonce Hsv|]. intros [].
  apply apt_lift; [right; apply admin_ready_calm|]. intros hash Hhash.
  apply apt_commit; [done|apply admin_ready_stable|apply admin_ready_calm|by eapply digest_of_hex_length|intros; by eapply void_run| |].
  - intros []; cbn; auto.
  - intros new t d d' (Ha & Hn & _) _. rewrite Hsv. split; [done|]. right. split; [done|]. by exists scope, hash.
Qed.

Lemma renew_served headers request :
  served = PostRenew headers request -> request_typed served -> served_ok (renew_credential st headers request).
Proof.
  intros Hsv Hty. apply apt_reject; [apply start_calm|]. intros _. apply apt_some; [right; apply start_calm|].
  intros scope Hscope. apply apt_now. intros n1. apply apt_reject; [apply start_calm|]. intros _. apply apt_now. intros n2.
  do 2 (apply apt_reject; [apply start_calm|]; intros _). apply apt_some; [right; apply start_calm|]. intros bearer Hb.
  apply apt_lift; [right; apply start_calm|]. intros hash Hhash.
  apply apt_commit; [done|apply start_stable|apply start_calm| |intros; by eapply void_run| |].
  - split; [by rewrite Hsv in Hty|by eapply digest_of_hex_length].
  - intros []; cbn; auto.
  - intros new t d d' _ Hran. rewrite Hsv. exists bearer, scope, hash. split_and!; [done..|]. by eapply renew_ran.
Qed.

Lemma ensure_served headers request : served = PostDnsChallenge headers request -> served_ok (ensure_dns_challenge headers request).
Proof.
  intros Hsv. apply apt_reject; [apply start_calm|]. intros _. apply apt_authenticate_dns. intros g Hg.
  apply apt_commit; [done|apply dns_ready_stable|apply start_and_calm|done|intros; by eapply void_run| |].
  - intros []; cbn; auto.
  - intros new t d d' [_ Hd] _. rewrite Hsv. by exists g.
Qed.

Lemma certificate_served headers certificate :
  served = PostCertificates headers certificate -> served_ok (record_certificate uuid_parse_str headers certificate).
Proof.
  intros Hsv. apply apt_some; [right; apply start_calm|]. intros id Hid. apply bind_Some in Hid as (text & Ht & Hid).
  apply apt_authenticate_dns. intros g Hg.
  apply apt_commit; [done|apply dns_ready_stable|apply start_and_calm|done|by intros ?? [] ?| |].
  - intros []; cbn; auto.
  - intros new t d d' [_ Hd] _. rewrite Hsv. by exists id, text, g.
Qed.

Lemma ready_served id revision value headers :
  served = GetChallengeReady id revision value headers -> served_ok (dns_challenge_ready id revision value headers).
Proof.
  intros _. apply apt_authenticate_dns. intros g Hg.
  eapply apt_bind; [apply apt_query; [done|apply dns_ready_stable|apply start_and_calm]|]. intros ready. by apply apt_ret.
Qed.

(** *** Enrollment *)
Definition challenge_spent (source : IpAddr) (request : SignedRequest AllocateRequest) : Fact := fun new _ _ =>
  Forall harmless new /\ exists spent b, spent ∈ new /\
    l_request spent = ConsumeBootstrapChallenge (ar_bootstrap_nonce (r_body request)) source /\
    d_bootstrap (l_before spent) !! ar_bootstrap_nonce (r_body request) = Some b /\ b_source_ip b = source /\
    b_consumed_at b = None /\ l_now spent < b_expires_at b /\
    d_bootstrap (l_after spent) !! ar_bootstrap_nonce (r_body request) = Some (consume (l_now spent) b).

Lemma challenge_spent_ran source request new t d :
  ran cfg start (ConsumeBootstrapChallenge (ar_bootstrap_nonce (r_body request)) source)
    (fun _ now w => consume_bootstrap_challenge now (ar_bootstrap_nonce (r_body request)) source w) true new t d ->
  challenge_spent source request new t d.
Proof.
  intros Hran. split; [eapply ran_calm; [apply start_calm| |exact Hran]; done|].
  destruct Hran as (before & en & -> & _ & Hreq & _ & <- & _ & ae & w & w' & Hw & Hw' & Hc).
  apply consume_challenge_true in Hc as (b & Hb & ? & ? & ? & Hb'). rewrite Hw in Hb. rewrite Hw' in Hb'.
  exists en, b. rewrite elem_of_app, list_elem_of_singleton. split_and!; auto.
Qed.

(** The installation of an allocation, and the operation that made it. *)
Definition recorded (op : Uuid) (key : list byte) (a : Allocation) (d : Db) : Prop :=
  a_version a = WIRE_VERSION /\ exists row o, d_installations d !! a_installation_id a = Some row /\ i_admin_public_key row = key /\
    i_hostname row = a_hostname a /\ d_operations d !! op = Some o /\ o_installation_id o = a_installation_id a.

Lemma recorded_history op key a t d t' d' : history cfg t d t' d' -> recorded op key a d -> recorded op key a d'.
Proof.
  intros [Hle _]%history_history_le (Hv & row & o & Hrow & Hk & Hh & Ho & Hid). split; [done|].
  destruct (hl_installations _ _ Hle _ _ Hrow) as (row' & Hrow' & Hh' & Hk' & _).
  exists row', o. split_and!; [done|congruence..|by eapply lookup_weaken, hl_operations|done].
Qed.

Lemma allocate_recorded now op key placement id label d a d' :
  allocate_tx now op key placement id label d = Ok (a, d') -> recorded op key a d'.
Proof.
  intros (_ & [(o & row & Ho & Hrow & Hk & _ & -> & ->) | (_ & Hn & _ & _ & _ & -> & ->)])%allocate_tx_ok;
    (split; [done|]).
  - by exists row, o.
  - eexists _, _. cbn. rewrite !lookup_insert_eq. split_and!; done.
Qed.

Lemma apt_allocate op key F :
  stable cfg F -> calm F -> List.length key = 32%nat ->
  (forall new t d d' id label, F new t d ->
     ok new {| l_request := Allocate op key (st_placement st) id label; l_now := t; l_before := d; l_after := d' |}) ->
  triple F (allocate st op key) (fun a _ _ d => recorded op key a d).
Proof.
  intros HF Hc Hk Hau n s r n' s' Hs Hr. unfold allocate in Hr. cbn [fst] in Hr.
  assert (triple F (transact conflict_or_unavailable (Allocate op key (st_placement st) (n_uuid e n) (n_label e n))
      (ack_tx (fun now => allocate_tx now op key (st_placement st) (n_uuid e n) (n_label e n)))) (fun a _ _ d => recorded op key a d)) as Ht;
    [|exact (Ht _ _ _ _ _ Hs Hr)].
  eapply apt_post, apt_transact; [|done|done|done|apply implements_ack|auto].
  - intros a new t d (_ & en & _ & _ & _ & <- & _ & _ & ae & w & w' & _ & <- & Hrun).
    apply run_tx_ok in Hrun as (d1 & Hrun & Hack). apply acknowledge_db in Hack. rewrite Hack. by eapply allocate_recorded.
  - split; [done|apply labels].
  - intros; by eapply void_run.
  - intros []; cbn; auto.
Qed.

Lemma apt_sign_receipt {B} message (f : list byte -> ApM B) F Q :
  stable cfg F ->
  (forall bytes, (exists signature, bytes = signature_to_bytes signature /\
     ed25519_verify (public_key (st_signer st)) message signature = true) -> triple F (f bytes) Q) ->
  triple F (sign_receipt st message ≫= f) Q.
Proof.
  intros HF Hf n s r n' s' Hs Hr. unfold mbind, ap_bind, sign_receipt in Hr. cbn [fst snd] in Hr.
  apply (holds_others _ _ others _ _ _ n) in Hs; [|done].
  destruct (sign _ _ _) as [bytes|err] eqn:Hsign; cbn in Hr.
  - apply sign_ok in Hsign. by apply (Hf bytes Hsign _ _ _ _ _ Hs Hr).
  - injection Hr as <- _ <-. eapply holds_weaken; [|done]. intros ???? Hs'. cbn in Hs'. lia.
Qed.

(** What a receipt certifies: the installation, under the key the request
    named, signed by the relay. *)
Definition certifies (request : AllocateRequest) (r : AllocationReceipt) (d : Db) : Prop :=
  exists key message signature, enroll_key request = Ok key /\ recorded (ar_operation_id request) key.1 (rc_allocation r) d /\
    rc_operation_id r = ar_operation_id request /\ rc_admin_key_sha256 r = sha256_hex key.1 /\
    (exists n, rc_issued_at_ms r = n_clock e n) /\ signed_bytes r = Ok message /\
    rc_signature r = base64url_encode (signature_to_bytes signature) /\
    ed25519_verify (public_key (st_signer st)) message signature = true.

Lemma enroll_served source request :
  served = PostEnroll source request -> triple start (enroll st source request) (fun r _ _ d => certifies (r_body request) r d).
Proof.
  intros Hsv. apply apt_lift; [right; apply start_calm|]. intros key Hkey. apply apt_some; [right; apply start_calm|].
  intros body Hbody. apply apt_reject; [apply start_calm|]. intros Hclaims. to_prop. apply apt_now. intros n.
  apply apt_lift; [right; apply start_calm|]. intros [] Hv.
  assert (signed_by key.1 request Enroll /\ List.length key.1 = 32%nat) as [Hsig Hlen].
  { unfold enroll_key in Hkey. apply bind_ok in Hkey as (bytes & _ & Hkey). case_bool_decide; [|done].
    apply bind_ok in Hkey as (k & Hk & Hkey). injection Hkey as <-. split; [|done]. exists k, body, n.
    cbn in Hv. split_and!; [by apply ok_or_ok in Hk|done|by destruct (claims_verify _ _ _ _ _ _ _ _) as [[]|]]. }
  eapply apt_bind; [apply apt_transact; [done|apply start_stable|apply start_calm|apply implements_consume_challenge|]|].
  { intros new t d d' _ _. rewrite Hsv. exists key. split_and!; [done..|]. by left. }
  intros consumed. apply apt_reject; [by apply ran_calm; [apply start_calm|]|]. intros Hconsumed. destruct consumed; [|done].
  eapply apt_pre; [apply challenge_spent_ran|].
  eapply apt_bind; [apply apt_allocate; [by intros ????? _ ?|by intros new t d [? _]|done|]|].
  { intros new t d d' id label [_ Hspent]. rewrite Hsv. exists key. split_and!; [done..|]. right. eauto. }
  intros allocation. apply apt_now. intros n2. apply apt_lift; [left; by destruct (signed_bytes _); simplify_eq/=|].
  intros message Hm. apply apt_sign_receipt; [intros ????? Hh; by eapply recorded_history|].
  intros bytes (signature & -> & Hok). apply apt_ret. intros new t d Hrec.
  exists key, message, signature. split_and!; [done..|by exists n2| |done|done].
  by destruct (signed_bytes _) as [m|] eqn:Hm2 in Hm; simplify_eq/=.
Qed.

Lemma request_served : request_typed served -> served_ok (handle uuid_parse_str st served).
Proof.
  intros Hty. assert (forall r, served = r -> served_ok (handle uuid_parse_str st r)) as Hall; [|by apply Hall].
  intros [] Hsv; cbn [handle]; (eapply apt_bind; [|intros ?; by apply apt_ret]).
  - by apply challenge_served.
  - by apply enroll_served.
  - by apply issue_served.
  - by apply renew_served.
  - by apply account_served.
  - by apply status_served.
  - by apply retire_served.
  - by apply certificate_served.
  - by apply ensure_served.
  - by apply ready_served.
Qed.
End authority.

Section theorems.
Context {St3 : S3} {Cr : Crypto} {Sg : Signing} {Sd : Serde} {B32 : Base32} {HX : Hex}.
Context (uuid_parse_str : string -> option Uuid) (st : AppState).

(** The other processes run store requests, and the random label has its
    16 bytes. *)
Definition api_env (e : ApiEnv) : Prop :=
  (forall n s, quiet (st_config st) s (n_others e n s)) /\ (forall n, List.length (n_label e n) = 16%nat).

Lemma start_holds e s request : holds (st_config st) s (authorized uuid_parse_str st e s request) start s.
Proof. split; [constructor|]. exists []. rewrite app_nil_r. split_and!; [done|apply log_ok_nil|done]. Qed.

Lemma handle_holds e n s request r n' s' :
  api_env e -> request_typed request -> handle uuid_parse_str st request e (n, s) = (r, (n', s')) ->
  match r with
  | Ok _ => holds (st_config st) s (authorized uuid_parse_str st e s request) (fun _ _ _ => True) s'
  | Err err => holds (st_config st) s (authorized uuid_parse_str st e s request) (refused err) s'
  end.
Proof.
  intros [Hq Hl] Hty Hr. refine (request_served uuid_parse_str st e Hq Hl s request Hty n s r n' s' (start_holds _ _ _) Hr).
Qed.

(** C1: every transaction the control API runs is authorized. Whatever other
    processes do meanwhile and whichever store calls fail, a handler runs only
    the transactions its request may run, each one its store request on the
    database it found: an administrator's request spends its fresh nonce and
    then runs exactly the operation it was signed for, under the admin key
    stored for the installation it names; enrollment spends a live challenge
    issued to its source and allocates for the key that signed it; challenge
    and certificate requests act for the installation, and generation, whose
    current DNS bearer they carry; a renewal changes something only when it
    carries the newest, unrevoked bearer of its scope within the renewal
    grace; and the one request without credentials, for a bootstrap
    challenge, adds that challenge of its source and changes nothing else. *)
Theorem control_changes_authorized e n s request r n' s' :
  api_env e -> request_typed request -> handle uuid_parse_str st request e (n, s) = (r, (n', s')) ->
  history (st_config st) (p_now s) (api_db s) (p_now s') (api_db s') /\
  exists new, p_log s' = p_log s ++ new /\
    forall before en after, new = before ++ en :: after ->
      authorized uuid_parse_str st e s request before en /\ entry_ran (st_config st) en.
Proof.
  intros He Hty Hr. pose proof (handle_holds _ _ _ _ _ _ _ He Hty Hr) as Hh.
  destruct r; destruct Hh as (Hh & new & Hl & Hok & _); eauto.
Qed.

(** a request refused as the client's error (a 4xx status) changed
    nothing: of the transactions its handler ran, each left the database as
    it was, or only spent the request's nonce or challenge. *)
Theorem refused_request_changes_nothing e n s request err n' s' :
  api_env e -> request_typed request -> handle uuid_parse_str st request e (n, s) = (Err err, (n', s')) ->
  e_status err < 500 ->
  exists new, p_log s' = p_log s ++ new /\
    Forall (fun en => (exists id nonce, l_request en = ConsumeNonce id nonce) \/
                      (exists nonce source, l_request en = ConsumeBootstrapChallenge nonce source) \/
                      l_after en = l_before en) new.
Proof.
  intros He Hty Hr Hs. destruct (handle_holds _ _ _ _ _ _ _ He Hty Hr) as (_ & new & Hl & _ & Hc).
  exists new. split; [done|]. eapply Forall_impl; [by apply Hc|]. intros en [Hcons|Hsame]; [|auto].
  destruct (l_request en); cbn in Hcons; try done; eauto.
Qed.
End theorems.
