(* ===== verification/AdminClient.v ===== *)
(** * Administration client: crates/bloom-relay-admin-client/src/lib.rs

    The Signer's calls to the control API, over a connection that answers
    requests ([Client]): what they sign, and what they accept of an answer.
    An answer arrives decoded; the TLS agent with its pinned roots and the
    bounded reading of an answer are in Transport.v. *)

From Stdlib Require Import Ascii String Strings.Byte.
From stdpp Require Import base strings list.
From S2P Require Import Prelude Protocol ReceiptSigner Db ControlApi.

Definition CONTROL_AUDIENCE : string := "relay-control.bloom.directory".

Inductive EnrollmentError :=
| InvalidTrust
| ControlUnavailable
| Refused (status : Z)
| Rejected
| InvalidReceipt
| IncompatibleProtocol.

(** [ureq::Error]. *)
Inductive UreqError := StatusCode (status : Z) | OtherFailure.
Definition control_error (error : UreqError) : EnrollmentError :=
  match error with StatusCode status => Refused status | OtherFailure => ControlUnavailable end.

Definition trusted_response_expiry (expires_at_ms now_ms lifetime_ms : Z) : bool :=
  (now_ms <? expires_at_ms)
  && (expires_at_ms <=? u64_saturating_add (u64_saturating_add now_ms lifetime_ms) TRUSTED_RESPONSE_CLOCK_SKEW_MS).

(** A connection to the relay, seen from [source]; the clock and the random
    bytes are the client's. *)
Record Client (S : Type) := {
  cl_post : ApiRequest -> S -> result UreqError ApiResponse * S;
  cl_source : IpAddr;
  cl_now : S -> Z * S;
  cl_random : S -> list byte * S
}.
Arguments cl_post {S}.
Arguments cl_source {S}.
Arguments cl_now {S}.
Arguments cl_random {S}.

Section client.
Context `{Signing} `{Serde} {S : Type} (c : Client S).

Definition ClM (A : Type) : Type := S -> result EnrollmentError A * S.
#[global] Instance cl_ret : MRet ClM := fun _ a s => (Ok a, s).
#[global] Instance cl_bind : MBind ClM := fun _ _ f m s =>
  match m s with (Ok a, s') => f a s' | (Err err, s') => (Err err, s') end.
Definition cl_lift {A} (r : result EnrollmentError A) : ClM A := fun s => (r, s).
Definition cl_reject (b : bool) (err : EnrollmentError) : ClM unit := cl_lift (if b then Err err else Ok tt).
Definition client_now : ClM Z := fun s => let (t, s') := cl_now c s in (Ok t, s').
Definition client_random : ClM (list byte) := fun s => let (r, s') := cl_random c s in (Ok r, s').
Definition post (request : ApiRequest) : ClM ApiResponse := fun s =>
  let (r, s') := cl_post c request s in (map_err control_error r, s').

Context (sign_message : list byte -> result EnrollmentError (list byte)).

(** ** Tokens *)
Definition token_generate : ClM string := random ← client_random; mret (base64url_encode random).
Definition token_from_encoded (value : string) : result EnrollmentError string :=
  bytes ← ok_or InvalidTrust (base64url_decode value);
  if negb (bool_decide (List.length bytes = 32%nat)) || negb (bool_decide (base64url_encode bytes = value))
  then Err InvalidTrust else Ok value.

(** ** Signed requests *)
Definition admin_claims (id operation_id : Uuid) (action : Action) (nonce : string) (expires_at_ms : Z) (body : list byte) : AuthClaims :=
  {| c_version := WIRE_VERSION; c_installation_id := id; c_scope := SurfaceAdmin; c_action := action; c_generation := 0;
     c_audience := CONTROL_AUDIENCE; c_operation_id := operation_id; c_nonce := nonce; c_expires_at_ms := expires_at_ms;
     c_body_sha256 := sha256_hex body |}.

Definition signed_request {T} `{Serialize T} (id operation_id : Uuid) (action : Action) (nonce : string) (expires_at_ms : Z)
    (body : T) : result EnrollmentError (SignedRequest T) :=
  canonical ← ok_or Rejected (jcs_to_vec (to_json body));
  let claims := admin_claims id operation_id action nonce expires_at_ms canonical in
  message ← map_err (fun _ => Rejected) (signing_bytes claims);
  signature ← sign_message message;
  Ok {| r_claims := claims; r_body := body; r_signature := base64url_encode signature |}.

(** [signed_admin_call], up to the sending. *)
Definition signed_admin_call {T} `{Serialize T} (id operation_id : Uuid) (body : T) (action : Action) (route : SignedRequest T -> ApiRequest) :
    ClM ApiResponse :=
  nonce ← client_random;
  now ← client_now;
  request ← cl_lift (signed_request id operation_id action (base64url_encode nonce) ((now + 30000) mod 2 ^ 64) body);
  post (route request).

Definition client_installation_status (id operation_id : Uuid) : ClM Allocation :=
  response ← signed_admin_call id operation_id {| is_installation_id := id |} InstallationStatus PostStatus;
  allocation ← cl_lift match response with OfAllocation a => Ok a | _ => Err Rejected end;
  _ ← cl_reject (negb (a_version allocation =? WIRE_VERSION)
                 || negb (bool_decide (a_installation_id allocation = id))
                 || is_err (validate_hostname (a_hostname allocation))) InvalidReceipt;
  mret allocation.

Definition accepted (response : ApiResponse) : result EnrollmentError unit :=
  match response with StatusOnly status => if status =? 202 then Ok tt else Err Rejected | _ => Err Rejected end.

Definition client_retire_installation (id operation_id : Uuid) : ClM unit :=
  response ← signed_admin_call id operation_id {| rr_installation_id := id |} RetireInstallation PostRetire;
  cl_lift (accepted response).

Definition client_register_acme_account (id : Uuid) (account_uri : string) (operation_id : Uuid) : ClM unit :=
  response ← signed_admin_call id operation_id {| aa_account_uri := account_uri |} RegisterAcmeAccount PostAcmeAccount;
  cl_lift (accepted response).

Definition client_issue_credential (id : Uuid) (scope : Scope) (token : string) (operation_id : Uuid) : ClM CredentialIssueReceipt :=
  _ ← cl_reject (bool_decide (scope = SurfaceAdmin)) Rejected;
  let body := {| cr_scope := scope; cr_token_sha256 := sha256_hex (str_bytes token); cr_validity_seconds := 86400 |} in
  now ← client_now;
  nonce ← client_random;
  request ← cl_lift (signed_request id operation_id IssueCredential (base64url_encode nonce) ((now + 30000) mod 2 ^ 64) body);
  response ← post (PostCredentials request);
  receipt ← cl_lift match response with OfCredential r => Ok r | _ => Err Rejected end;
  receipt_now ← client_now;
  _ ← cl_reject (negb (ci_version receipt =? WIRE_VERSION) || negb (bool_decide (ci_scope receipt = scope))
                 || negb (bool_decide (ci_operation_id receipt = operation_id)) || (ci_generation receipt =? 0)
                 || negb (trusted_response_expiry (ci_expires_at_ms receipt) receipt_now 86400000)) InvalidReceipt;
  mret receipt.

(** ** Enrollment *)
Definition client_enroll (admin_public_key : list byte) (relay_receipt_public_keys : list (list byte)) (operation_id : Uuid) :
    ClM AllocationReceipt :=
  answer ← post (PostBootstrapChallenge (cl_source c));
  challenge ← cl_lift match answer with OfChallenge b => Ok b | _ => Err Rejected end;
  _ ← cl_reject (negb (bc_version challenge =? WIRE_VERSION)) IncompatibleProtocol;
  now ← client_now;
  _ ← cl_reject (negb (trusted_response_expiry (bc_expires_at_ms challenge) now 60000)
                 || negb (str_len (bc_nonce challenge) =? 43)) Rejected;
  let body := {| ar_admin_public_key := base64url_encode admin_public_key; ar_bootstrap_nonce := bc_nonce challenge;
                 ar_operation_id := operation_id |} in
  request ← cl_lift (signed_request uuid_nil operation_id Enroll (bc_nonce challenge)
                       (Z.min (u64_saturating_add now 30000) (bc_expires_at_ms challenge)) body);
  answer ← post (PostEnroll (cl_source c) request);
  receipt ← cl_lift match answer with OfReceipt r => Ok r | _ => Err Rejected end;
  receipt_now ← client_now;
  _ ← cl_lift (map_err (fun _ => InvalidReceipt)
        (verify_bytes receipt relay_receipt_public_keys operation_id admin_public_key receipt_now));
  mret receipt.
End client.
