(* ===== verification/ControlClient.v ===== *)
(** * The administration client against the control API

    [relay_client] connects the client of the Signer to the handlers of the
    control API: what a call of the client means for the relay's database,
    from the signature to the receipt. *)

From Stdlib Require Import Ascii String Strings.Byte.
From stdpp Require Import base strings list gmap.
From S2P Require Import Prelude Protocol Db Witness Store StoreCredentials StoreChallenges.
From S2P Require Import StoreLifecycle StoreBootstrap StoreCt StoreHistory StoreInvariant ReceiptSigner ControlApi ControlLogic.
From S2P Require Import ControlProperties AdminClient.

Section composition.
Context {St3 : S3} {Cr : Crypto} {Sg : Signing} {SgL : SigningLaws} {Sd : Serde} {B32 : Base32} {HX : Hex}.
Context (uuid_parse_str : string -> option Uuid) (st : AppState).
Local Abbreviation cfg := (st_config st).

(** The handlers answer; an error status is what the client sees of an error. *)
Definition relay_client (e : ApiEnv) (clock : nat -> Z) (random : nat -> list byte) (source : IpAddr) : Client (nat * Api) := {|
  cl_post request s :=
    match handle uuid_parse_str st request e s with
    | (Ok response, s') => (Ok response, s')
    | (Err err, s') => (Err (StatusCode (e_status err)), s')
    end;
  cl_source := source;
  cl_now s := (clock s.1, (S s.1, s.2));
  cl_random s := (random s.1, (S s.1, s.2))
|}.

Lemma cl_bind_ok {T A B} (m : ClM (S := T) A) (f : A -> ClM B) s b s' :
  (m ≫= f) s = (Ok b, s') -> exists a s1, m s = (Ok a, s1) /\ f a s1 = (Ok b, s').
Proof. unfold mbind, cl_bind. destruct (m s) as [[a|] s1]; [|done]. eauto. Qed.

Lemma cl_lift_ok {T A} (r : result EnrollmentError A) (s : T) a s' : cl_lift r s = (Ok a, s') -> r = Ok a /\ s' = s.
Proof. unfold cl_lift. by intros [= -> ->]. Qed.

(** What a signed request of the client carries. *)
Lemma signed_request_ok sign_message {T} `{Serialize T} id op action nonce expires (body : T) request :
  signed_request sign_message id op action nonce expires body = Ok request -> r_body request = body.
Proof.
  unfold signed_request. intros Hr. apply bind_ok in Hr as (c & _ & Hr). apply bind_ok in Hr as (m & _ & Hr).
  apply bind_ok in Hr as (sg & _ & Hr). by injection Hr as <-.
Qed.

Lemma post_history e clock random source request n s r n' s' :
  api_env st e -> request_typed request ->
  post (relay_client e clock random source) request (n, s) = (r, (n', s')) ->
  history cfg (p_now s) (api_db s) (p_now s') (api_db s').
Proof.
  intros He Hty. unfold post. cbn [cl_post relay_client].
  destruct (handle _ _ request e (n, s)) as [hr [n1 s1]] eqn:Hh. pose proof (handle_holds _ _ _ _ _ _ _ _ _ He Hty Hh) as Hd.
  destruct hr; intros [= _ _ <-]; by destruct Hd.
Qed.

Lemma post_enroll_certifies e clock random source request n s r n' s' :
  api_env st e -> post (relay_client e clock random source) (PostEnroll source request) (n, s) = (Ok (OfReceipt r), (n', s')) ->
  certifies st e (r_body request) r (api_db s').
Proof.
  intros [Hq Hl]. unfold post. cbn [cl_post relay_client]. destruct (handle _ _ _ e (n, s)) as [hr [n1 s1]] eqn:Hh.
  destruct hr as [resp|]; [|done]. cbn. intros [= -> _ <-]. cbn [handle] in Hh. unfold mbind, ap_bind in Hh.
  destruct (enroll st source request e (n, s)) as [[r1|] [n2 s2]] eqn:He; [|done]. injection Hh as -> _ <-.
  by pose proof (enroll_served uuid_parse_str st e Hq Hl s _ source request eq_refl n s _ n2 s2 (start_holds _ _ _ _ _) He) as (_ & _ & _ & _ & ?).
Qed.

(** An enrollment the client accepts. *)
Lemma client_enroll_recorded e clock random source sign_message key pins op n s receipt n' s' :
  api_env st e ->
  client_enroll (relay_client e clock random source) sign_message key pins op (n, s) = (Ok receipt, (n', s')) ->
  history cfg (p_now s) (api_db s) (p_now s') (api_db s') /\ recorded op key (rc_allocation receipt) (api_db s') /\
  exists now, verify_bytes receipt pins op key now = Ok tt.
Proof.
  intros He Hc. unfold client_enroll in Hc.
  apply cl_bind_ok in Hc as (a1 & [n1 s1] & Hpost1 & Hc). apply post_history in Hpost1; [|done..].
  apply cl_bind_ok in Hc as (b & ? & [_ ->]%cl_lift_ok & Hc). apply cl_bind_ok in Hc as ([] & ? & [_ ->]%cl_lift_ok & Hc).
  apply cl_bind_ok in Hc as (now & s2 & Hnow & Hc). injection Hnow as _ <-.
  apply cl_bind_ok in Hc as ([] & ? & [_ ->]%cl_lift_ok & Hc).
  apply cl_bind_ok in Hc as (request & ? & [Hreq%signed_request_ok ->]%cl_lift_ok & Hc).
  apply cl_bind_ok in Hc as (a2 & [n3 s3] & Hpost2 & Hc). pose proof Hpost2 as Hh2. apply post_history in Hh2; [|done..].
  apply cl_bind_ok in Hc as (r & ? & [Hr ->]%cl_lift_ok & Hc). destruct a2; try done. injection Hr as ->.
  apply post_enroll_certifies in Hpost2 as (k & m & sg & Hk & Hrec & _); [|done].
  apply cl_bind_ok in Hc as (now2 & s4 & Hnow & Hc). injection Hnow as _ <-.
  apply cl_bind_ok in Hc as ([] & ? & [Hv ->]%cl_lift_ok & Hc). injection Hc as -> _ <-.
  rewrite Hreq in Hk, Hrec. unfold enroll_key in Hk. cbn [ar_admin_public_key ar_operation_id snd] in *.
  rewrite base64url_roundtrip in Hk. cbn in Hk. case_bool_decide; [|done]. apply bind_ok in Hk as (vk & _ & Hk). injection Hk as <-.
  split_and!; [by eapply history_trans|done|]. exists now2. by destruct (verify_bytes _ _ _ _ _) as [[]|].
Qed.

(** an enrollment the client accepts is the relay's record, and a retry
    is the same one. Whatever else happens at the relay, during the calls and
    between them, when [client_enroll] returns a receipt the relay records the
    installation it names under the client's key, and a later call for the
    same operation that succeeds names the same installation and hostname. *)
Theorem enrollment_idempotent e clock random source sign_message key pins op n s receipt n' s'
    e2 clock2 random2 source2 sign_message2 pins2 n2 s2 receipt2 n2' s2' :
  api_env st e -> api_env st e2 ->
  client_enroll (relay_client e clock random source) sign_message key pins op (n, s) = (Ok receipt, (n', s')) ->
  history cfg (p_now s') (api_db s') (p_now s2) (api_db s2) ->
  client_enroll (relay_client e2 clock2 random2 source2) sign_message2 key pins2 op (n2, s2) = (Ok receipt2, (n2', s2')) ->
  recorded op key (rc_allocation receipt) (api_db s2') /\
  a_installation_id (rc_allocation receipt2) = a_installation_id (rc_allocation receipt) /\
  a_hostname (rc_allocation receipt2) = a_hostname (rc_allocation receipt).
Proof.
  intros He He2 Hc Hh Hc2. apply client_enroll_recorded in Hc as (_ & Hrec & _); [|done].
  apply client_enroll_recorded in Hc2 as (Hh2 & Hrec2 & _); [|done].
  assert (recorded op key (rc_allocation receipt) (api_db s2')) as Hr.
  { eapply (recorded_history st); [|done]. by eapply history_trans. }
  split; [done|]. destruct Hr as (_ & row & o & Hrow & _ & Hho & Ho & Hid), Hrec2 as (_ & row2 & o2 & Hrow2 & _ & Hho2 & Ho2 & Hid2).
  rewrite Ho in Ho2. injection Ho2 as <-. rewrite Hid in Hid2. split; [done|].
  rewrite <-Hid2, Hrow in Hrow2. injection Hrow2 as <-. congruence.
Qed.
End composition.
