(* ===== verification/ControlLiveness.v ===== *)
(** * Enrollment against a healthy relay succeeds

    With the relay's dependencies available and clocks within five seconds of
    each other, the client's enrollment goes through: challenge, signature,
    allocation and receipt. *)

From Stdlib Require Import Ascii String Strings.Byte.
From stdpp Require Import base strings list gmap.
From S2P Require Import Prelude Protocol Db Witness Store StoreCredentials StoreChallenges StoreLifecycle StoreBootstrap StoreCt StoreHistory.
From S2P Require Import StoreInvariant ReceiptSigner ControlApi ControlLogic ControlProperties AdminClient ControlClient StoreEffects StoreProperties.

(** No constraint of the schema gets in the way of an allocation. *)
Lemma allocate_tx_succeeds `{Base32} now op key placement id label d :
  invariant d -> valid_placement placement = true -> d_operations d !! op = None -> d_installations d !! id = None ->
  d_reservations d !! hostname_of_random label = None -> List.length key = 32%nat -> d_revision d < i64_max ->
  exists a d', allocate_tx now op key placement id label d = Ok (a, d') /\ d_revision d <= d_revision d' /\
    a = allocation_from_row id (allocated_row now key placement (hostname_of_random label)) /\
    d_installations d' !! id = Some (allocated_row now key placement (hostname_of_random label)).
Proof.
  intros [Hwf _] Hp Hop Hid Hr Hk Hrev. set (h := hostname_of_random label) in *.
  assert (~ map_Exists (fun _ r => i_hostname r = h) (d_installations d)) as Hhost.
  { intros (i & r & Hi & Hh). pose proof (proj2 (wf_hosts _ Hwf h i) (ex_intro _ r (conj Hi Hh))). congruence. }
  assert (allocate_tx now op key placement id label d =
    Ok (allocation_from_row id (allocated_row now key placement h), allocated now op key placement id h d)) as ->.
  { unfold allocate_tx. apply tx_bind_ok. exists tt, d. rewrite Hp. split; [done|].
    apply tx_bind_ok. exists None, d. split; [unfold tx_gets; by rewrite Hop|]. cbn beta iota. fold h.
    apply tx_bind_ok. eexists tt, _. split.
    { unfold insert_installation, has_installation. cbn [i_hostname i_admin_public_key].
      rewrite Hid, (bool_decide_false (map_Exists _ _)), (bool_decide_true (List.length key = 32%nat)) by done. done. }
    assert (forall x, has_installation id (set_installations <[id := x]> d) = true) as Hhas.
    { intros x. unfold has_installation. cbn. rewrite lookup_insert_eq. by apply bool_decide_true. }
    apply tx_bind_ok. eexists tt, _. split.
    { unfold insert_reservation. rewrite Hhas. cbn [d_reservations set_installations]. by rewrite Hr. }
    apply tx_bind_ok. eexists tt, _. split.
    { unfold insert_operation. cbn [d_operations set_reservations set_installations o_installation_id o_request_digest]. rewrite Hop.
      change (has_installation id (set_reservations _ ?x)) with (has_installation id x). rewrite Hhas. done. }
    apply tx_bind_ok. eexists tt, _. split.
    { unfold insert_outbox. change (has_installation id (set_operations _ ?x)) with (has_installation id x).
      change (has_installation id (set_reservations _ ?x)) with (has_installation id x). by rewrite Hhas. }
    apply tx_bind_ok. eexists tt, _. split; [|done].
    unfold insert_audit. change (has_installation id (add_outbox _ _ _ _ (set_operations _ (set_reservations _ ?x)))) with (has_installation id x).
    rewrite Hhas. unfold mbind, tx_bind, tx_modify, advance_restore_fence. cbn.
    by rewrite (proj2 (Z.ltb_lt _ _) Hrev). }
  eexists _, _. split_and!; [done|cbn; lia|done|]. cbn. by rewrite lookup_insert_eq.
Qed.

Section liveness.
Context {St3 : S3} {Cr : Crypto} {Sg : Signing} {SgL : SigningLaws} {Sd : Serde} {B32 : Base32} {B32L : Base32Law} {HX : Hex}.
Context (uuid_parse_str : string -> option Uuid) (st : AppState).
Local Abbreviation cfg := (st_config st).

(** The Signer's key signs. *)
Definition signs_with (key : SigningKey) (message : list byte) : result EnrollmentError (list byte) :=
  Ok (signature_to_bytes (ed25519_sign key message)).
Definition public_bytes (key : SigningKey) : list byte := key_to_bytes (verifying_key key).

(** Canonical JSON of the control messages exists. *)
Context (jcs_total : forall v, is_Some (jcs_to_vec v)).

(** What the client signs, the relay accepts. *)
Lemma signed_request_verifies key {T} `{Serialize T} id op action nonce expires (body : T) canonical now :
  jcs_to_vec (to_json body) = Some canonical -> Z.of_nat (List.length canonical) <= MAX_CONTROL_BODY ->
  now < expires <= u64_saturating_add now 60000 ->
  exists signature,
    let claims := admin_claims id op action nonce expires canonical in
    signed_request (signs_with key) id op action nonce expires body =
      Ok {| r_claims := claims; r_body := body; r_signature := signature |} /\
    claims_verify claims canonical signature (verifying_key key) SurfaceAdmin action CONTROL_AUDIENCE now = Ok tt.
Proof.
  intros Hc Hlen Hnow. set (claims := admin_claims id op action nonce expires canonical).
  destruct (jcs_total (claims_json claims)) as [m Hm].
  assert (signing_bytes claims = Ok (CONTROL_DOMAIN ++ m)) as Hs by (unfold signing_bytes; cbn -[claims_json]; by rewrite Hm).
  exists (base64url_encode (signature_to_bytes (ed25519_sign key (CONTROL_DOMAIN ++ m)))). cbn zeta. split.
  - unfold signed_request. rewrite Hc. cbn -[signing_bytes]. fold claims. by rewrite Hs.
  - unfold claims_verify. cbn [c_scope c_action c_audience c_expires_at_ms c_body_sha256 claims admin_claims].
    rewrite !bool_decide_true by done. cbn [negb orb].
    rewrite (proj2 (Z.leb_gt _ _)), (proj2 (Z.ltb_ge _ _)), (proj2 (Z.ltb_ge _ _)) by lia. cbn [negb orb].
    rewrite base64url_roundtrip. cbn [ok_or mbind result_bind]. rewrite signature_roundtrip. cbn [ok_or mbind result_bind].
    rewrite Hs. cbn [mbind result_bind]. by rewrite sign_verifies.
Qed.

(** ** A healthy relay *)

(** Store calls reach the database and their acknowledgements succeed;
    meanwhile only time passes, less than a minute from [P]. [acks] are the
    worlds whose witness vouches for the database. *)
Record healthy (e : ApiEnv) (acks : World -> Prop) (P : Z) : Prop := {
  he_time n s : p_world (n_others e n s) = p_world s /\ P <= p_now (n_others e n s) < P + minutes 1;
  he_fault n : n_fault e n = None;
  he_ack n w : acks w -> exists w', acknowledge (n_ack e n) w = (Ok tt, w') /\ acks w';
  he_grow w d : acks w -> d_revision (w_db w) <= d_revision d -> acks (with_db d w);
  he_sign n message : is_ok (sign (st_signer st) (n_kms e n message) message) = true
}.

Context (e : ApiEnv) (acks : World -> Prop) (P : Z) (he : healthy e acks P).

Lemma run_ack {A} n (m : Z -> Tx A) t w a d' :
  acks w -> m t (w_db w) = Ok (a, d') -> d_revision (w_db w) <= d_revision d' ->
  exists w', ack_tx m (n_ack e n) t w = (Ok a, w') /\ w_db w' = d' /\ acks w'.
Proof.
  intros Hw Hm Hrev. unfold ack_tx, run_tx. rewrite Hm.
  destruct (he_ack _ _ _ he n (with_db d' w)) as (w' & Ha & Hw'); [by apply (he_grow _ _ _ he)|].
  rewrite Ha. cbn. exists w'. split_and!; [done|by apply acknowledge_db in Ha|done].
Qed.

Lemma run_transact {A} on_error r (f : AckEnv -> Z -> World -> result StoreError A * World) n s a (R : World -> Prop) :
  (forall t, P <= t < P + minutes 1 -> exists w, f (n_ack e n) t (p_world s) = (Ok a, w) /\ R w) ->
  exists s', transact on_error r f e (n, s) = (Ok a, (S n, s')) /\ R (p_world s').
Proof.
  intros Hf. destruct (he_time _ _ _ he n s) as [Hw Ht]. destruct (Hf _ Ht) as (w & Hr & HR).
  unfold transact. cbn [fst snd]. rewrite (he_fault _ _ _ he), Hw, Hr. eexists. split; [done|]. done.
Qed.

(** The relay may issue a challenge to the source. *)
Definition under_quota (source : IpAddr) (d : Db) : Prop := forall t, P <= t < P + minutes 1 ->
  (local_count t source d < 10 /\ global_count t d < 100 /\ daily_enrollments t source d < 20)%nat.

Definition issued_challenge (source : IpAddr) (nonce : string) (d d' : Db) : Prop :=
  exists t, P <= t < P + minutes 1 /\ d' = set_bootstrap <[nonce := challenge_row t source]> d.

Lemma challenge_succeeds source n s :
  acks (p_world s) -> under_quota source (api_db s) -> d_bootstrap (api_db s) !! base64url_encode (n_nonce e n) = None ->
  exists s', challenge source e (n, s) =
      (Ok {| bc_version := WIRE_VERSION; bc_nonce := base64url_encode (n_nonce e n);
             bc_expires_at_ms := (n_clock e (S n) + 60000) mod 2 ^ 64 |}, (S (S n), s')) /\
    acks (p_world s') /\ issued_challenge source (base64url_encode (n_nonce e n)) (api_db s) (api_db s').
Proof.
  intros Hw Hq Hn. set (nonce := base64url_encode (n_nonce e n)) in *.
  destruct (run_transact only_unavailable (CreateBootstrapChallenge nonce source)
    (fun ae now w => create_bootstrap_challenge ae now nonce source w) n s true
    (fun w => acks w /\ issued_challenge source nonce (api_db s) (w_db w))) as (s' & Hr & Hw' & Hi).
  { intros t Ht. destruct (Hq t Ht) as (H1 & H2 & H3).
    assert (create_bootstrap_challenge_tx t nonce source (api_db s) =
      Ok (true, set_bootstrap <[nonce := challenge_row t source]> (api_db s))) as Hc.
    { unfold create_bootstrap_challenge_tx. rewrite Hn.
      by rewrite !(proj2 (Z.leb_gt _ _)) by lia. }
    destruct (run_ack n (fun now => create_bootstrap_challenge_tx now nonce source) t (p_world s) true _ Hw Hc) as (w & Ha & Hd & Hw');
      [done|].
    exists w. unfold create_bootstrap_challenge. fold (api_db s). rewrite Hc. split; [exact Ha|]. split; [done|]. exists t. done. }
  exists s'. split; [|done]. unfold challenge, random_nonce. unfold mbind, ap_bind. cbn [fst snd]. fold nonce.
  rewrite Hr. done.
Qed.

(** The relay's state allows the allocation of a new installation. *)
Record allocatable (op : Uuid) (d : Db) : Prop := {
  al_invariant : invariant d;
  al_operation : d_operations d !! op = None;
  al_revision : d_revision d < i64_max;
  al_id n : d_installations d !! n_uuid e n = None;
  al_label n : List.length (n_label e n) = 16%nat /\ d_reservations d !! hostname_of_random (n_label e n) = None
}.

Lemma allocatable_bootstrap f op d : allocatable op d -> allocatable op (set_bootstrap f d).
Proof.
  intros [[Hwf Hf] Hop Hrev Hid Hl]. split; [|done..]. split; [|exact Hf]. by apply (WF_core_eq d).
Qed.

Context (placement_ok : valid_placement (st_placement st) = true).

Lemma allocate_succeeds op key n s :
  acks (p_world s) -> allocatable op (api_db s) -> List.length key = 32%nat ->
  exists a s', allocate st op key e (n, s) = (Ok a, (S n, s')) /\ a_version a = WIRE_VERSION /\
    validate_hostname (a_hostname a) = Ok tt /\
    exists row, d_installations (api_db s') !! a_installation_id a = Some row /\ i_admin_public_key row = key /\
      i_hostname row = a_hostname a /\ i_state row = PendingDns.
Proof.
  intros Hw [Hinv Hop Hrev Hid Hl] Hk. set (h := hostname_of_random (n_label e n)).
  set (a := allocation_from_row (n_uuid e n) (allocated_row 0 key (st_placement st) h)).
  destruct (run_transact conflict_or_unavailable (Allocate op key (st_placement st) (n_uuid e n) (n_label e n))
    (ack_tx (fun now => allocate_tx now op key (st_placement st) (n_uuid e n) (n_label e n))) n s a
    (fun w => exists t, d_installations (w_db w) !! n_uuid e n = Some (allocated_row t key (st_placement st) h)))
    as (s' & Hr & t & Hrow).
  { intros t Ht. destruct (Hl n) as [_ Hfresh].
    destruct (allocate_tx_succeeds t op key (st_placement st) (n_uuid e n) (n_label e n) (api_db s)) as (a' & d' & Ha & Hge & -> & Hrow); [done..|].
    destruct (run_ack n (fun now => allocate_tx now op key (st_placement st) (n_uuid e n) (n_label e n)) t (p_world s) _ _ Hw Ha Hge)
      as (w & Hrun & Hd & _). exists w. split; [exact Hrun|]. exists t. by rewrite Hd. }
  exists a, s'. split; [exact Hr|]. split; [done|]. split; [apply hostname_of_random_valid, Hl|]. eexists. split; [exact Hrow|]. done.
Qed.

(** A request the client signed for the challenge. *)
Lemma enroll_succeeds key source request n s canonical t0 :
  let body := {| ar_admin_public_key := base64url_encode (public_bytes key);
                 ar_bootstrap_nonce := c_nonce (r_claims request); ar_operation_id := c_operation_id (r_claims request) |} in
  r_body request = body -> c_installation_id (r_claims request) = uuid_nil ->
  jcs_to_vec (to_json body) = Some canonical ->
  claims_verify (r_claims request) canonical (r_signature request) (verifying_key key) SurfaceAdmin Enroll
    (st_audience st) (n_clock e n) = Ok tt ->
  acks (p_world s) -> allocatable (c_operation_id (r_claims request)) (api_db s) ->
  P <= t0 -> d_bootstrap (api_db s) !! c_nonce (r_claims request) = Some (challenge_row t0 source) ->
  exists a m signature message n' s',
    let r := receipt_of a (c_operation_id (r_claims request)) (public_bytes key) (n_clock e m) (base64url_encode (signature_to_bytes signature)) in
    enroll st source request e (n, s) = (Ok r, (n', s')) /\
    validate_hostname (a_hostname a) = Ok tt /\ signed_bytes r = Ok message /\
    ed25519_verify (public_key (st_signer st)) message signature = true /\
    exists row, d_installations (api_db s') !! a_installation_id a = Some row /\ i_admin_public_key row = public_bytes key /\
      i_hostname row = a_hostname a /\ i_state row = PendingDns.
Proof.
  intros body Hbody Hnil Hcan Hv Hw Hal Ht0 Hb.
  set (op := c_operation_id (r_claims request)) in *. set (nonce := c_nonce (r_claims request)) in *.
  assert (enroll_key (r_body request) = Ok (public_bytes key, verifying_key key)) as Hkey.
  { rewrite Hbody. unfold enroll_key, body, public_bytes. cbn -[base64url_decode]. rewrite base64url_roundtrip. cbn.
    by rewrite bool_decide_true, key_roundtrip by apply key_length. }
  destruct (run_transact only_unavailable (ConsumeBootstrapChallenge nonce source)
    (fun _ now w => consume_bootstrap_challenge now nonce source w) (S n) s true
    (fun w => acks w /\ allocatable op (w_db w))) as (s1 & Hr1 & Hw1 & Hal1).
  { intros t Ht. unfold consume_bootstrap_challenge, exec_tx, consume_bootstrap_challenge_tx. fold (api_db s). rewrite Hb.
    cbn [b_source_ip b_expires_at b_consumed_at challenge_row]. rewrite !bool_decide_true, (proj2 (Z.ltb_lt _ _)) by (done || lia).
    eexists. split; [reflexivity|]. split; [by apply (he_grow _ _ _ he)|by apply allocatable_bootstrap]. }
  destruct (allocate_succeeds op (public_bytes key) (S (S n)) s1 Hw1 Hal1) as (a & s2 & Hr2 & Hav & Hah & Hrow); [apply key_length|].
  destruct (jcs_total (JArr [allocation_json a; JStr (uuid_to_string op); JStr (sha256_hex (public_bytes key));
    JNum (n_clock e (S (S (S n))))])) as [msg Hmsg].
  assert (forall sg, signed_bytes (receipt_of a op (public_bytes key) (n_clock e (S (S (S n)))) sg) = Ok (RECEIPT_DOMAIN ++ msg)) as Hsb.
  { intros sg. unfold signed_bytes. cbn [rc_allocation receipt_of]. rewrite Hav. cbn [negb Z.eqb WIRE_VERSION Pos.eqb rc_operation_id rc_admin_key_sha256 rc_issued_at_ms receipt_of]. by rewrite Hmsg. }
  pose proof (he_sign _ _ _ he (S (S (S (S n)))) (RECEIPT_DOMAIN ++ msg)) as Hsign.
  destruct (sign _ _ _) as [bytes|] eqn:Hs; [|done]. pose proof (sign_ok _ _ _ _ Hs) as (signature & -> & Hok).
  exists a, (S (S (S n))), signature, (RECEIPT_DOMAIN ++ msg), (S (S (S (S (S n))))), (n_others e (S (S (S (S n)))) s2).
  split; [|split_and!; [done|apply Hsb|done|]].
  - unfold enroll. rewrite Hkey, Hbody. fold op nonce. unfold mbind at 1, ap_bind at 1, ap_lift. cbn [fst snd].
    unfold ap_some, ap_lift. rewrite Hcan. unfold mbind, ap_bind, ap_reject, ap_lift, now_ms. cbn [ok_or fst snd body ar_operation_id ar_bootstrap_nonce].
    rewrite Hnil, !bool_decide_true by done. cbn [negb orb]. rewrite Hv. cbn [map_err]. rewrite Hr1. cbn [negb]. rewrite Hr2.
    cbn [fst snd]. rewrite Hsb. cbn [map_err]. unfold sign_receipt. cbn [fst snd]. rewrite Hs. done.
  - unfold api_db. by rewrite (proj1 (he_time _ _ _ he _ _)).
Qed.

(** Every reading of the two clocks is within five seconds. *)
Definition clocks_agree (clock : nat -> Z) : Prop := exists T, 0 <= T /\ T + 200000 <= u64_max /\
  forall m, T <= n_clock e m <= T + 5000 /\ T <= clock m <= T + 5000.

Lemma receipt_verifies r message signature op key pins pin now :
  validate_hostname (a_hostname (rc_allocation r)) = Ok tt -> rc_operation_id r = op -> rc_admin_key_sha256 r = sha256_hex key ->
  rc_issued_at_ms r <= u64_saturating_add now TRUSTED_RESPONSE_CLOCK_SKEW_MS -> u64_saturating_sub now (rc_issued_at_ms r) <= 300000 ->
  rc_signature r = base64url_encode (signature_to_bytes signature) -> signed_bytes r = Ok message ->
  ed25519_verify (public_key (st_signer st)) message signature = true ->
  Forall (fun k => is_Some (key_from_bytes k)) pins -> pin ∈ pins -> key_from_bytes pin = Some (public_key (st_signer st)) ->
  verify_bytes r pins op key now = Ok tt.
Proof.
  intros Hh Hop Hk Hi Ha Hs Hm Hv Hpins Hpin Hpk. apply verify_bytes_any_pinned_key; [done|]. exists pin, (public_key (st_signer st)).
  split_and!; [done..|]. unfold receipt_verify. rewrite Hh. cbn [mbind result_bind]. rewrite !bool_decide_true by done.
  rewrite !(proj2 (Z.ltb_ge _ _)) by done. cbn [negb orb]. rewrite Hs, base64url_roundtrip. cbn [ok_or mbind result_bind].
  rewrite signature_roundtrip. cbn [ok_or mbind result_bind]. rewrite Hm. cbn [mbind result_bind]. by rewrite Hv.
Qed.

Lemma cl_bind_run {U A B} (m : ClM (S := U) A) (f : A -> ClM B) s a s1 : m s = (Ok a, s1) -> (m ≫= f) s = f a s1.
Proof. unfold mbind, cl_bind. by intros ->. Qed.

Lemma post_ok clock random source request s response s' :
  handle uuid_parse_str st request e s = (Ok response, s') ->
  post (relay_client uuid_parse_str st e clock random source) request s = (Ok response, s').
Proof. unfold post. cbn [cl_post relay_client]. by intros ->. Qed.

(** The client's side, given the relay's answers. *)
Lemma client_enroll_run key pins op clock random source s nonce expiry n1 s1 request receipt n2 s2 :
  handle uuid_parse_str st (PostBootstrapChallenge source) e s =
    (Ok (OfChallenge {| bc_version := WIRE_VERSION; bc_nonce := nonce; bc_expires_at_ms := expiry |}), (n1, s1)) ->
  negb (trusted_response_expiry expiry (clock n1) 60000) || negb (str_len nonce =? 43) = false ->
  signed_request (signs_with key) uuid_nil op Enroll nonce (Z.min (u64_saturating_add (clock n1) 30000) expiry)
    {| ar_admin_public_key := base64url_encode (public_bytes key); ar_bootstrap_nonce := nonce; ar_operation_id := op |} = Ok request ->
  handle uuid_parse_str st (PostEnroll source request) e (S n1, s1) = (Ok (OfReceipt receipt), (n2, s2)) ->
  verify_bytes receipt pins op (public_bytes key) (clock n2) = Ok tt ->
  client_enroll (relay_client uuid_parse_str st e clock random source) (signs_with key) (public_bytes key) pins op s
    = (Ok receipt, (S n2, s2)).
Proof.
  intros Hp1 Hexp Hreq Hp2 Hver. unfold client_enroll. cbn [cl_source relay_client].
  erewrite cl_bind_run by (apply post_ok, Hp1). erewrite cl_bind_run by reflexivity. erewrite cl_bind_run by reflexivity.
  erewrite cl_bind_run by reflexivity. cbn [bc_expires_at_ms bc_nonce fst snd].
  erewrite cl_bind_run; [|unfold cl_reject, cl_lift; rewrite Hexp; reflexivity].
  erewrite cl_bind_run; [|unfold cl_lift; rewrite Hreq; reflexivity].
  erewrite cl_bind_run by (apply post_ok, Hp2). erewrite cl_bind_run by reflexivity. erewrite cl_bind_run by reflexivity.
  erewrite cl_bind_run; [|unfold cl_lift; cbn [fst]; rewrite Hver; reflexivity]. done.
Qed.

(** C10: enrollment against a healthy relay succeeds. When store calls and
    receipt signing go through, the source is under its quota, and the two
    clocks agree to five seconds, the client's call returns a receipt that
    verifies under a pinned key, and the relay then has the installation
    pending under the client's key. *)
Theorem client_enrolls key pins pin op n s clock random source :
  st_audience st = CONTROL_AUDIENCE -> acks (p_world s) -> allocatable op (api_db s) -> under_quota source (api_db s) ->
  d_bootstrap (api_db s) !! base64url_encode (n_nonce e n) = None -> List.length (n_nonce e n) = 32%nat ->
  (forall canonical, jcs_to_vec (to_json {| ar_admin_public_key := base64url_encode (public_bytes key);
       ar_bootstrap_nonce := base64url_encode (n_nonce e n); ar_operation_id := op |}) = Some canonical ->
     Z.of_nat (List.length canonical) <= MAX_CONTROL_BODY) ->
  clocks_agree clock -> Forall (fun k => is_Some (key_from_bytes k)) pins -> pin ∈ pins ->
  key_from_bytes pin = Some (public_key (st_signer st)) ->
  exists receipt n' s' row,
    client_enroll (relay_client uuid_parse_str st e clock random source) (signs_with key) (public_bytes key) pins op (n, s)
      = (Ok receipt, (n', s')) /\
    d_installations (api_db s') !! a_installation_id (rc_allocation receipt) = Some row /\
    i_admin_public_key row = public_bytes key /\ i_hostname row = a_hostname (rc_allocation receipt) /\ i_state row = PendingDns.
Proof.
  intros Haud Hw Hal Hq Hfresh Hlen Hsize (T & HT & Hmax & Hclk) Hpins Hpin Hpk.
  set (nonce := base64url_encode (n_nonce e n)) in *.
  destruct (challenge_succeeds source n s Hw Hq Hfresh) as (s1 & Hr1 & Hw1 & t0 & Ht0 & Hd1). fold nonce in Hr1, Hd1.
  rewrite Z.mod_small in Hr1 by (unfold u64_max in Hmax; pose proof (Hclk (S n)); lia).
  set (body := {| ar_admin_public_key := base64url_encode (public_bytes key); ar_bootstrap_nonce := nonce; ar_operation_id := op |}) in *.
  destruct (jcs_total (to_json body)) as [canonical Hcan].
  set (expires := Z.min (u64_saturating_add (clock (S (S n))) 30000) (n_clock e (S n) + 60000)).
  assert (negb (trusted_response_expiry (n_clock e (S n) + 60000) (clock (S (S n))) 60000) || negb (str_len nonce =? 43) = false) as Hexp.
  { unfold nonce, trusted_response_expiry, u64_saturating_add, TRUSTED_RESPONSE_CLOCK_SKEW_MS. rewrite base64url_length by done.
    pose proof (Hclk (S n)). pose proof (Hclk (S (S n))). rewrite (proj2 (Z.ltb_lt _ _)), (proj2 (Z.leb_le _ _)) by lia. done. }
  destruct (signed_request_verifies key uuid_nil op Enroll nonce expires body canonical (n_clock e (S (S (S n))))) as (sig & Hreq & Hv);
    [done|by apply Hsize| |].
  { unfold expires, u64_saturating_add. pose proof (Hclk (S n)). pose proof (Hclk (S (S n))). pose proof (Hclk (S (S (S n)))). lia. }
  set (request := {| r_claims := admin_claims uuid_nil op Enroll nonce expires canonical; r_body := body; r_signature := sig |}) in *.
  destruct (enroll_succeeds key source request (S (S (S n))) s1 canonical t0) as (a & m & signature & message & n2 & s2 & Hr2 & Hah & Hm & Hok & row & Hrow & Hrk & Hrh & Hrs);
    [done|done|done|by rewrite Haud|done|rewrite Hd1; by apply allocatable_bootstrap|lia|rewrite Hd1; cbn; by rewrite lookup_insert_eq|].
  set (receipt := receipt_of _ _ _ _ _) in *.
  exists receipt, (S n2), s2, row. split; [|done].
  assert (handle uuid_parse_str st (PostBootstrapChallenge source) e (n, s) =
    (Ok (OfChallenge {| bc_version := WIRE_VERSION; bc_nonce := nonce; bc_expires_at_ms := n_clock e (S n) + 60000 |}), (S (S n), s1))) as Hp1.
  { cbn [handle]. unfold mbind, ap_bind. by rewrite Hr1. }
  assert (handle uuid_parse_str st (PostEnroll source request) e (S (S (S n)), s1) = (Ok (OfReceipt receipt), (n2, s2))) as Hp2.
  { cbn [handle]. unfold mbind, ap_bind. by rewrite Hr2. }
  assert (verify_bytes receipt pins op (public_bytes key) (clock n2) = Ok tt) as Hver.
  { eapply receipt_verifies; eauto; cbn [receipt rc_issued_at_ms receipt_of]; pose proof (Hclk m); pose proof (Hclk n2);
      unfold u64_saturating_add, u64_saturating_sub, TRUSTED_RESPONSE_CLOCK_SKEW_MS; lia. }
  by eapply client_enroll_run.
Qed.
End liveness.

(** ** The configuration

    A service that starts serves the audience the client signs for, and its
    bearer lifetimes are ones the client's expiry check trusts. *)
Lemma epoch_ms_seconds t k : 0 <= t -> 0 <= k -> epoch_ms (t + seconds k) = epoch_ms t + 1000 * k.
Proof.
  intros Ht Hk. unfold epoch_ms, round_div, seconds. rewrite !(proj2 (Z.leb_le _ _)) by lia.
  replace (t + k * 1000000 + 1000 / 2) with (t + 1000 / 2 + 1000 * k * 1000) by lia. rewrite Z.div_add by lia. done.
Qed.

(** A bearer that lives between a minute and a day. *)
Lemma lifetime_trusted now k client :
  0 <= now <= i64_max -> 60 <= k <= 86400 -> 0 <= client -> Z.abs (epoch_ms now - client) <= TRUSTED_RESPONSE_CLOCK_SKEW_MS ->
  trusted_response_expiry (i64_as_u64 (epoch_ms (now + seconds k))) client 86400000 = true.
Proof.
  intros Hnow Hk Hc Hskew. pose proof (epoch_ms_range now ltac:(lia)).
  assert (0 <= epoch_ms (now + seconds k) <= i64_max) as Hr.
  { apply epoch_ms_range. unfold seconds, i64_max in *. lia. }
  rewrite i64_as_u64_id by done. rewrite epoch_ms_seconds in * by lia.
  unfold trusted_response_expiry, u64_saturating_add, TRUSTED_RESPONSE_CLOCK_SKEW_MS, u64_max, i64_max in *.
  apply andb_true_iff. rewrite Z.ltb_lt, Z.leb_le. lia.
Qed.

Lemma credential_windows_self v g w : credential_windows v g = Ok w -> validity w = v /\ renewal_grace w = g.
Proof. unfold credential_windows. case_match; [done|]. by intros [= <-]. Qed.

Section configuration.
Context {Cr : Crypto} {Sg : Signing}.

Lemma configure_ok audience placement witness acme validity grace signer st :
  configure audience placement witness acme validity grace signer = Ok st ->
  st_audience st = CONTROL_AUDIENCE /\ windows_ok (st_config st).
Proof.
  unfold configure. intros Hc. apply bind_ok in Hc as (a & _ & Hc). case_bool_decide as Ha; [|done]. cbn [negb] in Hc.
  apply bind_ok in Hc as (p & _ & Hc). apply bind_ok in Hc as (s & _ & Hc). apply bind_ok in Hc as (w & _ & Hc).
  apply bind_ok in Hc as (env & _ & Hc). apply bind_ok in Hc as (win & Hw & Hc). injection Hc as <-. split; [done|].
  destruct (credential_windows_from_env _ _) as [win'|] eqn:Hwin; [|done]. injection Hw as ->.
  unfold credential_windows_from_env in Hwin. apply bind_ok in Hwin as (v & _ & Hwin). apply bind_ok in Hwin as (g & _ & Hwin).
  destruct (credential_windows v g) as [w'|] eqn:Hcw; [|done]. injection Hwin as ->.
  unfold windows_ok. cbn. destruct (credential_windows_self _ _ _ Hcw) as [-> ->]. done.
Qed.

(** a service that starts issues bearers its clients trust. It serves the
    audience the administration client signs for, and the expiry of every
    bearer it issues or renews passes the client's check while the client's
    clock is within five seconds of the database's. *)
Theorem configured_bearers_trusted audience placement witness acme validity grace signer st :
  configure audience placement witness acme validity grace signer = Ok st ->
  st_audience st = CONTROL_AUDIENCE /\
  forall now id op scope d client, 0 <= now <= i64_max -> 0 <= client ->
    Z.abs (epoch_ms now - client) <= TRUSTED_RESPONSE_CLOCK_SKEW_MS -> d_operations d !! op = None ->
    (forall hash vs g expires d', issue_bearer_tx (st_config st) now id op scope hash vs d = Ok ((g, expires), d') ->
       trusted_response_expiry expires client 86400000 = true) /\
    (forall g token hash g' expires d', renew_bearer_tx (st_config st) now id op scope g token hash d = Ok ((g', expires), d') ->
       trusted_response_expiry expires client 86400000 = true).
Proof.
  intros [Ha Hw]%configure_ok. split; [done|]. pose proof (windows_ok_secs _ Hw) as Hsecs.
  intros now id op scope d client Hnow Hc Hskew Hop. split.
  - intros hash vs g expires d' (_ & Hvs & [(? & ? & _) | (row & _ & _ & _ & _ & Hr & _)])%issue_bearer_tx_ok; [congruence|].
    injection Hr as _ ->. apply lifetime_trusted; [done|lia|done..].
  - intros g token hash g' expires d' (_ & [(? & ? & _) | (row & c & _ & _ & _ & _ & _ & _ & Hr & _)])%renew_bearer_tx_ok; [congruence|].
    injection Hr as _ ->. apply lifetime_trusted; [done|lia|done..].
Qed.
End configuration.
