(* ===== verification/Sweeper.v ===== *)
(** * The sweeper of the control API: crates/bloom-relay-control/src/main.rs

    The background task that retires allocations pending for more than a day,
    drops lapsed challenge values and prunes spent challenges and nonces, other
    processes running at each of its awaits. Repeated sweeps work off any
    backlog of expired allocations. *)

From Stdlib Require Import Ascii String Strings.Byte Sorted.
From stdpp Require Import base strings list gmap sorting.
From S2P Require Import Prelude Protocol Db Witness Store StoreCredentials StoreChallenges StoreLifecycle StoreBootstrap.
From S2P Require Import StoreHistory StoreInvariant ControlLogic.

Section sweeper.
Context {St3 : S3} {Cr : Crypto} {B32 : Base32}.

(** The awaits of one turn. *)
Inductive SweepPoint :=
| BeforePending | BeforePendingRound (n : nat)
| BeforeValues | BeforeValuesRound (n : nat)
| BeforeChallenges | BeforeNonces | BeforeAck.

(** The database clock at the calls of one turn and when its first two sweeps
    are over, and what other processes do at its awaits. *)
Record SweepRun := {
  sw_pending : Z;
  sw_pending_rounds : nat -> Z;
  sw_pending_end : Z;
  sw_values : Z;
  sw_values_rounds : nat -> Z;
  sw_values_end : Z;
  sw_challenges : Z;
  sw_nonces : Z;
  sw_others : SweepPoint -> World -> World
}.

(** A turn of the loop: an error of one sweep does not stop the next. *)
Definition sweeper_turn (ae : AckEnv) (t : SweepRun) (w : World) : World :=
  let others := sw_others t in
  let w1 := (expire_pending_allocations ae (fun n => others (BeforePendingRound n)) (sw_pending t) (sw_pending_rounds t) 100
               (others BeforePending w)).2 in
  let w2 := (expire_challenge_values ae (fun n => others (BeforeValuesRound n)) (sw_values t) (sw_values_rounds t) 100
               (others BeforeValues w1)).2 in
  (prune_bootstrap_and_nonces ae (others BeforeNonces) (others BeforeAck) (sw_challenges t) (sw_nonces t) 1000
     (others BeforeChallenges w2)).2.
End sweeper.

(** ** The backlog of expired allocations *)

(** In a list sorted by age, the old rows come first. *)
Lemma sorted_prefix (cutoff : Z) (l : list (Uuid * Installation)) :
  StronglySorted created_le l ->
  l = filter (fun x => i_created_at x.2 < cutoff) l ++ filter (fun x => ~ i_created_at x.2 < cutoff) l.
Proof.
  induction 1 as [|x l _ IH Hx]; [done|]. rewrite !filter_cons.
  destruct (decide (i_created_at x.2 < cutoff)) as [Hlt|Hge].
  - rewrite decide_False by auto. cbn. by rewrite <-IH.
  - rewrite decide_True by done.
    assert (filter (fun x => i_created_at x.2 < cutoff) l = []) as Hnil.
    { apply elem_of_nil_inv. intros y [Hy Hin]%list_elem_of_filter. rewrite Forall_forall in Hx. specialize (Hx _ Hin).
      unfold created_le in Hx. lia. }
    rewrite Hnil in IH |- *. cbn in *. by rewrite <-IH.
Qed.

Section backlog.
Context {St3 : S3} {Cr : Crypto} {B32 : Base32}.

Definition backlog (now : Z) (d : Db) : gmap Uuid Installation :=
  filter (fun kv => pending_expired now kv.2 = true) (d_installations d).

Lemma pending_expired_later now now' row : now <= now' -> pending_expired now row = true -> pending_expired now' row = true.
Proof. unfold pending_expired. intros Hle He. to_prop. rewrite bool_decide_true by done. apply Z.ltb_lt. lia. Qed.

(** Every row of the backlog at [now] is among the first [limit] selected at a
    later moment, or all of those are rows of the backlog. *)
Lemma expired_pending_oldest now now' limit d : now <= now' ->
  (forall id, id ∈ dom (backlog now d) -> id ∈ expired_pending now' limit d) \/
  (List.length (expired_pending now' limit d) = limit /\ forall id, id ∈ expired_pending now' limit d -> id ∈ dom (backlog now d)).
Proof.
  intros Hle. unfold expired_pending. set (l := merge_sort created_le _).
  assert (StronglySorted created_le l) as Hs.
  { apply Sorted_StronglySorted; [intros a b c; unfold created_le; lia|]. apply Sorted_merge_sort. intros a b. unfold created_le. lia. }
  set (old := filter (fun x : Uuid * Installation => i_created_at x.2 < now - hours 24) l).
  assert (forall id row, (id, row) ∈ old <-> backlog now d !! id = Some row) as Hold.
  { intros id row. unfold old, l, backlog. rewrite list_elem_of_filter, merge_sort_Permutation, elem_of_map_to_list, !map_lookup_filter_Some.
    cbn. unfold pending_expired. rewrite !andb_true_iff, !bool_decide_eq_true, !Z.ltb_lt. split; intros; destruct_and?; split_and?; auto; lia. }
  pose proof (sorted_prefix (now - hours 24) l Hs) as Hl. fold old in Hl.
  destruct (decide (List.length old <= limit)%nat) as [Hshort|Hlong].
  - left. intros id [row Hrow]%elem_of_dom. rewrite Hl, fmap_app, take_app. apply elem_of_app. left.
    rewrite take_ge by (rewrite length_fmap; lia). apply list_elem_of_fmap. exists (id, row). split; [done|]. by apply Hold.
  - right. rewrite Hl, fmap_app, take_app. rewrite length_fmap. replace (limit - List.length old)%nat with 0%nat by lia.
    rewrite take_0, app_nil_r. split; [rewrite length_take, length_fmap; lia|].
    intros id Hin%subseteq_take. apply list_elem_of_fmap in Hin as ([id' row] & -> & Hin). apply elem_of_dom. exists row. by apply Hold.
Qed.

(** Acknowledgements succeed in the worlds [acks]. *)
Context (ae : AckEnv) (acks : World -> Prop).
Record vouched : Prop := {
  vo_ack w : acks w -> exists w', acknowledge ae w = (Ok tt, w') /\ acks w';
  vo_grow w d : acks w -> d_revision (w_db w) <= d_revision d -> acks (with_db d w)
}.
Context (vouch : vouched).

Lemma revision_pending_retirement t id row d : d_revision (pending_retirement t id row d) = d_revision d + 1.
Proof. apply Z.add_comm. Qed.

Lemma expire_pending_round_runs t id row w :
  acks w -> d_installations (w_db w) !! id = Some row -> pending_expired t row = true -> i_generation row < i64_max ->
  d_revision (w_db w) < i64_max ->
  exists w', expire_pending_round ae t id w = (Ok true, w') /\ acks w' /\ w_db w' = pending_retirement t id row (w_db w).
Proof.
  intros Hw Hrow Hp Hg Hrev.
  assert (expire_pending_tx t id (w_db w) = Ok (true, pending_retirement t id row (w_db w))) as Hx.
  { unfold expire_pending_tx. apply tx_bind_ok. eexists _, _. split.
    { apply (update_installation_intro id (pending_expired t) (retire_row t) row (retired_row t row)); [done..|].
      unfold retire_row. by rewrite next_generation_intro by done. }
    cbn beta. rewrite bool_decide_true by eauto.
    assert (forall x, has_installation id (set_installations <[id := x]> (w_db w)) = true) as Hhas.
    { intros x. unfold has_installation. cbn. rewrite lookup_insert_eq. by apply bool_decide_true. }
    apply tx_bind_ok. eexists tt, _. split; [unfold insert_outbox; by rewrite Hhas|].
    apply tx_bind_ok. eexists tt, _. split.
    { unfold insert_outbox. change (has_installation id (add_outbox _ _ _ _ ?x)) with (has_installation id x). by rewrite Hhas. }
    apply tx_bind_ok. eexists tt, _. split; [|done].
    unfold insert_audit. change (has_installation id (add_outbox _ _ _ _ (add_outbox _ _ _ _ ?x))) with (has_installation id x).
    rewrite Hhas. unfold mbind, tx_bind, tx_modify, advance_restore_fence. cbn. by rewrite (proj2 (Z.ltb_lt _ _) Hrev). }
  destruct (vo_ack vouch (with_db (pending_retirement t id row (w_db w)) w)) as (w' & Ha & Hw').
  { apply (vo_grow vouch); [done|]. rewrite revision_pending_retirement. lia. }
  exists w'. unfold expire_pending_round, run_tx. rewrite Hx, Ha. split; [done|]. split; [done|]. by apply acknowledge_db in Ha.
Qed.

(** Generations and the fence have room for [k] more transactions. *)
Definition room (k : Z) (d : Db) : Prop := d_revision d + k <= i64_max /\
  forall id row, d_installations d !! id = Some row -> i_state row = PendingDns -> i_generation row < i64_max.

Definition retires (ids : list Uuid) (d d' : Db) : Prop :=
  (forall id, id ∉ ids -> d_installations d' !! id = d_installations d !! id) /\
  (forall id, id ∈ ids -> exists row, d_installations d' !! id = Some row /\ i_state row = Retired).

Lemma room_retires ids k k' d d' :
  retires ids d d' -> d_revision d' + k' <= d_revision d + k -> room k d -> room k' d'.
Proof.
  intros [Hout Hin] Hrev [Hr Hg]. split; [lia|]. intros id row Hrow Hst. destruct (decide (id ∈ ids)) as [Hi|Hi].
  - destruct (Hin _ Hi) as (row' & ? & ?). congruence.
  - rewrite Hout in Hrow by done. eauto.
Qed.

Lemma sweep_retires now times ids n count w :
  acks w -> NoDup ids -> (forall m, now <= times m) -> room (Z.of_nat (List.length ids)) (w_db w) ->
  (forall id, id ∈ ids -> exists row, d_installations (w_db w) !! id = Some row /\ pending_expired now row = true) ->
  exists c w', sweep (fun n id w => expire_pending_round ae (times n) id w) n ids count w = (Ok c, w') /\ acks w' /\
    retires ids (w_db w) (w_db w') /\ d_revision (w_db w') = d_revision (w_db w) + Z.of_nat (List.length ids).
Proof.
  intros Hw Hnd Ht. revert n count w Hw. induction Hnd as [|id ids Hni _ IH]; intros n count w Hw Hroom Hall.
  { exists count, w. split; [done|]. split; [done|]. split; [|cbn; lia]. split; [done|]. by intros id ?%not_elem_of_nil. }
  destruct (Hall id ltac:(left)) as (row & Hrow & Hp). cbn [List.length] in *. pose proof Hroom as [Hrev Hgen].
  destruct (expire_pending_round_runs (times n) id row w) as (w1 & Hr & Hw1 & Hd);
    [done|done|by eapply pending_expired_later; [apply Ht|]|eapply Hgen; [done|]; unfold pending_expired in Hp; by to_prop|lia|].
  assert (retires [id] (w_db w) (w_db w1)) as H1.
  { rewrite Hd. split; intros id'; rewrite list_elem_of_singleton; cbn.
    - intros Hne. by rewrite lookup_insert_ne.
    - intros ->. rewrite lookup_insert_eq. eauto. }
  destruct (IH (S n) (count + 1) w1 Hw1) as (c & w' & Hs & Hw' & H2 & Hrev').
  - eapply room_retires; [exact H1| |exact Hroom]. rewrite Hd, revision_pending_retirement. lia.
  - intros id' Hin. destruct (Hall id' ltac:(by right)) as (row' & Hrow' & Hp'). exists row'. split; [|done].
    rewrite (proj1 H1); [done|]. rewrite list_elem_of_singleton. by intros ->.
  - exists c, w'. cbn [sweep]. rewrite Hr. split; [exact Hs|]. split; [done|]. split; [|rewrite Hrev', Hd, revision_pending_retirement; lia].
    split; intros id'; rewrite ?not_elem_of_cons, ?elem_of_cons.
    + intros [Hne Hn]. rewrite (proj1 H2) by done. apply H1. by rewrite list_elem_of_singleton.
    + intros [->|Hin]; [|by apply H2]. rewrite (proj1 H2) by done. apply H1. by apply list_elem_of_singleton.
Qed.

(** *** Sweeps, one after another and undisturbed *)
Fixpoint sweeps (rounds : list (Z * (nat -> Z))) (w : World) : World :=
  match rounds with
  | [] => w
  | (now, times) :: rest => sweeps rest (expire_pending_allocations ae (fun _ w => w) now times 100 w).2
  end.

Lemma expired_pending_nodup now limit d : NoDup (expired_pending now limit d).
Proof.
  unfold expired_pending. eapply sublist_NoDup, sublist_take. rewrite merge_sort_Permutation. apply NoDup_fst_map_to_list.
Qed.

Lemma expired_pending_rows now limit d id :
  id ∈ expired_pending now limit d -> exists row, d_installations d !! id = Some row /\ pending_expired now row = true.
Proof.
  unfold expired_pending. intros Hin%subseteq_take. apply list_elem_of_fmap in Hin as ([id' row] & -> & Hin).
  rewrite merge_sort_Permutation in Hin. apply elem_of_map_to_list, map_lookup_filter_Some in Hin as [? ?]. eauto.
Qed.

Lemma backlog_shrinks now now' times w :
  acks w -> now <= now' -> (forall m, now' <= times m) -> room 100 (w_db w) ->
  exists w', (expire_pending_allocations ae (fun _ w => w) now' times 100 w).2 = w' /\ acks w' /\
    (forall k, room (100 + k) (w_db w) -> room k (w_db w')) /\
    (size (backlog now (w_db w')) <= size (backlog now (w_db w)) - 100)%nat.
Proof.
  intros Hw Hle Ht Hroom. set (ids := expired_pending now' 100 (w_db w)).
  assert (List.length ids <= 100)%nat as Hlen by (unfold ids, expired_pending; rewrite length_take; lia).
  destruct (sweep_retires now' times ids 0 0 w) as (c & w' & Hs & Hw' & Hret & Hrev);
    [done|apply expired_pending_nodup|done|destruct Hroom; split; [lia|done]|intros id; apply expired_pending_rows|].
  exists w'. unfold expire_pending_allocations. change (negb (in_range 1 100 100)) with false. change (Z.to_nat 100) with 100%nat. fold ids.
  split; [by rewrite Hs|]. split; [done|]. split.
  { intros k. apply room_retires with (ids := ids); [done|]. rewrite Hrev. lia. }
  assert (dom (backlog now (w_db w')) ⊆ dom (backlog now (w_db w)) ∖ list_to_set ids) as Hsub.
  { intros id [row Hrow]%elem_of_dom. apply map_lookup_filter_Some in Hrow as [Hrow Hp]. rewrite elem_of_difference, elem_of_list_to_set.
    assert (id ∉ ids) as Hni.
    { intros Hin. destruct (proj2 Hret _ Hin) as (row' & Hrow' & Hst). cbn in Hp. unfold pending_expired in Hp. to_prop. congruence. }
    split; [|done]. rewrite (proj1 Hret) in Hrow by done. apply elem_of_dom. exists row. by apply map_lookup_filter_Some. }
  apply subseteq_size in Hsub. rewrite !size_dom in Hsub.
  destruct (expired_pending_oldest now now' 100 (w_db w) Hle) as [Hall|[Hfull Hold]]; [fold ids in Hall|fold ids in Hfull, Hold].
  - assert (dom (backlog now (w_db w)) ∖ list_to_set ids ≡ (∅ : gset Uuid)) as He.
    { intros id. rewrite elem_of_difference, elem_of_list_to_set. split; [|set_solver]. intros [Hi Hn]. by destruct (Hn (Hall _ Hi)). }
    rewrite He, size_empty in Hsub. lia.
  - rewrite size_difference in Hsub.
    + rewrite size_dom, size_list_to_set in Hsub by apply expired_pending_nodup. lia.
    + intros id. rewrite elem_of_list_to_set. apply Hold.
Qed.

(** the sweeper works off every backlog. Each sweep retires at most a
    hundred allocations, oldest first; after as many sweeps as the backlog
    needs, no allocation that had been pending for a day when they began is
    still pending, whatever came due meanwhile. *)
Theorem sweeps_clear_backlog now rounds w :
  acks w -> Forall (fun r => now <= r.1 /\ forall m, r.1 <= r.2 m) rounds ->
  (size (backlog now (w_db w)) <= 100 * List.length rounds)%nat -> room (100 * Z.of_nat (List.length rounds)) (w_db w) ->
  forall id row, d_installations (w_db (sweeps rounds w)) !! id = Some row -> pending_expired now row = false.
Proof.
  intros Hw Hr. revert w Hw. induction Hr as [|[now' times] rounds [Hle Ht] _ IH]; intros w Hw Hsize Hroom id row.
  - intros Hrow. destruct (pending_expired now row) eqn:Hp; [|done]. cbn in Hsize.
    assert (backlog now (w_db w) = ∅) as He by (apply map_size_empty_inv; lia).
    assert (backlog now (w_db w) !! id = Some row) as Hb by (by apply map_lookup_filter_Some). by rewrite He in Hb.
  - cbn [sweeps List.length] in *. destruct (backlog_shrinks now now' times w Hw Hle Ht) as (w' & -> & Hw' & Hroom' & Hsh).
    { destruct Hroom. split; [lia|done]. }
    apply IH; [done|lia|]. apply Hroom'. destruct Hroom. split; [lia|done].
Qed.
End backlog.
