(* ===== verification/ControlWitnesses.v ===== *)
(** * Runs of the control API

    A retirement, a refused request, and enrollments through the client, on
    concrete library parameters. *)

From Stdlib Require Import Ascii String Strings.Byte.
From stdpp Require Import base strings list gmap.
From S2P Require Import Prelude Protocol Db Witness Store StoreCredentials StoreChallenges StoreLifecycle StoreBootstrap.
From S2P Require Import StoreHistory StoreInvariant StoreSamples ReceiptSigner ControlApi ControlLogic ControlProperties.
From S2P Require Import AdminClient ControlClient ControlLiveness Sweeper.

#[local] Existing Instance ConcreteS3.s3.

Module ControlConcrete.
Definition first32 (bytes : list byte) : list byte := take 32 (bytes ++ replicate 32 Byte.x00).

(** A signature is the key that made it. *)
#[export] Instance signing : Signing := {|
  SigningKey := list byte;
  signing_key_from_bytes := fun bytes => bytes;
  verifying_key := first32;
  ed25519_sign := fun key _ => first32 key;
  signature_to_bytes := fun bytes => bytes;
  key_to_bytes := fun bytes => bytes;
  base64url_encode := fun bytes => string_of_list_byte (pad bytes)
|}.

Lemma first32_length bytes : List.length (first32 bytes) = 32%nat.
Proof. unfold first32. rewrite length_take, length_app, length_replicate. lia. Qed.

#[export] Instance signing_laws : SigningLaws.
Proof.
  split; cbn [signature_from_slice signature_to_bytes key_from_bytes key_to_bytes verifying_key base64url_decode base64url_encode
    ed25519_verify ed25519_sign crypto signing].
  - done.
  - intros key. by rewrite decide_True by apply first32_length.
  - apply first32_length.
  - intros bytes. by rewrite str_bytes_string, unpad_pad.
  - intros bytes Hb. rewrite str_len_bytes, str_bytes_string. unfold pad. rewrite length_app, length_replicate, Hb. done.
  - intros key message. by apply bool_decide_true.
Qed.

#[export] Instance hex : Hex := fun s => Some (str_bytes s).
End ControlConcrete.
Import ControlConcrete.

Lemma run_pieces {A B C} (m : A * (B * C)) a : m.1 = a -> m = (a, (m.2.1, m.2.2)).
Proof. by destruct m as [? []]; intros <-. Qed.
Lemma run_ok {E A T} (m : result E A * T) : is_ok m.1 = true -> exists a, m = (Ok a, m.2).
Proof. destruct m as [[a|] t]; [|done]. eauto. Qed.

Definition relay_key : list byte := replicate 32 Byte.x52.
Definition relay_state : AppState :=
  {| st_config := cfg; st_signer := Local relay_key; st_audience := CONTROL_AUDIENCE; st_placement := "gw-1" |}.
Definition no_uuid (s : string) : option Uuid := None.
Definition idle_ack : AckEnv := {| ae_lock := Ok tt; ae_rivals := fun _ s => s; ae_write := NoFault |}.
Definition nonce_bytes (n : nat) : list byte := replicate 32 (byte_of_Z (Z.of_nat n)).
Definition clock_ms (_ : nat) : Z := 1700000007000.

(** Nothing else runs. *)
Definition alone_env : ApiEnv :=
  {| n_others := fun _ s => s; n_fault := fun _ => None; n_ack := fun _ => idle_ack; n_clock := clock_ms;
     n_nonce := nonce_bytes; n_uuid := fun n => N.of_nat (100 + n); n_label := fun n => replicate 16 (byte_of_Z (Z.of_nat n));
     n_kms := fun _ _ => None |}.
Lemma alone_api_env : api_env relay_state alone_env.
Proof. split; [intros n s; split; [constructor|done]|intros n; apply length_replicate]. Qed.

Definition state_of (d : Db) : Api := {| p_now := at_second 7; p_world := {| w_db := d; w_witness := None |}; p_log := [] |}.

(** A retirement of the sample installation, signed by its key. *)
Definition retire_request (nonce : string) : SignedRequest RetireRequest :=
  let body := {| rr_installation_id := inst |} in
  {| r_claims := admin_claims inst 9%N RetireInstallation nonce 1700000037000 (default [] (jcs_to_vec (to_json body)));
     r_body := body; r_signature := base64url_encode key32 |}.
Local Abbreviation retire_run nonce :=
  (handle no_uuid relay_state (PostRetire (retire_request nonce)) alone_env (0%nat, state_of db_setup)).

Lemma control_changes_authorized_witness :
  is_ok (retire_run "nonce-0123456789").1 = true /\ List.length (p_log (retire_run "nonce-0123456789").2.2) = 2%nat /\
  exists new, p_log (retire_run "nonce-0123456789").2.2 = new /\
    forall before en after, new = before ++ en :: after ->
      authorized no_uuid relay_state alone_env (state_of db_setup) (PostRetire (retire_request "nonce-0123456789")) before en /\ entry_ran (st_config relay_state) en.
Proof.
  split; [vm_compute; reflexivity|]. split; [vm_compute; reflexivity|].
  destruct (control_changes_authorized no_uuid relay_state alone_env 0 (state_of db_setup) (PostRetire (retire_request "nonce-0123456789"))
    (retire_run "nonce-0123456789").1 (retire_run "nonce-0123456789").2.1 (retire_run "nonce-0123456789").2.2
    alone_api_env I (run_pieces _ _ eq_refl)) as (_ & new & Hl & Hn).
  exists new. split; [exact Hl|exact Hn].
Defined.

(** Its nonce is too short, so it counts as replayed. *)
Lemma refused_request_changes_nothing_witness :
  exists err, (retire_run "nonce").1 = Err err /\ e_status err = 410 /\
  exists new, p_log (retire_run "nonce").2.2 = new /\
    Forall (fun en => (exists id nonce, l_request en = ConsumeNonce id nonce) \/
                      (exists nonce source, l_request en = ConsumeBootstrapChallenge nonce source) \/
                      l_after en = l_before en) new.
Proof.
  assert ((retire_run "nonce").1 = Err replayed) as Hr by (vm_compute; reflexivity).
  exists replayed. split; [exact Hr|]. split; [reflexivity|].
  destruct (refused_request_changes_nothing no_uuid relay_state alone_env 0 (state_of db_setup) (PostRetire (retire_request "nonce"))
    replayed (retire_run "nonce").2.1 (retire_run "nonce").2.2 alone_api_env I (run_pieces _ _ Hr)) as (new & Hl & Hn);
    [reflexivity|].
  exists new. split; [exact Hl|exact Hn].
Defined.

(** ** Enrollment *)
Definition signer_key : SigningKey (Signing := signing) := replicate 32 Byte.x53.
Definition client_source : IpAddr := V4 3221225985.
Local Abbreviation a_client := (relay_client no_uuid relay_state alone_env clock_ms nonce_bytes client_source).
Local Abbreviation enrollment s :=
  (client_enroll a_client (signs_with signer_key) (public_bytes signer_key) [relay_key] 7%N s).
Local Abbreviation first_run := (enrollment (0%nat, state_of empty_db)).
Local Abbreviation second_run := (enrollment (first_run.2)).

Lemma enrollment_idempotent_witness : exists receipt receipt2,
  first_run.1 = Ok receipt /\ second_run.1 = Ok receipt2 /\
  recorded 7%N (public_bytes signer_key) (rc_allocation receipt) (api_db second_run.2.2) /\
  a_installation_id (rc_allocation receipt2) = a_installation_id (rc_allocation receipt) /\
  a_hostname (rc_allocation receipt2) = a_hostname (rc_allocation receipt).
Proof.
  destruct (run_ok first_run) as [r1 H1]; [vm_compute; reflexivity|].
  destruct (run_ok second_run) as [r2 H2]; [vm_compute; reflexivity|].
  exists r1, r2. split; [exact (f_equal fst H1)|]. split; [exact (f_equal fst H2)|].
  apply (enrollment_idempotent no_uuid relay_state alone_env clock_ms nonce_bytes client_source (signs_with signer_key)
    (public_bytes signer_key) [relay_key] 7%N 0 (state_of empty_db) r1 first_run.2.1 first_run.2.2
    alone_env clock_ms nonce_bytes client_source (signs_with signer_key) [relay_key] first_run.2.1 first_run.2.2 r2
    second_run.2.1 second_run.2.2 alone_api_env alone_api_env).
  - exact (run_pieces _ _ (f_equal fst H1)).
  - constructor.
  - rewrite <-surjective_pairing. exact (run_pieces _ _ (f_equal fst H2)).
Defined.

(** While a call runs, the database clock stands at one moment. *)
Definition healthy_env : ApiEnv :=
  {| n_others := fun _ s => {| p_now := at_second 7; p_world := p_world s; p_log := p_log s |}; n_fault := fun _ => None;
     n_ack := fun _ => idle_ack; n_clock := clock_ms; n_nonce := nonce_bytes; n_uuid := fun n => N.of_nat (100 + n);
     n_label := fun n => replicate 16 (byte_of_Z (Z.of_nat n)); n_kms := fun _ _ => None |}.
Definition unwitnessed (w : World) : Prop := w_witness w = None.

Lemma healthy_sample : healthy relay_state healthy_env unwitnessed (at_second 7).
Proof.
  split.
  - intros n s. split; [done|]. cbn [p_now n_others healthy_env]. vm_compute. split; [discriminate|done].
  - done.
  - intros n w Hw. exists w. unfold acknowledge. by rewrite Hw.
  - done.
  - intros n message. change (st_signer relay_state) with (Local relay_key). by rewrite sign_local.
Qed.

Lemma allocatable_sample : allocatable healthy_env 7%N (api_db (state_of empty_db)).
Proof.
  split; [apply empty_invariant|done|done|intros n; apply lookup_empty|].
  intros n. split; [apply length_replicate|apply lookup_empty].
Qed.

Lemma jcs_sample v : is_Some (jcs_to_vec v).
Proof. eexists. reflexivity. Qed.

Lemma client_enrolls_witness : exists receipt n' s' row,
  client_enroll (relay_client no_uuid relay_state healthy_env clock_ms nonce_bytes client_source) (signs_with signer_key)
    (public_bytes signer_key) [relay_key] 7%N (0%nat, state_of empty_db) = (Ok receipt, (n', s')) /\
  d_installations (api_db s') !! a_installation_id (rc_allocation receipt) = Some row /\
  i_admin_public_key row = public_bytes signer_key /\ i_hostname row = a_hostname (rc_allocation receipt) /\ i_state row = PendingDns.
Proof.
  apply (client_enrolls no_uuid relay_state jcs_sample healthy_env unwitnessed (at_second 7) healthy_sample eq_refl
    signer_key [relay_key] relay_key 7%N 0 (state_of empty_db) clock_ms nonce_bytes client_source).
  - reflexivity.
  - reflexivity.
  - apply allocatable_sample.
  - intros t _. unfold local_count, global_count, daily_enrollments.
    change (d_bootstrap (api_db (state_of empty_db))) with (∅ : gmap string Bootstrap).
    rewrite !map_filter_empty, map_size_empty. lia.
  - apply lookup_empty.
  - reflexivity.
  - intros canonical Hc. apply Some_inj in Hc as <-. vm_compute. discriminate.
  - exists 1700000007000. split_and!; [done|done|]. intros m. unfold clock_ms. cbn. unfold clock_ms. lia.
  - repeat constructor. eexists. reflexivity.
  - by left.
  - reflexivity.
Defined.

(** ** A sweep *)
Definition db_pending : Db := db_after cfg (at_second 0) (take 1 setup) empty_db.
Definition next_day : Z := at_second 90000.

Lemma vouched_sample : vouched idle_ack unwitnessed.
Proof. split; [|done]. intros w Hw. exists w. unfold acknowledge. by rewrite Hw. Qed.

Lemma sweeps_clear_backlog_witness :
  size (backlog next_day db_pending) = 1%nat /\
  forall id row, d_installations (w_db (sweeps idle_ack [(next_day, fun _ => next_day)] {| w_db := db_pending; w_witness := None |})) !! id = Some row ->
    pending_expired next_day row = false.
Proof.
  split; [vm_compute; reflexivity|].
  apply (sweeps_clear_backlog idle_ack unwitnessed vouched_sample next_day [(next_day, fun _ => next_day)] {| w_db := db_pending; w_witness := None |}).
  - reflexivity.
  - repeat constructor; cbn; [|intros m]; apply Z.le_refl.
  - apply Nat.leb_le. vm_compute. reflexivity.
  - split; [apply Z.leb_le; vm_compute; reflexivity|].
    assert (map_Forall (fun _ row => i_generation row < i64_max) (d_installations db_pending)) as Hg
      by (apply (bool_decide_unpack _); vm_compute; exact I).
    intros id row Hrow _. exact (map_Forall_lookup_1 _ _ id row Hg Hrow).
Defined.

(** ** A start with twelve-hour bearers *)
Local Abbreviation configured := (configure (Value CONTROL_AUDIENCE) (Value "gw-1") (Value "/var/lib/relay/witness") NotPresent
  (Value "43200") NotPresent (Ok (st_signer relay_state))).

Lemma result_ok {E A} (r : result E A) : is_ok r = true -> exists a, r = Ok a.
Proof. destruct r; [|done]. eauto. Qed.

Lemma configured_bearers_trusted_witness : exists st g expires d',
  configured = Ok st /\
  issue_bearer_tx (st_config st) (at_second 7) inst 200%N "tunnel" (hash_of token_c) 86400 db_setup = Ok ((g, expires), d') /\
  trusted_response_expiry expires (epoch_ms (at_second 7)) 86400000 = true.
Proof.
  destruct (result_ok configured) as [st Hst]; [vm_compute; reflexivity|].
  destruct (result_ok (st ← configured; map_err (fun _ => VariableUnset)
    (issue_bearer_tx (st_config st) (at_second 7) inst 200%N "tunnel" (hash_of token_c) 86400 db_setup))) as [[[g expires] d'] Hi];
    [vm_compute; reflexivity|].
  rewrite Hst in Hi. cbn [mbind result_bind] in Hi.
  destruct (issue_bearer_tx (st_config st) _ _ _ _ _ _ _) as [r|] eqn:Hx; [|discriminate]. apply Ok_inj in Hi as ->.
  exists st, g, expires, d'. split; [exact Hst|]. split; [exact Hx|].
  destruct (configured_bearers_trusted _ _ _ _ _ _ _ _ Hst) as [_ Ht].
  destruct (Ht (at_second 7) inst 200%N "tunnel"%string db_setup (epoch_ms (at_second 7))) as [Hissue _].
  - split; apply Z.leb_le; vm_compute; reflexivity.
  - apply Z.leb_le. vm_compute. reflexivity.
  - apply Z.leb_le. vm_compute. reflexivity.
  - vm_compute. reflexivity.
  - exact (Hissue _ _ _ _ _ Hx).
Defined.
