(* ===== verification/Route53.v ===== *)
(** * Route 53 provider: crates/bloom-relay-dns/src/route53.rs

    The provider that publishes through Amazon Route 53. The service is the
    parameter [Route53Api]: listing record sets from a name, and change
    batches, which apply whole or not at all. A record set is identified by
    its name and type; the service returns names fully qualified. *)

From Stdlib Require Import Ascii String Strings.Byte.
From stdpp Require Import base strings list gmap.
From S2P Require Import Prelude Protocol Db Dns DnsWorker.

Inductive RrType := RrA | RrAaaa | RrCaa | RrTxt | RrOther (name : string).
#[global] Instance RrType_eq_dec : EqDecision RrType.
Proof. solve_decision. Defined.
#[global] Instance RrType_countable : Countable RrType.
Proof.
  apply (inj_countable' (fun t => match t with RrA => inl 0%nat | RrAaaa => inl 1%nat | RrCaa => inl 2%nat | RrTxt => inl 3%nat
                                            | RrOther n => inr n end)
    (fun x => match x with inl 0%nat => RrA | inl 1%nat => RrAaaa | inl 2%nat => RrCaa | inl _ => RrTxt | inr n => RrOther n end)).
  by intros [].
Defined.

Record ResourceRecordSet := { rs_name : string; rs_type : RrType; rs_ttl : Z; rs_values : list string }.
#[global] Instance ResourceRecordSet_eq_dec : EqDecision ResourceRecordSet.
Proof. solve_decision. Defined.

Inductive ChangeAction := Upsert | Delete.
Record Change := { ch_action : ChangeAction; ch_set : ResourceRecordSet }.

(** [trim_end_matches('.')]. *)
Definition trim_dots (s : string) : string := string_of_list_byte (list_trim_end (fun b => Byte.eqb b Byte.x2e) (str_bytes s)).

(** ** The service *)
Abbreviation Sets := (@gmap (string * RrType) _ prod_countable ResourceRecordSet).

Class Route53Api := {
  hosted_zone : Type;
  record_sets : hosted_zone -> Sets;
  list_resource_record_sets : string -> nat -> hosted_zone -> option (list ResourceRecordSet) * hosted_zone;
  change_resource_record_sets : list Change -> hosted_zone -> bool * hosted_zone
}.

(** A change of a batch: an upsert creates or replaces the set; a delete names
    the set exactly as it is. *)
Definition set_key (r : ResourceRecordSet) : string * RrType := (trim_dots (rs_name r), rs_type r).
Definition qualified (r : ResourceRecordSet) : ResourceRecordSet :=
  {| rs_name := trim_dots (rs_name r) +:+ "."; rs_type := rs_type r; rs_ttl := rs_ttl r; rs_values := rs_values r |}.
Definition apply_change (c : Change) (m : Sets) : option Sets :=
  match ch_action c with
  | Upsert => Some (<[set_key (ch_set c) := qualified (ch_set c)]> m)
  | Delete => if decide (m !! set_key (ch_set c) = Some (qualified (ch_set c))) then Some (delete (set_key (ch_set c)) m) else None
  end.
Fixpoint apply_batch (cs : list Change) (m : Sets) : option Sets :=
  match cs with [] => Some m | c :: cs => m' ← apply_change c m; apply_batch cs m' end.

(** The documented behaviour: a set carries its name and type; a listing reads, holds sets of the zone, and
    starts with those of the start name; a batch is atomic, and one that
    failed may have been applied all the same. *)
Class Route53Laws `{Route53Api} : Prop := {
  sets_keyed z k r : record_sets z !! k = Some r -> set_key r = k;
  list_reads start max z r z' : list_resource_record_sets start max z = (r, z') -> record_sets z' = record_sets z;
  list_sound start max z l z' : list_resource_record_sets start max z = (Some l, z') ->
    NoDup (set_key <$> l) /\ Forall (fun r => qualified r = r /\ record_sets z !! set_key r = Some r) l;
  list_complete start max z l z' t r : list_resource_record_sets start max z = (Some l, z') ->
    (size (filter (fun kv => kv.1.1 = start) (record_sets z)) <= max)%nat -> record_sets z !! (start, t) = Some r -> r ∈ l;
  change_applies cs z z' : change_resource_record_sets cs z = (true, z') ->
    apply_batch cs (record_sets z) = Some (record_sets z');
  change_atomic cs z z' : change_resource_record_sets cs z = (false, z') ->
    record_sets z' = record_sets z \/ apply_batch cs (record_sets z) = Some (record_sets z')
}.

(** ** The provider *)
Definition route53_new (hosted_zone_id : string) : result DnsError string :=
  if bool_decide (hosted_zone_id = ""%string)
     || negb (bytes_all (fun b => is_ascii_alphanumeric b || Byte.eqb b Byte.x2f) hosted_zone_id)
  then Err InvalidChange else Ok hosted_zone_id.

(** A change that lists its values; an empty set is refused. *)
Definition change (n : string) (t : RrType) (ttl : Z) (values : list string) (action : ChangeAction) : result DnsError Change :=
  if Nat.eqb (List.length values) 0 then Err InvalidChange
  else Ok {| ch_action := action; ch_set := {| rs_name := n; rs_type := t; rs_ttl := ttl; rs_values := values |} |}.

Definition ipv4_values (records : NameRecords) : list string :=
  omap (fun ip => match ip with V4 bits => Some (ipv4_to_string bits) | V6 _ => None end) (nr_addresses records).
Definition ipv6_values (records : NameRecords) : list string :=
  omap (fun ip => match ip with V6 bits => Some (ipv6_to_string bits) | V4 _ => None end) (nr_addresses records).

Section provider.
Context `{Route53Api}.

Definition R53 (A : Type) : Type := hosted_zone -> result DnsError A * hosted_zone.
#[global] Instance r53_ret : MRet R53 := fun _ a z => (Ok a, z).
#[global] Instance r53_bind : MBind R53 := fun _ _ f m z =>
  match m z with (Ok a, z') => f a z' | (Err e, z') => (Err e, z') end.
Definition r53_lift {A} (r : result DnsError A) : R53 A := fun z => (r, z).

Definition list_sets (start : string) (max : nat) : R53 (list ResourceRecordSet) := fun z =>
  let (r, z') := list_resource_record_sets start max z in (ok_or Unavailable r, z').
Definition apply (changes : list Change) : R53 unit := fun z =>
  let (ok, z') := change_resource_record_sets changes z in (if ok then Ok tt else Err Unavailable, z').

Definition deletions (n : string) (p : RrType -> bool) (existing : list ResourceRecordSet) : list Change :=
  (fun r => {| ch_action := Delete; ch_set := r |}) <$>
    filter (fun r => trim_dots (rs_name r) = n /\ p (rs_type r) = true) existing.

(** An address family is upserted when it has addresses, otherwise its stale
    set is deleted. *)
Definition stale (records : NameRecords) (t : RrType) : bool :=
  (bool_decide (t = RrA) && Nat.eqb (List.length (ipv4_values records)) 0)
  || (bool_decide (t = RrAaaa) && Nat.eqb (List.length (ipv6_values records)) 0).
Definition upsert_if_any (n : string) (t : RrType) (values : list string) : result DnsError (list Change) :=
  if Nat.eqb (List.length values) 0 then Ok [] else c ← change n t TTL_SECONDS values Upsert; Ok [c].

Definition r53_publish_name (records : NameRecords) : R53 unit :=
  let n := nr_hostname records in
  _ ← r53_lift (validate_records records);
  existing ← list_sets n 10;
  a ← r53_lift (upsert_if_any n RrA (ipv4_values records));
  aaaa ← r53_lift (upsert_if_any n RrAaaa (ipv6_values records));
  values ← r53_lift (caa_values (nr_acme_account_uri records));
  caa ← r53_lift (change n RrCaa TTL_SECONDS values Upsert);
  apply (deletions n (stale records) existing ++ a ++ aaaa ++ [caa]).

Definition r53_retire_challenge (hostname : string) : R53 unit :=
  n ← r53_lift (challenge_name hostname);
  existing ← list_sets n 2;
  match list_find (fun r => trim_dots (rs_name r) = n /\ rs_type r = RrTxt) existing with
  | None => mret tt
  | Some (_, r) => apply [{| ch_action := Delete; ch_set := r |}]
  end.

Definition r53_set_challenge (hostname : string) (values : list string) : R53 unit :=
  n ← r53_lift (challenge_name hostname);
  _ ← r53_lift (validate_challenge_values values);
  match values with
  | [] => r53_retire_challenge hostname
  | _ =>
      c ← r53_lift (change n RrTxt 30 ((fun v => QUOTE +:+ v +:+ QUOTE) <$> values) Upsert);
      apply [c]
  end.

Definition serving_type (t : RrType) : bool := match t with RrA | RrAaaa | RrCaa => true | _ => false end.
Definition r53_retire_name (hostname : string) : R53 unit :=
  _ ← r53_lift (hostname_checked hostname);
  existing ← list_sets hostname 10;
  match deletions hostname serving_type existing with
  | [] => mret tt
  | changes => apply changes
  end.
End provider.

#[global] Instance route53_provider `{Route53Api} : Provider hosted_zone := {
  publish_name := r53_publish_name;
  set_challenge := r53_set_challenge;
  retire_name := r53_retire_name;
  retire_challenge := r53_retire_challenge
}.

(** ** Names *)
Lemma trim_end_keep p l c : p c = false -> list_trim_end p (l ++ [c]) = l ++ [c].
Proof.
  intros Hc. unfold list_trim_end. rewrite reverse_snoc, Hc, reverse_cons. by rewrite reverse_involutive.
Qed.

Lemma trim_dots_hostname prefix h : hostname_checked h = Ok tt -> trim_dots (prefix +:+ h) = prefix +:+ h.
Proof.
  unfold hostname_checked. destruct (validate_hostname h) as [[]|] eqn:Hv; [|done]. intros _.
  unfold validate_hostname in Hv. destruct (strip_suffix HOSTNAME_SUFFIX h) as [label|] eqn:Hs; [|done].
  apply strip_suffix_Some in Hs as ->. unfold trim_dots.
  assert (exists l, str_bytes HOSTNAME_SUFFIX = l ++ [Byte.x79]) as [l Hl].
  { exists (take 21 (str_bytes HOSTNAME_SUFFIX)). reflexivity. }
  rewrite !str_bytes_app, Hl, !app_assoc, trim_end_keep by done. rewrite <-!app_assoc, <-Hl, <-!str_bytes_app. apply string_str_bytes.
Qed.

Lemma challenge_name_ok h n : challenge_name h = Ok n -> hostname_checked h = Ok tt /\ n = "_acme-challenge." +:+ h.
Proof. unfold challenge_name. destruct (hostname_checked h) as [[]|]; [|done]. by intros [= <-]. Qed.

(** A challenge name is no hostname: its label is too long. *)
Lemma challenge_name_not_hostname h n : challenge_name h = Ok n -> hostname_checked n <> Ok tt.
Proof.
  intros [Hh ->]%challenge_name_ok Hn. unfold hostname_checked in *.
  destruct (validate_hostname h) as [[]|] eqn:Hv; [|done]. destruct (validate_hostname ("_acme-challenge." +:+ h)) as [[]|] eqn:Hv2; [|done].
  unfold validate_hostname in *. destruct (strip_suffix _ h) as [label|] eqn:Hs; [|done]. apply strip_suffix_Some in Hs.
  destruct (strip_suffix _ ("_acme-challenge." +:+ h)) as [label2|] eqn:Hs2; [|done]. apply strip_suffix_Some in Hs2.
  destruct (str_len label =? 26) eqn:Hl; [|done]. destruct (str_len label2 =? 26) eqn:Hl2; [|done].
  apply Z.eqb_eq in Hl, Hl2. apply (f_equal str_len) in Hs2. rewrite Hs in Hs2.
  rewrite !str_len_bytes, !str_bytes_app, !length_app in Hs2. rewrite !str_len_bytes in Hl, Hl2. cbn in Hs2. lia.
Qed.

(** ** Batches *)
Lemma apply_batch_app cs1 cs2 m m' :
  apply_batch (cs1 ++ cs2) m = Some m' <-> exists m1, apply_batch cs1 m = Some m1 /\ apply_batch cs2 m1 = Some m'.
Proof.
  revert m. induction cs1 as [|c cs1 IH]; intros m; cbn; [naive_solver|].
  destruct (apply_change c m); cbn; [apply IH|naive_solver].
Qed.

Lemma apply_deletes l m m' k :
  apply_batch ((fun r => {| ch_action := Delete; ch_set := r |}) <$> l) m = Some m' ->
  m' !! k = if decide (k ∈ set_key <$> l) then None else m !! k.
Proof.
  revert m. induction l as [|r l IH]; intros m; cbn.
  { intros [= ->]. by rewrite decide_False by apply not_elem_of_nil. }
  intros (m1 & Hm1 & Hm')%bind_Some. unfold apply_change in Hm1. cbn in Hm1. case_decide; [|done]. injection Hm1 as <-.
  rewrite (IH _ Hm'). destruct (decide (k ∈ set_key <$> l)) as [Hin|Hni].
  - rewrite decide_True; [done|]. by right.
  - destruct (decide (k = set_key r)) as [->|Hne].
    + rewrite lookup_delete_eq, decide_True; [done|]. by left.
    + rewrite lookup_delete_ne, decide_False; [done| |done]. by rewrite not_elem_of_cons.
Qed.
