(* ===== verification/Route53Refinement.v ===== *)
(** * The Route 53 provider refines the in-memory one

    A hosted zone is related to the maps of the in-memory provider by the
    record sets it holds at the relay's names, and every successful change of
    the zone is the same change of the maps. *)

From Stdlib Require Import Ascii String Strings.Byte.
From stdpp Require Import base strings list sets gmap.
From S2P Require Import Prelude Protocol Db Dns Cloudflare DnsWorker CloudflareRefinement Route53.

(** The set of a name and type with these values, none when there are none. *)
Definition set_of (n : string) (t : RrType) (ttl : Z) (values : list string) : option ResourceRecordSet :=
  match values with
  | [] => None
  | _ => Some (qualified {| rs_name := n; rs_type := t; rs_ttl := ttl; rs_values := values |})
  end.
Definition name_set (records : NameRecords) (caa : list string) (t : RrType) : option ResourceRecordSet :=
  match t with
  | RrA => set_of (nr_hostname records) RrA TTL_SECONDS (ipv4_values records)
  | RrAaaa => set_of (nr_hostname records) RrAaaa TTL_SECONDS (ipv6_values records)
  | RrCaa => set_of (nr_hostname records) RrCaa TTL_SECONDS caa
  | _ => None
  end.
Definition quoted (v : string) : string := QUOTE +:+ v +:+ QUOTE.
Definition challenge_set (n : string) (values : list string) (t : RrType) : option ResourceRecordSet :=
  match t with RrTxt => set_of n RrTxt 30 (quoted <$> values) | _ => None end.

(** What a hosted zone holds at a hostname. *)
Definition name_shows (m : Sets) (h : string) (o : option NameRecords) : Prop :=
  match o with
  | Some records =>
      nr_hostname records = h /\
      exists caa, caa_values (nr_acme_account_uri records) = Ok caa /\ forall t, m !! (h, t) = name_set records caa t
  | None => forall t, m !! (h, t) = None
  end.

(** ** Sizes of listings *)
Lemma sets_at_name (m : Sets) n (ts : list RrType) :
  NoDup ts -> (forall t, is_Some (m !! (n, t)) -> t ∈ ts) -> (size (filter (fun kv => kv.1.1 = n) m) <= List.length ts)%nat.
Proof.
  intros Hnd Ht. rewrite <- size_dom, <- (length_fmap (pair n)).
  rewrite <- (size_list_to_set (C := gset (string * RrType))) by (apply NoDup_fmap_2; [by intros ?? [= ->]|done]).
  apply subseteq_size. intros [n' t]. rewrite elem_of_dom, elem_of_list_to_set. intros [r Hr].
  apply map_lookup_filter_Some in Hr as [Hr Hn]. cbn in Hn. subst n'. apply list_elem_of_fmap. exists t. split; [done|]. apply Ht. by exists r.
Qed.

Lemma name_shows_few m h o : name_shows m h o -> (size (filter (fun kv => kv.1.1 = h) m) <= 3)%nat.
Proof.
  intros Hs. apply (sets_at_name m h [RrA; RrAaaa; RrCaa]); [by apply (bool_decide_unpack _)|]. intros t [r Hr].
  destruct o as [records|]; [|by rewrite Hs in Hr]. destruct Hs as (_ & caa & _ & Hs). rewrite Hs in Hr.
  destruct t; cbn in Hr; try done; set_solver.
Qed.

Lemma challenge_set_few (m : Sets) n values :
  (forall t, m !! (n, t) = challenge_set n values t) -> (size (filter (fun kv => kv.1.1 = n) m) <= 1)%nat.
Proof.
  intros Hs. apply (sets_at_name m n [RrTxt]); [by apply (bool_decide_unpack _)|]. intros t [r Hr]. rewrite Hs in Hr. destruct t; cbn in Hr; try done. set_solver.
Qed.

Section refinement.
Context `{Route53Laws}.

Record zone_shows (z : hosted_zone) (m : MemoryState) : Prop := {
  zs_name h : hostname_checked h = Ok tt -> name_shows (record_sets z) h (memory_records h m);
  zs_challenge h n : challenge_name h = Ok n -> forall t, record_sets z !! (n, t) = challenge_set n (memory_challenge h m) t
}.

(** ** What a run did *)
(** A run that failed and left the zone as it was. *)
Definition kept {A} (r : result DnsError A) (z z' : hosted_zone) : Prop := is_ok r = false /\ record_sets z' = record_sets z.

Lemma r53_lift_inv {A B} (r : result DnsError A) (k : A -> R53 B) z b z' :
  (a ← r53_lift r; k a) z = (b, z') -> (exists a, r = Ok a /\ k a z = (b, z')) \/ kept b z z'.
Proof. unfold mbind, r53_bind, r53_lift. destruct r; [left; by eexists|intros [= <- <-]; by right]. Qed.

Lemma list_sets_inv {B} n max (k : list ResourceRecordSet -> R53 B) z b z' :
  (l ← list_sets n max; k l) z = (b, z') ->
  (exists l z1, list_resource_record_sets n max z = (Some l, z1) /\ record_sets z1 = record_sets z /\ k l z1 = (b, z'))
  \/ kept b z z'.
Proof.
  unfold mbind, r53_bind, list_sets. destruct (list_resource_record_sets n max z) as [[l|] z1] eqn:Hl; cbn.
  - left. exists l, z1. split; [done|]. split; [|done]. by eapply list_reads.
  - intros [= <- <-]. right. split; [done|]. by eapply list_reads.
Qed.

Lemma apply_inv cs z b z' :
  apply cs z = (b, z') -> apply_batch cs (record_sets z) = Some (record_sets z') \/ kept b z z'.
Proof.
  unfold apply. destruct (change_resource_record_sets cs z) as [[] z1] eqn:Hc; intros [= <- <-].
  - left. by apply change_applies.
  - destruct (change_atomic _ _ _ Hc); [by right|by left].
Qed.

Lemma kept_before {A} (r : result DnsError A) z z1 z' : record_sets z1 = record_sets z -> kept r z1 z' -> kept r z z'.
Proof. intros Hz [? Hk]. split; [done|]. congruence. Qed.

(** The sets a filtered listing deletes: those of the name that pass. *)
Lemma deletions_keys n max p z l z1 t :
  list_resource_record_sets n max z = (Some l, z1) ->
  (size (filter (fun kv => kv.1.1 = n) (record_sets z)) <= max)%nat ->
  forall n', (n', t) ∈ set_key <$> filter (fun r => trim_dots (rs_name r) = n /\ p (rs_type r) = true) l <->
  n' = n /\ p t = true /\ is_Some (record_sets z !! (n, t)).
Proof.
  intros Hl Hsize n'. destruct (list_sound _ _ _ _ _ Hl) as [_ Hall]. rewrite Forall_forall in Hall.
  rewrite list_elem_of_fmap. split.
  - intros (r & Hk & [[Hn Hp] Hr]%list_elem_of_filter). unfold set_key in Hk. injection Hk as -> ->.
    destruct (Hall r Hr) as [_ Hz]. unfold set_key in Hz. split; [done|]. split; [done|]. rewrite <- Hn. by eexists.
  - intros (-> & Hp & r & Hr). pose proof (list_complete _ _ _ _ _ _ _ Hl Hsize Hr) as Hin.
    apply sets_keyed in Hr. exists r. split; [done|]. apply list_elem_of_filter. unfold set_key in Hr. injection Hr as Hn Ht.
    by rewrite Hn, Ht.
Qed.

Lemma deletions_apply n max p z l z1 rest m' :
  list_resource_record_sets n max z = (Some l, z1) ->
  (size (filter (fun kv => kv.1.1 = n) (record_sets z)) <= max)%nat ->
  apply_batch (deletions n p l ++ rest) (record_sets z) = Some m' ->
  exists m1, apply_batch rest m1 = Some m' /\
    forall n' t, m1 !! (n', t) = if decide (n' = n /\ p t = true) then None else record_sets z !! (n', t).
Proof.
  intros Hl Hsize (m1 & Hm1 & Hrest)%apply_batch_app. exists m1. split; [done|]. intros n' t.
  rewrite (apply_deletes _ _ _ (n', t) Hm1). pose proof (deletions_keys n max p z l z1 t Hl Hsize n') as Hk.
  destruct (decide (n' = n /\ p t = true)) as [[-> Hp]|Hno].
  - case_decide as Hin; [done|]. rewrite Hk in Hin. destruct (record_sets z !! (n, t)) eqn:Hz; [|done].
    destruct Hin. split; [done|]. split; [done|]. by eexists.
  - rewrite decide_False; [done|]. rewrite Hk. tauto.
Qed.

Lemma set_key_trimmed n t ttl values :
  trim_dots n = n -> set_key {| rs_name := n; rs_type := t; rs_ttl := ttl; rs_values := values |} = (n, t).
Proof. unfold set_key. cbn [rs_name rs_type]. by intros ->. Qed.

Lemma upsert_if_any_inv n t values cs m m' :
  upsert_if_any n t values = Ok cs -> apply_batch cs m = Some m' -> trim_dots n = n ->
  m' = match set_of n t TTL_SECONDS values with None => m | Some r => <[(n, t) := r]> m end.
Proof.
  unfold upsert_if_any, change, set_of. destruct values as [|v values]; cbn; intros [= <-]; [by intros [= ->]|].
  cbn [apply_batch apply_change ch_action ch_set mbind option_bind]. intros [= <-] Hn. by rewrite set_key_trimmed.
Qed.

Lemma change_inv n t ttl values c m m' :
  change n t ttl values Upsert = Ok c -> apply_batch [c] m = Some m' -> trim_dots n = n ->
  exists r, set_of n t ttl values = Some r /\ m' = <[(n, t) := r]> m.
Proof.
  unfold change, set_of. destruct values as [|v values]; cbn [List.length Nat.eqb]; [done|]. intros [= <-].
  cbn [apply_batch apply_change ch_action ch_set mbind option_bind]. intros [= <-] Hn.
  eexists. split; [done|]. by rewrite set_key_trimmed.
Qed.

Lemma records_hostname records : validate_records records = Ok tt -> hostname_checked (nr_hostname records) = Ok tt.
Proof. unfold validate_records. by intros ([] & ? & _)%bind_ok. Qed.

Lemma upsert_lookup (s : option ResourceRecordSet) (k k' : string * RrType) (m : Sets) :
  (match s with None => m | Some r => <[k := r]> m end) !! k' =
  if decide (k' = k) then match s with None => m !! k' | _ => s end else m !! k'.
Proof.
  case_decide as Hk; destruct s; subst; try done; [by rewrite lookup_insert_eq|by rewrite lookup_insert_ne by congruence].
Qed.

Lemma set_of_None n t ttl values : set_of n t ttl values = None <-> values = [].
Proof. by destruct values. Qed.

Lemma name_shows_serving m h o t : name_shows m h o -> serving_type t = false -> m !! (h, t) = None.
Proof.
  destruct o as [records|]; cbn; [|done]. intros (_ & caa & _ & Hs) Ht. rewrite Hs. by destruct t.
Qed.

(** The sets after the batch of a publication. *)
Lemma publication_sets (records : NameRecords) (caa : list string) (r : ResourceRecordSet) (o : option NameRecords) (m m1 : Sets) (n : string) (t : RrType) :
  let h := nr_hostname records in
  name_shows m h o ->
  (forall n' t, m1 !! (n', t) = if decide (n' = h /\ stale records t = true) then None else m !! (n', t)) ->
  set_of h RrCaa TTL_SECONDS caa = Some r ->
  (let m2 := match set_of h RrA TTL_SECONDS (ipv4_values records) with None => m1 | Some r => <[(h, RrA) := r]> m1 end in
   let m3 := match set_of h RrAaaa TTL_SECONDS (ipv6_values records) with None => m2 | Some r => <[(h, RrAaaa) := r]> m2 end in
   <[(h, RrCaa) := r]> m3) !! (n, t) =
  if decide (n = h) then name_set records caa t else m !! (n, t).
Proof.
  intros h Hs Hm1 Hr. cbv zeta. destruct (decide (n = h)) as [->|Hne].
  - destruct (decide (t = RrCaa)) as [->|Ht]; [by rewrite lookup_insert_eq|].
    rewrite lookup_insert_ne by congruence.
    assert (Hstale : stale records t = false -> m1 !! (h, t) = m !! (h, t))
      by (intros Hf; rewrite Hm1, decide_False; [done|]; rewrite Hf; by intros [_ ?]).
    rewrite !upsert_lookup. destruct t as [| | | |other]; cbn [name_set]; fold h; [| |done| |].
    3,4: rewrite !decide_False by congruence; rewrite Hstale by done; by eapply name_shows_serving.
    + rewrite decide_False, decide_True by congruence. destruct (set_of h RrA _ _) eqn:Ha; [done|].
      apply set_of_None in Ha. rewrite Hm1, decide_True; [done|]. unfold stale. by rewrite Ha.
    + rewrite decide_True, decide_False by congruence. destruct (set_of h RrAaaa _ _) eqn:Ha; [done|].
      apply set_of_None in Ha. rewrite Hm1, decide_True; [done|]. unfold stale. by rewrite Ha.
  - rewrite lookup_insert_ne by congruence. rewrite !upsert_lookup, Hm1. rewrite !decide_False by (congruence || tauto). done.
Qed.

(** Publication sets the sets of the name and no others. *)
Lemma r53_publish_effect records z b z' o :
  r53_publish_name records z = (b, z') ->
  (hostname_checked (nr_hostname records) = Ok tt -> name_shows (record_sets z) (nr_hostname records) o) ->
  kept b z z' \/ validate_records records = Ok tt /\ name_shows (record_sets z') (nr_hostname records) (Some records) /\
  forall n t, n <> nr_hostname records -> record_sets z' !! (n, t) = record_sets z !! (n, t).
Proof.
  intros [([] & Hv & Hrun)|Hk]%r53_lift_inv Hs; [|by left]. specialize (Hs (records_hostname _ Hv)).
  apply list_sets_inv in Hrun as [(l & z1 & Hl & Hz1 & Hrun)|Hk]; [|by left].
  apply r53_lift_inv in Hrun as [(a & Ha & Hrun)|Hk]; [|left; by eapply kept_before].
  apply r53_lift_inv in Hrun as [(aaaa & Haaaa & Hrun)|Hk]; [|left; by eapply kept_before].
  apply r53_lift_inv in Hrun as [(caa & Hcaa & Hrun)|Hk]; [|left; by eapply kept_before].
  apply r53_lift_inv in Hrun as [(c & Hc & Hrun)|Hk]; [|left; by eapply kept_before].
  apply apply_inv in Hrun as [Hrun|Hk]; [|left; by eapply kept_before]. right. split; [done|]. rewrite Hz1 in Hrun. pose proof (name_shows_few _ _ _ Hs) as Hfew.
  apply (deletions_apply _ 10 _ _ _ _ _ _ Hl) in Hrun as (m1 & Hrun & Hm1); [|lia].
  apply apply_batch_app in Hrun as (m2 & H2 & Hrun). apply apply_batch_app in Hrun as (m3 & H3 & H4).
  pose proof (trim_dots_hostname "" _ (records_hostname _ Hv)) as Hn. cbn in Hn.
  apply (upsert_if_any_inv _ _ _ _ _ _ Ha) in H2; [|done]. apply (upsert_if_any_inv _ _ _ _ _ _ Haaaa) in H3; [|done].
  apply (change_inv _ _ _ _ _ _ _ Hc) in H4 as (r & Hr & H4); [|done].
  assert (Hall : forall n t, record_sets z' !! (n, t) =
    if decide (n = nr_hostname records) then name_set records caa t else record_sets z !! (n, t)).
  { intros n t. rewrite H4, H3, H2. by eapply publication_sets. }
  split.
  - split; [done|]. exists caa. split; [done|]. intros t. rewrite Hall. by rewrite decide_True.
  - intros n t Hne. by rewrite Hall, decide_False.
Qed.

(** Retirement leaves no set at the name and keeps the others. *)
Lemma r53_retire_effect h z b z' o :
  r53_retire_name h z = (b, z') -> (hostname_checked h = Ok tt -> name_shows (record_sets z) h o) ->
  kept b z z' \/ hostname_checked h = Ok tt /\ name_shows (record_sets z') h None /\
  forall n t, n <> h -> record_sets z' !! (n, t) = record_sets z !! (n, t).
Proof.
  intros [([] & Hv & Hrun)|Hk]%r53_lift_inv Hs; [|by left]. specialize (Hs Hv).
  apply list_sets_inv in Hrun as [(l & z1 & Hl & Hz1 & Hrun)|Hk]; [|by left]. pose proof (name_shows_few _ _ _ Hs) as Hfew.
  assert (apply_batch (deletions h serving_type l ++ []) (record_sets z) = Some (record_sets z') \/ kept b z z') as [Hbatch|Hk];
    [|right; split; [done|]|by left].
  { rewrite app_nil_r, <- Hz1. destruct (deletions h serving_type l) eqn:Hd; [left; by injection Hrun as _ ->|].
    apply apply_inv in Hrun as [Hrun|Hk]; [by left|right; by eapply kept_before]. }
  apply (deletions_apply _ 10 _ _ _ _ _ _ Hl) in Hbatch as (m1 & [= ->] & Hm1); [|lia]. split.
  - intros t. rewrite Hm1. case_decide as Hd; [done|]. eapply name_shows_serving; [done|]. destruct (serving_type t); tauto.
  - intros n t Hne. by rewrite Hm1, decide_False by tauto.
Qed.

(** A challenge change at [n] leaves these values there and keeps the others. *)
Definition challenge_effect (n : string) (values : list string) (z z' : hosted_zone) : Prop :=
  (forall t, record_sets z' !! (n, t) = challenge_set n values t) /\
  forall n' t, n' <> n -> record_sets z' !! (n', t) = record_sets z !! (n', t).

Lemma r53_retire_challenge_effect h z b z' values :
  r53_retire_challenge h z = (b, z') ->
  (forall n, challenge_name h = Ok n -> forall t, record_sets z !! (n, t) = challenge_set n values t) ->
  kept b z z' \/ exists n, challenge_name h = Ok n /\ challenge_effect n [] z z'.
Proof.
  intros [(n & Hn & Hrun)|Hk]%r53_lift_inv Hs; [|by left]. specialize (Hs n Hn).
  apply list_sets_inv in Hrun as [(l & z1 & Hl & Hz1 & Hrun)|Hk]; [|by left]. pose proof (challenge_set_few _ _ _ Hs) as Hfew.
  destruct (list_find _ l) as [[i r]|] eqn:Hfind.
  - apply apply_inv in Hrun as [Hrun|Hk]; [|left; by eapply kept_before]. right. exists n. split; [done|].
    rewrite Hz1 in Hrun. apply list_find_Some in Hfind as (_ & [Hname Htype] & _).
    assert (Hk : set_key r = (n, RrTxt)) by (unfold set_key; by rewrite Hname, Htype).
    assert (Hd : forall k, record_sets z' !! k = if decide (k = (n, RrTxt)) then None else record_sets z !! k).
    { intros k. rewrite (apply_deletes [r] _ _ k Hrun). cbn. rewrite Hk. repeat case_decide; set_solver. }
    split.
    + intros t. rewrite Hd. case_decide as Ht; [by injection Ht as ->|]. rewrite Hs. by destruct t.
    + intros n' t Hne. rewrite Hd. by rewrite decide_False by congruence.
  - injection Hrun as <- <-. right. exists n. split; [done|]. split; [|by rewrite Hz1].
    intros t. rewrite Hz1. destruct (record_sets z !! (n, t)) as [r|] eqn:Hr; [|by destruct t].
    pose proof (Hs t) as Ht. rewrite Hr in Ht. destruct t; try done. exfalso.
    assert (Hin : r ∈ l) by (eapply (list_complete n 2); [exact Hl|lia|exact Hr]).
    apply sets_keyed in Hr. injection Hr as Hname Htype. apply list_find_None in Hfind. rewrite Forall_forall in Hfind.
    by apply (Hfind r Hin).
Qed.

Lemma r53_set_challenge_effect h cvs z b z' values :
  r53_set_challenge h cvs z = (b, z') ->
  (forall n, challenge_name h = Ok n -> forall t, record_sets z !! (n, t) = challenge_set n values t) ->
  kept b z z' \/ exists n, challenge_name h = Ok n /\ validate_challenge_values cvs = Ok tt /\ challenge_effect n cvs z z'.
Proof.
  intros [(n & Hn & Hrun)|Hk]%r53_lift_inv Hs; [|by left]. apply r53_lift_inv in Hrun as [([] & Hv & Hrun)|Hk]; [|by left].
  destruct cvs as [|v cvs].
  - destruct (r53_retire_challenge_effect _ _ _ _ _ Hrun Hs) as [|(n' & Hn' & He)]; [by left|]. right. by exists n'.
  - apply r53_lift_inv in Hrun as [(c & Hc & Hrun)|Hk]; [|by left]. apply apply_inv in Hrun as [Hrun|Hk]; [|by left].
    right. exists n. split; [done|]. split; [done|].
    destruct (challenge_name_ok _ _ Hn) as [Hh Heq].
    destruct (change_inv _ _ _ _ _ _ _ Hc Hrun) as (r & Hr & Hz'); [rewrite Heq; by apply trim_dots_hostname|].
    split; [|intros n' t Hne; rewrite Hz'; by rewrite lookup_insert_ne by congruence].
    intros t. rewrite Hz'. destruct (decide (t = RrTxt)) as [->|Ht].
    + rewrite lookup_insert_eq. symmetry. exact Hr.
    + rewrite lookup_insert_ne by congruence. rewrite (Hs n Hn). by destruct t.
Qed.

(** ** The simulation *)
Lemma name_shows_eq (m m' : Sets) h o : (forall t, m' !! (h, t) = m !! (h, t)) -> name_shows m h o -> name_shows m' h o.
Proof. intros He. destruct o as [records|]; cbn; by setoid_rewrite He. Qed.

Lemma r53_serving_change z z' m h o :
  zone_shows z m -> hostname_checked h = Ok tt -> name_shows (record_sets z') h o ->
  (forall n t, n <> h -> record_sets z' !! (n, t) = record_sets z !! (n, t)) ->
  zone_shows z' {| names := partial_alter (fun _ => o) h (names m); challenges := challenges m |}.
Proof.
  intros [Hn Hc] Hh Ho He. split.
  - intros h' Hh'. unfold memory_records. cbn. destruct (decide (h' = h)) as [->|Hne].
    + rewrite lookup_partial_alter_eq. exact Ho.
    + rewrite lookup_partial_alter_ne by done. eapply name_shows_eq; [|by apply Hn]. intros t. by apply He.
  - intros h' n Hn' t. rewrite He; [by apply Hc|]. intros ->. by eapply challenge_name_not_hostname.
Qed.

Lemma r53_challenge_change z z' m h n o :
  zone_shows z m -> challenge_name h = Ok n -> challenge_effect n (default [] o) z z' ->
  zone_shows z' {| names := names m; challenges := partial_alter (fun _ => o) h (challenges m) |}.
Proof.
  intros [Hn Hc] Hname [Hv He]. split.
  - intros h' Hh'. eapply name_shows_eq; [|by apply Hn]. intros t. apply He. intros ->. by eapply challenge_name_not_hostname.
  - intros h' n' Hn' t. unfold memory_challenge. cbn. destruct (decide (h' = h)) as [->|Hne].
    + rewrite lookup_partial_alter_eq. assert (n' = n) as -> by congruence. apply Hv.
    + rewrite lookup_partial_alter_ne by done. rewrite He; [by apply Hc|]. intros ->. apply Hne. by eapply challenge_name_inj.
Qed.

Definition route53_call (c : Call) (z : hosted_zone) : result DnsError unit * hosted_zone := run_call c z.

Lemma r53_simulation c z b z' m :
  zone_shows z m -> route53_call c z = (b, z') ->
  kept b z z' \/ exists m', memory_call c m = (Ok tt, m') /\ zone_shows z' m'.
Proof.
  intros Hz. unfold route53_call, memory_call.
  destruct c as [records|h values|h|h]; cbn [run_call publish_name set_challenge retire_name retire_challenge
    route53_provider MemoryProvider]; intros Hrun; unfold memory_op.
  - destruct (r53_publish_effect _ _ _ _ _ Hrun (zs_name _ _ Hz _)) as [|(Hv & Hs & He)]; [by left|right].
    rewrite Hv. eexists. split; [done|]. eapply r53_serving_change; [done|by apply records_hostname|done|done].
  - destruct (r53_set_challenge_effect _ _ _ _ _ _ Hrun (zs_challenge _ _ Hz h)) as [|(n & Hn & Hv & He)]; [by left|right].
    rewrite Hn. cbn [mbind result_bind]. rewrite Hv. eexists. split; [done|].
    destruct values; by eapply r53_challenge_change.
  - destruct (r53_retire_effect _ _ _ _ _ Hrun (zs_name _ _ Hz h)) as [|(Hh & Hs & He)]; [by left|right].
    rewrite Hh. eexists. split; [done|]. by eapply (r53_serving_change _ _ _ _ None).
  - destruct (r53_retire_challenge_effect _ _ _ _ _ Hrun (zs_challenge _ _ Hz h)) as [|(n & Hn & He)]; [by left|right].
    rewrite Hn. cbn [mbind result_bind]. eexists. split; [done|]. by eapply (r53_challenge_change _ _ _ _ _ None).
Qed.

Lemma zone_shows_sets z z' m : record_sets z' = record_sets z -> zone_shows z m -> zone_shows z' m.
Proof. intros Hz [Hn Hc]. split; by rewrite Hz. Qed.

(** A sequence of calls, failed ones included: those that succeeded, and the
    zone at the end. *)
Fixpoint route53_calls (cs : list Call) (z : hosted_zone) : list Call * hosted_zone :=
  match cs with
  | [] => ([], z)
  | c :: cs =>
      let (r, z1) := route53_call c z in
      let (succeeded, z') := route53_calls cs z1 in
      (if is_ok r then c :: succeeded else succeeded, z')
  end.

(** C8: The Route 53 provider refines the in-memory one, failures included. If
    a hosted zone shows what the maps of the in-memory provider hold, then
    after any sequence of publications, challenge changes and retirements,
    each successful or failed, there is a selection of those calls that holds
    every successful one, that the in-memory provider accepts in the same
    order, and whose maps the zone shows: a call takes effect whole or not at
    all, and one that succeeded took effect. *)
Theorem route53_refines_memory cs z m succeeded z' :
  zone_shows z m -> route53_calls cs z = (succeeded, z') ->
  exists landed m', succeeded `sublist_of` landed /\ landed `sublist_of` cs /\
    memory_calls landed m = Some m' /\ zone_shows z' m'.
Proof.
  revert z m succeeded. induction cs as [|c cs IH]; intros z m succeeded Hz; cbn.
  { intros [= <- <-]. by exists [], m. }
  destruct (route53_call c z) as [r z1] eqn:Hc. destruct (route53_calls cs z1) as [ok z2] eqn:Hcs. intros [= <- ->].
  destruct (r53_simulation _ _ _ _ _ Hz Hc) as [[Hr Hk]|(m1 & Hm & Hz1)].
  - destruct (IH z1 m ok) as (landed & m' & ? & ? & ? & ?); [by eapply zone_shows_sets|done|].
    exists landed, m'. rewrite Hr. split_and!; try done. by apply sublist_cons.
  - destruct (IH z1 m1 ok) as (landed & m' & Hs & ? & ? & ?); [done|done|].
    exists (c :: landed), m'. cbn [memory_calls]. rewrite Hm. split_and!; try done; [|by apply sublist_skip].
    destruct (is_ok r); [by apply sublist_skip|by apply sublist_cons].
Qed.
End refinement.
