(* ===== verification/Route53Samples.v ===== *)
(** * A concrete Route 53 service

    A zone of record sets that answers as a script says, which has the
    behaviour the provider relies on, and a sequence of changes on it. *)

From Stdlib Require Import Ascii String Strings.Byte.
From stdpp Require Import base strings list sets gmap.
From S2P Require Import Prelude Protocol Db Dns Cloudflare CloudflareSamples DnsWorker CloudflareRefinement Route53 Route53Refinement.

(** How a call is answered: as asked, refused, or done with the answer lost. *)
Inductive Answer53 := Answers | Refuses | Loses.
Record HostedZone := { raw_sets : Sets; answers : list Answer53 }.

Definition well_kept (kv : (string * RrType) * ResourceRecordSet) : Prop := set_key kv.2 = kv.1 /\ qualified kv.2 = kv.2.
#[global] Instance well_kept_dec kv : Decision (well_kept kv).
Proof. unfold well_kept. apply _. Defined.
Definition kept_sets (z : HostedZone) : Sets := filter well_kept (raw_sets z).

Definition next_answer (z : HostedZone) : Answer53 := default Answers (head (answers z)).
Definition with_sets (m : Sets) (z : HostedZone) : HostedZone := {| raw_sets := m; answers := tail (answers z) |}.
Definition listing (start : string) (m : Sets) : list ResourceRecordSet :=
  (map_to_list (filter (fun kv => kv.1.1 = start) m)).*2 ++ (map_to_list (filter (fun kv => kv.1.1 <> start) m)).*2.

#[local] Instance Hosted : Route53Api := {
  hosted_zone := HostedZone;
  record_sets := kept_sets;
  list_resource_record_sets start max z :=
    (match next_answer z with Answers => Some (take max (listing start (kept_sets z))) | _ => None end, with_sets (raw_sets z) z);
  change_resource_record_sets cs z :=
    match next_answer z, apply_batch cs (kept_sets z) with
    | Answers, Some m => (true, with_sets m z)
    | Loses, Some m => (false, with_sets m z)
    | _, _ => (false, with_sets (raw_sets z) z)
    end
}.

(** ** Trimmed names *)
Lemma trim_end_snoc p l c : p c = true -> list_trim_end p (l ++ [c]) = list_trim_end p l.
Proof. intros Hc. unfold list_trim_end. by rewrite reverse_snoc, Hc. Qed.

Lemma trim_end_end p l : list_trim_end p l = [] \/ exists l' c, list_trim_end p l = l' ++ [c] /\ p c = false.
Proof.
  induction l as [|c l IH] using rev_ind; [by left|]. destruct (p c) eqn:Hc.
  - rewrite trim_end_snoc by done. exact IH.
  - right. exists l, c. by rewrite trim_end_keep.
Qed.

Lemma trim_end_idemp p l : list_trim_end p (list_trim_end p l) = list_trim_end p l.
Proof. destruct (trim_end_end p l) as [->|(l' & c & -> & Hc)]; [done|]. by apply trim_end_keep. Qed.

Lemma trim_dots_qualified n : trim_dots (trim_dots n +:+ ".") = trim_dots n.
Proof.
  unfold trim_dots. rewrite str_bytes_app, str_bytes_string. change (str_bytes ".") with [Byte.x2e].
  by rewrite trim_end_snoc, trim_end_idemp by done.
Qed.

Lemma set_key_qualified r : set_key (qualified r) = set_key r.
Proof. unfold set_key, qualified. cbn [rs_name rs_type]. by rewrite trim_dots_qualified. Qed.

Lemma qualified_idemp r : qualified (qualified r) = qualified r.
Proof. unfold qualified. cbn [rs_name rs_type rs_ttl rs_values]. by rewrite trim_dots_qualified. Qed.

(** ** The laws *)
Definition all_kept (m : Sets) : Prop := map_Forall (fun k r => well_kept (k, r)) m.

Lemma kept_sets_all z : all_kept (kept_sets z).
Proof. intros k r Hr. by apply map_lookup_filter_Some in Hr as [_ ?]. Qed.

Lemma kept_sets_with m z : all_kept m -> kept_sets (with_sets m z) = m.
Proof. intros Hm. apply map_filter_id. exact Hm. Qed.

Lemma apply_batch_kept cs m m' : all_kept m -> apply_batch cs m = Some m' -> all_kept m'.
Proof.
  revert m. induction cs as [|c cs IH]; intros m Hm; cbn; [by intros [= <-]|]. intros (m1 & Hm1 & Hrest)%bind_Some.
  apply (IH m1); [|done]. unfold apply_change in Hm1. destruct (ch_action c).
  - injection Hm1 as <-. apply map_Forall_insert_2; [|done]. split; [apply set_key_qualified|apply qualified_idemp].
  - case_decide; [|done]. injection Hm1 as <-. by apply map_Forall_delete.
Qed.

Lemma listing_elem start (m : Sets) r : r ∈ listing start m <-> exists k, m !! k = Some r.
Proof.
  unfold listing. rewrite elem_of_app, !list_elem_of_fmap. split.
  - intros [([k r'] & -> & Hr)|([k r'] & -> & Hr)]; apply elem_of_map_to_list in Hr;
      apply map_lookup_filter_Some in Hr as [Hr _]; by exists k.
  - intros [k Hr]. destruct (decide (k.1 = start)) as [Hk|Hk]; [left|right]; exists (k, r); split; try done;
      apply elem_of_map_to_list, map_lookup_filter_Some; done.
Qed.

Lemma listing_keys start m : all_kept m -> NoDup (set_key <$> listing start m).
Proof.
  intros Hm. unfold listing. rewrite fmap_app.
  assert (Hpart : forall P `{forall kv, Decision (P kv)},
    set_key <$> (map_to_list (filter P m)).*2 = (map_to_list (filter P m)).*1).
  { intros P HP. rewrite <- list_fmap_compose. apply list_fmap_ext. intros i [k r] Hi%list_elem_of_lookup_2. cbn.
    apply elem_of_map_to_list, map_lookup_filter_Some in Hi as [Hr _]. by destruct (Hm k r Hr). }
  rewrite !Hpart. apply NoDup_app. split; [apply NoDup_fst_map_to_list|]. split; [|apply NoDup_fst_map_to_list].
  intros k Hk Hk'. apply list_elem_of_fmap in Hk as ([k1 r1] & -> & H1), Hk' as ([k2 r2] & Heq & H2). cbn in Heq. subst k2.
  apply elem_of_map_to_list, map_lookup_filter_Some in H1 as [_ H1]. apply elem_of_map_to_list, map_lookup_filter_Some in H2 as [_ H2].
  done.
Qed.

#[local] Instance Hosted_laws : Route53Laws.
Proof.
  split; cbn [record_sets list_resource_record_sets change_resource_record_sets Hosted hosted_zone].
  - intros z k r Hr. by destruct (kept_sets_all z k r Hr).
  - intros start max z r z' [= _ <-]. done.
  - intros start max z l z'. destruct (next_answer z); try done. intros [= <- <-]. split.
    + rewrite fmap_take. eapply sublist_NoDup; [apply listing_keys, kept_sets_all|apply sublist_take].
    + apply Forall_take, Forall_forall. intros r [k Hr]%listing_elem. destruct (kept_sets_all z k r Hr) as [Hk Hq]. cbn in Hk, Hq.
      by rewrite Hk.
  - intros start max z l z' t r. destruct (next_answer z); try done. intros [= <- <-] Hsize Hr. unfold listing.
    rewrite take_app_ge by (by rewrite length_fmap, length_map_to_list). apply elem_of_app. left.
    apply list_elem_of_fmap. exists ((start, t), r). split; [done|]. by apply elem_of_map_to_list, map_lookup_filter_Some.
  - intros cs z z'. destruct (next_answer z), (apply_batch cs (kept_sets z)) eqn:Hb; intros [= <-].
    rewrite kept_sets_with; [done|]. by eapply apply_batch_kept; [apply kept_sets_all|].
  - intros cs z z'. destruct (next_answer z), (apply_batch cs (kept_sets z)) eqn:Hb; intros [= <-]; try by left.
    right. rewrite kept_sets_with; [done|]. by eapply apply_batch_kept; [apply kept_sets_all|].
Qed.

(** ** A sequence of changes, with refused and lost answers *)
Definition empty_hosted : @hosted_zone Hosted :=
  {| raw_sets := ∅; answers := [Answers; Answers; Loses; Answers; Refuses] |}.

Lemma empty_hosted_sets k : record_sets empty_hosted !! k = None.
Proof. apply map_lookup_filter_None. by left. Qed.

Lemma empty_hosted_shows : zone_shows empty_hosted no_names.
Proof.
  split.
  - intros h _. assert (memory_records h no_names = None) as -> by apply lookup_empty. intros t. apply empty_hosted_sets.
  - intros h n _ t. assert (memory_challenge h no_names = []) as -> by (unfold memory_challenge; cbn [challenges no_names]; by rewrite lookup_empty).
    rewrite empty_hosted_sets. by destruct t.
Qed.

Lemma route53_refines_memory_witness : exists succeeded landed z' m',
  route53_calls sample_changes empty_hosted = (succeeded, z') /\ List.length succeeded = 1%nat /\
  succeeded `sublist_of` landed /\ memory_calls landed no_names = Some m' /\ zone_shows z' m'.
Proof.
  assert (Hlen : List.length (route53_calls sample_changes empty_hosted).1 = 1%nat) by (vm_compute; reflexivity).
  destruct (route53_calls sample_changes empty_hosted) as [succeeded z'] eqn:Hrun.
  destruct (route53_refines_memory sample_changes empty_hosted no_names succeeded z') as (landed & m' & Hs & _ & Hm & Hz).
  - exact empty_hosted_shows.
  - exact Hrun.
  - exists succeeded, landed, z', m'. exact (conj eq_refl (conj Hlen (conj Hs (conj Hm Hz)))).
Defined.
