(* ===== verification/CtWorker.v ===== *)
(** * The CT worker: crates/bloom-relay-ct/src/main.rs

    The service that pulls a certificate transparency feed into the store and
    posts the alerts the store raises to an alert sink. The HTTP agent, the
    URL parser and the file system are parameters: what they answer is part
    of the environment of a run. *)

From Stdlib Require Import Ascii String Strings.Byte.
From stdpp Require Import base strings list gmap.
From S2P Require Import Prelude Protocol Db Witness Store StoreCt StoreHistory ReceiptSigner ControlApi.

(** ** Feed and configuration *)
Record CtEntry := { en_position : Z; en_hostname : string; en_key_fingerprint : string }.
Record CtBatch := { ba_source : string; ba_entries : list CtEntry }.
Record Endpoint := { ep_url : string; ep_ca_pem : list byte; ep_token_path : string }.
Record Worker := { w_source : string; w_feed : Endpoint; w_alert : Endpoint }.

(** The parts of a parsed URL the check reads. *)
Record Url := {
  url_scheme : string;
  url_host : option string;
  url_username : string;
  url_password : option string;
  url_query : option string;
  url_fragment : option string;
  url_path : string;
  url_origin : string
}.
Class UrlParser := url_parse : string -> option Url.

Definition checked_url `{UrlParser} (value : string) (origin_only : bool) : option string :=
  match url_parse value with
  | None => None
  | Some url =>
      if negb (bool_decide (url_scheme url = "https"%string)) || bool_decide (url_host url = None)
         || negb (bool_decide (url_username url = ""%string)) || bool_decide (is_Some (url_password url))
         || bool_decide (is_Some (url_query url)) || bool_decide (is_Some (url_fragment url))
         || (origin_only && negb (bool_decide (url_path url = "/"%string)))
      then None
      else Some (if origin_only then url_origin url else value)
  end.

Definition token_byte (b : byte) : bool := is_ascii_alphanumeric b || Byte.eqb b Byte.x2d || Byte.eqb b Byte.x5f.
Definition read_token (file : option SecretFile) : option string :=
  match file with
  | None => None
  | Some meta =>
      if negb (sf_is_file meta) || (256 <? sf_len meta) then None
      else if negb (Z.land (sf_mode meta) 63 =? 0) then None
      else match sf_content meta with
           | None => None
           | Some content =>
               let token := trim content in
               if (str_len token <? 16) || (128 <? str_len token) || negb (bytes_all token_byte token) then None
               else Some token
           end
  end.

(** ** Alerts *)
Inductive AlertBody :=
| UnexpectedIssuance (source : string) (position : Z) (hostname key_fingerprint : string)
| FeedLag (source : string) (lag_seconds : Z).

(** The idempotency key and the body of a post. Ids are positive. *)
Definition Post : Type := string * AlertBody.
Definition issuance_post (alert : CtAlert) : Post :=
  ("ct:" +:+ ca_source alert +:+ ":" +:+ u64_to_string (ca_id alert),
   UnexpectedIssuance (ca_source alert) (ca_position alert) (ca_hostname alert) (ca_fingerprint alert)).
Definition lag_post (alert : CtLagAlert) : Post :=
  ("ct-lag:" +:+ cl_source alert +:+ ":" +:+ u64_to_string (cl_id alert), FeedLag (cl_source alert) (cl_lag_seconds alert)).

Inductive CtError := CtStore (e : StoreError) | MissingCheckpoint | HttpError | SinkRejected.

Section worker.
Context `{S3}.

(** [t_sink] is auxiliary: the posts the sink answered with 202. *)
Record Ct := { t_now : Z; t_world : World; t_sink : list Post }.
Definition ct_db (s : Ct) : Db := w_db (t_world s).

(** The environment at each await: the other processes, a failure of the
    store, the witness, the token files, whether the agent accepts the CA,
    the feed's answer and the sink's status. *)
Record CtEnv := {
  u_others : nat -> Ct -> Ct;
  u_fault : nat -> option Fault;
  u_ack : nat -> AckEnv;
  u_token : nat -> string -> option SecretFile;
  u_agent : list byte -> bool;
  u_feed : nat -> string -> string -> option CtBatch;
  u_post : nat -> string -> string -> Post -> option Z
}.

Definition CtM (A : Type) : Type := CtEnv -> nat * Ct -> result CtError A * (nat * Ct).
#[global] Instance ct_ret : MRet CtM := fun _ a _ s => (Ok a, s).
#[global] Instance ct_bind : MBind CtM := fun _ _ f m e s =>
  match m e s with (Ok a, s') => f a e s' | (Err err, s') => (Err err, s') end.

Definition ct_some {A} (err : CtError) (o : option A) : CtM A := fun _ s => (ok_or err o, s).
Definition in_world (w : World) (s : Ct) : Ct := {| t_now := t_now s; t_world := w; t_sink := t_sink s |}.
Definition accepted (p : Post) (s : Ct) : Ct := {| t_now := t_now s; t_world := t_world s; t_sink := t_sink s ++ [p] |}.

Definition ct_query {A} (f : Db -> result StoreError A) : CtM A := fun e s =>
  let s1 := u_others e s.1 s.2 in
  (match u_fault e s.1 with Some _ => Err (CtStore Unavailable) | None => map_err CtStore (f (ct_db s1)) end, (S s.1, s1)).

Definition ct_commit {A} (m : Z -> Tx A) : CtM A := fun e s =>
  let s1 := u_others e s.1 s.2 in
  match u_fault e s.1 with
  | Some NotSent => (Err (CtStore Unavailable), (S s.1, s1))
  | fault =>
      let (res, w) := run_tx (u_ack e s.1) (m (t_now s1)) (t_world s1) in
      (match fault with None => map_err CtStore res | Some _ => Err (CtStore Unavailable) end, (S s.1, in_world w s1))
  end.

(** ** The worker *)
Definition fetch (w : Worker) (checkpoint : Z) : CtM (option CtBatch) := fun e s =>
  let s1 := u_others e s.1 s.2 in
  let url := ep_url (w_feed w) +:+ "/v1/entries?after=" +:+ u64_to_string checkpoint +:+ "&limit=100" in
  (Ok (if u_agent e (ep_ca_pem (w_feed w))
       then token ← read_token (u_token e s.1 (ep_token_path (w_feed w))); u_feed e s.1 url token
       else None), (S s.1, s1)).

Definition post_alert (w : Worker) (p : Post) : CtM unit := fun e s =>
  let s1 := u_others e s.1 s.2 in
  if u_agent e (ep_ca_pem (w_alert w)) then
    match read_token (u_token e s.1 (ep_token_path (w_alert w))) with
    | None => (Err HttpError, (S s.1, s1))
    | Some token =>
        match u_post e s.1 (ep_url (w_alert w)) token p with
        | None => (Err HttpError, (S s.1, s1))
        | Some status => if status =? 202 then (Ok tt, (S s.1, accepted p s1)) else (Err SinkRejected, (S s.1, s1))
        end
    end
  else (Err HttpError, (S s.1, s1)).

(** The loop over a batch: the position reached and whether every entry
    continued it. Positions come from the checkpoint or passed [observe_ct], so
    they are at most [i64::MAX] and the increment does not overflow. *)
Fixpoint observe_entries (w : Worker) (entries : list CtEntry) (next : Z) : CtM (Z * bool) :=
  match entries with
  | [] => mret (next, true)
  | entry :: entries =>
      if negb (en_position entry =? next + 1) then mret (next, false)
      else
        _ ← ct_commit (fun now => observe_ct_tx now (w_source w) (en_position entry) (en_hostname entry) (en_key_fingerprint entry));
        observe_entries w entries (en_position entry)
  end.

Fixpoint post_all {A} (w : Worker) (post : A -> Post) (mark : A -> Z -> Tx unit) (alerts : list A) : CtM unit :=
  match alerts with
  | [] => mret tt
  | alert :: alerts =>
      _ ← post_alert w (post alert);
      _ ← ct_commit (mark alert);
      post_all w post mark alerts
  end.

Definition deliver_alerts (w : Worker) : CtM unit :=
  alerts ← ct_query (pending_ct_alerts (w_source w) 100);
  _ ← post_all w issuance_post (fun alert now => mark_ct_alert_delivered_tx now (ca_id alert)) alerts;
  lags ← ct_query (pending_ct_lag_alerts (w_source w) 100);
  post_all w lag_post (fun alert now => mark_ct_lag_alert_delivered_tx now (cl_id alert)) lags.

Definition tick (w : Worker) : CtM unit :=
  found ← ct_query (ct_checkpoint (w_source w));
  checkpoint ← ct_some MissingCheckpoint found;
  batch ← fetch w checkpoint;
  _ ← (match batch with
       | Some batch =>
           if bool_decide (ba_source batch = w_source w) && (Z.of_nat (List.length (ba_entries batch)) <=? 100)
           then
             '(next, contiguous) ← observe_entries w (ba_entries batch) checkpoint;
             if contiguous : bool then ct_commit (fun now => mark_ct_feed_healthy_tx now (w_source w) next) else mret tt
           else mret tt
       | None => mret tt
       end);
  _ ← ct_commit (fun now => queue_ct_lag_alert_tx now (w_source w));
  deliver_alerts w.

(** The gauge of the feed's lag, when the query finds one. *)
Definition lag_gauge (w : Worker) : CtM (option Z) := fun e s =>
  ct_query (fun d => Ok (ct_feed_lag_seconds (t_now (u_others e s.1 s.2)) (w_source w) d)) e s.

(** The loop of the service after its source is registered. A round reports
    its readiness and the gauge it set; a failed tick is counted and the next
    one runs. [waits] tells of each wait whether a signal ended it, and a
    worker told to run once does not wait. *)
Record Round := { rd_ready : bool; rd_lag : option Z }.
Fixpoint ct_loop (once : bool) (waits : list bool) (w : Worker) (e : CtEnv) (s : nat * Ct) : list Round * (nat * Ct) :=
  match waits with
  | [] => ([], s)
  | signalled :: waits =>
      let (r, s1) := tick w e s in
      let (lag, s2) := lag_gauge w e s1 in
      let round := {| rd_ready := is_ok r; rd_lag := match lag with Ok o => o | Err _ => None end |} in
      if once || signalled then ([round], s2)
      else let (rounds, s3) := ct_loop once waits w e s2 in (round :: rounds, s3)
  end.
Definition ct_main (once : bool) (waits : list bool) (w : Worker) (e : CtEnv) (s : nat * Ct) : list Round * (nat * Ct) :=
  match ct_commit (fun now => ensure_ct_source_tx now (w_source w)) e s with
  | (Ok _, s1) => ct_loop once waits w e s1
  | (Err _, s1) => ([], s1)
  end.
End worker.
