(* ===== verification/CtWorkerProperties.v ===== *)
(** * What the CT worker guarantees

    The worker and the processes that share its database and its alert sink
    move them only in certain ways, and along such moves an alert is marked
    delivered only when the sink accepted its post. *)

From Stdlib Require Import Ascii String Strings.Byte.
From stdpp Require Import base strings list gmap.
From S2P Require Import Prelude Protocol Db Witness Store StoreLifecycle StoreCt StoreHistory StoreCtFeed ControlApi ControlLogic CtWorker.

(** ** Tables of alerts *)
Section table.
Context {R : Type} (rid : R -> Z) (rdel : R -> option Z) (rpost : R -> Post).
Implicit Types (l : list R) (sink : list Post).

(** Ids are distinct, and delivered rows were accepted. *)
Record table_ok (l : list R) (sink : list Post) : Prop := {
  tab_ids : NoDup (rid <$> l);
  tab_bound : Forall (fun a => 1 <= rid a <= Z.of_nat (List.length l)) l;
  tab_sent : Forall (fun a => rdel a = None \/ rpost a ∈ sink) l
}.

Definition grows l l' : Prop :=
  l' = l \/ exists a, l' = l ++ [a] /\ rid a = Z.of_nat (List.length l) + 1 /\ rdel a = None.
Definition marked (n : Z) l l' : Prop :=
  exists f, l' = f <$> l /\ forall a, rid (f a) = rid a /\ rpost (f a) = rpost a /\ (rdel (f a) = rdel a \/ rid a = n).
Definition vouched (n : Z) l sink : Prop := forall a, a ∈ l -> rid a = n -> rpost a ∈ sink.
Definition keeps l l' : Prop := forall a, a ∈ l -> exists a', a' ∈ l' /\ rid a' = rid a /\ rpost a' = rpost a.

Lemma table_empty sink : table_ok [] sink.
Proof. split; constructor. Qed.

Lemma table_grow l l' sink : table_ok l sink -> grows l l' -> table_ok l' sink.
Proof.
  intros Hok [->|(a & -> & Hid & Hdel)]; [done|]. destruct Hok as [Hn Hb Hs]. split.
  - rewrite fmap_app. apply NoDup_app. split; [done|]. split; [|apply NoDup_singleton].
    intros x (b & -> & Hin)%list_elem_of_fmap Hx%list_elem_of_singleton. rewrite Forall_forall in Hb. specialize (Hb b Hin). lia.
  - rewrite length_app. cbn. apply Forall_app. split; [|apply Forall_singleton; lia].
    eapply Forall_impl; [exact Hb|]. cbn. intros. lia.
  - apply Forall_app. split; [done|]. apply Forall_singleton. by left.
Qed.

Lemma table_mark n l l' sink : table_ok l sink -> vouched n l sink -> marked n l l' -> table_ok l' sink.
Proof.
  intros [Hn Hb Hs] Hv (f & -> & Hf). rewrite Forall_forall in Hb, Hs. split.
  - rewrite <- list_fmap_compose. rewrite (list_fmap_ext _ rid); [done|]. intros i a _. apply Hf.
  - rewrite length_fmap. apply Forall_forall. intros b (a & -> & Ha)%list_elem_of_fmap.
    destruct (Hf a) as [-> _]. by apply Hb.
  - apply Forall_forall. intros b (a & -> & Ha)%list_elem_of_fmap. destruct (Hf a) as (_ & -> & [->|Hid]); [by apply Hs|].
    right. by apply Hv.
Qed.

Lemma table_sink l sink sink' : table_ok l sink -> sink ⊆ sink' -> table_ok l sink'.
Proof.
  intros [Hn Hb Hs] Hsub. split; [done..|]. eapply Forall_impl; [exact Hs|]. cbn. intros a [?|?]; [by left|right; by apply Hsub].
Qed.

Lemma keeps_refl l : keeps l l.
Proof. intros a Ha. by exists a. Qed.
Lemma keeps_grow l l' : grows l l' -> keeps l l'.
Proof. intros [->|(a & -> & _)]; [apply keeps_refl|]. intros b Hb. exists b. split; [|done]. apply elem_of_app. by left. Qed.
Lemma keeps_mark n l l' : marked n l l' -> keeps l l'.
Proof.
  intros (f & -> & Hf) a Ha. exists (f a). split; [by apply list_elem_of_fmap_2|]. split; apply Hf.
Qed.
Lemma keeps_trans l l1 l2 : keeps l l1 -> keeps l1 l2 -> keeps l l2.
Proof.
  intros H1 H2 a Ha. destruct (H1 a Ha) as (b & Hb & Hid & Hp). destruct (H2 b Hb) as (c & Hc & Hid' & Hp').
  exists c. split; [done|]. split; congruence.
Qed.

(** The row of a post that is listed is the only one with its id. *)
Definition listed (n : Z) (p : Post) l : Prop := exists a, a ∈ l /\ rid a = n /\ rpost a = p.
Lemma listed_kept n p l l' : listed n p l -> keeps l l' -> listed n p l'.
Proof. intros (a & Ha & <- & <-) Hk. destruct (Hk a Ha) as (b & Hb & ? & ?). by exists b. Qed.
Lemma listed_vouched n p l sink : table_ok l sink -> listed n p l -> p ∈ sink -> vouched n l sink.
Proof.
  intros [Hn _ _] (a & Ha & Hid & Hp) Hin b Hb Hid'. rewrite <- Hp in Hin.
  apply list_elem_of_lookup in Ha as [i Hi], Hb as [j Hj].
  assert (i = j) as ->; [|congruence]. eapply NoDup_lookup; [exact Hn| |]; rewrite list_lookup_fmap.
  - by rewrite Hi; cbn.
  - rewrite Hj; cbn. congruence.
Qed.
End table.

(** ** The two tables *)
Definition row_post (a : CtAlertRow) : Post :=
  issuance_post {| ca_id := al_id a; ca_source := al_source a; ca_position := i64_as_u64 (al_position a);
                   ca_hostname := al_hostname a; ca_fingerprint := al_fingerprint a |}.
Definition lag_row_post (h : CtHealthRow) : Post :=
  lag_post {| cl_id := he_id h; cl_source := he_source h; cl_lag_seconds := i64_as_u64 (he_lag_seconds h) |}.

Abbreviation alerts_ok := (table_ok al_id al_delivered_at row_post).
Abbreviation lags_ok := (table_ok he_id he_delivered_at lag_row_post).

Definition marks (r : Request) : bool :=
  match r with MarkCtAlertDelivered _ | MarkCtLagAlertDelivered _ => true | _ => false end.

Lemma queue_grows now s d u d' : queue_ct_lag_alert_tx now s d = Ok (u, d') ->
  ct_alerts (d_ct d') = ct_alerts (d_ct d) /\ grows he_id he_delivered_at (ct_health_alerts (d_ct d)) (ct_health_alerts (d_ct d')).
Proof.
  unfold queue_ct_lag_alert_tx, advance_restore_fence. intros He. inv_tx.
  destruct (checkpoints d !! s) as [[? ?]|]; [|inv_tx; split; [done|by left]].
  destruct (_ && _); inv_tx; [|split; [done|by left]]. inv_ok. split; [done|]. right. by eexists.
Qed.

Lemma mark_marks now n d u d' : mark_ct_alert_delivered_tx now n d = Ok (u, d') ->
  ct_health_alerts (d_ct d') = ct_health_alerts (d_ct d) /\
  marked al_id al_delivered_at row_post n (ct_alerts (d_ct d)) (ct_alerts (d_ct d')).
Proof.
  unfold mark_ct_alert_delivered_tx, advance_restore_fence. intros He. inv_tx. cbv zeta in He.
  destruct (existsb _ _); inv_tx.
  - inv_ok. split; [done|]. eexists. split; [done|]. cbn. intros a. destruct (al_id a =? n) eqn:Hn; cbn; [|by auto].
    apply Z.eqb_eq in Hn. destruct (bool_decide _); cbn; auto.
  - split; [done|]. exists id. split; [by rewrite list_fmap_id|auto].
Qed.

Lemma mark_lag_marks now n d u d' : mark_ct_lag_alert_delivered_tx now n d = Ok (u, d') ->
  ct_alerts (d_ct d') = ct_alerts (d_ct d) /\
  marked he_id he_delivered_at lag_row_post n (ct_health_alerts (d_ct d)) (ct_health_alerts (d_ct d')).
Proof.
  unfold mark_ct_lag_alert_delivered_tx, advance_restore_fence. intros He. inv_tx. cbv zeta in He.
  destruct (existsb _ _); inv_tx.
  - inv_ok. split; [done|]. eexists. split; [done|]. cbn. intros a. destruct (he_id a =? n) eqn:Hn; cbn; [|by auto].
    apply Z.eqb_eq in Hn. destruct (bool_decide _); cbn; auto.
  - split; [done|]. exists id. split; [by rewrite list_fmap_id|auto].
Qed.

Section guarantee.
Context {St3 : S3} {Cr : Crypto} {B32 : Base32} (cfg : StoreConfig).

Lemma exec_grows now r d d' :
  typed r -> marks r = false -> ct_ok (d_ct d) -> exec cfg now r d = Ok (tt, d') ->
  grows al_id al_delivered_at (ct_alerts (d_ct d)) (ct_alerts (d_ct d')) /\
  grows he_id he_delivered_at (ct_health_alerts (d_ct d)) (ct_health_alerts (d_ct d')).
Proof.
  intros Ht Hm Hok He. destruct (ct_request r) eqn:Hr.
  2: { rewrite (exec_ct_frame cfg _ _ _ _ Hr He). split; by left. }
  destruct r; try done; cbn [exec typed] in *.
  - unfold ensure_ct_source_tx in He. inv_tx. apply insert_checkpoint_ok in He as [[_ ->]|(_ & -> & _)]; split; by left.
  - unfold mark_ct_feed_healthy_tx in He. inv_tx. destruct (checkpoints d !! source) as [[q t]|]; [|inv_tx].
    destruct (q =? _); [|inv_tx]. rewrite (write_checkpoint_ok _ _ _ _ _ _ He). split; by left.
  - apply queue_grows in He as [-> Hg]. split; [by left|done].
  - apply void_ok in He as [x He].
    apply observe_ct_tx_ok in He as [(row & -> & _)|(p & row & _ & _ & _ & _ & _ & _ & _ & ->)];
      [split; by left| |apply Ht|done].
    cbn. unfold observed. destruct (ob_expected row); cbn; [split; by left|]. split; [|by left]. right. by eexists.
Qed.

(** ** Shared moves *)
Definition Shared : Type := Db * list Post.
Inductive moves : Shared -> Shared -> Prop :=
| moves_request now r d sink d' :
    typed r -> marks r = false -> exec cfg now r d = Ok (tt, d') -> moves (d, sink) (d', sink)
| moves_accept d sink p : moves (d, sink) (d, sink ++ [p])
| moves_mark now n d sink d' :
    vouched al_id row_post n (ct_alerts (d_ct d)) sink ->
    exec cfg now (MarkCtAlertDelivered n) d = Ok (tt, d') -> moves (d, sink) (d', sink)
| moves_mark_lag now n d sink d' :
    vouched he_id lag_row_post n (ct_health_alerts (d_ct d)) sink ->
    exec cfg now (MarkCtLagAlertDelivered n) d = Ok (tt, d') -> moves (d, sink) (d', sink).

Record reported (x : Shared) : Prop := {
  re_feed : ct_ok (d_ct x.1);
  re_alerts : alerts_ok (ct_alerts (d_ct x.1)) x.2;
  re_lags : lags_ok (ct_health_alerts (d_ct x.1)) x.2
}.

(** What a move keeps: the rows, and what the sink accepted. *)
Record retains (x y : Shared) : Prop := {
  rt_alerts : keeps al_id row_post (ct_alerts (d_ct x.1)) (ct_alerts (d_ct y.1));
  rt_lags : keeps he_id lag_row_post (ct_health_alerts (d_ct x.1)) (ct_health_alerts (d_ct y.1));
  rt_sink : x.2 ⊆ y.2
}.

Lemma moves_ok x y : moves x y -> reported x -> reported y /\ retains x y.
Proof.
  intros Hm [Hf Ha Hl]. destruct Hm as [now r d sink d' Ht Hm He|d sink p|now n d sink d' Hv He|now n d sink d' Hv He]; cbn in *.
  - destruct (exec_grows _ _ _ _ Ht Hm Hf He) as [Hga Hgl].
    split; split; cbn; [by eapply ct_ok_step, exec_ct|by eapply table_grow|by eapply table_grow|by eapply keeps_grow|by eapply keeps_grow|done].
  - assert (sink ⊆ sink ++ [p]) by set_solver.
    split; split; cbn; [done|by eapply table_sink|by eapply table_sink|apply keeps_refl|apply keeps_refl|done].
  - assert (ct_ok (d_ct d')) by (by eapply ct_ok_step, (exec_ct cfg now (MarkCtAlertDelivered n))).
    cbn [exec] in He. apply mark_marks in He as [Heq Hmk]. rewrite <- Heq in Hl.
    split; split; cbn; [done|by eapply table_mark|done|by eapply keeps_mark|rewrite Heq; apply keeps_refl|done].
  - assert (ct_ok (d_ct d')) by (by eapply ct_ok_step, (exec_ct cfg now (MarkCtLagAlertDelivered n))).
    cbn [exec] in He. apply mark_lag_marks in He as [Heq Hmk]. rewrite <- Heq in Ha.
    split; split; cbn; [done|done|by eapply table_mark|rewrite Heq; apply keeps_refl|by eapply keeps_mark|done].
Qed.

#[global] Instance retains_preorder : PreOrder retains.
Proof.
  split.
  - intros x. split; [apply keeps_refl..|done].
  - intros x y z [? ? ?] [? ? ?]. split; [by eapply keeps_trans..|]. by etransitivity.
Qed.

Lemma moves_star x y : rtc moves x y -> reported x -> reported y /\ retains x y.
Proof.
  induction 1 as [x|x y z Hxy _ IH]; [done|]. intros Hx. destruct (moves_ok _ _ Hxy Hx) as [Hy Hr]. destruct (IH Hy) as [Hz Hr'].
  split; [done|]. by etransitivity.
Qed.

(** ** The worker's part *)
Definition shared (s : Ct) : Shared := (ct_db s, t_sink s).

Section run.
Context (e : CtEnv) (Hrely : forall n s, rtc moves (shared s) (shared (u_others e n s))).

(** From a reported state where [P] holds, a run only moves as allowed, and
    when it succeeds [Q] holds. *)
Definition guaranteed {A} (P : Shared -> Prop) (m : CtM A) (Q : A -> Shared -> Prop) : Prop :=
  forall n s r n' s', reported (shared s) -> P (shared s) -> m e (n, s) = (r, (n', s')) ->
    rtc moves (shared s) (shared s') /\ forall a, r = Ok a -> Q a (shared s').

Definition anything (x : Shared) : Prop := True.
Definition stable (P : Shared -> Prop) : Prop := forall x y, retains x y -> P x -> P y.

Lemma g_ret {A} P (a : A) (Q : A -> Shared -> Prop) : (forall x, P x -> Q a x) -> guaranteed P (mret a) Q.
Proof. intros Hq n s r n' s' _ HP [= <- <- <-]. split; [constructor|]. intros ? [= <-]. by apply Hq. Qed.

Lemma g_bind {A B} P (m : CtM A) Q (f : A -> CtM B) R :
  guaranteed P m Q -> (forall a, guaranteed (Q a) (f a) R) -> guaranteed P (m ≫= f) R.
Proof.
  intros Hm Hf n s r n' s' Hs HP. unfold mbind, ct_bind. destruct (m e (n, s)) as [[a|err] [n1 s1]] eqn:Hrun.
  - destruct (Hm _ _ _ _ _ Hs HP Hrun) as [Hmv Hq]. intros Hrun'.
    destruct (moves_star _ _ Hmv Hs) as [Hs1 _]. destruct (Hf a _ _ _ _ _ Hs1 (Hq a eq_refl) Hrun') as [Hmv' Hr].
    split; [|done]. by eapply (transitivity (R := rtc _)).
  - intros [= <- <- <-]. split; [|done]. by eapply Hm.
Qed.

Lemma g_some {A} P err (o : option A) : guaranteed P (ct_some err o) (fun _ => anything).
Proof. intros n s r n' s' _ _ [= _ _ <-]. split; [constructor|done]. Qed.

Lemma g_weaken {A} P P' (m : CtM A) Q Q' :
  guaranteed P m Q -> (forall x, P' x -> P x) -> (forall a x, Q a x -> Q' a x) -> guaranteed P' m Q'.
Proof. intros Hm HP HQ n s r n' s' Hs HP' Hrun. destruct (Hm _ _ _ _ _ Hs (HP _ HP') Hrun). split; [done|]. eauto. Qed.

Lemma g_query {A} P (f : Db -> result StoreError A) Q :
  stable P -> (forall x a, P x -> f x.1 = Ok a -> Q a x) -> guaranteed P (ct_query f) Q.
Proof.
  intros Hst HQ n s r n' s' Hs HP [= <- _ <-]. split; [apply Hrely|]. intros a Ha.
  destruct (moves_star _ _ (Hrely n s) Hs) as [_ Hr]. destruct (u_fault e n); [done|].
  destruct (f (ct_db (u_others e n s))) eqn:Hf; [|done]. injection Ha as ->. apply HQ; [by eapply Hst|exact Hf].
Qed.

Lemma run_tx_moves {A} ae (m : Tx A) w res w' sink :
  (forall a d', m (w_db w) = Ok (a, d') -> moves (w_db w, sink) (d', sink)) ->
  run_tx ae m w = (res, w') -> rtc moves (w_db w, sink) (w_db w', sink).
Proof. intros Hm [->|[a Ha]]%run_tx_db; [constructor|]. apply rtc_once. by eapply Hm. Qed.

Lemma g_commit {A} (P : Shared -> Prop) (m : Z -> Tx A) (Q : A -> Shared -> Prop) :
  stable P -> (forall x now a d', reported x -> P x -> m now x.1 = Ok (a, d') -> moves x (d', x.2)) ->
  (forall a x, P x -> Q a x) -> guaranteed P (ct_commit m) Q.
Proof.
  intros Hst Hm HQ n s r n' s' Hs HP. unfold ct_commit. cbn [fst snd].
  destruct (moves_star _ _ (Hrely n s) Hs) as [Hs1 Hr1]. pose proof (Hst _ _ Hr1 HP) as HP1. pose proof (Hrely n s) as Hmv.
  set (s1 := u_others e n s) in *. destruct (run_tx (u_ack e n) (m (t_now s1)) (t_world s1)) as [res w] eqn:Hrun.
  assert (Hw : rtc moves (shared s1) (shared (in_world w s1))).
  { eapply run_tx_moves; [|exact Hrun]. intros a d' Ha. by eapply (Hm (shared s1)). }
  destruct (moves_star _ _ Hw Hs1) as [_ Hr2]. pose proof (Hst _ _ Hr2 HP1) as HP2.
  assert (Hall : rtc moves (shared s) (shared (in_world w s1))) by (by eapply (transitivity (R := rtc _))).
  destruct (u_fault e n) as [[]|]; intros [= _ _ <-]; (split; [done|]; intros; by apply HQ).
Qed.

(** A request that is not a delivery mark. *)
Lemma g_request {A} (m : Z -> Tx A) (r : Request) :
  typed r -> marks r = false -> (forall now d a d', m now d = Ok (a, d') -> exec cfg now r d = Ok (tt, d')) ->
  guaranteed anything (ct_commit m) (fun _ => anything).
Proof.
  intros Ht Hm Hx. apply g_commit; [done| |done]. intros [d sink] now a d' _ _ Ha. eapply (moves_request now r); [done..|]. by eapply Hx.
Qed.

Lemma g_post w p P : stable P -> guaranteed P (post_alert w p) (fun _ x => P x /\ p ∈ x.2).
Proof.
  intros Hst n s r n' s' Hs HP. unfold post_alert. cbn [fst snd].
  destruct (moves_star _ _ (Hrely n s) Hs) as [Hs1 Hr1]. pose proof (Hst _ _ Hr1 HP) as HP1. pose proof (Hrely n s) as Hmv.
  set (s1 := u_others e n s) in *.
  destruct (u_agent e _); [|by intros [= <- _ <-]]. destruct (read_token _) as [token|]; [|by intros [= <- _ <-]].
  destruct (u_post e n _ token p) as [status|]; [|by intros [= <- _ <-]].
  destruct (status =? 202); intros [= <- _ <-]; [|done].
  assert (Hacc : moves (shared s1) (shared (accepted p s1))) by apply moves_accept.
  split; [by eapply rtc_r|]. intros _ _. split; [|apply elem_of_app; right; by apply list_elem_of_singleton].
  eapply Hst; [|exact HP1]. by apply moves_ok.
Qed.

Lemma g_post_all {A} w (post : A -> Post) (mark : A -> Z -> Tx unit) (L : A -> Shared -> Prop) alerts :
  (forall alert, stable (L alert)) ->
  (forall alert x now u d', reported x -> L alert x -> post alert ∈ x.2 -> mark alert now x.1 = Ok (u, d') -> moves x (d', x.2)) ->
  guaranteed (fun x => Forall (fun alert => L alert x) alerts) (post_all w post mark alerts) (fun _ => anything).
Proof.
  intros Hst Hmark. induction alerts as [|alert alerts IH]; cbn [post_all]; [by apply g_ret|].
  assert (HL : stable (fun x => Forall (fun alert => L alert x) (alert :: alerts))).
  { intros x y Hr Hx. eapply Forall_impl; [exact Hx|]. cbn. intros b. by apply Hst. }
  eapply g_bind; [by apply g_post|]. intros u0. cbn beta.
  eapply (g_bind _ _ (fun _ x => Forall (fun alert => L alert x) alerts)); [|intros _; exact IH].
  apply g_commit.
  - intros x y Hr [Hx Hp]. split; [by eapply HL|]. by apply (rt_sink _ _ Hr).
  - intros x now u d' Hx [Hall Hp]. by apply Hmark; [|apply Forall_inv in Hall|].
  - intros _ x [Hall _]. by apply Forall_inv_tail in Hall.
Qed.

Definition alert_listed (alert : CtAlert) (x : Shared) : Prop :=
  listed al_id row_post (ca_id alert) (issuance_post alert) (ct_alerts (d_ct x.1)).
Definition lag_listed (alert : CtLagAlert) (x : Shared) : Prop :=
  listed he_id lag_row_post (cl_id alert) (lag_post alert) (ct_health_alerts (d_ct x.1)).

Lemma pending_listed source d sink l : pending_ct_alerts source 100 d = Ok l -> Forall (fun a => alert_listed a (d, sink)) l.
Proof.
  unfold pending_ct_alerts. intros He. inv_ok. apply Forall_forall. intros alert (a & -> & Ha)%list_elem_of_fmap.
  apply elem_of_take in Ha as (i & Ha%list_elem_of_lookup_2 & _). apply list_elem_of_In, filter_In in Ha as [Ha Hu].
  unfold undelivered in Hu. apply andb_prop in Hu as [Hu%bool_decide_eq_true _].
  exists a. split; [by apply list_elem_of_In|]. split; [done|]. unfold row_post, lag_row_post. by rewrite Hu.
Qed.

Lemma pending_lag_listed source d sink l : pending_ct_lag_alerts source 100 d = Ok l -> Forall (fun a => lag_listed a (d, sink)) l.
Proof.
  unfold pending_ct_lag_alerts. intros He. inv_ok. apply Forall_forall. intros alert (a & -> & Ha)%list_elem_of_fmap.
  apply elem_of_take in Ha as (i & Ha%list_elem_of_lookup_2 & _). apply list_elem_of_In, filter_In in Ha as [Ha Hu].
  unfold lag_undelivered in Hu. apply andb_prop in Hu as [Hu%bool_decide_eq_true _].
  exists a. split; [by apply list_elem_of_In|]. split; [done|]. unfold row_post, lag_row_post. by rewrite Hu.
Qed.

Lemma g_deliver w : guaranteed anything (deliver_alerts w) (fun _ => anything).
Proof.
  unfold deliver_alerts. eapply g_bind.
  { apply (g_query _ _ (fun l x => Forall (fun a => alert_listed a x) l)); [done|]. intros [d sink] l _. apply pending_listed. }
  intros alerts. eapply (g_bind _ _ (fun _ => anything)).
  { apply (g_post_all w _ _ alert_listed).
    - intros alert x y Hr Hl. eapply listed_kept; [exact Hl|apply Hr].
    - intros alert [d sink] now u d' Hx Hl Hp He. destruct u. eapply moves_mark; [|exact He].
      eapply listed_vouched; [apply Hx|exact Hl|exact Hp]. }
  intros _. eapply g_bind.
  { apply (g_query _ _ (fun l x => Forall (fun a => lag_listed a x) l)); [done|]. intros [d sink] l _. apply pending_lag_listed. }
  intros lags. apply (g_post_all w _ _ lag_listed).
  - intros alert x y Hr Hl. eapply listed_kept; [exact Hl|apply Hr].
  - intros alert [d sink] now u d' Hx Hl Hp He. destruct u. eapply moves_mark_lag; [|exact He].
    eapply listed_vouched; [apply Hx|exact Hl|exact Hp].
Qed.

(** Positions of a batch are unsigned 64-bit. *)
Definition typed_batch (b : CtBatch) : Prop := Forall (fun entry => is_u64 (en_position entry)) (ba_entries b).

Lemma g_observe w entries next :
  is_u64 next -> Forall (fun entry => is_u64 (en_position entry)) entries ->
  guaranteed anything (observe_entries w entries next) (fun r _ => is_u64 r.1).
Proof.
  intros Hn Ht. revert next Hn. induction Ht as [|entry entries Hty _ IH]; intros next Hn; cbn [observe_entries]; [by apply g_ret|].
  destruct (negb _); [by apply g_ret|]. eapply g_bind; [|intros b; by apply IH].
  eapply (g_request _ (ObserveCt (w_source w) (en_position entry) (en_hostname entry) (en_key_fingerprint entry))); [done|done|].
  intros. by eapply void_run.
Qed.

Lemma g_pure {A} (X : Prop) (m : CtM A) Q : (X -> guaranteed anything m Q) -> guaranteed (fun _ => X) m Q.
Proof. intros Hm n s r n' s' Hs HX. by apply Hm. Qed.

Context (Hbatch : forall n url token b, u_feed e n url token = Some b -> typed_batch b).

Lemma g_fetch w checkpoint :
  guaranteed anything (fetch w checkpoint) (fun b _ => forall batch, b = Some batch -> typed_batch batch).
Proof.
  intros n s r n' s' _ _ [= <- _ <-]. split; [apply Hrely|]. intros a [= <-] batch Hb.
  destruct (u_agent e _); [|done]. apply bind_Some in Hb as (token & _ & Hb). by eapply Hbatch.
Qed.

Lemma g_batch w batch checkpoint : is_u64 checkpoint -> typed_batch batch ->
  guaranteed anything
    ('(next, contiguous) ← observe_entries w (ba_entries batch) checkpoint;
     if contiguous : bool then ct_commit (fun now => mark_ct_feed_healthy_tx now (w_source w) next) else mret tt)
    (fun _ => anything).
Proof.
  intros Hc Hb. eapply g_bind; [by apply g_observe|]. intros [next []]; cbn beta; apply g_pure; intros Hn; [|by apply g_ret].
  by apply (g_request _ (MarkCtFeedHealthy (w_source w) next)); [| |intros ? ? [] ?].
Qed.

Lemma g_tick w : guaranteed anything (tick w) (fun _ => anything).
Proof.
  unfold tick. eapply g_bind.
  { apply (g_query _ _ (fun o _ => forall p, o = Some p -> is_u64 p)); [done|]. intros x o _ Ho p ->.
    unfold ct_checkpoint in Ho. inv_ok. apply fmap_Some in Ho as (y & _ & ->). unfold is_u64, u64_max, compose, i64_as_u64. pose proof (Z.mod_pos_bound y.1 (2 ^ 64)). lia. }
  intros found. cbn beta. apply g_pure. intros Hfound.
  eapply (g_bind _ _ (fun p _ => is_u64 p)).
  { intros n s r n' s' _ _ [= <- _ <-]. split; [constructor|]. intros p Hp. apply ok_or_ok in Hp. by apply Hfound. }
  intros checkpoint. cbn beta. apply g_pure. intros Hc. eapply g_bind; [apply g_fetch|]. intros batch. cbn beta. apply g_pure. intros Hb.
  eapply (g_bind _ _ (fun _ => anything)).
  { destruct batch as [batch|]; [|by apply g_ret]. destruct (_ && _); [|by apply g_ret]. apply g_batch; [done|]. by apply Hb. }
  intros _. eapply (g_bind _ _ (fun _ => anything)); [|intros _; apply g_deliver].
  by apply (g_request _ (QueueCtLagAlert (w_source w))); [| |intros ? ? [] ?].
Qed.

Lemma g_lag w : guaranteed anything (lag_gauge w) (fun _ => anything).
Proof.
  intros n s r n' s' Hs HX Hr. eapply (g_query _ _ (fun _ => anything)); [| |exact Hs|exact HX|exact Hr]; done.
Qed.

Lemma loop_moves once waits w n s : reported (shared s) -> rtc moves (shared s) (shared (ct_loop once waits w e (n, s)).2.2).
Proof.
  revert n s. induction waits as [|signalled waits IH]; intros n s Hs; cbn [ct_loop]; [constructor|].
  destruct (tick w e (n, s)) as [r [n1 s1]] eqn:Ht. destruct (g_tick w _ _ _ _ _ Hs I Ht) as [Hmv _].
  pose proof (moves_star _ _ Hmv Hs) as [Hs1 _].
  destruct (lag_gauge w e (n1, s1)) as [lag [n2 s2]] eqn:Hl. destruct (g_lag w _ _ _ _ _ Hs1 I Hl) as [Hmv2 _].
  pose proof (moves_star _ _ Hmv2 Hs1) as [Hs2 _].
  assert (rtc moves (shared s) (shared s2)) as Hm by (by eapply (transitivity (R := rtc _))).
  destruct (once || signalled); [exact Hm|]. specialize (IH n2 s2 Hs2).
  destruct (ct_loop once waits w e (n2, s2)) as [rounds [n3 s3]]. by eapply (transitivity (R := rtc _)).
Qed.

Lemma main_moves once waits w n s : reported (shared s) -> rtc moves (shared s) (shared (ct_main once waits w e (n, s)).2.2).
Proof.
  intros Hs. unfold ct_main. destruct (ct_commit _ e (n, s)) as [r [n1 s1]] eqn:Hc.
  assert (Hmv : rtc moves (shared s) (shared s1)).
  { eapply (g_request _ (EnsureCtSource (w_source w))) in Hc as [? _]; [done|done|done|by intros ? ? [] ?|done|done]. }
  destruct r; [|done]. eapply (transitivity (R := rtc _)); [exact Hmv|]. apply loop_moves. by eapply moves_star.
Qed.
End run.

Lemma reported_empty : reported (empty_db, []).
Proof. split; [apply empty_ct|apply table_empty|apply table_empty]. Qed.

(** C6: No unexpected certificate goes unreported. Let every process that
    shares the database and the alert sink mark an alert delivered only when
    the sink accepted its post. Then the worker, over any number of rounds and
    whatever fails, acts the same way; and at every point each position of a
    feed up to its checkpoint is recorded, each recorded certificate that was
    not expected has an alert, and an alert is still pending unless the sink
    answered 202 to the post that names its source, position, hostname and
    fingerprint. The same holds of lag alerts. *)
Theorem unexpected_issuance_reported once waits w e n s :
  (forall n s, rtc moves (shared s) (shared (u_others e n s))) ->
  (forall n url token b, u_feed e n url token = Some b -> typed_batch b) ->
  rtc moves (empty_db, []) (shared s) ->
  let s' := (ct_main once waits w e (n, s)).2.2 in
  rtc moves (shared s) (shared s') /\
  (forall src p t q, checkpoints (ct_db s') !! src = Some (p, t) -> 1 <= q <= p ->
     exists row, ct_observations (d_ct (ct_db s')) !! (src, q) = Some row /\
       (ob_expected row = false ->
        exists a, a ∈ ct_alerts (d_ct (ct_db s')) /\ al_source a = src /\ al_position a = q /\
          al_hostname a = ob_hostname row /\ al_fingerprint a = ob_fingerprint row /\
          (al_delivered_at a = None \/ row_post a ∈ t_sink s'))) /\
  (forall h, h ∈ ct_health_alerts (d_ct (ct_db s')) -> he_delivered_at h = None \/ lag_row_post h ∈ t_sink s').
Proof.
  intros Hrely Hbatch Hs s'. destruct (moves_star _ _ Hs reported_empty) as [Hr _].
  pose proof (main_moves e Hrely Hbatch once waits w n s Hr) as Hmv. fold s' in Hmv.
  destruct (moves_star _ _ Hmv Hr) as [[Hf Ha Hl] _]. cbn in Hf, Ha, Hl. split; [done|]. split.
  - intros src p t q Hc Hq. assert (is_Some (ct_observations (d_ct (ct_db s')) !! (src, q))) as [row Hrow]
      by (apply (co_observed _ Hf); by exists p, t).
    exists row. split; [done|]. intros Hx. destruct row as [owner h f []]; [done|].
    pose proof Hrow as Hal. apply (co_alerts _ Hf) in Hal as (a & [= -> -> -> -> ->] & Hin)%list_elem_of_fmap.
    exists a. split_and!; try done. destruct Ha as [_ _ Hsent]. rewrite Forall_forall in Hsent. by apply Hsent.
  - intros h Hh. destruct Hl as [_ _ Hsent]. rewrite Forall_forall in Hsent. by apply Hsent.
Qed.
End guarantee.
