(* ===== verification/CtWorkerLiveness.v ===== *)
(** * A tick of the CT worker makes progress

    With a healthy store, feed and sink, one tick of the worker records the
    batch the feed offers and reports everything that was pending. *)

From Stdlib Require Import Ascii String Strings.Byte.
From stdpp Require Import base strings list gmap.
From S2P Require Import Prelude Protocol Db Witness Store StoreLifecycle StoreCt StoreHistory StoreCtFeed ControlApi CtWorker.
From S2P Require Import CtWorkerProperties.

(** ** Transactions that succeed *)
Definition total {A} (m : Tx A) (Q : A -> Db -> Prop) (d : Db) : Prop :=
  match m d with Ok (a, d') => Q a d' | Err _ => False end.

Lemma total_bind {A B} (m : Tx A) (f : A -> Tx B) Q d :
  total m (fun a => total (f a) Q) d -> total (m ≫= f) Q d.
Proof. unfold total, mbind, tx_bind. by destruct (m d) as [[a d']|]. Qed.
Lemma total_lift {A} (r : result StoreError A) a Q d : r = Ok a -> Q a d -> total (tx_lift r) Q d.
Proof. by intros ->. Qed.
Lemma total_reject b err (Q : unit -> Db -> Prop) d : b = false -> Q tt d -> total (tx_reject b err) Q d.
Proof. by intros ->. Qed.
Lemma total_advance (Q : unit -> Db -> Prop) d :
  d_revision d < i64_max -> Q tt (set_revision (Z.add 1) d) -> total advance_restore_fence Q d.
Proof. intros Hr. unfold total, advance_restore_fence. by rewrite (proj2 (Z.ltb_lt _ _) Hr). Qed.
Lemma total_run {A} (m : Tx A) Q d : total m Q d -> exists a d', m d = Ok (a, d') /\ Q a d'.
Proof. unfold total. destruct (m d) as [[a d']|]; [|done]. by exists a, d'. Qed.

(** The fence moved by at most [k]. *)
Definition within (k : Z) (d d' : Db) : Prop := d_revision d <= d_revision d' <= d_revision d + k.

Lemma owner_of_installed h d id : owner_of h d = Some id -> has_installation id d = true.
Proof.
  unfold owner_of, has_installation. intros ([id' row] & Hh & ->)%fmap_Some. apply bool_decide_true.
  apply head_Some_elem_of, elem_of_map_to_list, map_lookup_filter_Some in Hh as [Hrow _]. by exists row.
Qed.

Lemma total_audit id op event now (Q : unit -> Db -> Prop) d :
  has_installation id d = true -> d_revision d < i64_max ->
  (forall d', d_revision d' = d_revision d + 1 -> Q tt d') -> total (insert_audit id op event now) Q d.
Proof.
  intros Hh Hr HQ. unfold total, insert_audit. rewrite Hh. apply (total_bind (tx_modify _)). apply total_advance; [done|].
  apply HQ. cbn. lia.
Qed.

(** No alert is raised for a position that is not recorded. *)
Lemma fresh_alert c s q : ct_ok c -> ct_observations c !! (s, q) = None ->
  existsb (fun a => bool_decide (al_source a = s) && (al_position a =? q)) (ct_alerts c) = false.
Proof.
  intros Hok Hn. apply not_true_iff_false. intros (a & Ha & Hk)%existsb_exists. to_prop.
  assert (alert_of a ∈ alert_of <$> ct_alerts c) as Hin by (apply list_elem_of_fmap_2; by apply list_elem_of_In).
  unfold alert_of in Hin at 1. apply (co_alerts _ Hok) in Hin. congruence.
Qed.

Lemma record_succeeds now s q h f d :
  ct_ok (d_ct d) -> ct_observations (d_ct d) !! (s, q) = None -> d_revision d + 3 <= i64_max ->
  total (record_observation now s q h f) (fun _ d' => within 3 d d') d.
Proof.
  intros Hok Hn Hr. unfold record_observation.
  apply (total_bind (tx_gets _)). apply (total_bind (tx_gets _)). apply total_bind.
  unfold total at 1, insert_observation. rewrite bool_decide_false by (rewrite Hn; by intros [? ?]).
  apply total_bind. set (d1 := set_ct _ d).
  assert (Hw : forall d2, within 2 d d2 -> total (_ ← write_checkpoint s q now; mret (is_expected (owner_of h d) f d))
    (fun _ d' => within 3 d d') d2).
  { intros d2 [? ?]. apply total_bind. unfold write_checkpoint. apply (total_bind (tx_modify _)). apply total_advance; cbn; [lia|].
    unfold within. cbn. lia. }
  unfold tx_when. destruct (is_expected (owner_of h d) f d) eqn:Hx; cbn [negb].
  { apply Hw. unfold within. cbn. lia. }
  apply total_bind. unfold insert_alert. apply (total_bind (tx_gets _)). apply total_bind, total_reject; [exact (fresh_alert (d_ct d) s q Hok Hn)|].
  apply (total_bind (tx_modify _)). apply total_advance; [cbn; lia|]. destruct (owner_of h d) as [id|] eqn:Ho.
  - apply total_audit; [by apply owner_of_installed in Ho|cbn; lia|]. intros d' Hd'. apply Hw. cbn in Hd'. unfold within. lia.
  - apply Hw. unfold within. cbn. lia.
Qed.

Lemma observe_succeeds now s p t h f d :
  ct_ok (d_ct d) -> checkpoints d !! s = Some (p, t) -> p < i64_max -> validate_source s = Ok tt ->
  validate_hostname h = Ok tt -> validate_fingerprint f = Ok tt -> d_revision d + 3 <= i64_max ->
  total (observe_ct_tx now s (p + 1) h f) (fun _ d' => within 3 d d') d.
Proof.
  intros Hok Hc Hp Hs Hh Hf Hr. pose proof (co_checkpoint _ Hok _ _ _ Hc) as Hrange. unfold observe_ct_tx.
  apply total_bind. eapply total_lift; [by rewrite Hh|]. apply total_bind. eapply total_lift; [by rewrite Hf|].
  apply total_bind, total_reject. { rewrite Hs. cbn. apply orb_false_intro; [apply Z.eqb_neq|apply Z.ltb_ge]; lia. }
  apply (total_bind (tx_gets _)). apply total_bind. unfold insert_checkpoint at 1.
  apply (total_bind (tx_gets _)). unfold total at 1, tx_gets. rewrite Hc. unfold total at 1, mret.
  apply (total_bind (tx_gets _)). unfold total at 1, tx_gets. rewrite Hc.
  apply total_bind. eapply total_lift; [done|]. cbn [fst]. rewrite i64_as_u64_id by lia.
  rewrite (proj2 (Z.leb_gt (p + 1) p)) by lia. apply total_bind, total_reject; [by rewrite Z.eqb_refl|].
  rewrite u64_as_i64_id by lia. apply record_succeeds; [done| |done]. apply eq_None_not_Some. intros Hi.
  apply (co_observed _ Hok) in Hi as (p' & t' & Hc' & Hq). unfold checkpoints in Hc. rewrite Hc in Hc'. injection Hc' as <- <-. lia.
Qed.

(** Undelivered rows after row [n] was marked: those of before but [n]. *)
Definition cleared {R} (rid : R -> Z) (rdel : R -> option Z) (n : Z) (l l' : list R) : Prop :=
  forall a, a ∈ l' -> rdel a = None -> a ∈ l /\ rid a <> n.

Lemma mark_succeeds now n d : d_revision d < i64_max ->
  total (mark_ct_alert_delivered_tx now n) (fun _ d' => within 1 d d' /\ exists l,
    d_ct d' = with_alerts l (d_ct d) /\ cleared al_id al_delivered_at n (ct_alerts (d_ct d)) l) d.
Proof.
  intros Hr. unfold mark_ct_alert_delivered_tx. apply (total_bind (tx_gets _)). cbv zeta. unfold total at 1, tx_gets.
  destruct (existsb _ _) eqn:Hx.
  - apply (total_bind (tx_modify _)). apply total_advance; [done|]. split; [unfold within; cbn; lia|].
    eexists. split; [done|]. intros b (a & -> & Ha)%list_elem_of_fmap. destruct (al_id a =? n) eqn:Hn; cbn.
    + destruct (bool_decide_reflect (al_delivered_at a = None)); by cbn.
    + intros _. split; [done|]. by apply Z.eqb_neq.
  - split; [unfold within; lia|]. exists (ct_alerts (d_ct d)). split; [by destruct d as [? ? ? ? ? ? ? ? ? ? ? ? ? ? []]|].
    intros a Ha Hd. split; [done|]. intros Hn. apply not_true_iff_false in Hx. apply Hx, existsb_exists. exists a.
    split; [by apply list_elem_of_In|]. rewrite Hn, Z.eqb_refl. cbn. by apply bool_decide_true.
Qed.

Lemma lag_mark_succeeds now n d : d_revision d < i64_max ->
  total (mark_ct_lag_alert_delivered_tx now n) (fun _ d' => within 1 d d' /\ exists l,
    d_ct d' = with_health_alerts l (d_ct d) /\ cleared he_id he_delivered_at n (ct_health_alerts (d_ct d)) l) d.
Proof.
  intros Hr. unfold mark_ct_lag_alert_delivered_tx. apply (total_bind (tx_gets _)). cbv zeta. unfold total at 1, tx_gets.
  destruct (existsb _ _) eqn:Hx.
  - apply (total_bind (tx_modify _)). apply total_advance; [done|]. split; [unfold within; cbn; lia|].
    eexists. split; [done|]. intros b (a & -> & Ha)%list_elem_of_fmap. destruct (he_id a =? n) eqn:Hn; cbn.
    + destruct (bool_decide_reflect (he_delivered_at a = None)); by cbn.
    + intros _. split; [done|]. by apply Z.eqb_neq.
  - split; [unfold within; lia|]. exists (ct_health_alerts (d_ct d)).
    split; [by destruct d as [? ? ? ? ? ? ? ? ? ? ? ? ? ? []]|].
    intros a Ha Hd. split; [done|]. intros Hn. apply not_true_iff_false in Hx. apply Hx, existsb_exists. exists a.
    split; [by apply list_elem_of_In|]. rewrite Hn, Z.eqb_refl. cbn. by apply bool_decide_true.
Qed.

Lemma queue_succeeds now s d : validate_source s = Ok tt -> d_revision d < i64_max ->
  total (queue_ct_lag_alert_tx now s) (fun _ d' => within 1 d d' /\ exists l,
    d_ct d' = with_health_alerts l (d_ct d) /\ grows he_id he_delivered_at (ct_health_alerts (d_ct d)) l) d.
Proof.
  intros Hs Hr. unfold queue_ct_lag_alert_tx. apply total_bind. eapply total_lift; [done|].
  apply (total_bind (tx_gets _)). apply (total_bind (tx_gets _)). unfold total at 1, tx_gets. cbn beta iota.
  assert (Hno : within 1 d d /\ exists l, d_ct d = with_health_alerts l (d_ct d) /\
    grows he_id he_delivered_at (ct_health_alerts (d_ct d)) l).
  { split; [unfold within; lia|]. exists (ct_health_alerts (d_ct d)).
    split; [by destruct d as [? ? ? ? ? ? ? ? ? ? ? ? ? ? []]|by left]. }
  unfold total at 1. destruct (checkpoints d !! s) as [[p t]|]; [|exact Hno]. destruct (_ && _); [|exact Hno].
  apply (total_bind (tx_modify _)). apply total_advance; [done|]. split; [unfold within; cbn; lia|].
  eexists. split; [done|]. right. by eexists.
Qed.

Lemma healthy_succeeds now s p t d :
  validate_source s = Ok tt -> checkpoints d !! s = Some (p, t) -> 0 <= p <= i64_max -> d_revision d < i64_max ->
  total (mark_ct_feed_healthy_tx now s p) (fun _ d' => within 1 d d' /\
    d_ct d' = with_checkpoints (<[s := (p, now)]> (checkpoints d)) (d_ct d)) d.
Proof.
  intros Hs Hc Hp Hr. unfold mark_ct_feed_healthy_tx. apply total_bind. eapply total_lift; [done|].
  apply (total_bind (tx_gets _)). unfold total at 1, tx_gets. rewrite Hc, u64_as_i64_id, Z.eqb_refl by lia.
  unfold write_checkpoint. apply (total_bind (tx_modify _)). apply total_advance; [done|]. split; [unfold within; cbn; lia|done].
Qed.

(** ** The database along a tick *)
Abbreviation count l := (Z.of_nat (List.length l)).

Section source.
Context (src : string) (Hsrc : validate_source src = Ok tt).

Definition unsent (d : Db) : list CtAlertRow := List.filter (undelivered src) (ct_alerts (d_ct d)).
Definition unsent_lags (d : Db) : list CtHealthRow := List.filter (lag_undelivered src) (ct_health_alerts (d_ct d)).

(** The feed is at [p]; [k] more moves of the fence fit; at most [a] alerts
    and [l] lag alerts are pending. *)
Record loaded (p k a l : Z) (d : Db) : Prop := {
  lo_ct : ct_ok (d_ct d);
  lo_at : exists t, checkpoints d !! src = Some (p, t);
  lo_room : d_revision d + k <= i64_max;
  lo_alerts : Z.of_nat (List.length (unsent d)) <= a;
  lo_lags : Z.of_nat (List.length (unsent_lags d)) <= l
}.

Definition recorded_in (entry : CtEntry) (d : Db) : Prop :=
  exists row, ct_observations (d_ct d) !! (src, en_position entry) = Some row /\
    ob_hostname row = en_hostname entry /\ ob_fingerprint row = en_key_fingerprint entry.

Definition valid_entry (entry : CtEntry) : Prop :=
  validate_hostname (en_hostname entry) = Ok tt /\ validate_fingerprint (en_key_fingerprint entry) = Ok tt.

Lemma observe_loaded now p k a l entry d :
  loaded p (k + 3) a l d -> 0 <= k -> en_position entry = p + 1 -> p < i64_max -> valid_entry entry ->
  total (observe_ct_tx now src (en_position entry) (en_hostname entry) (en_key_fingerprint entry))
    (fun _ d' => d_revision d <= d_revision d' /\ loaded (p + 1) k (a + 1) l d' /\
       ct_observations (d_ct d) ⊆ ct_observations (d_ct d') /\ recorded_in entry d') d.
Proof.
  intros [Hok [t Hc] Hr Ha Hl] Hk Hpos Hp [Hh Hf]. rewrite Hpos. pose proof (co_checkpoint _ Hok _ _ _ Hc) as Hrange.
  pose proof (observe_succeeds now src p t _ _ d Hok Hc Hp Hsrc Hh Hf ltac:(lia)) as Hrun.
  apply total_run in Hrun as (b & d' & Hrun & Hw). unfold total. rewrite Hrun.
  apply observe_ct_tx_ok in Hrun as [(row & _ & Hrow & _)|(p' & row & Hpp & Hfeed & _ & Hrh & Hrf & _ & Hnone & Hct)]; [| |lia|done].
  { assert (is_Some (ct_observations (d_ct d) !! (src, p + 1))) as Hi by by eexists.
    apply (co_observed _ Hok) in Hi as (p' & t' & Hc' & Hq). unfold checkpoints in Hc. rewrite Hc in Hc'. injection Hc' as <- <-. lia. }
  assert (p' = p) as -> by lia. unfold within in Hw. split; [lia|]. split; [|split].
  - split.
    + rewrite Hct. apply ct_ok_observed; done.
    + exists now. unfold checkpoints. rewrite Hct. cbn. by rewrite lookup_insert_eq.
    + lia.
    + unfold unsent in *. rewrite Hct. cbn. unfold observed. destruct (ob_expected row); cbn; [lia|].
      rewrite List.filter_app, List.length_app. cbn. destruct (undelivered src _); cbn; lia.
    + unfold unsent_lags in *. rewrite Hct. cbn. unfold observed. by destruct (ob_expected row); cbn; lia.
  - rewrite Hct. cbn. by apply insert_subseteq.
  - exists row. rewrite Hct. cbn. rewrite Hpos, lookup_insert_eq. done.
Qed.

(** ** Runs that succeed *)
Context `{S3}.

(** Nothing else runs, store calls succeed and are acknowledged, the agent and
    the tokens are good and the sink accepts. *)
Record calm (e : CtEnv) (acks : World -> Prop) : Prop := {
  cm_others n s : t_world (u_others e n s) = t_world s;
  cm_sink n s : t_sink (u_others e n s) = t_sink s;
  cm_fault n : u_fault e n = None;
  cm_ack n w : acks w -> exists w', acknowledge (u_ack e n) w = (Ok tt, w') /\ acks w';
  cm_grow w d : acks w -> d_revision (w_db w) <= d_revision d -> acks (with_db d w);
  cm_agent ca : u_agent e ca = true;
  cm_token n path : is_Some (read_token (u_token e n path));
  cm_post n url token p : u_post e n url token p = Some 202
}.

Context (e : CtEnv) (acks : World -> Prop) (Hcalm : calm e acks).

Definition at_db (I : Db -> Prop) (s : Ct) : Prop := acks (t_world s) /\ I (ct_db s).
Definition ends {A} (I : Db -> Prop) (m : CtM A) (J : A -> Db -> Prop) : Prop :=
  forall n s, at_db I s -> exists a n' s', m e (n, s) = (Ok a, (n', s')) /\ at_db (J a) s'.

Lemma ends_ret {A} (I : Db -> Prop) (a : A) (J : A -> Db -> Prop) : (forall d, I d -> J a d) -> ends I (mret a) J.
Proof. intros HJ n s [Hw HI]. exists a, n, s. split; [done|]. split; [done|]. by apply HJ. Qed.

Lemma ends_bind {A B} I (m : CtM A) J (f : A -> CtM B) K : ends I m J -> (forall a, ends (J a) (f a) K) -> ends I (m ≫= f) K.
Proof.
  intros Hm Hf n s Hs. destruct (Hm n s Hs) as (a & n1 & s1 & Hrun & Hs1). destruct (Hf a n1 s1 Hs1) as (b & n2 & s2 & Hrun2 & Hs2).
  exists b, n2, s2. split; [|done]. unfold mbind, ct_bind. by rewrite Hrun.
Qed.

Lemma ends_weaken {A} (I I' : Db -> Prop) (m : CtM A) J : ends I' m J -> (forall d, I d -> I' d) -> ends I m J.
Proof. intros Hm HI n s [Hw Hs]. apply Hm. split; [done|]. by apply HI. Qed.

Lemma ends_pure {A} (X : Prop) I (m : CtM A) J : (X -> ends I m J) -> ends (fun d => X /\ I d) m J.
Proof. intros Hm n s (Hw & HX & HI). by apply Hm. Qed.

Lemma others_db n s : ct_db (u_others e n s) = ct_db s.
Proof. unfold ct_db. by rewrite (cm_others _ _ Hcalm). Qed.

Lemma others_at I n s : at_db I s -> at_db I (u_others e n s).
Proof. unfold at_db. by rewrite others_db, (cm_others _ _ Hcalm). Qed.

Lemma ends_query {A} (I : Db -> Prop) (f : Db -> result StoreError A) (J : A -> Db -> Prop) :
  (forall d, I d -> exists a, f d = Ok a /\ J a d) -> ends I (ct_query f) J.
Proof.
  intros Hf n s Hs. pose proof (others_at I n s Hs) as [Hw HI]. destruct (Hf _ HI) as (a & Ha & HJ).
  exists a, (S n), (u_others e n s). split; [|by split]. unfold ct_query. cbn [fst snd]. by rewrite (cm_fault _ _ Hcalm), Ha.
Qed.

Lemma ends_commit {A} (I : Db -> Prop) (m : Z -> Tx A) (J : A -> Db -> Prop) :
  (forall now d, I d -> total (m now) (fun a d' => d_revision d <= d_revision d' /\ J a d') d) -> ends I (ct_commit m) J.
Proof.
  intros Hm n s Hs. pose proof (others_at I n s Hs) as [Hw HI]. set (s1 := u_others e n s) in *.
  destruct (total_run _ _ _ (Hm (t_now s1) _ HI)) as (a & d' & Hrun & Hrev & HJ).
  destruct (cm_ack _ _ Hcalm n (with_db d' (t_world s1))) as (w' & Hack & Hw'); [by apply (cm_grow _ _ Hcalm)|].
  exists a, (S n), (in_world w' s1). split.
  - unfold ct_commit. cbn [fst snd]. fold s1. rewrite (cm_fault _ _ Hcalm). unfold run_tx. fold (ct_db s1). rewrite Hrun, Hack. done.
  - split; [done|]. unfold ct_db. cbn. apply acknowledge_db in Hack. cbn in Hack. by rewrite Hack.
Qed.

Lemma ends_post w p I : ends I (post_alert w p) (fun _ => I).
Proof.
  intros n s Hs. pose proof (others_at I n s Hs) as Hs1. exists tt, (S n), (accepted p (u_others e n s)). split; [|done].
  unfold post_alert. cbn [fst snd]. rewrite (cm_agent _ _ Hcalm).
  destruct (cm_token _ _ Hcalm n (ep_token_path (w_alert w))) as [token ->]. by rewrite (cm_post _ _ Hcalm).
Qed.

Lemma ends_post_all {A} w (post : A -> Post) (mark : A -> Z -> Tx unit) (K : list A -> Db -> Prop) alerts :
  (forall alert rest now d, K (alert :: rest) d ->
     total (mark alert now) (fun _ d' => d_revision d <= d_revision d' /\ K rest d') d) ->
  ends (K alerts) (post_all w post mark alerts) (fun _ => K []).
Proof.
  intros Hmark. induction alerts as [|alert alerts IH]; cbn [post_all]; [by apply ends_ret|].
  eapply ends_bind; [apply ends_post|]. intros u. eapply (ends_bind _ _ (fun _ => K alerts)); [|intros _; exact IH].
  apply ends_commit. intros now d HK. by apply Hmark.
Qed.

(** The entries continue the feed at [p]. *)
Fixpoint follows (p : Z) (entries : list CtEntry) : Prop :=
  match entries with
  | [] => True
  | entry :: entries => en_position entry = p + 1 /\ follows (p + 1) entries
  end.

Lemma ends_observe w entries p k a l (seen : list CtEntry) :
  w_source w = src -> follows p entries -> Forall valid_entry entries -> p + count entries <= i64_max -> 0 <= k ->
  ends (fun d => loaded p (k + 3 * count entries) a l d /\ Forall (fun x => recorded_in x d) seen)
    (observe_entries w entries p)
    (fun r d => r = (p + count entries, true) /\ loaded (p + count entries) k (a + count entries) l d /\
       Forall (fun x => recorded_in x d) (seen ++ entries)).
Proof.
  intros Hw. revert p a seen. induction entries as [|entry entries IH]; intros p a seen Hf Hv Hp Hk; cbn [observe_entries].
  { apply ends_ret. intros d. cbn [List.length]. rewrite app_nil_r, !Z.add_0_r. by intros [? ?]. }
  destruct Hf as [Hpos Hf]. apply Forall_cons in Hv as [Hv Hvs]. rewrite Hpos, Z.eqb_refl. cbn [negb]. cbn [List.length] in *.
  eapply (ends_bind _ _ (fun _ d => loaded (p + 1) (k + 3 * count entries) (a + 1) l d /\ Forall (fun x => recorded_in x d) (seen ++ [entry]))).
  - apply ends_commit. intros now d [Hl Hs]. rewrite Hw, <- Hpos. pose proof (observe_loaded now p (k + 3 * count entries) a l entry d) as Ho.
    apply total_run in Ho as (b & d' & Hrun & Hrev & Hl' & Hsub & Hrec); [| |lia|done|lia|done].
    + unfold total. rewrite Hrun. split; [done|]. split; [by rewrite Hpos|]. apply Forall_app. split; [|by apply Forall_singleton].
      eapply Forall_impl; [exact Hs|]. intros x (row & Hrow & ?). exists row. split; [|done]. by eapply lookup_weaken.
    + destruct Hl. split; try done. lia.
  - intros b n s Hs.
    destruct (IH (p + 1) (a + 1) (seen ++ [entry]) Hf Hvs ltac:(lia) Hk n s Hs) as (r & n' & s' & Hrun & Hack & Hr & Hl & Hseen).
    exists r, n', s'. split; [done|]. split; [done|]. rewrite <- app_assoc in Hseen.
    replace (p + Z.of_nat (S (List.length entries))) with (p + 1 + count entries) by lia.
    replace (a + Z.of_nat (S (List.length entries))) with (a + 1 + count entries) by lia. done.
Qed.

(** While alerts are posted: the feed stays, and what is pending is listed. *)
Definition settled (p l : Z) (entries : list CtEntry) (d : Db) : Prop :=
  (exists t, checkpoints d !! src = Some (p, t)) /\ Forall (fun x => recorded_in x d) entries /\ count (unsent_lags d) <= l.
Definition sending (p l : Z) (entries : list CtEntry) (k : Z) (alerts : list CtAlert) (d : Db) : Prop :=
  settled p l entries d /\ d_revision d + k + count alerts <= i64_max /\
  forall a, a ∈ ct_alerts (d_ct d) -> al_source a = src -> al_delivered_at a = None -> exists x, x ∈ alerts /\ ca_id x = al_id a.
Definition sending_lags (p : Z) (entries : list CtEntry) (lags : list CtLagAlert) (d : Db) : Prop :=
  ((exists t, checkpoints d !! src = Some (p, t)) /\ Forall (fun x => recorded_in x d) entries) /\ unsent d = [] /\
  d_revision d + count lags <= i64_max /\
  forall h, h ∈ ct_health_alerts (d_ct d) -> he_source h = src -> he_delivered_at h = None -> exists x, x ∈ lags /\ cl_id x = he_id h.

Lemma sending_mark p l entries k alert rest now d : 0 <= k ->
  sending p l entries k (alert :: rest) d ->
  total (mark_ct_alert_delivered_tx now (ca_id alert)) (fun _ d' => d_revision d <= d_revision d' /\ sending p l entries k rest d') d.
Proof.
  intros Hk (Hset & Hr & Hall). cbn [List.length] in Hr.
  destruct (total_run _ _ _ (mark_succeeds now (ca_id alert) d ltac:(lia))) as (u & d' & Hrun & Hw & rows & Hct & Hcl).
  unfold total. rewrite Hrun. unfold within in Hw. split; [lia|]. split.
  - destruct Hset as (Hc & Hrec & Hl). unfold settled, checkpoints, unsent_lags, recorded_in in *. by rewrite Hct.
  - split; [lia|]. rewrite Hct. cbn. intros a Ha Hs Hd. destruct (Hcl a Ha Hd) as [Hin Hne].
    destruct (Hall a Hin Hs Hd) as (x & [->|Hx]%elem_of_cons & Hid); [by rewrite Hid in Hne|]. by exists x.
Qed.

Lemma sending_lag_mark p entries alert rest now d :
  sending_lags p entries (alert :: rest) d ->
  total (mark_ct_lag_alert_delivered_tx now (cl_id alert)) (fun _ d' => d_revision d <= d_revision d' /\ sending_lags p entries rest d') d.
Proof.
  intros (Hset & Hu & Hr & Hall). cbn [List.length] in Hr.
  destruct (total_run _ _ _ (lag_mark_succeeds now (cl_id alert) d ltac:(lia))) as (u & d' & Hrun & Hw & rows & Hct & Hcl).
  unfold total. rewrite Hrun. unfold within in Hw. split; [lia|]. split; [|split].
  - unfold checkpoints, recorded_in in *. by rewrite Hct.
  - unfold unsent in *. by rewrite Hct.
  - split; [lia|]. rewrite Hct. cbn. intros a Ha Hs Hd. destruct (Hcl a Ha Hd) as [Hin Hne].
    destruct (Hall a Hin Hs Hd) as (x & [->|Hx]%elem_of_cons & Hid); [by rewrite Hid in Hne|]. by exists x.
Qed.

Lemma unsent_elem d a : a ∈ unsent d <-> a ∈ ct_alerts (d_ct d) /\ al_source a = src /\ al_delivered_at a = None.
Proof.
  unfold unsent. rewrite !list_elem_of_In, filter_In. unfold undelivered. rewrite andb_true_iff, !bool_decide_eq_true. done.
Qed.
Lemma unsent_lags_elem d h : h ∈ unsent_lags d <-> h ∈ ct_health_alerts (d_ct d) /\ he_source h = src /\ he_delivered_at h = None.
Proof.
  unfold unsent_lags. rewrite !list_elem_of_In, filter_In. unfold lag_undelivered. rewrite andb_true_iff, !bool_decide_eq_true. done.
Qed.

Lemma pending_all d : count (unsent d) <= 100 -> exists alerts, pending_ct_alerts src 100 d = Ok alerts /\
  count alerts <= 100 /\ forall a, a ∈ unsent d -> exists x, x ∈ alerts /\ ca_id x = al_id a.
Proof.
  intros Hc. unfold pending_ct_alerts. rewrite Hsrc. cbn [mbind result_bind]. cbn. fold (unsent d).
  rewrite firstn_all2 by lia. eexists. split; [done|]. split; [by rewrite length_fmap|].
  intros a Ha. eexists. split; [by apply list_elem_of_fmap_2, Ha|done].
Qed.
Lemma pending_lags_all d : count (unsent_lags d) <= 100 -> exists lags, pending_ct_lag_alerts src 100 d = Ok lags /\
  count lags <= 100 /\ forall h, h ∈ unsent_lags d -> exists x, x ∈ lags /\ cl_id x = he_id h.
Proof.
  intros Hc. unfold pending_ct_lag_alerts. rewrite Hsrc. cbn [mbind result_bind]. cbn. fold (unsent_lags d).
  rewrite firstn_all2 by lia. eexists. split; [done|]. split; [by rewrite length_fmap|].
  intros a Ha. eexists. split; [by apply list_elem_of_fmap_2, Ha|done].
Qed.

Lemma ends_deliver w p entries : w_source w = src ->
  ends (fun d => settled p 100 entries d /\ count (unsent d) <= 100 /\ d_revision d + 200 <= i64_max)
    (deliver_alerts w) (fun _ => sending_lags p entries []).
Proof.
  intros Hw. unfold deliver_alerts. rewrite Hw.
  eapply (ends_bind _ _ (fun alerts => sending p 100 entries 100 alerts)).
  { apply ends_query. intros d (Hset & Hc & Hr). destruct (pending_all d Hc) as (alerts & Hp & Hn & Hall).
    exists alerts. split; [done|]. split; [done|]. split; [lia|]. intros a Ha Hs Hd. apply Hall. by apply unsent_elem. }
  intros alerts. eapply (ends_bind _ _ (fun _ => sending p 100 entries 100 [])).
  { apply (ends_post_all w _ _ (sending p 100 entries 100)). intros. by apply sending_mark. }
  intros _. eapply (ends_bind _ _ (sending_lags p entries)).
  - apply ends_query. intros d ((Hc & Hrec & Hl) & Hr & Hall). destruct (pending_lags_all d Hl) as (lags & Hp & Hn & Hlags).
    exists lags. split; [done|]. split; [done|]. split; [|split].
    + apply elem_of_nil_inv. intros a (Ha & Hs & Hd)%unsent_elem. by destruct (Hall a Ha Hs Hd) as (x & ?%elem_of_nil & _).
    + cbn in Hr. lia.
    + intros h Hh Hs Hd. apply Hlags. by apply unsent_lags_elem.
  - intros lags. apply (ends_post_all w _ _ (sending_lags p entries)). intros. by apply sending_lag_mark.
Qed.

Lemma loaded_healthy now p k a l entries d :
  loaded p (k + 1) a l d -> 0 <= k -> Forall (fun x => recorded_in x d) entries ->
  total (mark_ct_feed_healthy_tx now src p)
    (fun _ d' => d_revision d <= d_revision d' /\ loaded p k a l d' /\ Forall (fun x => recorded_in x d') entries) d.
Proof.
  intros [Hok [t Hc] Hr Ha Hl] Hk Hrec. pose proof (co_checkpoint _ Hok _ _ _ Hc) as Hp.
  destruct (total_run _ _ _ (healthy_succeeds now src p t d Hsrc Hc Hp ltac:(lia))) as (u & d' & Hrun & Hw & Hct).
  unfold total. rewrite Hrun. unfold within in Hw. split; [lia|]. split.
  - split; unfold unsent, unsent_lags, checkpoints in *; rewrite ?Hct; try done; [|exists now; cbn; by rewrite lookup_insert_eq|lia].
    apply ct_ok_touch; [done|]. right. by exists t.
  - unfold recorded_in in *. by rewrite Hct.
Qed.

Lemma loaded_queue now p k a l entries d :
  loaded p (k + 1) a l d -> 0 <= k -> Forall (fun x => recorded_in x d) entries ->
  total (queue_ct_lag_alert_tx now src)
    (fun _ d' => d_revision d <= d_revision d' /\ settled p (l + 1) entries d' /\ count (unsent d') <= a /\ d_revision d' + k <= i64_max) d.
Proof.
  intros [Hok [t Hc] Hr Ha Hl] Hk Hrec.
  destruct (total_run _ _ _ (queue_succeeds now src d Hsrc ltac:(lia))) as (u & d' & Hrun & Hw & rows & Hct & Hg).
  unfold total. rewrite Hrun. unfold within in Hw. split; [lia|]. split; [|split; [|lia]].
  - unfold settled, unsent_lags, recorded_in, checkpoints in *. rewrite Hct. split; [by exists t|]. split; [done|]. cbn.
    destruct Hg as [->|(h & -> & _)]; [lia|]. rewrite List.filter_app, List.length_app. cbn. destruct (lag_undelivered src h); cbn; lia.
  - unfold unsent in *. by rewrite Hct.
Qed.

Lemma ends_batch w entries p a l : w_source w = src -> follows p entries -> Forall valid_entry entries ->
  p + count entries <= i64_max -> count entries <= 100 ->
  ends (loaded p 502 a l)
    ('(next, contiguous) ← observe_entries w entries p;
     if contiguous : bool then ct_commit (fun now => mark_ct_feed_healthy_tx now (w_source w) next) else mret tt)
    (fun _ d => loaded (p + count entries) 201 (a + count entries) l d /\ Forall (fun x => recorded_in x d) entries).
Proof.
  intros Hw Hf Hv Hp Hn. eapply ends_bind.
  - eapply ends_weaken; [apply (ends_observe w entries p 202 a l []); try done; lia|].
    intros d Hl. split; [|done]. destruct Hl. split; try done. lia.
  - intros [next contiguous]. apply ends_pure. intros [= -> ->]. apply ends_commit. intros now d [Hl Hrec]. rewrite Hw.
    by apply loaded_healthy.
Qed.

Lemma ends_tick w batch p a l : w_source w = src -> (forall n url token, u_feed e n url token = Some batch) ->
  ba_source batch = src -> follows p (ba_entries batch) -> Forall valid_entry (ba_entries batch) ->
  p + count (ba_entries batch) <= i64_max -> count (ba_entries batch) <= 100 -> a + count (ba_entries batch) <= 100 -> l <= 99 ->
  ends (loaded p 502 a l) (tick w) (fun _ => sending_lags (p + count (ba_entries batch)) (ba_entries batch) []).
Proof.
  intros Hw Hfeed Hb Hf Hv Hp Hn Ha Hl. unfold tick.
  eapply (ends_bind _ _ (fun found d => found = Some p /\ loaded p 502 a l d)).
  { apply ends_query. intros d Hd. destruct (lo_at _ _ _ _ _ Hd) as [t Ht]. pose proof (co_checkpoint _ (lo_ct _ _ _ _ _ Hd) _ _ _ Ht).
    exists (Some p). split; [|done]. unfold ct_checkpoint. rewrite Hw, Hsrc. cbn [mbind result_bind]. rewrite Ht. cbn.
    by rewrite i64_as_u64_id by lia. }
  intros found. apply ends_pure. intros ->. eapply (ends_bind _ _ (fun q d => q = p /\ loaded p 502 a l d)).
  { intros n s [Hack Hd]. exists p, n, s. split; [done|]. by split. }
  intros q. apply ends_pure. intros ->. eapply (ends_bind _ _ (fun b d => b = Some batch /\ loaded p 502 a l d)).
  { intros n s Hs. exists (Some batch), (S n), (u_others e n s). split; [|apply (others_at (fun d => _ /\ loaded p 502 a l d)); by destruct Hs].
    unfold fetch. cbn [fst snd]. rewrite (cm_agent _ _ Hcalm).
    destruct (cm_token _ _ Hcalm n (ep_token_path (w_feed w))) as [token ->]. cbn. by rewrite Hfeed. }
  intros b. apply ends_pure. intros ->. rewrite bool_decide_true by congruence. rewrite (proj2 (Z.leb_le _ _) Hn). cbn [andb].
  eapply (ends_bind _ _ (fun _ d => loaded (p + count (ba_entries batch)) 201 (a + count (ba_entries batch)) l d /\
    Forall (fun x => recorded_in x d) (ba_entries batch))); [by apply ends_batch|]. intros _.
  eapply (ends_bind _ _ (fun _ d => settled (p + count (ba_entries batch)) 100 (ba_entries batch) d /\
    count (unsent d) <= 100 /\ d_revision d + 200 <= i64_max)); [|intros _; by apply ends_deliver].
  apply ends_commit. intros now d [Hd Hrec]. rewrite Hw.
  destruct (total_run _ _ _ (loaded_queue now _ 200 _ _ _ _ Hd ltac:(lia) Hrec)) as (u & d' & Hrun & Hrev & (Hc & Hr & Hlags) & Hu & Hroom).
  unfold total. rewrite Hrun. split; [done|]. split; [|lia]. split; [done|]. split; [done|]. lia.
Qed.
End source.

Lemma follows_typed p entries : 0 <= p -> follows p entries -> p + count entries <= i64_max ->
  Forall (fun entry => is_u64 (en_position entry)) entries.
Proof.
  revert p. induction entries as [|entry entries IH]; intros p Hp Hf Hc; [constructor|]. destruct Hf as [Hpos Hf].
  cbn [List.length] in Hc. constructor; [rewrite Hpos; unfold is_u64, u64_max, i64_max in *; lia|]. apply (IH (p + 1)); [lia|done|lia].
Qed.

Section liveness.
Context {St3 : S3} {Cr : Crypto} {B32 : Base32} (cfg : StoreConfig).

Lemma calm_rely e acks : calm e acks -> forall n s, rtc (moves cfg) (shared s) (shared (u_others e n s)).
Proof. intros Hc n s. unfold shared, ct_db. rewrite (cm_others _ _ Hc), (cm_sink _ _ Hc). constructor. Qed.

(** C35: A tick makes progress. When nothing else runs, store calls succeed and
    are acknowledged, the token files are readable and the sink accepts, and
    the feed answers with at most 100 valid entries that continue the
    checkpoint, then the tick succeeds: the checkpoint is at the last entry,
    every entry is recorded, and the sink has accepted a post for every alert
    and every lag alert of the source. This needs that the alerts pending and
    the entries together are at most a page of 100, that at most 99 lag alerts
    are pending, and that positions and the revision counter (with 502 to
    spare) stay within 64 bits. *)
Theorem tick_reports_feed e acks w batch p t n s :
  let entries := ba_entries batch in
  calm e acks -> acks (t_world s) -> rtc (moves cfg) (empty_db, []) (shared s) ->
  validate_source (w_source w) = Ok tt -> checkpoints (ct_db s) !! w_source w = Some (p, t) ->
  (forall n url token, u_feed e n url token = Some batch) -> ba_source batch = w_source w ->
  follows p entries -> Forall valid_entry entries -> count entries <= 100 -> p + count entries <= i64_max ->
  count (unsent (w_source w) (ct_db s)) + count entries <= 100 -> count (unsent_lags (w_source w) (ct_db s)) <= 99 ->
  d_revision (ct_db s) + 502 <= i64_max ->
  exists n' s', tick w e (n, s) = (Ok tt, (n', s')) /\
    (exists t', checkpoints (ct_db s') !! w_source w = Some (p + count entries, t')) /\
    Forall (fun x => recorded_in (w_source w) x (ct_db s')) entries /\
    (forall a, a ∈ ct_alerts (d_ct (ct_db s')) -> al_source a = w_source w -> row_post a ∈ t_sink s') /\
    (forall h, h ∈ ct_health_alerts (d_ct (ct_db s')) -> he_source h = w_source w -> lag_row_post h ∈ t_sink s').
Proof.
  intros entries Hcalm Hacks Hs Hsrc Hc Hfeed Hb Hf Hv Hn Hp Ha Hl Hr.
  destruct (moves_star cfg _ _ Hs reported_empty) as [Hrep _].
  pose proof (co_checkpoint _ (re_feed _ Hrep) _ _ _ Hc) as Hrange.
  destruct (ends_tick _ Hsrc e acks Hcalm w batch p (count (unsent (w_source w) (ct_db s))) 99) with (n := n) (s := s)
    as ([] & n' & s' & Hrun & _ & (Hat & Hrec) & Hu & _ & Hul); try done.
  { split; [done|]. split; [apply Hrep|by exists t|done|lia|done]. }
  exists n', s'. split; [done|]. split; [done|]. split; [done|].
  destruct (g_tick cfg e (calm_rely _ _ Hcalm)) with (w := w) (n := n) (s := s) (r := Ok (E := CtError) tt) (n' := n') (s' := s')
    as [Hmv _]; [|done..|].
  { intros ? ? ? b Hbb. rewrite Hfeed in Hbb. injection Hbb as <-. unfold typed_batch. by apply (follows_typed p); [lia|..]. }
  destruct (moves_star cfg _ _ Hmv Hrep) as [[_ [_ _ Hsent] [_ _ Hlsent]] _]. cbn in Hsent, Hlsent.
  rewrite Forall_forall in Hsent. rewrite Forall_forall in Hlsent. split.
  - intros a Hin Has. destruct (Hsent a Hin) as [Hd|]; [|done]. assert (a ∈ unsent (w_source w) (ct_db s')) as Hx by by apply unsent_elem.
    rewrite Hu in Hx. by apply elem_of_nil in Hx.
  - intros h Hin Hhs. destruct (Hlsent h Hin) as [Hd|]; [|done]. by destruct (Hul h Hin Hhs Hd) as (x & ?%elem_of_nil & _).
Qed.
End liveness.
