(* ===== verification/WorkerWitnesses.v ===== *)
(** * Runs of the DNS worker and of the CT worker

    Turns of a DNS worker over the in-memory provider, and ticks of the CT
    worker over a feed with an unexpected certificate. *)

From Stdlib Require Import Ascii String Strings.Byte.
From stdpp Require Import base strings list gmap.
From S2P Require Import Prelude Protocol Db Witness Store StoreCredentials StoreChallenges StoreLifecycle StoreOutbox StoreHistory StoreInvariant.
From S2P Require Import StoreSamples Dns Observer DnsWorker DnsWorkerProperties StoreCt ControlApi CtWorker CtWorkerProperties CtWorkerLiveness.

(** ** The DNS worker *)
Definition worker_address : IpAddr := V4 3221225985.
Definition worker_db : Db := db_after cfg (at_second 0) (take 2 setup) empty_db.

(** The resolvers answer with the address and the CAA policy. *)
Definition worker_net : Net := fun _ _ _ kind =>
  match kind with
  | TypeA => Answers [RA 3221225985]
  | TypeCAA =>
      Answers [RCAA "issue" (str_bytes ("letsencrypt.org; validationmethods=dns-01; accounturi=" +:+ account));
               RCAA "issuewild" (str_bytes ";")]
  | _ => NoRecords
  end.

#[local] Existing Instance ConcreteS3.s3.

Definition no_ack : AckEnv := {| ae_lock := Ok tt; ae_rivals := fun _ s => s; ae_write := NoFault |}.

Definition worker_env : WkEnv (Zone := MemoryState) :=
  {| v_others := fun _ s => s; v_fault := fun _ => None; v_ack := fun _ => no_ack; v_net := worker_net;
     v_built := fun _ => true; v_locked := fun _ _ => false |}.
Definition worker_start : Wk (Zone := MemoryState) :=
  {| k_now := at_second 7; k_world := {| w_db := worker_db; w_witness := None |};
     k_provider := {| names := ∅; challenges := ∅ |}; k_held := None; k_log := [] |}.
Local Abbreviation worker_run n := (run n Serving "gw-1" [worker_address] worker_env (0%nat, worker_start)).
Local Abbreviation worker_turn := (turn Serving "gw-1" [worker_address] worker_env (0%nat, worker_start)).

Lemma worker_others n (s : Wk (Zone := MemoryState)) : quiet cfg s (v_others worker_env n s).
Proof. split; cbn; [constructor|reflexivity|intros; apply lock_kept_preorder|reflexivity]. Qed.

Lemma worker_changes_own_names_only_witness :
  List.length (k_log (worker_run 3).2) = 2%nat /\
  calls_allowed Serving "gw-1" [worker_address] worker_start (worker_run 3).2.
Proof.
  split; [vm_compute; reflexivity|].
  exact (worker_changes_own_names_only cfg Serving "gw-1" [worker_address] worker_env worker_others 3 0 worker_start).
Defined.

Lemma run_split {A B C} (m : A * (B * C)) a : m.1 = a -> m = (a, (m.2.1, m.2.2)).
Proof. by destruct m as [? []]; intros <-. Qed.


(** ** The CT worker *)
#[local] Existing Instance ConcreteS3.s3.

Definition ct_worker : Worker :=
  {| w_source := "log"; w_feed := {| ep_url := "https://feed.example"; ep_ca_pem := []; ep_token_path := "feed-token" |};
     w_alert := {| ep_url := "https://alerts.example/v1"; ep_ca_pem := []; ep_token_path := "alert-token" |} |}.
Definition ct_batch : CtBatch :=
  {| ba_source := "log";
     ba_entries := [{| en_position := 1; en_hostname := "abcdefghijklmnopqrstuvwxyz.relay.bloom.directory";
                       en_key_fingerprint := "aaaaaaaaaaaaaaaaaaaaaaaaaaaaaaaaaaaaaaaaaaaaaaaaaaaaaaaaaaaaaaaa" |}] |}.
Definition token_file : SecretFile := {| sf_is_file := true; sf_len := 20; sf_mode := 384; sf_content := Some "fixturetokenfixture " |}.
Definition ct_env : CtEnv :=
  {| u_others := fun _ s => s; u_fault := fun _ => None;
     u_ack := fun _ => {| ae_lock := Ok tt; ae_rivals := fun _ s => s; ae_write := NoFault |};
     u_token := fun _ _ => Some token_file; u_agent := fun _ => true; u_feed := fun _ _ _ => Some ct_batch;
     u_post := fun _ _ _ _ => Some 202 |}.

Definition feed_db : Db := db_after cfg (at_second 0) [(at_second 0, EnsureCtSource "log")] empty_db.
Definition ct_start (d : Db) : Ct := {| t_now := at_second 1; t_world := {| w_db := d; w_witness := None |}; t_sink := [] |}.
Definition unwitnessed (w : World) : Prop := w_witness w = None.

Lemma ct_batch_typed (n : nat) (url token : string) b : Some ct_batch = Some b -> typed_batch b.
Proof. intros [= <-]. apply Forall_singleton. unfold is_u64, u64_max. cbn. lia. Qed.

Lemma ct_token_read : read_token (Some token_file) = Some "fixturetokenfixture"%string.
Proof. vm_compute. reflexivity. Qed.

Lemma ct_env_calm : calm ct_env unwitnessed.
Proof.
  split.
  - intros n s. reflexivity.
  - intros n s. reflexivity.
  - intros n. reflexivity.
  - intros n w Hw. exists w. split; [|exact Hw]. unfold acknowledge. unfold unwitnessed in Hw. rewrite Hw. reflexivity.
  - intros w d Hw _. exact Hw.
  - intros ca. reflexivity.
  - intros n path. eexists. exact ct_token_read.
  - intros n url token p. reflexivity.
Qed.

(** Two ticks from an empty database: the alert was posted once. *)
Local Abbreviation ct_end := (ct_main false [false; true] ct_worker ct_env (0%nat, ct_start empty_db)).2.2.

Lemma unexpected_issuance_reported_witness :
  List.length (t_sink ct_end) = 1%nat /\
  exists a, a ∈ ct_alerts (d_ct (ct_db ct_end)) /\ al_source a = "log"%string /\ al_position a = 1 /\
    (al_delivered_at a = None \/ row_post a ∈ t_sink ct_end).
Proof.
  split; [vm_compute; reflexivity|].
  assert (Hc : checkpoints (ct_db ct_end) !! "log"%string = Some (1, at_second 1)) by (vm_compute; reflexivity).
  assert (Hx : ob_expected <$> ct_observations (d_ct (ct_db ct_end)) !! ("log"%string, 1) = Some false) by (vm_compute; reflexivity).
  destruct (unexpected_issuance_reported cfg false [false; true] ct_worker ct_env 0 (ct_start empty_db)) as (_ & Ho & _).
  - intros n s. constructor.
  - exact ct_batch_typed.
  - constructor.
  - destruct (Ho "log"%string 1 (at_second 1) 1 Hc ltac:(lia)) as (row & Hrow & Hr). rewrite Hrow in Hx.
    destruct Hr as (a & Ha & Hs & Hq & _ & _ & Hd); [exact (Some_inj _ _ Hx)|]. exists a.
    exact (conj Ha (conj Hs (conj Hq Hd))).
Defined.

(** One tick after the source was registered. *)
Lemma feed_db_reached : rtc (moves cfg) (empty_db, []) (shared (ct_start feed_db)).
Proof.
  apply rtc_once. apply (moves_request cfg (at_second 0) (EnsureCtSource "log")); [exact I|reflexivity|].
  vm_compute. reflexivity.
Qed.

Lemma tick_reports_feed_witness : exists n' s',
  tick ct_worker ct_env (0%nat, ct_start feed_db) = (Ok tt, (n', s')) /\
  (exists t', checkpoints (ct_db s') !! "log"%string = Some (1, t')) /\
  (forall a, a ∈ ct_alerts (d_ct (ct_db s')) -> al_source a = "log"%string -> row_post a ∈ t_sink s').
Proof.
  destruct (tick_reports_feed cfg ct_env unwitnessed ct_worker ct_batch 0 (at_second 0) 0 (ct_start feed_db))
    as (n' & s' & Hrun & Hat & _ & Ha & _).
  - exact ct_env_calm.
  - reflexivity.
  - exact feed_db_reached.
  - vm_compute. reflexivity.
  - vm_compute. reflexivity.
  - intros n url token. reflexivity.
  - reflexivity.
  - split; reflexivity.
  - apply Forall_singleton. split; vm_compute; reflexivity.
  - vm_compute. discriminate.
  - vm_compute. discriminate.
  - vm_compute. discriminate.
  - vm_compute. discriminate.
  - vm_compute. discriminate.
  - exists n', s'. exact (conj Hrun (conj Hat Ha)).
Defined.
