(* ===== verification/BrokerClient.v ===== *)
(** * Broker client: crates/bloom-relay-client/src/lib.rs

    The Broker's calls to the control API and its tunnel to the gateway. The
    control API answers through a connection ([Broker]); TCP, TLS and HTTP/2
    are parameters: what they answer is the setup of a run and the events its
    loop sees. *)

From Stdlib Require Import Ascii String Strings.Byte.
From stdpp Require Import base strings list.
From S2P Require Import Prelude Protocol Db ControlApi AdminClient Ingress Gateway ClientAddr.

Inductive ClientError :=
| InvalidConfiguration
| IncompatibleProtocol (offered supported : Z)
| Transport
| TunnelRetired
| Rejected
| Refused (status : Z).

Definition control_error (error : UreqError) : ClientError :=
  match error with StatusCode status => Refused status | OtherFailure => Transport end.

(** ** Secrets and roots *)
Definition token_char (b : byte) : bool := is_ascii_alphanumeric b || Byte.eqb b Byte.x2d || Byte.eqb b Byte.x5f.
Definition validate_token (token : string) : result ClientError unit :=
  if (str_len token <? 43) || (128 <? str_len token) || negb (bytes_all token_char token)
  then Err InvalidConfiguration else Ok tt.

Definition read_credential (file : option SecretFile) : result ClientError string :=
  metadata ← ok_or InvalidConfiguration file;
  if negb (sf_is_file metadata) || (256 <? sf_len metadata) then Err InvalidConfiguration
  else if negb (Z.land (sf_mode metadata) 63 =? 0) then Err InvalidConfiguration
  else
    content ← ok_or InvalidConfiguration (sf_content metadata);
    let secret := string_of_list_byte (list_trim_end (fun b => Byte.eqb b Byte.x0a || Byte.eqb b Byte.x0d) (str_bytes content)) in
    if (str_len secret <? 43) || (128 <? str_len secret) || negb (bytes_all token_char secret)
    then Err InvalidConfiguration else Ok secret.

(** What [ureq::tls::parse_pem] yields of a bundle. *)
Inductive PemItem := PemCertificate (der : list byte) | PemPrivateKey | PemMalformed.
Class PemParser := parse_pem : list byte -> list PemItem.

Fixpoint collect_roots (items : list PemItem) (roots : list (list byte)) : result ClientError (list (list byte)) :=
  match items with
  | [] => Ok roots
  | PemCertificate der :: items => collect_roots items (roots ++ [der])
  | _ => Err InvalidConfiguration
  end.
Definition pinned_roots `{PemParser} (pem : list byte) : result ClientError (list (list byte)) :=
  roots ← collect_roots (parse_pem pem) [];
  if Nat.eqb (List.length roots) 0 then Err InvalidConfiguration else Ok roots.

(** ** Calls to the control API *)
(** A connection to the control API; the clock and the fresh UUIDs are the
    Broker's. *)
Record Broker (S : Type) := {
  br_post : ApiRequest -> S -> result UreqError ApiResponse * S;
  br_now : S -> Z * S;
  br_uuid : S -> Uuid * S
}.
Arguments br_post {S}.
Arguments br_now {S}.
Arguments br_uuid {S}.

Section control.
Context `{Crypto} `{PemParser} {S : Type} (b : Broker S).

Definition BrM (A : Type) : Type := S -> result ClientError A * S.
#[global] Instance br_ret : MRet BrM := fun _ a s => (Ok a, s).
#[global] Instance br_bind : MBind BrM := fun _ _ f m s =>
  match m s with (Ok a, s') => f a s' | (Err err, s') => (Err err, s') end.
Definition br_lift {A} (r : result ClientError A) : BrM A := fun s => (r, s).
Definition br_reject (bad : bool) (err : ClientError) : BrM unit := br_lift (if bad then Err err else Ok tt).
Definition br_time : BrM Z := fun s => let (t, s') := br_now b s in (Ok t, s').
Definition br_fresh : BrM Uuid := fun s => let (u, s') := br_uuid b s in (Ok u, s').

(** A request through [pinned_control_agent]. *)
Definition br_send (request : ApiRequest) : BrM ApiResponse := fun s =>
  let (r, s') := br_post b request s in (map_err control_error r, s').
Definition call (ca_pem : list byte) (request : ApiRequest) : BrM ApiResponse :=
  _ ← br_lift (pinned_roots ca_pem); br_send request.

Definition authorization (token : string) (installation : option Uuid) : HeaderMap :=
  {| hm_authorization := Some ("Bearer " +:+ token); hm_installation := uuid_to_string <$> installation |}.

Definition renewable_scope (scope : Scope) : bool :=
  match scope with ScopeTunnel | ScopeDnsChallenge => true | SurfaceAdmin => false end.

Definition renew_scoped_credential (ca_pem : list byte) (id : Uuid) (scope : Scope) (generation : Z)
    (file : option SecretFile) (new_token : string) (operation_id : Uuid) : BrM CredentialIssueReceipt :=
  _ ← br_reject (negb (renewable_scope scope) || (generation =? 0) || bool_decide (id = uuid_nil)
                 || bool_decide (operation_id = uuid_nil)) InvalidConfiguration;
  _ ← br_lift (validate_token new_token);
  current ← br_lift (read_credential file);
  nonce ← br_fresh;
  now ← br_time;
  response ← call ca_pem (PostRenew (authorization current None)
    {| rn_version := WIRE_VERSION; rn_installation_id := id; rn_scope := scope; rn_generation := generation;
       rn_operation_id := operation_id; rn_nonce := uuid_to_string nonce;
       rn_expires_at_ms := u64_saturating_add now 30000; rn_new_token_sha256 := sha256_hex (str_bytes new_token) |});
  receipt ← br_lift match response with OfCredential r => Ok r | _ => Err Transport end;
  receipt_now ← br_time;
  _ ← br_reject (negb (ci_version receipt =? WIRE_VERSION) || negb (bool_decide (ci_scope receipt = scope))
                 || negb (bool_decide (ci_operation_id receipt = operation_id)) || (ci_generation receipt <=? generation)
                 || negb (trusted_response_expiry (ci_expires_at_ms receipt) receipt_now 86400000)) Rejected;
  mret receipt.

(** [DnsChallengeClient]. *)
Record DnsChallengeClient := { dc_installation_id : Uuid; dc_credential_path : string; dc_control_ca_pem : list byte }.
Definition dns_client_new (ca_pem : list byte) (id : Uuid) (path : string) : result ClientError DnsChallengeClient :=
  if Nat.eqb (List.length ca_pem) 0 || bool_decide (id = uuid_nil) || bool_decide (path = ""%string)
  then Err InvalidConfiguration
  else Ok {| dc_installation_id := id; dc_credential_path := path; dc_control_ca_pem := ca_pem |}.

Context (files : string -> option SecretFile).

Definition dns_request (c : DnsChallengeClient) (request : HeaderMap -> ApiRequest) (installation : option Uuid) : BrM ApiResponse :=
  token ← br_lift (read_credential (files (dc_credential_path c)));
  call (dc_control_ca_pem c) (request (authorization token installation)).

Definition ensure (c : DnsChallengeClient) (txt_value : string) : BrM DnsChallengeState :=
  response ← dns_request c (fun headers => PostDnsChallenge headers
    {| de_version := WIRE_VERSION; de_installation_id := dc_installation_id c; de_txt_value := txt_value |})
    (Some (dc_installation_id c));
  state ← br_lift match response with OfChallengeState s => Ok s | _ => Err Rejected end;
  _ ← br_reject (negb (ds_version state =? WIRE_VERSION)) Rejected;
  mret state.

Definition ready (c : DnsChallengeClient) (txt_value : string) (revision : Z) : BrM bool :=
  _ ← br_lift (map_err (fun _ => InvalidConfiguration) (validate_challenge_value txt_value));
  response ← dns_request c (GetChallengeReady (dc_installation_id c) revision txt_value) None;
  br_lift match response with
          | StatusOnly status => if status =? 204 then Ok true else if status =? 202 then Ok false else Err Rejected
          | _ => Err Rejected
          end.

Definition report_certificate (c : DnsChallengeClient) (certificate : CertificateMetadata) : BrM unit :=
  response ← dns_request c (fun headers => PostCertificates headers certificate) (Some (dc_installation_id c));
  br_lift match response with StatusOnly status => if status =? 202 then Ok tt else Err Rejected | _ => Err Rejected end.
End control.

(** ** The tunnel *)
Record TunnelConfig := {
  tc_gateway : SocketAddr;
  tc_control_server_name : string;
  tc_hostname : string;
  tc_installation_id : Uuid;
  tc_credential_path : string
}.
Record TunnelClient := { tl_config : TunnelConfig; tl_upstream : SocketAddr }.

Definition LOCALHOST : IpAddr := V4 2130706433.
Definition CEREMONY_UPSTREAM : SocketAddr := (LOCALHOST, 18735).

Definition tunnel_new (config : TunnelConfig) (upstream : SocketAddr) : result ClientError TunnelClient :=
  _ ← map_err (fun _ => InvalidConfiguration) (validate_hostname (tc_hostname config));
  if negb (bool_decide (upstream.1 = LOCALHOST)) || (upstream.2 =? 0)
     || bool_decide (tc_credential_path config = ""%string) || bool_decide (tc_control_server_name config = ""%string)
  then Err InvalidConfiguration else Ok {| tl_config := config; tl_upstream := upstream |}.

(** The headers of the tunnel request and of a stream's CONNECT. *)
Definition tunnel_headers (config : TunnelConfig) (credential : string) : Headers :=
  {| h_version := Some (u64_to_string WIRE_VERSION); h_installation := Some (uuid_to_string (tc_installation_id config));
     h_hostname := Some (tc_hostname config); h_generation := None; h_authorization := Some ("Bearer " +:+ credential);
     h_ticket := None; h_authority := Some (tc_control_server_name config) |}.
Definition connect_headers (hostname : string) (id : Uuid) (generation : Z) (credential ticket : string) : Headers :=
  {| h_version := Some (u64_to_string WIRE_VERSION); h_installation := Some (uuid_to_string id);
     h_hostname := Some hostname; h_generation := Some (u64_to_string generation);
     h_authorization := Some ("Bearer " +:+ credential); h_ticket := Some ticket; h_authority := Some hostname |}.

(** A stream task: where it connects, and the request it makes. *)
Record StreamTask := { sk_upstream : SocketAddr; sk_headers : Headers }.

Inductive TunnelTaskCompletion := Connection (r : result ClientError unit) | Stream (r : result ClientError unit).
Definition into_fatal_error (c : TunnelTaskCompletion) : option ClientError :=
  match c with
  | Connection (Ok _) => Some Transport
  | Connection (Err error) => Some error
  | Stream (Err TunnelRetired) => Some TunnelRetired
  | Stream _ => None
  end.

(** The state of a run: the readiness flag, the decoder's pending bytes, the
    streams that hold a permit, and the streams started so far. *)
Record TunnelRun := { tr_ready : bool; tr_pending : list byte; tr_live : Z; tr_started : list StreamTask }.
Definition with_ready (v : bool) (r : TunnelRun) : TunnelRun :=
  {| tr_ready := v; tr_pending := tr_pending r; tr_live := tr_live r; tr_started := tr_started r |}.
Definition with_pending (bytes : list byte) (r : TunnelRun) : TunnelRun :=
  {| tr_ready := tr_ready r; tr_pending := bytes; tr_live := tr_live r; tr_started := tr_started r |}.
Definition stream_ended (r : TunnelRun) : TunnelRun :=
  {| tr_ready := tr_ready r; tr_pending := tr_pending r; tr_live := tr_live r - 1; tr_started := tr_started r |}.
Definition start_stream (task : StreamTask) (r : TunnelRun) : TunnelRun :=
  {| tr_ready := tr_ready r; tr_pending := tr_pending r; tr_live := tr_live r + 1; tr_started := tr_started r ++ [task] |}.

(** What a turn of [select!] sees; [StreamEnded] is a stream task dropping its
    permit. A frame comes with whether its capacity was released and with the
    clock at each of its events. *)
Inductive LoopEvent :=
| Shutdown
| Joined (c : TunnelTaskCompletion)
| JoinFailed
| FrameTimeout
| FrameEnd
| FrameError
| Frame (bytes : list byte) (released : bool) (clock : nat -> Z)
| StreamEnded.

Section tunnel.
Context `{Serde} (c : TunnelClient) (credential : string).

Definition task_of (generation : Z) (ticket : string) : StreamTask :=
  {| sk_upstream := tl_upstream c;
     sk_headers := connect_headers (tc_hostname (tl_config c)) (tc_installation_id (tl_config c)) generation credential ticket |}.

Fixpoint handle_events (events : list TunnelEvent) (clock : nat -> Z) (i : nat) (r : TunnelRun) : result ClientError unit * TunnelRun :=
  match events with
  | [] => (Ok tt, r)
  | Open version ticket _ hostname generation expires_at_ms :: events =>
      if negb (version =? WIRE_VERSION) then (Err (IncompatibleProtocol version WIRE_VERSION), r)
      else if negb (bool_decide (hostname = tc_hostname (tl_config c))) || (expires_at_ms <=? clock i)
      then handle_events events clock (S i) r
      else if tr_live r <? MAX_INSTALLATION_STREAMS
      then handle_events events clock (S i) (start_stream (task_of generation ticket) r)
      else handle_events events clock (S i) r
  | Heartbeat _ _ :: events => handle_events events clock (S i) r
  end.

(** The loop; [None] when it is still running after the events. The guard
    clears the readiness flag on every way out. *)
Fixpoint tunnel_loop (events : list LoopEvent) (r : TunnelRun) : option (result ClientError unit) * TunnelRun :=
  let stop res := (Some res, with_ready false r) in
  match events with
  | [] => (None, r)
  | Shutdown :: _ => stop (Ok tt)
  | Joined completion :: events =>
      match into_fatal_error completion with Some error => stop (Err error) | None => tunnel_loop events r end
  | StreamEnded :: events => if 0 <? tr_live r then tunnel_loop events (stream_ended r) else tunnel_loop events r
  | Frame bytes released clock :: events =>
      if negb released then stop (Err Transport)
      else
        match push (tr_pending r) bytes with
        | (Err _, _) => stop (Err Transport)
        | (Ok decoded, pending) =>
            match handle_events decoded clock 0 (with_pending pending r) with
            | (Ok _, r') => tunnel_loop events r'
            | (Err error, r') => (Some (Err error), with_ready false r')
            end
        end
  | _ :: _ => stop (Err Transport)
  end.
End tunnel.

(** The steps before the loop, as the network and the libraries answer them. *)
Record TunnelSetup := {
  su_file : option SecretFile;
  su_tcp : bool;
  su_server_name : bool;
  su_tls : bool;
  su_h2 : bool;
  su_request : bool;
  su_sent : bool;
  su_status : option Z
}.

(** [run_until_ready]: the request made, if any, the outcome and the state. *)
Definition not_ready : TunnelRun := {| tr_ready := false; tr_pending := []; tr_live := 0; tr_started := [] |}.
Definition run_until_ready `{Serde} (c : TunnelClient) (setup : TunnelSetup)
    (events : list LoopEvent) : option Headers * (option (result ClientError unit) * TunnelRun) :=
  let stop error := (None, (Some (Err error), not_ready)) in
  match read_credential (su_file setup) with
  | Err error => stop error
  | Ok credential =>
      if negb (su_tcp setup) then stop Transport
      else if negb (su_server_name setup) then stop InvalidConfiguration
      else if negb (su_tls setup && su_h2 setup) then stop Transport
      else if negb (su_request setup) then stop InvalidConfiguration
      else if negb (su_sent setup) then stop Transport
      else
        let headers := tunnel_headers (tl_config c) credential in
        match su_status setup with
        | None => (Some headers, (Some (Err Transport), not_ready))
        | Some status =>
            if negb ((200 <=? status) && (status <? 300)) then (Some headers, (Some (Err Rejected), not_ready))
            else (Some headers, tunnel_loop c credential events (with_ready true not_ready))
        end
  end.

(** [probe_public_health]. *)
Definition probe_public_health `{PemParser} (hostname : string) (test_ca_pem : option (list byte))
    (get : string -> result UreqError Z) : result ClientError unit :=
  _ ← map_err (fun _ => InvalidConfiguration) (validate_hostname hostname);
  _ ← match test_ca_pem with Some pem => roots ← pinned_roots pem; Ok tt | None => Ok tt end;
  status ← map_err control_error (get ("https://" +:+ hostname +:+ "/.well-known/bloom/relay-health"));
  if status =? 204 then Ok tt else Err Rejected.

(** ** A stream *)
(** [map_h2_stream_error]. *)
Definition map_h2_stream_error (is_go_away : bool) : ClientError := if is_go_away then TunnelRetired else Transport.

(** [send_bounded] sends as the gateway's [send_data] does. *)
Definition send_bounded (capacities : list Z) (bytes : list byte) : result ClientError (list (list byte)) :=
  map_err (fun _ => Transport) (send_data capacities bytes).

Inductive SpliceEvent :=
| LocalRead (bytes : list byte) (capacities : list Z)
| LocalEof (sent : bool)
| LocalReadError
| RemoteData (bytes : list byte) (written released : bool)
| RemoteError (is_go_away : bool)
| RemoteEnd (shut : bool)
| SpliceIdle.

Record Splice := { sp_to_remote : list (list byte); sp_to_local : list (list byte); sp_local_done : bool; sp_remote_done : bool }.
Definition splice_start : Splice := {| sp_to_remote := []; sp_to_local := []; sp_local_done := false; sp_remote_done := false |}.

Definition splice_enabled (s : Splice) (e : SpliceEvent) : bool :=
  match e with
  | LocalRead _ _ | LocalEof _ | LocalReadError => negb (sp_local_done s)
  | RemoteData _ _ _ | RemoteError _ | RemoteEnd _ => negb (sp_remote_done s)
  | SpliceIdle => true
  end.

Definition splice_turn (s : Splice) (e : SpliceEvent) : result ClientError Splice :=
  match e with
  | LocalRead bytes capacities =>
      chunks ← send_bounded capacities bytes;
      Ok {| sp_to_remote := sp_to_remote s ++ chunks; sp_to_local := sp_to_local s;
            sp_local_done := sp_local_done s; sp_remote_done := sp_remote_done s |}
  | LocalEof sent =>
      if sent
      then Ok {| sp_to_remote := sp_to_remote s; sp_to_local := sp_to_local s; sp_local_done := true; sp_remote_done := sp_remote_done s |}
      else Err Transport
  | LocalReadError => Err Transport
  | RemoteData bytes written released =>
      if written && released
      then Ok {| sp_to_remote := sp_to_remote s; sp_to_local := sp_to_local s ++ [bytes];
                 sp_local_done := sp_local_done s; sp_remote_done := sp_remote_done s |}
      else Err Transport
  | RemoteError is_go_away => Err (map_h2_stream_error is_go_away)
  | RemoteEnd shut =>
      if shut
      then Ok {| sp_to_remote := sp_to_remote s; sp_to_local := sp_to_local s; sp_local_done := sp_local_done s; sp_remote_done := true |}
      else Err Transport
  | SpliceIdle => Err Transport
  end.

Fixpoint splice_loop (s : Splice) (events : list SpliceEvent) : option (result ClientError Splice) :=
  if sp_local_done s && sp_remote_done s then Some (Ok s)
  else
    match events with
    | [] => None
    | e :: rest =>
        if splice_enabled s e then
          match splice_turn s e with
          | Ok s' => splice_loop s' rest
          | Err err => Some (Err err)
          end
        else splice_loop s rest
    end.

(** [open_stream]: the CONNECT's answer, the local connection, the copy loop
    and the deadline over all of it. *)
Record StreamSetup := { ss_request : bool; ss_sent : result bool unit; ss_answer : option (result bool Z); ss_local : bool; ss_in_time : bool }.
Definition open_stream_inner (setup : StreamSetup) (events : list SpliceEvent) : option (result ClientError Splice) :=
  if negb (ss_request setup) then Some (Err InvalidConfiguration)
  else
    match ss_sent setup, ss_answer setup with
    | Err go_away, _ => Some (Err (map_h2_stream_error go_away))
    | Ok _, None => Some (Err Transport)
    | Ok _, Some (Err go_away) => Some (Err (map_h2_stream_error go_away))
    | Ok _, Some (Ok status) =>
        if negb ((200 <=? status) && (status <? 300)) then Some (Err Rejected)
        else if negb (ss_local setup) then Some (Err Transport)
        else splice_loop splice_start events
    end.
Definition open_stream (setup : StreamSetup) (events : list SpliceEvent) : option (result ClientError Splice) :=
  if ss_in_time setup then open_stream_inner setup events else Some (Err Transport).
