(* ===== verification/BrokerProperties.v ===== *)
(** * What the Broker client guarantees

    The tunnel loop only starts streams to the configured loopback port and
    for its own hostname; a stream the gateway opens is one its CONNECT
    handler attaches; bytes pass both ends unchanged; and the requests to the
    control API are well formed. *)

From Stdlib Require Import Ascii String Strings.Byte.
From stdpp Require Import base strings list gmap.
From S2P Require Import Prelude Protocol Db Store StoreCredentials StoreLifecycle ClientAddr Ingress Gateway ControlApi BrokerClient.

(** ** The tunnel loop *)
Section tunnel.
Context `{Serde} (c : TunnelClient) (credential : string).

(** A stream of this client. *)
Definition own_task (task : StreamTask) : Prop :=
  exists generation ticket, task = task_of c credential generation ticket.
Record run_ok (r : TunnelRun) : Prop := {
  ro_live : 0 <= tr_live r <= MAX_INSTALLATION_STREAMS;
  ro_tasks : Forall own_task (tr_started r)
}.

Lemma handle_events_ok events clock i r res r' :
  handle_events c credential events clock i r = (res, r') -> run_ok r -> run_ok r' /\ tr_ready r' = tr_ready r.
Proof.
  revert i r. induction events as [|[version ticket cid hostname generation expires|] events IH]; intros i r; cbn [handle_events].
  - by intros [= _ <-].
  - destruct (negb (version =? _)); [by intros [= _ <-]|]. destruct (_ || _); [apply IH|].
    destruct (Z.ltb_spec (tr_live r) MAX_INSTALLATION_STREAMS); [|apply IH]. intros Hrun [Hl Ht].
    apply IH in Hrun; [done|]. split; cbn; [lia|]. apply Forall_app. split; [done|]. apply Forall_singleton. by eexists _, _.
  - apply IH.
Qed.

Lemma tunnel_loop_ok events r res r' :
  tunnel_loop c credential events r = (res, r') -> run_ok r -> run_ok r' /\ tr_ready r' = match res with None => tr_ready r | Some _ => false end.
Proof.
  revert r. induction events as [|e events IH]; intros r; cbn [tunnel_loop]; [by intros [= <- <-]|].
  assert (Hstop : forall o, (Some o, with_ready false r) = (res, r') -> run_ok r ->
    run_ok r' /\ tr_ready r' = match res with None => tr_ready r | Some _ => false end) by (intros o [= <- <-] []; by split).
  destruct e as [|completion| | | | |bytes released clock|]; try (apply Hstop).
  - destruct (into_fatal_error completion); [apply Hstop|apply IH].
  - destruct (negb released); [apply Hstop|]. destruct (push (tr_pending r) bytes) as [[decoded|] pending]; [|apply Hstop].
    destruct (handle_events _ _ decoded clock 0 _) as [[u|error] r1] eqn:Hh; intros Hrun Hr;
      apply handle_events_ok in Hh as [Hr1 Heq]; try (by destruct Hr).
    + apply IH in Hrun as [? ->]; [|done]. cbn in Heq. by rewrite Heq.
    + injection Hrun as <- <-. by destruct Hr1.
  - destruct (Z.ltb_spec 0 (tr_live r)); [|apply IH]. intros Hrun [Hl Ht]. apply IH in Hrun; [done|]. split; cbn; [lia|done].
Qed.
End tunnel.

(** The tunnel client stays within its bounds. For a client that was
    configured, whatever the gateway sends and however streams end, at most
    [MAX_INSTALLATION_STREAMS] streams run at once; every stream ever started
    connects to the configured port of 127.0.0.1 and asks for the client's own
    hostname with its own installation and credential, which the gateway
    cannot choose; and readiness is only reported while the loop runs. *)
Theorem broker_streams_confined `{Serde} config upstream c setup events headers res r :
  tunnel_new config upstream = Ok c -> run_until_ready c setup events = (headers, (res, r)) ->
  validate_hostname (tc_hostname config) = Ok tt /\ upstream.1 = LOCALHOST /\ upstream.2 <> 0 /\
  0 <= tr_live r <= MAX_INSTALLATION_STREAMS /\
  (tr_ready r = true -> res = None) /\
  Forall (fun task => sk_upstream task = upstream /\
    exists credential generation ticket, read_credential (su_file setup) = Ok credential /\
      sk_headers task = connect_headers (tc_hostname config) (tc_installation_id config) generation credential ticket)
    (tr_started r).
Proof.
  unfold tunnel_new. intros (u & Hv & Hnew)%bind_ok. destruct (validate_hostname (tc_hostname config)) as [[]|]; [|done].
  destruct (_ || _ || _ || _) eqn:Hbad in Hnew; [done|]. injection Hnew as <-. to_prop.
  intros Hrun. do 3 (split; [tauto|]). unfold run_until_ready in Hrun.
  destruct (read_credential (su_file setup)) as [credential|]; [|by injection Hrun as _ <- <-].
  repeat (destruct (negb _) in Hrun; [by injection Hrun as _ <- <-|]).
  destruct (su_status setup) as [status|]; [|by injection Hrun as _ <- <-].
  destruct (negb _) in Hrun; [by injection Hrun as _ <- <-|]. injection Hrun as _ Hrun.
  apply tunnel_loop_ok in Hrun as [[Hl Ht] Hr]; [|split; [done|constructor]].
  split; [done|]. split; [intros Hready; by destruct res; [rewrite Hr in Hready|]|].
  eapply Forall_impl; [exact Ht|]. intros task (generation & ticket & ->). split; [done|]. by eexists _, _, _.
Qed.

(** ** A stream the gateway opens *)
Lemma ends_once {A} (x : A) line a b : a ++ b = line ++ [x] -> x ∉ line -> x ∈ a -> a = line ++ [x] /\ b = [].
Proof.
  intros Heq Hn Hx. destruct b as [|y b _] using rev_ind; [by rewrite app_nil_r in Heq|].
  rewrite app_assoc in Heq. apply app_inj_tail in Heq as [<- _]. destruct Hn. apply elem_of_app. by left.
Qed.

(** Frames of one line: the last one completes it. *)
Section frames.
Context `{Serde} (c : TunnelClient) (credential : string) (clock : nat -> Z).

Lemma push_partial pending chunk : Z.of_nat (List.length (pending ++ chunk)) <= MAX_CONTROL_BODY -> NEWLINE ∉ pending ++ chunk ->
  push pending chunk = (Ok [], pending ++ chunk).
Proof.
  rewrite length_app. intros Hl Hn. unfold push. rewrite !(proj2 (Z.ltb_ge _ _)) by lia. cbn [orb].
  destruct (List.length (pending ++ chunk)); [done|]. cbn [decode_loop]. by rewrite (proj2 (drain_line_None _) Hn).
Qed.

Lemma push_line pending chunk line event : pending ++ chunk = line ++ [NEWLINE] ->
  Z.of_nat (List.length (line ++ [NEWLINE])) <= MAX_CONTROL_BODY -> NEWLINE ∉ line -> event_from_slice line = Some event ->
  push pending chunk = (Ok [event], []).
Proof.
  intros Heq Hl Hn He. unfold push. assert (Hlen := f_equal List.length Heq). rewrite length_app in Hlen.
  rewrite !(proj2 (Z.ltb_ge _ _)) by lia. cbn [orb]. rewrite Heq. rewrite length_app. cbn [List.length]. rewrite Nat.add_1_r.
  cbn [decode_loop]. rewrite drain_line_app by done. rewrite He. destruct line; done.
Qed.

Definition frames (chunks : list (list byte)) : list LoopEvent := (fun chunk => Frame chunk true clock) <$> chunks.

Lemma frames_done chunks r : Forall (fun chunk => chunk = []) chunks -> tr_pending r = [] ->
  tunnel_loop c credential (frames chunks) r = (None, r).
Proof.
  intros Hc Hp. induction Hc as [|chunk chunks -> _ IH]; [done|]. cbn [frames fmap list_fmap tunnel_loop negb].
  rewrite Hp, push_partial by (done || apply not_elem_of_nil). cbn [handle_events app].
  replace (with_pending [] r) with r by (rewrite <- Hp; by destruct r). exact IH.
Qed.

Lemma frames_line chunks line event r :
  tr_pending r ++ concat chunks = line ++ [NEWLINE] -> Z.of_nat (List.length (line ++ [NEWLINE])) <= MAX_CONTROL_BODY ->
  NEWLINE ∉ line -> NEWLINE ∉ tr_pending r -> event_from_slice line = Some event ->
  forall r', handle_events c credential [event] clock 0 (with_pending [] r) = (Ok tt, r') -> tr_pending r' = [] ->
  tunnel_loop c credential (frames chunks) r = (None, r').
Proof.
  intros Heq Hl Hn Hp He r' Hr' Hp'. revert r Heq Hp Hr'. induction chunks as [|chunk chunks IH]; intros r Heq Hp Hr'.
  { cbn in Heq. rewrite app_nil_r in Heq. rewrite Heq in Hp. destruct Hp. apply elem_of_app. right. by apply list_elem_of_singleton. }
  cbn [concat] in Heq. rewrite app_assoc in Heq. cbn [frames fmap list_fmap tunnel_loop negb].
  destruct (decide (NEWLINE ∈ tr_pending r ++ chunk)) as [Hin|Hno].
  - destruct (ends_once _ _ _ _ Heq Hn Hin) as [Hall Hrest]. rewrite (push_line _ _ _ _ Hall Hl Hn He). cbn beta iota. rewrite Hr'.
    apply frames_done; [|done]. apply Forall_forall. intros x Hx. destruct x as [|y x]; [done|]. exfalso.
    assert (y ∈ concat chunks) as Hy by (apply list_elem_of_In, in_concat; exists (y :: x); split; [by apply list_elem_of_In|by left]).
    rewrite Hrest in Hy. by apply elem_of_nil in Hy.
  - assert (Hlen := f_equal List.length Heq). rewrite length_app in Hlen. rewrite push_partial by (done || lia).
    cbn [handle_events]. apply IH; cbn; [done|done|]. exact Hr'.
Qed.
End frames.

Section attach.
Context `{Crypto} (uuid_parse_str : string -> option Uuid) (gateway_id : string).
Context (e : Env) (host token : string) (id : Uuid) (generation : Z).

(** The gateway serves the installation's tunnel at [host]. *)
Record tunnel_serving (g : Gw) : Prop := {
  sv_host : hostname_of id (g_db g) = Some host;
  sv_bearer : is_Some (authenticate_bearer (g_now g) id "tunnel" token (g_db g));
  sv_tunnel : owns_host host id generation g = true;
  sv_lease : lease_is_current (g_now g) id gateway_id generation (g_db g) = true
}.
Definition ticket_live (key : string) (r : N) (g : Gw) : Prop :=
  exists k, g_tickets g !! key = Some k /\ g_instant g < k_deadline k /\ k_host k = host /\ k_id k = id /\
    k_generation k = generation /\ k_ref k = r.

(** The other tasks leave the tunnel and the ticket, and calls succeed. *)
Record serves : Prop := {
  se_tunnel n g : tunnel_serving g -> tunnel_serving (e_others e n g);
  se_ticket key r n g : tunnel_serving g -> ticket_live key r g -> ticket_live key r (e_others e n g);
  se_store n : e_store e n = StoreOk;
  se_respond n : e_respond e n = true
}.
Context (Hs : serves).

Definition reaches {A} (P : Gw -> Prop) (m : GwM A) (Q : A -> Gw -> Prop) : Prop :=
  forall n g, P g -> exists a n' g', m e (n, g) = (Ok a, (n', g')) /\ Q a g'.

Lemma reaches_bind {A B} P (m : GwM A) Q (f : A -> GwM B) R :
  reaches P m Q -> (forall a, reaches (Q a) (f a) R) -> reaches P (m ≫= f) R.
Proof.
  intros Hm Hf n g HP. destruct (Hm n g HP) as (a & n1 & g1 & Hrun & HQ). destruct (Hf a n1 g1 HQ) as (b & n2 & g2 & Hrun2 & HR).
  exists b, n2, g2. split; [|done]. unfold mbind, gw_bind. by rewrite Hrun.
Qed.
Lemma reaches_ret {A} (P : Gw -> Prop) (a : A) (Q : A -> Gw -> Prop) : (forall g, P g -> Q a g) -> reaches P (mret a) Q.
Proof. intros HQ n g HP. exists a, n, g. split; [done|]. by apply HQ. Qed.
Lemma reaches_yield (P : Gw -> Prop) : (forall n g, P g -> P (e_others e n g)) -> reaches P yield (fun _ => P).
Proof. intros HP n g Hg. exists tt, (S n), (e_others e n g). split; [done|]. by apply HP. Qed.
Lemma reaches_gets {A} (P : Gw -> Prop) (f : Gw -> A) (Q : A -> Gw -> Prop) : (forall g, P g -> Q (f g) g) -> reaches P (gets f) Q.
Proof. intros HQ n g HP. exists (f g), n, g. split; [done|]. by apply HQ. Qed.
Lemma reaches_update (P : Gw -> Prop) f (Q : unit -> Gw -> Prop) : (forall g, P g -> Q tt (f g)) -> reaches P (update f) Q.
Proof. intros HQ n g HP. exists tt, n, (f g). split; [done|]. by apply HQ. Qed.
Lemma reaches_respond (P : Gw -> Prop) : reaches P respond (fun _ => P).
Proof. intros n g HP. exists tt, (S n), g. split; [|done]. unfold respond. cbn. by rewrite (se_respond Hs). Qed.
Lemma reaches_read {A} (P : Gw -> Prop) (f : Z -> Db -> A) (Q : A -> Gw -> Prop) :
  (forall n g, P g -> P (e_others e n g)) -> (forall g, P g -> Q (f (g_now g) (g_db g)) g) -> reaches P (store_read f) Q.
Proof.
  intros HP HQ n g Hg. set (g1 := e_others e n g). exists (f (g_now g1) (g_db g1)), (S n), g1. split; [|by apply HQ, HP].
  unfold store_read, store_tx. cbn. rewrite (se_store Hs). fold g1. unfold tx_gets. by destruct g1.
Qed.
Lemma reaches_pure {A} (X : Prop) P (m : GwM A) Q : (X -> reaches P m Q) -> reaches (fun g => X /\ P g) m Q.
Proof. intros Hm n g [HX HP]. by apply Hm. Qed.

Context (key : string) (r : N).
Let both (g : Gw) : Prop := tunnel_serving g /\ ticket_live key r g.
Lemma both_kept n g : both g -> both (e_others e n g).
Proof. intros [? ?]. split; [by apply (se_tunnel Hs)|by apply (se_ticket Hs)]. Qed.

Lemma reaches_current P : (forall n g, P g -> P (e_others e n g)) -> (forall g, P g -> tunnel_serving g) ->
  reaches P (tunnel_current gateway_id id generation) (fun b g => b = true /\ P g).
Proof. intros HP Hsv. apply reaches_read; [done|]. intros g Hg. split; [|done]. by destruct (Hsv g Hg). Qed.

Lemma reaches_attach : validate_hostname host = Ok tt ->
  reaches both (attach_valid gateway_id (Some WIRE_VERSION) id host generation token) (fun b g => b = true /\ both g).
Proof.
  intros Hv. unfold attach_valid. eapply (reaches_bind _ _ (fun b g => b = true /\ both g)).
  - unfold bearer_valid. rewrite bool_decide_true by done. rewrite Hv. cbn [negb is_err orb].
    eapply (reaches_bind _ _ (fun stored g => stored = Some host /\ both g)).
    { apply reaches_read; [apply both_kept|]. intros g Hg. split; [apply (proj1 Hg)|done]. }
    intros stored. apply reaches_pure. intros ->. rewrite bool_decide_true by done. cbn [negb].
    eapply (reaches_bind _ _ (fun o g => is_Some o /\ both g)).
    { apply reaches_read; [apply both_kept|]. intros g Hg. split; [apply (proj1 Hg)|done]. }
    intros o. apply reaches_pure. intros Ho. apply reaches_ret. intros g Hg. split; [by apply bool_decide_true|done].
  - intros b. apply reaches_pure. intros ->. cbn [negb]. eapply reaches_bind; [apply reaches_yield, both_kept|]. intros u.
    eapply (reaches_bind _ _ (fun b g => b = true /\ both g)).
    { apply reaches_gets. intros g Hg. split; [apply (proj1 Hg)|done]. }
    intros b. apply reaches_pure. intros ->. cbn [negb]. apply reaches_current; [apply both_kept|by intros g []].
Qed.

Lemma serving_tickets f g : tunnel_serving g -> tunnel_serving (set_tickets f g).
Proof. by intros []. Qed.

Lemma reaches_finish k : k_ref k = r ->
  reaches tunnel_serving (finish_claim gateway_id id host generation k) (fun s g => s = S200 /\ g_delivered g !! r = Some (id, generation)).
Proof.
  intros Hr. unfold finish_claim. eapply reaches_bind; [apply reaches_yield, (se_tunnel Hs)|]. intros u.
  eapply (reaches_bind _ _ (fun b g => b = true /\ tunnel_serving g)).
  { apply reaches_gets. intros g Hg. split; [apply Hg|done]. }
  intros b. apply reaches_pure. intros ->. eapply (reaches_bind _ _ (fun b g => b = true /\ tunnel_serving g)).
  { apply reaches_current; [apply (se_tunnel Hs)|done]. }
  intros b. apply reaches_pure. intros ->. eapply reaches_bind; [apply reaches_respond|]. intros u'.
  eapply (reaches_bind _ _ (fun _ g => g_delivered g !! r = Some (id, generation))).
  - apply reaches_update. intros g _. cbn. rewrite Hr. apply lookup_insert_eq.
  - intros _. by apply reaches_ret.
Qed.

Lemma reaches_claim h : h_ticket h = Some key -> h_authority h = Some host ->
  reaches both (claim_ticket h id host generation) (fun o g => (exists k, o = Some k /\ k_ref k = r) /\ tunnel_serving g).
Proof.
  intros Hk Ha. unfold claim_ticket. rewrite Hk. eapply reaches_bind; [apply reaches_yield, both_kept|]. intros u.
  intros n g (Hsv & k & Hfound & Hdl & Hh & Hid & Hg & Hr).
  unfold mbind, gw_bind, gets, update, mret, gw_ret. cbn [fst snd]. rewrite Hfound.
  assert (ticket_claim_matches k id host generation (h_authority h) (g_instant g) = true) as ->.
  { unfold ticket_claim_matches, ticket_owner_matches. rewrite Ha, Hh, Hid, Hg, Z.eqb_refl.
    rewrite (proj2 (Z.ltb_lt _ _) Hdl), !bool_decide_true by done. done. }
  eexists _, _, _. split; [done|]. split; [by exists k|]. by apply serving_tickets.
Qed.

Lemma reaches_connect : uuid_parse_str (uuid_to_string id) = Some id -> validate_hostname host = Ok tt -> is_u64 generation ->
  reaches both (connect uuid_parse_str gateway_id (connect_headers host id generation token key))
    (fun s g => s = S200 /\ g_delivered g !! r = Some (id, generation)).
Proof.
  intros Hu Hv Hg. unfold connect.
  assert (installation uuid_parse_str (connect_headers host id generation token key) = Some id) as -> by exact Hu.
  assert (generation_header (connect_headers host id generation token key) = Some generation) as ->
    by exact (parse_u64_to_string generation Hg).
  assert (bearer (connect_headers host id generation token key) = Some token) as ->
    by (apply (strip_prefix_Some _ ("Bearer " +:+ token) token); done).
  assert (wire_version (connect_headers host id generation token key) = Some WIRE_VERSION) as -> by reflexivity.
  cbn [h_hostname connect_headers].
  eapply reaches_bind; [by apply reaches_attach|]. intros b. apply reaches_pure. intros ->. cbn [negb].
  eapply reaches_bind; [by apply reaches_claim|]. intros o. apply reaches_pure. intros (k & -> & Hk). by apply reaches_finish.
Qed.
End attach.


(** ** Bytes through both ends *)
(** What the local connection sent before its end, and the remote before its. *)
Fixpoint local_bytes (events : list SpliceEvent) : list byte :=
  match events with
  | LocalRead bytes _ :: rest => bytes ++ local_bytes rest
  | LocalEof _ :: _ => []
  | _ :: rest => local_bytes rest
  | [] => []
  end.
Fixpoint remote_bytes (events : list SpliceEvent) : list byte :=
  match events with
  | RemoteData bytes _ _ :: rest => bytes ++ remote_bytes rest
  | RemoteEnd _ :: _ => []
  | _ :: rest => remote_bytes rest
  | [] => []
  end.

Lemma send_bounded_ok capacities bytes chunks :
  send_bounded capacities bytes = Ok chunks -> concat chunks = bytes /\ Forall frame_ok chunks.
Proof. unfold send_bounded. destruct (send_data capacities bytes) eqn:Hs; [|done]. intros [= <-]. by apply send_data_ok in Hs. Qed.

Lemma splice_loop_ok s events s' :
  splice_loop s events = Some (Ok s') -> Forall frame_ok (sp_to_remote s) ->
  Forall frame_ok (sp_to_remote s') /\
  concat (sp_to_remote s') = concat (sp_to_remote s) ++ (if sp_local_done s then [] else local_bytes events) /\
  concat (sp_to_local s') = concat (sp_to_local s) ++ (if sp_remote_done s then [] else remote_bytes events).
Proof.
  revert s. induction events as [|e events IH]; intros s; cbn [splice_loop].
  { destruct (sp_local_done s) eqn:Hl, (sp_remote_done s) eqn:Hr; cbn; try done. intros [= <-] Hf. by rewrite !app_nil_r. }
  destruct (sp_local_done s && sp_remote_done s) eqn:Hd.
  { intros [= <-] Hf. apply andb_true_iff in Hd as [-> ->]. by rewrite !app_nil_r. }
  destruct (splice_enabled s e) eqn:He.
  - destruct e as [bytes caps|[]| |bytes written released|go_away|[]|]; cbn in *; try done.
    + destruct (send_bounded caps bytes) as [chunks|] eqn:Hs; cbn; [|done]. apply send_bounded_ok in Hs as [<- Hc].
      intros Hl Hf. apply IH in Hl as (? & -> & ->); cbn; [|by apply Forall_app]. split; [done|].
      destruct (sp_local_done s); [done|]. rewrite concat_app, <-app_assoc. done.
    + intros Hl Hf. apply IH in Hl as (? & -> & ->); cbn; [|done]. by destruct (sp_local_done s).
    + destruct (written && released); [|done]. intros Hl Hf. apply IH in Hl as (? & -> & ->); cbn; [|done].
      split_and!; [done..|]. destruct (sp_remote_done s); [done|]. rewrite concat_app, <-app_assoc. cbn. by rewrite app_nil_r.
    + intros Hl Hf. apply IH in Hl as (? & -> & ->); cbn; [|done]. by destruct (sp_remote_done s).
  - intros Hl Hf. apply IH in Hl as (? & -> & ->); [|done].
    destruct e; cbn in *; try done; destruct (sp_local_done s), (sp_remote_done s); done.
Qed.

(** C36: A browser talks to the Broker byte for byte. When the gateway's bridge
    and the client's stream both end in order and HTTP/2 carried the data of
    each direction between them, the Broker received exactly what the browser
    sent, its ClientHello first, the browser received exactly what the Broker
    sent, and every frame either end sent is at most 16 KiB. *)
Theorem browser_reaches_broker_unchanged accept reads host prefix capacities b events b' setup splice s' :
  read_sni accept reads [] = Ok (host, prefix) -> bridge_start prefix capacities = Ok b ->
  bridge_loop b events = Some (Ok b') -> open_stream setup splice = Some (Ok s') ->
  remote_bytes splice = concat (br_to_tunnel b') -> tunnel_bytes events = concat (sp_to_remote s') ->
  (exists taken rest, reads = (Some <$> taken) ++ rest /\ concat (sp_to_local s') = concat taken ++ browser_bytes events) /\
  concat (br_to_browser b') = local_bytes splice /\
  Forall frame_ok (br_to_tunnel b') /\ Forall frame_ok (sp_to_remote s').
Proof.
  intros (Hv & _ & Hl & taken & rest & -> & ->)%read_sni_ok Hs Hb Ho Hup Hdown. cbn [app] in *. unfold bridge_start in Hs.
  apply bind_ok in Hs as (chunks & [Hj Hf]%send_data_ok & [= <-]).
  apply bridge_loop_ok in Hb as (Hf' & Ht & Hbr); [|done]. cbn in Ht, Hbr. rewrite Hj in Ht.
  assert (Hloop : splice_loop splice_start splice = Some (Ok s')).
  { unfold open_stream in Ho. destruct (ss_in_time setup); [|done]. unfold open_stream_inner in Ho.
    destruct (negb (ss_request setup)); [done|]. destruct (ss_sent setup); [|done]. destruct (ss_answer setup) as [[status|]|]; try done.
    destruct (negb _); [done|]. by destruct (negb _). }
  apply splice_loop_ok in Hloop as (Hf2 & Hr2 & Hl2); [|constructor]. cbn in Hr2, Hl2.
  split; [|split_and!; [congruence|done..]]. exists taken, rest. split; [done|]. by rewrite Hl2, Hup, Ht.
Qed.
