(* ===== verification/BrokerRelay.v ===== *)
(** * The Broker client against the control API

    [relay_broker] connects the Broker's calls to the handlers of the control
    API: what an answer means for the relay's database, and which refusals a
    well-formed call can meet. *)

From Stdlib Require Import Ascii String Strings.Byte.
From stdpp Require Import base strings list gmap.
From S2P Require Import Prelude Protocol Db Witness Store StoreCredentials StoreChallenges StoreLifecycle StoreHistory.
From S2P Require Import ReceiptSigner ControlApi AdminClient BrokerClient.

Section relay.
Context {St3 : S3} {Cr : Crypto} {Sg : Signing} {Sd : Serde} {B32 : Base32} {HX : Hex} {Pem : PemParser}.
Context (uuid_parse_str : string -> option Uuid) (st : AppState).

Definition relay_broker (e : ApiEnv) (clock : nat -> Z) (uuid : nat -> Uuid) : Broker (nat * Api) := {|
  br_post request s :=
    match handle uuid_parse_str st request e s with
    | (Ok response, s') => (Ok response, s')
    | (Err err, s') => (Err (StatusCode (e_status err)), s')
    end;
  br_now s := (clock s.1, (S s.1, s.2));
  br_uuid s := (uuid s.1, (S s.1, s.2))
|}.

Lemma br_bind_ok {T A B} (m : BrM (S := T) A) (f : A -> BrM B) s x s' :
  (m ≫= f) s = (Ok x, s') -> exists a s1, m s = (Ok a, s1) /\ f a s1 = (Ok x, s').
Proof. unfold mbind, br_bind. destruct (m s) as [[a|] s1]; [|done]. eauto. Qed.

Lemma br_lift_ok {T A} (r : result ClientError A) (s : T) a s' : br_lift r s = (Ok a, s') -> r = Ok a /\ s' = s.
Proof. unfold br_lift. by intros [= -> ->]. Qed.

Lemma ap_bind_ok {A B} (m : ApM A) (f : A -> ApM B) e s b s' :
  (m ≫= f) e s = (Ok b, s') -> exists a s1, m e s = (Ok a, s1) /\ f a e s1 = (Ok b, s').
Proof. unfold mbind, ap_bind. destruct (m e s) as [[a|] s1]; [|done]. eauto. Qed.

Lemma query_ok {A} err (f : Z -> Db -> result StoreError A) e n s a n' s' :
  query err f e (n, s) = (Ok a, (n', s')) -> f (p_now s') (api_db s') = Ok a.
Proof.
  unfold query. cbn [fst snd]. destruct (n_fault e n); [done|]. intros Hq. injection Hq as Hq _ <-.
  by destruct (f (p_now (n_others e n s)) (api_db (n_others e n s))); [injection Hq as ->|].
Qed.

(** A call through the relay that was answered. *)
Lemma call_answered e clock uuid pem request n s response n' s' :
  call (relay_broker e clock uuid) pem request (n, s) = (Ok response, (n', s')) ->
  handle uuid_parse_str st request e (n, s) = (Ok response, (n', s')).
Proof.
  unfold call. intros (roots & s1 & [_ ->]%br_lift_ok & Hs)%br_bind_ok. unfold br_send in Hs. cbn [br_post relay_broker] in Hs.
  destruct (handle uuid_parse_str st request e (n, s)) as [[resp|err] s2]; cbn in Hs; [|done]. by injection Hs as -> ->.
Qed.

(** A challenge value the Broker is told is ready is published. When
    [ready] answers yes for a value at a revision, the credential it read is
    the current DNS bearer of an installation that is ready, and at the
    relay's answer the value is live, the whole challenge set of the
    installation was observed in DNS at its current revision, and that
    revision is at least the one asked for. *)
Theorem challenge_ready_is_published e clock uuid files c txt revision n s n' s' :
  ready (relay_broker e clock uuid) files c txt revision (n, s) = (Ok true, (n', s')) ->
  let id := dc_installation_id c in
  (exists token s1 generation, read_credential (files (dc_credential_path c)) = Ok token /\
     authenticate_bearer_with_state (p_now s1) id "dns_challenge" token (api_db s1) = Some (generation, DnsReady)) /\
  is_live (p_now s') id txt (api_db s') = true /\
  exists row, d_challenge_state (api_db s') !! id = Some row /\ s_ready_revision row = Some (s_revision row) /\
    revision <= s_revision row.
Proof.
  intros Hr id. unfold ready in Hr. apply br_bind_ok in Hr as (u & s0 & [_ ->]%br_lift_ok & Hr).
  apply br_bind_ok in Hr as (response & [n1 s1] & Hreq & [Hresp [= -> ->]]%br_lift_ok).
  apply br_bind_ok in Hreq as (token & s2 & [Htoken ->]%br_lift_ok & Hcall). apply call_answered in Hcall.
  cbn [handle] in Hcall. apply ap_bind_ok in Hcall as (status & [n3 s3] & Hh & Hret). injection Hret as <- -> ->.
  unfold dns_challenge_ready in Hh. apply ap_bind_ok in Hh as (g & [n4 s4] & Hauth & Hh).
  apply ap_bind_ok in Hh as (b & [n5 s5] & Hq & Hret). injection Hret as <- -> ->. apply query_ok in Hq.
  assert (b = true) as -> by (by destruct b). fold id in Hq. split.
  - unfold authenticate_dns in Hauth. apply ap_bind_ok in Hauth as (bearer & s6 & Hb & Hauth).
    unfold ap_some, ap_lift in Hb. apply pair_inj in Hb as [Hb <-]. apply ok_or_ok in Hb.
    assert (bearer = token) as ->.
    { unfold bearer_header, authorization in Hb. cbn [hm_authorization mbind option_bind] in Hb.
      apply strip_prefix_Some in Hb. by apply str_app_inj_l in Hb. }
    apply ap_bind_ok in Hauth as (found & [n7 s7] & Hfound & Hauth). apply query_ok in Hfound. injection Hfound as Hfound.
    apply ap_bind_ok in Hauth as (observed & s8 & Ho & _). unfold ap_lift in Ho. injection Ho as Ho _.
    destruct found as [[g' []]|]; try done. exists token, s7, g'. split; [done|]. by fold id in Hfound.
  - unfold challenge_value_ready in Hq. destruct (i64_max <? revision); [done|]. injection Hq as Hq.
    destruct (d_challenge_state _ !! id) as [row|]; [|done]. to_prop. split; [tauto|]. exists row. tauto.
Qed.

Lemma br_bind_err {T A B} (m : BrM (S := T) A) (f : A -> BrM B) s err s' :
  (m ≫= f) s = (Err err, s') -> m s = (Err err, s') \/ exists a s1, m s = (Ok a, s1) /\ f a s1 = (Err err, s').
Proof. unfold mbind, br_bind. destruct (m s) as [[a|] s1]; [right; eauto|]. intros [= -> ->]. by left. Qed.

Lemma ap_bind_err {A B} (m : ApM A) (f : A -> ApM B) e s err s' :
  (m ≫= f) e s = (Err err, s') -> m e s = (Err err, s') \/ exists a s1, m e s = (Ok a, s1) /\ f a e s1 = (Err err, s').
Proof. unfold mbind, ap_bind. destruct (m e s) as [[a|] s1]; [right; eauto|]. intros [= -> ->]. by left. Qed.

(** The refusals of a store transaction. *)
Lemma transact_err {A} on_error r (f : AckEnv -> Z -> World -> result StoreError A * World) e s err s' :
  transact on_error r f e s = (Err err, s') -> exists e0, err = on_error e0.
Proof.
  unfold transact. destruct (n_fault e s.1) as [[]|]; [intros [= <- _]; by eexists| |];
    destruct (f _ _ _) as [[a|e0] w]; intros [= <- _]; by eexists.
Qed.

Lemma uuid_text_length u : str_len (uuid_to_string u) = 36.
Proof.
  unfold uuid_to_string. rewrite str_len_bytes, str_bytes_string.
  assert (List.length (str_bytes (hex_encode (uuid_bytes u))) = 32%nat) as Hl.
  { apply Nat2Z.inj. rewrite <- str_len_bytes, length_hex_encode. unfold uuid_bytes. by rewrite length_be_bytes. }
  rewrite !length_app, !length_take, !length_drop, Hl. done.
Qed.

Context {ShaL : Sha256Length} (hex_roundtrip : forall bytes, hex_decode (hex_encode bytes) = Some bytes).

Lemma renew_refusal headers request token e n s err s' :
  rn_version request = WIRE_VERSION -> renewable_scope (rn_scope request) = true ->
  (forall k, n_clock e k < rn_expires_at_ms request <= u64_saturating_add (n_clock e k) 60000) ->
  16 <= str_len (rn_nonce request) <= 128 -> bearer_header headers = Some token ->
  (exists bytes, rn_new_token_sha256 request = sha256_hex bytes) ->
  renew_credential st headers request e (n, s) = (Err err, s') -> exists e0, err = renew_error e0.
Proof.
  intros Hv Hsc Hex Hn Hb [bytes Hd]. unfold renew_credential. rewrite Hv, Z.eqb_refl, Hb, Hd. cbn [negb].
  unfold digest_of_hex, sha256_hex. rewrite hex_roundtrip. cbn [ok_or mbind result_bind]. rewrite bool_decide_true by apply sha256_length.
  destruct (rn_scope request); try done; cbn [bearer_scope_of];
    unfold mbind at 1 2 3 4 5 6 7 8 9, ap_bind at 1 2 3 4 5 6 7 8 9, ap_reject, ap_some, ap_lift, now_ms; cbn [ok_or fst snd];
    rewrite (proj2 (Z.leb_gt _ _)) by apply Hex; rewrite (proj2 (Z.ltb_ge _ _)) by apply Hex;
    rewrite !(proj2 (Z.ltb_ge _ _)) by lia; cbn [orb];
    (intros [Hrun|(a & s1 & _ & Hret)]%ap_bind_err; [by apply transact_err in Hrun|done]).
Qed.

Lemma pinned_roots_err pem err : pinned_roots pem = Err err -> err = InvalidConfiguration.
Proof.
  unfold pinned_roots. assert (Hc : forall items roots err, collect_roots items roots = Err err -> err = InvalidConfiguration).
  { induction items as [|[der| |] items IH]; cbn; intros roots err'; [done|apply IH|congruence|congruence]. }
  destruct (collect_roots (parse_pem pem) []) as [roots|e] eqn:Hr; cbn; [destruct (Nat.eqb _ _); congruence|].
  intros [= <-]. by eapply Hc.
Qed.

(** A renewal the Broker sends is never malformed. When the clocks of the
    Broker and the relay differ by less than half a minute, the relay refuses
    a renewal of [renew_scoped_credential] only for its credential or its
    operation (401 or 409) or because it cannot serve it (503), never as an
    invalid request. *)
Theorem renewal_never_malformed e clock uuid pem id scope generation file token op n s status s' :
  (forall k m, n_clock e k < clock m + 30000 <= n_clock e k + 60000) -> (forall k, 0 <= n_clock e k <= u64_max - 60000) ->
  renew_scoped_credential (relay_broker e clock uuid) pem id scope generation file token op (n, s) = (Err (Refused status), s') ->
  status = 401 \/ status = 409 \/ status = 503.
Proof.
  intros Hclock Hrange Hr. unfold renew_scoped_credential in Hr.
  apply br_bind_err in Hr as [Hr|([] & s1 & Hrej & Hr)]; [unfold br_reject, br_lift in Hr; by destruct (_ || _ || _ || _) in Hr|].
  unfold br_reject, br_lift in Hrej. destruct (_ || _ || _ || _) eqn:Hbad in Hrej; [done|]. injection Hrej as <-. to_prop.
  apply br_bind_err in Hr as [Hr|([] & s1 & [_ ->]%br_lift_ok & Hr)];
    [unfold br_lift, validate_token in Hr; by destruct (_ || _ || _) in Hr|].
  apply br_bind_err in Hr as [Hr|(current & s1 & [_ ->]%br_lift_ok & Hr)].
  { unfold br_lift, read_credential in Hr. destruct file as [file|]; [|done]. cbn in Hr.
    destruct (_ || _) in Hr; [done|]. destruct (negb _) in Hr; [done|]. destruct (sf_content file); [|done]. cbn in Hr.
    by destruct (_ || _ || _) in Hr. }
  apply br_bind_err in Hr as [Hr|(nonce & s1 & Hf & Hr)]; [done|]. injection Hf as <- <-.
  apply br_bind_err in Hr as [Hr|(now & s1 & Hnow & Hr)]; [done|]. injection Hnow as <- <-. cbn [fst snd] in Hr.
  apply br_bind_err in Hr as [Hr|(response & s1 & _ & Hr)].
  2: { apply br_bind_err in Hr as [Hr|(receipt & s2 & _ & Hr)]; [unfold br_lift in Hr; by destruct response|].
       apply br_bind_err in Hr as [Hr|(t & s3 & _ & Hr)]; [done|].
       apply br_bind_err in Hr as [Hr|([] & s4 & _ & Hr)]; [unfold br_reject, br_lift in Hr; by destruct (_ || _ || _ || _ || _) in Hr|done]. }
  unfold call in Hr. apply br_bind_err in Hr as [Hr|(roots & s1 & [_ ->]%br_lift_ok & Hr)].
  { unfold br_lift in Hr. injection Hr as Hr _. by apply pinned_roots_err in Hr. }
  unfold br_send in Hr. cbn [br_post relay_broker] in Hr. destruct (handle _ _ _ e _) as [[resp|err] s2] eqn:Hh; [done|].
  cbn in Hr. injection Hr as <- <-. cbn [handle] in Hh. apply ap_bind_err in Hh as [Hh|(receipt & s3 & _ & Hh)]; [|done].
  eapply renew_refusal in Hh as [e0 ->].
  - destruct e0; cbn; auto.
  - done.
  - cbn. by destruct scope.
  - cbn. intros k. unfold u64_saturating_add. pose proof (Hclock k (S n)). pose proof (Hrange k). lia.
  - cbn [rn_nonce]. rewrite uuid_text_length. lia.
  - by apply (strip_prefix_Some "Bearer " ("Bearer " +:+ current) current).
  - by eexists.
Qed.
End relay.
