(* ===== verification/BrokerWitnesses.v ===== *)
(** * Runs of the Broker client

    A stream from the gateway's OPEN to the CONNECT it accepts, bytes through
    both ends, and calls to the control API. *)

From Stdlib Require Import Ascii String Strings.Byte.
From stdpp Require Import base strings list gmap.
From S2P Require Import Prelude Protocol Db Witness Store StoreCredentials StoreChallenges StoreLifecycle StoreHistory.
From S2P Require Import StoreSamples ClientAddr Ingress Gateway GatewayWitnesses ReceiptSigner ControlApi ControlWitnesses.
From S2P Require Import AdminClient BrokerClient BrokerProperties BrokerRelay.

(** The line of one byte is the OPEN of the sample's ticket. *)
Definition open_event : TunnelEvent := Open WIRE_VERSION "key-1" 77%N sample_hostname 5 10000.
#[local] Instance broker_serde : Serde :=
  {| jcs_to_vec := fun _ => None; event_from_slice := fun line => if decide (line = [Byte.x4f]) then Some open_event else None |}.

Definition broker_config : TunnelConfig :=
  {| tc_gateway := (V4 3221225985, 443); tc_control_server_name := "relay-control.bloom.directory"; tc_hostname := sample_hostname;
     tc_installation_id := inst; tc_credential_path := "/protected/token" |}.
Definition broker : TunnelClient := {| tl_config := broker_config; tl_upstream := CEREMONY_UPSTREAM |}.
Definition secret (content : string) : SecretFile :=
  {| sf_is_file := true; sf_len := str_len content; sf_mode := 384; sf_content := Some content |}.
Definition tunnel_setup : TunnelSetup :=
  {| su_file := Some (secret token_a); su_tcp := true; su_server_name := true; su_tls := true; su_h2 := true; su_request := true;
     su_sent := true; su_status := Some 200 |}.
Definition open_frames : list LoopEvent := frames (fun _ => 0) [[Byte.x4f]; [NEWLINE]].

Lemma broker_new : tunnel_new broker_config CEREMONY_UPSTREAM = Ok broker.
Proof. vm_compute. reflexivity. Qed.

Local Abbreviation broker_run := (run_until_ready broker tunnel_setup open_frames).

Lemma broker_streams_confined_witness :
  List.length (tr_started broker_run.2.2) = 1%nat /\
  Forall (fun task => sk_upstream task = CEREMONY_UPSTREAM) (tr_started broker_run.2.2).
Proof.
  split; [vm_compute; reflexivity|].
  destruct (broker_streams_confined broker_config CEREMONY_UPSTREAM broker tunnel_setup open_frames broker_run.1 broker_run.2.1 broker_run.2.2)
    as (_ & _ & _ & _ & _ & Hall).
  - exact broker_new.
  - destruct broker_run as [h [res r]]. reflexivity.
  - exact (Forall_impl _ _ _ Hall (fun task Ht => proj1 Ht)).
Defined.

(** ** A stream of the sample tunnel *)
Definition parse_inst (s : string) : option Uuid := if decide (s = uuid_to_string inst) then Some inst else None.
Lemma parse_inst_inst : parse_inst (uuid_to_string inst) = Some inst.
Proof. unfold parse_inst. by rewrite decide_True. Qed.

Lemma alone_serves : serves "gw-1" alone sample_hostname token_a inst 5.
Proof.
  split.
  - intros n g Hg. exact Hg.
  - intros key r n g _ Ht. exact Ht.
  - intros n. reflexivity.
  - intros n. reflexivity.
Qed.

Lemma sample_serving : tunnel_serving "gw-1" sample_hostname token_a inst 5 with_tunnel.
Proof.
  split.
  - assert (bool_decide (hostname_of inst (g_db with_tunnel) = Some sample_hostname) = true) as Hb by (vm_compute; reflexivity).
    exact (proj1 (bool_decide_eq_true _) Hb).
  - assert (bool_decide (is_Some (authenticate_bearer (g_now with_tunnel) inst "tunnel" token_a (g_db with_tunnel))) = true) as Hb
      by (vm_compute; reflexivity).
    exact (proj1 (bool_decide_eq_true _) Hb).
  - vm_compute. reflexivity.
  - vm_compute. reflexivity.
Qed.

Definition idle_run : TunnelRun := with_ready true not_ready.


(** ** Bytes *)
Definition stream_setup : StreamSetup :=
  {| ss_request := true; ss_sent := Ok tt; ss_answer := Some (Ok 200); ss_local := true; ss_in_time := true |}.
Definition stream_events : list SpliceEvent :=
  [RemoteData [Byte.x16; Byte.x03; Byte.x01] true true; RemoteData [Byte.x17; Byte.x18] true true; LocalRead [Byte.x02] [5];
   RemoteEnd true; LocalEof true].

Lemma browser_reaches_broker_unchanged_witness : exists b' s',
  bridge_loop sample_bridge sample_events = Some (Ok b') /\ open_stream stream_setup stream_events = Some (Ok s') /\
  concat (br_to_browser b') = local_bytes stream_events.
Proof.
  eexists _, _. split; [vm_compute; reflexivity|]. split; [vm_compute; reflexivity|].
  refine (proj1 (proj2 (browser_reaches_broker_unchanged sample_accept sample_reads sample_host [Byte.x16; Byte.x03; Byte.x01] [2; 5]
    sample_bridge sample_events _ stream_setup stream_events _ _ _ _ _ _ _))); vm_compute; reflexivity.
Defined.

(** ** Calls to the control API *)
#[local] Existing Instance ConcreteS3.s3.
Import ControlConcrete.

#[local] Instance one_root : PemParser := fun _ => [PemCertificate []].

(** Pairs of lower-case digits. *)
Definition digit_value (b : byte) : Z := if u8 b <? 97 then u8 b - 48 else u8 b - 87.
Fixpoint pairs (l : list byte) : list byte :=
  match l with
  | hi :: lo :: l => byte_of_Z (16 * digit_value hi + digit_value lo) :: pairs l
  | _ => []
  end.
#[local] Instance hex_pairs : Hex := fun s => Some (pairs (str_bytes s)).

Lemma hex_pairs_roundtrip bytes : hex_decode (Hex := hex_pairs) (hex_encode bytes) = Some bytes.
Proof.
  unfold hex_decode, hex_pairs, hex_encode. rewrite str_bytes_string. f_equal.
  induction bytes as [|b bytes IH]; [reflexivity|]. rewrite bind_cons.
  assert (pairs (hex_byte b ++ (bytes ≫= hex_byte)) = b :: pairs (bytes ≫= hex_byte)) as -> by (destruct b; reflexivity).
  by rewrite IH.
Qed.

Definition challenge_client : DnsChallengeClient :=
  {| dc_installation_id := inst; dc_credential_path := "/protected/dns"; dc_control_ca_pem := [Byte.x00] |}.
Definition dns_files (path : string) : option SecretFile := Some (secret token_b).
Definition reconciled_db : Db := db_after cfg (at_second 0) (setup ++ [(at_second 6, MarkChallengeReconciled inst 1)]) empty_db.
Local Abbreviation a_broker := (relay_broker no_uuid relay_state alone_env clock_ms (fun n => N.of_nat n)).
Local Abbreviation ready_run := (ready a_broker dns_files challenge_client txt_value 1 (0%nat, state_of reconciled_db)).

Lemma challenge_ready_is_published_witness :
  ready_run.1 = Ok true /\ is_live (p_now ready_run.2.2) inst txt_value (api_db ready_run.2.2) = true.
Proof.
  assert (ready_run.1 = Ok true) as Hok by (vm_compute; reflexivity). split; [exact Hok|].
  refine (proj1 (proj2 (challenge_ready_is_published no_uuid relay_state alone_env clock_ms (fun n => N.of_nat n) dns_files challenge_client
    txt_value 1 0 (state_of reconciled_db) ready_run.2.1 ready_run.2.2 (run_pieces _ _ Hok)))).
Defined.

(** A renewal with a token that is not the credential. *)
Local Abbreviation renew_run :=
  (renew_scoped_credential a_broker [Byte.x00] inst ScopeTunnel 3 (Some (secret token_c)) token_b 41%N (0%nat, state_of db_setup)).

Lemma renewal_never_malformed_witness : exists status,
  renew_run.1 = Err (Refused status) /\ (status = 401 \/ status = 409 \/ status = 503).
Proof.
  exists 401. assert (renew_run.1 = Err (Refused 401)) as Hr by (vm_compute; reflexivity). split; [exact Hr|].
  refine (renewal_never_malformed no_uuid relay_state hex_pairs_roundtrip alone_env clock_ms (fun n => N.of_nat n) [Byte.x00] inst ScopeTunnel 3
    (Some (secret token_c)) token_b 41%N 0 (state_of db_setup) 401 renew_run.2 _ _ _).
  - intros k m. change (n_clock alone_env k) with 1700000007000. change (clock_ms m) with 1700000007000. lia.
  - intros k. change (n_clock alone_env k) with 1700000007000. unfold u64_max. lia.
  - rewrite <- Hr. apply surjective_pairing.
Defined.
