(* ===== verification/Operations.v ===== *)
(** * Operator tools and diagnostics

    crates/bloom-relay-store/src/bin/bloom-relay-migrate.rs and
    bloom-relay-relocate.rs, and the listeners of
    crates/bloom-relay-observe/src/lib.rs. Starting a store connection is that
    of the store; sockets and the metrics exporter are parameters. *)

From Stdlib Require Import Ascii String.
From stdpp Require Import base strings list gmap.
From S2P Require Import Prelude Protocol Db Witness Store StoreLifecycle StoreHistory StoreInvariant ClientAddr Dns IpText.

(** ** Diagnostics *)
Inductive ObserveError := BindUnset | BindUnparsed | BindNotLoopback | SameListener | ListenerFailed.

Definition private_bind (value : string) : result ObserveError SocketAddr :=
  bind ← ok_or BindUnparsed (parse_socket_addr value);
  if negb (is_loopback bind.1) then Err BindNotLoopback else Ok bind.

(** [install]: the two variables, whether the listeners could be opened, and
    the readiness flag, which starts cleared. *)
Definition install_on (bind health_bind : SocketAddr) (opened : bool) : result ObserveError (SocketAddr * SocketAddr * bool) :=
  if bool_decide (bind = health_bind) then Err SameListener
  else if opened then Ok (bind, health_bind, false) else Err ListenerFailed.
Definition install (metrics health : EnvVar) (opened : bool) : result ObserveError (SocketAddr * SocketAddr * bool) :=
  metrics ← ok_or BindUnset (env_value metrics);
  bind ← private_bind metrics;
  health ← ok_or BindUnset (env_value health);
  health_bind ← private_bind health;
  install_on bind health_bind opened.

(** [HealthHandle::set_ready] stores the flag the listener reads. *)
Definition health_set_ready (ready : bool) (_ : bool) : bool := ready.

Definition health_status (path : string) (ready : bool) : Z :=
  if bool_decide (path = "/health/live"%string) then 200
  else if bool_decide (path = "/health/ready"%string) then (if ready then 200 else 503)
  else 404.

(** Diagnostics never listen off the host, and never on one address. *)
Lemma install_private metrics health opened bind health_bind ready :
  install metrics health opened = Ok (bind, health_bind, ready) ->
  is_loopback bind.1 = true /\ is_loopback health_bind.1 = true /\ bind <> health_bind /\ ready = false.
Proof.
  unfold install. intros Hi. apply bind_ok in Hi as (m & _ & Hi). apply bind_ok in Hi as (b & Hb & Hi).
  apply bind_ok in Hi as (h & _ & Hi). apply bind_ok in Hi as (hb & Hhb & Hi).
  assert (forall v a, private_bind v = Ok a -> is_loopback a.1 = true) as Hloop.
  { intros v a Ha. apply bind_ok in Ha as (a' & _ & Ha). by destruct (is_loopback a'.1) eqn:?; [injection Ha as <-|]. }
  apply Hloop in Hb, Hhb. unfold install_on in Hi. case_bool_decide; [done|]. destruct opened; [|done]. by injection Hi as <- <- <-.
Qed.

(** ** Tools *)
Inductive ToolError := Usage | MissingEnvironment | ToolStore (e : StoreError).

Section tools.
Context `{S3} `{Crypto} (uuid_parse_str : string -> option Uuid).

(** The environment of a tool: the variables, the database and the witness it
    finds at its path, and the witness during the two acknowledgements. *)
Record ToolEnv := { tv_url : option string; tv_path : option string; tv_now : Z; tv_ack : nat -> AckEnv }.

Definition migrate_main (v : ToolEnv) (d : Db) (ws : WitnessState) : result ToolError unit * World :=
  let w := {| w_db := d; w_witness := Some ws |} in
  match tv_url v, tv_path v with
  | Some _, Some _ => let (r, w') := connect_with_witness (tv_ack v 0) d ws in (map_err ToolStore r, w')
  | _, _ => (Err MissingEnvironment, w)
  end.

Definition relocate_main (args : list string) (v : ToolEnv) (d : Db) (ws : WitnessState) : result ToolError unit * World :=
  let w := {| w_db := d; w_witness := Some ws |} in
  match args with
  | [id; op; placement] =>
      match uuid_parse_str id, uuid_parse_str op with
      | Some id, Some op =>
          match tv_path v, tv_url v with
          | Some _, Some _ =>
              match connect_with_witness (tv_ack v 0) d ws with
              | (Ok _, w1) => let (r, w2) := run_tx (tv_ack v 1) (relocate_tx (tv_now v) id op placement) w1 in (map_err ToolStore r, w2)
              | (Err e, w1) => (Err (ToolStore e), w1)
              end
          | _, _ => (Err MissingEnvironment, w)
          end
      | _, _ => (Err Usage, w)
      end
  | _ => (Err Usage, w)
  end.

(** The relocation tool runs the one store request it names, and only on a
    database its witness accepts. *)
Lemma relocate_main_request cfg args v d ws r w' `{Base32} :
  relocate_main args v d ws = (r, w') ->
  w_db w' = d \/ exists id op placement, is_ok (connect_with_witness (tv_ack v 0) d ws).1 = true /\
    exec cfg (tv_now v) (Relocate id op placement) d = Ok (tt, w_db w').
Proof.
  unfold relocate_main. destruct args as [|id [|op [|placement []]]]; try (intros [= _ <-]; by left).
  destruct (uuid_parse_str id) as [i|], (uuid_parse_str op) as [o|]; try (intros [= _ <-]; by left).
  destruct (tv_path v), (tv_url v); try (intros [= _ <-]; by left).
  destruct (connect_with_witness (tv_ack v 0) d ws) as [[u|] w1] eqn:Hc; apply acknowledge_db in Hc as Hdb; cbn in Hdb.
  2: { intros [= _ <-]. by left. }
  destruct (run_tx _ _ w1) as [r2 w2] eqn:Hrun. intros [= _ <-]. apply run_tx_db in Hrun as [->|[a Ha]]; [left; done|].
  right. exists i, o, placement. split; [done|]. rewrite Hdb in Ha. by destruct a.
Qed.
End tools.
