(* ===== verification/GatewayServer.v ===== *)
(** * The gateway's server: [main] of crates/bloom-relay/src/main.rs

    The accept loop with its slots and quota, and the drain after a shutdown.
    A connection is a task of a join set: it runs until it ends by itself or
    is aborted, gives its slot back when it ends, and stays in the set until
    it is joined. Readiness of a listener, the ends of tasks and signals are
    the events of a run, in the order the runtime sees them. *)

From Stdlib Require Import Ascii String Strings.Byte.
From stdpp Require Import base strings list gmap.
From S2P Require Import Prelude Protocol Db Ingress.

Inductive Kind := ControlTask | BrowserTask.
Definition kind_eqb (a b : Kind) : bool :=
  match a, b with ControlTask, ControlTask | BrowserTask, BrowserTask => true | _, _ => false end.

(** How a task ends. *)
Inductive TaskEnd := Returned (failed : bool) | Panicked.

(** A task of the join set. *)
Inductive TaskState := Running (kind : Kind) | Ended (how : TaskEnd).

(** The state of [main]. [sv_started] is auxiliary: the browser connections
    that were given a task, with their times. *)
Record Server := {
  sv_control_slots : Z;
  sv_ingress_slots : Z;
  sv_quota : IngressQuota;
  sv_connections : gmap N TaskState;
  sv_next : N;
  sv_ready : bool;
  sv_counts : list string;
  sv_gauges : list (string * Z);
  sv_started : list (IpAddr * Z)
}.

Definition CONTROL_SLOTS : Z := 512.

(** The state in which the loop starts. *)
Definition server_start (now : Z) : Server :=
  {| sv_control_slots := CONTROL_SLOTS; sv_ingress_slots := ingress_slots; sv_quota := ingress_quota_new now; sv_connections := ∅;
     sv_next := 0; sv_ready := true; sv_counts := []; sv_gauges := []; sv_started := [] |}.

Definition count_metric (name : string) (s : Server) : Server :=
  {| sv_control_slots := sv_control_slots s; sv_ingress_slots := sv_ingress_slots s; sv_quota := sv_quota s;
     sv_connections := sv_connections s; sv_next := sv_next s; sv_ready := sv_ready s; sv_counts := sv_counts s ++ [name];
     sv_gauges := sv_gauges s; sv_started := sv_started s |}.
Definition set_gauges (gauges : list (string * Z)) (s : Server) : Server :=
  {| sv_control_slots := sv_control_slots s; sv_ingress_slots := sv_ingress_slots s; sv_quota := sv_quota s;
     sv_connections := sv_connections s; sv_next := sv_next s; sv_ready := sv_ready s; sv_counts := sv_counts s;
     sv_gauges := sv_gauges s ++ gauges; sv_started := sv_started s |}.
Definition set_ready (ready : bool) (s : Server) : Server :=
  {| sv_control_slots := sv_control_slots s; sv_ingress_slots := sv_ingress_slots s; sv_quota := sv_quota s;
     sv_connections := sv_connections s; sv_next := sv_next s; sv_ready := ready; sv_counts := sv_counts s;
     sv_gauges := sv_gauges s; sv_started := sv_started s |}.
Definition set_quota (q : IngressQuota) (s : Server) : Server :=
  {| sv_control_slots := sv_control_slots s; sv_ingress_slots := sv_ingress_slots s; sv_quota := q;
     sv_connections := sv_connections s; sv_next := sv_next s; sv_ready := sv_ready s; sv_counts := sv_counts s;
     sv_gauges := sv_gauges s; sv_started := sv_started s |}.
Definition set_connections (m : gmap N TaskState) (s : Server) : Server :=
  {| sv_control_slots := sv_control_slots s; sv_ingress_slots := sv_ingress_slots s; sv_quota := sv_quota s;
     sv_connections := m; sv_next := sv_next s; sv_ready := sv_ready s; sv_counts := sv_counts s;
     sv_gauges := sv_gauges s; sv_started := sv_started s |}.
Definition slots (kind : Kind) (s : Server) : Z :=
  match kind with ControlTask => sv_control_slots s | BrowserTask => sv_ingress_slots s end.
Definition set_server_slots (kind : Kind) (n : Z) (s : Server) : Server :=
  {| sv_control_slots := match kind with ControlTask => n | BrowserTask => sv_control_slots s end;
     sv_ingress_slots := match kind with BrowserTask => n | ControlTask => sv_ingress_slots s end; sv_quota := sv_quota s;
     sv_connections := sv_connections s; sv_next := sv_next s; sv_ready := sv_ready s; sv_counts := sv_counts s;
     sv_gauges := sv_gauges s; sv_started := sv_started s |}.

(** [connections.spawn] of a task that holds a permit. *)
Definition spawn (kind : Kind) (browser : list (IpAddr * Z)) (s : Server) : Server :=
  {| sv_control_slots := sv_control_slots s; sv_ingress_slots := sv_ingress_slots s; sv_quota := sv_quota s;
     sv_connections := <[sv_next s := Running kind]> (sv_connections s); sv_next := N.succ (sv_next s); sv_ready := sv_ready s;
     sv_counts := sv_counts s; sv_gauges := sv_gauges s; sv_started := sv_started s ++ browser |}.

(** ** The accept loop *)
Inductive ServerEvent :=
| TaskEnds (id : N) (how : TaskEnd)
| Telemetry (tunnels available : Z)
| ControlAccepted (ok : bool)
| IngressAccepted (peer : option IpAddr) (now : Z)
| Joined (id : N)
| ShutdownSignal.

Definition failed_metric (kind : Kind) : string :=
  match kind with
  | ControlTask => "bloom_relay_control_connection_failed_total"
  | BrowserTask => "bloom_relay_browser_connection_failed_total"
  end.

(** The end of a task: an error of the connection is counted, and the permit
    is dropped. *)
Definition task_ends (id : N) (how : TaskEnd) (s : Server) : Server :=
  match sv_connections s !! id with
  | Some (Running kind) =>
      let s := match how with Returned true => count_metric (failed_metric kind) s | _ => s end in
      set_connections (<[id := Ended how]> (sv_connections s)) (set_server_slots kind (slots kind s + 1) s)
  | _ => s
  end.

(** [connections.join_next()]: a task is joined, and leaves the set, once it
    has ended. *)
Definition join (id : N) (s : Server) : Server :=
  match sv_connections s !! id with
  | Some (Ended _) => set_connections (delete id (sv_connections s)) s
  | _ => s
  end.

(** The branch of the loop that reaps a task counts a failed join. *)
Definition join_next (id : N) (s : Server) : Server :=
  match sv_connections s !! id with
  | Some (Ended Panicked) => count_metric "bloom_relay_connection_task_failed_total" (join id s)
  | _ => join id s
  end.

Definition accept_control (s : Server) : Server :=
  match admit_connection (sv_control_slots s) with
  | None => s
  | Some free => spawn ControlTask [] (set_server_slots ControlTask free s)
  end.

Definition accept_ingress (peer : IpAddr) (now : Z) (s : Server) : Server :=
  let (allowed, q) := allow_at peer now (sv_quota s) in
  let s := set_quota q s in
  if negb allowed then count_metric "bloom_relay_ingress_quota_rejected_total" s
  else
    match admit_connection (sv_ingress_slots s) with
    | None => count_metric "bloom_relay_ingress_capacity_rejected_total" s
    | Some free =>
        spawn BrowserTask [(peer, now)]
          (count_metric "bloom_relay_ingress_accepted_total" (set_server_slots BrowserTask free s))
    end.

Definition telemetry (tunnels available : Z) (s : Server) : Server :=
  set_gauges [("bloom_relay_live_tunnels"%string, tunnels); ("bloom_relay_live_streams"%string, ingress_slots - available)] s.

(** How the loop is left: by a signal, or by an error of a listener. *)
Inductive LoopEnd := Stopped | ListenerBroke.

Definition server_turn (ev : ServerEvent) (s : Server) : option LoopEnd * Server :=
  match ev with
  | TaskEnds id how => (None, task_ends id how s)
  | Telemetry tunnels available => (None, telemetry tunnels available s)
  | ControlAccepted ok => if ok then (None, accept_control s) else (Some ListenerBroke, s)
  | IngressAccepted (Some peer) now => (None, accept_ingress peer now s)
  | IngressAccepted None _ => (Some ListenerBroke, s)
  | Joined id => (None, join_next id s)
  | ShutdownSignal => (Some Stopped, s)
  end.

(** The loop on the events of a run: how it was left, and the events that
    come after; [None] while it still runs. *)
Fixpoint accept_loop (events : list ServerEvent) (s : Server) : option (LoopEnd * list ServerEvent) * Server :=
  match events with
  | [] => (None, s)
  | ev :: rest =>
      match server_turn ev s with
      | (Some how, s') => (Some (how, rest), s')
      | (None, s') => accept_loop rest s'
      end
  end.

(** ** The drain *)
(** Half a minute of joins: of the events only the ends of tasks and the joins
    matter, since the listeners are closed. *)
Fixpoint drain_joins (events : list ServerEvent) (s : Server) : Server :=
  if bool_decide (sv_connections s = ∅) then s
  else
    match events with
    | [] => s
    | TaskEnds id how :: rest => drain_joins rest (task_ends id how s)
    | Joined id :: rest => drain_joins rest (join id s)
    | _ :: rest => drain_joins rest s
    end.

(** [abort_all]: every task that still runs is dropped, and its permit. *)
Definition runs (kind : Kind) (t : TaskState) : bool := match t with Running k => kind_eqb k kind | Ended _ => false end.
Definition running (kind : Kind) (m : gmap N TaskState) : gmap N TaskState := filter (fun kv => runs kind kv.2 = true) m.
Definition abort_all (s : Server) : Server :=
  let free kind := slots kind s + Z.of_nat (size (running kind (sv_connections s))) in
  set_connections ((fun t => match t with Running _ => Ended Panicked | t => t end) <$> sv_connections s)
    (set_server_slots ControlTask (free ControlTask) (set_server_slots BrowserTask (free BrowserTask) s)).
(** [while connections.join_next().await.is_some() {}] joins the tasks one by
    one. *)
Definition join_all (s : Server) : Server := foldr join s (map fst (map_to_list (sv_connections s))).
(** Dropping the join set aborts its tasks and forgets them. *)
Definition drop_tasks (s : Server) : Server := set_connections ∅ (abort_all s).

Definition drain (events : list ServerEvent) (s : Server) : Server :=
  let s := drain_joins events (set_ready false s) in
  if bool_decide (sv_connections s = ∅) then s else join_all (abort_all s).

(** [main] from the loop on: [None] while it runs; an error of a listener
    leaves it at once, and dropping the join set aborts its tasks. *)
Definition server_run (events : list ServerEvent) (now : Z) : option (bool * Server) :=
  match accept_loop events (server_start now) with
  | (None, _) => None
  | (Some (ListenerBroke, _), s) => Some (false, drop_tasks s)
  | (Some (Stopped, rest), s) => Some (true, drain rest s)
  end.

(** ** Slots are never lost *)
Definition capacity (kind : Kind) : Z := match kind with ControlTask => CONTROL_SLOTS | BrowserTask => ingress_slots end.

(** Free slots and running tasks of a kind make up its capacity, and tasks are
    numbered in the order they start. *)
Record server_ok (s : Server) : Prop := {
  so_slots kind : slots kind s + Z.of_nat (size (running kind (sv_connections s))) = capacity kind;
  so_free kind : 0 <= slots kind s;
  so_next id : (sv_next s <= id)%N -> sv_connections s !! id = None
}.

Lemma running_insert kind m id t : m !! id = None ->
  Z.of_nat (size (running kind (<[id := t]> m))) = Z.of_nat (size (running kind m)) + (if runs kind t then 1 else 0).
Proof.
  intros Hid. unfold running. destruct (runs kind t) eqn:Ht.
  - rewrite map_filter_insert_True by done. rewrite map_size_insert_None; [lia|]. by apply map_lookup_filter_None_2; left.
  - rewrite map_filter_insert_not'; [lia|cbn; congruence|]. intros y. by rewrite Hid.
Qed.

(** A step changes the number of running tasks with the task it touches. *)
Lemma running_delete kind m id t : m !! id = Some t ->
  Z.of_nat (size (running kind m)) = Z.of_nat (size (running kind (delete id m))) + (if runs kind t then 1 else 0).
Proof. intros Hid. rewrite <-(running_insert kind (delete id m) id t), insert_delete_id by (done || apply lookup_delete_eq). done. Qed.

Lemma running_update kind m id t t' : m !! id = Some t ->
  Z.of_nat (size (running kind (<[id := t']> m))) + (if runs kind t then 1 else 0) =
  Z.of_nat (size (running kind m)) + (if runs kind t' then 1 else 0).
Proof.
  intros Hid. rewrite (running_delete kind m id t Hid), <-(insert_delete_eq m id t'), running_insert by apply lookup_delete_eq. lia.
Qed.

Lemma server_start_ok now : server_ok (server_start now).
Proof.
  split; [intros []| |]; cbn [slots server_start sv_connections sv_control_slots sv_ingress_slots capacity].
  - unfold running. rewrite map_filter_empty, map_size_empty. lia.
  - unfold running. rewrite map_filter_empty, map_size_empty. lia.
  - intros []; cbn; [unfold CONTROL_SLOTS; lia|]. unfold ingress_slots. vm_compute. discriminate.
  - intros id _. apply lookup_empty.
Qed.

Lemma count_ok name s : server_ok s -> server_ok (count_metric name s).
Proof. intros [Hs Hf Hn]. split; [intros k; exact (Hs k)|intros k; exact (Hf k)|done]. Qed.

Lemma spawn_ok kind browser free s : server_ok s -> admit_connection (slots kind s) = Some free ->
  server_ok (spawn kind browser (set_server_slots kind free s)).
Proof.
  intros [Hs Hf Hn]. unfold admit_connection. destruct (0 <? slots kind s) eqn:Hp; [|done]. to_prop. intros [= <-]. split.
  - intros k. specialize (Hs k) as Hk. cbn [spawn sv_connections sv_next set_server_slots].
    rewrite running_insert by (apply Hn; lia). destruct k, kind; cbn in *; lia.
  - intros k. specialize (Hf k) as Hk. destruct k, kind; cbn in *; lia.
  - intros id Hid. cbn in *. rewrite lookup_insert_ne by lia. apply Hn. lia.
Qed.

Lemma task_ends_ok id how s : server_ok s -> server_ok (task_ends id how s).
Proof.
  intros Hok. unfold task_ends. destruct (sv_connections s !! id) as [[kind|]|] eqn:Hid; [|done..].
  set (s1 := match how with Returned true => _ | _ => s end).
  assert (server_ok s1 /\ sv_connections s1 = sv_connections s) as [[Hs Hf Hn] Hc].
  { unfold s1. destruct how as [[]|]; [split; [by apply count_ok|done]|done..]. }
  clearbody s1. split.
  - intros k. specialize (Hs k). cbn [set_connections sv_connections]. pose proof (running_update k (sv_connections s1) id (Running kind) (Ended how)
      ltac:(by rewrite Hc)) as Hr. cbn [runs] in Hr. destruct k, kind; cbn in *; lia.
  - intros k. specialize (Hf k) as Hk. destruct k, kind; cbn in *; lia.
  - intros id' Hid'. cbn in *. rewrite lookup_insert_ne; [by apply Hn|]. intros <-. by rewrite <-Hc, Hn in Hid.
Qed.

Lemma join_ok id s : server_ok s -> server_ok (join id s).
Proof.
  intros [Hs Hf Hn]. unfold join. destruct (sv_connections s !! id) as [[|how]|] eqn:Hid; [done| |done].
  split; [|intros k; exact (Hf k)|].
  - intros k. specialize (Hs k). rewrite (running_delete k _ _ _ Hid) in Hs. cbn [runs] in Hs. destruct k; cbn in *; lia.
  - intros id' Hid'. cbn. rewrite lookup_delete_None. right. by apply Hn.
Qed.

(** A join touches nothing but the set of tasks. *)
Lemma join_rest id s :
  sv_ready (join id s) = sv_ready s /\ sv_next (join id s) = sv_next s /\ sv_quota (join id s) = sv_quota s /\
  sv_started (join id s) = sv_started s /\ forall kind, slots kind (join id s) = slots kind s.
Proof. unfold join. by destruct (sv_connections s !! id) as [[]|]; split_and!; try done; intros []. Qed.

Lemma join_next_ok id s : server_ok s -> server_ok (join_next id s).
Proof.
  intros Hok%(join_ok id). unfold join_next. destruct (sv_connections s !! id) as [[|[|]]|]; [done|done| |done]. by apply count_ok.
Qed.

Lemma accept_control_ok s : server_ok s -> server_ok (accept_control s).
Proof.
  intros Hok. unfold accept_control. destruct (admit_connection _) as [free|] eqn:Ha; [|done]. by apply spawn_ok.
Qed.

Lemma accept_ingress_ok peer now s : server_ok s -> server_ok (accept_ingress peer now s).
Proof.
  intros [Hs Hf Hn]. unfold accept_ingress. destruct (allow_at peer now (sv_quota s)) as [allowed q].
  assert (server_ok (set_quota q s)) as Hok by (split; [intros k; exact (Hs k)|intros k; exact (Hf k)|done]).
  destruct (negb allowed); [by apply count_ok|]. destruct (admit_connection _) as [free|] eqn:Ha; [|by apply count_ok].
  change (count_metric ?x (set_server_slots BrowserTask free ?y)) with (set_server_slots BrowserTask free (count_metric x y)).
  apply spawn_ok; [by apply count_ok|done].
Qed.

Lemma server_turn_ok ev s out s' : server_ok s -> server_turn ev s = (out, s') -> server_ok s'.
Proof.
  intros Hok. destruct ev as [id how|tunnels available|[]|[peer|] now|id|]; intros [= _ <-]; try done.
  - by apply task_ends_ok.
  - destruct Hok as [Hs Hf Hn]. split; [intros k; exact (Hs k)|intros k; exact (Hf k)|done].
  - by apply accept_control_ok.
  - by apply accept_ingress_ok.
  - by apply join_next_ok.
Qed.

Lemma accept_loop_ok events s out s' : server_ok s -> accept_loop events s = (out, s') -> server_ok s'.
Proof.
  revert s. induction events as [|ev events IH]; intros s Hok; cbn [accept_loop]; [by intros [= _ <-]|].
  destruct (server_turn ev s) as [[how|] s1] eqn:Ht; apply server_turn_ok in Ht; try done; [by intros [= _ <-]|]. by apply IH.
Qed.

(** ** What starts was admitted *)
Fixpoint arrivals (events : list ServerEvent) : list (IpAddr * Z) :=
  match events with
  | IngressAccepted (Some peer) now :: rest => (peer, now) :: arrivals rest
  | _ :: rest => arrivals rest
  | [] => []
  end.

(** Only an arrival at the ingress changes the quota or starts a browser. *)
Lemma server_turn_started ev s out s' : server_turn ev s = (out, s') ->
  match ev with
  | IngressAccepted (Some peer) now =>
      let (allowed, q) := allow_at peer now (sv_quota s) in
      sv_quota s' = q /\ (sv_started s' = sv_started s \/ allowed = true /\ sv_started s' = sv_started s ++ [(peer, now)])
  | _ => sv_quota s' = sv_quota s /\ sv_started s' = sv_started s
  end.
Proof.
  destruct ev as [id how|tunnels available|[]|[peer|] now|id|]; intros [= _ <-]; try done.
  - unfold task_ends. destruct (sv_connections s !! id) as [[]|]; [|done..]. by destruct how as [[]|].
  - unfold accept_control. destruct (admit_connection _); [|done]. cbn. by rewrite app_nil_r.
  - unfold accept_ingress. destruct (allow_at peer now (sv_quota s)) as [[] q]; cbn [negb]; [|cbn; auto].
    destruct (admit_connection _); cbn; auto.
  - destruct (join_rest id s) as (_ & _ & Hq & Hs & _). unfold join_next. by destruct (sv_connections s !! id) as [[|[|]]|].
Qed.

Lemma server_turn_end ev s how s' : server_turn ev s = (Some how, s') -> s' = s.
Proof. by destruct ev as [| |[]|[]| |]; intros [= _ <-]. Qed.

Lemma started_admitted events s out s' : accept_loop events s = (out, s') ->
  exists started, sv_started s' = sv_started s ++ started /\ started `sublist_of` admitted (arrivals events) (sv_quota s).
Proof.
  revert s. induction events as [|ev events IH]; intros s; cbn [accept_loop].
  { intros [= _ <-]. exists []. by rewrite app_nil_r. }
  destruct (server_turn ev s) as [[how|] s1] eqn:Ht.
  { apply server_turn_end in Ht as ->. intros [= _ <-]. exists []. split; [by rewrite app_nil_r|apply sublist_nil_l]. }
  intros (started & Hst & Hsub)%IH. apply server_turn_started in Ht.
  destruct ev as [| | |[peer|] now| |]; cbn [arrivals admitted];
    try (destruct Ht as [Hq Hs]; rewrite Hq in Hsub; rewrite Hs in Hst; by exists started).
  destruct (allow_at peer now (sv_quota s)) as [allowed q]. destruct Ht as [Hq [Hs|[-> Hs]]]; rewrite Hq in Hsub; rewrite Hs in Hst.
  - exists started. split; [done|]. destruct allowed; [by apply sublist_cons|done].
  - exists ((peer, now) :: started). split; [by rewrite Hst, <-app_assoc|]. by apply sublist_skip.
Qed.

Lemma sublist_filter_length {A} (f : A -> bool) l k :
  l `sublist_of` k -> (List.length (List.filter f l) <= List.length (List.filter f k))%nat.
Proof. induction 1 as [|x l k _ IH|x l k _ IH]; cbn; [done|destruct (f x); cbn; lia|destruct (f x); cbn; lia]. Qed.

(** ** The drain leaves nothing *)
Definition all_free (s : Server) : Prop := sv_connections s = ∅ /\ forall kind, slots kind s = capacity kind.

Lemma ok_free s : server_ok s -> sv_connections s = ∅ -> all_free s.
Proof.
  intros [Hs _ _] He. split; [done|]. intros kind. specialize (Hs kind). rewrite He in Hs. unfold running in Hs.
  rewrite map_filter_empty, map_size_empty in Hs. lia.
Qed.

(** Once all have ended, joining them one by one empties the set. *)
Lemma joins_rest l s :
  sv_ready (foldr join s l) = sv_ready s /\ sv_next (foldr join s l) = sv_next s /\
  forall kind, slots kind (foldr join s l) = slots kind s.
Proof.
  induction l as [|id l (IHr & IHn & IHs)]; [done|]. cbn [foldr].
  destruct (join_rest id (foldr join s l)) as (-> & -> & _ & _ & Hs). split_and!; [done..|]. intros kind. by rewrite Hs.
Qed.

Lemma joins_connections l s id :
  sv_connections (foldr join s l) !! id = sv_connections s !! id \/ sv_connections (foldr join s l) !! id = None.
Proof.
  induction l as [|i l IH]; [by left|]. cbn [foldr]. unfold join at 1 3.
  destruct (sv_connections (foldr join s l) !! i) as [[|how]|]; [done| |done]. cbn.
  destruct (decide (i = id)) as [->|Hne]; [rewrite lookup_delete_eq; by right|]. by rewrite lookup_delete_ne.
Qed.

Lemma joins_gone l s id :
  (forall kind, sv_connections s !! id <> Some (Running kind)) -> id ∈ l -> sv_connections (foldr join s l) !! id = None.
Proof.
  intros Hend. induction l as [|i l IH]; [by intros ?%not_elem_of_nil|]. intros [<-|Hin]%elem_of_cons; cbn [foldr].
  - unfold join at 1. destruct (sv_connections (foldr join s l) !! id) as [[kind|how]|] eqn:Hid; [| |done].
    + destruct (joins_connections l s id) as [Hx|Hx]; rewrite Hid in Hx; [|done]. by destruct (Hend kind).
    + apply lookup_delete_eq.
  - specialize (IH Hin). unfold join at 1. destruct (sv_connections (foldr join s l) !! i) as [[|how]|]; [done| |done].
    cbn. rewrite lookup_delete_None. by right.
Qed.

Lemma join_all_empty s : (forall id kind, sv_connections s !! id <> Some (Running kind)) -> sv_connections (join_all s) = ∅.
Proof.
  intros Hend. apply map_empty. intros id. unfold join_all.
  destruct (sv_connections s !! id) as [t|] eqn:Hid.
  - apply joins_gone; [apply Hend|]. apply (list_elem_of_fmap_2 fst _ (id, t)). by apply elem_of_map_to_list.
  - destruct (joins_connections (map fst (map_to_list (sv_connections s))) s id) as [->|]; done.
Qed.

Lemma abort_joined s : server_ok s -> all_free (join_all (abort_all s)).
Proof.
  intros [Hs _ _]. split.
  - apply join_all_empty. intros id kind. cbn. rewrite lookup_fmap. by destruct (sv_connections s !! id) as [[]|].
  - intros kind. unfold join_all. rewrite (proj2 (proj2 (joins_rest _ _)) kind). specialize (Hs kind). destruct kind; cbn in *; exact Hs.
Qed.

Lemma drain_joins_ok events s : server_ok s -> server_ok (drain_joins events s) /\
  sv_ready (drain_joins events s) = sv_ready s /\ sv_next (drain_joins events s) = sv_next s.
Proof.
  revert s. induction events as [|ev events IH]; intros s Hok; cbn [drain_joins]; case_bool_decide; try done.
  destruct ev as [id how| | | |id|]; try by apply IH.
  - destruct (IH (task_ends id how s) (task_ends_ok id how s Hok)) as (? & -> & ->). split; [done|]. unfold task_ends.
    destruct (sv_connections s !! id) as [[]|]; [|done..]. by destruct how as [[]|].
  - destruct (IH (join id s) (join_ok id s Hok)) as (? & -> & ->). split; [done|].
    destruct (join_rest id s) as (-> & -> & _). done.
Qed.

(** ** Theorems *)
(** C14: the gateway carries a bounded load. At every moment, whatever
    connections arrive and end, at most 512 control connections and at most
    as many browser connections run as the buffer budget holds; every other
    slot is free; and of browser connections that arrive in order, any 60
    seconds start at most 240 of a source and 10,000 in all. *)
Theorem gateway_load_bounded t events out s source lo :
  ordered t (arrivals events) -> accept_loop events (server_start t) = (out, s) ->
  let browsers := Z.of_nat (size (running BrowserTask (sv_connections s))) in
  let controls := Z.of_nat (size (running ControlTask (sv_connections s))) in
  controls <= 512 /\ controls + sv_control_slots s = 512 /\ browsers + sv_ingress_slots s = ingress_slots /\
  browsers * (2 * BUFFER_PER_DIRECTION) <= BUFFER_BUDGET /\
  Z.of_nat (List.length (List.filter (from_source source lo) (sv_started s))) <= 240 /\
  Z.of_nat (List.length (List.filter (in_minute_from lo) (sv_started s))) <= 10000.
Proof.
  intros Ho Hrun browsers controls. apply accept_loop_ok in Hrun as Hok; [|apply server_start_ok]. destruct Hok as [Hs Hf _].
  pose proof (Hs ControlTask). pose proof (Hs BrowserTask). pose proof (Hf ControlTask). pose proof (Hf BrowserTask).
  cbn [slots capacity] in *. unfold CONTROL_SLOTS in *. split; [lia|]. split; [lia|]. split; [lia|]. split.
  { transitivity (ingress_slots * (2 * BUFFER_PER_DIRECTION)); [|vm_compute; discriminate].
    apply Z.mul_le_mono_nonneg_r; [vm_compute; discriminate|lia]. }
  apply started_admitted in Hrun as (started & -> & Hsub). cbn [server_start sv_started sv_quota app] in *.
  destruct (ingress_quota_bounds t (arrivals events) source lo Ho) as (H240 & H10000 & _).
  split; [etrans; [|exact H240]|etrans; [|exact H10000]]; apply inj_le, sublist_filter_length, Hsub.
Qed.

(** C34: a stopped gateway leaves nothing behind. After a signal no connection
    is started, and when [main] returns, however the connections behave in the
    half minute it waits for them, no task is left, every slot is free again
    and the service no longer reports itself ready; and it returns for every
    behaviour of the connections. *)
Theorem gateway_stops_clean t before after s :
  accept_loop before (server_start t) = (None, s) ->
  exists s', server_run (before ++ ShutdownSignal :: after) t = Some (true, s') /\
    sv_connections s' = ∅ /\ sv_control_slots s' = CONTROL_SLOTS /\ sv_ingress_slots s' = ingress_slots /\
    sv_ready s' = false /\ sv_next s' = sv_next s.
Proof.
  intros Hrun. apply accept_loop_ok in Hrun as Hok; [|apply server_start_ok].
  assert (accept_loop (before ++ ShutdownSignal :: after) (server_start t) = (Some (Stopped, after), s)) as Hstop.
  { revert Hrun. generalize (server_start t). induction before as [|ev before IH]; intros s0; cbn; [by intros [= ->]|].
    destruct (server_turn ev s0) as [[how|] s1]; [done|]. apply IH. }
  exists (drain after s). unfold server_run. rewrite Hstop. split; [done|].
  assert (server_ok (set_ready false s)) as Hok1 by (destruct Hok as [Hs Hf Hn]; split; [intros k; exact (Hs k)|intros k; exact (Hf k)|done]).
  destruct (drain_joins_ok after _ Hok1) as (Hok2 & Hready & Hnext). unfold drain.
  set (s2 := drain_joins after (set_ready false s)) in *.
  assert (all_free (if bool_decide (sv_connections s2 = ∅) then s2 else join_all (abort_all s2))) as [Hc Hslots].
  { case_bool_decide; [by apply ok_free|by apply abort_joined]. }
  destruct (joins_rest (map fst (map_to_list (sv_connections (abort_all s2)))) (abort_all s2)) as (Hr & Hn & _).
  split_and!; [exact Hc|exact (Hslots ControlTask)|exact (Hslots BrowserTask)| |]; case_bool_decide; try done.
  - unfold join_all. by rewrite Hr.
  - unfold join_all. by rewrite Hn.
Qed.

(** ** A run: three browsers and a Broker, one of which leaves before the stop *)
Definition server_events : list ServerEvent :=
  [ControlAccepted true; IngressAccepted (Some (V4 3221225985)) 7; IngressAccepted (Some (V4 3221225985)) 8;
   IngressAccepted (Some (V4 3221225986)) 9; TaskEnds 1 (Returned true); Joined 1].
Local Abbreviation serving := (accept_loop server_events (server_start 7)).

Lemma gateway_load_bounded_witness :
  size (running BrowserTask (sv_connections serving.2)) = 2%nat /\
  Z.of_nat (List.length (List.filter (from_source (V4 3221225985) 0) (sv_started serving.2))) <= 240.
Proof.
  split; [vm_compute; reflexivity|].
  destruct (gateway_load_bounded 7 server_events serving.1 serving.2 (V4 3221225985) 0) as (_ & _ & _ & _ & Hs & _).
  - repeat constructor; vm_compute; discriminate.
  - apply surjective_pairing.
  - exact Hs.
Defined.

Lemma gateway_stops_clean_witness : exists s',
  server_run (server_events ++ [ShutdownSignal; IngressAccepted (Some (V4 1)) 10; TaskEnds 0 Panicked]) 7 = Some (true, s') /\
  sv_connections s' = ∅ /\ sv_next s' = 4%N.
Proof.
  destruct (gateway_stops_clean 7 server_events [IngressAccepted (Some (V4 1)) 10; TaskEnds 0 Panicked] serving.2)
    as (s' & Hrun & Hc & _ & _ & _ & Hn).
  - assert (serving.1 = None) as Hnone by (vm_compute; reflexivity). rewrite <-Hnone. apply surjective_pairing.
  - exists s'. split; [exact Hrun|]. split; [exact Hc|]. rewrite Hn. vm_compute. reflexivity.
Defined.
