(* ===== verification/DeployedSmoke.v ===== *)
(** * The deployed smoke test: tools/deployed-smoke/src/main.rs

    A probe that walks the whole relay as its users do: it enrolls, obtains
    credentials, waits for DNS, publishes a challenge, carries browser streams
    through two tunnels, and retires what it enrolled. The calls are those of
    the two clients; sockets, TLS, timers and the temporary directory are the
    parameters of a run ([ProbeNet]). *)

From Stdlib Require Import Ascii String Strings.Byte.
From stdpp Require Import base strings list gmap.
From S2P Require Import Prelude Protocol Db Dns IpText ClientAddr ReceiptSigner ControlApi AdminClient Ingress Gateway BrokerClient.

(** ** Inputs

    The configuration the probe accepts before it touches a deployment: the
    opt-in, the public addresses, the trusted control CA, the receipt key and
    the ACME account. An error is the message [anyhow] reports. *)
Record Inputs := {
  in_control_ca : list byte;
  in_receipt_key : list byte;
  in_acme_account_uri : string;
  in_gateway : SocketAddr;
  in_ingress : SocketAddr
}.

(** The process environment: variables, and what [fs::read] and
    [fs::metadata] with [fs::read_to_string] find at a path. *)
Record SmokeEnv := {
  sv_var : string -> EnvVar;
  sv_bytes : string -> option (list byte);
  sv_file : string -> option SecretFile
}.

(** ** Addresses *)
(** The classes of an IPv4 address of the given bits. *)
Definition ip_is_private (ip : Z) : bool :=
  (Z.shiftr ip 24 =? 10) || (Z.shiftr ip 20 =? 2753) || (Z.shiftr ip 16 =? 49320).
Definition ip_is_loopback (ip : Z) : bool := Z.shiftr ip 24 =? 127.
Definition ip_is_link_local (ip : Z) : bool := Z.shiftr ip 16 =? 43518.
Definition ip_is_unspecified (ip : Z) : bool := ip =? 0.
Definition ip_is_multicast (ip : Z) : bool := in_range 224 239 (Z.shiftr ip 24).
Definition ip_is_broadcast (ip : Z) : bool := ip =? 4294967295.

(** The loop body of [Inputs::read] over the two addresses. *)
Definition public_address (name text : string) : result string (Z * Z) :=
  address ← ok_or (name +:+ " must be an IPv4 address and port") (parse_socket_v4 text);
  let ip := address.1 in
  _ ← reject_if (negb (address.2 =? 443) || ip_is_private ip || ip_is_loopback ip || ip_is_link_local ip
                 || ip_is_unspecified ip || ip_is_multicast ip || ip_is_broadcast ip)
        (name +:+ " must be a public IPv4 address on port 443");
  Ok address.

(** ** Values *)
Definition has_line_break (value : string) : bool :=
  existsb (fun b => Byte.eqb b Byte.x0d || Byte.eqb b Byte.x0a) (str_bytes value).

Definition validate_public_value (name value : string) : result string string :=
  _ ← reject_if (bool_decide (value = ""%string) || negb (bool_decide (trim value = value)) || has_line_break value)
        ("invalid " +:+ name);
  Ok value.

Section inputs.
Context `{Hex} (v : SmokeEnv).

Definition required (name : string) : result string string :=
  value ← ok_or ("missing " +:+ name) (env_value (sv_var v name));
  validate_public_value name value.

Definition trim_line_end (value : string) : string :=
  string_of_list_byte (list_trim_end (fun b => Byte.eqb b Byte.x0d || Byte.eqb b Byte.x0a) (str_bytes value)).

Definition public_value (direct_name file_name : string) : result string string :=
  match env_value (sv_var v direct_name), env_value (sv_var v file_name) with
  | Some value, None => validate_public_value direct_name value
  | None, Some path =>
      path ← validate_public_value file_name path;
      metadata ← ok_or ("cannot inspect " +:+ file_name) (sv_file v path);
      _ ← reject_if (negb (sf_is_file metadata) || (4096 <? sf_len metadata)) ("invalid " +:+ file_name);
      value ← ok_or ("cannot read " +:+ file_name) (sf_content metadata);
      validate_public_value file_name (trim_line_end value)
  | _, _ => Err ("set exactly one of " +:+ direct_name +:+ " and " +:+ file_name)
  end.

Definition LETSENCRYPT_ACCOUNT : string := "https://acme-v02.api.letsencrypt.org/acme/acct/".

(** The receipt key: 64 lower-case digits that decode to 32 bytes. *)
Definition receipt_key (hex : string) : result string (list byte) :=
  _ ← reject_if (negb (str_len hex =? 64) || negb (bytes_all (fun b => is_ascii_hexdigit b && negb (is_ascii_uppercase b)) hex))
        "receipt public key must be 64 lowercase hex characters";
  receipt ← ok_or "invalid receipt public key" (hex_decode hex);
  _ ← reject_if (negb (bool_decide (List.length receipt = 32%nat))) "invalid receipt public key";
  Ok receipt.

Definition production_account (uri : string) : result string unit :=
  suffix ← ok_or "ACME account URI must be a production Let's Encrypt account URI" (strip_prefix LETSENCRYPT_ACCOUNT uri);
  reject_if (bool_decide (suffix = ""%string) || negb (bytes_all is_ascii_digit suffix)) "invalid ACME account URI".

(** [Inputs::read]. A text that reads as a [SocketAddrV4] reads as the same
    [SocketAddr]. *)
Definition inputs_read : result string Inputs :=
  _ ← reject_if (negb (bool_decide (env_value (sv_var v "BLOOM_RELAY_DEPLOYED_SMOKE") = Some "1"%string)))
        "set BLOOM_RELAY_DEPLOYED_SMOKE=1 for this destructive disposable-infrastructure probe";
  gateway_text ← required "BLOOM_RELAY_SMOKE_GATEWAY_ADDR";
  ingress_text ← required "BLOOM_RELAY_SMOKE_INGRESS_ADDR";
  gateway ← public_address "gateway" gateway_text;
  ingress ← public_address "ingress" ingress_text;
  _ ← reject_if (bool_decide (gateway_text = ingress_text)) "gateway and ingress must be distinct addresses";
  ca_path ← required "BLOOM_RELAY_SMOKE_CONTROL_CA_FILE";
  control_ca ← ok_or "control CA read failed" (sv_bytes v ca_path);
  _ ← reject_if (Nat.eqb (List.length control_ca) 0 || (65536 <? Z.of_nat (List.length control_ca))) "invalid control CA file";
  receipt_hex ← public_value "BLOOM_RELAY_SMOKE_RECEIPT_PUBLIC_KEY_HEX" "BLOOM_RELAY_SMOKE_RECEIPT_PUBLIC_KEY_FILE";
  receipt ← receipt_key receipt_hex;
  acme_account_uri ← public_value "BLOOM_RELAY_SMOKE_ACME_ACCOUNT_URI" "BLOOM_RELAY_SMOKE_ACME_ACCOUNT_URI_FILE";
  _ ← production_account acme_account_uri;
  Ok {| in_control_ca := control_ca; in_receipt_key := receipt; in_acme_account_uri := acme_account_uri;
        in_gateway := (V4 gateway.1, gateway.2); in_ingress := (V4 ingress.1, ingress.2) |}.

(** ** What accepted inputs are *)
Definition public_ip (ip : Z) : Prop :=
  ip_is_private ip = false /\ ip_is_loopback ip = false /\ ip_is_link_local ip = false /\
  ip_is_unspecified ip = false /\ ip_is_multicast ip = false /\ ip_is_broadcast ip = false.

Lemma public_address_ok name text address : public_address name text = Ok address ->
  parse_socket_v4 text = Some address /\ address.2 = 443 /\ public_ip address.1.
Proof.
  unfold public_address. intros Ha. apply bind_ok in Ha as (a & Hp%ok_or_ok & Ha).
  apply bind_ok in Ha as (u & Hr%reject_if_ok & [= <-]). to_prop. unfold public_ip. tauto.
Qed.

(** The probe only runs where it was asked to, against public addresses on
    port 443, under a 32-byte receipt key and a production account. *)
Lemma inputs_read_ok inputs : inputs_read = Ok inputs ->
  env_value (sv_var v "BLOOM_RELAY_DEPLOYED_SMOKE") = Some "1"%string /\
  (exists ip, in_gateway inputs = (V4 ip, 443) /\ public_ip ip) /\ (exists ip, in_ingress inputs = (V4 ip, 443) /\ public_ip ip) /\
  in_control_ca inputs <> [] /\ List.length (in_receipt_key inputs) = 32%nat /\
  exists suffix, in_acme_account_uri inputs = LETSENCRYPT_ACCOUNT +:+ suffix /\ suffix <> ""%string /\ bytes_all is_ascii_digit suffix = true.
Proof.
  unfold inputs_read. intros Hi. apply bind_ok in Hi as (? & Hon%reject_if_ok & Hi). apply bind_ok in Hi as (gt & _ & Hi).
  apply bind_ok in Hi as (it & _ & Hi). apply bind_ok in Hi as ([g gp] & (_ & Hgp & Hg)%public_address_ok & Hi).
  apply bind_ok in Hi as ([i ip] & (_ & Hip & Hpub)%public_address_ok & Hi). apply bind_ok in Hi as (? & _ & Hi).
  apply bind_ok in Hi as (? & _ & Hi). apply bind_ok in Hi as (ca & _ & Hi). apply bind_ok in Hi as (? & Hca%reject_if_ok & Hi).
  apply bind_ok in Hi as (? & _ & Hi). apply bind_ok in Hi as (key & Hkey & Hi). apply bind_ok in Hi as (uri & _ & Hi).
  apply bind_ok in Hi as (? & Hacct & [= <-]). cbn in *. subst.
  apply bind_ok in Hkey as (? & _ & Hkey). apply bind_ok in Hkey as (? & _ & Hkey).
  apply bind_ok in Hkey as (? & Hlen%reject_if_ok & [= <-]).
  apply bind_ok in Hacct as (suffix & Hs%ok_or_ok & Hacct%reject_if_ok). apply strip_prefix_Some in Hs. to_prop.
  split_and!; [tauto|by eexists|by eexists| |tauto|].
  - intros ->. by destruct Hca.
  - exists suffix. tauto.
Qed.
End inputs.

(** The two addresses are compared as texts, and a port may have leading
    zeros: one address passes as both. *)
Example one_address_twice :
  public_address "gateway" "198.51.100.7:443" = public_address "ingress" "198.51.100.7:0443" /\
  is_ok (public_address "gateway" "198.51.100.7:443") = true /\ "198.51.100.7:443"%string <> "198.51.100.7:0443"%string.
Proof. split; [vm_compute; reflexivity|]. split; [vm_compute; reflexivity|discriminate]. Qed.

(** ** The probe *)
Definition CONTROL_SERVER_NAME : string := "relay-control.bloom.directory".
Definition POLL_LIMIT : Z := seconds 300.
Definition POLL_INTERVAL : Z := seconds 2.

(** Writing a secret: the file, then its permissions. *)
Inductive WriteOutcome := WriteFails | ChmodFails (mode : Z) | Written.

(** A tunnel task: the answers to its setup, what its loop sees before it is
    stopped, what the watcher of its readiness sees, and its end. *)
Inductive Watch := SeesReady | SeesExit | SeesTimeout.
Record TunnelNet := { tn_setup : TunnelSetup; tn_events : list LoopEvent; tn_watch : Watch; tn_joined : Timed bool }.

(** One probe of the ingress: the connection, the server name, the TLS
    handshake, the write, and the four bytes read, if they came. *)
Record ProbeTcp := {
  pt_tcp : Timed bool;
  pt_name : bool;
  pt_tls : Timed bool;
  pt_write : bool;
  pt_read : Timed (option (list byte))
}.

(** The world of a run over a relay of state [S]. [pn_instant] is the
    monotonic clock in microseconds, [pn_sleep] lets time pass, and
    [pn_signal] is what the shutdown future gives at each await. *)
Record ProbeNet (S : Type) := {
  pn_client : Client S;
  pn_broker : Broker S;
  pn_instant : S -> Z * S;
  pn_sleep : Z -> S -> S;
  pn_signal : nat -> option (result string unit);
  pn_bind : bool;
  pn_tempdir : result string string;
  pn_write : string -> WriteOutcome;
  pn_certificate : bool;
  pn_server_tls : bool;
  pn_trust : bool;
  pn_tunnel : nat -> TunnelNet;
  pn_probe : nat -> ProbeTcp;
  pn_panicked : nat -> bool
}.
Arguments pn_client {S}. Arguments pn_broker {S}. Arguments pn_instant {S}. Arguments pn_sleep {S}.
Arguments pn_signal {S}. Arguments pn_bind {S}. Arguments pn_tempdir {S}. Arguments pn_write {S}.
Arguments pn_certificate {S}. Arguments pn_server_tls {S}. Arguments pn_trust {S}.
Arguments pn_tunnel {S}. Arguments pn_probe {S}. Arguments pn_panicked {S}.

(** The state of a run: the relay, the awaits so far, the files written and
    the lines printed. *)
Record Smoke (S : Type) := { sm_relay : S; sm_awaits : nat; sm_files : gmap string SecretFile; sm_out : list string }.
Arguments sm_relay {S}. Arguments sm_awaits {S}. Arguments sm_files {S}. Arguments sm_out {S}.

(** [rustls_pemfile::certs] and [RootCertStore::add]. *)
Class TrustStore := { pemfile_certs : list byte -> list (option (list byte)); root_accepted : list byte -> bool }.

Section probe.
Context `{Signing} `{Serde} `{PemParser} `{TrustStore} {S : Type} (net : ProbeNet S).

Definition SmM (A : Type) : Type := Smoke S -> result string A * Smoke S.
#[global] Instance sm_ret : MRet SmM := fun _ a s => (Ok a, s).
#[global] Instance sm_bind : MBind SmM := fun _ _ f m s =>
  match m s with (Ok a, s') => f a s' | (Err err, s') => (Err err, s') end.

Definition sm_lift {A} (r : result string A) : SmM A := fun s => (r, s).
Definition bail {A} (message : string) : SmM A := sm_lift (Err message).
Definition sm_reject (bad : bool) (message : string) : SmM unit := sm_lift (reject_if bad message).
Definition with_relay (r : S) (s : Smoke S) : Smoke S :=
  {| sm_relay := r; sm_awaits := sm_awaits s; sm_files := sm_files s; sm_out := sm_out s |}.
Definition on_relay {A} (f : S -> A * S) : SmM A := fun s =>
  let (a, r) := f (sm_relay s) in (Ok a, with_relay r s).
Definition println (line : string) : SmM unit := fun s =>
  (Ok tt, {| sm_relay := sm_relay s; sm_awaits := sm_awaits s; sm_files := sm_files s; sm_out := sm_out s ++ [line] |}).

(** Going on whatever the outcome. *)
Definition attempt {A} (m : SmM A) : SmM (result string A) := fun s => let (r, s') := m s in (Ok r, s').

(** [.context(message)] on a call of one of the clients. *)
Definition admin {A} (message : string) (m : ClM (S := S) A) : SmM A := fun s =>
  let (r, relay) := m (sm_relay s) in (map_err (fun _ => message) r, with_relay relay s).
Definition broker {A} (message : string) (m : (string -> option SecretFile) -> BrM (S := S) A) : SmM A := fun s =>
  let (r, relay) := m (fun path => sm_files s !! path) (sm_relay s) in (map_err (fun _ => message) r, with_relay relay s).

(** An await inside the [select!] of [main]: the shutdown future may win. *)
Definition interrupted : SmM unit := fun s =>
  let s' := {| sm_relay := sm_relay s; sm_awaits := sm_awaits s + 1; sm_files := sm_files s; sm_out := sm_out s |} in
  match pn_signal net (sm_awaits s) with
  | None => (Ok tt, s')
  | Some (Ok _) => (Err "probe interrupted; retiring allocation"%string, s')
  | Some (Err message) => (Err message, s')
  end.
(** A call in a blocking task takes effect even when its await is dropped. *)
Definition awaiting {A} (m : SmM A) : SmM A := _ ← interrupted; a ← m; _ ← interrupted; mret a.

Definition new_uuid : SmM Uuid := on_relay (br_uuid (pn_broker net)).
Definition instant : SmM Z := on_relay (pn_instant net).
Definition sleep (duration : Z) : SmM unit := awaiting (on_relay (fun r => (tt, pn_sleep net duration r))).

Definition report (kind step : string) (allocation : Allocation) : SmM unit :=
  println (kind +:+ " " +:+ step +:+ " " +:+ uuid_to_string (a_installation_id allocation) +:+ " " +:+ a_hostname allocation).
Definition pass (step : string) (allocation : Allocation) : SmM unit := report "PASS" step allocation.

(** ** Setup *)
Definition signer (key : SigningKey) (message : list byte) : result EnrollmentError (list byte) :=
  Ok (signature_to_bytes (ed25519_sign key message)).

Definition secret_file (mode : Z) (secret : string) : SecretFile :=
  {| sf_is_file := true; sf_len := str_len secret; sf_mode := mode; sf_content := Some secret |}.

Definition write_secret (directory name secret : string) : SmM string := fun s =>
  let path := directory +:+ "/" +:+ name in
  let written mode := {| sm_relay := sm_relay s; sm_awaits := sm_awaits s; sm_files := <[path := secret_file mode secret]> (sm_files s);
                         sm_out := sm_out s |} in
  match pn_write net path with
  | WriteFails => (Err "credential write failed"%string, s)
  | ChmodFails mode => (Err "credential permission failed"%string, written mode)
  | Written => (Ok path, written 384)
  end.

Definition random_dns_value : SmM string :=
  value ← on_relay (cl_random (pn_client net)); mret (base64url_encode value).

Fixpoint add_certs (certs : list (option (list byte))) (count : nat) : result string nat :=
  match certs with
  | [] => Ok count
  | None :: _ => Err "invalid control CA PEM"%string
  | Some der :: certs => if root_accepted der then add_certs certs (count + 1) else Err "invalid control CA certificate"%string
  end.
Definition client_tls_from_ca (pem : list byte) : result string unit :=
  count ← add_certs (pemfile_certs pem) 0;
  reject_if (Nat.eqb count 0) "control CA PEM contains no certificates".

(** ** Waiting *)
Section enrolled.
Context (key : SigningKey) (allocation : Allocation).

(** The loops end by the clock: [POLL_LIMIT] holds 150 intervals. No message
    of the code is empty. *)
Definition POLL_ROUNDS : nat := 151.
Definition OUT_OF_ROUNDS : string := "".
Definition wait_line (step : string) (attempts : nat) : SmM unit :=
  if Nat.eqb (attempts mod 15) 0 then report "WAIT" step allocation else mret tt.

Fixpoint dns_ready_loop (rounds : nat) (deadline : Z) (attempts : nat) : SmM unit :=
  match rounds with
  | O => bail OUT_OF_ROUNDS
  | Datatypes.S rounds =>
      op ← new_uuid;
      status ← admin "installation status failed"
        (client_installation_status (pn_client net) (signer key) (a_installation_id allocation) op);
      match a_state status with
      | DnsReady => mret tt
      | Retired => bail "installation retired before DNS readiness"
      | PendingDns =>
          now ← instant;
          if now <? deadline
          then _ ← wait_line "dns-ready" attempts; _ ← sleep POLL_INTERVAL; dns_ready_loop rounds deadline (attempts + 1)
          else bail "DNS readiness timed out"
      end
  end.
Definition await_dns_ready : SmM unit :=
  start ← instant; dns_ready_loop POLL_ROUNDS (start + POLL_LIMIT) 0.

Fixpoint challenge_ready_loop (rounds : nat) (deadline : Z) (attempts : nat) (client : DnsChallengeClient) (txt_value : string)
    (revision : Z) : SmM unit :=
  match rounds with
  | O => bail OUT_OF_ROUNDS
  | Datatypes.S rounds =>
      now ← instant;
      if now <? deadline
      then
        published ← awaiting (broker "DNS challenge status failed" (fun files => ready (pn_broker net) files client txt_value revision));
        if (published : bool) then mret tt
        else _ ← wait_line "dns-challenge" attempts; _ ← sleep POLL_INTERVAL;
             challenge_ready_loop rounds deadline (attempts + 1) client txt_value revision
      else bail "DNS challenge readiness timed out"
  end.
Definition await_challenge_ready (client : DnsChallengeClient) (txt_value : string) (revision : Z) : SmM unit :=
  start ← instant; challenge_ready_loop POLL_ROUNDS (start + POLL_LIMIT) 0 client txt_value revision.

(** ** Tunnels *)
Definition tunnel_answers (t : TunnelNet) (file : option SecretFile) : TunnelSetup :=
  {| su_file := file; su_tcp := su_tcp (tn_setup t); su_server_name := su_server_name (tn_setup t); su_tls := su_tls (tn_setup t);
     su_h2 := su_h2 (tn_setup t); su_request := su_request (tn_setup t); su_sent := su_sent (tn_setup t);
     su_status := su_status (tn_setup t) |}.

(** A running tunnel: its client, and the credential file it read. *)
Record RunningTunnel := { rt_client : TunnelClient; rt_net : TunnelNet; rt_file : option SecretFile }.
Definition outcome_after (t : RunningTunnel) (events : list LoopEvent) : option (result ClientError unit) * TunnelRun :=
  (run_until_ready (rt_client t) (tunnel_answers (rt_net t) (rt_file t)) events).2.

(** The watcher sees a readiness only when there was one. *)
Definition start_tunnel (i : nat) (config : TunnelConfig) : SmM RunningTunnel :=
  client ← sm_lift (map_err (fun _ => "tunnel setup failed"%string) (tunnel_new config CEREMONY_UPSTREAM));
  awaiting (fun s =>
    let t := {| rt_client := client; rt_net := pn_tunnel net i; rt_file := sm_files s !! tc_credential_path config |} in
    (match tn_watch (rt_net t) with
     | SeesTimeout => Err "tunnel ready timeout"%string
     | SeesExit => Err "tunnel exited before ready"%string
     | SeesReady => if tr_ready (outcome_after t []).2 then Ok t else Err "tunnel exited before ready"%string
     end, s)).

Definition stop_tunnel (t : RunningTunnel) : SmM unit :=
  awaiting (sm_lift
    match tn_joined (rt_net t) with
    | Elapsed => Err "tunnel shutdown timeout"%string
    | InTime false => Err "tunnel task failed"%string
    | InTime true =>
        match (outcome_after t (tn_events (rt_net t) ++ [Shutdown])).1 with
        | Some (Ok _) => Ok tt
        | _ => Err "tunnel shutdown failed"%string
        end
    end).

(** ** Probes *)
Definition PING : list byte := str_bytes "ping".
Definition PONG : list byte := str_bytes "pong".

(** A connection of the synthetic server: the four bytes read, if they came,
    and what it writes before it shuts the stream down. *)
Definition synthetic_connection (tls_accepted : bool) (read : option (list byte)) : option (list byte) :=
  if tls_accepted then match read with Some ping => if bool_decide (ping = PING) then Some PONG else None | None => None end else None.

Definition in_time {A} (elapsed failed : string) (r : Timed (option A)) : result string A :=
  match r with Elapsed => Err elapsed | InTime None => Err failed | InTime (Some a) => Ok a end.
Definition succeeded (r : Timed bool) : Timed (option unit) :=
  match r with Elapsed => Elapsed | InTime b => InTime (if b then Some tt else None) end.

Definition probe_once (p : ProbeTcp) : result string unit :=
  _ ← in_time "ingress connect timeout" "ingress connect failed" (succeeded (pt_tcp p));
  _ ← reject_if (negb (pt_name p)) "invalid relay hostname";
  _ ← in_time "ingress TLS timeout" "ingress TLS failed" (succeeded (pt_tls p));
  _ ← reject_if (negb (pt_write p)) "probe write failed";
  pong ← in_time "probe reply timeout" "probe reply failed" (pt_read p);
  reject_if (negb (bool_decide (pong = PONG))) "invalid probe reply".

(** The tasks are joined in order; the first that failed decides. *)
Fixpoint join_probes (i count : nat) : SmM unit :=
  match count with
  | O => mret tt
  | Datatypes.S count =>
      _ ← awaiting (sm_lift (if pn_panicked net i then Err "probe task failed"%string else probe_once (pn_probe net i)));
      join_probes (i + 1) count
  end.
Definition probe_concurrent : SmM unit := join_probes 0 8.

(** ** The walk *)
Definition challenge_walk (client : DnsChallengeClient) (txt_value : string) : SmM unit :=
  ensured ← awaiting (broker "DNS challenge ensure failed" (fun files => ensure (pn_broker net) files client txt_value));
  _ ← await_challenge_ready client txt_value (ds_revision ensured);
  pass "dns-challenge-ready" allocation.

Definition tunnel_walk (inputs : Inputs) (tunnel_path : string) : SmM unit :=
  _ ← sm_reject (negb (pn_certificate net)) "synthetic certificate generation failed";
  _ ← sm_reject (negb (pn_server_tls net)) "synthetic TLS server setup failed";
  _ ← sm_lift (client_tls_from_ca (in_control_ca inputs));
  let config := {| tc_gateway := in_gateway inputs; tc_control_server_name := CONTROL_SERVER_NAME; tc_hostname := a_hostname allocation;
                   tc_installation_id := a_installation_id allocation; tc_credential_path := tunnel_path |} in
  _ ← sm_reject (negb (pn_trust net)) "synthetic trust setup failed";
  first ← start_tunnel 0 config;
  _ ← probe_concurrent;
  _ ← pass "concurrent-streams" allocation;
  _ ← stop_tunnel first;
  second ← start_tunnel 1 config;
  _ ← awaiting (sm_lift (probe_once (pn_probe net 8)));
  _ ← pass "tunnel-reconnect" allocation;
  stop_tunnel second.

(** A credential of a scope, issued and written to its file. *)
Definition credential_walk (scope : Scope) (failure directory name step : string) : SmM string :=
  token ← admin failure (token_generate (pn_client net));
  op ← new_uuid;
  _ ← admin failure (client_issue_credential (pn_client net) (signer key) (a_installation_id allocation) scope token op);
  path ← write_secret directory name token;
  _ ← pass step allocation;
  mret path.

Definition run_enrolled (inputs : Inputs) (temp : string) : SmM unit :=
  _ ← interrupted;
  tunnel_path ← credential_walk ScopeTunnel "tunnel credential issue failed" temp "tunnel.token" "tunnel-credential";
  dns_path ← credential_walk ScopeDnsChallenge "DNS credential issue failed" temp "dns.token" "dns-credential";
  op ← new_uuid;
  _ ← admin "ACME account registration failed"
        (client_register_acme_account (pn_client net) (signer key) (a_installation_id allocation) (in_acme_account_uri inputs) op);
  _ ← pass "acme-account" allocation;
  _ ← await_dns_ready;
  _ ← pass "dns-ready" allocation;
  client ← sm_lift (map_err (fun _ => "DNS client setup failed"%string)
             (dns_client_new (in_control_ca inputs) (a_installation_id allocation) dns_path));
  txt_value ← random_dns_value;
  _ ← challenge_walk client txt_value;
  tunnel_walk inputs tunnel_path.
End enrolled.

(** ** [main] *)
(** Whatever became of the walk, what was enrolled is retired, and the walk's
    error comes first. *)
Definition after_enrollment (inputs : Inputs) (key : SigningKey) (temp : string) (allocation : Allocation) : SmM unit :=
  _ ← pass "enroll" allocation;
  walked ← attempt (run_enrolled key allocation inputs temp);
  op ← new_uuid;
  retirement ← attempt (admin "retirement failed"
    (client_retire_installation (pn_client net) (signer key) (a_installation_id allocation) op));
  _ ← (match retirement with Ok _ => pass "retire" allocation | Err _ => mret tt end : SmM unit);
  sm_lift (_ ← (walked : result string unit); retirement).

(** The inputs and the probe's own key are arguments. *)
Definition smoke_main (inputs : Inputs) (key : SigningKey) : SmM unit :=
  _ ← sm_reject (negb (pn_bind net)) "127.0.0.1:18735 is occupied or unavailable";
  temp ← sm_lift (pn_tempdir net);
  op ← new_uuid;
  receipt ← admin "enrollment failed"
    (client_enroll (pn_client net) (signer key) (key_to_bytes (verifying_key key)) [in_receipt_key inputs] op);
  after_enrollment inputs key temp (rc_allocation receipt).
End probe.
