(* ===== verification/RelayCalls.v ===== *)
(** * What a client's call means for the relay's database

    The calls of the administration client, of the Broker client and of the
    probe run against the handlers of the control API: every call moves the
    database by store requests only, and what a successful call established
    holds of the database it left. *)

From Stdlib Require Import Ascii String Strings.Byte.
From stdpp Require Import base strings list gmap.
From S2P Require Import Prelude Protocol Db Witness Store StoreCredentials StoreChallenges StoreLifecycle StoreBootstrap StoreOutbox StoreCt.
From S2P Require Import StoreHistory StoreInvariant StoreEffects StoreProperties ReceiptSigner ControlApi ControlLogic ControlProperties.
From S2P Require Import AdminClient ControlClient BrokerClient BrokerRelay.

(** ** The record of a retirement *)
Section operations.
Context `{Crypto} `{Base32} (cfg : StoreConfig).

Lemma rotation_kind now id op scope kind digest g hash lifetime aop event d op' o :
  kind <> "retire"%string ->
  d_operations (rotated now id op scope kind digest g hash lifetime aop event d) !! op' = Some o ->
  d_operations d !! op' = Some o \/ o_kind o <> "retire"%string.
Proof.
  intros Hk. unfold rotated, cut_lease. case_bool_decide; cbn; intros [[_ <-]|[_ ?]]%lookup_insert_Some; auto.
Qed.

Lemma scoped_kind scope : "issue:" +:+ scope <> "retire"%string /\ "renew:" +:+ scope <> "retire"%string.
Proof. split; discriminate. Qed.

(** A new operation of kind "retire" is that of a retired installation. *)
Lemma exec_new_operation now r d d' op o :
  exec cfg now r d = Ok (tt, d') -> d_operations d' !! op = Some o ->
  d_operations d !! op = Some o \/ o_kind o <> "retire"%string \/ retired_in (o_installation_id o) d'.
Proof.
  assert (forall d1, core_eq d d1 -> d_operations d1 !! op = Some o -> d_operations d !! op = Some o) as Hcore.
  { intros d1 (_ & _ & _ & _ & _ & _ & -> & _)%core_eq_fields. done. }
  intros He Ho. destruct r; cbn [exec] in He; try apply void_ok in He as [? He].
  - left. by apply create_bootstrap_challenge_tx_ok in He as [[_ ->] | (_ & _ & _ & _ & _ & ->)].
  - left. by apply consume_bootstrap_challenge_tx_ok in He as [[_ ->] | (_ & b & _ & _ & _ & _ & ->)].
  - left. by apply consume_nonce_tx_ok in He as [[_ ->] | (_ & _ & _ & _ & ->)].
  - left. by apply Ok_inj, pair_inj in He as [_ <-].
  - left. by apply Ok_inj, pair_inj in He as [_ <-].
  - apply issue_bearer_tx_ok in He as (Hs & _ & [(? & _ & -> & _) | (row & _ & _ & _ & _ & _ & ->)]); [by left|].
    apply rotation_kind in Ho as [Ho|Ho]; [by left|by right; left|by apply scoped_kind].
  - apply renew_bearer_tx_ok in He as (Hs & [(? & _ & -> & _) | (row & c & _ & _ & _ & _ & _ & _ & _ & ->)]); [by left|].
    apply rotation_kind in Ho as [Ho|Ho]; [by left|by right; left|by apply scoped_kind].
  - left. by apply register_acme_account_tx_ok in He as (_ & row & _ & _ & ->).
  - left. by apply mark_dns_ready_tx_ok in He as [-> | (row & _ & _ & _ & ->)].
  - left. apply ensure_challenge_value_tx_ok in He as (_ & _ & _ & _ & _ & [[_ ->] | (_ & _ & _ & ->)]); revert Ho;
      unfold refreshed, joined, ensure_challenge_state; cbn; by case_match.
  - left. unfold mark_challenge_reconciled_tx in He. destruct (d_challenge_state d !! _) as [s|]; by inv_ok.
  - left. by apply expire_challenge_values_tx_ok in He as [(_ & _ & ->) | (_ & _ & _ & ->)].
  - apply allocate_tx_ok in He as (_ & [(? & ? & _ & _ & _ & _ & -> & _) | (_ & _ & _ & _ & _ & _ & ->)]); [by left|].
    apply (lookup_insert_Some (d_operations d)) in Ho as [[_ <-]|[_ ?]]; [by right; left|by left].
  - left. by apply claim_tunnel_tx_ok in He as (_ & row & _ & _ & _ & _ & _ & ->).
  - left. by apply renew_tunnel_tx_ok in He as [(_ & -> & _) | (_ & l & _ & ->)].
  - left. by apply expire_pending_tx_ok in He as [[_ ->] | (_ & row & _ & _ & _ & _ & ->)].
  - apply retire_tx_ok in He as [(? & _ & _ & _ & ->) | (_ & row & Hrow & [[Hst ->] | (_ & _ & ->)])]; [by left|..];
      (apply (lookup_insert_Some (d_operations d)) in Ho as [[_ <-]|[_ ?]]; [right; right|by left]); [by exists row|].
    eexists. split; [cbn; apply lookup_insert_eq|done].
  - apply relocate_tx_ok in He as [(? & _ & _ & _ & _ & ->) | (_ & row & _ & _ & _ & _ & ->)]; [by left|].
    apply (lookup_insert_Some (d_operations d)) in Ho as [[_ <-]|[_ ?]]; [by right; left|by left].
  - left. unfold complete_tx in He. by inv_tx.
  - left. unfold defer_tx in He. by inv_ok.
  - left. apply (Hcore d'); [by apply (frame_ct_feed now source 0 0) in He|done].
  - left. apply (Hcore d'); [by apply (frame_ct_feed now source position 0) in He|done].
  - left. apply (Hcore d'); [by apply (frame_ct_feed now "" 0 n) in He|done].
  - left. apply (Hcore d'); [by apply (frame_ct_feed now source 0 0) in He|done].
  - left. apply (Hcore d'); [by apply (frame_ct_feed now "" 0 n) in He|done].
  - left. apply (Hcore d'); [by apply frame_certificate in He|done].
  - left. apply (Hcore d'); [by apply frame_observe in He|done].
Qed.

Definition retirements_recorded (d : Db) : Prop := forall op o,
  d_operations d !! op = Some o -> o_kind o = "retire"%string -> retired_in (o_installation_id o) d.

Lemma retirements_history t d t' d' : history cfg t d t' d' -> retirements_recorded d -> retirements_recorded d'.
Proof.
  induction 1 as [ | | ? d d1 ? d2 (r & _ & Hr) _ IH]; auto. intros Hd. apply IH. intros op o Ho Hk.
  destruct (exec_new_operation _ _ _ _ _ _ Hr Ho) as [Ho'|[?|?]]; [|done|done].
  eapply retired_in_stays; [by eapply exec_history_le|by eapply Hd].
Qed.

Lemma retirements_reachable now d : reachable cfg now d -> retirements_recorded d.
Proof. intros [start Hh]. eapply retirements_history; [exact Hh|]. intros op o Ho. by destruct (lookup_empty_Some (M := gmap Uuid) op o Ho). Qed.

(** After a retirement was acknowledged the installation is retired. *)
Lemma retire_tx_retires now id op d u d' : retirements_recorded d -> retire_tx now id op d = Ok (u, d') -> retired_in id d'.
Proof.
  intros Hd [(o & Ho & <- & Hk & ->) | (_ & row & Hrow & [[Hst ->] | (_ & _ & ->)])]%retire_tx_ok; [by eapply Hd|by exists row|].
  eexists. split; [cbn; apply lookup_insert_eq|done].
Qed.
End operations.

(** ** Calls move the database by store requests *)
Section calls.
Context {St3 : S3} {Cr : Crypto} {Sg : Signing} {Sd : Serde} {B32 : Base32} {HX : Hex} {Pem : PemParser}.
Context (uuid_parse_str : string -> option Uuid) (st : AppState).
Local Abbreviation cfg := (st_config st).

Definition later (s s' : nat * Api) : Prop := history cfg (p_now s.2) (api_db s.2) (p_now s'.2) (api_db s'.2).
#[global] Instance later_preorder : PreOrder later.
Proof. split; [intros s; constructor|]. intros a b c. apply history_trans. Qed.

Definition calls {X} (f : nat * Api -> X * (nat * Api)) : Prop := forall s, later s (f s).2.

Lemma handle_later e request s : api_env st e -> request_typed request -> later s (handle uuid_parse_str st request e s).2.
Proof.
  intros He Hty. destruct s as [n s]. destruct (handle _ _ request e (n, s)) as [r [n' s']] eqn:Hh.
  pose proof (handle_holds _ _ _ _ _ _ _ _ _ He Hty Hh) as Hd. destruct r; by destruct Hd.
Qed.

Context (e : ApiEnv) (He : api_env st e) (clock : nat -> Z).

Section admin.
Context (random : nat -> list byte) (source : IpAddr).
Local Abbreviation relay := (relay_client uuid_parse_str st e clock random source).

Lemma calls_cl_bind {A B} (m : ClM A) (f : A -> ClM B) : calls m -> (forall a, calls (f a)) -> calls (m ≫= f).
Proof.
  intros Hm Hf s. unfold mbind, cl_bind. specialize (Hm s). destruct (m s) as [[a|err] s1]; [|done].
  etrans; [exact Hm|apply Hf].
Qed.
Lemma calls_cl_lift {A} (r : result EnrollmentError A) : calls (cl_lift r).
Proof. intros s. done. Qed.
Lemma calls_cl_now : calls (client_now relay).
Proof. intros [n s]. unfold later. constructor. Qed.
Lemma calls_cl_random : calls (client_random relay).
Proof. intros [n s]. unfold later. constructor. Qed.
Lemma calls_cl_post request : request_typed request -> calls (post relay request).
Proof.
  intros Hty s. unfold post. cbn [cl_post relay_client]. pose proof (handle_later e request s He Hty) as Hh.
  by destruct (handle _ _ request e s) as [[] s'].
Qed.

Ltac cl_calls := repeat first
  [ apply calls_cl_bind; [|intros ?] | apply calls_cl_lift | apply calls_cl_now | apply calls_cl_random | apply calls_cl_post; exact I ].

Lemma calls_token : calls (token_generate relay).
Proof. unfold token_generate. cl_calls. Qed.

Context (sign_message : list byte -> result EnrollmentError (list byte)).
Lemma calls_admin {T} `{Serialize T} id op (body : T) action route :
  (forall request, request_typed (route request)) -> calls (signed_admin_call relay sign_message id op body action route).
Proof. intros Hr. unfold signed_admin_call. cl_calls. apply calls_cl_post, Hr. Qed.
Lemma calls_status id op : calls (client_installation_status relay sign_message id op).
Proof. unfold client_installation_status. apply calls_cl_bind; [by apply calls_admin|intros ?]. unfold cl_reject. cl_calls. Qed.
Lemma calls_retire id op : calls (client_retire_installation relay sign_message id op).
Proof. unfold client_retire_installation. apply calls_cl_bind; [by apply calls_admin|intros ?]. apply calls_cl_lift. Qed.
Lemma calls_register id uri op : calls (client_register_acme_account relay sign_message id uri op).
Proof. unfold client_register_acme_account. apply calls_cl_bind; [by apply calls_admin|intros ?]. apply calls_cl_lift. Qed.
Lemma calls_issue id scope token op : calls (client_issue_credential relay sign_message id scope token op).
Proof. unfold client_issue_credential, cl_reject. cl_calls. Qed.
Lemma calls_enroll key pins op : calls (client_enroll relay sign_message key pins op).
Proof. unfold client_enroll, cl_reject. cl_calls. Qed.

(** A signed call that was answered is a request of that body the relay
    served. *)
Lemma admin_call_answered {T} `{Serialize T} id op (body : T) action route s response s' :
  signed_admin_call relay sign_message id op body action route s = (Ok response, s') ->
  exists request n, r_body request = body /\ handle uuid_parse_str st (route request) e (n, s.2) = (Ok response, s').
Proof.
  unfold signed_admin_call. intros (nonce & s1 & Hn & Hc)%cl_bind_ok. apply cl_bind_ok in Hc as (now & s2 & Ht & Hc).
  apply cl_bind_ok in Hc as (request & s3 & [Hr%signed_request_ok ->]%cl_lift_ok & Hc). injection Hn as _ <-. injection Ht as _ <-.
  exists request, (S (S s.1)). split; [done|]. unfold post in Hc. cbn [cl_post relay_client fst snd] in Hc.
  destruct (handle _ _ (route request) e (S (S s.1), s.2)) as [[resp|err] s4]; [|done]. by injection Hc as -> ->.
Qed.

Lemma status_answer id op s a s' :
  client_installation_status relay sign_message id op s = (Ok a, s') -> allocation_status id (api_db s'.2) = Some a.
Proof.
  unfold client_installation_status. intros (resp & s1 & Hcall & Hc)%cl_bind_ok.
  apply admin_call_answered in Hcall as (request & n & Hbody & Hh).
  apply cl_bind_ok in Hc as (a1 & ? & [Ha ->]%cl_lift_ok & Hc). apply cl_bind_ok in Hc as (u & ? & [_ ->]%cl_lift_ok & Hc).
  injection Hc as <- <-. cbn [handle] in Hh. apply ap_bind_ok in Hh as (a2 & s2 & Hs & Hret). injection Hret as <- <-.
  injection Ha as ->. unfold installation_status in Hs. rewrite Hbody in Hs. cbn [is_installation_id] in Hs.
  apply ap_bind_ok in Hs as (? & [n1 s3] & _ & Hs). apply ap_bind_ok in Hs as (? & [n2 s4] & _ & Hs).
  apply ap_bind_ok in Hs as (found & [n3 s5] & Hq & Hs). apply query_ok in Hq. unfold ap_some, ap_lift in Hs.
  apply pair_inj in Hs as [Hs%ok_or_ok <-]. cbn [snd]. by injection Hq as ->.
Qed.

(** Authorizing an administrator's request. *)
Lemma authorized_later (request : SignedRequest RetireRequest) n s u n' s' :
  authorize_admin st request RetireInstallation e (n, s) = (Ok u, (n', s')) -> later (n, s) (n', s').
Proof.
  destruct He as [Hq _]. intros Ha.
  refine (proj1 (apt_authorize_admin uuid_parse_str st e Hq s (PostRetire request) request RetireInstallation _ n s _ n' s'
    (start_holds _ _ _ _ _) Ha)).
  intros t d d' Hs. split; [done|by left].
Qed.

Lemma retire_transacted id op n s n' s' : retirements_recorded (api_db s) ->
  transact conflict_or_unavailable (Retire id op) (ack_tx (fun now => retire_tx now id op)) e (n, s) = (Ok tt, (n', s')) ->
  retired_in id (api_db s').
Proof.
  intros Hrec. unfold transact. cbn [fst snd]. destruct (n_fault e n) as [[]|]; [done|..];
    destruct (ack_tx _ _ _ _) as [res w] eqn:Hr; [done|]. destruct res as [[]|]; [|done]. intros Heq. injection Heq as _ <-.
  apply run_tx_ok in Hr as (d' & Hd & Hack). apply acknowledge_db in Hack. cbn in Hack. unfold api_db. cbn. rewrite Hack.
  eapply retire_tx_retires; [|exact Hd]. eapply retirements_history; [|exact Hrec]. apply He.
Qed.

Lemma retire_answer id op n s n' s' : retirements_recorded (api_db s) ->
  client_retire_installation relay sign_message id op (n, s) = (Ok tt, (n', s')) -> retired_in id (api_db s').
Proof.
  intros Hrec. unfold client_retire_installation. intros (resp & s0 & Hcall & Hc)%cl_bind_ok. apply cl_lift_ok in Hc as [_ Heq]. subst s0.
  apply admin_call_answered in Hcall as (request & n1 & Hbody & Hh). cbn [handle snd] in Hh.
  apply ap_bind_ok in Hh as (status & s2 & Hs & Hret). apply pair_inj in Hret as [_ Heq]. subst s2. unfold retire_installation in Hs.
  rewrite Hbody in Hs. cbn [rr_installation_id] in Hs.
  apply ap_bind_ok in Hs as (? & s3 & Hrej & Hs). apply pair_inj in Hrej as [_ <-].
  apply ap_bind_ok in Hs as ([] & [n4 s4] & Hauth & Hs). apply ap_bind_ok in Hs as ([] & [n5 s5] & Hrun & Hret). injection Hret as _ -> ->.
  pose proof (authorized_later _ _ _ _ _ _ Hauth) as Hh.
  eapply retire_transacted; [|exact Hrun]. by eapply retirements_history.
Qed.
End admin.

Section broker.
Context (uuid : nat -> Uuid) (files : string -> option SecretFile).
Local Abbreviation relay := (relay_broker uuid_parse_str st e clock uuid).

Lemma calls_br_bind {A B} (m : BrM A) (f : A -> BrM B) : calls m -> (forall a, calls (f a)) -> calls (m ≫= f).
Proof.
  intros Hm Hf s. unfold mbind, br_bind. specialize (Hm s). destruct (m s) as [[a|err] s1]; [|done].
  etrans; [exact Hm|apply Hf].
Qed.
Lemma calls_br_lift {A} (r : result ClientError A) : calls (br_lift r).
Proof. intros s. done. Qed.
Lemma calls_br_call pem request : request_typed request -> calls (call relay pem request).
Proof.
  intros Hty. apply calls_br_bind; [apply calls_br_lift|intros _ s]. unfold br_send. cbn [br_post relay_broker].
  pose proof (handle_later e request s He Hty) as Hh. by destruct (handle _ _ request e s) as [[] s'].
Qed.
Lemma calls_dns_request c request installation :
  (forall headers, request_typed (request headers)) -> calls (dns_request relay files c request installation).
Proof. intros Hr. apply calls_br_bind; [apply calls_br_lift|intros token]. apply calls_br_call, Hr. Qed.
Lemma calls_ensure c txt : calls (ensure relay files c txt).
Proof.
  apply calls_br_bind; [by apply calls_dns_request|intros response]. apply calls_br_bind; [apply calls_br_lift|intros state].
  apply calls_br_bind; [apply calls_br_lift|intros []]. apply calls_br_lift.
Qed.
Lemma calls_ready c txt revision : calls (ready relay files c txt revision).
Proof.
  apply calls_br_bind; [apply calls_br_lift|intros []]. apply calls_br_bind; [by apply calls_dns_request|intros response].
  apply calls_br_lift.
Qed.
End broker.
End calls.
