(* ===== verification/SmokeProperties.v ===== *)
(** * What the deployed smoke test guarantees

    Its waits end by the clock; run against the relay, whatever it enrolled it
    retires, and a run that passes attests that the whole relay worked. *)

From Stdlib Require Import Ascii String Strings.Byte.
From stdpp Require Import base strings list gmap.
From S2P Require Import Prelude Protocol Db Witness Store StoreCredentials StoreChallenges StoreLifecycle StoreHistory StoreInvariant.
From S2P Require Import StoreEffects StoreProperties ReceiptSigner ControlApi ControlLogic ControlProperties AdminClient ControlClient.
From S2P Require Import Ingress BrokerClient BrokerRelay RelayCalls DeployedSmoke.

(** ** The waits end *)
Section waits.
Context `{Signing} `{Serde} `{PemParser} {S : Type} (net : ProbeNet S) (time : S -> Z).

(** The relay's state carries a clock that no call turns back, that an instant
    reads, and that a sleep moves on by its duration at least. *)
Record clocked : Prop := {
  ck_instant : forall s, time s <= (pn_instant net s).1 <= time (pn_instant net s).2;
  ck_sleep : forall d s, time s + d <= time (pn_sleep net d s);
  ck_post : forall request s, time s <= time (cl_post (pn_client net) request s).2;
  ck_now : forall s, time s <= time (cl_now (pn_client net) s).2;
  ck_random : forall s, time s <= time (cl_random (pn_client net) s).2;
  ck_broker : forall request s, time s <= time (br_post (pn_broker net) request s).2;
  ck_uuid : forall s, time s <= time (br_uuid (pn_broker net) s).2
}.
Context (Hck : clocked).

Definition onward {A} (m : SmM (S := S) A) : Prop := forall s, time (sm_relay s) <= time (sm_relay (m s).2).

Lemma onward_bind {A B} (m : SmM A) (f : A -> SmM B) : onward m -> (forall a, onward (f a)) -> onward (m ≫= f).
Proof.
  intros Hm Hf s. unfold mbind, sm_bind. specialize (Hm s). destruct (m s) as [[a|err] s1]; [|done].
  specialize (Hf a s1). cbn in *. lia.
Qed.
Lemma onward_lift {A} (r : result string A) : onward (sm_lift r).
Proof. intros s. cbn. lia. Qed.
Lemma onward_interrupted : onward (interrupted net).
Proof. intros s. unfold interrupted. destruct (pn_signal net _) as [[]|]; cbn; lia. Qed.
Lemma onward_awaiting {A} (m : SmM A) : onward m -> onward (awaiting net m).
Proof.
  intros Hm. apply onward_bind; [apply onward_interrupted|intros []]. apply onward_bind; [exact Hm|intros a].
  apply onward_bind; [apply onward_interrupted|intros []]. apply onward_lift.
Qed.
Lemma onward_println line : onward (println line).
Proof. intros s. cbn. lia. Qed.
Lemma onward_relay {A} (f : S -> A * S) : (forall s, time s <= time (f s).2) -> onward (on_relay f).
Proof. intros Hf s. unfold on_relay. specialize (Hf (sm_relay s)). by destruct (f (sm_relay s)). Qed.
Lemma onward_wait allocation step attempts : onward (wait_line allocation step attempts).
Proof. unfold wait_line. case_match; [apply onward_println|apply onward_lift]. Qed.

(** The same of the clients' calls. *)
Lemma time_cl_bind {A B} (m : ClM (S := S) A) (f : A -> ClM B) :
  (forall s, time s <= time (m s).2) -> (forall a s, time s <= time (f a s).2) -> forall s, time s <= time ((m ≫= f) s).2.
Proof.
  intros Hm Hf s. unfold mbind, cl_bind. specialize (Hm s). destruct (m s) as [[a|err] s1]; [|done].
  specialize (Hf a s1). cbn in *. lia.
Qed.
Lemma time_status sign id op s : time s <= time (client_installation_status (pn_client net) sign id op s).2.
Proof.
  assert (forall request s, time s <= time (post (pn_client net) request s).2) as Hpost.
  { intros request s1. unfold post. pose proof (ck_post Hck request s1). by destruct (cl_post _ request s1). }
  unfold client_installation_status, signed_admin_call.
  repeat first [apply time_cl_bind; [|intros ?] | intros ?; cbn; lia]; clear s; intros s; [| |apply Hpost].
  - unfold client_random. pose proof (ck_random Hck s). by destruct (cl_random _ s).
  - unfold client_now. pose proof (ck_now Hck s). by destruct (cl_now _ s).
Qed.
Lemma onward_ready message client txt revision :
  onward (broker message (fun files => ready (pn_broker net) files client txt revision)).
Proof.
  intros s. unfold broker. destruct (ready _ _ client txt revision (sm_relay s)) as [r s1] eqn:Hr. cbn.
  replace s1 with (ready (pn_broker net) (fun path => sm_files s !! path) client txt revision (sm_relay s)).2 by (by rewrite Hr).
  clear Hr. unfold ready, dns_request, call, br_send, br_lift, mbind, br_bind.
  destruct (map_err _ _); [|cbn; lia]. destruct (read_credential _); [|cbn; lia]. destruct (pinned_roots _); [|cbn; lia].
  match goal with |- context [br_post _ ?request _] => pose proof (ck_broker Hck request (sm_relay s)) as Ht;
    destruct (br_post (pn_broker net) request (sm_relay s)) as [[response|] s2] end; exact Ht.
Qed.

Lemma sm_bind_eq {A B} (m : SmM (S := S) A) (f g : A -> SmM B) s :
  (forall a s1, m s = (Ok a, s1) -> f a s1 = g a s1) -> (m ≫= f) s = (m ≫= g) s.
Proof. intros Hfg. unfold mbind, sm_bind. destruct (m s) as [[a|err] s1]; [by apply Hfg|done]. Qed.

Lemma onward_ok {A} (m : SmM A) s a s1 : onward m -> m s = (Ok a, s1) -> time (sm_relay s) <= time (sm_relay s1).
Proof. intros Hm Heq. specialize (Hm s). by rewrite Heq in Hm. Qed.

Lemma instant_ok s now s1 : instant net s = (Ok now, s1) -> time (sm_relay s) <= now <= time (sm_relay s1).
Proof.
  unfold instant, on_relay. pose proof (ck_instant Hck (sm_relay s)). destruct (pn_instant net (sm_relay s)) as [t r].
  by intros [= <- <-].
Qed.

Lemma sleep_ok duration s u s1 : sleep net duration s = (Ok u, s1) -> time (sm_relay s) + duration <= time (sm_relay s1).
Proof.
  unfold sleep, awaiting. unfold mbind at 1, sm_bind at 1. pose proof (onward_interrupted s) as Hi.
  destruct (interrupted net s) as [[[]|] s2]; [|done]. cbn in Hi. unfold mbind at 1, sm_bind at 1. cbn [on_relay].
  pose proof (onward_interrupted (with_relay (pn_sleep net duration (sm_relay s2)) s2)) as Hj.
  unfold mbind, sm_bind. destruct (interrupted net (with_relay _ s2)) as [[[]|] s3]; [|done]. intros [= _ <-].
  cbn in Hj. pose proof (ck_sleep Hck duration (sm_relay s2)). lia.
Qed.

(** One turn of a loop that ends by the clock does not need another round. *)
Lemma next_round {A} (m : SmM A) (f : nat -> SmM unit) rounds k deadline now s a s1 :
  (forall s, (0 < rounds)%nat -> deadline <= time (sm_relay s) + POLL_INTERVAL * (Z.of_nat rounds - 1) ->
     f (rounds + k)%nat s = f rounds s) ->
  onward m -> m s = (Ok a, s1) -> now < deadline -> now <= time (sm_relay s) ->
  deadline <= now + POLL_INTERVAL * Z.of_nat rounds ->
  (sleep net POLL_INTERVAL ≫= fun _ => f (rounds + k)%nat) s1 = (sleep net POLL_INTERVAL ≫= fun _ => f rounds) s1.
Proof.
  intros Hf Hm Heq Hnow Hle Hd. apply (onward_ok m) in Heq; [|done].
  apply sm_bind_eq. intros u s2 Hs%sleep_ok. unfold POLL_INTERVAL, seconds in *. apply Hf; [|nia].
  destruct rounds; [lia|lia].
Qed.

Lemma dns_ready_rounds key allocation rounds k deadline attempts s :
  (0 < rounds)%nat -> deadline <= time (sm_relay s) + POLL_INTERVAL * (Z.of_nat rounds - 1) ->
  dns_ready_loop net key allocation (rounds + k) deadline attempts s = dns_ready_loop net key allocation rounds deadline attempts s.
Proof.
  revert attempts s. induction rounds as [|rounds IH]; intros attempts s Hpos Hd; [lia|]. cbn [Nat.add dns_ready_loop].
  apply sm_bind_eq. intros op s1 Hop. apply onward_ok in Hop; [|apply onward_relay, Hck].
  apply sm_bind_eq. intros status s2 Hst. apply onward_ok in Hst.
  2: { intros s3. unfold admin. pose proof (time_status (signer key) (a_installation_id allocation) op (sm_relay s3)).
       by destruct (client_installation_status _ _ _ _ _). }
  destruct (a_state status); [|done|done]. apply sm_bind_eq. intros now s3 Hnow%instant_ok.
  destruct (now <? deadline) eqn:Hlt; [|done]. apply Z.ltb_lt in Hlt. apply sm_bind_eq. intros u s4 Hw.
  eapply (next_round _ (fun n => dns_ready_loop net key allocation n deadline (attempts + 1))); [|apply onward_wait|exact Hw|exact Hlt|lia|lia].
  intros s5 ? ?. by apply IH.
Qed.

Lemma challenge_ready_rounds allocation rounds k deadline attempts client txt revision s :
  (0 < rounds)%nat -> deadline <= time (sm_relay s) + POLL_INTERVAL * (Z.of_nat rounds - 1) ->
  challenge_ready_loop net allocation (rounds + k) deadline attempts client txt revision s =
    challenge_ready_loop net allocation rounds deadline attempts client txt revision s.
Proof.
  revert attempts s. induction rounds as [|rounds IH]; intros attempts s Hpos Hd; [lia|]. cbn [Nat.add challenge_ready_loop].
  apply sm_bind_eq. intros now s1 Hnow%instant_ok. destruct (now <? deadline) eqn:Hlt; [|done]. apply Z.ltb_lt in Hlt.
  apply sm_bind_eq. intros published s2 Hp. apply onward_ok in Hp; [|apply onward_awaiting, onward_ready].
  destruct published; [done|]. apply sm_bind_eq. intros u s3 Hw.
  eapply (next_round _ (fun n => challenge_ready_loop net allocation n deadline (attempts + 1) client txt revision));
    [|apply onward_wait|exact Hw|exact Hlt|lia|lia].
  intros s5 ? ?. by apply IH.
Qed.
End waits.

Section endings.
Context `{Signing} `{Serde} `{PemParser} {S : Type} (net : ProbeNet S) (time : S -> Z).

(** the waits of the smoke test end by the clock. With a clock that no
    call turns back and that a sleep moves on, the loops that wait for DNS and
    for the challenge take at most 151 rounds: more rounds change nothing, in
    whatever way the relay answers. *)
Theorem smoke_waits_end key allocation client txt revision k s : clocked net time ->
  (instant net ≫= fun start => dns_ready_loop net key allocation (POLL_ROUNDS + k) (start + POLL_LIMIT) 0) s =
    await_dns_ready net key allocation s /\
  (instant net ≫= fun start => challenge_ready_loop net allocation (POLL_ROUNDS + k) (start + POLL_LIMIT) 0 client txt revision) s =
    await_challenge_ready net allocation client txt revision s.
Proof.
  intros Hck. split; apply sm_bind_eq; intros start s1 Hs%(instant_ok net time Hck);
    [apply (dns_ready_rounds net time Hck)|apply (challenge_ready_rounds net time Hck)];
    unfold POLL_ROUNDS, POLL_LIMIT, POLL_INTERVAL, seconds; lia.
Qed.
End endings.

(** ** Against the relay *)
Section relay.
Context {St3 : S3} {Cr : Crypto} {Sg : Signing} {SgL : SigningLaws} {Sd : Serde} {B32 : Base32} {HexC : Hex} {Pem : PemParser} {TS : TrustStore}.
Context (uuid_parse_str : string -> option Uuid) (st : AppState).
Local Abbreviation cfg := (st_config st).
Local Abbreviation Relay := (nat * Api)%type.
Local Abbreviation later := (later st).

(** The probe's clients talk to the control API; its clock and its sleeps let
    other processes run. *)
Record over_relay (e : ApiEnv) (clock : nat -> Z) (random : nat -> list byte) (uuid : nat -> Uuid) (source : IpAddr)
    (net : ProbeNet Relay) : Prop := {
  or_client : pn_client net = relay_client uuid_parse_str st e clock random source;
  or_broker : pn_broker net = relay_broker uuid_parse_str st e clock uuid;
  or_instant : forall s, later s (pn_instant net s).2;
  or_sleep : forall d s, later s (pn_sleep net d s)
}.

Context (e : ApiEnv) (He : api_env st e) (clock : nat -> Z) (random : nat -> list byte) (uuid : nat -> Uuid) (source : IpAddr).
Context (net : ProbeNet Relay) (Hnet : over_relay e clock random uuid source net).

(** The lines that report a passed step. *)
Definition passes (s : Smoke Relay) : list string := filter (fun line => starts_with "PASS" line = true) (sm_out s).
Definition quietly (s s' : Smoke Relay) : Prop := later (sm_relay s) (sm_relay s') /\ passes s' = passes s.
Definition lasting (F : Smoke Relay -> Prop) : Prop := forall s s', quietly s s' -> F s -> F s'.

(** A step of the walk: the relay only moves by store requests, and a step
    that succeeds establishes [G]. *)
Definition walk {A} (F : Smoke Relay -> Prop) (m : SmM A) (G : A -> Smoke Relay -> Prop) : Prop := forall s r s',
  F s -> m s = (r, s') -> later (sm_relay s) (sm_relay s') /\ match r with Ok a => G a s' | Err _ => True end.

Lemma walk_bind {A B} F (m : SmM A) (f : A -> SmM B) G R : walk F m G -> (forall a, walk (G a) (f a) R) -> walk F (m ≫= f) R.
Proof.
  intros Hm Hf s r s' HF. unfold mbind, sm_bind. destruct (m s) as [[a|err] s1] eqn:Hm1; destruct (Hm _ _ _ HF Hm1) as [Hl HG].
  - intros Hr. destruct (Hf a _ _ _ HG Hr) as [Hl' HR]. split; [by etrans|done].
  - by intros [= <- <-].
Qed.
Lemma walk_lift {A} F (r : result string A) : walk F (sm_lift r) (fun a s => F s /\ r = Ok a).
Proof. intros s r' s' HF [= <- <-]. split; [done|]. by destruct r. Qed.
Lemma walk_ret {A} (F : Smoke Relay -> Prop) (a : A) G : (forall s, F s -> G a s) -> walk F (mret a) G.
Proof. intros HG s r s' HF [= <- <-]. split; [done|]. by apply HG. Qed.
Lemma walk_conseq {A} (F F' : Smoke Relay -> Prop) (m : SmM A) (G G' : A -> Smoke Relay -> Prop) :
  (forall s, F s -> F' s) -> (forall a s, G' a s -> G a s) -> walk F' m G' -> walk F m G.
Proof. intros HF HG Hm s r s' Hs Hr. destruct (Hm _ _ _ (HF _ Hs) Hr) as [Hl Ha]. split; [done|]. destruct r; auto. Qed.
Lemma walk_interrupted F : lasting F -> walk F (interrupted net) (fun _ => F).
Proof.
  intros HF s r s' Hs. unfold interrupted.
  destruct (pn_signal net _) as [[]|]; intros [= <- <-]; (split; [done|]); try done. eapply HF; [|exact Hs]. done.
Qed.
Lemma walk_awaiting {A} F (m : SmM A) G : lasting F -> (forall a, lasting (G a)) -> walk F m G -> walk F (awaiting net m) G.
Proof.
  intros HF HG Hm. eapply walk_bind; [by apply walk_interrupted|intros []]. eapply walk_bind; [exact Hm|intros a].
  eapply walk_bind; [apply walk_interrupted, HG|intros []]. by apply walk_ret.
Qed.
Lemma walk_relay {A} F (f : Relay -> A * Relay) : lasting F -> (forall s, later s (f s).2) -> walk F (on_relay f) (fun _ => F).
Proof.
  intros HF Hf s r s' Hs. unfold on_relay. specialize (Hf (sm_relay s)). destruct (f (sm_relay s)) as [a r1]. intros [= <- <-].
  split; [exact Hf|]. eapply HF; [|exact Hs]. split; [exact Hf|done].
Qed.

Lemma walk_admin {A} (F : Smoke Relay -> Prop) message (m : ClM (S := Relay) A) (G : A -> Smoke Relay -> Prop) :
  (forall s, later s (m s).2) ->
  (forall s a r, F s -> m (sm_relay s) = (Ok a, r) -> later (sm_relay s) r -> G a (with_relay r s)) -> walk F (admin message m) G.
Proof.
  intros Hm HG s r s' Hs. unfold admin. specialize (Hm (sm_relay s)). destruct (m (sm_relay s)) as [[a|err] r1] eqn:Hr; intros [= <- <-];
    (split; [exact Hm|]); [|done]. by eapply HG.
Qed.
Lemma walk_broker {A} (F : Smoke Relay -> Prop) message (m : (string -> option SecretFile) -> BrM (S := Relay) A) (G : A -> Smoke Relay -> Prop) :
  (forall files s, later s (m files s).2) ->
  (forall s files a r, F s -> m files (sm_relay s) = (Ok a, r) -> later (sm_relay s) r -> G a (with_relay r s)) -> walk F (broker message m) G.
Proof.
  intros Hm HG s r s' Hs. unfold broker. specialize (Hm (fun path => sm_files s !! path) (sm_relay s)).
  destruct (m _ (sm_relay s)) as [[a|err] r1] eqn:Hr; intros [= <- <-]; (split; [exact Hm|]); [|done]. by eapply HG.
Qed.

Section allocation.
Context (key : SigningKey) (allocation : Allocation) (s0 : Relay) (base : list string).
Local Abbreviation id := (a_installation_id allocation).

Definition pass_line (step : string) : string :=
  "PASS" +:+ " " +:+ step +:+ " " +:+ uuid_to_string id +:+ " " +:+ a_hostname allocation.

(** What the relay showed at some moment since [s0]. *)
Definition seen (P : Relay -> Prop) (s : Relay) : Prop := exists s1, later s0 s1 /\ later s1 s /\ P s1.
Definition enduring (X : Relay -> Prop) : Prop := forall s s', later s s' -> X s -> X s'.

(** The steps passed so far, and a fact that the relay keeps. *)
Definition so_far (steps : list string) (X : Relay -> Prop) (s : Smoke Relay) : Prop :=
  passes s = base ++ (pass_line <$> steps) /\ X (sm_relay s).

Lemma seen_enduring P : enduring (seen P).
Proof. intros s s' Hl (s1 & ? & ? & ?). exists s1. split_and!; [done|by etrans|done]. Qed.
Lemma since_enduring : enduring (later s0).
Proof. intros s s' Hl Hs. by etrans. Qed.
Lemma enduring_and X Y : enduring X -> enduring Y -> enduring (fun s => X s /\ Y s).
Proof. intros HX HY s s' Hl [? ?]. split; [by eapply HX|by eapply HY]. Qed.
Lemma so_far_lasting steps X : enduring X -> lasting (so_far steps X).
Proof. intros HX s s' [Hl Hp] [Hs Hx]. split; [by rewrite Hp|by eapply HX]. Qed.

Lemma walk_pass steps X step : walk (so_far steps X) (pass step allocation) (fun _ => so_far (steps ++ [step]) X).
Proof.
  intros s r s' [Hp HX] Hr. unfold pass, report in Hr. apply pair_inj in Hr as [<- <-]. split; [done|]. split; [|exact HX].
  unfold passes in *. cbn [sm_out]. rewrite filter_app, Hp, fmap_app, app_assoc. f_equal.
Qed.
Lemma walk_wait_line steps X step attempts : walk (so_far steps X) (wait_line allocation step attempts) (fun _ => so_far steps X).
Proof.
  unfold wait_line. case_match; [|by apply walk_ret]. intros s r s' [Hp HX] Hr. unfold report in Hr. apply pair_inj in Hr as [<- <-].
  split; [done|]. split; [|exact HX]. unfold passes in *. cbn [sm_out]. rewrite filter_app, Hp. by rewrite app_nil_r.
Qed.
Lemma walk_sleep steps X d : enduring X -> walk (so_far steps X) (sleep net d) (fun _ => so_far steps X).
Proof.
  intros HX. apply walk_awaiting; [by apply so_far_lasting|intros _; by apply so_far_lasting|].
  apply walk_relay; [by apply so_far_lasting|]. apply Hnet.
Qed.
Lemma walk_uuid steps X : enduring X -> walk (so_far steps X) (new_uuid net) (fun _ => so_far steps X).
Proof. intros HX. apply walk_relay; [by apply so_far_lasting|]. intros s. rewrite (or_broker _ _ _ _ _ _ Hnet). apply history_refl. Qed.
Lemma walk_instant steps X : enduring X -> walk (so_far steps X) (instant net) (fun _ => so_far steps X).
Proof. intros HX. apply walk_relay; [by apply so_far_lasting|]. apply Hnet. Qed.
Lemma walk_random steps X : enduring X -> walk (so_far steps X) (random_dns_value net) (fun _ => so_far steps X).
Proof.
  intros HX. eapply walk_bind; [apply (walk_relay (so_far steps X)); [by apply so_far_lasting|]|intros value; by apply walk_ret].
  intros s. rewrite (or_client _ _ _ _ _ _ Hnet). apply history_refl.
Qed.
Lemma walk_bail {A} F message (G : A -> Smoke Relay -> Prop) : walk F (bail message) G.
Proof. intros s r s' _ [= <- <-]. done. Qed.

(** A call that changes what is known of the relay. *)
Lemma walk_call {A} steps X message (m : ClM (S := Relay) A) (Y : A -> Relay -> Prop) :
  enduring X -> (forall s, later s (m s).2) -> (forall s a r, X s -> m s = (Ok a, r) -> Y a r) ->
  walk (so_far steps X) (admin message m) (fun a => so_far steps (fun s => X s /\ Y a s)).
Proof.
  intros HX Hm HY. apply walk_admin; [done|]. intros s a r [Hp Hx] Hr Hl. split; [exact Hp|]. split; [by eapply HX|by eapply HY].
Qed.

Lemma walk_write (F : Smoke Relay -> Prop) directory name secret :
  lasting F -> walk F (write_secret net directory name secret) (fun _ => F).
Proof.
  intros HF s r s' Hs. unfold write_secret. destruct (pn_write net _); intros [= <- <-]; (split; [done|]); try done.
  eapply HF; [|exact Hs]. done.
Qed.

(** ** The steps of the walk *)
Lemma credential_walked steps X scope failure directory name step : enduring X ->
  walk (so_far steps X) (credential_walk net key allocation scope failure directory name step) (fun _ => so_far (steps ++ [step]) X).
Proof.
  intros HX. unfold credential_walk. eapply walk_bind; [apply (walk_call _ _ _ _ (fun _ _ => True)); [done| |done]|intros token].
  { rewrite (or_client _ _ _ _ _ _ Hnet). by apply (calls_token uuid_parse_str st e clock). }
  eapply walk_bind; [eapply walk_conseq; [|done|by apply walk_uuid]|intros op].
  { intros s [Hp [Hx _]]. by split. }
  eapply walk_bind; [apply (walk_call _ _ _ _ (fun _ _ => True)); [done| |done]|intros receipt].
  { rewrite (or_client _ _ _ _ _ _ Hnet). by apply (calls_issue uuid_parse_str st e He clock). }
  eapply walk_bind; [eapply walk_conseq; [|done|apply walk_write; by apply so_far_lasting]|intros path].
  { intros s [Hp [Hx _]]. by split. }
  eapply walk_bind; [apply walk_pass|intros []]. by apply walk_ret.
Qed.

Definition dns_was_ready (s : Relay) : Prop :=
  exists row, d_installations (api_db s.2) !! id = Some row /\ i_state row = DnsReady.

Lemma dns_loop_walked steps X rounds deadline attempts : enduring X -> (forall s, X s -> later s0 s) ->
  walk (so_far steps X) (dns_ready_loop net key allocation rounds deadline attempts)
    (fun _ => so_far steps (fun s => X s /\ seen dns_was_ready s)).
Proof.
  intros HX Hs0. revert attempts. induction rounds as [|rounds IH]; intros attempts; [apply walk_bail|]. cbn [dns_ready_loop].
  eapply walk_bind; [by apply walk_uuid|intros op].
  eapply walk_bind; [apply (walk_call _ _ _ _ (fun a s => allocation_status id (api_db s.2) = Some a)); [done|..]|intros status].
  { rewrite (or_client _ _ _ _ _ _ Hnet). by apply (calls_status uuid_parse_str st e He clock). }
  { intros s a r _. rewrite (or_client _ _ _ _ _ _ Hnet). apply status_answer. }
  destruct (a_state status) eqn:Hstate.
  - eapply walk_bind; [eapply walk_conseq; [|done|by apply walk_instant]|intros now]. { intros s [Hp [Hx _]]. by split. }
    destruct (now <? deadline); [|apply walk_bail]. eapply walk_bind; [apply walk_wait_line|intros []].
    eapply walk_bind; [by apply walk_sleep|intros []]. apply IH.
  - apply walk_ret. intros s (Hp & Hx & Ha). split; [done|]. split; [done|]. exists (sm_relay s). split_and!; [by apply Hs0|done|].
    unfold allocation_status in Ha. destruct (d_installations _ !! id) as [row|] eqn:Hrow; [|done].
    injection Ha as <-. by exists row.
  - apply walk_bail.
Qed.

Definition published (txt : string) (s : Relay) : Prop :=
  is_live (p_now s.2) id txt (api_db s.2) = true /\
  exists row, d_challenge_state (api_db s.2) !! id = Some row /\ s_ready_revision row = Some (s_revision row).

Lemma challenge_loop_walked steps X rounds deadline attempts client txt revision :
  enduring X -> (forall s, X s -> later s0 s) -> dc_installation_id client = id ->
  walk (so_far steps X) (challenge_ready_loop net allocation rounds deadline attempts client txt revision)
    (fun _ => so_far steps (fun s => X s /\ seen (published txt) s)).
Proof.
  intros HX Hs0 Hid. revert attempts. induction rounds as [|rounds IH]; intros attempts; [apply walk_bail|]. cbn [challenge_ready_loop].
  eapply walk_bind; [by apply walk_instant|intros now]. destruct (now <? deadline); [|apply walk_bail].
  eapply walk_bind with (G := fun published_ : bool => so_far steps (fun s => X s /\ (published_ = true -> seen (published txt) s))).
  - apply walk_awaiting; [by apply so_far_lasting| |].
    { intros b. apply so_far_lasting. intros s s' Hl [Hx Hb]. split; [by eapply HX|]. intros Ht. by eapply seen_enduring, Hb. }
    apply walk_broker; [intros files; rewrite (or_broker _ _ _ _ _ _ Hnet); by apply (calls_ready uuid_parse_str st e He clock)|].
    intros s files b [n r] [Hp Hx] Hr Hl. split; [done|]. split; [by eapply HX|]. intros ->. destruct (sm_relay s) as [n0 r0].
    rewrite (or_broker _ _ _ _ _ _ Hnet) in Hr. apply challenge_ready_is_published in Hr as (_ & Hlive & row & Hrow & Hready & _).
    rewrite Hid in Hlive, Hrow. exists (n, r). split_and!; [etrans; [by apply Hs0|done]|done|]. split; [done|]. by exists row.
  - intros [].
    + apply walk_ret. intros s (Hp & Hx & Hb). split; [done|]. split; [done|by apply Hb].
    + eapply walk_bind; [eapply walk_conseq; [|done|apply (walk_wait_line steps X)]|intros []]. { intros s [Hp [Hx _]]. by split. }
      eapply walk_bind; [by apply walk_sleep|intros []]. apply IH.
Qed.

(** A probe that succeeded read the server's answer. *)
Definition answered (i : nat) : Prop := pt_read (pn_probe net i) = InTime (Some PONG).
Lemma probe_answered i : probe_once (pn_probe net i) = Ok tt -> answered i.
Proof.
  unfold probe_once, answered. intros Hp. apply bind_ok in Hp as (? & _ & Hp). apply bind_ok in Hp as (? & _ & Hp).
  apply bind_ok in Hp as (? & _ & Hp). apply bind_ok in Hp as (? & _ & Hp). apply bind_ok in Hp as (pong & Hr & Hp%reject_if_ok).
  to_prop. destruct (pt_read _) as [|[bytes|]]; [done| |done]. injection Hr as ->. by rewrite Hp.
Qed.

(** The tunnel of attempt [i] was accepted by the gateway, and ended in order
    when it was told to. *)
Definition carried (config : TunnelConfig) (i : nat) : Prop := exists t,
  tunnel_new config CEREMONY_UPSTREAM = Ok (rt_client t) /\ rt_net t = pn_tunnel net i /\ tr_ready (outcome_after t []).2 = true /\
  (outcome_after t (tn_events (rt_net t) ++ [Shutdown])).1 = Some (Ok tt).

Definition running (config : TunnelConfig) (i : nat) (t : RunningTunnel) : Prop :=
  tunnel_new config CEREMONY_UPSTREAM = Ok (rt_client t) /\ rt_net t = pn_tunnel net i /\ tr_ready (outcome_after t []).2 = true.

Lemma lasting_pure (F : Smoke Relay -> Prop) (P : Prop) : lasting F -> lasting (fun s => F s /\ P).
Proof. intros HF s s' Hq [Hs HP]. split; [by eapply HF|done]. Qed.

Lemma tunnel_started F config i : lasting F -> walk F (start_tunnel net i config) (fun t s => F s /\ running config i t).
Proof.
  intros HF. unfold start_tunnel. eapply walk_bind; [apply walk_lift|intros client].
  apply walk_awaiting; [by apply lasting_pure|intros t; by apply lasting_pure|].
  intros s r s' [Hs Hc]. destruct (tunnel_new config CEREMONY_UPSTREAM) as [c|] eqn:Hnew; [|done]. injection Hc as ->.
  destruct (tn_watch _); [|intros [= <- <-]; done..]. destruct (tr_ready _) eqn:Hready; intros [= <- <-]; [|done].
  split; [done|]. split; [done|]. by split_and!.
Qed.

Lemma tunnel_stopped F t : lasting F ->
  walk F (stop_tunnel net t) (fun _ s => F s /\ (outcome_after t (tn_events (rt_net t) ++ [Shutdown])).1 = Some (Ok tt)).
Proof.
  intros HF. apply walk_awaiting; [done|intros []; by apply lasting_pure|]. eapply walk_conseq; [done| |apply walk_lift].
  intros [] s [Hs Hr]. split; [done|]. destruct (tn_joined _) as [|[]]; try done. by destruct (outcome_after _ _).1 as [[[]|]|].
Qed.

Lemma probes_joined F i count : lasting F -> walk F (join_probes net i count) (fun _ s => F s /\ forall j, (i <= j < i + count)%nat -> answered j).
Proof.
  intros HF. revert F HF i. induction count as [|count IH]; intros F HF i; cbn [join_probes]; [apply walk_ret; intros s Hs; split; [done|lia]|].
  eapply walk_bind with (G := fun _ s => F s /\ answered i).
  - apply walk_awaiting; [done|intros []; by apply lasting_pure|]. eapply walk_conseq; [done| |apply walk_lift].
    intros [] s [Hs Hr]. split; [done|]. destruct (pn_panicked net i); [done|]. by apply probe_answered.
  - intros []. eapply walk_conseq; [intros s Hs; exact Hs| |apply (IH (fun s => F s /\ answered i)); by apply lasting_pure].
    intros [] s [[Hs Hi] Hj]. split; [done|]. intros j Hr.
    destruct (decide (j = i)) as [->|]; [done|]. apply Hj. lia.
Qed.

Lemma walk_knowing {A} F (P : Prop) (m : SmM A) G : (P -> walk F m G) -> walk (fun s => F s /\ P) m G.
Proof. intros Hm s r s' [Hs HP]. by apply Hm. Qed.
Lemma walk_then {A} F (P : Prop) (m : SmM A) (G : A -> Smoke Relay -> Prop) : P -> walk F m G -> walk F m (fun a s => G a s /\ P).
Proof. intros HP Hm s r s' Hs Hr. destruct (Hm _ _ _ Hs Hr) as [Hl Hg]. split; [done|]. by destruct r. Qed.

Definition tunnel_config (inputs : Inputs) (path : string) : TunnelConfig :=
  {| tc_gateway := in_gateway inputs; tc_control_server_name := CONTROL_SERVER_NAME; tc_hostname := a_hostname allocation;
     tc_installation_id := id; tc_credential_path := path |}.
Definition streams_worked (inputs : Inputs) (path : string) : Prop :=
  carried (tunnel_config inputs path) 0 /\ carried (tunnel_config inputs path) 1 /\ forall i, (i < 9)%nat -> answered i.

Lemma tunnels_walked steps X inputs path : enduring X ->
  walk (so_far steps X) (tunnel_walk net allocation inputs path)
    (fun _ s => so_far (steps ++ ["concurrent-streams"%string] ++ ["tunnel-reconnect"%string]) X s /\ streams_worked inputs path).
Proof.
  intros HX. assert (forall steps, lasting (so_far steps X)) as Hlast by (intros; by apply so_far_lasting).
  unfold tunnel_walk. do 4 (eapply walk_bind; [apply walk_lift|intros ?; apply walk_knowing; intros _]).
  fold (tunnel_config inputs path). set (config := tunnel_config inputs path).
  eapply walk_bind; [by apply tunnel_started|intros first]. apply walk_knowing. intros (Hn1 & Ht1 & Hr1).
  eapply walk_bind; [by apply probes_joined|intros []]. apply walk_knowing. intros Hprobes.
  eapply walk_bind; [apply walk_pass|intros []].
  eapply walk_bind; [by apply tunnel_stopped|intros []]. apply walk_knowing. intros He1.
  eapply walk_bind; [by apply tunnel_started|intros second]. apply walk_knowing. intros (Hn2 & Ht2 & Hr2).
  eapply walk_bind with (G := fun _ s => so_far (steps ++ ["concurrent-streams"%string]) X s /\ answered 8).
  { apply walk_awaiting; [done|intros []; by apply lasting_pure|]. eapply walk_conseq; [done| |apply walk_lift].
    intros [] s [Hs Hp]. split; [done|by apply probe_answered]. }
  intros []. apply walk_knowing. intros H8. eapply walk_bind; [apply walk_pass|intros []]. rewrite <-app_assoc.
  eapply walk_conseq; [done| |by apply tunnel_stopped]. intros [] s [Hs He2]. split; [done|]. split_and!; [by exists first|by exists second|].
  intros i Hi. destruct (decide (i = 8%nat)) as [->|]; [done|]. apply Hprobes. lia.
Qed.

Lemma challenge_walked steps X client txt : enduring X -> (forall s, X s -> later s0 s) -> dc_installation_id client = id ->
  walk (so_far steps X) (challenge_walk net allocation client txt)
    (fun _ => so_far (steps ++ ["dns-challenge-ready"%string]) (fun s => X s /\ seen (published txt) s)).
Proof.
  intros HX Hs0 Hid. unfold challenge_walk.
  eapply walk_bind; [apply walk_awaiting; [by apply so_far_lasting|intros a; cbv beta; by apply (so_far_lasting steps X)|]|intros ensured].
  { apply walk_broker; [intros files; rewrite (or_broker _ _ _ _ _ _ Hnet); by apply (calls_ensure uuid_parse_str st e He clock)|].
    intros s files a r [Hp Hx] _ Hl. split; [exact Hp|by eapply HX]. }
  eapply walk_bind; [eapply walk_bind; [by apply walk_instant|intros start; by apply challenge_loop_walked]|intros []].
  apply walk_pass.
Qed.

Definition WALK : list string :=
  ["tunnel-credential"; "dns-credential"; "acme-account"; "dns-ready"; "dns-challenge-ready"; "concurrent-streams"; "tunnel-reconnect"]%string.

Lemma enrolled_walked steps X inputs temp : enduring X -> (forall s, X s -> later s0 s) ->
  walk (so_far steps X) (run_enrolled net key allocation inputs temp)
    (fun _ s => (exists path, streams_worked inputs path) /\ exists txt,
       so_far (steps ++ WALK) (fun s => X s /\ seen dns_was_ready s /\ seen (published txt) s) s).
Proof.
  intros HX Hs0. set (X1 := fun s => X s /\ seen dns_was_ready s).
  assert (enduring X1) as HX1 by (apply enduring_and; [done|apply seen_enduring]).
  unfold run_enrolled. eapply walk_bind; [by apply walk_interrupted, so_far_lasting|intros []].
  eapply walk_bind; [by apply credential_walked|intros tunnel_path]. eapply walk_bind; [by apply credential_walked|intros dns_path].
  eapply walk_bind; [by apply walk_uuid|intros op].
  eapply walk_bind; [apply (walk_call _ _ _ _ (fun _ _ => True)); [done| |done]|intros []].
  { rewrite (or_client _ _ _ _ _ _ Hnet). by apply (calls_register uuid_parse_str st e He clock). }
  eapply walk_bind; [eapply walk_conseq; [|done|eapply (walk_pass _ X)]|intros []]. { intros s [Hp [Hx _]]. by split. }
  eapply walk_bind; [eapply walk_bind; [by apply walk_instant|intros start; by apply dns_loop_walked]|intros []].
  eapply walk_bind; [eapply (walk_pass _ X1)|intros []]. eapply walk_bind; [apply walk_lift|intros client]. apply walk_knowing. intros Hclient.
  assert (dc_installation_id client = id) as Hid.
  { unfold dns_client_new in Hclient. destruct (_ || _ || _); [done|]. by injection Hclient as <-. }
  eapply walk_bind; [by eapply (walk_random _ X1)|].
  intros txt. set (X2 := fun s => X1 s /\ seen (published txt) s).
  assert (enduring X2) as HX2 by (apply enduring_and; [done|apply seen_enduring]).
  eapply walk_bind; [by apply challenge_walked; [|intros s [Hx _]; apply Hs0|]|intros []].
  eapply walk_conseq; [done| |by eapply (tunnels_walked _ X2)]. intros [] s [[Hp Hx] Hw]. split; [by exists tunnel_path|]. exists txt.
  split; [|unfold X2, X1 in Hx; tauto]. by rewrite Hp, <-!app_assoc.
Qed.
End allocation.

Lemma sm_bind_inv {A B} (m : SmM (S := Relay) A) (f : A -> SmM B) s r s' : (m ≫= f) s = (r, s') ->
  (exists err, m s = (Err err, s') /\ r = Err err) \/ exists a s1, m s = (Ok a, s1) /\ f a s1 = (r, s').
Proof. unfold mbind, sm_bind. destruct (m s) as [[a|err] s1]; [right; eauto|]. intros [= <- <-]. left. eauto. Qed.

(** The probe stopped before its enrollment call, or that call failed. *)
Definition enrollment_failed (key : SigningKey) (inputs : Inputs) (relay relay' : nat * Api) : Prop :=
  relay' = relay \/
  exists op failure,
    client_enroll (relay_client uuid_parse_str st e clock random source) (signer key) (key_to_bytes (verifying_key key))
      [in_receipt_key inputs] op (S relay.1, relay.2) = (Err failure, relay').

Lemma smoke_main_enrolled inputs key s r s' : smoke_main net inputs key s = (r, s') ->
  (exists err, r = Err err /\ sm_out s' = sm_out s /\ enrollment_failed key inputs (sm_relay s) (sm_relay s')) \/
  exists temp op receipt s1 relay1, later (sm_relay s) relay1 /\
    client_enroll (relay_client uuid_parse_str st e clock random source) (signer key) (key_to_bytes (verifying_key key))
      [in_receipt_key inputs] op relay1 = (Ok receipt, sm_relay s1) /\ sm_out s1 = sm_out s /\
    after_enrollment net inputs key temp (rc_allocation receipt) s1 = (r, s').
Proof.
  unfold smoke_main. intros [(err & [= _ <-] & ->)|([] & s1 & [= _ <-] & Hr)]%sm_bind_inv; [left; eexists; split_and!; [done|done|by left]|].
  apply sm_bind_inv in Hr as [(err & [= _ <-] & ->)|(temp & s1 & [= _ <-] & Hr)]; [left; eexists; split_and!; [done|done|by left]|].
  apply sm_bind_inv in Hr as [(err & Hu & _)|(op & s1 & Hu & Hr)];
    unfold new_uuid, on_relay in Hu; rewrite (or_broker _ _ _ _ _ _ Hnet) in Hu; [done|]. injection Hu as _ <-.
  apply sm_bind_inv in Hr as [(err & Hc & ->)|(receipt & s2 & Hc & Hr)]; unfold admin in Hc; rewrite (or_client _ _ _ _ _ _ Hnet) in Hc;
    pose proof (calls_enroll uuid_parse_str st e He clock random source (signer key) (key_to_bytes (verifying_key key))
      [in_receipt_key inputs] op) as Hl; cbn [sm_relay with_relay] in Hc;
    match type of Hc with context [client_enroll ?c ?sg ?k ?p ?o ?x] => specialize (Hl x); destruct (client_enroll c sg k p o x) as [[a|] r1] eqn:Hrun end;
    try done; injection Hc as Hc <-.
  - left. exists err. split_and!; [done|done|]. right. by eexists _, _.
  - right. subst a. exists temp, op, receipt, (with_relay r1 (with_relay (S (sm_relay s).1, (sm_relay s).2) s)), (S (sm_relay s).1, (sm_relay s).2). split_and!; [|exact Hrun|reflexivity|exact Hr]. apply history_refl.
Qed.

(** The end of a run: the walk's outcome, then the retirement. *)
Lemma after_enrollment_run inputs key temp allocation s r s' :
  after_enrollment net inputs key temp allocation s = (r, s') ->
  exists s1 walked s2 op s3 res, pass "enroll" allocation s = (Ok tt, s1) /\
    run_enrolled net key allocation inputs temp s1 = (walked, s2) /\ later (sm_relay s2) s3 /\
    client_retire_installation (relay_client uuid_parse_str st e clock random source) (signer key) (a_installation_id allocation) op s3 =
      (res, sm_relay s') /\
    (res = Ok tt -> passes s' = passes s2 ++ [pass_line allocation "retire"]) /\ (r = Ok tt <-> walked = Ok tt /\ res = Ok tt).
Proof.
  unfold after_enrollment. intros [(err & [=] & _)|([] & s1 & Hp & Hr)]%sm_bind_inv.
  apply sm_bind_inv in Hr as [(err & Hw & _)|(walked & s2 & Hw & Hr)]; unfold attempt in Hw;
    destruct (run_enrolled net key allocation inputs temp s1) as [w s2'] eqn:Hrun; [done|]. injection Hw as <- <-.
  apply sm_bind_inv in Hr as [(err & Hu & _)|(op & s3 & Hu & Hr)]; unfold new_uuid, on_relay in Hu; rewrite (or_broker _ _ _ _ _ _ Hnet) in Hu;
    [done|]. injection Hu as _ <-.
  apply sm_bind_inv in Hr as [(err & Ha & _)|(retirement & s4 & Ha & Hr)]; unfold attempt, admin in Ha; rewrite (or_client _ _ _ _ _ _ Hnet) in Ha;
    cbn [sm_relay with_relay] in Ha; destruct (client_retire_installation _ _ _ op _) as [res r4] eqn:Hret; [done|]. injection Ha as <- <-.
  assert (sm_relay s' = r4 /\ (res = Ok tt -> passes s' = passes s2' ++ [pass_line allocation "retire"]) /\
    r = (_ ← w; map_err (fun _ => "retirement failed"%string) res)) as (<- & Hout & Hres).
  { destruct res as [[]|err]; cbn [map_err] in Hr;
      apply sm_bind_inv in Hr as [(err' & [=] & _)|([] & s5 & Hq & Hr)];
      unfold pass, report in Hq; apply pair_inj in Hq as [_ <-]; apply pair_inj in Hr as [<- <-]; (split; [done|]); split; try done.
    intros _. unfold passes. cbn [sm_out with_relay]. rewrite filter_app. f_equal. }
  exists s1, w, s2', op. eexists _, res. split_and!; [exact Hp|exact Hrun| |exact Hret|exact Hout|]; [apply history_refl|].
  rewrite Hres. destruct w as [[]|], res as [[]|]; cbn; naive_solver.
Qed.

(** What an accepted enrollment left behind. *)
Lemma enrolled_recorded inputs key op receipt s s1 :
  client_enroll (relay_client uuid_parse_str st e clock random source) (signer key) (key_to_bytes (verifying_key key))
    [in_receipt_key inputs] op s = (Ok receipt, s1) ->
  later s s1 /\ recorded op (key_to_bytes (verifying_key key)) (rc_allocation receipt) (api_db s1.2).
Proof.
  destruct s as [n s], s1 as [n1 s1]. intros Hc. by apply (client_enroll_recorded uuid_parse_str st) in Hc as (? & ? & _).
Qed.

Lemma run_enrolled_later inputs key temp allocation s r s' :
  run_enrolled net key allocation inputs temp s = (r, s') -> later (sm_relay s) (sm_relay s').
Proof.
  intros Hr.
  refine (proj1 (enrolled_walked key allocation (sm_relay s) (passes s) [] (later (sm_relay s)) inputs temp _ _ s r s' _ Hr)).
  - apply since_enduring.
  - done.
  - split; [by rewrite app_nil_r|done].
Qed.


(** C12: a smoke test that passes attests the whole relay. It prints exactly its
    nine steps, in order; the relay records the installation under the probe's
    key; at some moment of the run the relay held its name ready in DNS, and at
    some moment its challenge value live and its challenge set observed at the
    current revision; both tunnels were accepted and ended in order; all nine
    browser probes were answered; and the installation is retired. *)
Theorem smoke_pass_attests inputs key s s' :
  reachable cfg (p_now (sm_relay s).2) (api_db (sm_relay s).2) -> sm_out s = [] -> smoke_main net inputs key s = (Ok tt, s') ->
  exists allocation op path txt,
    passes s' = pass_line allocation <$> (["enroll"%string] ++ WALK ++ ["retire"%string]) /\
    recorded op (key_to_bytes (verifying_key key)) allocation (api_db (sm_relay s').2) /\
    seen (sm_relay s) (dns_was_ready allocation) (sm_relay s') /\ seen (sm_relay s) (published allocation txt) (sm_relay s') /\
    streams_worked allocation inputs path /\ retired_in (a_installation_id allocation) (api_db (sm_relay s').2).
Proof.
  intros Hreach Hnil [(err & [=] & _)|(temp & op & receipt & s1 & s0 & Hl0 & Henroll & Hout & Hrun)]%smoke_main_enrolled.
  apply enrolled_recorded in Henroll as [Hl1 Hrec]. set (allocation := rc_allocation receipt) in *.
  apply after_enrollment_run in Hrun as (s2 & walked & s3 & op2 & s4 & res & Hpass & Hw & Hl3 & Hret & Hlines & Hres).
  destruct (proj1 Hres eq_refl) as [-> ->]. specialize (Hlines eq_refl). assert (later (sm_relay s) (sm_relay s1)) as Hl by (by etrans).
  destruct (walk_pass allocation [] [] (later (sm_relay s)) "enroll" s1 (Ok tt) s2) as [Hl1' Hfrom]; [|exact Hpass|].
  { split; [unfold passes; by rewrite Hout, Hnil|exact Hl]. }
  destruct (enrolled_walked key allocation (sm_relay s) [] _ _ inputs temp (since_enduring _) (fun _ H => H) s2 _ s3 Hfrom Hw)
    as (Hl2 & [path Hstreams] & txt & Hsteps & Hs3 & Hdns & Htxt).
  pose proof (calls_retire uuid_parse_str st e He clock random source (signer key) (a_installation_id allocation) op2 s4) as Hl5.
  rewrite Hret in Hl5. assert (later (sm_relay s3) (sm_relay s')) as Hend by (by etrans).
  exists allocation, op, path, txt. split_and!.
  - rewrite Hlines, Hsteps. reflexivity.
  - refine (recorded_history st _ _ _ _ _ _ _ (_ : later (sm_relay s1) (sm_relay s')) Hrec). etrans; [exact Hl1'|]. by etrans.
  - by eapply seen_enduring.
  - by eapply seen_enduring.
  - exact Hstreams.
  - destruct s4 as [n4 s4], (sm_relay s') as [n' r']. eapply retire_answer; [done| |exact Hret].
    refine (retirements_history cfg _ _ _ _ (_ : later (sm_relay s) (n4, s4)) (retirements_reachable cfg _ _ Hreach)). etrans; [exact Hs3|exact Hl3].
Qed.
End relay.
