(* ===== verification/System.v ===== *)
(** * The relay as a whole

    The processes of a deployment over one database: handlers of the control
    API, its sweeper, tasks of gateways, the DNS workers, the CT worker and the
    relocation tool. Each one runs while the others run, and what they do to
    the database meanwhile is again a run of the system. Every run is a history
    of the store: the store's requests at times that do not go back. *)

From Stdlib Require Import Ascii String Strings.Byte.
From stdpp Require Import base strings list gmap.
From S2P Require Import Prelude Protocol Db Witness Store StoreCredentials StoreChallenges StoreLifecycle StoreBootstrap StoreOutbox StoreCt.
From S2P Require Import StoreHistory StoreInvariant StoreEffects ControlApi ControlLogic Sweeper Dns Observer DnsWorker DnsWorkerProperties CtWorker.
From S2P Require Import CtWorkerProperties ReceiptSigner ControlProperties RelayCalls Gateway GatewayTasks GatewayProperties Operations.

(** ** Every service moves the database by store requests *)
(** ** Transactions *)
Section transactions.
Context {St3 : S3} {Cr : Crypto} {B32 : Base32} (cfg : StoreConfig).

Lemma run_tx_history {A} ae (m : Tx A) r now w res w' :
  typed r -> (forall d a d', m d = Ok (a, d') -> exec cfg now r d = Ok (tt, d')) ->
  run_tx ae m w = (res, w') -> history cfg now (w_db w) now (w_db w').
Proof.
  intros Ht Hm [->|[a Ha]]%run_tx_db; [constructor|]. eapply history_step; [|constructor]. exists r. eauto.
Qed.

Lemma exec_tx_history {A} (m : Tx A) r now w res w' :
  typed r -> (forall d a d', m d = Ok (a, d') -> exec cfg now r d = Ok (tt, d')) ->
  exec_tx m w = (res, w') -> history cfg now (w_db w) now (w_db w').
Proof.
  intros Ht Hm. unfold exec_tx. destruct (m (w_db w)) as [[a d]|] eqn:Hd; intros [= _ <-]; [|constructor].
  eapply history_step; [|constructor]. exists r. cbn. eauto.
Qed.

Lemma history_from t now d t' d' : t <= now -> history cfg now d t' d' -> history cfg t d t' d'.
Proof. apply history_tick. Qed.
Lemma history_until t d now d' t' : now <= t' -> history cfg t d now d' -> history cfg t d t' d'.
Proof. intros Hle Hh. eapply history_trans; [exact Hh|]. eapply history_tick; [exact Hle|constructor]. Qed.
End transactions.

(** ** The DNS worker *)
Section dns_worker.
Context {St3 : S3} {Cr : Crypto} {B32 : Base32} {B32L : Base32Law} {Zone : Type} {Pr : Provider Zone} {PrL : ProviderLaws Zone}.
Context (cfg : StoreConfig) (scope : DnsJobScope) (placement : string) (ingress : list IpAddr).
Context (e : WkEnv (Zone := Zone)) (others : forall n s, quiet cfg s (v_others e n s)).

Lemma store_call_history {A} (f : WkEnv -> nat -> Wk -> result StoreError A * World) n s r n' s' :
  (forall n s res w, f e n s = (res, w) -> history cfg (k_now s) (db s) (k_now s) (w_db w)) ->
  store_call f e (n, s) = (r, (n', s')) -> history cfg (k_now s) (db s) (k_now s') (db s').
Proof.
  intros Hf. unfold store_call. cbn [fst snd]. pose proof (others n s) as [Hh _ _ _]. destruct (v_fault e n).
  - by intros [= _ _ <-].
  - destruct (f e n (v_others e n s)) as [res w] eqn:Hr. intros [= _ _ <-]. eapply history_trans; [exact Hh|]. exact (Hf _ _ _ _ Hr).
Qed.

Lemma claim_history n s r n' s' :
  claim scope placement e (n, s) = (r, (n', s')) -> history cfg (k_now s) (db s) (k_now s') (db s').
Proof.
  apply store_call_history. intros m s1 res w. unfold claim_job. destruct (select_job _ _ _ _ _); [|intros [= _ <-]; constructor].
  destruct (acknowledge _ _) as [ack w1] eqn:Ha. intros [= _ <-]. apply acknowledge_db in Ha. unfold db. rewrite Ha. constructor.
Qed.

Lemma record_history m r job n s res n' s' :
  typed r -> (forall now d u d', m now (x_id job) d = Ok (u, d') -> exec cfg now r d = Ok (tt, d')) ->
  record m job e (n, s) = (res, (n', s')) -> history cfg (k_now s) (db s) (k_now s') (db s').
Proof.
  intros Ht Hm. apply store_call_history. intros k s1 res1 w. unfold record_attempt.
  destruct (verify_integrity _ _) as [ok w1] eqn:Hv. apply acknowledge_db in Hv. unfold db. destruct ok.
  - intros Hr. rewrite <-Hv. eapply run_tx_history; [exact Ht| |exact Hr]. intros d u d' Hd. by eapply Hm.
  - intros [= _ <-]. rewrite Hv. constructor.
Qed.

(** A turn of the worker. *)
Lemma turn_history n s out n' s' :
  turn scope placement ingress e (n, s) = (out, (n', s')) -> history cfg (k_now s) (db s) (k_now s') (db s').
Proof.
  unfold turn. destruct (claim scope placement e (n, s)) as [[[job|]|err] [n1 s1]] eqn:Hc; apply claim_history in Hc;
    [|by intros [= _ _ <-]..].
  destruct (process _ _ _ job e _) as [r [n2 s2]] eqn:Hp.
  set (t1 := set_held (Some (x_installation_id job)) s1) in Hp.
  destruct (wt_process cfg scope placement ingress (x_installation_id job) e others n1 job t1 eq_refl eq_refl n1 t1 r n2 s2
    (le_n _) ltac:(apply wk_step_preorder) Hp) as (_ & Hst & _).
  destruct (record _ job e (n2, s2)) as [r' [n3 s3]] eqn:Hr. intros [= _ _ <-].
  eapply history_trans; [exact Hc|]. eapply history_trans; [exact (ws_history _ _ _ _ _ _ _ Hst)|]. cbn.
  destruct (match r with Ok b => b | Err _ => false end).
  - eapply (record_history _ (CompleteJob (x_id job))) in Hr; [exact Hr|done|by intros ? ? [] ?].
  - eapply (record_history _ (DeferJob (x_id job))) in Hr; [exact Hr|done|by intros ? ? [] ?].
Qed.

Lemma run_history turns n s : let s' := (run turns scope placement ingress e (n, s)).2 in
  history cfg (k_now s) (db s) (k_now s') (db s').
Proof.
  revert n s. induction turns as [|turns IH]; intros n s; cbn [run snd]; [constructor|].
  destruct (turn scope placement ingress e (n, s)) as [out [n' s']] eqn:Ht. apply turn_history in Ht.
  eapply history_trans; [exact Ht|apply IH].
Qed.
End dns_worker.

(** ** The CT worker *)
Section ct_worker.
Context {St3 : S3} {Cr : Crypto} {B32 : Base32} (cfg : StoreConfig) (e : CtEnv).
Context (others : forall n s, history cfg (t_now s) (ct_db s) (t_now (u_others e n s)) (ct_db (u_others e n s))).
Context (batches : forall n url token b, u_feed e n url token = Some b -> typed_batch b).

(** A run moves the database by requests, and its result satisfies [Q]. *)
Definition ct_moves {A} (m : CtM A) (Q : A -> Prop) : Prop := forall n s r n' s',
  m e (n, s) = (r, (n', s')) -> history cfg (t_now s) (ct_db s) (t_now s') (ct_db s') /\ forall a, r = Ok a -> Q a.

Lemma cm_ret {A} (a : A) (Q : A -> Prop) : Q a -> ct_moves (mret a) Q.
Proof. intros HQ n s r n' s' [= <- _ <-]. split; [constructor|]. by intros ? [= <-]. Qed.
Lemma cm_bind {A B} (m : CtM A) (f : A -> CtM B) Q R : ct_moves m Q -> (forall a, Q a -> ct_moves (f a) R) -> ct_moves (m ≫= f) R.
Proof.
  intros Hm Hf n s r n' s'. unfold mbind, ct_bind. destruct (m e (n, s)) as [[a|err] [n1 s1]] eqn:Hm1; destruct (Hm _ _ _ _ _ Hm1) as [Hh HQ].
  - intros Hr. destruct (Hf a (HQ _ eq_refl) _ _ _ _ _ Hr) as [Hh' HR]. split; [by eapply history_trans|done].
  - intros [= <- _ <-]. split; [done|]. by intros a.
Qed.
Lemma cm_some {A} err (o : option A) (Q : A -> Prop) : (forall a, o = Some a -> Q a) -> ct_moves (ct_some err o) Q.
Proof. intros HQ n s r n' s' [= <- _ <-]. split; [constructor|]. intros a Ha%ok_or_ok. by apply HQ. Qed.
Lemma cm_query {A} (f : Db -> result StoreError A) (Q : A -> Prop) : (forall d a, f d = Ok a -> Q a) -> ct_moves (ct_query f) Q.
Proof.
  intros HQ n s r n' s' [= <- _ <-]. split; [apply others|]. intros a. destruct (u_fault e n); [done|].
  destruct (f _) eqn:Hf; [|done]. intros [= <-]. by eapply HQ.
Qed.
Lemma cm_commit {A} (m : Z -> Tx A) (r : Request) :
  typed r -> (forall now d a d', m now d = Ok (a, d') -> exec cfg now r d = Ok (tt, d')) -> ct_moves (ct_commit m) (fun _ => True).
Proof.
  intros Ht Hm n s res n' s'. unfold ct_commit. cbn [fst snd].
  destruct (run_tx (u_ack e n) (m (t_now (u_others e n s))) (t_world (u_others e n s))) as [res1 w] eqn:Hr.
  apply (run_tx_history cfg) with (r := r) (now := t_now (u_others e n s)) in Hr; [|done|intros d a d'; by apply Hm].
  destruct (u_fault e n) as [[]|]; intros [= _ _ <-]; (split; [|done]); [apply others|..];
    (eapply history_trans; [apply others|exact Hr]).
Qed.
Lemma cm_post w p : ct_moves (post_alert w p) (fun _ => True).
Proof.
  intros n s r n' s'. unfold post_alert. cbn [fst snd].
  destruct (u_agent e _); [|intros [= _ _ <-]; split; [apply others|done]].
  destruct (read_token _); [|intros [= _ _ <-]; split; [apply others|done]].
  destruct (u_post e n _ _ p) as [status|]; [|intros [= _ _ <-]; split; [apply others|done]].
  destruct (status =? 202); intros [= _ _ <-]; (split; [|done]); apply others.
Qed.
Lemma cm_post_all {A} w (post : A -> Post) (mark : A -> Z -> Tx unit) (r : A -> Request) alerts :
  (forall a, typed (r a)) -> (forall a now d u d', mark a now d = Ok (u, d') -> exec cfg now (r a) d = Ok (tt, d')) ->
  ct_moves (post_all w post mark alerts) (fun _ => True).
Proof.
  intros Ht Hm. induction alerts as [|a alerts IH]; cbn [post_all]; [by apply cm_ret|].
  eapply cm_bind; [apply cm_post|intros _ _]. eapply cm_bind; [by apply (cm_commit _ (r a)); [|apply Hm]|intros _ _]. exact IH.
Qed.
Lemma cm_observe w entries next : is_u64 next -> Forall (fun entry => is_u64 (en_position entry)) entries ->
  ct_moves (observe_entries w entries next) (fun r => is_u64 r.1).
Proof.
  revert next. induction entries as [|entry entries IH]; intros next Hn Hall; cbn [observe_entries]; [by apply cm_ret|].
  apply Forall_cons in Hall as [He Hall]. destruct (negb _); [by apply cm_ret|].
  eapply cm_bind; [apply (cm_commit _ (ObserveCt (w_source w) (en_position entry) (en_hostname entry) (en_key_fingerprint entry)))|];
    [done|intros; by eapply void_run|]. intros _ _. by apply IH.
Qed.

Lemma cm_tick w : ct_moves (tick w) (fun _ => True).
Proof.
  unfold tick. eapply cm_bind; [apply (cm_query _ (fun o => forall p, o = Some p -> is_u64 p))|intros found Hfound].
  { intros d o Ho p ->. unfold ct_checkpoint in Ho. inv_ok. apply fmap_Some in Ho as (y & _ & ->).
    unfold is_u64, u64_max, compose, i64_as_u64. pose proof (Z.mod_pos_bound y.1 (2 ^ 64)). lia. }
  eapply cm_bind; [apply (cm_some _ _ is_u64), Hfound|intros checkpoint Hc].
  eapply cm_bind with (Q := fun o => forall b, o = Some b -> typed_batch b); [|intros batch Hb].
  { intros n s r n' s' [= <- _ <-]. split; [apply others|]. intros a [= <-] b Hb. destruct (u_agent e _); [|done].
    destruct (read_token _) as [token|]; [|done]. by eapply batches. }
  eapply cm_bind with (Q := fun _ => True); [|intros _ _].
  { destruct batch as [batch|]; [|by apply cm_ret]. destruct (_ && _); [|by apply cm_ret].
    eapply cm_bind; [apply cm_observe; [done|by apply Hb]|]. intros [next contiguous] Hn. destruct contiguous; [|by apply cm_ret].
    by apply (cm_commit _ (MarkCtFeedHealthy (w_source w) next)); [|intros ? ? [] ?]. }
  eapply cm_bind; [by apply (cm_commit _ (QueueCtLagAlert (w_source w))); [|intros ? ? [] ?]|intros _ _].
  unfold deliver_alerts. eapply cm_bind; [by apply (cm_query _ (fun _ => True))|intros alerts _].
  eapply cm_bind; [by apply (cm_post_all _ _ _ (fun a => MarkCtAlertDelivered (ca_id a))); [|intros ? ? ? [] ?]|intros _ _].
  eapply cm_bind; [by apply (cm_query _ (fun _ => True))|intros lags _].
  by apply (cm_post_all _ _ _ (fun a => MarkCtLagAlertDelivered (cl_id a))); [|intros ? ? ? [] ?].
Qed.

Lemma cm_lag w : ct_moves (lag_gauge w) (fun _ => True).
Proof. intros n s r n' s' Hr. by eapply (cm_query _ (fun _ => True)). Qed.

Lemma ct_loop_history once waits w n s : let s' := (ct_loop once waits w e (n, s)).2.2 in history cfg (t_now s) (ct_db s) (t_now s') (ct_db s').
Proof.
  revert n s. induction waits as [|signalled waits IH]; intros n s; cbn [ct_loop]; [constructor|].
  destruct (tick w e (n, s)) as [r [n1 s1]] eqn:Ht. apply cm_tick in Ht as [Hh _].
  destruct (lag_gauge w e (n1, s1)) as [lag [n2 s2]] eqn:Hl. apply cm_lag in Hl as [Hh2 _].
  assert (history cfg (t_now s) (ct_db s) (t_now s2) (ct_db s2)) as Hs2 by (by eapply history_trans).
  destruct (once || signalled); [exact Hs2|]. specialize (IH n2 s2).
  destruct (ct_loop once waits w e (n2, s2)) as [rounds [n3 s3]]. by eapply history_trans.
Qed.

Lemma ct_main_history once waits w n s : let s' := (ct_main once waits w e (n, s)).2.2 in history cfg (t_now s) (ct_db s) (t_now s') (ct_db s').
Proof.
  unfold ct_main. destruct (ct_commit _ e (n, s)) as [r [n1 s1]] eqn:Hc.
  eapply (cm_commit _ (EnsureCtSource (w_source w))) in Hc as [Hh _]; [|done|by intros ? ? [] ?].
  destruct r; [|done]. eapply history_trans; [exact Hh|apply ct_loop_history].
Qed.
End ct_worker.

(** ** The sweeper *)
Section sweeper.
Context {St3 : S3} {Cr : Crypto} {B32 : Base32} (cfg : StoreConfig).

(** The clock before the n-th transaction of a sweep. *)
Definition before (now : Z) (times : nat -> Z) (n : nat) : Z := match n with O => now | S n => times n end.

(** When other processes run at an await of a turn from [t] to [t']. *)
Definition point_from (t : Z) (s : SweepRun) (point : SweepPoint) : Z :=
  match point with
  | BeforePending => t
  | BeforePendingRound n => before (sw_pending s) (sw_pending_rounds s) n
  | BeforeValues => sw_pending_end s
  | BeforeValuesRound n => before (sw_values s) (sw_values_rounds s) n
  | BeforeChallenges => sw_values_end s
  | BeforeNonces => sw_challenges s
  | BeforeAck => sw_nonces s
  end.
Definition point_until (s : SweepRun) (t' : Z) (point : SweepPoint) : Z :=
  match point with
  | BeforePending => sw_pending s
  | BeforePendingRound n => sw_pending_rounds s n
  | BeforeValues => sw_values s
  | BeforeValuesRound n => sw_values_rounds s n
  | BeforeChallenges => sw_challenges s
  | BeforeNonces => sw_nonces s
  | BeforeAck => t'
  end.

(** The ends of the sweeps and of the turn come after their calls. *)
Record in_order (s : SweepRun) (t' : Z) : Prop := {
  io_pending n : before (sw_pending s) (sw_pending_rounds s) n <= sw_pending_end s;
  io_values n : before (sw_values s) (sw_values_rounds s) n <= sw_values_end s;
  io_challenges : sw_challenges s <= t';
  io_nonces : sw_nonces s <= t'
}.

Lemma sweep_history round now times t' ids n count w res w' :
  (forall n, before now times n <= t') ->
  (forall n id w res w', round n id w = (res, w') -> history cfg (before now times n) (w_db w) (times n) (w_db w')) ->
  sweep round n ids count w = (res, w') -> history cfg (before now times n) (w_db w) t' (w_db w').
Proof.
  intros Ht' Hr. revert n count w. induction ids as [|id ids IH]; intros n count w; cbn [sweep].
  { intros [= _ <-]. eapply history_until; [apply Ht'|constructor]. }
  destruct (round n id w) as [[b|err] w1] eqn:Hw; apply Hr in Hw.
  - intros Hs%IH. by eapply history_trans.
  - intros [= _ <-]. exact (history_until cfg _ _ _ _ _ (Ht' (S n)) Hw).
Qed.

Lemma expire_pending_history ae others now times limit w res w' t' :
  (forall n, before now times n <= t') ->
  (forall n w, history cfg (before now times n) (w_db w) (times n) (w_db (others n w))) ->
  expire_pending_allocations ae others now times limit w = (res, w') -> history cfg now (w_db w) t' (w_db w').
Proof.
  intros Hb Ho. unfold expire_pending_allocations.
  case_match; [intros [= _ <-]; eapply history_until; [apply (Hb 0%nat)|constructor]|].
  apply (sweep_history _ now times t' _ 0); [done|].
  intros n id w1 r1 w1' Hrun. eapply history_trans; [apply Ho|]. revert Hrun. generalize (others n w1). clear w1. intros w1. unfold expire_pending_round.
  destruct (expire_pending_tx (times n) id (w_db w1)) as [[[] d]|]; [| |];
    try (intros Hrun; refine (run_tx_history cfg _ _ (ExpirePending id) (times n) _ _ _ _ _ Hrun); [done|intros; by eapply void_run]).
  intros [= _ <-]. constructor.
Qed.

Lemma expire_values_history ae others now times limit w res w' t' :
  (forall n, before now times n <= t') ->
  (forall n w, history cfg (before now times n) (w_db w) (times n) (w_db (others n w))) ->
  expire_challenge_values ae others now times limit w = (res, w') -> history cfg now (w_db w) t' (w_db w').
Proof.
  intros Hb Ho. unfold expire_challenge_values.
  case_match; [intros [= _ <-]; eapply history_until; [apply (Hb 0%nat)|constructor]|].
  apply (sweep_history _ now times t' _ 0); [done|].
  intros n id w1 r1 w1' Hrun. eapply history_trans; [apply Ho|].
  refine (run_tx_history cfg _ _ (ExpireChallengeValues id) (times n) _ _ _ _ _ Hrun); [done|]. intros; by eapply void_run.
Qed.

Lemma prune_history ae others_nonces others_ack now1 now2 limit w res w' t' :
  now1 <= t' -> now2 <= t' ->
  (forall w, history cfg now1 (w_db w) now2 (w_db (others_nonces w))) ->
  (forall w, history cfg now2 (w_db w) t' (w_db (others_ack w))) ->
  prune_bootstrap_and_nonces ae others_nonces others_ack now1 now2 limit w = (res, w') -> history cfg now1 (w_db w) t' (w_db w').
Proof.
  intros Hle1 Hle2 Ho Hack. unfold prune_bootstrap_and_nonces.
  case_match; [intros [= _ <-]; eapply history_until; [exact Hle1|constructor]|].
  destruct (exec_tx (prune_challenges_tx now1 limit) w) as [r1 w1] eqn:H1.
  apply (exec_tx_history cfg) with (r := PruneChallenges limit) (now := now1) in H1; [|done|intros; by eapply void_run].
  destruct r1; [|intros [= _ <-]; exact (history_until cfg _ _ _ _ _ Hle1 H1)].
  destruct (exec_tx (prune_nonces_tx now2 limit) (others_nonces w1)) as [r2 w2] eqn:H2.
  apply (exec_tx_history cfg) with (r := PruneNonces limit) (now := now2) in H2; [|done|intros; by eapply void_run].
  assert (history cfg now1 (w_db w) now2 (w_db w2)) as H12.
  { eapply history_trans; [exact H1|]. by eapply history_trans. }
  destruct r2; [|intros [= _ <-]; exact (history_until cfg _ _ _ _ _ Hle2 H12)].
  destruct (acknowledge ae (others_ack w2)) as [ack w3] eqn:Ha. intros [= _ <-].
  apply acknowledge_db in Ha. rewrite Ha. by eapply history_trans.
Qed.

Lemma sweeper_turn_history ae s w t t' : in_order s t' ->
  (forall point w, history cfg (point_from t s point) (w_db w) (point_until s t' point) (w_db (sw_others s point w))) ->
  history cfg t (w_db w) t' (w_db (sweeper_turn ae s w)).
Proof.
  intros [H1 H2 H3 H4] Ho. unfold sweeper_turn.
  eapply history_trans; [apply (Ho BeforePending)|].
  eapply history_trans; [eapply expire_pending_history; [exact H1|intros n; apply (Ho (BeforePendingRound n))|apply surjective_pairing]|].
  eapply history_trans; [apply (Ho BeforeValues)|].
  eapply history_trans; [eapply expire_values_history; [exact H2|intros n; apply (Ho (BeforeValuesRound n))|apply surjective_pairing]|].
  eapply history_trans; [apply (Ho BeforeChallenges)|].
  eapply prune_history; [exact H3|exact H4|apply (Ho BeforeNonces)|apply (Ho BeforeAck)|apply surjective_pairing].
Qed.
End sweeper.

(** ** The system *)
Section system.
Context {St3 : S3} {Cr : Crypto} {Sg : Signing} {SgL : SigningLaws} {Sd : Serde} {B32 : Base32} {B32L : Base32Law} {HexC : Hex}.
Context (cfg : StoreConfig) (uuid_parse_str : string -> option Uuid).

(** A gateway's own tasks keep its memory whatever happens to the database. *)
Definition memory_kept (e : Env) : Prop := forall n g, gw_ok cfg g ->
  history cfg (g_now g) (g_db g) (g_now (e_others e n g)) (g_db (e_others e n g)) ->
  gw_ok cfg (e_others e n g) /\ gw_step cfg g (e_others e n g).

(** While a DNS worker holds the lock of an installation nobody retires or
    moves it, and only the worker itself calls its provider. *)
Definition lock_respected {Zone} (e : WkEnv (Zone := Zone)) : Prop := forall n s,
  k_held (v_others e n s) = k_held s /\ k_log (v_others e n s) = k_log s /\
  forall id, k_held s = Some id -> lock_kept id (DnsWorkerProperties.db s) (DnsWorkerProperties.db (v_others e n s)).

Inductive system : Z -> Db -> Z -> Db -> Prop :=
| sys_idle t d t' : t <= t' -> system t d t' d
| sys_then t d t1 d1 t2 d2 : system t d t1 d1 -> system t1 d1 t2 d2 -> system t d t2 d2
| sys_control st request e n s r n' s' :
    st_config st = cfg -> request_typed request ->
    (forall n s, system (p_now s) (api_db s) (p_now (n_others e n s)) (api_db (n_others e n s))) ->
    (forall n s, p_log (n_others e n s) = p_log s) -> (forall n, List.length (n_label e n) = 16%nat) ->
    handle uuid_parse_str st request e (n, s) = (r, (n', s')) ->
    system (p_now s) (api_db s) (p_now s') (api_db s')
| sys_sweeper ae s w t t' :
    in_order s t' ->
    (forall point w, system (point_from t s point) (w_db w) (point_until s t' point) (w_db (sw_others s point w))) ->
    system t (w_db w) t' (w_db (sweeper_turn ae s w))
| sys_gateway gateway_id task e n g r n' g' :
    task_typed task -> gw_ok cfg g -> memory_kept e ->
    (forall n g, system (g_now g) (g_db g) (g_now (e_others e n g)) (g_db (e_others e n g))) ->
    run_task uuid_parse_str gateway_id task e (n, g) = (r, (n', g')) ->
    system (g_now g) (g_db g) (g_now g') (g_db g')
| sys_dns (Zone : Type) (Pr : Provider Zone) (PrL : ProviderLaws Zone) scope placement ingress (e : WkEnv (Zone := Zone)) turns n s n' s' :
    lock_respected e ->
    (forall n s, system (k_now s) (DnsWorkerProperties.db s) (k_now (v_others e n s)) (DnsWorkerProperties.db (v_others e n s))) ->
    run turns scope placement ingress e (n, s) = (n', s') ->
    system (k_now s) (DnsWorkerProperties.db s) (k_now s') (DnsWorkerProperties.db s')
| sys_ct once waits worker e n s rounds n' s' :
    (forall n s, system (t_now s) (ct_db s) (t_now (u_others e n s)) (ct_db (u_others e n s))) ->
    (forall n url token b, u_feed e n url token = Some b -> typed_batch b) ->
    ct_main once waits worker e (n, s) = (rounds, (n', s')) ->
    system (t_now s) (ct_db s) (t_now s') (ct_db s')
| sys_relocate args v d ws r w' :
    relocate_main uuid_parse_str args v d ws = (r, w') -> system (tv_now v) d (tv_now v) (w_db w').

(** C11: the relay refines its store. However the handlers, sweeps, gateway
    tasks, DNS turns, CT rounds and operator tools of a deployment interleave,
    and whatever fails, the database only moves by the store's requests at
    times that do not go back; so a database the store could have reached
    stays one, with every invariant of the store. *)
Theorem system_refines_store t d t' d' : system t d t' d' ->
  history cfg t d t' d' /\ (reachable cfg t d -> reachable cfg t' d' /\ invariant d').
Proof.
  intros Hs. assert (history cfg t d t' d') as Hh.
  { induction Hs as [t d t' Hle|t d t1 d1 t2 d2 _ IH1 _ IH2|st request e n s r n' s' <- Hty _ IH Hlog Hlabel Hrun
      |ae s w t t' Hord _ IH|gateway_id task e n g r n' g' Hty Hg Hmem _ IH Hrun
      |Zone Pr PrL scope placement ingress e turns n s n' s' Hlock _ IH Hrun|once waits worker e n s rounds n' s' _ IH Hfeed Hrun
      |args v d ws r w' Hrun].
    - eapply history_tick; [exact Hle|constructor].
    - by eapply history_trans.
    - assert (api_env st e) as He by (split; [intros m u; split; [apply IH|apply Hlog]|exact Hlabel]).
      pose proof (handle_later uuid_parse_str st e request (n, s) He Hty) as Hl. by rewrite Hrun in Hl.
    - by apply (sweeper_turn_history cfg ae s w t t').
    - eapply triple_task in Hrun as (_ & Hst & _); [by apply gs_db in Hst|exact Hty| |exact Hg|exact I].
      intros m u Hu. by apply Hmem.
    - pose proof (run_history cfg scope placement ingress e (fun m u => Build_quiet cfg u _ (IH m u) (proj1 (Hlock m u))
        (proj2 (proj2 (Hlock m u))) (proj1 (proj2 (Hlock m u)))) turns n s) as Hr. by rewrite Hrun in Hr.
    - pose proof (ct_main_history cfg e IH Hfeed once waits worker n s) as Hr. by rewrite Hrun in Hr.
    - destruct (relocate_main_request uuid_parse_str cfg args v d ws r w' Hrun) as [->|(id & op & placement & _ & Hx)]; [constructor|].
      eapply history_step; [|constructor]. by exists (Relocate id op placement). }
  split; [exact Hh|]. intros [start Hr]. assert (reachable cfg t' d') as Hr' by (exists start; by eapply history_trans).
  split; [exact Hr'|]. by eapply reachable_invariant.
Qed.
End system.
