(* ===== verification/SmokeWitnesses.v ===== *)
(** * A run of the deployed smoke test

    The probe walks the whole relay: while it sleeps, the DNS workers of both
    scopes publish what it enrolled, through the in-memory provider. *)

From Stdlib Require Import Ascii String Strings.Byte.
From stdpp Require Import base strings list gmap.
From S2P Require Import Prelude Protocol Db Witness Store StoreCredentials StoreChallenges StoreLifecycle StoreOutbox StoreHistory StoreInvariant StoreEffects StoreProperties.
From S2P Require Import StoreSamples ReceiptSigner ControlApi ControlLogic ControlProperties AdminClient ControlClient ControlWitnesses.
From S2P Require Import Ingress BrokerClient GatewayWitnesses BrokerRelay BrokerWitnesses RelayCalls DeployedSmoke SmokeProperties.
From S2P Require Import Dns Observer DnsWorker DnsWorkerProperties WorkerWitnesses System.

#[local] Existing Instance ConcreteS3.s3.
Import ControlConcrete.
#[local] Existing Instance one_root.
#[local] Existing Instance hex_pairs.
#[local] Instance one_trusted : TrustStore := {| pemfile_certs := fun _ => [Some []]; root_accepted := fun _ => true |}.

(** Letters, different at every call. *)
Definition letter (n : nat) : byte := byte_of_Z (65 + Z.of_nat (n mod 26)).
Definition letters (n : nat) : list byte := letter (n / 26) :: replicate 31 (letter n).

(** The resolvers answer with the address, the policy of the probe's account
    and every live challenge value. *)
Definition smoke_net (values : list string) : Net := fun n w name kind =>
  match kind with
  | TypeTXT => Answers ((fun value => RTXT [str_bytes value]) <$> values)
  | _ => worker_net n w name kind
  end.
Definition smoke_worker (d : Db) : WkEnv (Zone := MemoryState) :=
  {| v_others := fun _ s => s; v_fault := fun _ => None; v_ack := fun _ => no_ack;
     v_net := smoke_net (snd <$> elements (dom (d_challenge_values d)));
     v_built := fun _ => true; v_locked := fun _ _ => false |}.

(** A sleep: time passes, and each worker takes a turn. *)
Definition worker_turn_of (scope : DnsJobScope) (s : nat * Api) : nat * Api :=
  let start := {| k_now := p_now s.2; k_world := p_world s.2; k_provider := {| names := ∅; challenges := ∅ |}; k_held := None; k_log := [] |} in
  let '(_, (_, s')) := turn scope "gw-1" [worker_address] (smoke_worker (api_db s.2)) (0%nat, start) in
  (s.1, {| p_now := k_now s'; p_world := k_world s'; p_log := p_log s.2 |}).
Definition time_passes (duration : Z) (s : nat * Api) : nat * Api :=
  (s.1, {| p_now := p_now s.2 + Z.max 0 duration; p_world := p_world s.2; p_log := p_log s.2 |}).
Definition smoke_sleep (duration : Z) (s : nat * Api) : nat * Api :=
  worker_turn_of Challenge (worker_turn_of Serving (time_passes duration s)).

Definition good_tunnel : TunnelNet :=
  {| tn_setup := tunnel_setup; tn_events := []; tn_watch := SeesReady; tn_joined := InTime true |}.
Definition good_probe : ProbeTcp :=
  {| pt_tcp := InTime true; pt_name := true; pt_tls := InTime true; pt_write := true; pt_read := InTime (Some PONG) |}.
Definition smoke_over (signal : nat -> option (result string unit)) : ProbeNet (nat * Api) :=
  {| pn_client := relay_client no_uuid relay_state alone_env clock_ms letters client_source;
     pn_broker := relay_broker no_uuid relay_state alone_env clock_ms N.of_nat;
     pn_instant := fun s => (p_now s.2, s); pn_sleep := smoke_sleep; pn_signal := signal;
     pn_bind := true; pn_tempdir := Ok "/tmp/smoke"%string; pn_write := fun _ => Written;
     pn_certificate := true; pn_server_tls := true; pn_trust := true;
     pn_tunnel := fun _ => good_tunnel; pn_probe := fun _ => good_probe; pn_panicked := fun _ => false |}.
Definition smoke_inputs : Inputs :=
  {| in_control_ca := [Byte.x00]; in_receipt_key := relay_key; in_acme_account_uri := account;
     in_gateway := (V4 3221225985, 443); in_ingress := (V4 3221225986, 443) |}.
Definition smoke_start : Smoke (nat * Api) := {| sm_relay := (0%nat, state_of empty_db); sm_awaits := 0; sm_files := ∅; sm_out := [] |}.

Local Abbreviation smoke_run signal := (smoke_main (smoke_over signal) smoke_inputs signer_key smoke_start).

Lemma worker_turn_later scope s : later relay_state s (worker_turn_of scope s).
Proof.
  unfold later, worker_turn_of. set (start := Build_Wk _ _ _ _ _). destruct (turn _ _ _ _ (0%nat, start)) as [out [n' s']] eqn:Ht.
  apply (turn_history cfg) in Ht; [exact Ht|]. intros n t. apply worker_others.
Qed.

Lemma smoke_over_relay signal : over_relay no_uuid relay_state alone_env clock_ms letters N.of_nat client_source (smoke_over signal).
Proof.
  split; [reflexivity|reflexivity| |].
  - intros s. reflexivity.
  - intros d s. change (pn_sleep (smoke_over signal) d s) with (smoke_sleep d s). unfold smoke_sleep.
    transitivity (time_passes d s); [|etransitivity; apply worker_turn_later].
    unfold later, time_passes. cbn [snd p_now p_world]. apply (history_from cfg _ (p_now s.2 + Z.max 0 d)); [lia|constructor].
Qed.

Lemma smoke_start_reachable : reachable cfg (p_now (sm_relay smoke_start).2) (api_db (sm_relay smoke_start).2).
Proof. exists (at_second 7). constructor. Qed.

Definition undisturbed (n : nat) : option (result string unit) := None.
Lemma smoke_pass_attests_witness : exists allocation op path txt,
  passes (smoke_run undisturbed).2 = pass_line allocation <$> (["enroll"%string] ++ WALK ++ ["retire"%string]) /\
  recorded op (key_to_bytes (verifying_key signer_key)) allocation (api_db (sm_relay (smoke_run undisturbed).2).2) /\
  SmokeProperties.seen relay_state (sm_relay smoke_start) (published allocation txt) (sm_relay (smoke_run undisturbed).2) /\
  streams_worked (smoke_over undisturbed) allocation smoke_inputs path /\
  retired_in (a_installation_id allocation) (api_db (sm_relay (smoke_run undisturbed).2).2).
Proof.
  destruct (smoke_pass_attests no_uuid relay_state alone_env alone_api_env clock_ms letters N.of_nat client_source (smoke_over undisturbed)
    (smoke_over_relay undisturbed) smoke_inputs signer_key smoke_start (smoke_run undisturbed).2) as (al & op & path & txt & H1 & H2 & H3 & H4 & H5 & H6).
  - apply smoke_start_reachable.
  - reflexivity.
  - assert (forall (r : result string unit * Smoke (nat * Api)), r.1 = Ok tt -> r = (Ok tt, r.2)) as Hpair by (by intros [? ?] <-).
    apply Hpair. vm_compute. reflexivity.
  - exists al, op, path, txt. split_and!; [exact H1|exact H2|exact H4|exact H5|exact H6].
Defined.

(** The operator interrupts the probe at its sixth await. *)
Definition interrupts (n : nat) : option (result string unit) := if Nat.eqb n 5 then Some (Ok tt) else None.

(** ** A relay whose name never becomes ready *)
Definition pending_allocation : Allocation :=
  {| a_version := WIRE_VERSION; a_installation_id := inst; a_hostname := sample_hostname; a_placement := "gw-1"; a_state := PendingDns |}.
Definition pending_net : ProbeNet Z :=
  {| pn_client := {| cl_post := fun _ now => (Ok (OfAllocation pending_allocation), now); cl_source := client_source;
                     cl_now := fun now => (1700000007000, now); cl_random := fun now => (letters 0, now) |};
     pn_broker := {| br_post := fun _ now => (Ok (StatusOnly 202), now); br_now := fun now => (1700000007000, now); br_uuid := fun now => (1%N, now) |};
     pn_instant := fun now => (now, now); pn_sleep := fun d now => now + d; pn_signal := undisturbed;
     pn_bind := true; pn_tempdir := Ok "/tmp/smoke"%string; pn_write := fun _ => Written;
     pn_certificate := true; pn_server_tls := true; pn_trust := true;
     pn_tunnel := fun _ => good_tunnel; pn_probe := fun _ => good_probe; pn_panicked := fun _ => false |}.
Lemma pending_clocked : clocked pending_net (fun now => now).
Proof. split; cbn; intros; lia. Qed.
Local Abbreviation pending_start := {| sm_relay := 0; sm_awaits := 0; sm_files := ∅; sm_out := [] |}.

Lemma smoke_waits_end_witness :
  (await_dns_ready pending_net signer_key pending_allocation pending_start).1 = Err "DNS readiness timed out"%string /\
  (instant pending_net ≫= fun start => dns_ready_loop pending_net signer_key pending_allocation (POLL_ROUNDS + 1000) (start + POLL_LIMIT) 0)
    pending_start = await_dns_ready pending_net signer_key pending_allocation pending_start.
Proof.
  split; [vm_compute; reflexivity|].
  exact (proj1 (smoke_waits_end pending_net (fun now => now) signer_key pending_allocation challenge_client txt_value 1 1000 pending_start
    pending_clocked)).
Defined.
