(* ===== verification/Services.v ===== *)
(** * The starts of the services and their guard

    [main] of crates/bloom-relay/src/main.rs, crates/bloom-relay-control/src/main.rs
    (its three modes) and crates/bloom-relay-ct/src/main.rs up to the point
    where the service is ready, [DnsWorker::configured], and the task that
    checks the restore witness every second and stops the process. What the
    process finds around it ([Process]) is a parameter: the environment
    variables, files, sockets, the database and the witness. *)

From Stdlib Require Import Ascii String Strings.Byte.
From stdpp Require Import base strings list gmap.
From S2P Require Import Prelude Protocol Db Witness Store StoreOutbox ClientAddr Dns IpText Operations.
From S2P Require Import Cloudflare Route53 Observer DnsWorker ReceiptSigner ControlApi CtWorker.

(** The errors of a start. *)
Inductive StartError :=
| TlsProviderConflict
| Diagnostics (e : ObserveError)
| MissingVariable (name : string)
| InvalidMode
| InvalidGatewayId
| StoreRefused (e : StoreError)
| WitnessRefused (e : WitnessError)
| TlsRefused
| AddressUnparsed
| BindRefused
| ConfigRefused (e : ConfigError)
| AcceptorRefused (e : AcceptorError)
| AddressesRefused
| InvalidProvider
| TokenRefused
| DnsRefused (e : DnsError)
| InvalidEndpoint
| FileUnreadable.

(** [rustls]: the certificates and the key of a PEM file, and whether they
    make a server configuration; and [RustlsConfig::from_pem_file]. *)
Record TlsFiles := {
  tf_certs : string -> option (list (option (list byte)));
  tf_key : string -> option (list byte);
  tf_single_cert : list (list byte) -> list byte -> bool;
  tf_pem_pair : string -> string -> bool
}.

Section services.
Context {St3 : S3} {Cr : Crypto} {Sg : Signing} {Up : UrlParser}.

Record Process := {
  ps_tls_provider : bool;
  ps_var : string -> EnvVar;
  ps_opened : bool;
  ps_store : string -> string -> StartEnv;
  ps_ack : nat -> AckEnv;
  ps_db : nat -> Db;
  ps_bound : IpAddr * Z -> bool;
  ps_tls : TlsFiles;
  ps_file : string -> option (list byte);
  ps_kms : string -> string -> option GetPublicKeyOutput;
  ps_client_built : bool
}.

Section start.
Context (p : Process).

Definition var (name : string) : result StartError string := ok_or (MissingVariable name) (env_value (ps_var p name)).

(** The first steps of every service. *)
Definition tls_provider : result StartError unit := reject_if (negb (ps_tls_provider p)) TlsProviderConflict.
Definition diagnostics : result StartError unit :=
  _ ← map_err Diagnostics (install (ps_var p "BLOOM_RELAY_METRICS_BIND") (ps_var p "BLOOM_RELAY_HEALTH_BIND") (ps_opened p));
  Ok tt.

Definition open_store (url path : string) : result StartError (StoreConfig * World) :=
  map_err StoreRefused (connect_runtime_with_witness (ps_store p url path) (ps_ack p 0) (ps_db p 0)).

(** What a start leaves: the store and the guard's own witness, which has the
    same file and no remote part. *)
Record Started := { sd_config : StoreConfig; sd_world : World; sd_guard : WitnessState }.

Definition local_witness (w : World) : WitnessState :=
  {| ws_file := match w_witness w with Some ws => ws_file ws | None => FsAbsent end; ws_remote := None; ws_seen := None |}.

(** The store is opened, and the guard's witness verified once. *)
Definition open_guarded (path : string) : result StartError Started :=
  url ← var "BLOOM_RELAY_DATABASE_URL";
  '(config, w) ← open_store url path;
  _ ← map_err (fun e => WitnessRefused (Io e)) (witness_new path);
  match verify_and_advance (db_env (ps_ack p 1) (ps_db p 1)) (local_witness w) with
  | (Ok _, guard) => Ok {| sd_config := config; sd_world := w; sd_guard := guard |}
  | (Err e, _) => Err (WitnessRefused e)
  end.

(** ** The gateway *)
Definition load_tls (cert_path key_path : string) : result StartError (list string) :=
  items ← ok_or TlsRefused (tf_certs (ps_tls p) cert_path);
  certs ← ok_or TlsRefused (mapM (fun item => item) items);
  key ← ok_or TlsRefused (tf_key (ps_tls p) key_path);
  _ ← reject_if (negb (tf_single_cert (ps_tls p) certs key)) TlsRefused;
  Ok ["h2"%string].

Definition bind (name : string) : result StartError SocketAddr :=
  text ← var name;
  address ← ok_or AddressUnparsed (parse_socket_addr text);
  _ ← reject_if (negb (ps_bound p address)) BindRefused;
  Ok address.

Definition gateway_main_start : result StartError (string * Started) :=
  _ ← tls_provider;
  _ ← diagnostics;
  gateway_id ← var "BLOOM_RELAY_GATEWAY_ID";
  _ ← reject_if (bool_decide (gateway_id = ""%string) || (64 <? str_len gateway_id)) InvalidGatewayId;
  path ← var "BLOOM_RELAY_RESTORE_WITNESS_PATH";
  started ← open_guarded path;
  cert_path ← var "BLOOM_RELAY_CONTROL_CERT_PATH";
  key_path ← var "BLOOM_RELAY_CONTROL_KEY_PATH";
  _ ← load_tls cert_path key_path;
  _ ← bind "BLOOM_RELAY_TUNNEL_BIND";
  _ ← bind "BLOOM_RELAY_INGRESS_BIND";
  Ok (gateway_id, started).

(** ** The DNS workers *)
Inductive DnsProvider := OverCloudflare (provider : CloudflareProvider) | OverRoute53 (zone : string).
Record ConfiguredWorker := {
  cw_placement : string;
  cw_scope : DnsJobScope;
  cw_provider : DnsProvider;
  cw_observer : list IpAddr;
  cw_ingress : list IpAddr
}.

Definition dns_worker_configured (placement : string) (scope : DnsJobScope) : result StartError ConfiguredWorker :=
  zone ← var "BLOOM_RELAY_DNS_ZONE_ID";
  ingress ← ok_or AddressesRefused (addresses (ps_var p "BLOOM_RELAY_INGRESS_ADDRESSES"));
  authoritative ← ok_or AddressesRefused (addresses (ps_var p "BLOOM_RELAY_AUTHORITATIVE_ADDRESSES"));
  kind ← ok_or InvalidProvider (configured_kind (ps_var p "BLOOM_RELAY_DNS_PROVIDER"));
  provider ← match kind with
    | KindCloudflare =>
        token_path ← var "BLOOM_RELAY_CLOUDFLARE_TOKEN_FILE";
        token ← ok_or TokenRefused (cloudflare_token (ps_file p token_path));
        OverCloudflare <$> map_err DnsRefused (cloudflare_new (ps_client_built p) zone token (cloudflare_scope scope))
    | KindRoute53 => OverRoute53 <$> map_err DnsRefused (route53_new zone)
    end;
  observer ← map_err DnsRefused (observer_new authoritative);
  Ok {| cw_placement := placement; cw_scope := scope; cw_provider := provider; cw_observer := observer; cw_ingress := ingress |}.

(** ** The control service *)
Inductive Mode := Api | Dns (scope : DnsJobScope).
Definition mode_parse (mode : string) : option Mode :=
  if bool_decide (mode = "api"%string) then Some Api
  else if bool_decide (mode = "dns-serving"%string) then Some (Dns Serving)
  else if bool_decide (mode = "dns-challenge"%string) then Some (Dns Challenge)
  else None.

Definition dns_start (scope : DnsJobScope) : result StartError (ConfiguredWorker * Started) :=
  path ← var "BLOOM_RELAY_RESTORE_WITNESS_PATH";
  started ← open_guarded path;
  placement ← var "BLOOM_RELAY_PLACEMENT";
  worker ← dns_worker_configured placement scope;
  Ok (worker, started).

(** [ReceiptSigner::from_env]. *)
Definition receipt_signer_from_env : result SignerError ReceiptSigner :=
  signer_from_env (ps_var p "BLOOM_RELAY_RECEIPT_KMS_KEY_ARN") (ps_var p "BLOOM_RELAY_RECEIPT_KEY_PATH")
    (ps_var p "BLOOM_RELAY_RECEIPT_PUBLIC_KEY_HEX") (ps_file p) (ps_kms p).

(** The store's configuration is the one of the opened store with the
    environment and the windows of the configuration. *)
Definition api_open : result StartError (SocketAddr * AppState * Started) :=
  text ← var "BLOOM_RELAY_CONTROL_BIND";
  address ← ok_or AddressUnparsed (parse_socket_addr text);
  state ← map_err ConfigRefused
    (configure (ps_var p "BLOOM_RELAY_CONTROL_AUDIENCE") (ps_var p "BLOOM_RELAY_PLACEMENT") (ps_var p "BLOOM_RELAY_RESTORE_WITNESS_PATH")
       (ps_var p "BLOOM_RELAY_ACME_ENVIRONMENT") (ps_var p "BLOOM_RELAY_CREDENTIAL_VALIDITY_SECONDS")
       (ps_var p "BLOOM_RELAY_CREDENTIAL_RENEWAL_GRACE_SECONDS") receipt_signer_from_env);
  path ← var "BLOOM_RELAY_RESTORE_WITNESS_PATH";
  started ← open_guarded path;
  Ok (address, state, started).

Definition api_listener (address : SocketAddr) : result StartError ClientAddrAcceptor :=
  cert_path ← var "BLOOM_RELAY_CONTROL_CERT_PATH";
  key_path ← var "BLOOM_RELAY_CONTROL_KEY_PATH";
  _ ← reject_if (negb (tf_pem_pair (ps_tls p) cert_path key_path)) TlsRefused;
  map_err AcceptorRefused (acceptor_from_env (ps_var p "BLOOM_RELAY_CONTROL_PROXY_PROTOCOL") address).

Inductive ControlService := ApiService (state : AppState) (acceptor : ClientAddrAcceptor) | DnsService (worker : ConfiguredWorker).
Definition control_main_start : result StartError (ControlService * Started) :=
  _ ← tls_provider;
  text ← var "BLOOM_RELAY_MODE";
  mode ← ok_or InvalidMode (mode_parse text);
  _ ← diagnostics;
  match mode with
  | Dns scope => '(worker, started) ← dns_start scope; Ok (DnsService worker, started)
  | Api =>
      '(address, state, started) ← api_open;
      acceptor ← api_listener address;
      Ok (ApiService state acceptor, started)
  end.

(** ** The CT worker *)
Definition endpoint (url ca_var token_var : string) : result StartError Endpoint :=
  ca_path ← var ca_var;
  ca_pem ← ok_or FileUnreadable (ps_file p ca_path);
  token_path ← var token_var;
  Ok {| ep_url := url; ep_ca_pem := ca_pem; ep_token_path := token_path |}.

Definition ct_main_start : result StartError (CtWorker.Worker * StoreConfig * World) :=
  _ ← tls_provider;
  _ ← diagnostics;
  source ← var "BLOOM_RELAY_CT_SOURCE";
  feed_origin ← var "BLOOM_RELAY_CT_FEED_ORIGIN";
  feed_url ← ok_or InvalidEndpoint (checked_url feed_origin true);
  alert_text ← var "BLOOM_RELAY_CT_ALERT_URL";
  alert_url ← ok_or InvalidEndpoint (checked_url alert_text false);
  url ← var "BLOOM_RELAY_DATABASE_URL";
  path ← var "BLOOM_RELAY_RESTORE_WITNESS_PATH";
  '(config, w) ← open_store url path;
  feed ← endpoint feed_url "BLOOM_RELAY_CT_FEED_CA_PATH" "BLOOM_RELAY_CT_FEED_TOKEN_PATH";
  alert ← endpoint alert_url "BLOOM_RELAY_CT_ALERT_CA_PATH" "BLOOM_RELAY_CT_ALERT_TOKEN_PATH";
  Ok ({| w_source := source; w_feed := feed; w_alert := alert |}, config, w).
End start.

(** ** The guard *)
(** A turn of the guard, after its second: the file and the database as they
    are then. A refusal ends the process with the status of a configuration
    error. *)
Record GuardTurn := { gt_ack : AckEnv; gt_db : Db; gt_file : FsEntry }.
Definition EXIT_STATUS : Z := 78.
Definition guard_turn (t : GuardTurn) (ws : WitnessState) : option Z * WitnessState :=
  match verify_and_advance (db_env (gt_ack t) (gt_db t)) (set_file (gt_file t) ws) with
  | (Ok _, ws') => (None, ws')
  | (Err _, ws') => (Some EXIT_STATUS, ws')
  end.
Fixpoint guard_loop (turns : list GuardTurn) (ws : WitnessState) : option Z :=
  match turns with
  | [] => None
  | t :: turns =>
      match guard_turn t ws with
      | (Some status, _) => Some status
      | (None, ws') => guard_loop turns ws'
      end
  end.

(** The services that run a guard. *)
Inductive Service := GatewayService | ControlApiOrWorker.
Definition service_start (k : Service) (p : Process) : result StartError Started :=
  match k with
  | GatewayService => snd <$> gateway_main_start p
  | ControlApiOrWorker => snd <$> control_main_start p
  end.
End services.

(** ** What a started service has verified *)
Section fence.
Context {St3 : S3} {L : S3Laws} {Cr : Crypto} {Sg : Signing} {Up : UrlParser} (p : Process).

Ltac peel H :=
  repeat match type of H with
         | (_ ≫= _) = Ok _ => let x := fresh "x" in apply bind_ok in H as (x & ? & H)
         end.

Lemma service_opened k started : service_start k p = Ok started ->
  exists path, ps_var p "BLOOM_RELAY_RESTORE_WITNESS_PATH" = Value path /\ open_guarded p path = Ok started.
Proof.
  assert (forall name s, var p name = Ok s -> ps_var p name = Value s) as Hvar.
  { intros name s Hs%ok_or_ok. destruct (ps_var p name); try discriminate Hs. by injection Hs as ->. }
  destruct k; cbn [service_start].
  - destruct (gateway_main_start p) as [[id st]|] eqn:Hg; [|done]. intros [= ->]. unfold gateway_main_start in Hg. peel Hg.
    injection Hg as _ ->. eauto.
  - destruct (control_main_start p) as [[service st]|] eqn:Hc; [|done]. intros [= ->]. unfold control_main_start in Hc. peel Hc.
    match goal with m : Mode |- _ => destruct m as [|scope] end.
    + apply bind_ok in Hc as ([[address state] st] & Ha & Hc). peel Hc. injection Hc as _ ->. unfold api_open in Ha. peel Ha.
      injection Ha as _ _ ->. eauto.
    + apply bind_ok in Hc as ([worker st] & Ha & Hc). injection Hc as _ ->. unfold dns_start in Ha. peel Ha. injection Ha as _ ->. eauto.
Qed.

Lemma open_guarded_ok path started : fence_ok (ps_db p 1) -> open_guarded p path = Ok started ->
  read_revision (ws_file (sd_guard started)) = Ok (Some (d_revision (ps_db p 1))) /\
  exists url, ps_var p "BLOOM_RELAY_DATABASE_URL" = Value url /\ is_ok (connect_runtime_with_witness (ps_store p url path) (ps_ack p 0) (ps_db p 0)) = true.
Proof.
  intros Hf Ho. apply bind_ok in Ho as (url & Hurl%ok_or_ok & Ho). apply bind_ok in Ho as ([config w] & Hopen & Ho).
  apply bind_ok in Ho as (? & _ & Ho).
  destruct (verify_and_advance _ _) as [[[]|e] guard] eqn:Hv; [|done]. injection Ho as <-. cbn [sd_guard]. split.
  - unfold verify_and_advance in Hv. destruct (we_lock _) in Hv; [|done].
    apply attempts_ok in Hv as (k & rev & local & [= Hrev] & _ & _ & Hfile); [|by apply db_env_u64].
    rewrite restore_revision_fence in Hrev by done. by subst rev.
  - exists url. split.
    + destruct (ps_var p _) as [| |v]; try discriminate Hurl. by injection Hurl as ->.
    + unfold open_store in Hopen. by destruct (connect_runtime_with_witness _ _ _).
Qed.

(** A turn on a database below the witness file stops the process. *)
Lemma guard_turn_stale t rev ws : read_revision (gt_file t) = Ok (Some rev) -> fence_ok (gt_db t) -> d_revision (gt_db t) < rev ->
  (guard_turn t ws).1 = Some EXIT_STATUS.
Proof.
  intros Hr Hf Hlt. unfold guard_turn, verify_and_advance. destruct (we_lock _); [|done].
  destruct (attempts_stale REMOTE_ATTEMPTS 0 (db_env (gt_ack t) (gt_db t)) (set_file (gt_file t) ws) (d_revision (gt_db t)) rev)
    as (e & ws2 & -> & _); [cbn; by rewrite restore_revision_fence|done|by left|done].
Qed.

Lemma guard_loop_stale before t after ws : (forall ws, (guard_turn t ws).1 = Some EXIT_STATUS) ->
  guard_loop (before ++ t :: after) ws = Some EXIT_STATUS.
Proof.
  intros Ht. revert ws. induction before as [|b before IH]; intros ws; cbn.
  - specialize (Ht ws). by destruct (guard_turn t ws) as [[status|] ws']; [injection Ht as ->|].
  - unfold guard_turn at 1. destruct (verify_and_advance _ _) as [[]]; [apply IH|done].
Qed.

(** C13: no service keeps serving a database that was rolled back. The gateway,
    the control API and the DNS workers only start on a database their witness
    accepts, they refuse one whose restore fence is below the witness file,
    and once one runs, the first turn of its guard that finds the database
    below the witness file ends the process, whatever happened before. *)
Theorem services_leave_rolled_back_database k :
  (forall started, fence_ok (ps_db p 1) -> service_start k p = Ok started ->
     read_revision (ws_file (sd_guard started)) = Ok (Some (d_revision (ps_db p 1))) /\
     forall before t after rev, read_revision (gt_file t) = Ok (Some rev) -> fence_ok (gt_db t) -> d_revision (gt_db t) < rev ->
       guard_loop (before ++ t :: after) (sd_guard started) = Some EXIT_STATUS) /\
  (forall ws rev, (forall url path, se_witness (ps_store p url path) = Ok ws) -> read_revision (ws_file ws) = Ok (Some rev) ->
     fence_ok (ps_db p 0) -> d_revision (ps_db p 0) < rev -> fence_ok (ps_db p 1) -> is_err (service_start k p) = true).
Proof.
  split.
  - intros started Hf (path & _ & Ho)%service_opened. split; [by eapply open_guarded_ok|].
    intros before t after rev Hr Hft Hlt. apply guard_loop_stale. intros ws. by eapply guard_turn_stale.
  - intros ws rev Hws Hr Hf Hlt Hf1. destruct (service_start k p) as [started|] eqn:Hs; [|done].
    apply service_opened in Hs as (path & _ & Ho). destruct (open_guarded_ok _ _ Hf1 Ho) as [_ (url & _ & Hok)].
    pose proof (connect_runtime_stale (ps_store p url path) (ps_ack p 0) ws (ps_db p 0) rev (Hws url path) Hr Hf Hlt) as Hstale.
    by destruct (connect_runtime_with_witness _ _ _).
Qed.
End fence.
