(* ===== verification/Fuzz.v ===== *)
(** * The fuzz targets: fuzz/fuzz_targets

    What the targets assert of random inputs holds of every input: the control
    decoder does not depend on how a stream is cut into chunks, and the second
    target takes the path of the gateway's ClientHello reader. *)

From Stdlib Require Import Ascii String Strings.Byte.
From stdpp Require Import base strings list.
From S2P Require Import Prelude Protocol Db Ingress.

(** [slice::chunks]: pieces of [n] elements, the last one possibly shorter. *)
Fixpoint chunks_fuel {A} (fuel n : nat) (l : list A) : list (list A) :=
  match fuel, l with
  | S fuel, _ :: _ => take n l :: chunks_fuel fuel n (drop n l)
  | _, _ => []
  end.
Definition chunks {A} (n : nat) (l : list A) : list (list A) := chunks_fuel (List.length l) n l.

Lemma concat_chunks {A} n (l : list A) : n <> 0%nat -> concat (chunks n l) = l.
Proof.
  intros Hn. unfold chunks. assert (List.length l <= List.length l)%nat as Hl by lia. revert Hl. generalize (List.length l) at 2 3.
  intros fuel. revert l. induction fuel as [|fuel IH]; intros [|a l] Hl; cbn in *; try done; [lia|].
  destruct n as [|n]; [done|]. cbn. rewrite IH; [by rewrite take_drop|]. rewrite length_drop. lia.
Qed.

Lemma chunks_nonempty {A} n (l : list A) : n <> 0%nat -> Forall (fun c => c <> []) (chunks n l).
Proof.
  intros Hn. unfold chunks. generalize (List.length l). intros fuel. revert l.
  induction fuel as [|fuel IH]; intros [|a l]; cbn; try constructor; [|apply IH]. by destruct n.
Qed.

(** ** control_frames.rs *)
#[global] Instance TunnelEvent_eq_dec : EqDecision TunnelEvent.
Proof. solve_decision. Defined.

Section frames.
Context `{Serde}.

(** The loop over the fragments: what was observed, and the first error. *)
Fixpoint fragmented_push (fragments : list (list byte)) (pending : list byte) (observed : list TunnelEvent) :
    list TunnelEvent * option ProtocolError :=
  match fragments with
  | [] => (observed, None)
  | chunk :: fragments =>
      match push pending chunk with
      | (Ok events, pending) => fragmented_push fragments pending (observed ++ events)
      | (Err reason, _) => (observed, Some reason)
      end
  end.

(** The target; [true] when no assertion fails. *)
Definition control_frames (data : list byte) : bool :=
  match data with
  | [] => true
  | first :: _ =>
      if MAX_CONTROL_BODY <? Z.of_nat (List.length data) then true
      else
        let expected := (push [] data).1 in
        let chunk_size := Z.to_nat (Z.max 1 (u8 first mod 64)) in
        let (observed, error) := fragmented_push (chunks chunk_size data) [] [] in
        match expected with
        | Ok events => bool_decide (error = None) && bool_decide (observed = events)
        | Err _ => bool_decide (is_Some error)
        end
  end.

Lemma decode_loop_error f pending more events reason rest :
  (List.length pending <= f)%nat -> decode_loop f pending events = (Err reason, rest) ->
  (decode_loop (f + List.length more) (pending ++ more) events).1 = Err reason.
Proof.
  revert pending events. induction f as [|f IH]; intros pending events Hf; [done|]. intros Hd. cbn [decode_loop] in Hd.
  destruct (drain_line pending) as [[line remaining]|] eqn:Hl; [|done].
  apply drain_line_Some in Hl as [-> Hn]. rewrite length_app in Hf. cbn in Hf.
  cbn [Nat.add decode_loop]. rewrite <-app_assoc. cbn [app]. rewrite drain_line_app by done.
  destruct (event_from_slice line); [apply IH; [lia|done]|]. by injection Hd as <- _.
Qed.

(** Within the limit, a chunk and then the rest is the whole. *)
Lemma push_app pending chunk more r rest :
  Z.of_nat (List.length pending + List.length chunk + List.length more) <= MAX_CONTROL_BODY -> push pending chunk = (r, rest) ->
  match r with
  | Ok events => push pending (chunk ++ more) = (app events <$> (push rest more).1, (push rest more).2) /\ NEWLINE ∉ rest /\
      (List.length rest <= List.length pending + List.length chunk)%nat
  | Err _ => is_err (push pending (chunk ++ more)).1 = true
  end.
Proof.
  unfold push. intros Hlen. rewrite !length_app, !(proj2 (Z.ltb_ge _ _)) by lia. cbn [orb]. intros Hd.
  rewrite app_assoc, Nat.add_assoc.
  assert (List.length (pending ++ chunk) <= List.length pending + List.length chunk)%nat as Hf by (by rewrite length_app).
  destruct r as [events|reason].
  - apply decode_loop_chunks with (more := more) in Hd as Hw; [|exact Hf]. apply decode_loop_rest in Hd as [Hs%suffix_length Hn]; [|exact Hf].
    rewrite length_app in Hs. split; [|split; [by apply Hn|lia]].
    rewrite Hw, (proj2 (Z.ltb_ge _ _)), <-length_app by lia.
    pose proof (decode_loop_app (List.length (rest ++ more)) (rest ++ more) events []) as Ha. by rewrite app_nil_r in Ha.
  - apply decode_loop_error with (more := more) in Hd; [|exact Hf]. by rewrite Hd.
Qed.

Lemma push_nil pending : Z.of_nat (List.length pending) <= MAX_CONTROL_BODY -> NEWLINE ∉ pending -> push pending [] = (Ok [], pending).
Proof.
  unfold push. intros Hl Hn%drain_line_None. rewrite !(proj2 (Z.ltb_ge _ _)) by (cbn; lia). rewrite app_nil_r. cbn [orb].
  destruct pending as [|b pending]; [done|]. cbn [List.length decode_loop]. by rewrite Hn.
Qed.

Lemma fragmented_push_whole fragments pending observed :
  Z.of_nat (List.length pending + List.length (concat fragments)) <= MAX_CONTROL_BODY -> NEWLINE ∉ pending ->
  match (push pending (concat fragments)).1 with
  | Ok events => fragmented_push fragments pending observed = (observed ++ events, None)
  | Err _ => is_Some (fragmented_push fragments pending observed).2
  end.
Proof.
  revert pending observed. induction fragments as [|chunk fragments IH]; intros pending observed Hlen Hn; cbn [concat fragmented_push].
  { rewrite push_nil by (done || cbn in Hlen; lia). cbn. by rewrite app_nil_r. }
  cbn [concat] in Hlen. rewrite length_app in Hlen. destruct (push pending chunk) as [r rest] eqn:Hp.
  eapply (push_app _ _ (concat fragments)) in Hp; [|lia]. destruct r as [events|reason].
  - destruct Hp as (-> & Hn' & Hl). specialize (IH rest (observed ++ events) ltac:(lia) Hn').
    destruct (push rest (concat fragments)) as [[more|] p]; cbn in *; [by rewrite IH, app_assoc|done].
  - destruct (push pending (chunk ++ concat fragments)) as [[]]; [done|]. cbn. eauto.
Qed.

(** C33: how the transport cuts a control stream does not matter. The
    assertions of the fuzz target hold of every input; and however bytes of at
    most 16 KiB are cut into chunks, feeding the chunks gives the events of the
    whole, or an error exactly when the whole is an error. *)
Theorem control_frames_never_fail (data : list byte) (fragments : list (list byte)) :
  control_frames data = true /\
  (Z.of_nat (List.length (concat fragments)) <= MAX_CONTROL_BODY ->
   match (push [] (concat fragments)).1 with
   | Ok events => fragmented_push fragments [] [] = (events, None)
   | Err _ => is_Some (fragmented_push fragments [] []).2
   end).
Proof.
  split; [|intros Hlen; apply (fragmented_push_whole fragments [] []); [exact Hlen|apply not_elem_of_nil]].
  unfold control_frames. destruct data as [|first data]; [done|]. set (l := first :: data).
  destruct (MAX_CONTROL_BODY <? Z.of_nat (List.length l)) eqn:Hlen; [done|]. to_prop.
  set (size := Z.to_nat (Z.max 1 (u8 first mod 64))). assert (size <> 0%nat) as Hsize by (unfold size; lia).
  pose proof (fragmented_push_whole (chunks size l) [] []) as Hw. rewrite concat_chunks in Hw by done.
  specialize (Hw Hlen (not_elem_of_nil _)). destruct (push [] l) as [[events|reason] p]; cbn [fst] in *.
  - rewrite Hw. cbn. by rewrite !bool_decide_true.
  - destruct (fragmented_push (chunks size l) [] []) as [observed error]. by apply bool_decide_true.
Qed.
End frames.

(** ** client_hello.rs *)
Section hello.
Context (accept : list byte -> Hello).

(** The loop of the target: the validation it reaches, if it reaches one. *)
Fixpoint accept_chunks (fragments : list (list byte)) (seen : list byte) : option (result ProtocolError unit) :=
  match fragments with
  | [] => None
  | chunk :: fragments =>
      match accept (seen ++ chunk) with
      | ServerName (Some host) => Some (validate_hostname host)
      | ServerName None | Malformed => None
      | NeedMore => accept_chunks fragments (seen ++ chunk)
      end
  end.
Definition client_hello (data : list byte) : option (result ProtocolError unit) :=
  match data with
  | [] => None
  | first :: _ =>
      if MAX_CLIENT_HELLO <? Z.of_nat (List.length data) then None
      else accept_chunks (chunks (Z.to_nat (Z.max 1 (u8 first))) data) []
  end.

(** The target takes the gateway's path: it validates a name exactly when the
    gateway, reading the same chunks, would accept or refuse that name. *)
Lemma accept_chunks_read_sni fragments seen :
  Forall (fun c => c <> []) fragments -> Z.of_nat (List.length seen + List.length (concat fragments)) <= MAX_CLIENT_HELLO ->
  accept_chunks fragments seen = Some (Ok tt) <-> is_ok (read_sni accept (Some <$> fragments) seen) = true.
Proof.
  intros Hne. revert seen. induction Hne as [|chunk fragments Hc _ IH]; intros seen Hlen; cbn [accept_chunks fmap list_fmap read_sni]; [done|].
  cbn [concat] in Hlen. rewrite length_app in Hlen. rewrite (proj2 (Z.eqb_neq _ _)) by (destruct chunk; [done|cbn; lia]).
  rewrite (proj2 (Z.ltb_ge _ _)) by lia. cbn [orb]. destruct (accept (seen ++ chunk)) as [| |[host|]]; [|done| |done].
  - apply IH. rewrite length_app. lia.
  - destruct (validate_hostname host) as [[]|]; cbn; [done|]. split; congruence.
Qed.

Lemma client_hello_gateway data :
  client_hello data = Some (Ok tt) ->
  exists fragments, concat fragments = data /\ is_ok (read_sni accept (Some <$> fragments) []) = true.
Proof.
  unfold client_hello. destruct data as [|first data]; [done|]. set (l := first :: data).
  destruct (MAX_CLIENT_HELLO <? Z.of_nat (List.length l)) eqn:Hlen; [done|]. to_prop.
  set (size := Z.to_nat (Z.max 1 (u8 first))). assert (size <> 0%nat) as Hsize by (unfold size; lia).
  intros Ha. exists (chunks size l). split; [by apply concat_chunks|]. apply accept_chunks_read_sni; [by apply chunks_nonempty| |exact Ha].
  by rewrite concat_chunks.
Qed.
End hello.

(** ** Two heartbeats, cut inside the first *)
Import Protocol.Concrete.
Lemma control_frames_never_fail_witness :
  control_frames [Byte.x07; NEWLINE; Byte.x08; NEWLINE] = true /\
  fragmented_push [[Byte.x07]; [NEWLINE; Byte.x08]; [NEWLINE]] [] [] = ([Heartbeat 1 7; Heartbeat 1 8], None).
Proof.
  split; [exact (proj1 (control_frames_never_fail [Byte.x07; NEWLINE; Byte.x08; NEWLINE] []))|].
  exact (proj2 (control_frames_never_fail [] [[Byte.x07]; [NEWLINE; Byte.x08]; [NEWLINE]]) ltac:(vm_compute; discriminate)).
Defined.
