(* ===== verification/ControlHttp.v ===== *)
(** * The HTTP surface of the control API: crates/bloom-relay-control/src/main.rs

    The routes of [main], the extraction of a request's path and body, and the
    answer: a handler's response, its error as an [ErrorEnvelope], or the
    framework's own rejection. Decoding JSON, media types and percent escapes
    are the axum library's. Every error a route can answer with is listed, and
    every response is a well-formed message of the wire protocol. *)

From Stdlib Require Import Ascii String Strings.Byte.
From stdpp Require Import base strings list gmap.
From S2P Require Import Prelude Protocol Db Witness Store StoreCredentials StoreChallenges.
From S2P Require Import StoreLifecycle StoreBootstrap StoreCt StoreHistory StoreInvariant ReceiptSigner ControlApi ControlLogic ControlProperties.

(** ** Routes *)
Inductive Endpoint :=
| EBootstrapChallenge
| EEnroll
| ECredentials
| ERenew
| EAcmeAccount
| EStatus
| ERetire
| ECertificates
| EDnsChallenge
| EReady (installation revision value : string).

(** [{name}] matches one segment that is not empty. *)
Definition route (path : string) : option Endpoint :=
  if bool_decide (path = "/v1/bootstrap/challenge"%string) then Some EBootstrapChallenge
  else if bool_decide (path = "/v1/bootstrap/enroll"%string) then Some EEnroll
  else if bool_decide (path = "/v1/credentials"%string) then Some ECredentials
  else if bool_decide (path = "/v1/credentials/renew"%string) then Some ERenew
  else if bool_decide (path = "/v1/acme-account"%string) then Some EAcmeAccount
  else if bool_decide (path = "/v1/installations/status"%string) then Some EStatus
  else if bool_decide (path = "/v1/installations/retire"%string) then Some ERetire
  else if bool_decide (path = "/v1/certificates"%string) then Some ECertificates
  else if bool_decide (path = "/v1/dns/challenge"%string) then Some EDnsChallenge
  else
    match string_of_list_byte <$> split_on Byte.x2f (str_bytes path) with
    | [root; v1; dns; challenge; installation; ready; revision; value] =>
        if bool_decide ([root; v1; dns; challenge; ready] = ["" ; "v1"; "dns"; "challenge"; "ready"]%string)
           && negb (existsb (fun s => bool_decide (s = ""%string)) [installation; revision; value])
        then Some (EReady installation revision value) else None
    | _ => None
    end.

(** [post(..)], and [get(..)], which serves HEAD as well. *)
Definition method_allowed (endpoint : Endpoint) (method : string) : bool :=
  match endpoint with
  | EReady _ _ _ => bool_decide (method = "GET"%string) || bool_decide (method = "HEAD"%string)
  | _ => bool_decide (method = "POST"%string)
  end.

(** ** Extraction *)
Inductive Payload :=
| BodyEnroll (request : SignedRequest AllocateRequest)
| BodyCredentials (request : SignedRequest CredentialIssueRequest)
| BodyRenew (request : CredentialRenewRequest)
| BodyAcmeAccount (request : SignedRequest AcmeAccountRequest)
| BodyStatus (request : SignedRequest InstallationStatusRequest)
| BodyRetire (request : SignedRequest RetireRequest)
| BodyCertificate (certificate : CertificateMetadata)
| BodyDnsChallenge (request : DnsChallengeEnsureRequest).

Inductive BodyFault := NotJson | WrongShape.

(** axum: the media types [Json] takes, the percent escapes of a path, and
    serde_json for each body. *)
Class Axum := {
  json_content_type : string -> bool;
  percent_decode : string -> option string;
  body_encode : Payload -> list byte;
  decode_enroll : list byte -> result BodyFault (SignedRequest AllocateRequest);
  decode_credentials : list byte -> result BodyFault (SignedRequest CredentialIssueRequest);
  decode_renew : list byte -> result BodyFault CredentialRenewRequest;
  decode_account : list byte -> result BodyFault (SignedRequest AcmeAccountRequest);
  decode_status : list byte -> result BodyFault (SignedRequest InstallationStatusRequest);
  decode_retire : list byte -> result BodyFault (SignedRequest RetireRequest);
  decode_certificate : list byte -> result BodyFault CertificateMetadata;
  decode_challenge : list byte -> result BodyFault DnsChallengeEnsureRequest
}.

(** A document decodes to what was encoded; text without [%] is itself. *)
Class AxumLaws `{Axum} : Prop := {
  json_type_accepted : json_content_type "application/json" = true;
  percent_decode_plain s : bytes_all (fun b => negb (Byte.eqb b Byte.x25)) s = true -> percent_decode s = Some s;
  decode_encoded p : match p with
    | BodyEnroll r => decode_enroll (body_encode p) = Ok r
    | BodyCredentials r => decode_credentials (body_encode p) = Ok r
    | BodyRenew r => decode_renew (body_encode p) = Ok r
    | BodyAcmeAccount r => decode_account (body_encode p) = Ok r
    | BodyStatus r => decode_status (body_encode p) = Ok r
    | BodyRetire r => decode_retire (body_encode p) = Ok r
    | BodyCertificate r => decode_certificate (body_encode p) = Ok r
    | BodyDnsChallenge r => decode_challenge (body_encode p) = Ok r
    end
}.

Record HttpRequest := {
  hq_method : string;
  hq_path : string;
  hq_headers : HeaderMap;
  hq_content_type : option string;
  hq_body : list byte;
  hq_source : IpAddr
}.

(** [DefaultBodyLimit::max(16 * 1024)]. *)
Definition BODY_LIMIT : Z := 16 * 1024.

Section http.
Context `{S3} `{Signing} `{Serde} `{Base32} `{Hex} {Ax : Axum}.
Context (uuid_parse_str : string -> option Uuid) (st : AppState).

(** [Json<T>]: the media type, the body within the limit, the document. The
    statuses are those of the rejections. *)
Definition read_json {T} (decode : list byte -> result BodyFault T) (q : HttpRequest) : result Z T :=
  if negb (match hq_content_type q with Some t => json_content_type t | None => false end) then Err 415
  else if BODY_LIMIT <? Z.of_nat (List.length (hq_body q)) then Err 413
  else map_err (fun fault => match fault with NotJson => 400 | WrongShape => 422 end) (decode (hq_body q)).

(** [Path<(Uuid, u64, String)>]. *)
Definition read_path (installation revision value : string) : result Z (Uuid * Z * string) :=
  id ← ok_or 400 (text ← percent_decode installation; uuid_parse_str text);
  revision ← ok_or 400 (text ← percent_decode revision; parse_u64 (str_bytes text));
  value ← ok_or 400 (percent_decode value);
  Ok (id, revision, value).

Definition extract (endpoint : Endpoint) (q : HttpRequest) : result Z ApiRequest :=
  match endpoint with
  | EBootstrapChallenge => Ok (PostBootstrapChallenge (hq_source q))
  | EEnroll => r ← read_json decode_enroll q; Ok (PostEnroll (hq_source q) r)
  | ECredentials => r ← read_json decode_credentials q; Ok (PostCredentials r)
  | ERenew => r ← read_json decode_renew q; Ok (PostRenew (hq_headers q) r)
  | EAcmeAccount => r ← read_json decode_account q; Ok (PostAcmeAccount r)
  | EStatus => r ← read_json decode_status q; Ok (PostStatus r)
  | ERetire => r ← read_json decode_retire q; Ok (PostRetire r)
  | ECertificates => r ← read_json decode_certificate q; Ok (PostCertificates (hq_headers q) r)
  | EDnsChallenge => r ← read_json decode_challenge q; Ok (PostDnsChallenge (hq_headers q) r)
  | EReady installation revision value =>
      r ← read_path installation revision value;
      let '(id, revision, value) := r in Ok (GetChallengeReady id revision value (hq_headers q))
  end.

Definition dispatch (q : HttpRequest) : result Z ApiRequest :=
  match route (hq_path q) with
  | None => Err 404
  | Some endpoint => if method_allowed endpoint (hq_method q) then extract endpoint q else Err 405
  end.

(** ** Answers *)
Record ErrorEnvelope := { en_code : ErrorCode; en_request_id : Uuid; en_retryable : bool }.

Inductive AnswerBody := NoBody | OfResponse (r : ApiResponse) | OfError (envelope : ErrorEnvelope) | OfFramework.
Record Answer := { an_status : Z; an_body : AnswerBody }.

Definition of_response (r : ApiResponse) : Answer :=
  match r with
  | StatusOnly status => {| an_status := status; an_body := NoBody |}
  | _ => {| an_status := 200; an_body := OfResponse r |}
  end.

(** [impl IntoResponse for ApiError]; the request id is fresh. *)
Definition into_response (err : ApiError) (request_id : Uuid) : Answer :=
  {| an_status := e_status err;
     an_body := OfError {| en_code := e_code err; en_request_id := request_id; en_retryable := e_retryable err |} |}.

Definition serve (q : HttpRequest) (e : ApiEnv) (s : nat * Api) : Answer * (nat * Api) :=
  match dispatch q with
  | Err status => ({| an_status := status; an_body := OfFramework |}, s)
  | Ok request =>
      match handle uuid_parse_str st request e s with
      | (Ok r, s') => (of_response r, s')
      | (Err err, s') => (into_response err (n_uuid e s'.1), s')
      end
  end.

(** The errors of each route, as status, code and whether to retry. *)
Definition route_errors (request : ApiRequest) : list ApiError :=
  match request with
  | PostBootstrapChallenge _ => [unavailable; quota_exceeded]
  | PostEnroll _ _ => [invalid; unauthorized; replayed; conflict false; unavailable]
  | PostCredentials _ => [invalid; unauthorized; replayed; unavailable]
  | PostRenew _ _ => [invalid; unauthorized; conflict false; unavailable]
  | PostAcmeAccount _ => [invalid; unauthorized; replayed; conflict false; unavailable]
  | PostStatus _ => [invalid; unauthorized; replayed; unavailable]
  | PostRetire _ => [invalid; unauthorized; replayed; conflict false; unavailable]
  | PostCertificates _ _ => [invalid; unauthorized; conflict true; conflict false; unavailable]
  | PostDnsChallenge _ _ => [invalid; unauthorized; conflict true; unavailable]
  | GetChallengeReady _ _ _ _ => [invalid; unauthorized; conflict true; unavailable]
  end.

(** ** Errors of the handlers *)
Definition fails_with {A} (m : ApM A) (errors : list ApiError) : Prop :=
  forall e s err s', m e s = (Err err, s') -> err ∈ errors.

Lemma fw_ret {A} (a : A) errors : fails_with (mret a) errors.
Proof. by intros e s err s' [= ]. Qed.
Lemma fw_bind {A B} (m : ApM A) (f : A -> ApM B) errors :
  fails_with m errors -> (forall a, fails_with (f a) errors) -> fails_with (m ≫= f) errors.
Proof.
  intros Hm Hf e s err s'. unfold mbind, ap_bind. destruct (m e s) as [[a|err1] s1] eqn:Hr; [apply Hf|].
  intros [= <- <-]. by eapply Hm.
Qed.
Lemma fw_lift {A} (r : result ApiError A) errors : (forall err, r = Err err -> err ∈ errors) -> fails_with (ap_lift r) errors.
Proof. intros Hr e s err s' [= Hx _]. by apply Hr. Qed.
Lemma fw_some {A} err (o : option A) errors : err ∈ errors -> fails_with (ap_some err o) errors.
Proof. intros He. apply fw_lift. destruct o; intros err'; [done|]. by intros [= <-]. Qed.
Lemma fw_reject b err errors : err ∈ errors -> fails_with (ap_reject b err) errors.
Proof. intros He. apply fw_lift. destruct b; intros err'; [|done]. by intros [= <-]. Qed.
Lemma fw_now errors : fails_with now_ms errors.
Proof. by intros e s err s' [= ]. Qed.
Lemma fw_nonce errors : fails_with random_nonce errors.
Proof. by intros e s err s' [= ]. Qed.
Lemma fw_sign message errors : unavailable ∈ errors -> fails_with (sign_receipt st message) errors.
Proof.
  intros Hu e s err s' [= Hx _]. destruct (sign _ _ _); [done|]. by injection Hx as <-.
Qed.
Lemma fw_query {A} on_error (f : Z -> Db -> result StoreError A) errors :
  (forall err, on_error err ∈ errors) -> fails_with (query on_error f) errors.
Proof.
  intros Hon e s err s'. unfold query. cbv zeta. intros [= Hx _]. destruct (n_fault e s.1); [by injection Hx as <-|].
  destruct (f _ _); [done|]. by injection Hx as <-.
Qed.
Lemma fw_transact {A} on_error r (f : AckEnv -> Z -> World -> result StoreError A * World) errors :
  (forall err, on_error err ∈ errors) -> fails_with (transact on_error r f) errors.
Proof.
  intros Hon e s err s'. unfold transact. cbv zeta. destruct (f _ _ _) as [res w].
  destruct (n_fault e s.1) as [[]|]; intros [= Hx _]; try (by subst); destruct res; [done|]. by injection Hx as <-.
Qed.

(** Which error it is, by computation. *)
Ltac in_errors := vm_compute; set_solver.
Ltac fw_walk := repeat (cbv beta zeta; lazymatch goal with
  | |- fails_with (_ ≫= _) _ => apply fw_bind; [|intros ?]
  | |- fails_with (query _ _) _ => apply fw_query; intros []; in_errors
  | |- fails_with (transact _ _ _) _ => apply fw_transact; intros []; in_errors
  | |- fails_with (ap_some _ _) _ => apply fw_some; in_errors
  | |- fails_with (ap_reject _ _) _ => apply fw_reject; in_errors
  | |- fails_with (sign_receipt _ _) _ => apply fw_sign; in_errors
  | |- fails_with (ap_lift (map_err _ ?r)) _ => apply fw_lift; intros ?; destruct r; [done|intros [= <-]; in_errors]
  | |- fails_with _ _ => first [ apply fw_ret | apply fw_now | apply fw_nonce ]
  end).

Lemma fw_allocate op key errors :
  (forall err, conflict_or_unavailable err ∈ errors) -> fails_with (allocate st op key) errors.
Proof. intros Hon e s. apply (fw_transact conflict_or_unavailable _ _ errors Hon e s). Qed.
Lemma fw_digest text errors : invalid ∈ errors -> fails_with (ap_lift (digest_of_hex text)) errors.
Proof.
  intros Hi. apply fw_lift. unfold digest_of_hex. intros err. destruct (hex_decode text); cbn; [case_bool_decide|]; try done; by intros [= <-].
Qed.
Lemma fw_key request errors : invalid ∈ errors -> fails_with (ap_lift (enroll_key request)) errors.
Proof.
  intros Hi. apply fw_lift. unfold enroll_key. intros err. destruct (base64url_decode _); cbn; [|by intros [= <-]].
  case_bool_decide; cbn; [|by intros [= <-]]. destruct (key_from_bytes _); cbn; [done|]. by intros [= <-].
Qed.

Lemma handle_fails request : fails_with (handle uuid_parse_str st request) (route_errors request).
Proof.
  destruct request; cbn [handle route_errors]; unfold challenge, enroll, issue_credential, renew_credential, register_acme_account,
    installation_status, retire_installation, record_certificate, ensure_dns_challenge, dns_challenge_ready,
    authorize_admin, authenticate_dns; fw_walk;
    first [ apply fw_key; in_errors | apply fw_digest; in_errors | apply fw_allocate; intros []; in_errors
          | apply fw_lift; intros err; repeat case_match; intros [= <-]; in_errors ].
Qed.

(** A request the extractors built holds values of its types. *)
Definition extracted_typed (q : HttpRequest) : Prop := forall request, dispatch q = Ok request -> request_typed request.

Lemma read_json_status {T} (decode : list byte -> result BodyFault T) q status :
  read_json decode q = Err status -> status ∈ [400; 404; 405; 413; 415; 422].
Proof.
  unfold read_json. destruct (negb _); [intros [= <-]; set_solver|]. destruct (_ <? _); [intros [= <-]; set_solver|].
  destruct (decode _) as [|[]]; [done|..]; intros [= <-]; set_solver.
Qed.

Lemma dispatch_status q status : dispatch q = Err status -> status ∈ [400; 404; 405; 413; 415; 422].
Proof.
  unfold dispatch. destruct (route _) as [endpoint|]; [|intros [= <-]; set_solver].
  destruct (method_allowed _ _); [|intros [= <-]; set_solver].
  destruct endpoint; cbn [extract]; [done|..];
    try (match goal with |- (r ← read_json ?dec q; _) = _ -> _ => destruct (read_json dec q) eqn:Hr; [done|] end;
         intros [= <-]; by eapply read_json_status).
  unfold read_path. destruct (percent_decode installation) as [t|]; cbn; [destruct (uuid_parse_str t); cbn|]; try (intros [= <-]; set_solver).
  destruct (percent_decode revision) as [t'|]; cbn; [destruct (parse_u64 _); cbn|]; try (intros [= <-]; set_solver).
  destruct (percent_decode value); cbn; [done|]. intros [= <-]; set_solver.
Qed.

(** C19: every error answer of the control API is a documented one. A request
    no route takes, or whose path, media type, size or document does not fit,
    gets the framework's status and touches nothing; any other request gets
    its handler's response, or an envelope with one of the errors of its
    route, carrying that error's code and whether to retry. After an error
    below 500 the transactions the handler ran changed nothing, or only spent
    the request's nonce or challenge. *)
Theorem api_errors_documented q e n s a n' s' :
  api_env st e -> extracted_typed q -> serve q e (n, s) = (a, (n', s')) ->
  match dispatch q with
  | Err status => a = {| an_status := status; an_body := OfFramework |} /\ status ∈ [400; 404; 405; 413; 415; 422] /\ (n', s') = (n, s)
  | Ok request =>
      (exists r, a = of_response r) \/
      exists err id, err ∈ route_errors request /\ a = into_response err id /\
        (e_status err < 500 -> exists new, p_log s' = p_log s ++ new /\
           Forall (fun en => (exists id nonce, l_request en = ConsumeNonce id nonce) \/
                             (exists nonce source, l_request en = ConsumeBootstrapChallenge nonce source) \/
                             l_after en = l_before en) new)
  end.
Proof.
  intros He Hty. unfold serve. destruct (dispatch q) as [request|status] eqn:Hd.
  - destruct (handle uuid_parse_str st request e (n, s)) as [[r|err] [n1 s1]] eqn:Hh; [intros [= <- <- <-]; eauto|].
    intros [= <- <- <-]. right. exists err, (n_uuid e n1). split; [by eapply handle_fails|]. split; [done|]. intros Hlt.
    destruct (handle_holds _ _ _ _ _ _ _ _ _ He (Hty _ Hd) Hh) as (_ & new & Hl & _ & Hc). exists new. split; [done|].
    eapply Forall_impl; [by apply Hc|]. intros en [Hcons|Hsame]; [|auto]. destruct (l_request en); cbn in Hcons; try done; eauto.
  - intros [= <- <- <-]. split_and!; [done|by apply (dispatch_status q)|done].
Qed.
End http.

(** ** Typed responses *)
Section typed_responses.
Context {St3 : S3} {Cr : Crypto} {Sg : Signing} {Sd : Serde} {B32 : Base32} {B32L : Base32Law} {HX : Hex}.
Context (uuid_parse_str : string -> option Uuid) (st : AppState) (e : ApiEnv) (He : api_env st e).
Abbreviation cfg := (st_config st).

(** A run keeps the store's invariant, and its result satisfies [Q]. *)
Definition yields {A} (m : ApM A) (Q : A -> Prop) : Prop := forall n s r n' s',
  invariant (api_db s) -> m e (n, s) = (r, (n', s')) -> invariant (api_db s') /\ forall a, r = Ok a -> Q a.

Lemma y_ret {A} (a : A) (Q : A -> Prop) : Q a -> yields (mret a) Q.
Proof. intros HQ n s r n' s' Hi [= <- _ <-]. split; [done|]. by intros ? [= <-]. Qed.
Lemma y_bind {A B} (m : ApM A) (f : A -> ApM B) Q R :
  yields m Q -> (forall a, Q a -> yields (f a) R) -> yields (m ≫= f) R.
Proof.
  intros Hm Hf n s r n' s' Hi. unfold mbind, ap_bind.
  destruct (m e (n, s)) as [[a|err] [n1 s1]] eqn:Hm1; destruct (Hm _ _ _ _ _ Hi Hm1) as [Hi1 HQ].
  - intros Hr. by apply (Hf a (HQ _ eq_refl) _ _ _ _ _ Hi1 Hr).
  - intros [= <- _ <-]. split; [done|]. by intros ?.
Qed.
Lemma y_then {A B} (m : ApM A) (f : A -> ApM B) R : yields m (fun _ => True) -> (forall a, yields (f a) R) -> yields (m ≫= f) R.
Proof. intros Hm Hf. eapply y_bind; [exact Hm|auto]. Qed.
Lemma y_lift {A} (r : result ApiError A) : yields (ap_lift r) (fun a => r = Ok a).
Proof. intros n s r' n' s' Hi [= <- _ <-]. split; [done|]. by intros a ->. Qed.
Lemma y_weaken {A} (m : ApM A) (Q R : A -> Prop) : yields m Q -> (forall a, Q a -> R a) -> yields m R.
Proof. intros Hm HQ n s r n' s' Hi Hr. destruct (Hm _ _ _ _ _ Hi Hr) as [? Ha]. split; [done|]. eauto. Qed.
Lemma y_any {A} (m : ApM A) Q : yields m Q -> yields m (fun _ => True).
Proof. intros Hm. by eapply y_weaken. Qed.

Lemma others_invariant n s : invariant (api_db s) -> invariant (api_db (n_others e n s)).
Proof. destruct He as [Hq _]. destruct (Hq n s) as [Hh _]. exact (history_invariant cfg _ _ _ _ Hh). Qed.

Lemma y_now (Q : Z -> Prop) : (forall n, Q (n_clock e n)) -> yields now_ms Q.
Proof. intros HQ n s r n' s' Hi [= <- _ <-]. split; [done|]. intros a [= <-]. apply HQ. Qed.
Lemma y_nonce (Q : list byte -> Prop) : (forall n, Q (n_nonce e n)) -> yields random_nonce Q.
Proof. intros HQ n s r n' s' Hi [= <- _ <-]. split; [done|]. intros a [= <-]. apply HQ. Qed.
Lemma y_sign message : yields (sign_receipt st message) (fun _ => True).
Proof. intros n s r n' s' Hi [= <- _ <-]. split; [|done]. by apply others_invariant. Qed.
Lemma y_query {A} on_error (f : Z -> Db -> result StoreError A) :
  yields (query on_error f) (fun a => exists now d, invariant d /\ f now d = Ok a).
Proof.
  intros n s r n' s' Hi [= Hr _ <-]. apply (others_invariant n) in Hi. split; [done|]. intros a ->.
  cbn in Hr. destruct (n_fault e n); [done|]. destruct (f _ _) eqn:Hf; [|done]. injection Hr as <-. eauto.
Qed.
Lemma y_transact {A} on_error r (f : AckEnv -> Z -> World -> result StoreError A * World) (Q : A -> Prop) :
  typed r -> (forall ae now w res w', f ae now w = (res, w') -> w_db w' = w_db w \/ exec cfg now r (w_db w) = Ok (tt, w_db w')) ->
  (forall ae now w a w', invariant (w_db w) -> invariant (w_db w') -> f ae now w = (Ok a, w') -> Q a) ->
  yields (transact on_error r f) Q.
Proof.
  intros Ht Hx HQ n s res n' s' Hi. unfold transact. cbn [fst snd]. apply (others_invariant n) in Hi. set (s1 := n_others e n s) in *.
  destruct (f (n_ack e n) (p_now s1) (p_world s1)) as [fr w] eqn:Hf.
  assert (invariant (w_db w)) as Hw.
  { destruct (Hx _ _ _ _ _ Hf) as [->|Hexec]; [done|]. by eapply (history_invariant cfg); [eapply history_step; [exists r; eauto|constructor]|]. }
  destruct (n_fault e n) as [[]|]; intros [= <- _ <-]; (split; [first [exact Hi|exact Hw]|]); try done.
  intros a Ha. destruct fr; [|done]. injection Ha as ->. exact (HQ _ _ _ _ _ Hi Hw Hf).
Qed.
Lemma y_ack {A} on_error r (m : Z -> Tx A) (Q : A -> Prop) :
  typed r -> (forall now d a d', m now d = Ok (a, d') -> exec cfg now r d = Ok (tt, d')) ->
  (forall now d a d', invariant d -> invariant d' -> m now d = Ok (a, d') -> Q a) -> yields (transact on_error r (ack_tx m)) Q.
Proof.
  intros Ht Hx HQ. apply y_transact; [done|..]; unfold ack_tx.
  - intros ae now w res w' [->|[a Ha]]%run_tx_db; eauto.
  - intros ae now w a w' Hi Hi' Hr. unfold run_tx in Hr. destruct (m now (w_db w)) as [[a' d]|] eqn:Hm; [|done].
    destruct (acknowledge ae (with_db d w)) as [ack w1] eqn:Ha. apply acknowledge_db in Ha. destruct ack; [|done].
    injection Hr as <- <-. rewrite Ha in Hi'. exact (HQ _ _ _ _ Hi Hi' Hm).
Qed.

(** *** What the store returns *)
Lemma i64_as_u64_typed z : is_u64 (i64_as_u64 z).
Proof. unfold is_u64, u64_max, i64_as_u64. pose proof (Z.mod_pos_bound z (2 ^ 64)). lia. Qed.

Definition pair_u64 (p : Z * Z) : Prop := is_u64 p.1 /\ is_u64 p.2.

Lemma as_u64_typed v n : as_u64 v = Some n -> is_u64 n.
Proof. unfold as_u64, in_range, is_u64. destruct v; try done. destruct (_ && _) eqn:Hr; [|done]. intros [= <-]. to_prop. lia. Qed.
Lemma receipt_typed v p : receipt_of_json v = Ok p -> pair_u64 p.
Proof. unfold receipt_of_json. intros Hr. inv_ok. split; by eapply as_u64_typed. Qed.
Lemma replay_typed existing id kind digest fresh d p d' : replay_receipt existing id kind digest fresh d = Ok (p, d') -> pair_u64 p.
Proof. unfold replay_receipt. intros Hr. inv_tx. by eapply receipt_typed. Qed.
Lemma finish_typed now id op scope kind digest g hash lifetime aop event d p d' :
  finish_rotation now id op scope kind digest g hash lifetime aop event d = Ok (p, d') -> pair_u64 p.
Proof. unfold finish_rotation. intros Hr. inv_tx. split; apply i64_as_u64_typed. Qed.
Lemma issue_typed now id op scope hash vs d p d' : issue_bearer_tx cfg now id op scope hash vs d = Ok (p, d') -> pair_u64 p.
Proof.
  unfold issue_bearer_tx. intros Hr. inv_tx. destruct (d_operations d !! op); [by eapply replay_typed|]. inv_tx. by eapply finish_typed.
Qed.
Lemma renew_typed now id op scope g token hash d p d' : renew_bearer_tx cfg now id op scope g token hash d = Ok (p, d') -> pair_u64 p.
Proof.
  unfold renew_bearer_tx. intros Hr. inv_tx. destruct (d_operations d !! op); [by eapply replay_typed|]. inv_tx. by eapply finish_typed.
Qed.
Lemma ensure_typed now id g txt d v d' : ensure_challenge_value_tx now id g txt d = Ok (v, d') ->
  is_u64 (cv_revision v) /\ is_u64 (cv_expires_at_ms v).
Proof. unfold ensure_challenge_value_tx. intros Hr. inv_tx; split; apply i64_as_u64_typed. Qed.

Definition allocation_typed (a : Allocation) : Prop := a_version a = WIRE_VERSION /\ validate_hostname (a_hostname a) = Ok tt.
Lemma row_typed id row d : invariant d -> d_installations d !! id = Some row -> allocation_typed (allocation_from_row id row).
Proof.
  intros [Hwf _] Hrow. destruct (wf_rows _ Hwf _ _ Hrow) as (_ & Hh & _). split; [done|]. cbn.
  by destruct (validate_hostname _) as [[]|].
Qed.
Lemma allocate_typed now op key placement id random d a d' : invariant d -> invariant d' ->
  allocate_tx now op key placement id random d = Ok (a, d') -> allocation_typed a.
Proof.
  intros Hi Hi' [_ [(o & row & _ & Hrow & _ & _ & _ & ->)|(_ & _ & _ & _ & _ & -> & ->)]]%allocate_tx_ok; [exact (row_typed _ _ _ Hi Hrow)|].
  eapply row_typed; [exact Hi'|]. cbn. apply lookup_insert_eq.
Qed.

(** *** Each route's response *)
Definition credential_typed (scope : Scope) (op : Uuid) (c : CredentialIssueReceipt) : Prop :=
  ci_version c = WIRE_VERSION /\ ci_scope c = scope /\ ci_operation_id c = op /\
  is_u64 (ci_generation c) /\ is_u64 (ci_expires_at_ms c).

Definition response_typed (request : ApiRequest) (r : ApiResponse) : Prop :=
  match request, r with
  | PostBootstrapChallenge _, OfChallenge c =>
      bc_version c = WIRE_VERSION /\ is_u64 (bc_expires_at_ms c) /\ exists n, bc_nonce c = base64url_encode (n_nonce e n)
  | PostEnroll _ q, OfReceipt c =>
      allocation_typed (rc_allocation c) /\ rc_operation_id c = ar_operation_id (r_body q) /\
      (exists key, enroll_key (r_body q) = Ok key /\ rc_admin_key_sha256 c = sha256_hex key.1) /\
      exists n, rc_issued_at_ms c = n_clock e n
  | PostCredentials q, OfCredential c => credential_typed (cr_scope (r_body q)) (c_operation_id (r_claims q)) c
  | PostRenew _ q, OfCredential c => credential_typed (rn_scope q) (rn_operation_id q) c
  | PostStatus q, OfAllocation a => allocation_typed a /\ a_installation_id a = is_installation_id (r_body q)
  | PostDnsChallenge _ _, OfChallengeState c =>
      ds_version c = WIRE_VERSION /\ is_u64 (ds_revision c) /\ is_u64 (ds_expires_at_ms c)
  | (PostAcmeAccount _ | PostRetire _ | PostCertificates _ _), StatusOnly status => status = 202
  | GetChallengeReady _ _ _ _, StatusOnly status => status = 204 \/ status = 202
  | _, _ => False
  end.

Ltac y_step := lazymatch goal with
  | |- yields (ap_some _ _ ≫= _) _ => eapply y_bind; [apply y_lift|intros ? ?%ok_or_ok]
  | |- yields (ap_reject _ _ ≫= _) _ => apply y_then; [eapply y_any, y_lift|intros _]
  | |- yields (ap_lift _ ≫= _) _ => eapply y_bind; [apply y_lift|intros ? ?; cbv beta in *]
  | |- yields (now_ms ≫= _) _ => apply y_then; [by apply y_now|intros ?]
  | |- yields (query _ _ ≫= _) _ => eapply y_bind; [apply y_query|intros ? (? & ? & ? & ?)]
  end.

Lemma y_admin {T} `{Serialize T} (request : SignedRequest T) action : yields (authorize_admin st request action) (fun _ => True).
Proof.
  unfold authorize_admin. cbv zeta. repeat y_step. apply y_then; [|intros fresh; eapply y_any, y_lift].
  apply y_transact; [done| |done]. unfold consume_nonce, exec_tx. intros ae now w res w'.
  destruct (consume_nonce_tx _ _ _ _) as [[b d]|] eqn:Hx; intros [= _ <-]; [right|by left]. by eapply void_run.
Qed.

Lemma y_dns headers id generation : yields (authenticate_dns headers id generation) is_u64.
Proof.
  unfold authenticate_dns. y_step. eapply y_bind; [apply y_query|intros found (now & d & _ & [= Hf])].
  eapply y_bind; [apply y_lift|intros observed Ho]. y_step. apply y_ret.
  unfold authenticate_bearer_with_state in Hf. destruct (_ || _); [by subst found|].
  destruct (d_installations d !! id) as [row|]; cbn in Hf; [|by subst found].
  destruct (best_generation _ _ _ _ _) as [g|]; cbn in Hf; subst found; [|done].
  destruct (i_state row); simplify_eq. apply i64_as_u64_typed.
Qed.

Lemma digest_length text hash : digest_of_hex text = Ok hash -> List.length hash = 32%nat.
Proof. unfold digest_of_hex. destruct (hex_decode text); cbn; [|done]. by case_bool_decide; [intros [= <-]|]. Qed.
Lemma enroll_key_length request key : enroll_key request = Ok key -> List.length key.1 = 32%nat.
Proof.
  unfold enroll_key. destruct (base64url_decode _) as [bytes|]; cbn; [|done]. case_bool_decide; cbn; [|done].
  destruct (key_from_bytes bytes); [|done]. by intros [= <-].
Qed.

Lemma y_allocate op key : List.length key = 32%nat -> yields (allocate st op key) allocation_typed.
Proof.
  intros Hk n s. unfold allocate. cbn [fst].
  refine (y_ack conflict_or_unavailable (Allocate op key (st_placement st) (n_uuid e n) (n_label e n)) _ allocation_typed _ _ _ n s).
  - split; [done|apply He].
  - intros. by eapply void_run.
  - intros now d a d' Hi Hi' Ha. exact (allocate_typed _ _ _ _ _ _ _ _ _ Hi Hi' Ha).
Qed.

Lemma y_challenge source : yields (challenge source) (fun c => response_typed (PostBootstrapChallenge source) (OfChallenge c)).
Proof.
  unfold challenge. eapply y_bind; [by apply (y_nonce (fun b => exists n, b = n_nonce e n)); eauto|intros random [n ->]]. cbv zeta.
  apply y_then; [apply y_transact; [done| |done]|intros created].
  { intros ae now w res w'. unfold create_bootstrap_challenge. intros Hr.
    destruct (create_bootstrap_challenge_tx _ _ _ _) as [[[] d]|] eqn:Hx; [| |]; try (by injection Hr as _ <-; left);
      apply run_tx_db in Hr as [->|[a Ha]]; try (by left); right; by eapply void_run. }
  y_step. eapply y_bind; [by apply (y_now (fun _ => True))|intros now _]. apply y_ret. split_and!; [done| |by exists n].
  cbn. unfold is_u64, u64_max. pose proof (Z.mod_pos_bound (now + 60000) (2 ^ 64)). lia.
Qed.

Lemma y_enroll source request : yields (enroll st source request) (fun c => response_typed (PostEnroll source request) (OfReceipt c)).
Proof.
  unfold enroll. cbv zeta. eapply y_bind; [apply y_lift|intros key Hkey]. repeat y_step. apply y_then; [apply y_transact; [done| |done]|intros consumed].
  { unfold consume_bootstrap_challenge, exec_tx. intros ae now w res w'.
    destruct (consume_bootstrap_challenge_tx _ _ _ _) as [[b d]|] eqn:Hx; intros [= _ <-]; [right|by left]. by eapply void_run. }
  y_step. eapply y_bind; [apply y_allocate, (enroll_key_length _ _ Hkey)|intros allocation Ha].
  eapply y_bind; [by apply (y_now (fun z => exists n, z = n_clock e n)); eauto|intros issued Hissued]. y_step.
  apply y_then; [apply y_sign|intros signature]. apply y_ret. split_and!; [exact Ha|done|by exists key|exact Hissued].
Qed.

Lemma y_issue request : yields (issue_credential st request) (fun c => response_typed (PostCredentials request) (OfCredential c)).
Proof.
  unfold issue_credential. y_step. apply y_then; [apply y_admin|intros _]. y_step. cbv zeta. eapply y_bind; [|intros issued Hi; apply y_ret].
  - apply (y_ack _ _ _ pair_u64); [eapply digest_length; eassumption|intros; by eapply void_run|]. intros now d p d' _ _. apply issue_typed.
  - destruct Hi. by split_and!.
Qed.

Lemma y_renew headers request : is_u64 (rn_generation request) ->
  yields (renew_credential st headers request) (fun c => response_typed (PostRenew headers request) (OfCredential c)).
Proof.
  intros Hg. unfold renew_credential. repeat y_step. cbv zeta. eapply y_bind; [|intros renewed Hr; apply y_ret].
  - apply (y_ack _ _ _ pair_u64); [split; [done|eapply digest_length; eassumption]|intros; by eapply void_run|]. intros now d p d' _ _. apply renew_typed.
  - destruct Hr. by split_and!.
Qed.

Lemma y_handle request : request_typed request -> yields (handle uuid_parse_str st request) (response_typed request).
Proof.
  intros Hty. destruct request; cbn [handle];
    (eapply y_bind; [|intros r Hr; apply y_ret; exact Hr]).
  - apply y_challenge.
  - apply y_enroll.
  - apply y_issue.
  - by apply y_renew.
  - unfold register_acme_account. cbv zeta. apply y_then; [apply y_admin|intros _]. apply y_then; [|intros _; by apply y_ret].
    apply y_ack; [done|by intros ? ? [] ? ?|done].
  - unfold installation_status. cbv zeta. y_step. apply y_then; [apply y_admin|intros _]. y_step.
    eapply y_weaken; [apply y_lift|]. intros al ->%ok_or_ok. cbn in *. simplify_eq.
    match goal with Hq : allocation_status _ _ = Some _ |- _ => unfold allocation_status in Hq; apply fmap_Some in Hq as (row & Hrow & ->) end.
    split; [by eapply row_typed|done].
  - unfold retire_installation. cbv zeta. y_step. apply y_then; [apply y_admin|intros _]. apply y_then; [|intros _; by apply y_ret].
    apply y_ack; [done|by intros ? ? [] ? ?|done].
  - unfold record_certificate. y_step. apply y_then; [eapply y_any, y_dns|intros _]. apply y_then; [|intros _; by apply y_ret].
    apply y_ack; [done|by intros ? ? [] ? ?|done].
  - unfold ensure_dns_challenge. cbv zeta. y_step. eapply y_bind; [apply y_dns|intros generation Hg].
    apply (y_bind _ _ (fun v => is_u64 (cv_revision v) /\ is_u64 (cv_expires_at_ms v))); [|intros ensured [Hr Hx]; apply y_ret; by split_and!].
    apply y_ack; [done|intros; by eapply void_run|].
    intros now d v d' _ _. apply ensure_typed.
  - unfold dns_challenge_ready. apply y_then; [eapply y_any, y_dns|intros _]. y_step. apply y_ret. match goal with b : bool |- _ => destruct b end; cbn; auto.
Qed.

(** C20: every response of the control API is a message of the wire protocol,
    of the type its route promises. From a database that satisfies the store's
    invariant, whatever other processes do meanwhile, a handler that succeeds
    answers with that route's message: this protocol version, the scope and
    operation of the request, an assigned hostname, and numbers that fit the
    64-bit fields they are encoded in; and the invariant still holds. *)
Theorem api_responses_typed request n s r n' s' :
  request_typed request -> invariant (api_db s) -> handle uuid_parse_str st request e (n, s) = (Ok r, (n', s')) ->
  response_typed request r /\ invariant (api_db s').
Proof.
  intros Hty Hi Hr. destruct (y_handle request Hty _ _ _ _ _ Hi Hr) as [Hi' HQ]. split; [by apply HQ|done].
Qed.
End typed_responses.
