(* ===== verification/FrontEnd.v ===== *)
(** * From a client to its handler: packaging/haproxy and the clients' requests

    The HAProxy front end that shares the control address between the API and
    the gateway, with the health checks behind its monitor URI, and the HTTP
    requests the two clients send. A request of a client reaches the handler it
    is meant for, unchanged. *)

From Stdlib Require Import Ascii String Strings.Byte.
From stdpp Require Import base strings list gmap.
From S2P Require Import Prelude Protocol Db Witness Store StoreLifecycle StoreHistory ReceiptSigner Operations ControlApi ControlHttp.

(** ** The front end *)
(** The front end answers itself, or passes the request to a backend. *)
Inductive Frontend := Monitor (status : Z) | NoServer (status : Z) | RelayTunnel | RelayApi.

(** A backend without a server up is answered for with 503. *)
Definition to_backend (servers : nat) (backend : Frontend) : Frontend :=
  if (servers <? 1)%nat then NoServer 503 else backend.

(** [nbsrv] of the two backends, and the request line. [path -i] ignores case;
    a CONNECT has no path. *)
Definition front_end (api_servers tunnel_servers : nat) (method path : string) : Frontend :=
  if bool_decide (path = "/healthz"%string)
  then Monitor (if (api_servers <? 1)%nat || (tunnel_servers <? 1)%nat then 503 else 200)
  else if bool_decide (str_map to_ascii_lowercase path = "/v1/tunnel"%string) then to_backend tunnel_servers RelayTunnel
  else if bool_decide (method = "CONNECT"%string) then to_backend tunnel_servers RelayTunnel
  else to_backend api_servers RelayApi.

(** [check .. fall 2 rise 2]: a server changes state after two checks in a row
    that say otherwise. *)
Record Server := { sv_up : bool; sv_against : nat }.
Definition FALL : nat := 2.
Definition RISE : nat := 2.
Definition checked (ok : bool) (s : Server) : Server :=
  if Bool.eqb ok (sv_up s) then {| sv_up := sv_up s; sv_against := 0 |}
  else if (S (sv_against s) <? (if sv_up s then FALL else RISE))%nat then {| sv_up := sv_up s; sv_against := S (sv_against s) |}
  else {| sv_up := ok; sv_against := 0 |}.

(** [http-check expect status 200] on the readiness path; an unreachable
    health port gives no answer. *)
Definition check_answer (reachable ready : bool) : bool :=
  reachable && (health_status "/health/ready" ready =? 200).

Definition run_checks (answers : list (bool * bool)) (s : Server) : Server :=
  foldl (fun s a => checked (check_answer a.1 a.2) s) s answers.

Definition up_servers (s : Server) : nat := if sv_up s then 1 else 0.

(** Two checks in a row decide the state of a server, whatever came before. *)
Lemma two_checks answers ok s :
  up_servers (run_checks (answers ++ [ok; ok]) s) = if check_answer ok.1 ok.2 then 1%nat else 0%nat.
Proof.
  unfold run_checks. rewrite foldl_app. set (s1 := foldl _ s answers). cbn. destruct (check_answer _ _), s1 as [[] n]; cbn;
    unfold checked, up_servers, FALL, RISE; cbn; repeat (case_match; cbn in * ); try done.
Qed.

(** The monitor answers 200 exactly when the last two checks of both services
    found them ready. *)
Lemma monitor_reports_readiness api_checks gateway_checks api gateway api_start gateway_start method :
  front_end (up_servers (run_checks (api_checks ++ [api; api]) api_start))
    (up_servers (run_checks (gateway_checks ++ [gateway; gateway]) gateway_start)) method "/healthz" =
  Monitor (if check_answer api.1 api.2 && check_answer gateway.1 gateway.2 then 200 else 503).
Proof. rewrite !two_checks. by destruct (check_answer api.1 api.2), (check_answer gateway.1 gateway.2). Qed.

(** ** What the clients send *)
Section clients.
Context {Ax : Axum}.

Definition json_request (path : string) (headers : HeaderMap) (p : Payload) (source : IpAddr) : HttpRequest :=
  {| hq_method := "POST"; hq_path := path; hq_headers := headers; hq_content_type := Some "application/json"%string;
     hq_body := body_encode p; hq_source := source |}.

Definition no_headers : HeaderMap := {| hm_authorization := None; hm_installation := None |}.

(** [format!] of the readiness path. *)
Definition ready_path (id : Uuid) (revision : Z) (value : string) : string :=
  "/v1/dns/challenge/" +:+ uuid_to_string id +:+ "/ready/" +:+ u64_to_string revision +:+ "/" +:+ value.

(** The request of each call; [source] is the address the API sees. *)
Definition client_request (request : ApiRequest) (source : IpAddr) : HttpRequest :=
  match request with
  | PostBootstrapChallenge _ =>
      {| hq_method := "POST"; hq_path := "/v1/bootstrap/challenge"; hq_headers := no_headers; hq_content_type := None;
         hq_body := []; hq_source := source |}
  | PostEnroll _ r => json_request "/v1/bootstrap/enroll" no_headers (BodyEnroll r) source
  | PostCredentials r => json_request "/v1/credentials" no_headers (BodyCredentials r) source
  | PostRenew headers r => json_request "/v1/credentials/renew" headers (BodyRenew r) source
  | PostAcmeAccount r => json_request "/v1/acme-account" no_headers (BodyAcmeAccount r) source
  | PostStatus r => json_request "/v1/installations/status" no_headers (BodyStatus r) source
  | PostRetire r => json_request "/v1/installations/retire" no_headers (BodyRetire r) source
  | PostCertificates headers c => json_request "/v1/certificates" headers (BodyCertificate c) source
  | PostDnsChallenge headers r => json_request "/v1/dns/challenge" headers (BodyDnsChallenge r) source
  | GetChallengeReady id revision value headers =>
      {| hq_method := "GET"; hq_path := ready_path id revision value; hq_headers := headers; hq_content_type := None;
         hq_body := []; hq_source := source |}
  end.

(** The request as the API names it: enrollments with the address it sees. *)
Definition seen_from (source : IpAddr) (request : ApiRequest) : ApiRequest :=
  match request with
  | PostBootstrapChallenge _ => PostBootstrapChallenge source
  | PostEnroll _ r => PostEnroll source r
  | r => r
  end.
End clients.

(** ** Segments of a path *)
Definition plain_byte (b : byte) : bool := is_token_byte b.

Lemma plain_no_slash l : forallb plain_byte l = true -> Byte.x2f ∉ l.
Proof. intros Hl Hin. rewrite forallb_forall in Hl. apply list_elem_of_In in Hin. specialize (Hl _ Hin). discriminate Hl. Qed.

Lemma split_on_piece sep p l : sep ∉ p -> split_on sep (p ++ sep :: l) = p :: split_on sep l.
Proof.
  induction p as [|b p IH]; intros Hp; cbn [app split_on].
  - by rewrite decide_True.
  - apply not_elem_of_cons in Hp as [Hb Hp]. by rewrite decide_False, IH.
Qed.
Lemma split_on_last sep p : sep ∉ p -> split_on sep p = [p].
Proof. induction p as [|b p IH]; intros Hp; cbn [split_on]; [done|]. apply not_elem_of_cons in Hp as [Hb Hp]. by rewrite decide_False, IH. Qed.

Lemma lower_hex_plain b : is_lower_hex b = true -> plain_byte b = true.
Proof. destruct b; vm_compute; done. Qed.
Lemma digit_plain b : is_ascii_digit b = true -> plain_byte b = true.
Proof. destruct b; vm_compute; done. Qed.

Lemma hex_plain bytes : Forall (fun b => plain_byte b = true) (str_bytes (hex_encode bytes)).
Proof.
  unfold hex_encode. rewrite str_bytes_string. apply Forall_forall. intros c (x & Hc & _)%list_elem_of_bind.
  apply lower_hex_plain. pose proof (u8_range x). unfold hex_byte in Hc. set_unfold in Hc.
  destruct Hc as [->|[->|[]]]; apply hex_digit_lower;
    [split; [apply Z.div_pos|apply Z.div_lt_upper_bound]; lia|apply Z.mod_pos_bound; lia].
Qed.

Lemma plain_forallb l : Forall (fun b => plain_byte b = true) l -> forallb plain_byte l = true.
Proof. intros Hl. apply forallb_forall. intros b Hb%list_elem_of_In. by eapply Forall_forall in Hl. Qed.

Lemma uuid_plain u : forallb plain_byte (str_bytes (uuid_to_string u)) = true.
Proof.
  unfold uuid_to_string. rewrite str_bytes_string. apply plain_forallb. pose proof (hex_plain (uuid_bytes u)) as Hh.
  repeat (apply Forall_app; split); auto using Forall_take, Forall_drop; by constructor.
Qed.

Lemma decimal_plain fuel n acc : 0 <= n -> Forall (fun b => plain_byte b = true) acc ->
  Forall (fun b => plain_byte b = true) (dec_digits fuel n acc).
Proof.
  revert n acc. induction fuel as [|fuel IH]; intros n acc Hn Ha; cbn [dec_digits]; [done|]. cbv zeta.
  assert (Forall (fun b => plain_byte b = true) (byte_of_Z (48 + n mod 10) :: acc)).
  { constructor; [|done]. apply digit_plain. pose proof (Z.mod_pos_bound n 10 ltac:(lia)).
    unfold is_ascii_digit, in_range. rewrite u8_byte_of_Z by lia. to_prop. lia. }
  destruct (n <? 10); [done|]. apply IH; [apply Z.div_pos; lia|done].
Qed.

Lemma token_plain value : validate_challenge_value value = Ok tt -> forallb plain_byte (str_bytes value) = true /\ str_len value = 43.
Proof. unfold validate_challenge_value. destruct (_ && _) eqn:Hv; [|done]. intros _. to_prop. done. Qed.

Lemma nonempty_text s : 0 < str_len s -> s <> ""%string.
Proof. by intros Hs ->. Qed.

Lemma u64_text_nonempty n : is_u64 n -> u64_to_string n <> ""%string.
Proof. intros Hn%parse_u64_to_string Heq. by rewrite Heq in Hn. Qed.

(** The readiness path has eight segments, and they are read back. *)
Lemma ready_segments id revision value : 0 <= revision -> validate_challenge_value value = Ok tt ->
  string_of_list_byte <$> split_on Byte.x2f (str_bytes (ready_path id revision value)) =
    [""; "v1"; "dns"; "challenge"; uuid_to_string id; "ready"; u64_to_string revision; value]%string.
Proof.
  intros Hr [Hv _]%token_plain. unfold ready_path. rewrite !str_bytes_app.
  change (str_bytes "/v1/dns/challenge/") with
    ([] ++ Byte.x2f :: str_bytes "v1" ++ Byte.x2f :: str_bytes "dns" ++ Byte.x2f :: str_bytes "challenge" ++ [Byte.x2f]).
  change (str_bytes "/ready/") with (Byte.x2f :: str_bytes "ready" ++ [Byte.x2f]). change (str_bytes "/") with [Byte.x2f].
  repeat (rewrite <- ?app_assoc; cbn [app]).
  change (Byte.x2f :: ?l) with ([] ++ Byte.x2f :: l) at 1. rewrite (split_on_piece Byte.x2f []) by set_solver.
  assert (forallb plain_byte (str_bytes (u64_to_string revision)) = true) as Hd.
  { apply plain_forallb. unfold u64_to_string. rewrite str_bytes_string. by apply decimal_plain. }
  rewrite !split_on_piece, split_on_last by (apply plain_no_slash; first [done|apply uuid_plain]).
  cbn [fmap list_fmap]. rewrite !string_str_bytes. done.
Qed.

Lemma route_ready id revision value : is_u64 revision -> validate_challenge_value value = Ok tt ->
  route (ready_path id revision value) = Some (EReady (uuid_to_string id) (u64_to_string revision) value).
Proof.
  intros Hr Hv. pose proof (ready_segments id revision value (proj1 Hr) Hv) as Hs. unfold route.
  assert (forall p, List.length (split_on Byte.x2f (str_bytes p)) <> 8%nat -> ready_path id revision value <> p) as Hne.
  { intros p Hp <-. apply Hp. apply (f_equal List.length) in Hs. by rewrite length_fmap in Hs. }
  repeat (rewrite bool_decide_eq_false_2 by (apply Hne; vm_compute; lia)). rewrite Hs.
  assert (uuid_to_string id <> ""%string) as Hu.
  { intros Hu. pose proof (uuid_plain id) as _. apply (f_equal str_bytes) in Hu. unfold uuid_to_string in Hu. rewrite str_bytes_string in Hu.
    apply (f_equal List.length) in Hu. rewrite !length_app in Hu. cbn in Hu. lia. }
  assert (value <> ""%string) as Hval by (apply nonempty_text; destruct (token_plain _ Hv); lia).
  cbn [existsb]. rewrite (bool_decide_eq_true_2 (_ = _)) by done.
  rewrite !bool_decide_eq_false_2 by (done || by apply u64_text_nonempty). done.
Qed.

(** ** Requests reach their handlers *)
Section routing.
Context {St3 : S3} {Cr : Crypto} {Sg : Signing} {Sd : Serde} {B32 : Base32} {HexC : Hex} {Ax : Axum} {AxL : AxumLaws}.
Context (uuid_parse_str : string -> option Uuid).

Definition payload_of (request : ApiRequest) : option Payload :=
  match request with
  | PostEnroll _ r => Some (BodyEnroll r)
  | PostCredentials r => Some (BodyCredentials r)
  | PostRenew _ r => Some (BodyRenew r)
  | PostAcmeAccount r => Some (BodyAcmeAccount r)
  | PostStatus r => Some (BodyStatus r)
  | PostRetire r => Some (BodyRetire r)
  | PostCertificates _ c => Some (BodyCertificate c)
  | PostDnsChallenge _ r => Some (BodyDnsChallenge r)
  | _ => None
  end.

(** What the clients send: documents within the limit, and for the readiness
    query the installation's id, a 64-bit revision and a checked value. *)
Definition sendable (request : ApiRequest) : Prop :=
  (forall p, payload_of request = Some p -> Z.of_nat (List.length (body_encode p)) <= BODY_LIMIT) /\
  match request with
  | GetChallengeReady id revision value _ =>
      uuid_parse_str (uuid_to_string id) = Some id /\ is_u64 revision /\ validate_challenge_value value = Ok tt
  | _ => True
  end.

Lemma read_json_sent {T} (decode : list byte -> result BodyFault T) path headers p source r :
  Z.of_nat (List.length (body_encode p)) <= BODY_LIMIT -> decode (body_encode p) = Ok r ->
  read_json decode (json_request path headers p source) = Ok r.
Proof.
  intros Hl Hd. unfold read_json. cbn [hq_content_type json_request hq_body]. rewrite json_type_accepted. cbn [negb].
  rewrite (proj2 (Z.ltb_ge _ _)) by lia. by rewrite Hd.
Qed.

Lemma plain_decoded s : forallb plain_byte (str_bytes s) = true -> percent_decode s = Some s.
Proof.
  intros Hs. apply percent_decode_plain. unfold bytes_all. rewrite forallb_forall in *. intros b Hb%Hs. revert Hb. destruct b; vm_compute; done.
Qed.

Lemma ready_front api_servers tunnel_servers method id revision value :
  method <> "CONNECT"%string -> front_end api_servers tunnel_servers method (ready_path id revision value) = to_backend api_servers RelayApi.
Proof.
  intros Hm. unfold front_end.
  assert (str_bytes (ready_path id revision value) !! 4%nat = Some Byte.x64) as H4 by (unfold ready_path; by rewrite str_bytes_app).
  rewrite !bool_decide_eq_false_2; [done|done|..].
  - intros Heq. apply (f_equal str_bytes) in Heq. unfold str_map in Heq. rewrite str_bytes_string in Heq.
    apply (f_equal (fun l => l !! 4%nat)) in Heq. rewrite list_lookup_fmap, H4 in Heq. done.
  - intros Heq. rewrite Heq in H4. done.
Qed.

Definition static_path (endpoint : Endpoint) : string :=
  match endpoint with
  | EBootstrapChallenge => "/v1/bootstrap/challenge"
  | EEnroll => "/v1/bootstrap/enroll"
  | ECredentials => "/v1/credentials"
  | ERenew => "/v1/credentials/renew"
  | EAcmeAccount => "/v1/acme-account"
  | EStatus => "/v1/installations/status"
  | ERetire => "/v1/installations/retire"
  | ECertificates => "/v1/certificates"
  | EDnsChallenge => "/v1/dns/challenge"
  | EReady _ _ _ => ""
  end.
Lemma route_static endpoint : static_path endpoint <> ""%string -> route (static_path endpoint) = Some endpoint.
Proof. destruct endpoint; intros Hp; [vm_compute; reflexivity..|done]. Qed.

Lemma sent_json {T} endpoint headers p (decode : list byte -> result BodyFault T) (k : HttpRequest -> T -> ApiRequest) source path r :
  path = static_path endpoint /\ path <> ""%string /\ (forall q, extract uuid_parse_str endpoint q = (x ← read_json decode q; Ok (k q x))) ->
  Z.of_nat (List.length (body_encode p)) <= BODY_LIMIT -> decode (body_encode p) = Ok r ->
  dispatch uuid_parse_str (json_request path headers p source) = Ok (k (json_request path headers p source) r).
Proof.
  intros (-> & Hp & Hx) Hl Hd. unfold dispatch. cbn [hq_path hq_method json_request]. rewrite route_static by done.
  assert (method_allowed endpoint "POST" = true) as -> by (by destruct endpoint). rewrite Hx. by rewrite (read_json_sent decode _ headers p source r).
Qed.

Lemma read_path_plain installation revision_text value id revision :
  percent_decode installation = Some installation -> uuid_parse_str installation = Some id ->
  percent_decode revision_text = Some revision_text -> parse_u64 (str_bytes revision_text) = Some revision ->
  percent_decode value = Some value -> read_path uuid_parse_str installation revision_text value = Ok (id, revision, value).
Proof. intros Hi Hid Hr Hrev Hv. unfold read_path. rewrite Hi. cbn. rewrite Hid. cbn. rewrite Hr. cbn. rewrite Hrev. cbn. by rewrite Hv. Qed.

Lemma sent_ready id revision value headers source :
  uuid_parse_str (uuid_to_string id) = Some id /\ is_u64 revision /\ validate_challenge_value value = Ok tt ->
  dispatch uuid_parse_str (client_request (GetChallengeReady id revision value headers) source) = Ok (GetChallengeReady id revision value headers).
Proof.
  intros (Hid & Hrev & Hval). unfold dispatch. cbn [client_request hq_path hq_method hq_headers]. rewrite route_ready by done. cbn [method_allowed].
  rewrite bool_decide_eq_true_2 by done. cbn [orb extract].
  rewrite (read_path_plain (uuid_to_string id) (u64_to_string revision) value id revision); [done|..].
  - apply plain_decoded, uuid_plain.
  - done.
  - apply plain_decoded, plain_forallb. unfold u64_to_string. rewrite str_bytes_string. apply decimal_plain; [apply Hrev|done].
  - by apply parse_u64_to_string.
  - apply plain_decoded. by apply token_plain.
Qed.

(** C21: a client's request reaches its handler. Take a request of the
    administration client or of the Broker's control client whose document is
    within the API's limit of 16 KiB and, for the readiness query, with an
    identifier that parses, a 64-bit revision and a well-formed value. While an
    API server is up, the front end passes it to the API (and answers 503
    itself when none is). The API's router, path and JSON extractors rebuild
    exactly the request that was sent, with the source address the API sees, so
    the API answers with what that handler answers. The Broker's tunnel
    requests go to the gateway while one is up. *)
Theorem client_request_reaches_handler st request source api_servers tunnel_servers e s :
  sendable request ->
  front_end api_servers tunnel_servers (hq_method (client_request request source)) (hq_path (client_request request source)) =
    (if (api_servers <? 1)%nat then NoServer 503 else RelayApi) /\
  serve uuid_parse_str st (client_request request source) e s =
    (let (r, s') := handle uuid_parse_str st (seen_from source request) e s in
     (match r with Ok r => of_response r | Err err => into_response err (n_uuid e s'.1) end, s')) /\
  front_end api_servers tunnel_servers "POST" "/v1/tunnel" = (if (tunnel_servers <? 1)%nat then NoServer 503 else RelayTunnel) /\
  front_end api_servers tunnel_servers "CONNECT" "" = (if (tunnel_servers <? 1)%nat then NoServer 503 else RelayTunnel).
Proof.
  intros [Hlen Hready]. split_and!; [by destruct request; try done; apply ready_front| |done|done].
  assert (dispatch uuid_parse_str (client_request request source) = Ok (seen_from source request)) as Hd.
  { destruct request as [|src r|r|headers r|r|r|r|headers c|headers r|id revision value headers]; try specialize (Hlen _ eq_refl).
    - unfold dispatch. change (hq_path _) with (static_path EBootstrapChallenge). by rewrite route_static.
    - by apply (sent_json EEnroll _ _ decode_enroll (fun q r => PostEnroll (hq_source q) r) _ _ r); [| |apply (decode_encoded (BodyEnroll r))].
    - by apply (sent_json ECredentials _ _ decode_credentials (fun q r => PostCredentials r) _ _ r); [| |apply (decode_encoded (BodyCredentials r))].
    - by apply (sent_json ERenew _ _ decode_renew (fun q r => PostRenew (hq_headers q) r) _ _ r); [| |apply (decode_encoded (BodyRenew r))].
    - by apply (sent_json EAcmeAccount _ _ decode_account (fun q r => PostAcmeAccount r) _ _ r); [| |apply (decode_encoded (BodyAcmeAccount r))].
    - by apply (sent_json EStatus _ _ decode_status (fun q r => PostStatus r) _ _ r); [| |apply (decode_encoded (BodyStatus r))].
    - by apply (sent_json ERetire _ _ decode_retire (fun q r => PostRetire r) _ _ r); [| |apply (decode_encoded (BodyRetire r))].
    - by apply (sent_json ECertificates _ _ decode_certificate (fun q r => PostCertificates (hq_headers q) r) _ _ c); [| |apply (decode_encoded (BodyCertificate c))].
    - by apply (sent_json EDnsChallenge _ _ decode_challenge (fun q r => PostDnsChallenge (hq_headers q) r) _ _ r); [| |apply (decode_encoded (BodyDnsChallenge r))].
    - by apply sent_ready. }
  unfold serve. rewrite Hd. by destruct (handle _ _ _ _ _) as [[] ?].
Qed.
End routing.
