(* ===== verification/Grants.v ===== *)
(** * Database privileges: src/packaging/postgres/runtime-grants.sql.example

    The tables, the login roles of the services and the grants an operator
    applies after the migrations; the privileges the SQL of each store method
    needs; and what a database change needs, column by column: [within G d d']
    holds when the privileges in [G] suffice to turn [d] into [d']. The
    database, schema and sequence privileges of the file are left out: every
    role has the first two, and the sequences are those of identity columns,
    for which an insert needs no privilege. *)

From Stdlib Require Import Ascii String Strings.Byte.
From stdpp Require Import base strings list gmap sorting.
From S2P Require Import Prelude Protocol Db Witness Store StoreCredentials StoreChallenges StoreLifecycle StoreBootstrap StoreOutbox StoreCt.
From S2P Require Import StoreHistory.

(** ** Tables, roles and grants *)
Inductive Table :=
| T_sqlx_migrations
| T_installations
| T_hostname_reservations
| T_operations
| T_used_nonces
| T_bootstrap_challenges
| T_scoped_credentials
| T_scoped_bearer_credentials
| T_tunnel_leases
| T_challenge_values
| T_challenge_state
| T_certificate_inventory
| T_outbox
| T_security_audit
| T_restore_fence
| T_ct_feed_checkpoints
| T_ct_observations
| T_ct_alerts
| T_ct_health_alerts.

#[global] Instance Table_eq_dec : EqDecision Table.
Proof. solve_decision. Defined.

(** [ALL TABLES IN SCHEMA public]. *)
Definition all_tables : list Table :=
  [T_sqlx_migrations; T_installations; T_hostname_reservations; T_operations; T_used_nonces;
   T_bootstrap_challenges; T_scoped_credentials; T_scoped_bearer_credentials; T_tunnel_leases;
   T_challenge_values; T_challenge_state; T_certificate_inventory; T_outbox; T_security_audit;
   T_restore_fence; T_ct_feed_checkpoints; T_ct_observations; T_ct_alerts; T_ct_health_alerts].

Inductive Role := GatewayRole | ApiRole | DnsServingRole | DnsChallengeRole | CtRole.

#[global] Instance Role_eq_dec : EqDecision Role.
Proof. solve_decision. Defined.

Definition role_name (r : Role) : string :=
  match r with
  | GatewayRole => "bloom-relay-gateway"
  | ApiRole => "bloom-relay-api"
  | DnsServingRole => "bloom-relay-dns-serving"
  | DnsChallengeRole => "bloom-relay-dns-challenge"
  | CtRole => "bloom-relay-ct"
  end.

(** [UPDATE (columns)] names its columns; [UPDATE] alone is all of them. *)
Inductive Action := ASelect | AInsert | AUpdate (columns : option (list string)) | ADelete.

Record Grant := { gr_actions : list Action; gr_tables : list Table; gr_roles : list Role }.

Definition all_roles : list Role := [GatewayRole; ApiRole; DnsServingRole; DnsChallengeRole; CtRole].

(** The table grants of the file, in its order. *)
Definition runtime_grants : list Grant := [
  {| gr_actions := [ASelect]; gr_tables := [T_sqlx_migrations]; gr_roles := all_roles |};
  {| gr_actions := [ASelect; AUpdate None]; gr_tables := [T_restore_fence]; gr_roles := all_roles |};
  {| gr_actions := [AInsert]; gr_tables := [T_security_audit]; gr_roles := all_roles |};
  {| gr_actions := [ASelect]; gr_tables := [T_installations; T_ct_feed_checkpoints];
     gr_roles := [GatewayRole; DnsServingRole; DnsChallengeRole; CtRole] |};
  {| gr_actions := [ASelect]; gr_tables := all_tables; gr_roles := [ApiRole] |};
  {| gr_actions := [AInsert; AUpdate None; ADelete];
     gr_tables := [T_installations; T_hostname_reservations; T_operations; T_used_nonces;
                   T_bootstrap_challenges; T_scoped_credentials; T_scoped_bearer_credentials;
                   T_tunnel_leases; T_challenge_values; T_challenge_state;
                   T_certificate_inventory; T_outbox];
     gr_roles := [ApiRole] |};
  {| gr_actions := [ASelect]; gr_tables := [T_scoped_bearer_credentials; T_tunnel_leases];
     gr_roles := [GatewayRole] |};
  {| gr_actions := [AUpdate (Some ["generation"])]; gr_tables := [T_installations];
     gr_roles := [GatewayRole] |};
  {| gr_actions := [AInsert; AUpdate None]; gr_tables := [T_tunnel_leases];
     gr_roles := [GatewayRole] |};
  {| gr_actions := [ASelect]; gr_tables := [T_outbox];
     gr_roles := [DnsServingRole; DnsChallengeRole] |};
  {| gr_actions := [AUpdate (Some ["attempts"; "next_attempt_at"; "completed_at"])];
     gr_tables := [T_outbox]; gr_roles := [DnsServingRole; DnsChallengeRole] |};
  {| gr_actions := [AUpdate (Some ["state"])]; gr_tables := [T_installations];
     gr_roles := [DnsServingRole] |};
  {| gr_actions := [ASelect]; gr_tables := [T_challenge_values; T_challenge_state];
     gr_roles := [DnsChallengeRole] |};
  {| gr_actions := [AUpdate (Some ["ready_revision"])]; gr_tables := [T_challenge_state];
     gr_roles := [DnsChallengeRole] |};
  {| gr_actions := [ASelect];
     gr_tables := [T_certificate_inventory; T_ct_observations; T_ct_alerts; T_ct_health_alerts];
     gr_roles := [CtRole] |};
  {| gr_actions := [AInsert; AUpdate None]; gr_tables := [T_ct_feed_checkpoints];
     gr_roles := [CtRole] |};
  {| gr_actions := [AInsert]; gr_tables := [T_ct_observations; T_ct_alerts; T_ct_health_alerts];
     gr_roles := [CtRole] |};
  {| gr_actions := [AUpdate (Some ["delivered_at"])]; gr_tables := [T_ct_alerts; T_ct_health_alerts];
     gr_roles := [CtRole] |} ].

(** The grants the last migration makes itself, for hosts whose roles exist. *)
Definition migration_grants : list Grant := [
  {| gr_actions := [ASelect; AInsert; AUpdate None; ADelete];
     gr_tables := [T_challenge_values; T_challenge_state]; gr_roles := [ApiRole] |};
  {| gr_actions := [ASelect]; gr_tables := [T_challenge_values; T_challenge_state];
     gr_roles := [DnsChallengeRole] |};
  {| gr_actions := [AUpdate (Some ["ready_revision"])]; gr_tables := [T_challenge_state];
     gr_roles := [DnsChallengeRole] |} ].

(** ** What a statement needs *)

(** [NLock] is a row lock ([FOR UPDATE] or [FOR SHARE]): PostgreSQL asks for
    the update of at least one column. *)
Inductive Need :=
| NSelect (t : Table)
| NInsert (t : Table)
| NUpdate (t : Table) (column : string)
| NDelete (t : Table)
| NLock (t : Table).

#[global] Instance Need_eq_dec : EqDecision Need.
Proof. solve_decision. Defined.

Definition action_covers (a : Action) (table : Table) (n : Need) : bool :=
  match n, a with
  | NSelect t, ASelect | NInsert t, AInsert | NDelete t, ADelete => bool_decide (t = table)
  | NUpdate t c, AUpdate columns =>
      bool_decide (t = table)
      && match columns with None => true | Some cs => bool_decide (c ∈ cs) end
  | NLock t, AUpdate columns =>
      bool_decide (t = table) && negb (bool_decide (columns = Some []))
  | _, _ => false
  end.

Definition grant_covers (role : Role) (n : Need) (g : Grant) : bool :=
  bool_decide (role ∈ gr_roles g)
  && existsb (fun t => existsb (fun a => action_covers a t n) (gr_actions g)) (gr_tables g).

Definition allows (grants : list Grant) (role : Role) (n : Need) : bool :=
  existsb (grant_covers role n) grants.

Definition granted : Role -> Need -> bool := allows runtime_grants.

(** ** What each store method needs *)

(** The fence trigger runs as the role that made the change. *)
Definition fence_needs : list Need :=
  [NSelect T_restore_fence; NUpdate T_restore_fence "revision"; NUpdate T_restore_fence "updated_at"].
Definition audit_needs : list Need := NInsert T_security_audit :: fence_needs.

(** [acknowledge] and [verify_integrity]: [restore_revision], [restore_pristine]. *)
Definition integrity_needs : list Need :=
  [NSelect T_restore_fence; NSelect T_installations; NSelect T_ct_feed_checkpoints].

(** [connect_runtime_with_witness] compares the applied migrations. *)
Definition connect_needs : list Need := NSelect T_sqlx_migrations :: integrity_needs.

(** A lock on the operation, a new generation, the old bearer revoked, the new
    one, the lease dropped, the operation recorded. *)
Definition rotation_needs : list Need :=
  [NSelect T_operations; NLock T_operations;
   NSelect T_installations; NUpdate T_installations "generation";
   NSelect T_scoped_bearer_credentials; NUpdate T_scoped_bearer_credentials "revoked_at";
   NInsert T_scoped_bearer_credentials; NSelect T_tunnel_leases; NDelete T_tunnel_leases;
   NInsert T_operations] ++ audit_needs.

Definition set_changed_needs : list Need :=
  [NSelect T_challenge_state; NUpdate T_challenge_state "revision"; NInsert T_outbox] ++ audit_needs.

(** The installation locked and its challenge values deleted. *)
Definition drop_values_needs : list Need :=
  [NSelect T_installations; NLock T_installations; NSelect T_challenge_values; NDelete T_challenge_values].

Definition retirement_needs : list Need :=
  [NSelect T_installations; NUpdate T_installations "state"; NUpdate T_installations "retired_at";
   NUpdate T_installations "generation"; NInsert T_outbox] ++ audit_needs.

Definition needs (r : Request) : list Need :=
  match r with
  | CreateBootstrapChallenge _ _ => [NSelect T_bootstrap_challenges; NInsert T_bootstrap_challenges]
  | ConsumeBootstrapChallenge _ _ =>
      [NSelect T_bootstrap_challenges; NUpdate T_bootstrap_challenges "consumed_at"]
  | ConsumeNonce _ _ => [NInsert T_used_nonces]
  | PruneChallenges _ => [NSelect T_bootstrap_challenges; NDelete T_bootstrap_challenges]
  | PruneNonces _ => [NSelect T_used_nonces; NDelete T_used_nonces]
  | IssueBearer _ _ _ _ _ => rotation_needs
  | RenewBearer _ _ _ _ _ _ => NLock T_installations :: rotation_needs
  | RegisterAccount _ _ =>
      [NSelect T_installations; NUpdate T_installations "acme_account_uri"; NInsert T_outbox] ++ audit_needs
  | MarkDnsReady _ => [NSelect T_installations; NUpdate T_installations "state"] ++ audit_needs
  | EnsureChallengeValue _ _ _ =>
      drop_values_needs ++ [NSelect T_scoped_bearer_credentials; NLock T_scoped_bearer_credentials;
        NInsert T_challenge_state; NUpdate T_challenge_values "expires_at"; NInsert T_challenge_values]
      ++ set_changed_needs
  | MarkChallengeReconciled _ _ =>
      [NSelect T_challenge_state; NUpdate T_challenge_state "ready_revision"]
  | ExpireChallengeValues _ => drop_values_needs ++ set_changed_needs
  | Allocate _ _ _ _ _ =>
      [NSelect T_operations; NSelect T_installations; NLock T_installations; NInsert T_installations;
       NInsert T_hostname_reservations; NInsert T_operations; NInsert T_outbox] ++ audit_needs
  | ClaimTunnel _ _ _ =>
      [NSelect T_installations; NUpdate T_installations "generation"; NSelect T_tunnel_leases;
       NInsert T_tunnel_leases; NUpdate T_tunnel_leases "generation";
       NUpdate T_tunnel_leases "gateway_id"; NUpdate T_tunnel_leases "expires_at"] ++ audit_needs
  | RenewTunnel _ _ _ => [NSelect T_tunnel_leases; NUpdate T_tunnel_leases "expires_at"]
  | ExpirePending _ => retirement_needs
  | Retire _ _ =>
      [NSelect T_operations; NLock T_operations; NSelect T_tunnel_leases; NDelete T_tunnel_leases;
       NInsert T_operations] ++ drop_values_needs ++ retirement_needs
  | Relocate _ _ _ =>
      [NSelect T_operations; NLock T_operations; NSelect T_installations; NLock T_installations;
       NUpdate T_installations "placement"; NUpdate T_installations "generation";
       NSelect T_tunnel_leases; NDelete T_tunnel_leases; NInsert T_outbox; NInsert T_operations]
      ++ audit_needs
  | CompleteJob _ => [NSelect T_outbox; NUpdate T_outbox "completed_at"]
  | DeferJob _ => [NSelect T_outbox; NUpdate T_outbox "attempts"; NUpdate T_outbox "next_attempt_at"]
  | EnsureCtSource _ => NInsert T_ct_feed_checkpoints :: fence_needs
  | MarkCtFeedHealthy _ _ =>
      [NSelect T_ct_feed_checkpoints; NUpdate T_ct_feed_checkpoints "observed_at"] ++ fence_needs
  | MarkCtAlertDelivered _ => [NSelect T_ct_alerts; NUpdate T_ct_alerts "delivered_at"] ++ fence_needs
  | QueueCtLagAlert _ =>
      [NSelect T_ct_feed_checkpoints; NInsert T_ct_health_alerts] ++ fence_needs
  | MarkCtLagAlertDelivered _ =>
      [NSelect T_ct_health_alerts; NUpdate T_ct_health_alerts "delivered_at"] ++ fence_needs
  | RecordExpectedCertificate _ _ =>
      [NSelect T_installations; NLock T_installations; NSelect T_certificate_inventory;
       NInsert T_certificate_inventory] ++ audit_needs
  | ObserveCt _ _ _ _ =>
      [NInsert T_ct_feed_checkpoints; NSelect T_ct_feed_checkpoints; NLock T_ct_feed_checkpoints;
       NSelect T_ct_observations; NSelect T_installations; NSelect T_certificate_inventory;
       NInsert T_ct_observations; NInsert T_ct_alerts; NUpdate T_ct_feed_checkpoints "position";
       NUpdate T_ct_feed_checkpoints "observed_at"] ++ audit_needs
  end.

(** The methods that only read. [claim_job] locks the row of the job alone
    ([FOR UPDATE OF o]). *)
Inductive Query :=
| QAdminPublicKey (id : Uuid)
| QAuthenticateBearer (id : Uuid) (scope bearer : string)
| QAuthenticateBearerWithState (id : Uuid) (scope bearer : string)
| QHostname (id : Uuid)
| QAllocationStatus (id : Uuid)
| QDnsIdentity (id : Uuid)
| QRetiredHostname (id : Uuid)
| QChallengeValueReady (id : Uuid) (txt_value : string) (revision : Z)
| QChallengeTarget (id : Uuid)
| QClaimJob (placement : string) (scope : DnsJobScope) (locked : Z -> bool)
| QTunnelIsCurrent (id : Uuid) (gateway_id : string) (generation : Z)
| QExpiredPending (limit : nat)
| QLapsedInstallations (limit : nat)
| QCtCheckpoint (source : string)
| QPendingCtAlerts (source : string) (limit : Z)
| QPendingCtLagAlerts (source : string) (limit : Z)
| QCtFeedLagSeconds (source : string).

Definition query_needs (q : Query) : list Need :=
  match q with
  | QAdminPublicKey _ | QHostname _ | QAllocationStatus _ | QDnsIdentity _ | QRetiredHostname _
  | QExpiredPending _ => [NSelect T_installations]
  | QAuthenticateBearer _ _ _ | QAuthenticateBearerWithState _ _ _ =>
      [NSelect T_scoped_bearer_credentials; NSelect T_installations]
  | QChallengeValueReady _ _ _ | QChallengeTarget _ => [NSelect T_challenge_state; NSelect T_challenge_values]
  | QClaimJob _ _ _ => [NSelect T_outbox; NLock T_outbox; NSelect T_installations]
  | QTunnelIsCurrent _ _ _ => [NSelect T_tunnel_leases]
  | QLapsedInstallations _ => [NSelect T_challenge_values]
  | QCtCheckpoint _ | QCtFeedLagSeconds _ => [NSelect T_ct_feed_checkpoints]
  | QPendingCtAlerts _ _ => [NSelect T_ct_alerts]
  | QPendingCtLagAlerts _ _ => [NSelect T_ct_health_alerts]
  end.

(** ** What a change of the database needs *)
Record Column (V : Type) := column { c_name : string; c_type : Type; c_get : V -> c_type }.
Arguments column {V} _ {_} _.
Arguments c_name {V} _.
Arguments c_type {V} _.
Arguments c_get {V} _ _.

Section within.
Context (G : Need -> bool).

Definition row_within {V} (t : Table) (columns : list (Column V)) (r r' : V) : Prop :=
  Forall (fun c => c_get c r = c_get c r' \/ G (NUpdate t (c_name c)) = true) columns.

(** A table is a partial function from its key. A row deleted and inserted
    again may have changed in any column. *)
Definition table_within {K V} (t : Table) (columns : list (Column V)) (m m' : K -> option V) : Prop :=
  forall k, match m k, m' k with
  | None, None => True
  | None, Some _ => G (NInsert t) = true
  | Some _, None => G (NDelete t) = true
  | Some r, Some r' =>
      (G (NInsert t) = true /\ G (NDelete t) = true) \/ row_within t columns r r'
  end.
End within.

(** The columns of each table that are not its key. *)
Definition installation_columns : list (Column Installation) :=
  [column "hostname" i_hostname; column "admin_public_key" i_admin_public_key;
   column "placement" i_placement; column "generation" i_generation; column "state" i_state;
   column "acme_account_uri" i_acme_account_uri; column "created_at" i_created_at;
   column "retired_at" i_retired_at].
Definition reservation_columns : list (Column Uuid) := [column "installation_id" (fun u => u)].
Definition operation_columns : list (Column Operation) :=
  [column "installation_id" o_installation_id; column "kind" o_kind;
   column "request_digest" o_request_digest; column "result" o_result; column "created_at" o_created_at].
Definition nonce_columns : list (Column Z) := [column "expires_at" (fun z => z)].
Definition bootstrap_columns : list (Column Bootstrap) :=
  [column "source_ip" b_source_ip; column "expires_at" b_expires_at; column "created_at" b_created_at;
   column "consumed_at" b_consumed_at].
Definition credential_columns : list (Column Credential) :=
  [column "token_hash" k_token_hash; column "expires_at" k_expires_at; column "revoked_at" k_revoked_at].
Definition lease_columns : list (Column Lease) :=
  [column "generation" l_generation; column "gateway_id" l_gateway_id; column "expires_at" l_expires_at].
Definition challenge_value_columns : list (Column Z) := [column "expires_at" (fun z => z)].
Definition challenge_state_columns : list (Column ChallengeState) :=
  [column "revision" s_revision; column "ready_revision" s_ready_revision].
Definition certificate_columns : list (Column Certificate) :=
  [column "lineage" ce_lineage; column "not_before" ce_not_before; column "not_after" ce_not_after].
Definition outbox_columns : list (Column OutboxRow) :=
  [column "id" x_id; column "installation_id" x_installation_id; column "kind" x_kind;
   column "payload" x_payload; column "attempts" x_attempts;
   column "next_attempt_at" x_next_attempt_at; column "completed_at" x_completed_at].
Definition audit_columns : list (Column AuditRow) :=
  [column "installation_id" au_installation_id; column "operation_id" au_operation_id;
   column "event" au_event; column "created_at" au_created_at].
Definition fence_columns : list (Column Z) := [column "revision" (fun z => z)].
Definition checkpoint_columns : list (Column (Z * Z)) :=
  [column "position" fst; column "observed_at" snd].
Definition observation_columns : list (Column CtObservation) :=
  [column "installation_id" ob_installation_id; column "hostname" ob_hostname;
   column "fingerprint" ob_fingerprint; column "expected" ob_expected].
Definition alert_columns : list (Column CtAlertRow) :=
  [column "id" al_id; column "source" al_source; column "position" al_position;
   column "installation_id" al_installation_id; column "hostname" al_hostname;
   column "fingerprint" al_fingerprint; column "delivered_at" al_delivered_at].
Definition health_columns : list (Column CtHealthRow) :=
  [column "id" he_id; column "source" he_source; column "time_window" he_time_window;
   column "lag_seconds" he_lag_seconds; column "delivered_at" he_delivered_at].

(** The privileges [G] suffice to change [d] into [d']. *)
Record within (G : Need -> bool) (d d' : Db) : Prop := {
  wi_installations : table_within G T_installations installation_columns
    (fun k => d_installations d !! k) (fun k => d_installations d' !! k);
  wi_reservations : table_within G T_hostname_reservations reservation_columns
    (fun k => d_reservations d !! k) (fun k => d_reservations d' !! k);
  wi_operations : table_within G T_operations operation_columns
    (fun k => d_operations d !! k) (fun k => d_operations d' !! k);
  wi_nonces : table_within G T_used_nonces nonce_columns
    (fun k => d_nonces d !! k) (fun k => d_nonces d' !! k);
  wi_bootstrap : table_within G T_bootstrap_challenges bootstrap_columns
    (fun k => d_bootstrap d !! k) (fun k => d_bootstrap d' !! k);
  wi_credentials : table_within G T_scoped_bearer_credentials credential_columns
    (fun k => d_credentials d !! k) (fun k => d_credentials d' !! k);
  wi_leases : table_within G T_tunnel_leases lease_columns
    (fun k => d_leases d !! k) (fun k => d_leases d' !! k);
  wi_challenge_values : table_within G T_challenge_values challenge_value_columns
    (fun k => d_challenge_values d !! k) (fun k => d_challenge_values d' !! k);
  wi_challenge_state : table_within G T_challenge_state challenge_state_columns
    (fun k => d_challenge_state d !! k) (fun k => d_challenge_state d' !! k);
  wi_certificates : table_within G T_certificate_inventory certificate_columns
    (fun k => d_certificates d !! k) (fun k => d_certificates d' !! k);
  wi_outbox : table_within G T_outbox outbox_columns
    (fun n : nat => d_outbox d !! n) (fun n => d_outbox d' !! n);
  wi_outbox_next : d_outbox_next d = d_outbox_next d' \/ G (NInsert T_outbox) = true;
  wi_audit : table_within G T_security_audit audit_columns
    (fun n : nat => d_audit d !! n) (fun n => d_audit d' !! n);
  wi_fence : table_within G T_restore_fence fence_columns
    (fun _ : unit => Some (d_revision d)) (fun _ => Some (d_revision d'));
  wi_checkpoints : table_within G T_ct_feed_checkpoints checkpoint_columns
    (fun k => ct_checkpoints (d_ct d) !! k) (fun k => ct_checkpoints (d_ct d') !! k);
  wi_observations : table_within G T_ct_observations observation_columns
    (fun k => ct_observations (d_ct d) !! k) (fun k => ct_observations (d_ct d') !! k);
  wi_alerts : table_within G T_ct_alerts alert_columns
    (fun n : nat => ct_alerts (d_ct d) !! n) (fun n => ct_alerts (d_ct d') !! n);
  wi_health : table_within G T_ct_health_alerts health_columns
    (fun n : nat => ct_health_alerts (d_ct d) !! n) (fun n => ct_health_alerts (d_ct d') !! n)
}.

(** *** Laws *)
Section table.
Context (G : Need -> bool) {K V : Type} (t : Table) (columns : list (Column V)).

#[global] Instance table_within_refl : Reflexive (table_within (K := K) G t columns).
Proof.
  intros m k. destruct (m k); [|done]. right. apply Forall_forall. auto.
Qed.

Lemma row_within_trans r1 r2 r3 :
  row_within G t columns r1 r2 -> row_within G t columns r2 r3 -> row_within G t columns r1 r3.
Proof.
  unfold row_within. rewrite !Forall_forall. intros H1 H2 c Hc.
  destruct (H1 c Hc) as [->|]; auto.
Qed.

#[global] Instance table_within_trans : Transitive (table_within (K := K) G t columns).
Proof.
  intros m1 m2 m3 H1 H2 k. specialize (H1 k). specialize (H2 k).
  destruct (m1 k), (m2 k), (m3 k); try done; intuition eauto using row_within_trans.
Qed.
End table.

#[global] Instance within_preorder G : PreOrder (within G).
Proof.
  split.
  - intros d. split; try reflexivity. by left.
  - intros d1 d2 d3 [] []. split; try by etrans. intuition congruence.
Qed.

Lemma table_within_mono (G G' : Need -> bool) {K V} t columns (m m' : K -> option V) :
  (forall n, G n = true -> G' n = true) -> table_within G t columns m m' -> table_within G' t columns m m'.
Proof.
  intros Hg Hm k. specialize (Hm k). destruct (m k), (m' k); auto.
  destruct Hm as [[]|Hr]; [auto|]. right. eapply Forall_impl; [exact Hr|]. cbn. intros c [|]; auto.
Qed.

Lemma within_mono (G G' : Need -> bool) d d' :
  (forall n, G n = true -> G' n = true) -> within G d d' -> within G' d d'.
Proof.
  intros Hg []. split; try by (eapply table_within_mono; [exact Hg|]).
  destruct wi_outbox_next0; auto.
Qed.

(** ** What the requests do *)
(** ** Changes of one table *)
Section maps.
Context (G : Need -> bool) {K V : Type} `{Countable K} (t : Table) (columns : list (Column V)).
Implicit Types m : gmap K V.
Abbreviation keeps m m' := (table_within G t columns (fun k => m !! k) (fun k => m' !! k)).

Lemma tw_insert m k v : G (NInsert t) = true -> m !! k = None -> keeps m (<[k := v]> m).
Proof.
  intros Hg Hk j. destruct (decide (j = k)) as [->|Hne].
  - by rewrite Hk, lookup_insert_eq.
  - rewrite lookup_insert_ne by done. apply table_within_refl.
Qed.

Lemma tw_update m k r r' : m !! k = Some r -> row_within G t columns r r' -> keeps m (<[k := r']> m).
Proof.
  intros Hk Hr j. destruct (decide (j = k)) as [->|Hne].
  - rewrite Hk, lookup_insert_eq. by right.
  - rewrite lookup_insert_ne by done. apply table_within_refl.
Qed.

(** [INSERT .. ON CONFLICT DO UPDATE] of every column. *)
Lemma tw_upsert m k v :
  G (NInsert t) = true -> Forall (fun c => G (NUpdate t (c_name c)) = true) columns ->
  keeps m (<[k := v]> m).
Proof.
  intros Hi Hu. destruct (m !! k) as [r|] eqn:Hk; [|by apply tw_insert].
  eapply tw_update; [exact Hk|]. eapply Forall_impl; [exact Hu|]. auto.
Qed.

Lemma tw_subseteq m m' : G (NDelete t) = true -> m' ⊆ m -> keeps m m'.
Proof.
  intros Hg Hs k. destruct (m' !! k) as [r|] eqn:Hk.
  - rewrite (lookup_weaken _ _ _ _ Hk Hs). right. apply Forall_forall. auto.
  - by destruct (m !! k).
Qed.

Lemma tw_imap m f : (forall k r, row_within G t columns r (f k r)) ->
  keeps m (map_imap (fun k r => Some (f k r)) m).
Proof.
  intros Hf k. rewrite map_lookup_imap. destruct (m !! k); cbn; [|done]. right. apply Hf.
Qed.
End maps.

Section lists.
Context (G : Need -> bool) {V : Type} (t : Table) (columns : list (Column V)).
Implicit Types l : list V.
Abbreviation keeps l l' := (table_within G t columns (fun n : nat => l !! n) (fun n => l' !! n)).

Lemma tw_append l v : G (NInsert t) = true -> keeps l (l ++ [v]).
Proof.
  intros Hg n. destruct (l !! n) as [r|] eqn:Hn.
  - rewrite (lookup_app_l_Some _ _ _ _ Hn). right. apply Forall_forall. auto.
  - by destruct ((l ++ [v]) !! n).
Qed.

Lemma tw_fmap l f : (forall r, row_within G t columns r (f r)) -> keeps l (f <$> l).
Proof. intros Hf n. rewrite list_lookup_fmap. destruct (l !! n); cbn; auto. Qed.
End lists.

Lemma row_within_refl G {V} t (columns : list (Column V)) r : row_within G t columns r r.
Proof. apply Forall_forall. auto. Qed.

(** ** Statements *)
Create HintDb grants discriminated.
#[export] Hint Extern 1 (_ = true) => (vm_compute; reflexivity) : grants.

(** A change of one table, the others as they were. *)
Ltac within_one := split; cbn; try reflexivity; try (by left).
(** The changed columns are granted, the others are the same. *)
Ltac row_columns := repeat first [apply Forall_nil_2 | apply Forall_cons_2; [first [by left|by right]|]].

Section statements.
Context (G : Need -> bool).

Lemma within_fence d z : G (NUpdate T_restore_fence "revision") = true -> within G d (set_revision z d).
Proof. intros Hg. within_one. intros []. right. row_columns. Qed.

Lemma grants_fence : G (NUpdate T_restore_fence "revision") = true -> preserves (within G) advance_restore_fence.
Proof. intros Hg d u d' Hf. unfold advance_restore_fence in Hf. inv_ok. by apply within_fence. Qed.

Lemma grants_audit id op event now :
  G (NInsert T_security_audit) = true -> G (NUpdate T_restore_fence "revision") = true ->
  preserves (within G) (insert_audit id op event now).
Proof.
  intros Hi Hu d u d' (_ & _ & ->)%insert_audit_ok. unfold add_audit.
  etrans; [|by apply within_fence]. within_one. by apply tw_append.
Qed.

Lemma grants_outbox id kind payload now :
  G (NInsert T_outbox) = true -> preserves (within G) (insert_outbox id kind payload now).
Proof. intros Hg d u d' [_ ->]%insert_outbox_ok. within_one; [by apply tw_append|by right]. Qed.

Lemma grants_credential id scope g row :
  G (NInsert T_scoped_bearer_credentials) = true -> preserves (within G) (insert_credential id scope g row).
Proof. intros Hg d u d' (Hn & _ & ->)%insert_credential_ok. within_one. by apply tw_insert. Qed.

Lemma grants_operation op row :
  G (NInsert T_operations) = true -> preserves (within G) (insert_operation op row).
Proof. intros Hg d u d' (Hn & _ & ->)%insert_operation_ok. within_one. by apply tw_insert. Qed.

Lemma grants_reservation h id :
  G (NInsert T_hostname_reservations) = true -> preserves (within G) (insert_reservation h id).
Proof. intros Hg d u d' (Hn & _ & ->)%insert_reservation_ok. within_one. by apply tw_insert. Qed.

Lemma grants_installation id row :
  G (NInsert T_installations) = true -> preserves (within G) (insert_installation id row).
Proof. intros Hg d u d' (Hn & _ & _ & _ & ->)%insert_installation_ok. within_one. by apply tw_insert. Qed.

Lemma grants_update id cond f :
  (forall r r', f r = Ok r' -> row_within G T_installations installation_columns r r') ->
  preserves (within G) (update_installation id cond f).
Proof.
  intros Hf d o d' [(_ & -> & _)|(r & r' & Hr & _ & Hf' & _ & ->)]%update_installation_ok; [done|].
  within_one. eapply tw_update; eauto.
Qed.

Lemma grants_delete_lease id : G (NDelete T_tunnel_leases) = true -> preserves (within G) (tx_modify (delete_lease id)).
Proof.
  intros Hg. apply preserves_modify. intros d. within_one. apply tw_subseteq; [done|]. apply delete_subseteq.
Qed.

Lemma grants_revoke now p :
  G (NUpdate T_scoped_bearer_credentials "revoked_at") = true ->
  preserves (within G) (tx_modify (revoke_where now p)).
Proof.
  intros Hg. apply preserves_modify. intros d. within_one. apply tw_imap. intros k r.
  destruct (p k r); [|apply row_within_refl]. row_columns.
Qed.

Lemma grants_filter_values f :
  (forall m, f m ⊆ m) -> G (NDelete T_challenge_values) = true ->
  preserves (within G) (tx_modify (set_challenge_values f)).
Proof. intros Hf Hg. apply preserves_modify. intros d. within_one. by apply tw_subseteq. Qed.

Lemma grants_bump id :
  G (NUpdate T_challenge_state "revision") = true -> preserves (within G) (bump_revision id).
Proof.
  intros Hg d u d' Hb. unfold bump_revision in Hb. destruct (d_challenge_state d !! id) as [s|] eqn:Hs; inv_ok; [|done].
  within_one. eapply tw_update; [exact Hs|]. row_columns.
Qed.

Lemma grants_set_changed now id event :
  G (NUpdate T_challenge_state "revision") = true -> G (NInsert T_outbox) = true ->
  G (NInsert T_security_audit) = true -> G (NUpdate T_restore_fence "revision") = true ->
  preserves (within G) (challenge_set_changed now id event).
Proof.
  intros. unfold challenge_set_changed. apply preserves_bind; [apply _|by apply grants_bump|intros _].
  apply preserves_bind; [apply _|by apply grants_outbox|intros _]. by apply grants_audit.
Qed.

Lemma grants_write_checkpoint source position at_ :
  G (NInsert T_ct_feed_checkpoints) = true -> G (NUpdate T_ct_feed_checkpoints "position") = true ->
  G (NUpdate T_ct_feed_checkpoints "observed_at") = true -> G (NUpdate T_restore_fence "revision") = true ->
  preserves (within G) (write_checkpoint source position at_).
Proof.
  intros. unfold write_checkpoint. apply preserves_bind; [apply _| |intros _; by apply grants_fence].
  apply preserves_modify. intros d. within_one. apply tw_upsert; [done|]. by repeat constructor.
Qed.

Lemma grants_insert_checkpoint now source :
  G (NInsert T_ct_feed_checkpoints) = true -> G (NUpdate T_restore_fence "revision") = true ->
  preserves (within G) (insert_checkpoint now source).
Proof.
  intros Hi Hf d u d' Hc. unfold insert_checkpoint, write_checkpoint in Hc. inv_tx.
  destruct (checkpoints d !! source) eqn:Hs; inv_tx; [done|].
  etrans; [|eapply grants_fence; eassumption]. within_one. by apply tw_insert.
Qed.

Lemma grants_observation source position row :
  G (NInsert T_ct_observations) = true -> preserves (within G) (insert_observation source position row).
Proof.
  intros Hg d u d' Ho. unfold insert_observation in Ho. inv_ok. to_prop. within_one.
  apply tw_insert; [done|]. by apply eq_None_not_Some.
Qed.

Lemma grants_insert_alert source position owner hostname fingerprint :
  G (NInsert T_ct_alerts) = true -> G (NUpdate T_restore_fence "revision") = true ->
  preserves (within G) (insert_alert source position owner hostname fingerprint).
Proof.
  intros Hi Hf d u d' Ha. unfold insert_alert in Ha. inv_tx.
  etrans; [|eapply grants_fence; eassumption]. within_one. by apply tw_append.
Qed.
End statements.

#[export] Hint Resolve grants_fence grants_audit grants_outbox grants_credential grants_operation
  grants_reservation grants_installation grants_delete_lease grants_revoke grants_bump
  grants_set_changed grants_write_checkpoint grants_insert_checkpoint grants_observation
  grants_insert_alert : grants.

(** ** Transactions *)
Definition needed (ns : list Need) (n : Need) : bool := bool_decide (n ∈ ns).

Section requests.
Context {Cr : Crypto} {B32 : Base32} (cfg : StoreConfig).

Ltac update_row := apply grants_update; intros r r' Hf; unfold retire_row, next_generation in *; inv_ok; row_columns.

Lemma within_create now nonce source :
  preserves (within (needed (needs (CreateBootstrapChallenge nonce source)))) (create_bootstrap_challenge_tx now nonce source).
Proof.
  intros d a d' Hx. unfold create_bootstrap_challenge_tx in Hx. inv_ok; [done|]. to_prop.
  within_one. apply tw_insert; [done|]. by apply eq_None_not_Some.
Qed.

Lemma within_consume now nonce source :
  preserves (within (needed (needs (ConsumeBootstrapChallenge nonce source)))) (consume_bootstrap_challenge_tx now nonce source).
Proof.
  intros d a d' Hx. unfold consume_bootstrap_challenge_tx in Hx.
  destruct (d_bootstrap d !! nonce) as [b|] eqn:Hb; inv_ok; try done. within_one. eapply tw_update; [exact Hb|]. row_columns.
Qed.

Lemma within_nonce now id nonce :
  preserves (within (needed (needs (ConsumeNonce id nonce)))) (consume_nonce_tx now id nonce).
Proof.
  intros d a d' Hx. unfold consume_nonce_tx in Hx. inv_ok; try done. to_prop.
  within_one. apply tw_insert; [done|]. by apply eq_None_not_Some.
Qed.

Lemma within_prunes now limit :
  preserves (within (needed (needs (PruneChallenges limit)))) (prune_challenges_tx now limit) /\
  preserves (within (needed (needs (PruneNonces limit)))) (prune_nonces_tx now limit).
Proof.
  split; intros d a d' [= _ <-]; within_one; (apply tw_subseteq; [done|apply delete_oldest_subseteq]).
Qed.

Lemma within_issue now id op scope hash vs :
  preserves (within (needed (needs (IssueBearer id op scope hash vs)))) (issue_bearer_tx cfg now id op scope hash vs).
Proof.
  unfold issue_bearer_tx, replay_receipt. solve_preserves grants. by update_row.
Qed.

Lemma within_renew now id op scope g token hash :
  preserves (within (needed (needs (RenewBearer id op scope g token hash)))) (renew_bearer_tx cfg now id op scope g token hash).
Proof.
  unfold renew_bearer_tx, replay_receipt. solve_preserves grants. by update_row.
Qed.

Lemma within_account now id uri :
  preserves (within (needed (needs (RegisterAccount id uri)))) (register_acme_account_tx cfg now id uri).
Proof. unfold register_acme_account_tx. solve_preserves grants. by update_row. Qed.

Lemma within_dns_ready now id :
  preserves (within (needed (needs (MarkDnsReady id)))) (mark_dns_ready_tx now id).
Proof. unfold mark_dns_ready_tx. solve_preserves grants. by update_row. Qed.

Lemma within_ensure_value now id g txt :
  preserves (within (needed (needs (EnsureChallengeValue id g txt)))) (ensure_challenge_value_tx now id g txt).
Proof.
  unfold ensure_challenge_value_tx. solve_preserves grants.
  - apply preserves_modify. intros d. unfold ensure_challenge_state. destruct (d_challenge_state d !! id) eqn:Hs; [done|].
    within_one. by apply tw_insert.
  - apply preserves_modify. intros d. within_one. apply tw_upsert; [done|]. by repeat constructor.
  - apply grants_filter_values; [|done]. intros m. apply map_filter_subseteq.
  - intros d u d' Hx. unfold insert_challenge_value in Hx. inv_ok. to_prop. within_one.
    apply tw_insert; [done|]. by apply eq_None_not_Some.
Qed.

Lemma within_reconciled id revision :
  preserves (within (needed (needs (MarkChallengeReconciled id revision)))) (mark_challenge_reconciled_tx id revision).
Proof.
  intros d a d' Hx. unfold mark_challenge_reconciled_tx in Hx.
  destruct (d_challenge_state d !! id) as [s|] eqn:Hs; inv_ok; try done. within_one. eapply tw_update; [exact Hs|]. row_columns.
Qed.

Lemma within_expire_values now id :
  preserves (within (needed (needs (ExpireChallengeValues id)))) (expire_challenge_values_tx now id).
Proof.
  unfold expire_challenge_values_tx. solve_preserves grants.
  apply grants_filter_values; [|done]. intros m. apply map_filter_subseteq.
Qed.

Lemma within_allocate now op key placement new_id random :
  preserves (within (needed (needs (Allocate op key placement new_id random)))) (allocate_tx now op key placement new_id random).
Proof. unfold allocate_tx. solve_preserves grants. Qed.

Lemma within_claim now id gateway ttl :
  preserves (within (needed (needs (ClaimTunnel id gateway ttl)))) (claim_tunnel_tx now id gateway ttl).
Proof.
  unfold claim_tunnel_tx. solve_preserves grants; [by update_row|].
  apply preserves_modify. intros d. within_one. apply tw_upsert; [done|]. by repeat constructor.
Qed.

Lemma within_renew_tunnel now id gateway g :
  preserves (within (needed (needs (RenewTunnel id gateway g)))) (renew_tunnel_tx now id gateway g).
Proof.
  intros d a d' Hx. unfold renew_tunnel_tx, current_lease in Hx.
  destruct (d_leases d !! id) as [l|] eqn:Hl; cbn in Hx; [|by inv_ok].
  destruct (bool_decide _ && _ && _); inv_ok; [|done]. within_one. eapply tw_update; [exact Hl|]. row_columns.
Qed.

Lemma within_expire_pending now id :
  preserves (within (needed (needs (ExpirePending id)))) (expire_pending_tx now id).
Proof. unfold expire_pending_tx. solve_preserves grants. by update_row. Qed.

Lemma within_retire now id op : preserves (within (needed (needs (Retire id op)))) (retire_tx now id op).
Proof.
  unfold retire_tx. solve_preserves grants; [by update_row|].
  apply grants_filter_values; [|done]. intros m. apply map_filter_subseteq.
Qed.

Lemma within_relocate now id op placement :
  preserves (within (needed (needs (Relocate id op placement)))) (relocate_tx now id op placement).
Proof. unfold relocate_tx. solve_preserves grants. by update_row. Qed.

Lemma within_jobs now n :
  preserves (within (needed (needs (CompleteJob n)))) (complete_tx now n) /\
  preserves (within (needed (needs (DeferJob n)))) (defer_tx now n).
Proof.
  split; intros d a d' Hx; [unfold complete_tx in Hx; inv_tx|unfold defer_tx in Hx; inv_ok];
    within_one; apply tw_fmap; intros r; (destruct (x_id r =? n); [row_columns|apply row_within_refl]).
Qed.

Lemma within_healthy now source position :
  preserves (within (needed (needs (MarkCtFeedHealthy source position)))) (mark_ct_feed_healthy_tx now source position).
Proof.
  intros d a d' Hx. unfold mark_ct_feed_healthy_tx, write_checkpoint in Hx. inv_tx.
  destruct (checkpoints d !! source) as [[p at_]|] eqn:Hs; [|by inv_tx].
  destruct (p =? u64_as_i64 position); inv_tx.
  etrans; [|eapply grants_fence; [done|eassumption]]. within_one. eapply tw_update; [exact Hs|]. row_columns.
Qed.

Lemma within_delivered now n :
  preserves (within (needed (needs (MarkCtAlertDelivered n)))) (mark_ct_alert_delivered_tx now n) /\
  preserves (within (needed (needs (MarkCtLagAlertDelivered n)))) (mark_ct_lag_alert_delivered_tx now n).
Proof.
  split; intros d a d' Hx; unfold mark_ct_alert_delivered_tx, mark_ct_lag_alert_delivered_tx in Hx; inv_tx;
    destruct (existsb _ _); inv_tx; try done;
    (etrans; [|eapply grants_fence; [done|eassumption]]); within_one; apply tw_fmap; intros r;
    (destruct (_ && _); [row_columns|apply row_within_refl]).
Qed.

Lemma within_lag_alert now source :
  preserves (within (needed (needs (QueueCtLagAlert source)))) (queue_ct_lag_alert_tx now source).
Proof.
  intros d a d' Hx. unfold queue_ct_lag_alert_tx in Hx. inv_tx.
  destruct (checkpoints d !! source) as [[p at_]|]; [destruct (_ && _)|]; inv_tx; try done.
  etrans; [|eapply grants_fence; [done|eassumption]]. within_one. by apply tw_append.
Qed.

Lemma within_certificate now id c :
  preserves (within (needed (needs (RecordExpectedCertificate id c)))) (record_expected_certificate_tx now id c).
Proof.
  unfold record_expected_certificate_tx. solve_preserves grants. apply preserves_modify. intros d. cbv zeta.
  destruct (d_certificates d !! _) eqn:Hc; [done|]. within_one. by apply tw_insert.
Qed.

Lemma within_observe now source position hostname fingerprint :
  preserves (within (needed (needs (ObserveCt source position hostname fingerprint))))
    (observe_ct_tx now source position hostname fingerprint).
Proof.
  intros d a d' Hx. unfold observe_ct_tx in Hx. inv_tx.
  match goal with Hc : insert_checkpoint _ _ _ = _ |- _ =>
    apply (grants_insert_checkpoint (needed (needs (ObserveCt source position hostname fingerprint)))) in Hc; [|done..] end.
  destruct (position <=? _) eqn:Hle; inv_tx; [done|].
  etrans; [eassumption|]. match goal with Hr : record_observation _ _ _ _ _ _ = _ |- _ => revert Hr end.
  match goal with |- ?m ?d1 = Ok (?a, ?d2) -> ?R ?d1 ?d2 => cut (preserves R m); [intros Hp; apply Hp|] end.
  unfold record_observation.
  repeat first [solve [auto 8 with grants] | apply preserves_bind; [exact _| |intros ?]
    | apply preserves_when; [exact _|] | case_match | apply preserves_gets; exact _ | apply preserves_ret; exact _].
Qed.

(** Every request changes the database within the privileges it needs. *)
Lemma exec_within now r d u d' : exec cfg now r d = Ok (u, d') -> within (needed (needs r)) d d'.
Proof.
  revert d u d'. change (preserves (within (needed (needs r))) (exec cfg now r)).
  destruct r; cbn [exec]; try (apply preserves_void; [apply _|]).
  - apply within_create.
  - apply within_consume.
  - apply within_nonce.
  - apply within_prunes.
  - apply within_prunes.
  - apply within_issue.
  - apply within_renew.
  - apply within_account.
  - apply within_dns_ready.
  - apply within_ensure_value.
  - apply within_reconciled.
  - apply within_expire_values.
  - apply within_allocate.
  - apply within_claim.
  - apply within_renew_tunnel.
  - apply within_expire_pending.
  - apply within_retire.
  - apply within_relocate.
  - apply within_jobs.
  - apply within_jobs.
  - unfold ensure_ct_source_tx. apply preserves_bind; [apply _|apply preserves_lift, _|auto with grants].
  - apply within_healthy.
  - apply within_delivered.
  - apply within_lag_alert.
  - apply within_delivered.
  - apply within_certificate.
  - apply within_observe.
Qed.
End requests.

(** ** Queries *)

(** The databases agree on every table [G] may read. *)
Record agree (G : Need -> bool) (d d' : Db) : Prop := {
  ag_installations : G (NSelect T_installations) = true -> d_installations d = d_installations d';
  ag_credentials : G (NSelect T_scoped_bearer_credentials) = true -> d_credentials d = d_credentials d';
  ag_leases : G (NSelect T_tunnel_leases) = true -> d_leases d = d_leases d';
  ag_challenge_values : G (NSelect T_challenge_values) = true -> d_challenge_values d = d_challenge_values d';
  ag_challenge_state : G (NSelect T_challenge_state) = true -> d_challenge_state d = d_challenge_state d';
  ag_outbox : G (NSelect T_outbox) = true -> d_outbox d = d_outbox d';
  ag_checkpoints : G (NSelect T_ct_feed_checkpoints) = true -> ct_checkpoints (d_ct d) = ct_checkpoints (d_ct d');
  ag_alerts : G (NSelect T_ct_alerts) = true -> ct_alerts (d_ct d) = ct_alerts (d_ct d');
  ag_health : G (NSelect T_ct_health_alerts) = true -> ct_health_alerts (d_ct d) = ct_health_alerts (d_ct d')
}.

Definition Answer (q : Query) : Type :=
  match q with
  | QAdminPublicKey _ => result StoreError (option (list byte))
  | QAuthenticateBearer _ _ _ => option Z
  | QAuthenticateBearerWithState _ _ _ => option (Z * AllocationState)
  | QHostname _ | QRetiredHostname _ => option string
  | QAllocationStatus _ => option Allocation
  | QDnsIdentity _ => option (string * string * string)
  | QChallengeValueReady _ _ _ => result StoreError bool
  | QChallengeTarget _ => Z * list string
  | QClaimJob _ _ _ => option OutboxRow
  | QTunnelIsCurrent _ _ _ => bool
  | QExpiredPending _ | QLapsedInstallations _ => list Uuid
  | QCtCheckpoint _ => result StoreError (option Z)
  | QPendingCtAlerts _ _ => result StoreError (list CtAlert)
  | QPendingCtLagAlerts _ _ => result StoreError (list CtLagAlert)
  | QCtFeedLagSeconds _ => option Z
  end.

Section queries.
Context {Cr : Crypto} (now : Z).

Definition answer (q : Query) (d : Db) : Answer q :=
  match q with
  | QAdminPublicKey id => admin_public_key id d
  | QAuthenticateBearer id scope bearer => authenticate_bearer now id scope bearer d
  | QAuthenticateBearerWithState id scope bearer => authenticate_bearer_with_state now id scope bearer d
  | QHostname id => hostname_of id d
  | QRetiredHostname id => retired_hostname id d
  | QAllocationStatus id => allocation_status id d
  | QDnsIdentity id => dns_identity id d
  | QChallengeValueReady id txt revision => challenge_value_ready now id txt revision d
  | QChallengeTarget id => challenge_target id d
  | QClaimJob placement scope locked => select_job now placement scope locked d
  | QTunnelIsCurrent id gateway_id generation => lease_is_current now id gateway_id generation d
  | QExpiredPending limit => expired_pending now limit d
  | QLapsedInstallations limit => lapsed_installations now limit d
  | QCtCheckpoint source => ct_checkpoint source d
  | QPendingCtAlerts source limit => pending_ct_alerts source limit d
  | QPendingCtLagAlerts source limit => pending_ct_lag_alerts source limit d
  | QCtFeedLagSeconds source => ct_feed_lag_seconds now source d
  end.

(** The answer depends only on the tables the query selects from. *)
Lemma answer_frame q d d' : agree (needed (query_needs q)) d d' -> answer q d = answer q d'.
Proof.
  intros [Hi Hk Hl Hv Hs Hx Hp Ha Hh]. destruct q; cbn [answer];
    unfold admin_public_key, authenticate_bearer, authenticate_bearer_with_state, best_generation, hostname_of,
      retired_hostname, allocation_status, dns_identity, select_installation, challenge_value_ready, is_live,
      challenge_target, values_of, select_job, due, at_placement, lease_is_current, current_lease, expired_pending,
      lapsed_installations, ct_checkpoint, pending_ct_alerts, pending_ct_lag_alerts, ct_feed_lag_seconds, checkpoints;
    rewrite ?Hi, ?Hk, ?Hl, ?Hv, ?Hs, ?Hx, ?Hp, ?Ha, ?Hh by (vm_compute; reflexivity); reflexivity.
Qed.
End queries.

(** ** Roles *)

(** The methods each service calls; [Relocate] is the operator's tool, which
    connects as the owner of the schema. *)
Definition issues (role : Role) (r : Request) : bool :=
  match r with
  | ClaimTunnel _ _ _ | RenewTunnel _ _ _ => bool_decide (role = GatewayRole)
  | MarkDnsReady _ => bool_decide (role = DnsServingRole)
  | MarkChallengeReconciled _ _ => bool_decide (role = DnsChallengeRole)
  | CompleteJob _ | DeferJob _ => bool_decide (role ∈ [DnsServingRole; DnsChallengeRole])
  | EnsureCtSource _ | MarkCtFeedHealthy _ _ | MarkCtAlertDelivered _ | QueueCtLagAlert _
  | MarkCtLagAlertDelivered _ | ObserveCt _ _ _ _ => bool_decide (role = CtRole)
  | Relocate _ _ _ => false
  | _ => bool_decide (role = ApiRole)
  end.

Definition asks (role : Role) (q : Query) : bool :=
  match q with
  | QAuthenticateBearer _ _ _ | QTunnelIsCurrent _ _ _ => bool_decide (role = GatewayRole)
  | QHostname _ => bool_decide (role = GatewayRole)
  | QDnsIdentity _ | QClaimJob _ _ _ | QRetiredHostname _ => bool_decide (role ∈ [DnsServingRole; DnsChallengeRole])
  | QChallengeTarget _ => bool_decide (role = DnsChallengeRole)
  | QCtCheckpoint _ | QPendingCtAlerts _ _ | QPendingCtLagAlerts _ _ | QCtFeedLagSeconds _ => bool_decide (role = CtRole)
  | QAdminPublicKey _ | QAuthenticateBearerWithState _ _ _ | QAllocationStatus _ | QChallengeValueReady _ _ _
  | QExpiredPending _ | QLapsedInstallations _ => bool_decide (role = ApiRole)
  end.

Lemma forall_granted role ns n : forallb (granted role) ns = true -> needed ns n = true -> granted role n = true.
Proof.
  unfold needed. rewrite bool_decide_eq_true. intros Hall Hn. rewrite forallb_forall in Hall.
  apply Hall. by apply list_elem_of_In.
Qed.

Lemma issued_granted role r : issues role r = true -> forallb (granted role) (needs r) = true.
Proof. destruct role, r; cbn [issues]; intros Hi; first [discriminate Hi | vm_compute; reflexivity]. Qed.

Lemma asked_granted role q : asks role q = true -> forallb (granted role) (query_needs q) = true.
Proof. destruct role, q; cbn [asks]; intros Hi; first [discriminate Hi | vm_compute; reflexivity]. Qed.

Lemma connects_granted role : forallb (granted role) connect_needs = true.
Proof. destruct role; vm_compute; reflexivity. Qed.

Section role_requests.
Context {Cr : Crypto} {B32 : Base32} (cfg : StoreConfig) (role : Role).

Lemma request_within now r d u d' :
  issues role r = true -> exec cfg now r d = Ok (u, d') -> within (granted role) d d'.
Proof.
  intros Hi Hx%exec_within. eapply within_mono; [|exact Hx]. intros n. apply forall_granted. by apply issued_granted.
Qed.

(** A method whose commits are those of a request of the role. *)
Lemma method_within {A} (m : Z -> Tx A) r :
  issues role r = true -> (forall now d a d', m now d = Ok (a, d') -> exec cfg now r d = Ok (tt, d')) ->
  forall now, preserves (within (granted role)) (m now).
Proof. intros Hi Hm now d a d' Hx%Hm. by eapply request_within. Qed.
End role_requests.
