(* ===== verification/RoleEffects.v ===== *)
(** * Each service stays within the grants of its role

    Walking the code of every service: a run changes the database only within
    the privileges its login role is granted, interleaved with whatever the
    other processes do. [R] is any preorder that contains the changes of the
    role and that the others keep. *)

From Stdlib Require Import Ascii String Strings.Byte.
From stdpp Require Import base strings list gmap relations.
From S2P Require Import Prelude Protocol Db Witness Store StoreCredentials StoreChallenges StoreLifecycle StoreBootstrap.
From S2P Require Import StoreOutbox StoreCt StoreHistory Grants ReceiptSigner ControlApi ControlLogic Sweeper.
From S2P Require Import Gateway GatewayTasks GatewayProperties Dns Observer DnsWorker CtWorker.

(** ** The gateway *)
Section gateway.
Context {Cr : Crypto} {B32 : Base32} (cfg : StoreConfig) (uuid_parse_str : string -> option Uuid) (gateway_id : string).
Context (R : Db -> Db -> Prop) `{!PreOrder R} (own : forall d d', within (granted GatewayRole) d d' -> R d d').
Context (e : Env) (others : forall n g, R (g_db g) (g_db (e_others e n g))).

Definition gw_keeps {A} (m : GwM A) : Prop := forall s, R (g_db s.2) (g_db (m e s).2.2).

Lemma gk_ret {A} (a : A) : gw_keeps (mret a).
Proof. by intros s. Qed.
Lemma gk_fail {A} err : gw_keeps (fail (A := A) err).
Proof. by intros s. Qed.
Lemma gk_gets {A} (f : Gw -> A) : gw_keeps (gets f).
Proof. by intros s. Qed.
Lemma gk_update f : (forall g, g_db (f g) = g_db g) -> gw_keeps (update f).
Proof. intros Hf s. cbn. by rewrite Hf. Qed.
Lemma gk_yield : gw_keeps yield.
Proof. intros s. apply others. Qed.
Lemma gk_respond : gw_keeps respond.
Proof. by intros s. Qed.
Lemma gk_bind {A B} (m : GwM A) (f : A -> GwM B) : gw_keeps m -> (forall a, gw_keeps (f a)) -> gw_keeps (m ≫= f).
Proof.
  intros Hm Hf s. unfold mbind, gw_bind. specialize (Hm s). destruct (m e s) as [[a|err] s1]; [|exact Hm].
  etrans; [exact Hm|apply Hf].
Qed.
Lemma gk_releasing {A} f (m : GwM A) : (forall g, g_db (f g) = g_db g) -> gw_keeps m -> gw_keeps (releasing f m).
Proof.
  intros Hf Hm s. unfold releasing. specialize (Hm s). destruct (m e s) as [[a|err] s1]; [exact Hm|]. cbn. by rewrite Hf.
Qed.
Lemma gk_store {A} (m : Z -> Tx A) r : issues GatewayRole r = true ->
  (forall now d a d', m now d = Ok (a, d') -> exec cfg now r d = Ok (tt, d')) -> gw_keeps (store_tx m).
Proof.
  intros Hr Hm s. unfold store_tx. cbv zeta. pose proof (others s.1 s.2) as Ho.
  destruct (e_store e s.1); [| exact Ho |];
    (destruct (m _ _) as [[a d']|err] eqn:Hx; [|exact Ho]; etrans; [exact Ho|]; cbn;
     apply own; eapply (method_within cfg GatewayRole); [exact Hr|exact Hm|exact Hx]).
Qed.
Lemma gk_read {A} (f : Z -> Db -> A) : gw_keeps (store_read f).
Proof.
  intros s. unfold store_read, store_tx. cbv zeta. pose proof (others s.1 s.2) as Ho.
  destruct (e_store e s.1); [| exact Ho |]; cbn; exact Ho.
Qed.
Lemma gk_claim id ttl : gw_keeps (store_tx (fun now => claim_tunnel_tx now id gateway_id ttl)).
Proof. apply (gk_store _ (ClaimTunnel id gateway_id ttl)); [done|]. intros. by eapply void_run. Qed.
Lemma gk_renew tunnel : gw_keeps (renew_lifecycle gateway_id tunnel).
Proof.
  intros s. unfold renew_lifecycle.
  pose proof (gk_store (fun now => renew_tunnel_tx now (t_id tunnel) gateway_id (t_generation tunnel))
    (RenewTunnel (t_id tunnel) gateway_id (t_generation tunnel)) eq_refl ltac:(intros; by eapply void_run) s) as Hk.
  by destruct (store_tx _ e s) as [[|] s1].
Qed.

Ltac gw_walk := repeat (cbv beta zeta; lazymatch goal with
  | |- gw_keeps (_ ≫= _) => apply gk_bind; [|intros ?]
  | |- gw_keeps (releasing _ _) => apply gk_releasing; [done|]
  | |- gw_keeps (update _) => apply gk_update; intros; by repeat case_match
  | |- gw_keeps (match _ with _ => _ end) => case_match
  | |- gw_keeps _ => first [ apply gk_ret | apply gk_fail | apply gk_gets | apply gk_yield | apply gk_respond
      | apply gk_read | apply gk_claim | apply gk_renew | assumption ]
  end).

Lemma gk_post_tunnel h local : gw_keeps (post_tunnel uuid_parse_str gateway_id h local).
Proof.
  unfold post_tunnel, bearer_valid, acquire_lifecycle, claim_and_install, install_tunnel. gw_walk.
Qed.

Lemma gk_connect h : gw_keeps (connect uuid_parse_str gateway_id h).
Proof.
  unfold connect, attach_valid, bearer_valid, tunnel_current, claim_ticket, finish_claim. gw_walk.
Qed.

Lemma gk_serve events authenticated local :
  gw_keeps (serve_control_connection uuid_parse_str gateway_id events authenticated local).
Proof.
  revert authenticated local. induction events as [|event events IH]; intros authenticated local; cbn [serve_control_connection]; [apply gk_ret|].
  destruct event; gw_walk; try apply gk_post_tunnel; try apply gk_connect; try apply IH; gw_walk.
Qed.

Lemma gk_lifecycle host tunnel actions : gw_keeps (tunnel_lifecycle gateway_id host tunnel actions).
Proof.
  induction actions as [|[action sent] actions IH]; cbn [tunnel_lifecycle]; unfold lifecycle_turn, lifecycle_end; gw_walk.
Qed.

Lemma gk_task task : gw_keeps (run_task uuid_parse_str gateway_id task).
Proof.
  destruct task; cbn [run_task].
  - unfold control_connection. gw_walk. intros s. cbv beta.
    pose proof (gk_serve events false MAX_TUNNEL_LIFECYCLES_PER_CONNECTION s) as Hs.
    destruct (serve_control_connection _ _ _ _ _ _ _) as [served s1]. etrans; [exact Hs|apply others].
  - unfold browser_connection, request_stream, tunnel_current, open_ticket, remove_ticket. gw_walk.
  - apply gk_lifecycle.
Qed.
End gateway.

(** ** Transactions on the world *)
Section world.
Context {St3 : S3} (R : Db -> Db -> Prop) `{!PreOrder R}.

Lemma run_tx_keeps {A} ae (m : Tx A) w : preserves R m -> R (w_db w) (w_db (run_tx ae m w).2).
Proof.
  intros Hm. destruct (run_tx ae m w) as [res w'] eqn:Hr. cbn. apply run_tx_db in Hr as [->|[a Ha]]; [done|by eapply Hm].
Qed.

Lemma exec_tx_keeps {A} (m : Tx A) w : preserves R m -> R (w_db w) (w_db (exec_tx m w).2).
Proof. intros Hm. unfold exec_tx. destruct (m (w_db w)) as [[a d]|err] eqn:Hx; cbn; [by eapply Hm|done]. Qed.

Lemma sweep_keeps round ids n count w :
  (forall n id w, R (w_db w) (w_db (round n id w).2)) -> R (w_db w) (w_db (sweep round n ids count w).2).
Proof.
  intros Hr. revert n count w. induction ids as [|id ids IH]; intros n count w; cbn [sweep]; [done|].
  specialize (Hr n id w) as Hr1. destruct (round n id w) as [[b|err] w1]; cbn in *; [|done]. etrans; [exact Hr1|apply IH].
Qed.
End world.

(** ** The control API *)
Section api.
Context {St3 : S3} {Cr : Crypto} {Sg : Signing} {Sd : Serde} {B32 : Base32} {HexC : Hex}.
Context (uuid_parse_str : string -> option Uuid) (st : AppState).
Context (R : Db -> Db -> Prop) `{!PreOrder R} (own : forall d d', within (granted ApiRole) d d' -> R d d').

Lemma api_method {A} (m : Z -> Tx A) r : issues ApiRole r = true ->
  (forall now d a d', m now d = Ok (a, d') -> exec (st_config st) now r d = Ok (tt, d')) -> forall now, preserves R (m now).
Proof. intros Hr Hm now d a d' Hx. apply own. by eapply (method_within (st_config st) ApiRole). Qed.

Section handlers.
Context (e : ApiEnv) (others : forall n s, R (api_db s) (api_db (n_others e n s))).

Definition ap_keeps {A} (m : ApM A) : Prop := forall s, R (api_db s.2) (api_db (m e s).2.2).

Lemma ak_ret {A} (a : A) : ap_keeps (mret a).
Proof. by intros s. Qed.
Lemma ak_lift {A} (r : result ApiError A) : ap_keeps (ap_lift r).
Proof. by intros s. Qed.
Lemma ak_some {A} err (o : option A) : ap_keeps (ap_some err o).
Proof. by intros s. Qed.
Lemma ak_reject b err : ap_keeps (ap_reject b err).
Proof. by intros s. Qed.
Lemma ak_now : ap_keeps now_ms.
Proof. by intros s. Qed.
Lemma ak_nonce : ap_keeps random_nonce.
Proof. by intros s. Qed.
Lemma ak_sign message : ap_keeps (sign_receipt st message).
Proof. intros s. apply others. Qed.
Lemma ak_query {A} on_error (f : Z -> Db -> result StoreError A) : ap_keeps (query on_error f).
Proof. intros s. apply others. Qed.
Lemma ak_bind {A B} (m : ApM A) (f : A -> ApM B) : ap_keeps m -> (forall a, ap_keeps (f a)) -> ap_keeps (m ≫= f).
Proof.
  intros Hm Hf s. unfold mbind, ap_bind. specialize (Hm s). destruct (m e s) as [[a|err] s1]; [|exact Hm].
  etrans; [exact Hm|apply Hf].
Qed.
Lemma ak_transact {A} on_error r (f : AckEnv -> Z -> World -> result StoreError A * World) :
  (forall ae now w, R (w_db w) (w_db (f ae now w).2)) -> ap_keeps (transact on_error r f).
Proof.
  intros Hf s. unfold transact. cbv zeta. pose proof (others s.1 s.2) as Ho.
  specialize (Hf (n_ack e s.1) (p_now (n_others e s.1 s.2)) (p_world (n_others e s.1 s.2))).
  destruct (f _ _ _) as [res w]. destruct (n_fault e s.1) as [[]|]; cbn; [exact Ho|by etrans..].
Qed.
Lemma ak_ack {A} on_error r (m : Z -> Tx A) : issues ApiRole r = true ->
  (forall now d a d', m now d = Ok (a, d') -> exec (st_config st) now r d = Ok (tt, d')) ->
  ap_keeps (transact on_error r (ack_tx m)).
Proof. intros Hr Hm. apply ak_transact. intros ae now w. unfold ack_tx. apply run_tx_keeps; [done|]. by apply (api_method _ r). Qed.

Lemma ak_consume_nonce id nonce :
  ap_keeps (transact only_unavailable (ConsumeNonce id nonce) (fun _ now w => consume_nonce now id nonce w)).
Proof.
  apply ak_transact. intros ae now w. unfold consume_nonce, consume_bootstrap_challenge. apply exec_tx_keeps; [done|].
  apply (api_method (fun now => consume_nonce_tx now id nonce) (ConsumeNonce id nonce)); [done|]. intros. by eapply void_run.
Qed.
Lemma ak_consume_challenge nonce source :
  ap_keeps (transact only_unavailable (ConsumeBootstrapChallenge nonce source) (fun _ now w => consume_bootstrap_challenge now nonce source w)).
Proof.
  apply ak_transact. intros ae now w. unfold consume_nonce, consume_bootstrap_challenge. apply exec_tx_keeps; [done|].
  apply (api_method (fun now => consume_bootstrap_challenge_tx now nonce source) (ConsumeBootstrapChallenge nonce source)); [done|].
  intros. by eapply void_run.
Qed.
Lemma ak_create nonce source :
  ap_keeps (transact only_unavailable (CreateBootstrapChallenge nonce source) (fun ae now w => create_bootstrap_challenge ae now nonce source w)).
Proof.
  apply ak_transact. intros ae now w. unfold create_bootstrap_challenge.
  assert (R (w_db w) (w_db (run_tx ae (create_bootstrap_challenge_tx now nonce source) w).2)).
  { apply run_tx_keeps; [done|]. apply (api_method (fun now => create_bootstrap_challenge_tx now nonce source) (CreateBootstrapChallenge nonce source)); [done|].
    intros. by eapply void_run. }
  by repeat case_match.
Qed.
Lemma ak_allocate op key : ap_keeps (allocate st op key).
Proof.
  intros s. unfold allocate.
  apply (ak_ack conflict_or_unavailable (Allocate op key (st_placement st) (n_uuid e s.1) (n_label e s.1))
    (fun now => allocate_tx now op key (st_placement st) (n_uuid e s.1) (n_label e s.1))); [done|]. intros. by eapply void_run.
Qed.

Ltac ap_walk := repeat (cbv beta zeta; lazymatch goal with
  | |- ap_keeps (_ ≫= _) => apply ak_bind; [|intros ?]
  | |- ap_keeps (transact _ _ (ack_tx _)) => apply ak_ack; [done|first [by intros ? ? [] ? ?|intros; by eapply void_run]]
  | |- ap_keeps (match _ with _ => _ end) => case_match
  | |- ap_keeps _ => first [ apply ak_ret | apply ak_lift | apply ak_some | apply ak_reject | apply ak_now | apply ak_nonce
      | apply ak_sign | apply ak_query | apply ak_consume_nonce | apply ak_consume_challenge | apply ak_create
      | apply ak_allocate | assumption ]
  end).

Lemma ak_handle request : ap_keeps (handle uuid_parse_str st request).
Proof.
  destruct request; cbn [handle]; unfold challenge, enroll, issue_credential, renew_credential, register_acme_account,
    installation_status, retire_installation, record_certificate, ensure_dns_challenge, dns_challenge_ready,
    authorize_admin, authenticate_dns; ap_walk.
Qed.
End handlers.
End api.

(** ** The sweeper *)
Section sweeper.
Context {St3 : S3} {Cr : Crypto} {B32 : Base32} (cfg : StoreConfig).
Context (R : Db -> Db -> Prop) `{!PreOrder R} (own : forall d d', within (granted ApiRole) d d' -> R d d').

Lemma sweep_method {A} now (m : Tx A) r : issues ApiRole r = true -> exec cfg now r = void m -> preserves R m.
Proof. intros Hr Heq d a d' Hx. apply own, (request_within cfg _ now r d tt); [done|]. rewrite Heq. by eapply void_run. Qed.

Lemma prune_keeps ae on oa now1 now2 limit w :
  (forall w, R (w_db w) (w_db (on w))) -> (forall w, R (w_db w) (w_db (oa w))) ->
  R (w_db w) (w_db (prune_bootstrap_and_nonces ae on oa now1 now2 limit w).2).
Proof.
  intros Hon Hoa. unfold prune_bootstrap_and_nonces. case_match; [done|].
  pose proof (exec_tx_keeps R _ w (sweep_method now1 (prune_challenges_tx now1 limit) (PruneChallenges limit) eq_refl eq_refl)) as H1.
  destruct (exec_tx _ w) as [[challenges|] w1]; [|done].
  pose proof (exec_tx_keeps R _ (on w1) (sweep_method now2 (prune_nonces_tx now2 limit) (PruneNonces limit) eq_refl eq_refl)) as H2.
  cbn in H1. destruct (exec_tx _ (on w1)) as [nonces w2]. cbn in H2.
  assert (R (w_db w) (w_db w2)) as H3 by (etrans; [exact H1|]; etrans; [apply Hon|exact H2]).
  destruct nonces; [|done].
  destruct (acknowledge ae (oa w2)) as [ack w3] eqn:Ha. apply acknowledge_db in Ha. cbn. rewrite Ha. etrans; [exact H3|apply Hoa].
Qed.

Lemma pending_keeps ae others now times limit w :
  (forall n w, R (w_db w) (w_db (others n w))) -> R (w_db w) (w_db (expire_pending_allocations ae others now times limit w).2).
Proof.
  intros Ho. unfold expire_pending_allocations. case_match; [done|]. apply sweep_keeps; [done|]. intros n id w1.
  etrans; [apply (Ho n)|]. generalize (others n w1). clear w1. intros w1. unfold expire_pending_round.
  pose proof (run_tx_keeps R ae _ w1 (sweep_method (times n) (expire_pending_tx (times n) id) (ExpirePending id) eq_refl eq_refl)).
  by repeat case_match.
Qed.

Lemma values_keeps ae others now times limit w :
  (forall n w, R (w_db w) (w_db (others n w))) -> R (w_db w) (w_db (expire_challenge_values ae others now times limit w).2).
Proof.
  intros Ho. unfold expire_challenge_values. case_match; [done|]. apply sweep_keeps; [done|]. intros n id w1.
  etrans; [apply (Ho n)|]. apply run_tx_keeps; [done|]. by apply (sweep_method (times n) _ (ExpireChallengeValues id)).
Qed.

Lemma sweeper_keeps ae s w : (forall point w, R (w_db w) (w_db (sw_others s point w))) -> R (w_db w) (w_db (sweeper_turn ae s w)).
Proof.
  intros Ho. unfold sweeper_turn.
  etrans; [apply (Ho BeforePending)|]. etrans; [apply pending_keeps; intros n; apply (Ho (BeforePendingRound n))|].
  etrans; [apply (Ho BeforeValues)|]. etrans; [apply values_keeps; intros n; apply (Ho (BeforeValuesRound n))|].
  etrans; [apply (Ho BeforeChallenges)|]. apply prune_keeps; apply Ho.
Qed.
End sweeper.

(** ** The DNS workers *)
Definition dns_role (scope : DnsJobScope) : Role :=
  match scope with Serving => DnsServingRole | Challenge => DnsChallengeRole end.

Section dns.
Context {St3 : S3} {Cr : Crypto} {B32 : Base32} {Zone : Type} {Pr : Provider Zone} (cfg : StoreConfig) (scope : DnsJobScope).
Context (R : Db -> Db -> Prop) `{!PreOrder R} (own : forall d d', within (granted (dns_role scope)) d d' -> R d d').
Abbreviation wk_db s := (w_db (k_world s)).
Context (e : WkEnv (Zone := Zone)) (others : forall n s, R (wk_db s) (wk_db (v_others e n s))).

Definition wk_keeps {A} (m : WkM A) : Prop := forall s, R (wk_db s.2) (wk_db (m e s).2.2).

Lemma wk_ret_keeps {A} (a : A) : wk_keeps (mret a).
Proof. by intros s. Qed.
Lemma wk_bind_keeps {A B} (m : WkM A) (f : A -> WkM B) : wk_keeps m -> (forall a, wk_keeps (f a)) -> wk_keeps (m ≫= f).
Proof.
  intros Hm Hf s. unfold mbind, wk_bind. specialize (Hm s). destruct (m e s) as [[a|err] s1]; [|exact Hm].
  etrans; [exact Hm|apply Hf].
Qed.
Lemma wk_call_keeps {A} (f : WkEnv -> nat -> Wk -> result StoreError A * World) :
  (forall n s, R (wk_db s) (w_db (f e n s).2)) -> wk_keeps (store_call f).
Proof.
  intros Hf s. unfold store_call. cbv zeta. pose proof (others s.1 s.2) as Ho. destruct (v_fault e s.1); [exact Ho|].
  specialize (Hf s.1 (v_others e s.1 s.2)). destruct (f _ _ _) as [r w]. cbn in *. by etrans.
Qed.
Lemma wk_get_keeps {A} (f : Db -> A) : wk_keeps (store_get f).
Proof. by apply wk_call_keeps. Qed.
Lemma verify_keeps ae w : R (w_db w) (w_db (verify_integrity ae w).2).
Proof. destruct (verify_integrity ae w) as [ok w1] eqn:Hv. apply acknowledge_db in Hv. cbn. by rewrite Hv. Qed.
Lemma wk_integrity_keeps : wk_keeps integrity.
Proof. apply wk_call_keeps. intros n s. apply verify_keeps. Qed.
Lemma wk_commit_keeps {A} (m : Z -> Tx A) r : issues (dns_role scope) r = true ->
  (forall now d a d', m now d = Ok (a, d') -> exec cfg now r d = Ok (tt, d')) -> wk_keeps (commit m).
Proof.
  intros Hr Hm. apply wk_call_keeps. intros n s. apply run_tx_keeps; [done|]. intros d a d' Hx.
  apply own. by eapply (method_within cfg).
Qed.
Lemma wk_provider_keeps c : wk_keeps (provider_call c).
Proof. intros s. unfold provider_call. cbv zeta. destruct (run_call c _) as [r p]. apply others. Qed.
Lemma wk_observe_keeps m : wk_keeps (observe m).
Proof. intros s. unfold observe. destruct (m _ _ _) as [r n]. apply others. Qed.

Ltac wk_walk := repeat (cbv beta zeta; lazymatch goal with
  | |- wk_keeps (_ ≫= _) => apply wk_bind_keeps; [|intros ?]
  | |- wk_keeps (match _ with _ => _ end) => case_match
  | |- wk_keeps (commit _) => fail
  | |- wk_keeps _ => first [ apply wk_ret_keeps | apply wk_get_keeps | apply wk_integrity_keeps | apply wk_provider_keeps
      | apply wk_observe_keeps ]
  end).

(** The job's kind fits the scope, so the worker commits what its role may. *)
Lemma wk_process_keeps placement ingress job : wk_keeps (process scope placement ingress job).
Proof.
  unfold process. destruct (negb (job_allowed scope (x_kind job))) eqn:Ha; [by intros s|].
  case_bool_decide as Hp; [|case_bool_decide as Hc; [|repeat case_bool_decide; unfold process_remove, fenced_call; wk_walk]].
  - unfold process_publish, fenced_call. wk_walk. apply (wk_commit_keeps _ (MarkDnsReady (x_installation_id job))); [|by intros ? ? [] ? ?].
    rewrite Hp in Ha. by destruct scope.
  - unfold process_reconcile, fenced_call. wk_walk.
    eapply (wk_commit_keeps _ (MarkChallengeReconciled (x_installation_id job) _)); [|intros; by eapply void_run].
    rewrite Hc in Ha. by destruct scope.
Qed.

Lemma wk_record_keeps (m : Z -> Z -> Tx unit) r job : issues (dns_role scope) r = true ->
  (forall now d a d', m now (x_id job) d = Ok (a, d') -> exec cfg now r d = Ok (tt, d')) -> wk_keeps (record m job).
Proof.
  intros Hr Hm. apply wk_call_keeps. intros n s. unfold record_attempt. pose proof (verify_keeps (v_ack e n) (k_world s)) as Hv.
  destruct (verify_integrity _ _) as [[u|] w1]; [|exact Hv]. etrans; [exact Hv|]. apply run_tx_keeps; [done|]. intros d a d' Hx.
  apply own. by eapply (method_within cfg _ (fun now => m now (x_id job))).
Qed.

Lemma wk_turn_keeps placement ingress s : R (wk_db s.2) (wk_db (turn scope placement ingress e s).2.2).
Proof.
  unfold turn. assert (wk_keeps (claim scope placement)) as Hclaim.
  { apply wk_call_keeps. intros n s1. unfold claim_job. destruct (select_job _ _ _ _ _); [|done].
    destruct (acknowledge _ _) as [ack w1] eqn:Ha. apply acknowledge_db in Ha. cbn. by rewrite Ha. }
  specialize (Hclaim s). destruct (claim scope placement e s) as [[[job|]|err] [n1 s1]]; [|exact Hclaim..].
  pose proof (wk_process_keeps placement ingress job (n1, set_held (Some (x_installation_id job)) s1)) as Hp.
  destruct (process _ _ _ _ _ _) as [r s2]. set (done := match r with Ok b => b | Err _ => false end).
  assert (wk_keeps (record (if done then complete_tx else defer_tx) job)) as Hr.
  { destruct done; [apply (wk_record_keeps _ (CompleteJob (x_id job)))|apply (wk_record_keeps _ (DeferJob (x_id job)))];
      try (by destruct scope); by intros ? ? [] ? ?. }
  specialize (Hr s2). destruct (record _ job e s2) as [r' [n3 s3]]. cbn in *. etrans; [exact Hclaim|]. by etrans.
Qed.

Lemma wk_run_keeps turns placement ingress s : R (wk_db s.2) (wk_db (run turns scope placement ingress e s).2).
Proof.
  revert s. induction turns as [|turns IH]; intros s; cbn [run]; [done|]. etrans; [apply wk_turn_keeps|apply IH].
Qed.
End dns.

(** ** The CT worker *)
Section ct.
Context {St3 : S3} {Cr : Crypto} {B32 : Base32} (cfg : StoreConfig).
Context (R : Db -> Db -> Prop) `{!PreOrder R} (own : forall d d', within (granted CtRole) d d' -> R d d').
Context (e : CtEnv) (others : forall n s, R (ct_db s) (ct_db (u_others e n s))).

Definition ct_keeps {A} (m : CtM A) : Prop := forall s, R (ct_db s.2) (ct_db (m e s).2.2).

Lemma ck_ret {A} (a : A) : ct_keeps (mret a).
Proof. by intros s. Qed.
Lemma ck_some {A} err (o : option A) : ct_keeps (ct_some err o).
Proof. by intros s. Qed.
Lemma ck_query {A} (f : Db -> result StoreError A) : ct_keeps (ct_query f).
Proof. intros s. apply others. Qed.
Lemma ck_fetch w checkpoint : ct_keeps (fetch w checkpoint).
Proof. intros s. apply others. Qed.
Lemma ck_post w p : ct_keeps (post_alert w p).
Proof. intros s. unfold post_alert. cbv zeta. pose proof (others s.1 s.2) as Ho. repeat case_match; exact Ho. Qed.
Lemma ck_bind {A B} (m : CtM A) (f : A -> CtM B) : ct_keeps m -> (forall a, ct_keeps (f a)) -> ct_keeps (m ≫= f).
Proof.
  intros Hm Hf s. unfold mbind, ct_bind. specialize (Hm s). destruct (m e s) as [[a|err] s1]; [|exact Hm].
  etrans; [exact Hm|apply Hf].
Qed.
Lemma ck_commit {A} (m : Z -> Tx A) r : issues CtRole r = true ->
  (forall now d a d', m now d = Ok (a, d') -> exec cfg now r d = Ok (tt, d')) -> ct_keeps (ct_commit m).
Proof.
  intros Hr Hm s. unfold ct_commit. cbv zeta. pose proof (others s.1 s.2) as Ho.
  pose proof (run_tx_keeps R (u_ack e s.1) (m (t_now (u_others e s.1 s.2))) (t_world (u_others e s.1 s.2))
    (fun d a d' Hx => own d d' (method_within cfg CtRole m r Hr Hm _ d a d' Hx))) as Hrun.
  destruct (run_tx _ _ _) as [res w]. destruct (u_fault e s.1) as [[]|]; cbn in *; [exact Ho|by etrans..].
Qed.

Ltac ct_walk := repeat (cbv beta zeta; lazymatch goal with
  | |- ct_keeps (_ ≫= _) => apply ck_bind; [|intros ?]
  | |- ct_keeps (match _ with _ => _ end) => case_match
  | |- ct_keeps _ => first [ apply ck_ret | apply ck_some | apply ck_query | apply ck_fetch | apply ck_post | assumption ]
  end).

Lemma ck_post_all {A} w (post : A -> Post) (mark : A -> Z -> Tx unit) alerts :
  (forall a, ct_keeps (ct_commit (mark a))) -> ct_keeps (post_all w post mark alerts).
Proof. intros Hm. induction alerts as [|alert alerts IH]; cbn [post_all]; ct_walk. apply Hm. Qed.

Lemma ck_observe w entries next : ct_keeps (observe_entries w entries next).
Proof.
  revert next. induction entries as [|entry entries IH]; intros next; cbn [observe_entries]; ct_walk; [|apply IH].
  apply (ck_commit _ (ObserveCt (w_source w) (en_position entry) (en_hostname entry) (en_key_fingerprint entry))); [done|].
  intros; by eapply void_run.
Qed.

Lemma ck_tick w : ct_keeps (tick w).
Proof.
  unfold tick, deliver_alerts. ct_walk; try apply ck_observe; try (apply ck_post_all; intros alert).
  - by apply (ck_commit _ (MarkCtFeedHealthy (w_source w) z)); [|intros ? ? [] ? ?].
  - by apply (ck_commit _ (QueueCtLagAlert (w_source w))); [|intros ? ? [] ? ?].
  - by apply (ck_commit _ (MarkCtAlertDelivered (ca_id alert))); [|intros ? ? [] ? ?].
  - by apply (ck_commit _ (MarkCtLagAlertDelivered (cl_id alert))); [|intros ? ? [] ? ?].
Qed.

Lemma ck_main once waits w s : R (ct_db s.2) (ct_db (ct_main once waits w e s).2.2).
Proof.
  unfold ct_main. assert (ct_keeps (ct_commit (fun now => ensure_ct_source_tx now (w_source w)))) as Hc
    by (by apply (ck_commit _ (EnsureCtSource (w_source w))); [|intros ? ? [] ? ?]).
  specialize (Hc s). destruct (ct_commit _ e s) as [[u|] s1]; [|exact Hc]. etrans; [exact Hc|]. clear Hc s. cbn.
  revert s1. induction waits as [|signalled waits IH]; intros s; cbn [ct_loop]; [done|].
  pose proof (ck_tick w s) as Ht. destruct (tick w e s) as [r s1].
  pose proof (ck_query (fun d => Ok (ct_feed_lag_seconds (t_now (u_others e s1.1 s1.2)) (w_source w) d)) s1) as Hl.
  unfold lag_gauge. destruct (ct_query _ e s1) as [lag s2]. cbn in *.
  assert (R (ct_db s.2) (ct_db s2.2)) as Hs by (by etrans).
  destruct (once || signalled); [exact Hs|]. specialize (IH s2). destruct (ct_loop _ _ _ _ s2) as [rounds s3]. by etrans.
Qed.
End ct.

(** ** The services and their roles *)

(** The runs of the service that logs in as a role, while other processes
    change the database as [P] allows. *)
Inductive runs_as {St3 : S3} {Cr : Crypto} {Sg : Signing} {Sd : Serde} {B32 : Base32} {HexC : Hex}
    (uuid_parse_str : string -> option Uuid) (P : Db -> Db -> Prop) : Role -> Db -> Db -> Prop :=
| as_gateway gateway_id task e s :
    (forall n g, P (g_db g) (g_db (e_others e n g))) ->
    runs_as uuid_parse_str P GatewayRole (g_db s.2) (g_db (run_task uuid_parse_str gateway_id task e s).2.2)
| as_api st request e s :
    (forall n s, P (api_db s) (api_db (n_others e n s))) ->
    runs_as uuid_parse_str P ApiRole (api_db s.2) (api_db (handle uuid_parse_str st request e s).2.2)
| as_sweeper ae s w :
    (forall point w, P (w_db w) (w_db (sw_others s point w))) ->
    runs_as uuid_parse_str P ApiRole (w_db w) (w_db (sweeper_turn ae s w))
| as_dns (Zone : Type) (Pr : Provider Zone) scope placement ingress (e : WkEnv (Zone := Zone)) turns s :
    (forall n s, P (w_db (k_world s)) (w_db (k_world (v_others e n s)))) ->
    runs_as uuid_parse_str P (dns_role scope) (w_db (k_world s.2)) (w_db (k_world (run turns scope placement ingress e s).2))
| as_ct once waits w e s :
    (forall n s, P (ct_db s) (ct_db (u_others e n s))) ->
    runs_as uuid_parse_str P CtRole (ct_db s.2) (ct_db (ct_main once waits w e s).2.2).

(** The changes of a role, and those of the others. *)
Definition by_role (P : Db -> Db -> Prop) (role : Role) (d d' : Db) : Prop := P d d' \/ within (granted role) d d'.

(** C17: a service never needs more than its database grants. Whatever a
    gateway task, an API handler, the sweeper, a DNS worker or the CT worker
    does, with any failures of the store and while other processes change the
    database as [P] allows, every change of its own is one that the table and
    column privileges of its login role allow. *)
Theorem services_within_grants {St3 : S3} {Cr : Crypto} {Sg : Signing} {Sd : Serde} {B32 : Base32} {HexC : Hex}
    uuid_parse_str (P : Db -> Db -> Prop) role d d' :
  runs_as uuid_parse_str P role d d' -> rtc (by_role P role) d d'.
Proof.
  intros Hr. set (R := rtc (by_role P role)).
  assert (forall d d', within (granted role) d d' -> R d d') as Hown by (intros; apply rtc_once; by right).
  assert (forall d d', P d d' -> R d d') as Hothers by (intros; apply rtc_once; by left).
  destruct Hr as [gateway_id task e s Ho|st request e s Ho|ae s w Ho|Zone Pr scope placement ingress e turns s Ho|once waits w e s Ho].
  - by apply (gk_task connect_config uuid_parse_str gateway_id R Hown e (fun n g => Hothers _ _ (Ho n g)) task s).
  - by apply (ak_handle uuid_parse_str st R Hown e (fun n g => Hothers _ _ (Ho n g)) request s).
  - apply (sweeper_keeps connect_config R Hown). intros point w1. apply Hothers, Ho.
  - by apply (wk_run_keeps connect_config scope R Hown e (fun n g => Hothers _ _ (Ho n g))).
  - by apply (ck_main connect_config R Hown e (fun n g => Hothers _ _ (Ho n g))).
Qed.

(** ** What only the API can change *)
Section closed.
Context (G : Need -> bool) {K V : Type} (t : Table) (columns : list (Column V)).

(** Nothing of the table may be changed. *)
Definition closed : bool :=
  negb (G (NInsert t)) && negb (G (NDelete t)) && forallb (fun c => negb (G (NUpdate t (c_name c)))) columns.

Lemma row_within_closed r r' :
  row_within G t columns r r' -> forallb (fun c => negb (G (NUpdate t (c_name c)))) columns = true ->
  Forall (fun c => c_get c r = c_get c r') columns.
Proof.
  intros Hr Hc. rewrite forallb_forall in Hc. unfold row_within in Hr. rewrite Forall_forall in Hr |- *.
  intros c Hin. destruct (Hr c Hin) as [|Hu]; [done|].
  specialize (Hc c (proj1 (list_elem_of_In _ _) Hin)). by rewrite Hu in Hc.
Qed.

Lemma table_closed (m m' : K -> option V) :
  (forall r r', Forall (fun c => c_get c r = c_get c r') columns -> r = r') ->
  closed = true -> table_within G t columns m m' -> forall k, m k = m' k.
Proof.
  unfold closed. intros Hcomplete Hc Hm k. to_prop. specialize (Hm k).
  destruct (m k) as [r|], (m' k) as [r'|]; try done; try congruence.
  destruct Hm as [[Hi _]|Hr]; [congruence|]. f_equal. apply Hcomplete. by apply row_within_closed.
Qed.
End closed.

(** The columns of a row determine it. *)
Ltac complete_columns := let r := fresh in let r' := fresh in let H := fresh in
  intros r r' H; repeat (apply Forall_cons in H as [? H]); destruct r, r'; cbn in *; congruence.

(** The identity of an installation: everything of its row but the generation,
    which a gateway may update, and the state, which the serving DNS worker
    may. *)
Definition identity_of (row : Installation) : string * list byte * string * option string * Z * option Z :=
  (i_hostname row, i_admin_public_key row, i_placement row, i_acme_account_uri row, i_created_at row, i_retired_at row).

Record same_authority (d d' : Db) : Prop := {
  sa_identities : identity_of <$> d_installations d = identity_of <$> d_installations d';
  sa_reservations : d_reservations d = d_reservations d';
  sa_operations : d_operations d = d_operations d';
  sa_nonces : d_nonces d = d_nonces d';
  sa_bootstrap : d_bootstrap d = d_bootstrap d';
  sa_credentials : d_credentials d = d_credentials d';
  sa_challenge_values : d_challenge_values d = d_challenge_values d';
  sa_challenge_revisions : s_revision <$> d_challenge_state d = s_revision <$> d_challenge_state d';
  sa_certificates : d_certificates d = d_certificates d';
  sa_audit : d_audit d `prefix_of` d_audit d'
}.

#[global] Instance same_authority_preorder : PreOrder same_authority.
Proof.
  split; [by intros d; split|]. intros a b c [] []. split; try congruence. by etrans.
Qed.

Lemma lookup_prefix {A} (l l' : list A) : (forall n : nat, l !! n = None \/ l !! n = l' !! n) -> l `prefix_of` l'.
Proof.
  revert l'. induction l as [|x l IH]; intros l' Hl; [by apply prefix_nil|].
  destruct (Hl 0%nat) as [|H0]; [done|]. destruct l' as [|y l']; [done|]. cbn in H0. simplify_eq.
  apply prefix_cons, IH. intros n. apply (Hl (S n)).
Qed.

Lemma audit_append_only G l l' : G (NDelete T_security_audit) = false ->
  forallb (fun c => negb (G (NUpdate T_security_audit (c_name c)))) audit_columns = true ->
  table_within G T_security_audit audit_columns (fun n : nat => l !! n) (fun n => l' !! n) -> l `prefix_of` l'.
Proof.
  intros Hd Hu Hw. apply lookup_prefix. intros n. specialize (Hw n). cbn in Hw.
  destruct (l !! n) as [r|]; [right|by left]. destruct (l' !! n) as [r'|]; [|congruence].
  destruct Hw as [[_ ?]|Hr%row_within_closed]; [congruence| |done]. f_equal. revert Hr. revert r r'. complete_columns.
Qed.

(** A part of the rows no granted update reaches. *)
Lemma projection_closed {K V X} `{Countable K} G t (columns : list (Column V)) (f : V -> X) (m m' : gmap K V) :
  negb (G (NInsert t)) && negb (G (NDelete t)) = true ->
  (forall r r', row_within G t columns r r' -> f r = f r') ->
  table_within G t columns (fun k => m !! k) (fun k => m' !! k) -> f <$> m = f <$> m'.
Proof.
  intros Hc Hf Hw. to_prop. apply map_eq. intros k. rewrite !lookup_fmap. specialize (Hw k). cbn in Hw.
  destruct (m !! k) as [r|], (m' !! k) as [r'|]; try done; try congruence.
  destruct Hw as [[? _]|Hr]; [congruence|]. cbn. by rewrite (Hf _ _ Hr).
Qed.

(** The columns of the projection are not granted to the role. *)
Ltac kept_columns := eapply projection_closed; [ | |eassumption]; [reflexivity|];
  let r := fresh in let r' := fresh in let Hr := fresh in
  intros r r' Hr; clear - Hr; unfold row_within in Hr; repeat (apply Forall_cons in Hr as [? Hr]);
  repeat match goal with H : _ \/ granted _ _ = true |- _ =>
    destruct H as [H|H]; [|vm_compute in H; first [discriminate H|clear H]] end;
  unfold identity_of; cbn in *; congruence.

Lemma role_keeps_authority role d d' : role <> ApiRole -> within (granted role) d d' -> same_authority d d'.
Proof.
  intros Hne []. split; try (apply map_eq; eapply table_closed; [| |eassumption]; [complete_columns|by destruct role]).
  - destruct role; [|done|..]; kept_columns.
  - destruct role; [|done|..]; kept_columns.
  - eapply audit_append_only; [..|eassumption]; by destruct role.
Qed.

(** The columns left to one role each. *)
Record same_columns (acts : Role -> Prop) (d d' : Db) : Prop := {
  sc_generations : ~ acts GatewayRole -> i_generation <$> d_installations d = i_generation <$> d_installations d';
  sc_states : ~ acts DnsServingRole -> i_state <$> d_installations d = i_state <$> d_installations d';
  sc_ready : ~ acts DnsChallengeRole -> d_challenge_state d = d_challenge_state d'
}.

#[global] Instance same_columns_preorder acts : PreOrder (same_columns acts).
Proof. split; [done|]. intros a b c [g1 t1 r1] [g2 t2 r2]. split; intros Hn; [rewrite g1|rewrite t1|rewrite r1]; auto. Qed.

Lemma role_keeps_columns (acts : Role -> Prop) role d d' :
  role <> ApiRole -> acts role -> within (granted role) d d' -> same_columns acts d d'.
Proof.
  intros Hne Ha []. split; intros Hn.
  - destruct role; [done|done|..]; kept_columns.
  - destruct role; [|done|done|..]; kept_columns.
  - destruct role; [|done| |done|]; (apply map_eq; eapply table_closed; [| |eassumption]; [complete_columns|reflexivity]).
Qed.

(** C18: only the API creates or revokes authority. However the gateways, the
    DNS workers and the CT worker use their database roles, running any
    statements those grants allow, in any order, no installation appears or
    disappears, and the hostname, administration key, placement, ACME account
    and creation and retirement times of each stay as they are; no bearer is
    issued, extended or revoked; no operation, nonce, enrollment challenge,
    challenge value, challenge revision or expected certificate is added,
    changed or removed; and the audit log only grows. Of the rest, the
    generation of an installation changes only if a gateway takes part, its
    state only if the serving DNS worker does, and the revision observed for
    a challenge set only if the challenge DNS worker does. *)
Theorem only_api_grants_authority (acts : Role -> Prop) d d' :
  ~ acts ApiRole -> rtc (fun a b => exists role, acts role /\ within (granted role) a b) d d' ->
  same_authority d d' /\ same_columns acts d d'.
Proof.
  intros Hapi. induction 1 as [|d d1 d2 (role & Ha & Hw) _ [IHa IHc]]; [done|].
  assert (role <> ApiRole) as Hne by (by intros ->). split.
  - etrans; [by eapply role_keeps_authority|exact IHa].
  - etrans; [by eapply role_keeps_columns|exact IHc].
Qed.
