(* ===== verification/Deployment.v ===== *)
(** * Deployment: packaging/iam and packaging/renew-control-certificate.sh

    The Route 53 policies of the two DNS workers, as a guard in front of the
    service, and the certificate renewal hook, as a run of shell commands any
    of which may fail. The workers never meet a denial, a policy confines what
    its credentials could write, and the published certificate is always a
    complete and verified one. *)

From Stdlib Require Import Ascii String Strings.Byte.
From stdpp Require Import base strings list gmap.
From S2P Require Import Prelude Protocol Db Witness Store StoreOutbox Dns Observer DnsWorker Route53.

(** ** IAM policies *)

(** [StringLike]: [*] is any text and [?] any one character. *)
Fixpoint like (pattern s : list byte) : bool :=
  match pattern with
  | [] => match s with [] => true | _ => false end
  | b :: pattern' =>
      if Byte.eqb b Byte.x2a
      then (fix star (s : list byte) : bool := like pattern' s || match s with [] => false | _ :: s' => star s' end) s
      else match s with
           | [] => false
           | c :: s' => (Byte.eqb b Byte.x3f || Byte.eqb b c) && like pattern' s'
           end
  end.

Record Policy := { po_types : list RrType; po_actions : list ChangeAction; po_names : string }.

Definition dns_serving_policy : Policy :=
  {| po_types := [RrA; RrAaaa; RrCaa]; po_actions := [Upsert; Delete]; po_names := "*.relay.bloom.directory" |}.
Definition dns_challenge_policy : Policy :=
  {| po_types := [RrTxt]; po_actions := [Upsert; Delete]; po_names := "_acme-challenge.*.relay.bloom.directory" |}.

#[global] Instance ChangeAction_eq_dec : EqDecision ChangeAction.
Proof. solve_decision. Defined.

(** The name as the condition sees it: in lowercase, without the final dot. *)
Definition normalized_name (r : ResourceRecordSet) : string := str_map to_ascii_lowercase (trim_dots (rs_name r)).

Definition change_allowed (p : Policy) (c : Change) : bool :=
  bool_decide (rs_type (ch_set c) ∈ po_types p) && bool_decide (ch_action c ∈ po_actions p)
  && like (str_bytes (po_names p)) (str_bytes (normalized_name (ch_set c))).

(** [ForAllValues] over the batch; [Null: false] asks for at least one change. *)
Definition batch_allowed (p : Policy) (cs : list Change) : bool :=
  negb (Nat.eqb (List.length cs) 0) && forallb (change_allowed p) cs.

(** The service as the holder of a policy's credentials sees it: a batch it
    does not allow is refused. Listing the zone is allowed. *)
Definition guarded (p : Policy) (api : Route53Api) : Route53Api := {|
  hosted_zone := @hosted_zone api;
  record_sets := @record_sets api;
  list_resource_record_sets := @list_resource_record_sets api;
  change_resource_record_sets cs z :=
    if batch_allowed p cs then @change_resource_record_sets api cs z else (false, z)
|}.

Definition policy_of (scope : DnsJobScope) : Policy :=
  match scope with Serving => dns_serving_policy | Challenge => dns_challenge_policy end.

(** The calls a worker of the scope makes. *)
Definition call_in_scope (scope : DnsJobScope) (c : Call) : bool :=
  match scope, c with
  | Serving, (PublishName _ | RetireName _) | Challenge, (SetChallenge _ _ | RetireChallenge _) => true
  | _, _ => false
  end.

(** *** Patterns *)
Definition literal (l : list byte) : bool := forallb (fun b => negb (Byte.eqb b Byte.x2a)) l.

Lemma byte_eqb_refl b : Byte.eqb b b = true.
Proof. by destruct b. Qed.

Lemma like_literal l pattern s : literal l = true -> like (l ++ pattern) (l ++ s) = like pattern s.
Proof.
  induction l as [|b l IH]; intros Hl; [done|]. cbn [literal forallb] in Hl. to_prop. cbn [app like].
  destruct (Byte.eqb b Byte.x2a); [done|]. rewrite byte_eqb_refl, orb_true_r. by apply IH.
Qed.

Lemma like_star pattern x s : like pattern s = true -> like (Byte.x2a :: pattern) (x ++ s) = true.
Proof.
  intros Hs. cbn [like]. change (Byte.eqb Byte.x2a Byte.x2a) with true. cbv iota. induction x as [|c x IH]; cbn [app].
  - destruct s; by rewrite Hs.
  - apply orb_true_iff. by right.
Qed.

Lemma like_suffix suffix x : literal suffix = true -> like (Byte.x2a :: suffix) (x ++ suffix) = true.
Proof.
  intros Hl. apply like_star. pose proof (like_literal suffix [] [] Hl) as Hs. by rewrite !app_nil_r in Hs.
Qed.

(** *** Names of the relay *)
Lemma hostname_shape h : hostname_checked h = Ok tt ->
  exists label, h = label +:+ HOSTNAME_SUFFIX /\ bytes_all (fun b => is_ascii_lowercase b || is_ascii_digit b) label = true.
Proof.
  unfold hostname_checked. destruct (validate_hostname h) as [[]|] eqn:Hv; [|done]. intros _. unfold validate_hostname in Hv.
  destruct (strip_suffix HOSTNAME_SUFFIX h) as [label|] eqn:Hs; [|done]. exists label. split; [by apply strip_suffix_Some|].
  destruct (_ || _) eqn:Hl; [done|]. to_prop. done.
Qed.

Lemma lowercase_fixed l : forallb (fun b => is_ascii_lowercase b || is_ascii_digit b) l = true -> to_ascii_lowercase <$> l = l.
Proof.
  induction l as [|b l IH]; cbn; [done|]. intros [Hb Hl]%andb_true_iff. f_equal; [|by apply IH].
  revert Hb. destruct b; vm_compute; done.
Qed.

(** A prefix in lowercase before a hostname of the relay. *)
Lemma normalized_hostname prefix h n t values trimmed :
  str_map to_ascii_lowercase prefix = prefix -> hostname_checked h = Ok tt -> trim_dots trimmed = prefix +:+ h ->
  normalized_name {| rs_name := trimmed; rs_type := t; rs_ttl := n; rs_values := values |} = prefix +:+ h.
Proof.
  intros Hp (label & -> & Hl)%hostname_shape Ht. unfold normalized_name. cbn [rs_name]. rewrite Ht. unfold str_map in *.
  rewrite !str_bytes_app, !fmap_app. apply (f_equal str_bytes) in Hp. rewrite str_bytes_string in Hp. rewrite Hp, (lowercase_fixed (str_bytes label)) by exact Hl.
  change (to_ascii_lowercase <$> str_bytes HOSTNAME_SUFFIX) with (str_bytes HOSTNAME_SUFFIX). rewrite <- !str_bytes_app. apply string_str_bytes.
Qed.

Lemma serving_name h : hostname_checked h = Ok tt -> like (str_bytes (po_names dns_serving_policy)) (str_bytes h) = true.
Proof. intros (label & -> & _)%hostname_shape. rewrite str_bytes_app. by apply (like_suffix (str_bytes HOSTNAME_SUFFIX)). Qed.

Lemma challenge_name_like h : hostname_checked h = Ok tt ->
  like (str_bytes (po_names dns_challenge_policy)) (str_bytes ("_acme-challenge." +:+ h)) = true.
Proof.
  intros (label & -> & _)%hostname_shape. rewrite !str_bytes_app.
  change (str_bytes (po_names dns_challenge_policy)) with (str_bytes "_acme-challenge." ++ Byte.x2a :: str_bytes HOSTNAME_SUFFIX).
  rewrite like_literal by done. by apply like_suffix.
Qed.

(** *** The workers are never denied *)
Section guarded.
Context (api : Route53Api).

Lemma guarded_apply p cs z : batch_allowed p cs = true -> @apply (guarded p api) cs z = @apply api cs z.
Proof. intros Hb. unfold apply. cbn. by rewrite Hb. Qed.

Lemma deletions_allowed h kinds existing : hostname_checked h = Ok tt -> (forall t, kinds t = true -> t ∈ po_types dns_serving_policy) ->
  forallb (change_allowed dns_serving_policy) (deletions h kinds existing) = true.
Proof.
  intros Hh Hk. apply forallb_forall. intros c Hc%list_elem_of_In. unfold deletions in Hc.
  apply list_elem_of_fmap in Hc as (r & -> & [[Hn Ht] _]%list_elem_of_filter). unfold change_allowed. cbn [ch_set ch_action].
  destruct r as [n t ttl values]. cbn in Hn, Ht. rewrite (normalized_hostname "" h) by (done || by apply Hn). rewrite serving_name by done.
  rewrite bool_decide_eq_true_2 by (by apply Hk). done.
Qed.

Lemma upsert_allowed h t ttl values : hostname_checked h = Ok tt -> t ∈ po_types dns_serving_policy ->
  change_allowed dns_serving_policy {| ch_action := Upsert; ch_set := {| rs_name := h; rs_type := t; rs_ttl := ttl; rs_values := values |} |} = true.
Proof.
  intros Hh Ht. unfold change_allowed. cbn [ch_set ch_action rs_type]. rewrite bool_decide_eq_true_2 by done.
  rewrite (normalized_hostname "" h); [by rewrite serving_name|done..|]. by apply (trim_dots_hostname "").
Qed.

Lemma upserts_allowed h t values cs : hostname_checked h = Ok tt -> t ∈ po_types dns_serving_policy ->
  upsert_if_any h t values = Ok cs -> forallb (change_allowed dns_serving_policy) cs = true.
Proof.
  intros Hh Ht. unfold upsert_if_any, change. destruct (Nat.eqb _ _); [by intros [= <-]|]. cbn. intros [= <-]. cbn [forallb]. by rewrite upsert_allowed.
Qed.

Lemma guarded_publish records z :
  @r53_publish_name (guarded dns_serving_policy api) records z = @r53_publish_name api records z.
Proof.
  unfold r53_publish_name, mbind, r53_bind, r53_lift, list_sets. cbv zeta. cbn [list_resource_record_sets guarded].
  destruct (validate_records records) as [[]|] eqn:Hv; [|done]. destruct (list_resource_record_sets _ _ _) as [[existing|] z1]; cbn [ok_or]; [|done].
  destruct (upsert_if_any _ RrA _) as [a|] eqn:Ha; [|done]. destruct (upsert_if_any _ RrAaaa _) as [aaaa|] eqn:Haaaa; [|done].
  destruct (caa_values _) as [values|] eqn:Hcaa; [|done]. destruct (change _ _ _ _ _) as [caa|] eqn:Hc; [|done].
  assert (hostname_checked (nr_hostname records) = Ok tt) as Hh.
  { unfold validate_records in Hv. by destruct (hostname_checked _) as [[]|]. }
  apply (upserts_allowed _ _ _ _ Hh) in Ha, Haaaa; [|set_solver..].
  unfold change in Hc. destruct (Nat.eqb _ 0); [done|]. injection Hc as <-.
  apply guarded_apply. unfold batch_allowed. rewrite !forallb_app, Ha, Haaaa, deletions_allowed; [|done|].
  - cbn [forallb]. rewrite upsert_allowed by (done || set_solver). rewrite !length_app. cbn [List.length].
    destruct (List.length (deletions _ _ _)), (List.length a), (List.length aaaa); done.
  - intros t. unfold stale. intros Ht. destruct t; first [set_solver|by cbn in Ht].
Qed.

Lemma guarded_retire_name h z : @r53_retire_name (guarded dns_serving_policy api) h z = @r53_retire_name api h z.
Proof.
  unfold r53_retire_name, mbind, r53_bind, r53_lift, list_sets. cbn [list_resource_record_sets guarded].
  destruct (hostname_checked h) as [[]|] eqn:Hh; [|done]. destruct (list_resource_record_sets _ _ _) as [[existing|] z1]; cbn [ok_or]; [|done].
  pose proof (deletions_allowed h serving_type existing Hh) as Hd. destruct (deletions h serving_type existing) as [|c cs]; [done|].
  apply guarded_apply. unfold batch_allowed. rewrite Hd; [done|]. intros []; cbn; set_solver.
Qed.

Lemma txt_allowed h action ttl values trimmed : hostname_checked h = Ok tt -> trim_dots trimmed = "_acme-challenge." +:+ h ->
  batch_allowed dns_challenge_policy
    [{| ch_action := action; ch_set := {| rs_name := trimmed; rs_type := RrTxt; rs_ttl := ttl; rs_values := values |} |}] = true.
Proof.
  intros Hh Ht. unfold batch_allowed, change_allowed. cbn [List.length Nat.eqb negb forallb ch_set ch_action rs_type andb].
  rewrite (normalized_hostname "_acme-challenge." h), challenge_name_like by done. by destruct action.
Qed.

Lemma guarded_retire_challenge h z : @r53_retire_challenge (guarded dns_challenge_policy api) h z = @r53_retire_challenge api h z.
Proof.
  unfold r53_retire_challenge, mbind, r53_bind, r53_lift, list_sets. cbn [list_resource_record_sets guarded].
  destruct (challenge_name h) as [n|] eqn:Hn; [|done]. apply challenge_name_ok in Hn as [Hh ->].
  destruct (list_resource_record_sets _ _ _) as [[existing|] z1]; cbn [ok_or]; [|done].
  destruct (list_find _ _) as [[i r]|] eqn:Hf; [|done]. apply list_find_Some in Hf as (_ & [Hn Ht] & _). destruct r as [name t ttl values]. cbn in Hn, Ht. subst t.
  apply guarded_apply. by apply (txt_allowed h).
Qed.

Lemma guarded_set_challenge h values z : @r53_set_challenge (guarded dns_challenge_policy api) h values z = @r53_set_challenge api h values z.
Proof.
  unfold r53_set_challenge, mbind, r53_bind, r53_lift.
  destruct (challenge_name h) as [n|] eqn:Hn; [|done]. destruct (validate_challenge_values values); [|done].
  destruct values as [|v values]; [apply guarded_retire_challenge|]. unfold change. cbn [List.length Nat.eqb fmap list_fmap].
  apply challenge_name_ok in Hn as [Hh ->]. apply guarded_apply. apply (txt_allowed h); [done|]. by apply trim_dots_hostname.
Qed.

Lemma guarded_call scope c z : call_in_scope scope c = true ->
  @run_call (@hosted_zone api) (@route53_provider (guarded (policy_of scope) api)) c z = @run_call (@hosted_zone api) (@route53_provider api) c z.
Proof.
  destruct scope, c; try done; intros _; cbn [run_call publish_name set_challenge retire_name retire_challenge route53_provider policy_of].
  - apply guarded_publish.
  - apply guarded_retire_name.
  - apply guarded_set_challenge.
  - apply guarded_retire_challenge.
Qed.
End guarded.

(** *** A worker under its policy *)
Section worker.
Context {St3 : S3} (api : Route53Api) (scope : DnsJobScope).
Abbreviation Zone := (@hosted_zone api).
Abbreviation raw := (@route53_provider api).
Abbreviation under_policy := (@route53_provider (guarded (policy_of scope) api)).

Lemma wk_bind_ext {A B} (m m' : WkM (Zone := Zone) A) (f f' : A -> WkM B) e :
  (forall s, m e s = m' e s) -> (forall a s, f a e s = f' a e s) -> forall s, (m ≫= f) e s = (m' ≫= f') e s.
Proof. intros Hm Hf s. unfold mbind, wk_bind. rewrite Hm. destruct (m' e s) as [[a|err] s1]; [apply Hf|done]. Qed.

Lemma guarded_fenced c e s : call_in_scope scope c = true ->
  @fenced_call _ Zone under_policy c e s = @fenced_call _ Zone raw c e s.
Proof.
  intros Hc. unfold fenced_call. apply wk_bind_ext; [done|]. intros _. apply wk_bind_ext; [|done]. intros s1.
  unfold provider_call. cbv zeta. by rewrite (guarded_call api scope).
Qed.

Lemma guarded_process placement ingress job e s :
  @process _ Zone under_policy scope placement ingress job e s = @process _ Zone raw scope placement ingress job e s.
Proof.
  unfold process. destruct (negb (job_allowed scope (x_kind job))) eqn:Ha; [done|].
  case_bool_decide as Hp; [|case_bool_decide as Hc; [|case_bool_decide as Hr; [|case_bool_decide as Ht; [|done]]]];
    [rewrite Hp in Ha|rewrite Hc in Ha|rewrite Hr in Ha|rewrite Ht in Ha].
  - unfold process_publish. apply wk_bind_ext; [done|]. intros [[[hostname uri] at_]|] s1; [|done]. destruct (bool_decide (at_ = placement)); cbn [negb]; [|done]. cbv zeta.
    apply wk_bind_ext; [|done]. intros s2. apply guarded_fenced. by destruct scope.
  - unfold process_reconcile. apply wk_bind_ext; [done|]. intros [[[hostname uri] at_]|] s1; [|done]. destruct (bool_decide (at_ = placement)); cbn [negb]; [|done].
    apply wk_bind_ext; [done|]. intros target s2. apply wk_bind_ext; [|done]. intros s3. apply guarded_fenced. by destruct scope.
  - unfold process_remove. apply wk_bind_ext; [done|]. intros [hostname|] s1; [|done]. apply wk_bind_ext; [|done]. intros s2. apply guarded_fenced. by destruct scope.
  - unfold process_remove. apply wk_bind_ext; [done|]. intros [hostname|] s1; [|done]. apply wk_bind_ext; [|done]. intros s2. apply guarded_fenced. by destruct scope.
Qed.

Lemma guarded_run turns placement ingress e s :
  @run _ Zone under_policy turns scope placement ingress e s = @run _ Zone raw turns scope placement ingress e s.
Proof.
  revert s. induction turns as [|turns IH]; intros s; cbn [run]; [done|]. rewrite IH. f_equal. f_equal. unfold turn.
  destruct (claim scope placement e s) as [[[job|]|err] [n1 s1]]; [|done..]. by rewrite guarded_process.
Qed.
End worker.

(** *** What a policy confines *)
Lemma apply_batch_confined p cs m m' k :
  forallb (change_allowed p) cs = true -> apply_batch cs m = Some m' ->
  k.2 ∉ po_types p \/ like (str_bytes (po_names p)) (str_bytes (str_map to_ascii_lowercase k.1)) = false -> m' !! k = m !! k.
Proof.
  intros Hall Hb Hk. revert m Hb Hall. induction cs as [|c cs IH]; intros m Hb Hall; cbn in *; [by simplify_eq|].
  apply andb_true_iff in Hall as [Hc Hall]. apply bind_Some in Hb as (m1 & Hm1 & Hb). rewrite (IH _ Hb Hall).
  assert (set_key (ch_set c) <> k) as Hne.
  { intros <-. unfold change_allowed, normalized_name in Hc. to_prop. unfold set_key in Hk. cbn [fst snd] in Hk.
    destruct Hk as [Hk|Hk]; [done|]. congruence. }
  unfold apply_change in Hm1. destruct (ch_action c); [injection Hm1 as <-; by rewrite lookup_insert_ne|].
  case_decide; [|done]. injection Hm1 as <-. by rewrite lookup_delete_ne.
Qed.

(** C23: the Route 53 policies fit the workers. A DNS worker that holds the
    credentials of its scope's policy behaves, over any number of turns and
    whatever happens around it, exactly as one whose calls are never denied;
    and with those credentials nobody can change a record set of another type
    or outside the names of the policy: the challenge worker's can only touch
    TXT sets under [_acme-challenge], the serving worker's never a TXT set. *)
Theorem policy_fits_worker {St3 : S3} (api : Route53Api) {ApiL : @Route53Laws api} scope turns placement ingress
    (e : WkEnv (Zone := @hosted_zone api)) s cs z z' ok k :
  @run _ (@hosted_zone api) (@route53_provider (guarded (policy_of scope) api)) turns scope placement ingress e s =
    @run _ (@hosted_zone api) (@route53_provider api) turns scope placement ingress e s /\
  (@change_resource_record_sets (guarded (policy_of scope) api) cs z = (ok, z') ->
   k.2 ∉ po_types (policy_of scope) \/ like (str_bytes (po_names (policy_of scope))) (str_bytes (str_map to_ascii_lowercase k.1)) = false ->
   @record_sets api z' !! k = @record_sets api z !! k).
Proof.
  split; [apply guarded_run|]. cbn. destruct (batch_allowed (policy_of scope) cs) eqn:Hb; [|by intros [= <- <-]].
  unfold batch_allowed in Hb. apply andb_true_iff in Hb as [_ Hb]. intros Hc Hk. destruct ok.
  - by eapply apply_batch_confined, Hk; [|apply change_applies].
  - apply change_atomic in Hc as [->|Hc]; [done|]. by eapply apply_batch_confined, Hk.
Qed.

(** ** The certificate renewal hook *)

(** openssl on the bytes of a file. *)
Class Openssl := {
  x509_checkhost : list byte -> bool;
  x509_checkend : list byte -> bool;
  verify_server : list byte -> bool;
  x509_pubkey : list byte -> option (list byte);
  pkey_pubout : list byte -> option (list byte)
}.

(** [$root/tls]: the release directories with their files, and the link
    [current]. *)
Record TlsDir := { td_releases : gmap string (gmap string (list byte)); td_current : option string }.

(** Certbot's lineage, and what happens to the hook: its user, the lineage
    Certbot names, the fresh name of [mktemp], which commands succeed (a
    command that fails, or a signal before it), what a failed one leaves in
    the stage, and the services. *)
Record HookEnv := {
  hv_root : bool;
  hv_renewed_lineage : option string;
  hv_fullchain : list byte;
  hv_privkey : list byte;
  hv_stage : string;
  hv_prepared : bool;
  hv_ok : nat -> bool;
  hv_leaves : nat -> gmap string (list byte) -> gmap string (list byte);
  hv_restart : bool;
  hv_haproxy_active : bool;
  hv_haproxy_valid : bool;
  hv_haproxy_reload : bool
}.

Definition LINEAGE : string := "/etc/letsencrypt/live/relay-control.bloom.directory".

Section hook.
Context `{Openssl} (v : HookEnv).
Abbreviation stage := (hv_stage v).

Definition stage_files (t : TlsDir) : gmap string (list byte) := default ∅ (td_releases t !! stage).
Definition set_stage (files : gmap string (list byte)) (t : TlsDir) : TlsDir :=
  {| td_releases := <[stage := files]> (td_releases t); td_current := td_current t |}.
Definition write_file (name : string) (bytes : list byte) (t : TlsDir) : TlsDir :=
  set_stage (<[name := bytes]> (stage_files t)) t.

(** A command: [None] when it exits with an error. *)
Definition Command : Type := TlsDir -> option TlsDir.
Definition writes (name : string) (bytes : gmap string (list byte) -> option (list byte)) : Command := fun t =>
  b ← bytes (stage_files t); Some (write_file name b t).
Definition checks (p : gmap string (list byte) -> bool) : Command := fun t => if p (stage_files t) then Some t else None.
Definition on_file (name : string) (p : list byte -> bool) (files : gmap string (list byte)) : bool :=
  match files !! name with Some b => p b | None => false end.

(** The commands up to the publication, in the script's order. [ln] makes a
    link beside [current]; [mv -T] renames it over [current]. *)
Definition prepare_release : list Command := [
  writes "fullchain.pem" (fun _ => Some (hv_fullchain v));
  writes "privkey.pem" (fun _ => Some (hv_privkey v));
  checks (on_file "fullchain.pem" x509_checkhost);
  checks (on_file "fullchain.pem" x509_checkend);
  checks (on_file "fullchain.pem" verify_server);
  writes "cert-public.pem" (fun files => chain ← files !! "fullchain.pem"%string; x509_pubkey chain);
  writes "key-public.pem" (fun files => key ← files !! "privkey.pem"%string; pkey_pubout key);
  checks (fun files => bool_decide (files !! "cert-public.pem"%string = files !! "key-public.pem"%string));
  (fun t => Some (set_stage (delete "cert-public.pem"%string (delete "key-public.pem"%string (stage_files t))) t));
  writes "haproxy.pem" (fun files => chain ← files !! "fullchain.pem"%string; key ← files !! "privkey.pem"%string; Some (chain ++ key))].
Definition publish_release : list Command := [
  (fun t => Some t);
  (fun t => Some {| td_releases := td_releases t; td_current := Some stage |})].

(** [set -e]: the run ends at the first command that fails. *)
Fixpoint run_commands (cs : list Command) (n : nat) (t : TlsDir) : bool * TlsDir :=
  match cs with
  | [] => (true, t)
  | c :: cs =>
      match (if hv_ok v n then c t else None) with
      | Some t' => run_commands cs (S n) t'
      | None => (false, set_stage (hv_leaves v n (stage_files t)) t)
      end
  end.

(** [trap cleanup EXIT]. *)
Definition cleanup (t : TlsDir) : TlsDir :=
  if bool_decide (td_current t = Some stage) then t
  else {| td_releases := delete stage (td_releases t); td_current := td_current t |}.

(** The restarts at the end; each failure makes the status 1. *)
Definition restart_status : Z :=
  if hv_restart v && (negb (hv_haproxy_active v) || (hv_haproxy_valid v && hv_haproxy_reload v)) then 0 else 1.

(** [${RENEWED_LINEAGE:-$lineage}]: an empty variable counts as unset. *)
Definition renewed_lineage : string :=
  match hv_renewed_lineage v with
  | Some l => if bool_decide (l = ""%string) then LINEAGE else l
  | None => LINEAGE
  end.

Definition renew_hook (t : TlsDir) : Z * TlsDir :=
  if negb (hv_root v) then (1, t)
  else if negb (bool_decide (renewed_lineage = LINEAGE)) then (0, t)
  else if negb (hv_prepared v) then (1, t)
  else
    let t1 := set_stage ∅ t in
    let (ok, t2) := run_commands (prepare_release ++ publish_release) 0 t1 in
    (if ok then restart_status else 1, cleanup t2).

(** A release HAProxy, the API and the gateway can serve from: a certificate
    for the control name, with its key. *)
Definition complete_release (files : gmap string (list byte)) : Prop := exists chain key,
  files !! "fullchain.pem"%string = Some chain /\ files !! "privkey.pem"%string = Some key /\
  files !! "haproxy.pem"%string = Some (chain ++ key) /\
  x509_checkhost chain = true /\ x509_checkend chain = true /\ verify_server chain = true /\
  is_Some (x509_pubkey chain) /\ x509_pubkey chain = pkey_pubout key.

Definition served (t : TlsDir) : Prop := forall name, td_current t = Some name -> exists files, td_releases t !! name = Some files /\ complete_release files.

(** *** The hook is atomic *)
Definition others_kept (t t' : TlsDir) : Prop :=
  td_current t' = td_current t /\ forall name, name <> stage -> td_releases t' !! name = td_releases t !! name.

#[local] Instance others_kept_preorder : PreOrder others_kept.
Proof. split; [by intros t; split|]. intros a b c [? Hab] [? Hbc]. split; [congruence|]. intros name Hn. by rewrite Hbc, Hab. Qed.

Lemma set_stage_kept files t : others_kept t (set_stage files t).
Proof. split; [done|]. intros name Hn. cbn. by rewrite lookup_insert_ne. Qed.

Lemma stage_files_set files t : stage_files (set_stage files t) = files.
Proof. unfold stage_files, set_stage. cbn. by rewrite lookup_insert_eq. Qed.

Lemma prepare_kept : Forall (fun c : Command => forall t t', c t = Some t' -> others_kept t t') prepare_release.
Proof.
  assert (forall name bytes t t', writes name bytes t = Some t' -> others_kept t t') as Hw.
  { intros name bytes t t' (b & _ & [= <-])%bind_Some. apply set_stage_kept. }
  assert (forall p t t', checks p t = Some t' -> others_kept t t') as Hc.
  { intros p t t'. unfold checks. by destruct (p _); [intros [= <-]|]. }
  unfold prepare_release. repeat (apply Forall_cons_2; [first [apply Hw|apply Hc|intros t t' [= <-]; apply set_stage_kept]|]). apply Forall_nil_2.
Qed.

Lemma run_kept cs n t ok t' : Forall (fun c : Command => forall t t', c t = Some t' -> others_kept t t') cs ->
  run_commands cs n t = (ok, t') -> others_kept t t'.
Proof.
  intros Hcs. revert n t. induction Hcs as [|c cs Hc _ IH]; intros n t; cbn [run_commands]; [by intros [= _ <-]|].
  destruct (if hv_ok v n then c t else None) as [t1|] eqn:Hx.
  - intros Hr%IH. etrans; [|exact Hr]. destruct (hv_ok v n); [by apply Hc|done].
  - intros [= _ <-]. apply set_stage_kept.
Qed.

Lemma run_commands_app cs1 cs2 n t :
  run_commands (cs1 ++ cs2) n t =
  let (ok, t') := run_commands cs1 n t in if ok then run_commands cs2 (n + List.length cs1) t' else (false, t').
Proof.
  revert n t. induction cs1 as [|c cs1 IH]; intros n t; cbn [app run_commands List.length]; [by rewrite Nat.add_0_r|].
  destruct (if hv_ok v n then c t else None); [|done]. rewrite IH. by rewrite Nat.add_succ_r.
Qed.

(** One command of a run that went through. *)
Lemma run_step c cs n t t' : run_commands (c :: cs) n t = (true, t') -> exists t1, c t = Some t1 /\ run_commands cs (S n) t1 = (true, t').
Proof. cbn [run_commands]. destruct (hv_ok v n); [|done]. destruct (c t) as [t1|]; [eauto|done]. Qed.

Lemma writes_done name bytes t t' : writes name bytes t = Some t' ->
  exists b, bytes (stage_files t) = Some b /\ stage_files t' = <[name := b]> (stage_files t).
Proof. intros (b & Hb & [= <-])%bind_Some. exists b. split; [done|]. apply stage_files_set. Qed.
Lemma checks_done p t t' : checks p t = Some t' -> p (stage_files t) = true /\ t' = t.
Proof. unfold checks. by destruct (p _); [intros [= <-]|]. Qed.

Lemma prepared n t t' : run_commands prepare_release n t = (true, t') -> complete_release (stage_files t').
Proof.
  unfold prepare_release. intros Hr. apply run_step in Hr as (t1 & (c & [= <-] & F1)%writes_done & Hr).
  apply run_step in Hr as (t2 & (k & [= <-] & F2)%writes_done & Hr). rewrite F1 in F2.
  apply run_step in Hr as (t3 & [Hhost ->]%checks_done & Hr). apply run_step in Hr as (t4 & [Hend ->]%checks_done & Hr).
  apply run_step in Hr as (t5 & [Hver ->]%checks_done & Hr). apply run_step in Hr as (t6 & (cp & Hcp & F6)%writes_done & Hr).
  apply run_step in Hr as (t7 & (kp & Hkp & F7)%writes_done & Hr). apply run_step in Hr as (t8 & [Hcmp ->]%checks_done & Hr).
  apply run_step in Hr as (t9 & [= <-] & Hr). apply run_step in Hr as (t10 & (h & Hh & F10)%writes_done & Hr). injection Hr as <-.
  rewrite stage_files_set in Hh, F10. unfold on_file in *. rewrite F2 in Hhost, Hend, Hver, Hcp, F6. rewrite F6 in Hkp, F7. rewrite F7 in Hcmp, Hh, F10.
  clear F1 F2 F6 F7. simplify_map_eq. exists (hv_fullchain v), (hv_privkey v). rewrite F10. to_prop.
  split_and!; simplify_map_eq; try done; try congruence; by rewrite ?Hcp.
Qed.

Lemma cleaned t t1 : others_kept t t1 -> td_current t <> Some stage -> td_releases t !! stage = None -> cleanup t1 = t.
Proof.
  intros [Hc Hr] Hcur Hfresh. unfold cleanup. rewrite bool_decide_eq_false_2 by congruence. destruct t as [releases current]. cbn in *.
  f_equal; [|done]. apply map_eq. intros name. destruct (decide (name = stage)) as [->|Hn].
  - by rewrite lookup_delete_eq.
  - by rewrite lookup_delete_ne, Hr.
Qed.

(** C24: renewing the control certificate is atomic. Whichever command fails
    and between which commands a signal arrives, the published release
    afterwards is a complete one, the certificate of the control name with its own key; and
    either it is the release just prepared, or nothing has changed. A run for
    the control certificate's lineage that exits with success has published
    its release; a run for any other lineage changes nothing. *)
Theorem renewal_publishes_complete_release t code t' :
  served t -> td_releases t !! stage = None -> renew_hook t = (code, t') ->
  served t' /\ (td_current t' = Some stage \/ t' = t) /\
  (code = 0 -> renewed_lineage = LINEAGE -> td_current t' = Some stage) /\
  (renewed_lineage <> LINEAGE -> t' = t).
Proof.
  intros Hs Hfresh. assert (td_current t <> Some stage) as Hcur.
  { intros Hc. destruct (Hs _ Hc) as (files & Hl & _). congruence. }
  unfold renew_hook. destruct (hv_root v); cbn [negb]; [|by intros [= <- <-]; split_and!; [|right| |]].
  case_bool_decide as Hlin; cbn [negb]; [|by intros [= <- <-]; split_and!; [|right| |]].
  destruct (hv_prepared v); cbn [negb]; [|by intros [= <- <-]; split_and!; [|right| |]].
  rewrite run_commands_app. destruct (run_commands prepare_release 0 (set_stage ∅ t)) as [ok t1] eqn:Hp.
  assert (others_kept t t1) as Hk by (etrans; [apply (set_stage_kept ∅)|exact (run_kept _ _ _ _ _ prepare_kept Hp)]).
  destruct ok; cbn [publish_release run_commands].
  2: { intros [= <- <-]. rewrite (cleaned t) by done. split_and!; [done|by right|done|done]. }
  destruct (hv_ok v _).
  2: { intros [= <- <-]. rewrite (cleaned t) by (done || by etrans; [|apply set_stage_kept]). split_and!; [done|by right|done|done]. }
  destruct (hv_ok v _).
  2: { intros [= <- <-]. rewrite (cleaned t) by (done || by etrans; [|apply set_stage_kept]). split_and!; [done|by right|done|done]. }
  intros [= <- <-]. unfold cleanup. cbn [td_current]. rewrite bool_decide_eq_true_2 by done. cbn [td_current]. split_and!; [|by left|done|done].
  intros name [= <-]. apply prepared in Hp. unfold stage_files in Hp. cbn. destruct (td_releases t1 !! stage) as [files|]; [by exists files|].
  destruct Hp as (? & ? & Hx & _). cbn [default] in Hx. by apply lookup_empty_Some in Hx.
Qed.
End hook.
