(* ===== verification/Packaging.v ===== *)
(** * The packaged services: packaging/systemd and packaging/env

    The environments the units give their processes, as the example files and
    the Cloudflare drop-ins have them, run through the services' own start.
    On a host where the store opens, the credentials load and the addresses
    can be bound, every packaged service starts, and the services, the DNS
    workers and the front end agree on placement, addresses and ports. *)

From Stdlib Require Import Ascii String Strings.Byte.
From stdpp Require Import base strings list gmap.
From S2P Require Import Prelude Protocol Db Witness Store StoreOutbox ClientAddr Dns IpText Operations.
From S2P Require Import Cloudflare Route53 Observer DnsWorker ReceiptSigner Services ControlApi CtWorker.

(** ** Units *)
Definition Assignments : Type := list (string * string).

(** The [EnvironmentFile], the [Environment] lines and the names of the loaded
    credentials. *)
Record PackagedUnit := { pu_file : Assignments; pu_environment : Assignments; pu_credentials : list string }.

Definition assigned (name : string) (l : Assignments) : option string :=
  snd <$> (snd <$> list_find (fun a => a.1 = name) l).

(** systemd: a setting of the file overrides one of the unit. *)
Definition unit_var (u : PackagedUnit) (name : string) : EnvVar :=
  match assigned name (pu_file u) with
  | Some value => Value value
  | None => match assigned name (pu_environment u) with Some value => Value value | None => NotPresent end
  end.

(** [%d/name]: a file of the credentials directory. *)
Definition credential (d name : string) : string := d +:+ "/" +:+ name.

Definition witness_file : string := "/var/lib/bloom-relay/witness/revision".
Definition database_url (role : string) : string := "postgresql://" +:+ role +:+ "@localhost/relay?host=/run/postgresql".

Definition gateway_env : Assignments := [
  ("BLOOM_RELAY_DATABASE_URL", database_url "bloom-relay-gateway");
  ("BLOOM_RELAY_RESTORE_WITNESS_PATH", witness_file);
  ("BLOOM_RELAY_GATEWAY_ID", "shard-a");
  ("BLOOM_RELAY_INGRESS_BIND", "192.0.2.10:443");
  ("BLOOM_RELAY_TUNNEL_BIND", "127.0.0.1:18444");
  ("BLOOM_RELAY_METRICS_BIND", "127.0.0.1:19101");
  ("BLOOM_RELAY_HEALTH_BIND", "127.0.0.1:19201")]%string.
Definition gateway_unit (d : string) : PackagedUnit := {|
  pu_file := gateway_env;
  pu_environment := [("BLOOM_RELAY_CONTROL_CERT_PATH"%string, credential d "control-cert");
                     ("BLOOM_RELAY_CONTROL_KEY_PATH"%string, credential d "control-key")];
  pu_credentials := ["control-cert"; "control-key"]%string |}.

Definition api_env_file : Assignments := [
  ("BLOOM_RELAY_DATABASE_URL", database_url "bloom-relay-api");
  ("BLOOM_RELAY_RESTORE_WITNESS_PATH", witness_file);
  ("BLOOM_RELAY_CONTROL_BIND", "127.0.0.1:18443");
  ("BLOOM_RELAY_CONTROL_PROXY_PROTOCOL", "v2");
  ("BLOOM_RELAY_CONTROL_AUDIENCE", "relay-control.bloom.directory");
  ("BLOOM_RELAY_PLACEMENT", "shard-a");
  ("BLOOM_RELAY_METRICS_BIND", "127.0.0.1:19102");
  ("BLOOM_RELAY_HEALTH_BIND", "127.0.0.1:19202")]%string.
Definition api_unit (d : string) : PackagedUnit := {|
  pu_file := api_env_file;
  pu_environment := [("BLOOM_RELAY_MODE", "api")%string;
                     ("BLOOM_RELAY_CONTROL_CERT_PATH"%string, credential d "control-cert");
                     ("BLOOM_RELAY_CONTROL_KEY_PATH"%string, credential d "control-key");
                     ("BLOOM_RELAY_RECEIPT_KEY_PATH"%string, credential d "receipt-key")];
  pu_credentials := ["control-cert"; "control-key"; "receipt-key"]%string |}.

Definition dns_serving_env : Assignments := [
  ("BLOOM_RELAY_DATABASE_URL", database_url "bloom-relay-dns-serving");
  ("BLOOM_RELAY_RESTORE_WITNESS_PATH", witness_file);
  ("BLOOM_RELAY_PLACEMENT", "shard-a");
  ("BLOOM_RELAY_DNS_PROVIDER", "route53");
  ("BLOOM_RELAY_DNS_ZONE_ID", "ZREPLACEWITHDELEGATEDZONE");
  ("AWS_REGION", "us-east-1");
  ("BLOOM_RELAY_INGRESS_ADDRESSES", "192.0.2.10,2001:db8::10");
  ("BLOOM_RELAY_AUTHORITATIVE_ADDRESSES", "192.0.2.53");
  ("BLOOM_RELAY_METRICS_BIND", "127.0.0.1:19103");
  ("BLOOM_RELAY_HEALTH_BIND", "127.0.0.1:19203")]%string.
Definition dns_serving_unit (d : string) : PackagedUnit := {|
  pu_file := dns_serving_env;
  pu_environment := [("BLOOM_RELAY_MODE", "dns-serving")%string; ("AWS_SHARED_CREDENTIALS_FILE"%string, credential d "aws")];
  pu_credentials := ["aws"]%string |}.

Definition dns_challenge_env : Assignments := [
  ("BLOOM_RELAY_DATABASE_URL", database_url "bloom-relay-dns-challenge");
  ("BLOOM_RELAY_RESTORE_WITNESS_PATH", witness_file);
  ("BLOOM_RELAY_PLACEMENT", "shard-a");
  ("BLOOM_RELAY_DNS_PROVIDER", "route53");
  ("BLOOM_RELAY_DNS_ZONE_ID", "ZREPLACEWITHDELEGATEDZONE");
  ("AWS_REGION", "us-east-1");
  ("BLOOM_RELAY_INGRESS_ADDRESSES", "192.0.2.10,2001:db8::10");
  ("BLOOM_RELAY_AUTHORITATIVE_ADDRESSES", "192.0.2.53");
  ("BLOOM_RELAY_METRICS_BIND", "127.0.0.1:19104");
  ("BLOOM_RELAY_HEALTH_BIND", "127.0.0.1:19204")]%string.
Definition dns_challenge_unit (d : string) : PackagedUnit := {|
  pu_file := dns_challenge_env;
  pu_environment := [("BLOOM_RELAY_MODE", "dns-challenge")%string; ("AWS_SHARED_CREDENTIALS_FILE"%string, credential d "aws")];
  pu_credentials := ["aws"]%string |}.

(** The Cloudflare files, with the zone the operator fills in for the
    placeholder they ship with. *)
Definition shipped_zone : string := "REPLACE_WITH_CLOUDFLARE_ZONE_ID".
Definition dns_serving_cloudflare_env (zone : string) : Assignments := [
  ("BLOOM_RELAY_DATABASE_URL", database_url "bloom-relay-dns-serving");
  ("BLOOM_RELAY_RESTORE_WITNESS_PATH", witness_file);
  ("BLOOM_RELAY_PLACEMENT", "shard-a");
  ("BLOOM_RELAY_DNS_PROVIDER", "cloudflare");
  ("BLOOM_RELAY_DNS_ZONE_ID", zone);
  ("BLOOM_RELAY_INGRESS_ADDRESSES", "192.0.2.10");
  ("BLOOM_RELAY_AUTHORITATIVE_ADDRESSES", "192.0.2.53");
  ("BLOOM_RELAY_METRICS_BIND", "127.0.0.1:19103");
  ("BLOOM_RELAY_HEALTH_BIND", "127.0.0.1:19203")]%string.
Definition dns_challenge_cloudflare_env (zone : string) : Assignments := [
  ("BLOOM_RELAY_DATABASE_URL", database_url "bloom-relay-dns-challenge");
  ("BLOOM_RELAY_RESTORE_WITNESS_PATH", witness_file);
  ("BLOOM_RELAY_PLACEMENT", "shard-a");
  ("BLOOM_RELAY_DNS_PROVIDER", "cloudflare");
  ("BLOOM_RELAY_DNS_ZONE_ID", zone);
  ("BLOOM_RELAY_INGRESS_ADDRESSES", "192.0.2.10");
  ("BLOOM_RELAY_AUTHORITATIVE_ADDRESSES", "192.0.2.53");
  ("BLOOM_RELAY_METRICS_BIND", "127.0.0.1:19104");
  ("BLOOM_RELAY_HEALTH_BIND", "127.0.0.1:19204")]%string.

(** A drop-in: the empty assignments reset the lists of the unit. *)
Record DropIn := { di_file : Assignments; di_environment : Assignments; di_credentials : list string }.
Definition with_drop_in (i : DropIn) (u : PackagedUnit) : PackagedUnit :=
  {| pu_file := di_file i; pu_environment := di_environment i; pu_credentials := di_credentials i |}.
Definition dns_serving_drop_in (d zone : string) : DropIn := {|
  di_file := dns_serving_cloudflare_env zone;
  di_environment := [("BLOOM_RELAY_MODE", "dns-serving")%string; ("BLOOM_RELAY_CLOUDFLARE_TOKEN_FILE"%string, credential d "cloudflare")];
  di_credentials := ["cloudflare"]%string |}.
Definition dns_challenge_drop_in (d zone : string) : DropIn := {|
  di_file := dns_challenge_cloudflare_env zone;
  di_environment := [("BLOOM_RELAY_MODE", "dns-challenge")%string; ("BLOOM_RELAY_CLOUDFLARE_TOKEN_FILE"%string, credential d "cloudflare")];
  di_credentials := ["cloudflare"]%string |}.

Definition ct_env_file : Assignments := [
  ("BLOOM_RELAY_DATABASE_URL", database_url "bloom-relay-ct");
  ("BLOOM_RELAY_RESTORE_WITNESS_PATH", witness_file);
  ("BLOOM_RELAY_CT_SOURCE", "reviewed-log-adapter");
  ("BLOOM_RELAY_CT_FEED_ORIGIN", "https://ct-feed.internal.example");
  ("BLOOM_RELAY_CT_ALERT_URL", "https://alerts.internal.example/v1/alerts");
  ("BLOOM_RELAY_METRICS_BIND", "127.0.0.1:19105");
  ("BLOOM_RELAY_HEALTH_BIND", "127.0.0.1:19205")]%string.
Definition ct_unit (d : string) : PackagedUnit := {|
  pu_file := ct_env_file;
  pu_environment := [("BLOOM_RELAY_CT_FEED_CA_PATH"%string, credential d "feed-ca");
                     ("BLOOM_RELAY_CT_ALERT_CA_PATH"%string, credential d "alert-ca");
                     ("BLOOM_RELAY_CT_FEED_TOKEN_PATH"%string, credential d "feed-token");
                     ("BLOOM_RELAY_CT_ALERT_TOKEN_PATH"%string, credential d "alert-token")];
  pu_credentials := ["feed-ca"; "alert-ca"; "feed-token"; "alert-token"]%string |}.

(** The servers of the front end's backends: address, whether it is sent a
    PROXY header, and the port of its health check. *)
Record HaproxyServer := { hs_address : string; hs_send_proxy_v2 : bool; hs_check_port : Z }.
Definition relay_tunnel_server : HaproxyServer := {| hs_address := "127.0.0.1:18444"; hs_send_proxy_v2 := false; hs_check_port := 19201 |}.
Definition relay_api_server : HaproxyServer := {| hs_address := "127.0.0.1:18443"; hs_send_proxy_v2 := true; hs_check_port := 19202 |}.

(** ** A host *)
Inductive PackagedService := PGateway | PApi | PDns (scope : DnsJobScope) | PDnsCloudflare (scope : DnsJobScope) (zone : string) | PCt.

Definition unit_of (d : string) (k : PackagedService) : PackagedUnit :=
  match k with
  | PGateway => gateway_unit d
  | PApi => api_unit d
  | PDns Serving => dns_serving_unit d
  | PDns Challenge => dns_challenge_unit d
  | PDnsCloudflare Serving zone => with_drop_in (dns_serving_drop_in d zone) (dns_serving_unit d)
  | PDnsCloudflare Challenge zone => with_drop_in (dns_challenge_drop_in d zone) (dns_challenge_unit d)
  | PCt => ct_unit d
  end.

(** An https address without credentials, query and fragment. *)
Definition plain_https (u : Url) : Prop :=
  url_scheme u = "https"%string /\ is_Some (url_host u) /\ url_username u = ""%string /\ url_password u = None /\
  url_query u = None /\ url_fragment u = None.

Section host.
Context {St3 : S3} {Cr : Crypto} {Sg : Signing} {Up : UrlParser}.

(** The contents of the credentials a service loads. *)
Definition equipped (d : string) (k : PackagedService) (p : Process) : Prop :=
  match k with
  | PGateway => exists chain key, tf_certs (ps_tls p) (credential d "control-cert") = Some (Some <$> chain) /\
      tf_key (ps_tls p) (credential d "control-key") = Some key /\ tf_single_cert (ps_tls p) chain key = true
  | PApi => tf_pem_pair (ps_tls p) (credential d "control-cert") (credential d "control-key") = true /\
      exists seed, ps_file p (credential d "receipt-key") = Some seed /\ List.length seed = 32%nat
  | PDns _ => True
  | PDnsCloudflare _ zone => valid_id zone = true /\ exists token, cloudflare_token (ps_file p (credential d "cloudflare")) = Some token /\
      token <> ""%string /\ existsb (fun b => is_ascii_whitespace b || is_ascii_control b) (str_bytes token) = false
  | PCt => (exists u, url_parse "https://ct-feed.internal.example" = Some u /\ plain_https u /\ url_path u = "/"%string) /\
      (exists u, url_parse "https://alerts.internal.example/v1/alerts" = Some u /\ plain_https u) /\
      is_Some (ps_file p (credential d "feed-ca")) /\ is_Some (ps_file p (credential d "alert-ca"))
  end.

(** The process of a unit on a host where the store opens, its witness accepts
    the database, and the addresses are free. *)
Record hosted (d : string) (k : PackagedService) (p : Process) : Prop := {
  ho_vars name : ps_var p name = unit_var (unit_of d k) name;
  ho_provider : ps_tls_provider p = true;
  ho_opened : ps_opened p = true;
  ho_client : ps_client_built p = true;
  ho_bound a : ps_bound p a = true;
  ho_store : is_ok (open_guarded p witness_file) = true;
  ho_equipped : equipped d k p
}.

(** What a started service is set up to do. *)
Definition starts (d : string) (k : PackagedService) (p : Process) : Prop :=
  match k with
  | PGateway => exists started, gateway_main_start p = Ok ("shard-a"%string, started)
  | PApi => exists state acceptor started, control_main_start p = Ok (ApiService state acceptor, started) /\
      st_placement state = "shard-a"%string /\ proxy_v2 acceptor = hs_send_proxy_v2 relay_api_server /\
      exists seed, ps_file p (credential d "receipt-key") = Some seed /\ st_signer state = Local (signing_key_from_bytes seed)
  | PDns scope => exists worker started, control_main_start p = Ok (DnsService worker, started) /\
      cw_placement worker = "shard-a"%string /\ cw_scope worker = scope /\ cw_provider worker = OverRoute53 "ZREPLACEWITHDELEGATEDZONE"
  | PDnsCloudflare scope zone => exists worker provider started, control_main_start p = Ok (DnsService worker, started) /\
      cw_placement worker = "shard-a"%string /\ cw_scope worker = scope /\ cw_provider worker = OverCloudflare provider /\
      base_zone provider = zone /\ Cloudflare.scope provider = cloudflare_scope scope
  | PCt => exists worker config w, ct_main_start p = Ok (worker, config, w) /\ w_source worker = "reviewed-log-adapter"%string
  end.

(** ** Starts *)
Section start_of.
Context (d : string) (k : PackagedService) (p : Process) (Hp : hosted d k p).

Lemma var_of name value : unit_var (unit_of d k) name = Value value -> var p name = Ok value.
Proof. intros Hv. unfold var. rewrite (ho_vars _ _ _ Hp), Hv. done. Qed.

Lemma provider_of : tls_provider p = Ok tt.
Proof. unfold tls_provider. by rewrite (ho_provider _ _ _ Hp). Qed.

Lemma diagnostics_of metrics health :
  unit_var (unit_of d k) "BLOOM_RELAY_METRICS_BIND" = Value metrics -> unit_var (unit_of d k) "BLOOM_RELAY_HEALTH_BIND" = Value health ->
  is_ok (install (Value metrics) (Value health) true) = true -> diagnostics p = Ok tt.
Proof.
  intros Hm Hh Hi. unfold diagnostics. rewrite !(ho_vars _ _ _ Hp), Hm, Hh, (ho_opened _ _ _ Hp).
  by destruct (install _ _ _).
Qed.

Lemma bind_of name text address : unit_var (unit_of d k) name = Value text -> parse_socket_addr text = Some address -> bind p name = Ok address.
Proof.
  intros Hv Ha. unfold bind. rewrite (var_of _ _ Hv). cbn. rewrite Ha. cbn. by rewrite (ho_bound _ _ _ Hp).
Qed.

Lemma store_of : exists started, open_guarded p witness_file = Ok started.
Proof. pose proof (ho_store _ _ _ Hp) as Hs. destruct (open_guarded p witness_file); [eauto|done]. Qed.
End start_of.

(** The next step of a start. *)
Lemma ok_then {E A B} (m : result E A) (f : A -> result E B) a r : m = Ok a -> f a = r -> m ≫= f = r.
Proof. by intros ->. Qed.
Ltac step_by t := eapply ok_then; [t|cbv beta].
Ltac take_var Hp := step_by ltac:(apply (var_of _ _ _ Hp); lazy -[credential database_url witness_file]; reflexivity).
Ltac take_bind Hp := step_by ltac:(eapply (bind_of _ _ _ Hp); [reflexivity|vm_compute; reflexivity]).
Ltac take_provider Hp := step_by ltac:(apply (provider_of _ _ _ Hp)).
Ltac take_diagnostics Hp := step_by ltac:(eapply (diagnostics_of _ _ _ Hp); [reflexivity..|vm_compute; reflexivity]).
Ltac computed := step_by ltac:(vm_compute; reflexivity).

Lemma gateway_starts d p : hosted d PGateway p -> starts d PGateway p.
Proof.
  intros Hp. destruct (ho_equipped _ _ _ Hp) as (chain & key & Hc & Hk & Ht). destruct (store_of _ _ _ Hp) as [started Hs].
  exists started. unfold gateway_main_start. take_provider Hp. take_diagnostics Hp. take_var Hp. computed. take_var Hp.
  step_by ltac:(exact Hs). do 2 take_var Hp. eapply ok_then; [|do 2 take_bind Hp; reflexivity].
  unfold load_tls. rewrite Hc. step_by ltac:(reflexivity). assert (mapM (fun item => item) (Some <$> chain) = Some chain) as ->.
  { apply mapM_Some. by apply Forall2_fmap_l, Forall_Forall2_diag, Forall_true. }
  step_by ltac:(reflexivity). rewrite Hk. step_by ltac:(reflexivity). by rewrite Ht.
Qed.

(** The unit's receipt variables give the signer of the seed in the
    credential. *)
Lemma packaged_signer d p seed : hosted d PApi p -> ps_file p (credential d "receipt-key") = Some seed -> List.length seed = 32%nat ->
  receipt_signer_from_env p = Ok (Local (signing_key_from_bytes seed)).
Proof.
  intros Hp Hseed Hlen. unfold receipt_signer_from_env. rewrite !(ho_vars _ _ _ Hp).
  assert (unit_var (unit_of d PApi) "BLOOM_RELAY_RECEIPT_KEY_PATH" = Value (credential d "receipt-key")) as -> by reflexivity.
  assert (unit_var (unit_of d PApi) "BLOOM_RELAY_RECEIPT_KMS_KEY_ARN" = NotPresent) as -> by reflexivity.
  assert (unit_var (unit_of d PApi) "BLOOM_RELAY_RECEIPT_PUBLIC_KEY_HEX" = NotPresent) as -> by reflexivity.
  unfold signer_from_env. cbn [set_value]. eapply ok_then; [|cbv beta; reflexivity].
  step_by ltac:(reflexivity). rewrite Hseed. step_by ltac:(reflexivity). by rewrite bool_decide_eq_true_2.
Qed.

Lemma api_starts d p : hosted d PApi p -> starts d PApi p.
Proof.
  intros Hp. destruct (ho_equipped _ _ _ Hp) as (Ht & seed & Hseed & Hlen). destruct (store_of _ _ _ Hp) as [started Hs].
  pose proof (packaged_signer _ _ _ Hp Hseed Hlen) as Hsigner. unfold starts.
  eexists _, {| proxy_v2 := true |}, started. split; [|split; [|split; [reflexivity|exists seed; split; [exact Hseed|]]]].
  - unfold control_main_start. take_provider Hp. take_var Hp. computed. take_diagnostics Hp. eapply ok_then.
    { unfold api_open. take_var Hp. computed. rewrite Hsigner, !(ho_vars _ _ _ Hp). eapply ok_then; [reflexivity|cbv beta].
      take_var Hp. step_by ltac:(exact Hs). reflexivity. }
    cbv beta iota. eapply ok_then; [|reflexivity]. unfold api_listener. do 2 take_var Hp. rewrite Ht. step_by ltac:(reflexivity).
    rewrite (ho_vars _ _ _ Hp). reflexivity.
  - reflexivity.
  - reflexivity.
Qed.

Lemma ct_starts d p : hosted d PCt p -> starts d PCt p.
Proof.
  intros Hp. destruct (ho_equipped _ _ _ Hp) as ((u & Hu & Hplain & Hpath) & (a & Ha & Hplain') & [fc Hfc] & [ac Hac]).
  destruct (store_of _ _ _ Hp) as [started Hs]. unfold open_guarded in Hs. apply bind_ok in Hs as (url & Hurl & Hs).
  apply bind_ok in Hs as ([config w] & Hopen & _).
  assert (forall u, plain_https u -> negb (bool_decide (url_scheme u = "https"%string)) || bool_decide (url_host u = None)
    || negb (bool_decide (url_username u = ""%string)) || bool_decide (is_Some (url_password u))
    || bool_decide (is_Some (url_query u)) || bool_decide (is_Some (url_fragment u)) = false) as Hok.
  { intros x (-> & [h ->] & -> & -> & -> & ->). reflexivity. }
  eexists _, config, w. split; [unfold ct_main_start|].
  - take_provider Hp. take_diagnostics Hp. do 2 take_var Hp.
    eapply ok_then. { unfold checked_url. rewrite Hu, Hok, Hpath by done. reflexivity. } cbv beta. take_var Hp.
    eapply ok_then. { unfold checked_url. rewrite Ha, Hok by done. reflexivity. } cbv beta.
    step_by ltac:(exact Hurl). take_var Hp. step_by ltac:(exact Hopen). cbv beta iota.
    eapply ok_then. { unfold endpoint. take_var Hp. rewrite Hfc. step_by ltac:(reflexivity). take_var Hp. reflexivity. } cbv beta.
    eapply ok_then. { unfold endpoint. take_var Hp. rewrite Hac. step_by ltac:(reflexivity). take_var Hp. reflexivity. } reflexivity.
  - reflexivity.
Qed.

(** Both providers, in either scope. *)
Definition dns_mode (scope : DnsJobScope) : string := match scope with Serving => "dns-serving" | Challenge => "dns-challenge" end.
Lemma control_dns_start d k p scope worker started : hosted d k p ->
  unit_var (unit_of d k) "BLOOM_RELAY_MODE" = Value (dns_mode scope) -> diagnostics p = Ok tt ->
  dns_start p scope = Ok (worker, started) -> control_main_start p = Ok (DnsService worker, started).
Proof.
  intros Hp Hm Hd Hs. unfold control_main_start. take_provider Hp. step_by ltac:(apply (var_of _ _ _ Hp), Hm).
  eapply (ok_then _ _ (Dns scope)); [by destruct scope|]. cbv beta. rewrite Hd. step_by ltac:(reflexivity). cbv iota. by rewrite Hs.
Qed.

(** The start of a worker up to its provider. *)
Ltac dns_walk Hp Hs scope provider :=
  split; [eapply (control_dns_start _ _ _ scope _ _ Hp);
    [reflexivity|eapply (diagnostics_of _ _ _ Hp); [reflexivity..|vm_compute; reflexivity]|];
    unfold dns_start; take_var Hp; step_by ltac:(exact Hs); take_var Hp; eapply ok_then; [|reflexivity];
    unfold dns_worker_configured; take_var Hp; rewrite !(ho_vars _ _ _ Hp);
    do 3 computed; cbv iota; eapply ok_then; [provider|cbv beta]; computed; reflexivity
  |split_and!; reflexivity].

Lemma dns_starts d scope p : hosted d (PDns scope) p -> starts d (PDns scope) p.
Proof.
  intros Hp. destruct (store_of _ _ _ Hp) as [started Hs]. destruct scope; eexists _, started.
  - dns_walk Hp Hs Serving ltac:(vm_compute; reflexivity).
  - dns_walk Hp Hs Challenge ltac:(vm_compute; reflexivity).
Qed.

Lemma dns_cloudflare_starts d scope zone p : hosted d (PDnsCloudflare scope zone) p -> starts d (PDnsCloudflare scope zone) p.
Proof.
  intros Hp. destruct (store_of _ _ _ Hp) as [started Hs]. destruct (ho_equipped _ _ _ Hp) as (Hz & token & Ht & Hne & Hw).
  assert (forall scope, cloudflare_new true zone token scope = Ok {| base_zone := zone; token := token; Cloudflare.scope := scope |}) as Hnew.
  { intros s. unfold cloudflare_new. rewrite Hz, Hw, bool_decide_eq_false_2 by done. done. }
  destruct scope; eexists _, _, started.
  - dns_walk Hp Hs Serving ltac:(take_var Hp; rewrite Ht; step_by ltac:(reflexivity); rewrite (ho_client _ _ _ Hp), Hnew; reflexivity).
  - dns_walk Hp Hs Challenge ltac:(take_var Hp; rewrite Ht; step_by ltac:(reflexivity); rewrite (ho_client _ _ _ Hp), Hnew; reflexivity).
Qed.

(** A DNS worker whose zone is still the placeholder does not start. *)
Lemma placeholder_refused d scope p :
  (forall name, ps_var p name = unit_var (unit_of d (PDnsCloudflare scope shipped_zone)) name) ->
  is_err (control_main_start p) = true.
Proof.
  intros Hv. assert (forall name s, unit_var (unit_of d (PDnsCloudflare scope shipped_zone)) name = Value s -> var p name = Ok s) as Hvar.
  { intros name s Hs. unfold var. by rewrite Hv, Hs. }
  destruct (control_main_start p) as [r|] eqn:Hr; [exfalso|done]. unfold control_main_start in Hr.
  apply bind_ok in Hr as (_ & _ & Hr). rewrite (Hvar "BLOOM_RELAY_MODE"%string (dns_mode scope)) in Hr by (by destruct scope).
  apply bind_ok in Hr as (mode & [= <-] & Hr). apply bind_ok in Hr as (m & Hm%ok_or_ok & Hr).
  assert (m = Dns scope) as -> by (destruct scope; vm_compute in Hm; congruence). apply bind_ok in Hr as (_ & _ & Hr).
  apply bind_ok in Hr as ([worker st] & Hd & _). unfold dns_start in Hd. apply bind_ok in Hd as (path & _ & Hd).
  apply bind_ok in Hd as (started & _ & Hd). apply bind_ok in Hd as (placement & _ & Hd). apply bind_ok in Hd as (w & Hw & _).
  unfold dns_worker_configured in Hw. rewrite (Hvar "BLOOM_RELAY_DNS_ZONE_ID"%string shipped_zone) in Hw by (by destruct scope).
  apply bind_ok in Hw as (zone & [= <-] & Hw). apply bind_ok in Hw as (ingress & _ & Hw). apply bind_ok in Hw as (authoritative & _ & Hw).
  rewrite Hv in Hw. apply bind_ok in Hw as (kind & Hk%ok_or_ok & Hw).
  assert (kind = KindCloudflare) as -> by (destruct scope; vm_compute in Hk; congruence).
  apply bind_ok in Hw as (provider & Hp & _). apply bind_ok in Hp as (token_path & _ & Hp). apply bind_ok in Hp as (token & _ & Hp).
  unfold cloudflare_new in Hp. assert (valid_id shipped_zone = false) as Hid by (vm_compute; reflexivity). rewrite Hid in Hp. done.
Qed.

(** ** Agreement *)
(** The services of a host, each DNS worker over Route 53 or over the
    Cloudflare zone given. *)
Definition dns_service (scope : DnsJobScope) (zone : option string) : PackagedService :=
  match zone with None => PDns scope | Some zone => PDnsCloudflare scope zone end.
Definition all_services (serving challenge : option string) : list PackagedService :=
  [PGateway; PApi; dns_service Serving serving; dns_service Challenge challenge; PCt].

(** The ports on the loopback a service is told to open. *)
Definition loopback_ports (u : PackagedUnit) : list Z :=
  omap (fun name => match unit_var u name with
                    | Value text => address ← parse_socket_addr text; if is_loopback address.1 then Some address.2 else None
                    | _ => None
                    end)
    ["BLOOM_RELAY_TUNNEL_BIND"; "BLOOM_RELAY_CONTROL_BIND"; "BLOOM_RELAY_METRICS_BIND"; "BLOOM_RELAY_HEALTH_BIND"]%string.

(** The front end's server is the service, checked on its readiness port. *)
Definition serves (s : HaproxyServer) (u : PackagedUnit) (bind_name : string) : Prop :=
  unit_var u bind_name = Value (hs_address s) /\
  exists text address, unit_var u "BLOOM_RELAY_HEALTH_BIND" = Value text /\ parse_socket_addr text = Some (address, hs_check_port s) /\ is_loopback address = true.

(** C22: the packaged deployment starts and fits together. With the shipped
    units, environment files and Cloudflare drop-ins, on a host where the
    store opens, the witness accepts the database, the addresses are free and
    the credentials hold what they should (a certificate chain with its key, a
    receipt seed of 32 bytes, a Cloudflare token, the CT worker's CA files, and
    its two shipped addresses parsed as plain https ones), every service
    starts: the API signs with the seed of its receipt credential and requires
    the PROXY header the front end sends, the API, the gateway and both DNS
    workers name the same placement, and each worker has its own scope and
    provider. The Cloudflare workers need a zone in place of the shipped
    placeholder, with which they do not start. Whichever provider each DNS
    worker uses, no two services claim the same loopback port; and the front
    end connects to the gateway and the API where they listen and checks them
    where they report readiness. *)
Theorem packaged_services_start d k p :
  hosted d k p ->
  starts d k p /\
  (forall scope p', (forall name, ps_var p' name = unit_var (unit_of d (PDnsCloudflare scope shipped_zone)) name) ->
     is_err (control_main_start p') = true) /\
  (forall serving challenge, NoDup (mjoin (loopback_ports ∘ unit_of d <$> all_services serving challenge))) /\
  serves relay_tunnel_server (unit_of d PGateway) "BLOOM_RELAY_TUNNEL_BIND" /\ serves relay_api_server (unit_of d PApi) "BLOOM_RELAY_CONTROL_BIND".
Proof.
  intros Hp. split_and!.
  - destruct k; [by apply gateway_starts|by apply api_starts|by apply dns_starts|by apply dns_cloudflare_starts|by apply ct_starts].
  - intros scope p'. apply placeholder_refused.
  - intros serving challenge.
    assert (mjoin (loopback_ports ∘ unit_of d <$> all_services serving challenge) =
      [18444; 19101; 19201; 18443; 19102; 19202; 19103; 19203; 19104; 19204; 19105; 19205]) as ->
      by (destruct serving, challenge; vm_compute; reflexivity).
    by apply (bool_decide_unpack _).
  - split; [reflexivity|]. eexists _, (V4 2130706433). split_and!; [reflexivity|vm_compute; reflexivity|reflexivity].
  - split; [reflexivity|]. eexists _, (V4 2130706433). split_and!; [reflexivity|vm_compute; reflexivity|reflexivity].
Qed.
End host.
