(* ===== verification/SystemWitnesses.v ===== *)
(** * Runs of the whole relay

    A start of the gateway and a rollback under it; a retirement, and a turn of
    the DNS worker that removes the name; the same retirement over HTTP, with a
    concrete encoding of the bodies; and samples of the database roles, the
    Route 53 policies, the renewal hook and the packaged units. *)

From Stdlib Require Import Ascii String Strings.Byte.
From stdpp Require Import base strings list gmap.
From S2P Require Import Prelude Protocol Db Witness Store StoreCredentials StoreLifecycle StoreOutbox StoreHistory StoreInvariant StoreSamples StoreWitnesses.
From S2P Require Import ReceiptSigner ClientAddr IpText Services ControlApi ControlLogic ControlProperties ControlHttp FrontEnd ControlWitnesses CtWorker.
From S2P Require Import Dns Observer DnsWorker DnsWorkerProperties Route53 Route53Samples WorkerWitnesses System.
From S2P Require Import Ingress Gateway GatewayTasks GatewayProperties GatewayWitnesses Grants RoleEffects Deployment Packaging.

#[local] Existing Instance ConcreteS3.s3.
#[local] Existing Instance ConcreteS3.s3_laws.
Import ControlConcrete.

(** ** The gateway *)
(** Addresses of a host and a path. *)
#[local] Instance https_urls : UrlParser := fun text =>
  rest ← strip_prefix "https://" text;
  match split_on Byte.x2f (str_bytes rest) with
  | [] | [] :: _ => None
  | host :: _ =>
      let path := string_of_list_byte (drop (List.length host) (str_bytes rest)) in
      Some {| url_scheme := "https"; url_host := Some (string_of_list_byte host); url_username := ""; url_password := None;
              url_query := None; url_fragment := None; url_path := if bool_decide (path = ""%string) then "/" else path;
              url_origin := "https://" +:+ string_of_list_byte host |}
  end.

Definition gateway_vars (name : string) : EnvVar :=
  if bool_decide (name = "BLOOM_RELAY_METRICS_BIND"%string) then Value "127.0.0.1:9100"
  else if bool_decide (name = "BLOOM_RELAY_HEALTH_BIND"%string) then Value "[::1]:9101"
  else if bool_decide (name = "BLOOM_RELAY_GATEWAY_ID"%string) then Value "gw-1"
  else if bool_decide (name = "BLOOM_RELAY_TUNNEL_BIND"%string) then Value "127.0.0.1:8443"
  else if bool_decide (name = "BLOOM_RELAY_INGRESS_BIND"%string) then Value "0.0.0.0:443"
  else Value "/var/lib/relay/file".
Definition gateway_process : Process :=
  {| ps_tls_provider := true; ps_var := gateway_vars; ps_opened := true;
     ps_store := fun _ _ => restart {| ws_file := FsFile 432 (Ok (revision_body (restore_revision db_setup)));
                                        ws_remote := None; ws_seen := None |};
     ps_ack := fun _ => quiet_ack; ps_db := fun _ => db_setup; ps_bound := fun _ => true;
     ps_tls := {| tf_certs := fun _ => Some [Some [Byte.x30]]; tf_key := fun _ => Some [Byte.x30];
                  tf_single_cert := fun _ _ => true; tf_pem_pair := fun _ _ => true |};
     ps_file := fun _ => None; ps_kms := fun _ _ => None; ps_client_built := true |}.

(** Two seconds later the database is the one before its first request. *)
Definition guard_turns : list GuardTurn :=
  let file := FsFile 432 (Ok (revision_body (restore_revision db_setup))) in
  [{| gt_ack := quiet_ack; gt_db := db_setup; gt_file := file |}; {| gt_ack := quiet_ack; gt_db := empty_db; gt_file := file |}].

Lemma services_leave_rolled_back_database_witness : exists started,
  service_start GatewayService gateway_process = Ok started /\ guard_loop (take 1 guard_turns) (sd_guard started) = None /\
  guard_loop guard_turns (sd_guard started) = Some 78.
Proof.
  destruct (result_ok (service_start GatewayService gateway_process)) as [started Hs]; [vm_compute; reflexivity|].
  exists started. split; [exact Hs|]. split.
  - assert (forall r : result StartError Started, r = Ok started -> match r with Ok st => guard_loop (take 1 guard_turns) (sd_guard st) | Err _ => Some 0 end =
      guard_loop (take 1 guard_turns) (sd_guard started)) as Heq by (by intros r ->).
    rewrite <-(Heq _ Hs). vm_compute. reflexivity.
  - destruct (proj1 (services_leave_rolled_back_database gateway_process GatewayService) started) as [_ Hstop]; [apply setup_invariant|exact Hs|].
    apply (Hstop (take 1 guard_turns) {| gt_ack := quiet_ack; gt_db := empty_db; gt_file := FsFile 432 (Ok (revision_body (restore_revision db_setup))) |}
      [] (restore_revision db_setup)).
    + vm_compute. reflexivity.
    + apply empty_invariant.
    + vm_compute. reflexivity.
Defined.

(** ** The system *)

Local Abbreviation retirement := (handle no_uuid relay_state (PostRetire (retire_request "nonce-0123456789")) alone_env (0%nat, state_of db_setup)).
Definition removal_env : WkEnv (Zone := MemoryState) :=
  {| v_others := fun _ s => s; v_fault := fun _ => None; v_ack := fun _ => no_ack; v_net := fun _ _ _ _ => NoRecords;
     v_built := fun _ => true; v_locked := fun _ _ => false |}.
Definition removal_start (s : Api) : Wk (Zone := MemoryState) :=
  {| k_now := p_now s; k_world := p_world s; k_provider := {| names := ∅; challenges := ∅ |}; k_held := None; k_log := [] |}.
Local Abbreviation removal := (run 5 Serving "gw-1" [worker_address] removal_env (0%nat, removal_start retirement.2.2)).

Lemma alone_handles request s : request_typed request ->
  let s' := (handle no_uuid relay_state request alone_env (0%nat, s)).2.2 in
  system cfg no_uuid (p_now s) (api_db s) (p_now s') (api_db s').
Proof.
  intros Hty. destruct (handle _ _ request alone_env (0%nat, s)) as [r [n' s']] eqn:Hrun.
  eapply (sys_control cfg no_uuid relay_state request alone_env); [reflexivity|exact Hty| |reflexivity| |exact Hrun].
  - intros n u. apply sys_idle, Z.le_refl.
  - intros n. apply length_replicate.
Qed.

Lemma alone_removes turns s :
  let s' := (run turns Serving "gw-1" [worker_address] removal_env (0%nat, removal_start s)).2 in
  system cfg no_uuid (p_now s) (api_db s) (k_now s') (db s').
Proof.
  destruct (run turns Serving _ _ _ _) as [n' s'] eqn:Hrun.
  eapply (sys_dns cfg no_uuid MemoryState _ _ Serving "gw-1" [worker_address] removal_env turns 0 (removal_start s)); [| |exact Hrun].
  - intros n u. split; [reflexivity|]. split; [reflexivity|]. intros id _ row Hrow. exists row. split_and!; done.
  - intros n u. apply sys_idle, Z.le_refl.
Qed.

Lemma relay_run : system cfg no_uuid (at_second 7) db_setup (k_now removal.2) (db removal.2).
Proof. eapply sys_then; [|apply alone_removes]. exact (alone_handles (PostRetire (retire_request "nonce-0123456789")) (state_of db_setup) I). Qed.

Lemma system_refines_store_witness :
  List.length (k_log removal.2) = 1%nat /\ reachable cfg (k_now removal.2) (db removal.2) /\ invariant (db removal.2).
Proof.
  split; [vm_compute; reflexivity|].
  apply (system_refines_store cfg no_uuid (at_second 7) db_setup (k_now removal.2) (db removal.2) relay_run).
  exists (at_second 0). eapply history_trans; [apply setup_history|].
  apply (history_tick cfg (at_second 6) (at_second 7)); [vm_compute; discriminate|constructor].
Defined.

(** ** Requests over HTTP *)
Module HttpConcrete.
(** A document is the list of its fields, as bits. *)
Definition Field : Type := string + Z.
Definition scope_field (s : Scope) : Field := inr (match s with SurfaceAdmin => 0 | ScopeTunnel => 1 | ScopeDnsChallenge => 2 end).
Definition scope_of (z : Z) : Scope := if z =? 0 then SurfaceAdmin else if z =? 1 then ScopeTunnel else ScopeDnsChallenge.
Definition action_field (a : Protocol.Action) : Field :=
  inr (match a with Enroll => 0 | IssueCredential => 1 | RegisterAcmeAccount => 2 | InstallationStatus => 3 | RetireInstallation => 4 end).
Definition action_of (z : Z) : Protocol.Action :=
  if z =? 0 then Enroll else if z =? 1 then IssueCredential else if z =? 2 then RegisterAcmeAccount
  else if z =? 3 then InstallationStatus else RetireInstallation.
Definition id_field (id : Uuid) : Field := inr (Z.of_N id).

Definition claims_fields (c : AuthClaims) : list Field :=
  [inr (c_version c); id_field (c_installation_id c); scope_field (c_scope c); action_field (c_action c); inr (c_generation c);
   inl (c_audience c); id_field (c_operation_id c); inl (c_nonce c); inr (c_expires_at_ms c); inl (c_body_sha256 c)].
Definition claims_of (l : list Field) : option AuthClaims :=
  match l with
  | [inr v; inr id; inr s; inr a; inr g; inl au; inr op; inl n; inr x; inl b] =>
      Some {| c_version := v; c_installation_id := Z.to_N id; c_scope := scope_of s; c_action := action_of a; c_generation := g; c_audience := au;
              c_operation_id := Z.to_N op; c_nonce := n; c_expires_at_ms := x; c_body_sha256 := b |}
  | _ => None
  end.
Lemma claims_of_fields c : claims_of (claims_fields c) = Some c.
Proof. destruct c as [v id [] [] g au op n x b]; cbn; by rewrite !N2Z.id. Qed.

Definition signed_fields {T} (body : T -> list Field) (r : SignedRequest T) : list Field :=
  claims_fields (r_claims r) ++ inl (r_signature r) :: body (r_body r).
Definition signed_of {T} (body : list Field -> option T) (l : list Field) : option (SignedRequest T) :=
  claims ← claims_of (take 10 l);
  match drop 10 l with
  | inl signature :: rest => b ← body rest; Some {| r_claims := claims; r_body := b; r_signature := signature |}
  | _ => None
  end.
Lemma signed_of_fields {T} (to : T -> list Field) of_ (r : SignedRequest T) :
  (forall b, of_ (to b) = Some b) -> signed_of of_ (signed_fields to r) = Some r.
Proof.
  intros Hb. unfold signed_of, signed_fields. rewrite take_app_length', drop_app_length' by done. rewrite claims_of_fields. cbn. rewrite Hb. by destruct r.
Qed.

Definition payload_fields (p : Payload) : list Field :=
  match p with
  | BodyEnroll r => signed_fields (fun b => [inl (ar_admin_public_key b); inl (ar_bootstrap_nonce b); id_field (ar_operation_id b)]) r
  | BodyCredentials r => signed_fields (fun b => [scope_field (cr_scope b); inl (cr_token_sha256 b); inr (cr_validity_seconds b)]) r
  | BodyRenew r => [inr (rn_version r); id_field (rn_installation_id r); scope_field (rn_scope r); inr (rn_generation r); id_field (rn_operation_id r);
      inl (rn_nonce r); inr (rn_expires_at_ms r); inl (rn_new_token_sha256 r)]
  | BodyAcmeAccount r => signed_fields (fun b => [inl (aa_account_uri b)]) r
  | BodyStatus r => signed_fields (fun b => [id_field (is_installation_id b)]) r
  | BodyRetire r => signed_fields (fun b => [id_field (rr_installation_id b)]) r
  | BodyCertificate c => [inl (cm_hostname c); inl (cm_acme_account_uri c); inl (cm_key_fingerprint c); inl (cm_lineage c);
      inr (cm_not_before_ms c); inr (cm_not_after_ms c)]
  | BodyDnsChallenge r => [inr (de_version r); id_field (de_installation_id r); inl (de_txt_value r)]
  end.

Fixpoint bytes_pos (l : list byte) : positive :=
  match l with [] => xH | b :: l => if Byte.eqb b Byte.x00 then xO (bytes_pos l) else xI (bytes_pos l) end.
Lemma bytes_pos_bytes p : bytes_pos (pos_bytes p) = p.
Proof. induction p; cbn; by rewrite ?IHp. Qed.

Definition fields_of (bytes : list byte) : option (list Field) := decode (bytes_pos bytes).
Definition document {T} (of_ : list Field -> option T) (bytes : list byte) : result BodyFault T :=
  match fields_of bytes with
  | None => Err NotJson
  | Some l => ok_or WrongShape (of_ l)
  end.

#[export] Instance axum : Axum := {|
  json_content_type := fun t => bool_decide (t = "application/json"%string);
  percent_decode := fun s => if bytes_all (fun b => negb (Byte.eqb b Byte.x25)) s then Some s else None;
  body_encode := fun p => pos_bytes (encode (payload_fields p));
  decode_enroll := document (signed_of (fun l => match l with
    | [inl k; inl n; inr op] => Some {| ar_admin_public_key := k; ar_bootstrap_nonce := n; ar_operation_id := Z.to_N op |} | _ => None end));
  decode_credentials := document (signed_of (fun l => match l with
    | [inr s; inl t; inr v] => Some {| cr_scope := scope_of s; cr_token_sha256 := t; cr_validity_seconds := v |} | _ => None end));
  decode_renew := document (fun l => match l with
    | [inr v; inr id; inr s; inr g; inr op; inl n; inr x; inl t] =>
        Some {| rn_version := v; rn_installation_id := Z.to_N id; rn_scope := scope_of s; rn_generation := g; rn_operation_id := Z.to_N op;
                rn_nonce := n; rn_expires_at_ms := x; rn_new_token_sha256 := t |} | _ => None end);
  decode_account := document (signed_of (fun l => match l with [inl u] => Some {| aa_account_uri := u |} | _ => None end));
  decode_status := document (signed_of (fun l => match l with [inr id] => Some {| is_installation_id := Z.to_N id |} | _ => None end));
  decode_retire := document (signed_of (fun l => match l with [inr id] => Some {| rr_installation_id := Z.to_N id |} | _ => None end));
  decode_certificate := document (fun l => match l with
    | [inl h; inl u; inl k; inl g; inr b; inr a] =>
        Some {| cm_hostname := h; cm_acme_account_uri := u; cm_key_fingerprint := k; cm_lineage := g; cm_not_before_ms := b; cm_not_after_ms := a |}
    | _ => None end);
  decode_challenge := document (fun l => match l with
    | [inr v; inr id; inl t] => Some {| de_version := v; de_installation_id := Z.to_N id; de_txt_value := t |} | _ => None end)
|}.

Lemma document_encoded {T} (of_ : list Field -> option T) l a : of_ l = Some a -> document of_ (pos_bytes (encode l)) = Ok a.
Proof. intros Ho. unfold document, fields_of. rewrite bytes_pos_bytes, decode_encode. cbn. by rewrite Ho. Qed.

#[export] Instance axum_laws : AxumLaws.
Proof.
  split; [done| |].
  - intros s Hs. cbn. by rewrite Hs.
  - intros p. destruct p as [r|r|[v id [] g op n x t]|r|r|r|[]|[]];
      cbn [body_encode decode_enroll decode_credentials decode_renew decode_account decode_status decode_retire decode_certificate decode_challenge axum payload_fields];
      apply document_encoded; try (apply signed_of_fields); try (intros [[]]); try (intros []); cbn; by rewrite ?N2Z.id.
Qed.
End HttpConcrete.
Import HttpConcrete.

(** The retirement of the sample, sent by the client. *)
Definition sent_retirement (nonce : string) : HttpRequest := client_request (PostRetire (retire_request nonce)) client_source.
Lemma sendable_retirement nonce : Z.of_nat (List.length (body_encode (BodyRetire (retire_request nonce)))) <= BODY_LIMIT ->
  sendable no_uuid (PostRetire (retire_request nonce)).
Proof. intros Hl. split; [|done]. by intros p [= <-]. Qed.

Lemma client_request_reaches_handler_witness :
  front_end 1 0 "POST" "/v1/installations/retire" = RelayApi /\
  an_status (serve no_uuid relay_state (sent_retirement "nonce-0123456789") alone_env (0%nat, state_of db_setup)).1 = 202.
Proof.
  destruct (client_request_reaches_handler no_uuid relay_state (PostRetire (retire_request "nonce-0123456789")) client_source 1 0
    alone_env (0%nat, state_of db_setup)) as (Hf & Hs & _ & _).
  - apply sendable_retirement. apply Z.leb_le. vm_compute. reflexivity.
  - split; [exact Hf|]. unfold sent_retirement. rewrite Hs. vm_compute. reflexivity.
Defined.

(** Its nonce is too short, so it counts as replayed. *)
Local Abbreviation refused := (serve no_uuid relay_state (sent_retirement "nonce") alone_env (0%nat, state_of db_setup)).
Lemma api_errors_documented_witness :
  an_status refused.1 = 410 /\ exists request, dispatch no_uuid (sent_retirement "nonce") = Ok request /\
  ((exists r, refused.1 = of_response r) \/ exists err id, err ∈ route_errors request /\ refused.1 = into_response err id).
Proof.
  split; [vm_compute; reflexivity|].
  pose proof (api_errors_documented no_uuid relay_state (sent_retirement "nonce") alone_env 0 (state_of db_setup) refused.1 refused.2.1 refused.2.2
    alone_api_env) as He.
  assert (extracted_typed no_uuid (sent_retirement "nonce")) as Hty.
  { intros request Hr. assert (match dispatch no_uuid (sent_retirement "nonce") with Ok (PostRetire _) => true | _ => false end = true) as Hd by (vm_compute; reflexivity).
    rewrite Hr in Hd. by destruct request. }
  specialize (He Hty (run_pieces _ _ eq_refl)). assert (is_ok (dispatch no_uuid (sent_retirement "nonce")) = true) as Hok by (vm_compute; reflexivity).
  destruct (dispatch no_uuid (sent_retirement "nonce")) as [request|]; [|discriminate Hok]. exists request. split; [reflexivity|].
  destruct He as [Hr|(err & id & Hin & Ha & _)]; [left; exact Hr|right]. exists err, id. exact (conj Hin Ha).
Defined.

Lemma api_responses_typed_witness : exists r, retirement.1 = Ok r /\ response_typed alone_env (PostRetire (retire_request "nonce-0123456789")) r.
Proof.
  destruct (run_ok retirement) as [r Hr]; [vm_compute; reflexivity|]. exists r. split; [exact (f_equal fst Hr)|].
  refine (proj1 (api_responses_typed no_uuid relay_state alone_env alone_api_env (PostRetire (retire_request "nonce-0123456789")) 0 (state_of db_setup) r
    retirement.2.1 retirement.2.2 I _ _)).
  - exact setup_invariant.
  - exact (run_pieces _ _ (f_equal fst Hr)).
Defined.

(** ** Database roles *)
Definition tunnel_task : Task := ControlConnection (InTime (Some (Some "h2"%string))) (InTime true) [PostTunnel headers].
Local Abbreviation tunnel_db := (g_db (run_task parse_id "gw-1" tunnel_task alone (0%nat, start)).2.2).

Lemma services_within_grants_witness :
  i_generation <$> d_installations tunnel_db !! inst = Some 5 /\ rtc (by_role eq GatewayRole) (g_db start) tunnel_db.
Proof.
  split; [vm_compute; reflexivity|]. apply (services_within_grants parse_id eq GatewayRole).
  exact (as_gateway parse_id eq "gw-1" tunnel_task alone (0%nat, start) (fun n g => eq_refl)).
Defined.

Definition claimed_db : Db := db_after cfg (at_second 7) [(at_second 7, ClaimTunnel inst "gw-1" 45)] db_setup.
Lemma only_api_grants_authority_witness :
  i_generation <$> d_installations db_setup !! inst <> i_generation <$> d_installations claimed_db !! inst /\
  same_authority db_setup claimed_db /\ i_state <$> d_installations db_setup = i_state <$> d_installations claimed_db.
Proof.
  split; [vm_compute; discriminate|].
  destruct (only_api_grants_authority (fun role => role = GatewayRole) db_setup claimed_db) as [Hsame Hcolumns].
  - discriminate.
  - apply rtc_once. exists GatewayRole. split; [reflexivity|].
    refine (request_within cfg GatewayRole (at_second 7) (ClaimTunnel inst "gw-1" 45) db_setup tt claimed_db eq_refl _).
    unfold claimed_db. apply exec_db_after. vm_compute. reflexivity.
  - split; [exact Hsame|]. apply (sc_states _ _ _ Hcolumns). discriminate.
Defined.

(** ** Deployment *)
#[local] Existing Instance Hosted_laws.

(** A change of the zone's own name. *)
Definition apex : Change :=
  {| ch_action := Upsert; ch_set := {| rs_name := "relay.bloom.directory"; rs_type := RrA; rs_ttl := 60; rs_values := ["192.0.2.1"%string] |} |}.
Lemma policy_fits_worker_witness :
  batch_allowed dns_serving_policy [apex] = false /\
  forall z' ok, @change_resource_record_sets (guarded dns_serving_policy Hosted) [apex] empty_hosted = (ok, z') ->
    @record_sets Hosted z' !! ("relay.bloom.directory"%string, RrA) = None.
Proof.
  split; [vm_compute; reflexivity|]. intros z' ok Hc.
  refine (eq_trans (proj2 (policy_fits_worker Hosted Serving 0 "gw-1" []
    {| v_others := fun _ s => s; v_fault := fun _ => None; v_ack := fun _ => no_ack; v_net := fun _ _ _ _ => NoRecords;
       v_built := fun _ => true; v_locked := fun _ _ => false |}
    (0%nat, {| k_now := 0; k_world := {| w_db := db_setup; w_witness := None |}; k_provider := empty_hosted; k_held := None; k_log := [] |})
    [apex] empty_hosted z' ok ("relay.bloom.directory"%string, RrA)) Hc _) (empty_hosted_sets _)).
  right. vm_compute. reflexivity.
Defined.

(** A chain and its key are [C] and [K]; the public key of both is empty. *)
#[local] Instance openssl : Openssl :=
  {| x509_checkhost := fun b => bool_decide (b = [Byte.x43]); x509_checkend := fun _ => true; verify_server := fun _ => true;
     x509_pubkey := fun _ => Some []; pkey_pubout := fun b => if bool_decide (b = [Byte.x4b]) then Some [] else None |}.
Definition hook_run (fails : nat) : HookEnv :=
  {| hv_root := true; hv_renewed_lineage := Some LINEAGE; hv_fullchain := [Byte.x43]; hv_privkey := [Byte.x4b]; hv_stage := "release.1";
     hv_prepared := true; hv_ok := fun n => negb (Nat.eqb n fails); hv_leaves := fun _ files => files; hv_restart := true;
     hv_haproxy_active := true; hv_haproxy_valid := true; hv_haproxy_reload := false |}.
Definition no_release : TlsDir := {| td_releases := ∅; td_current := None |}.

(** The reload fails after the publication, and in the second run the link. *)
Lemma renewal_publishes_complete_release_witness :
  (renew_hook (hook_run 100) no_release).1 = 1 /\ td_current (renew_hook (hook_run 100) no_release).2 = Some "release.1"%string /\
  served (renew_hook (hook_run 100) no_release).2 /\ (renew_hook (hook_run 11) no_release).2 = no_release.
Proof.
  split; [vm_compute; reflexivity|]. split; [vm_compute; reflexivity|]. split; [|vm_compute; reflexivity].
  refine (proj1 (renewal_publishes_complete_release (hook_run 100) no_release (renew_hook (hook_run 100) no_release).1
    (renew_hook (hook_run 100) no_release).2 _ (lookup_empty _) (surjective_pairing _))).
  intros name Hn. discriminate Hn.
Defined.

(** The units on the host of the sample. Each loaded credential is 32 bytes. *)
Definition credentials_dir : string := "/run/credentials".
Definition packaged (k : PackagedService) : Process :=
  {| ps_tls_provider := true; ps_var := unit_var (unit_of credentials_dir k); ps_opened := true; ps_store := ps_store gateway_process;
     ps_ack := fun _ => quiet_ack; ps_db := fun _ => db_setup; ps_bound := fun _ => true; ps_tls := ps_tls gateway_process;
     ps_file := fun _ => Some (replicate 32 Byte.x41); ps_kms := fun _ _ => None; ps_client_built := true |}.
Definition sample_zone_id : string := "0123456789abcdef0123456789abcdef".
Definition packaged_services : list PackagedService :=
  [PGateway; PApi; PDns Serving; PDns Challenge; PDnsCloudflare Serving sample_zone_id; PDnsCloudflare Challenge sample_zone_id; PCt].

Lemma packaged_hosted k : k ∈ packaged_services -> hosted credentials_dir k (packaged k).
Proof.
  intros Hk. split; [reflexivity..| |].
  - revert k Hk. apply Forall_forall. repeat constructor; vm_compute; reflexivity.
  - revert k Hk. apply Forall_forall. repeat (apply Forall_cons; split); [..|apply Forall_nil; exact I]; cbn [equipped packaged ps_tls ps_file].
    + exists [[Byte.x30]], [Byte.x30]. split_and!; reflexivity.
    + split; [reflexivity|]. eexists. split; reflexivity.
    + exact I.
    + exact I.
    + split; [vm_compute; reflexivity|]. eexists. split; [reflexivity|]. split; [discriminate|vm_compute; reflexivity].
    + split; [vm_compute; reflexivity|]. eexists. split; [reflexivity|]. split; [discriminate|vm_compute; reflexivity].
    + split; [|split; [|split; eexists; reflexivity]];
        (eexists; split; [vm_compute; reflexivity|]; repeat split; eexists; reflexivity).
Qed.

(** Every packaged service starts, over either provider. *)
Lemma packaged_services_start_witness : Forall (fun k => starts credentials_dir k (packaged k)) packaged_services.
Proof.
  apply Forall_forall. intros k Hk. exact (proj1 (packaged_services_start credentials_dir k (packaged k) (packaged_hosted k Hk))).
Defined.
