(* ===== verification/Transport.v ===== *)
(** * The HTTPS agents of the clients

    What the administration client, the Broker client and the CT worker trust
    and how they read answers: crates/bloom-relay-admin-client/src/lib.rs,
    crates/bloom-relay-client/src/lib.rs and crates/bloom-relay-ct/src/main.rs.
    PEM parsing and JSON decoding are parameters. *)

From Stdlib Require Import Ascii String Strings.Byte.
From stdpp Require Import base strings list.
From S2P Require Import Prelude Protocol Db ReceiptSigner ControlApi AdminClient BrokerClient.

(** The settings of an agent. *)
Record Agent := {
  ag_https_only : bool;
  ag_max_redirects : Z;
  ag_proxy : option string;
  ag_timeout : Z;
  ag_roots : list (list byte)
}.
Definition new_agent (roots : list (list byte)) : Agent :=
  {| ag_https_only := true; ag_max_redirects := 0; ag_proxy := None; ag_timeout := seconds 10; ag_roots := roots |}.

(** ** The administration client *)
Module Admin.
Fixpoint collect_roots (items : list PemItem) (roots : list (list byte)) : option (list (list byte)) :=
  match items with
  | [] => Some roots
  | PemCertificate der :: items => collect_roots items (roots ++ [der])
  | _ => None
  end.
Definition pinned_roots `{PemParser} (pem : list byte) : option (list (list byte)) :=
  roots ← collect_roots (parse_pem pem) [];
  if Nat.eqb (List.length roots) 0 then None else Some roots.
Definition build_agent `{PemParser} (control_ca_pem : list byte) : result EnrollmentError Agent :=
  roots ← ok_or InvalidTrust (pinned_roots control_ca_pem);
  Ok (new_agent roots).

(** [read_bounded_json]: at most one byte more than the limit is read. [None]
    is a failed read, [from_slice] the decoder. *)
Definition BODY_LIMIT : Z := 16 * 1024.
Definition read_bounded_json {T} (from_slice : list byte -> option T) (body : option (list byte)) : result EnrollmentError T :=
  stream ← ok_or AdminClient.Rejected body;
  let bytes := take (Z.to_nat (BODY_LIMIT + 1)) stream in
  if BODY_LIMIT <? Z.of_nat (List.length bytes) then Err AdminClient.Rejected
  else ok_or AdminClient.Rejected (from_slice bytes).

(** [Display for EnrollmentError]. *)
Definition error_text (error : EnrollmentError) : string :=
  match error with
  | InvalidTrust => "invalid relay trust configuration"
  | ControlUnavailable => "relay control unavailable"
  | AdminClient.Refused status => "relay control refused the request (HTTP " +:+ u64_to_string status +:+ ")"
  | AdminClient.Rejected => "relay request rejected"
  | InvalidReceipt => "relay response failed identity verification"
  | AdminClient.IncompatibleProtocol => "incompatible relay protocol"
  end.
End Admin.

(** ** The Broker client *)
Definition pinned_control_agent `{PemParser} (ca : list byte) : result ClientError Agent :=
  roots ← pinned_roots ca;
  Ok (new_agent roots).

(** ** The CT worker: [Certificate::from_pem] takes the first certificate. *)
Definition ct_agent (from_pem : list byte -> option (list byte)) (ca_pem : list byte) : option Agent :=
  cert ← from_pem ca_pem;
  Some (new_agent [cert]).

Section agents.
Context `{PemParser}.

(** Both clients pin the same roots, all of a bundle or none. *)
Lemma collect_roots_agree items roots :
  Admin.collect_roots items roots = match BrokerClient.collect_roots items roots with Ok r => Some r | Err _ => None end.
Proof. revert roots. induction items as [|[] items IH]; intros roots; cbn; done || apply IH. Qed.

Lemma collect_roots_all items roots all :
  Admin.collect_roots items roots = Some all -> exists ders, items = PemCertificate <$> ders /\ all = roots ++ ders.
Proof.
  revert roots. induction items as [|[der| |] items IH]; intros roots; cbn; try done.
  - intros [= <-]. exists []. by rewrite app_nil_r.
  - intros (ders & -> & ->)%IH. exists (der :: ders). by rewrite <-app_assoc.
Qed.

Lemma agents_pin_every_root pem :
  (forall a, Admin.build_agent pem = Ok a <-> pinned_control_agent pem = Ok a) /\
  forall a, Admin.build_agent pem = Ok a ->
    ag_https_only a = true /\ ag_max_redirects a = 0 /\ ag_proxy a = None /\ ag_roots a <> [] /\ parse_pem pem = PemCertificate <$> ag_roots a.
Proof.
  unfold Admin.build_agent, pinned_control_agent, Admin.pinned_roots, pinned_roots. split; intros a.
  - rewrite collect_roots_agree. destruct (BrokerClient.collect_roots _ _) as [[|root roots]|]; cbn;
      split; intros [= <-]; done.
  - intros Ha. apply bind_ok in Ha as (roots & Hr%ok_or_ok & [= <-]). apply bind_Some in Hr as (all & Hc & Hr).
    apply collect_roots_all in Hc as (ders & Hp & ->). cbn in *. destruct ders; [done|]. injection Hr as <-. done.
Qed.

(** A body over the limit is refused however long it is, and never decoded. *)
Lemma read_bounded_json_spec {T} (from_slice : list byte -> option T) stream :
  Admin.read_bounded_json from_slice (Some stream) =
  if Admin.BODY_LIMIT <? Z.of_nat (List.length stream) then Err AdminClient.Rejected else ok_or AdminClient.Rejected (from_slice stream).
Proof.
  unfold Admin.read_bounded_json, mbind, result_bind, ok_or at 1, Admin.BODY_LIMIT. rewrite length_take.
  destruct (Z.ltb_spec (16 * 1024) (Z.of_nat (List.length stream))) as [Hl|Hl].
  - by rewrite (proj2 (Z.ltb_lt _ _)) by lia.
  - rewrite (proj2 (Z.ltb_ge _ _)) by lia. by rewrite take_ge by lia.
Qed.
End agents.
