(* ===== verification/ProtocolTests.v ===== *)
(** * The unit tests of the wire protocol

    The [tests] module of crates/bloom-relay-protocol/src/lib.rs, run on the
    model: a test is the conjunction of its assertions, in their order, and an
    [unwrap] that would panic fails it. Cryptography and serialization are the
    parameters of Protocol.v, and the random identifiers of a test are its
    arguments; [TestConcrete] instantiates both. *)

From Stdlib Require Import Ascii String Strings.Byte.
From stdpp Require Import base strings list countable.
From S2P Require Import Prelude Protocol ReceiptSigner Fuzz.

(** ** Assertions *)
Definition asserts (assertions : list bool) : bool := forallb (fun a => a) assertions.
Definition assert_eq {A} `{EqDecision A} (left right : A) : bool := bool_decide (left = right).
(** [unwrap] on a value of the model. *)
Definition unwrapping {E A} (value : result E A) (rest : A -> bool) : bool :=
  match value with Ok a => rest a | Err _ => false end.
Definition unwrapping_option {A} (value : option A) (rest : A -> bool) : bool :=
  match value with Some a => rest a | None => false end.

(** ** The concrete cryptography of the tests: a signature is the public key
    followed by the message. *)
Module TestConcrete.
Definition first32 (bytes : list byte) : list byte := take 32 (bytes ++ replicate 32 Byte.x00).
#[export] Instance crypto : Crypto := {|
  VerifyingKey := list byte;
  Signature := list byte;
  sha256 := first32;
  base64url_decode := fun s => Some (Concrete.unpad (str_bytes s));
  key_from_bytes := fun bytes => if decide (List.length bytes = 32%nat) then Some bytes else None;
  signature_from_slice := fun bytes => Some bytes;
  ed25519_verify := fun key message sig => bool_decide (sig = key ++ message)
|}.
#[export] Instance signing : Signing := {|
  SigningKey := list byte;
  signing_key_from_bytes := fun bytes => bytes;
  verifying_key := first32;
  ed25519_sign := fun key message => first32 key ++ message;
  signature_to_bytes := fun bytes => bytes;
  key_to_bytes := fun bytes => bytes;
  base64url_encode := fun bytes => string_of_list_byte (Concrete.pad bytes)
|}.

(** The laws the clients rely on hold of it. *)
#[export] Instance signing_laws : SigningLaws.
Proof.
  assert (forall bytes, List.length (first32 bytes) = 32%nat) as Hl.
  { intros bytes. unfold first32. rewrite length_take, length_app, length_replicate. lia. }
  split; cbn [signature_from_slice signature_to_bytes key_from_bytes key_to_bytes verifying_key base64url_decode base64url_encode
    ed25519_verify ed25519_sign crypto signing].
  - done.
  - intros key. by rewrite decide_True by apply Hl.
  - apply Hl.
  - intros bytes. by rewrite str_bytes_string, Concrete.unpad_pad.
  - intros bytes Hb. rewrite str_len_bytes, str_bytes_string. unfold Concrete.pad. rewrite length_app, length_replicate, Hb. done.
  - intros key message. by apply bool_decide_true.
Qed.

(** The text of a heartbeat, read back as [serde_json] would. *)
Definition heartbeat_text : string :=
  string_of_list_byte ([Byte.x7b; Byte.x22] ++ str_bytes "type" ++ [Byte.x22; Byte.x3a; Byte.x22] ++ str_bytes "heartbeat"
    ++ [Byte.x22; Byte.x2c; Byte.x22] ++ str_bytes "version" ++ [Byte.x22; Byte.x3a; Byte.x31; Byte.x2c; Byte.x22]
    ++ str_bytes "generation" ++ [Byte.x22; Byte.x3a; Byte.x33; Byte.x7d]).
#[export] Instance serde : Serde := {|
  jcs_to_vec := fun v => Some (Concrete.pos_bytes (encode (json_tree v)));
  event_from_slice := fun line => if decide (line = str_bytes heartbeat_text) then Some (Heartbeat WIRE_VERSION 3) else None
|}.
Definition event_to_string (event : TunnelEvent) : option string :=
  if decide (event = Heartbeat WIRE_VERSION 3) then Some heartbeat_text else None.
End TestConcrete.

(** ** The tests *)
Section tests.
Context `{Signing} `{Serde}.

Definition repeated (b : byte) : list byte := replicate 32 b.
Definition signing_key (b : byte) : SigningKey := signing_key_from_bytes (repeated b).
Definition signed_receipt (key : SigningKey) (receipt : AllocationReceipt) : result ProtocolError AllocationReceipt :=
  message ← signed_bytes receipt;
  Ok {| rc_allocation := rc_allocation receipt; rc_operation_id := rc_operation_id receipt;
        rc_admin_key_sha256 := rc_admin_key_sha256 receipt; rc_issued_at_ms := rc_issued_at_ms receipt;
        rc_signature := base64url_encode (signature_to_bytes (ed25519_sign key message)) |}.

Definition allocation_receipts_verify_against_any_pinned_key : bool :=
  let current := signing_key Byte.x01 in
  let next := signing_key Byte.x02 in
  let stranger := signing_key Byte.x03 in
  let admin := repeated Byte.x04 in
  let operation_id := 5%N in
  let now := 1000000 in
  let pins := [key_to_bytes (verifying_key current); key_to_bytes (verifying_key next)] in
  let signed_by key := signed_receipt key
    {| rc_allocation := {| a_version := WIRE_VERSION; a_installation_id := 6%N;
         a_hostname := "abcdefghijklmnopqrstuvwxyz.relay.bloom.directory"; a_placement := "relay-test"; a_state := PendingDns |};
       rc_operation_id := operation_id; rc_admin_key_sha256 := sha256_hex admin; rc_issued_at_ms := now; rc_signature := "" |} in
  unwrapping (signed_by current) (fun by_current =>
  unwrapping (signed_by next) (fun by_next =>
  unwrapping (signed_by stranger) (fun by_stranger =>
  asserts [
    is_ok (verify_bytes by_current pins operation_id admin now);
    is_ok (verify_bytes by_next pins operation_id admin now);
    assert_eq (verify_bytes by_stranger pins operation_id admin now) (Err InvalidSignature);
    is_err (verify_bytes by_current [] operation_id admin now);
    assert_eq (verify_bytes by_next pins 7%N admin now) (Err ProtoUnauthorized)]))).

Definition signed_claims_reject_wrong_scope_action_body_and_deadline : bool :=
  let key := signing_key Byte.x07 in
  let body := str_bytes "{}" in
  let audience := "relay-control.bloom.directory" in
  let claims := {| c_version := WIRE_VERSION; c_installation_id := uuid_nil; c_scope := ScopeDnsChallenge;
    c_action := InstallationStatus; c_generation := 2; c_audience := audience; c_operation_id := uuid_nil;
    c_nonce := "nonce"; c_expires_at_ms := 5000; c_body_sha256 := sha256_hex body |} in
  unwrapping (signing_bytes claims) (fun message =>
  let sig := base64url_encode (signature_to_bytes (ed25519_sign key message)) in
  let verify body scope action now := claims_verify claims body sig (verifying_key key) scope action audience now in
  asserts [
    is_ok (verify body ScopeDnsChallenge InstallationStatus 1000);
    assert_eq (verify body SurfaceAdmin InstallationStatus 1000) (Err ProtoUnauthorized);
    assert_eq (verify body ScopeDnsChallenge RetireInstallation 1000) (Err ProtoUnauthorized);
    assert_eq (verify (str_bytes "bad") ScopeDnsChallenge InstallationStatus 1000) (Err InvalidSignature);
    assert_eq (verify body ScopeDnsChallenge InstallationStatus 5000) (Err Expired)]).

Definition hostname_is_exact_and_lowercase : bool :=
  asserts (is_ok (validate_hostname "abcdefghijklmnopqrstuv2345.relay.bloom.directory") ::
    ((fun invalid => is_err (validate_hostname invalid)) <$> [
      "relay.bloom.directory";
      "ABCDefghijklmnopqrstuv2345.relay.bloom.directory";
      "abcdefghijklmnopqrstuv2345.relay.bloom.directory.";
      "x.abcdefghijklmnopqrstuv2345.relay.bloom.directory"])).

Definition acme_environment_accepts_only_its_exact_account_uri_namespace : bool :=
  let production := "https://acme-v02.api.letsencrypt.org/acme/acct/123" in
  let staging := "https://acme-staging-v02.api.letsencrypt.org/acme/acct/456" in
  let overlong := account_uri_prefix Production +:+ string_of_list_byte
    (replicate (Z.to_nat (MAX_ACME_ACCOUNT_URI_LEN + 1 - str_len (account_uri_prefix Production))) Byte.x31) in
  asserts ([
    assert_eq (validate_acme_account_uri production) (Ok Production);
    assert_eq (validate_acme_account_uri staging) (Ok Staging);
    is_err (validate_account_uri Production staging);
    is_err (validate_account_uri Staging production)]
  ++ ((fun invalid => is_err (validate_acme_account_uri invalid)) <$> [
    "https://acme-v02.api.letsencrypt.org/acme/acct/";
    "https://acme-v02.api.letsencrypt.org/acme/acct/123/";
    "https://acme-v02.api.letsencrypt.org/acme/acct/12x";
    "https://example.com/acme/acct/123";
    "http://acme-v02.api.letsencrypt.org/acme/acct/123"])
  ++ [
    str_len overlong =? MAX_ACME_ACCOUNT_URI_LEN + 1;
    is_err (validate_acme_account_uri overlong);
    assert_eq (acme_from_str "production") (Ok Production);
    assert_eq (acme_from_str "staging") (Ok Staging);
    is_err (acme_from_str "STAGING")]).

(** The decoder's buffer is threaded through the pushes. *)
Definition control_decoder_handles_split_and_coalesced_frames (to_string : TunnelEvent -> option string) : bool :=
  let event := Heartbeat WIRE_VERSION 3 in
  unwrapping_option (to_string event) (fun text =>
  let line := str_bytes text ++ [NEWLINE] in
  let first := push [] (take 4 line) in
  let second := push first.2 (drop 4 line) in
  let third := push second.2 (line ++ line) in
  let last := push third.2 (replicate (Z.to_nat (MAX_CONTROL_BODY + 1)) Byte.x78) in
  asserts [
    assert_eq first.1 (Ok []);
    assert_eq second.1 (Ok [event]);
    assert_eq third.1 (Ok [event; event]);
    assert_eq last.1 (Err TooLarge)]).

Section receipts.
Context (installation operation other_operation : Uuid).

Definition sample_allocation : Allocation :=
  {| a_version := WIRE_VERSION; a_installation_id := installation; a_hostname := "abcdefghijklmnopqrstuv2345.relay.bloom.directory";
     a_placement := "shard-1"; a_state := PendingDns |}.

Definition allocation_receipt_binds_operation_and_admin_identity : bool :=
  let key := signing_key Byte.x09 in
  unwrapping (signed_receipt key {| rc_allocation := sample_allocation; rc_operation_id := operation;
    rc_admin_key_sha256 := sha256_hex (repeated Byte.x07); rc_issued_at_ms := 1000; rc_signature := "" |}) (fun receipt =>
  let renamed := {| rc_allocation := {| a_version := a_version sample_allocation;
      a_installation_id := a_installation_id sample_allocation; a_hostname := "sibling.example";
      a_placement := a_placement sample_allocation; a_state := a_state sample_allocation |};
    rc_operation_id := rc_operation_id receipt; rc_admin_key_sha256 := rc_admin_key_sha256 receipt;
    rc_issued_at_ms := rc_issued_at_ms receipt; rc_signature := rc_signature receipt |} in
  asserts [
    is_ok (receipt_verify receipt (verifying_key key) (rc_operation_id receipt) (repeated Byte.x07) 1001);
    assert_eq (receipt_verify receipt (verifying_key key) other_operation (repeated Byte.x07) 1001) (Err ProtoUnauthorized);
    assert_eq (receipt_verify receipt (verifying_key key) (rc_operation_id receipt) (repeated Byte.x08) 1001) (Err ProtoUnauthorized);
    assert_eq (receipt_verify renamed (verifying_key key) (rc_operation_id renamed) (repeated Byte.x07) 1001) (Err InvalidHostname)]).

Definition allocation_receipt_allows_only_bounded_future_clock_offset : bool :=
  let key := signing_key Byte.x09 in
  let now := 1000000 in
  let issued at_ms := signed_receipt key {| rc_allocation := sample_allocation; rc_operation_id := operation;
    rc_admin_key_sha256 := sha256_hex (repeated Byte.x07); rc_issued_at_ms := at_ms; rc_signature := "" |} in
  unwrapping (issued (now + TRUSTED_RESPONSE_CLOCK_SKEW_MS)) (fun receipt =>
  unwrapping (issued (now + TRUSTED_RESPONSE_CLOCK_SKEW_MS + 1)) (fun later =>
  asserts [
    is_ok (receipt_verify receipt (verifying_key key) (rc_operation_id receipt) (repeated Byte.x07) now);
    assert_eq (receipt_verify later (verifying_key key) (rc_operation_id later) (repeated Byte.x07) now) (Err ProtoUnauthorized)])).
End receipts.

Definition protocol_tests (to_string : TunnelEvent -> option string) : list bool := [
  allocation_receipts_verify_against_any_pinned_key;
  signed_claims_reject_wrong_scope_action_body_and_deadline;
  hostname_is_exact_and_lowercase;
  acme_environment_accepts_only_its_exact_account_uri_namespace;
  control_decoder_handles_split_and_coalesced_frames to_string;
  allocation_receipt_binds_operation_and_admin_identity 11%N 12%N 13%N;
  allocation_receipt_allows_only_bounded_future_clock_offset 11%N 12%N].
End tests.

Import TestConcrete.
Definition concrete_protocol_tests : list bool := protocol_tests event_to_string.
Lemma protocol_tests_pass : Forall (eq true) concrete_protocol_tests.
Proof. vm_compute. repeat constructor. Qed.
