(* ===== verification/EdgeTests.v ===== *)
(** * The unit tests of the edge: client addresses and the gateway

    The [tests] modules of crates/bloom-relay-control/src/client_addr.rs and
    crates/bloom-relay/src/main.rs. A test that connects a socket is run on the
    bytes the socket carries; rustls's parser and the random identifiers are
    arguments. The two randomised tests of the gateway are proved for every
    input they draw. The tests that run a gateway on a database, with the
    Broker's client, a browser and further installations, are scripts over the
    gateway's state, which stop at the first assertion that fails: a CONNECT of
    the client runs where the gateway awaits it, and TLS, sockets and the
    container runtime are left out. *)

From Stdlib Require Import Ascii String Strings.Byte.
From stdpp Require Import base strings list gmap.
From S2P Require Import Prelude Protocol Db Witness Ingress Gateway ClientAddr IpText Fuzz ProtocolTests Store StoreCredentials StoreLifecycle.
From S2P Require Import StoreHistory StoreSamples AdminClient BrokerClient.

(** ** client_addr.rs *)
Module ClientAddrTests.
Definition be16 (port : Z) : list byte := be_bytes 2 port.
Definition header_v4 (ip : list byte) (port : Z) : list byte :=
  SIGNATURE ++ [Byte.x21; Byte.x11; Byte.x00; Byte.x0c] ++ ip ++ [Byte.x7f; Byte.x00; Byte.x00; Byte.x01]
  ++ be16 port ++ be16 18443.
Definition split (header : list byte) : list byte * list byte := (take 16 header, drop 16 header).
Definition parsed (header : list byte) : result IoError (option SocketAddr) :=
  let (prefix, body) := split header in parse prefix body.
(** [octets] of the text of an IPv6 address. *)
Definition octets_v6 (text : string) : option (list byte) :=
  match parse_ip text with Some (V6 bits) => Some (be_bytes 16 bits) | _ => None end.

Definition parses_tcp_over_ipv4_and_ipv6 : bool :=
  unwrapping (parsed (header_v4 [Byte.xcb; Byte.x00; Byte.x71; Byte.x07] 50000)) (fun client =>
  unwrapping_option (parse_socket_addr "203.0.113.7:50000") (fun expected =>
  unwrapping_option (octets_v6 "2001:db8::7") (fun source =>
  unwrapping_option (octets_v6 "::1") (fun localhost =>
  let header := SIGNATURE ++ [Byte.x21; Byte.x21; Byte.x00; Byte.x24] ++ source ++ localhost ++ be16 443 ++ be16 18443 in
  unwrapping (parsed header) (fun client_v6 =>
  unwrapping_option (parse_socket_addr "[2001:db8::7]:443") (fun expected_v6 =>
  asserts [assert_eq client (Some expected); assert_eq client_v6 (Some expected_v6)])))))).

Definition an_ipv4_mapped_ipv6_client_is_keyed_as_ipv4 : bool :=
  unwrapping_option (octets_v6 "::ffff:198.51.100.9") (fun mapped =>
  let header := SIGNATURE ++ [Byte.x21; Byte.x21; Byte.x00; Byte.x24] ++ mapped ++ replicate 16 Byte.x00
    ++ [Byte.x00; Byte.x01; Byte.x00; Byte.x02] in
  unwrapping (parsed header) (fun client =>
  unwrapping_option client (fun address =>
  unwrapping_option (parse_ip "198.51.100.9") (fun expected => asserts [assert_eq address.1 expected])))).

Definition a_local_connection_names_no_client : bool :=
  unwrapping (parsed (SIGNATURE ++ [Byte.x20; Byte.x00; Byte.x00; Byte.x00])) (fun client => assert_eq client None).

Definition malformed_headers_are_rejected : bool :=
  let valid := header_v4 [Byte.xc0; Byte.x00; Byte.x02; Byte.x01] 1 in
  let reject header := is_err (parsed header) in
  asserts [
    reject (<[0%nat := Byte.x47]> valid);
    reject (<[12%nat := Byte.x11]> valid);
    reject (<[12%nat := Byte.x22]> valid);
    reject (<[13%nat := Byte.x12]> valid);
    reject (<[13%nat := Byte.x31]> valid);
    reject (<[15%nat := Byte.x04]> valid);
    reject (take 20 valid);
    reject (<[14%nat := Byte.xff]> valid)].

Definition is_acceptor (proxy : bool) (r : result AcceptorError ClientAddrAcceptor) : bool :=
  match r with Ok acceptor => Bool.eqb (proxy_v2 acceptor) proxy | Err _ => false end.
Definition proxy_protocol_requires_a_loopback_bind : bool :=
  unwrapping_option (parse_socket_addr "192.0.2.1:18443") (fun public =>
  unwrapping_option (parse_socket_addr "127.0.0.1:18443") (fun loopback =>
  asserts [
    proxy_v2 {| proxy_v2 := true |};
    is_err (acceptor_from_env (Value "v2") public);
    is_acceptor true (acceptor_from_env (Value "v2") loopback);
    is_err (acceptor_from_env (Value "v1") loopback);
    is_acceptor false (acceptor_from_env NotPresent public)])).

(** A request after [preamble]: the address the handler sees, when the
    acceptor leaves it exactly the request. *)
Definition CRLF : list byte := [Byte.x0d; Byte.x0a].
Definition request_bytes : list byte :=
  str_bytes "GET / HTTP/1.1" ++ CRLF ++ str_bytes "host: relay" ++ CRLF ++ str_bytes "connection: close" ++ CRLF ++ CRLF.
Definition request (acceptor : ClientAddrAcceptor) (preamble : list byte) : option IpAddr :=
  match ClientAddr.accept acceptor (Ok (V4 2130706433, 40000)) true (preamble ++ request_bytes) with
  | Ok (client, rest) => if bool_decide (rest = request_bytes) then Some client.1 else None
  | Err _ => None
  end.
Definition handlers_see_the_client_the_header_names : bool :=
  assert_eq (request {| proxy_v2 := true |} (header_v4 [Byte.xcb; Byte.x00; Byte.x71; Byte.x07] 50000)) (parse_ip "203.0.113.7").
Definition a_connection_without_the_header_is_dropped : bool := assert_eq (request {| proxy_v2 := true |} []) None.
Definition without_proxy_protocol_handlers_see_the_tcp_peer : bool :=
  assert_eq (request {| proxy_v2 := false |} []) (parse_ip "127.0.0.1").

Definition client_addr_tests : list bool := [
  parses_tcp_over_ipv4_and_ipv6;
  an_ipv4_mapped_ipv6_client_is_keyed_as_ipv4;
  a_local_connection_names_no_client;
  malformed_headers_are_rejected;
  proxy_protocol_requires_a_loopback_bind;
  handlers_see_the_client_the_header_names;
  a_connection_without_the_header_is_dropped;
  without_proxy_protocol_handlers_see_the_tcp_peer].
Lemma client_addr_tests_pass : Forall (eq true) client_addr_tests.
Proof. vm_compute. repeat constructor. Qed.
End ClientAddrTests.

(** ** The gateway *)
Module GatewayTests.
Definition HOST : string := "abcdefghijklmnopqrstuv2345.relay.bloom.directory".
Definition OTHER_HOST : string := "bcdefghijklmnopqrstuv23456.relay.bloom.directory".

(** The ClientHello arrives in chunks of seven bytes. *)
Definition fragmented_client_hello_extracts_exact_sni_and_preserves_bytes (accept : list byte -> Hello) (hello : list byte) : bool :=
  unwrapping (read_sni accept (Some <$> chunks 7 hello) []) (fun '(observed, prefix) =>
  asserts [assert_eq observed HOST; assert_eq prefix hello]).
Definition malformed_client_hello_fails_closed (accept : list byte -> Hello) : bool :=
  is_err (read_sni accept [Some (str_bytes "GET / HTTP/1.1" ++ ClientAddrTests.CRLF ++ ClientAddrTests.CRLF); Some []] []).

Definition pre_auth_admission_sheds_excess_socket_before_tls : bool :=
  let slots := 1 in
  unwrapping_option (admit_connection slots) (fun free =>
  asserts [assert_eq (admit_connection free) None; free + 1 =? 1]).

(** [n] connections of one source, all of which must be admitted. *)
Fixpoint all_allowed (n : nat) (source : IpAddr) (now : Z) (q : IngressQuota) : bool * IngressQuota :=
  match n with
  | O => (true, q)
  | S n => let (ok, q) := allow_at source now q in if ok then all_allowed n source now q else (false, q)
  end.
Fixpoint all_sources_allowed (n : nat) (sources : list IpAddr) (now : Z) (q : IngressQuota) : bool * IngressQuota :=
  match sources with
  | [] => (true, q)
  | source :: sources => let (ok, q) := all_allowed n source now q in if ok then all_sources_allowed n sources now q else (false, q)
  end.
Definition ipv4 (a b c d : Z) : IpAddr := V4 (((a * 256 + b) * 256 + c) * 256 + d).
Definition ingress_quota_bounds_source_and_global_handshakes (start : Z) : bool :=
  let quota := ingress_quota_new start in
  let first := ipv4 198 51 100 1 in
  let (a1, quota) := all_allowed 120 first start quota in
  let (a2, quota) := allow_at first start quota in
  let (a3, quota) := all_sources_allowed 120 ((fun index => ipv4 198 51 100 index) <$> seqZ 2 40) start quota in
  let last := ipv4 203 0 113 1 in
  let (a4, quota) := all_allowed 80 last start quota in
  let (a5, quota) := allow_at last start quota in
  let (a6, quota) := allow_at first (start + seconds 60) quota in
  asserts [a1; negb a2; a3; a4; negb a5; a6].

Definition connect_ticket_requires_exact_unexpired_owner_tuple (id other : Uuid) (now : Z) : bool :=
  let ticket := {| k_host := HOST; k_id := id; k_generation := 7; k_deadline := now + seconds 10; k_ref := 0%N |} in
  asserts [
    ticket_claim_matches ticket id HOST 7 (Some HOST) now;
    negb (ticket_claim_matches ticket other HOST 7 (Some HOST) now);
    negb (ticket_claim_matches ticket id OTHER_HOST 7 (Some HOST) now);
    negb (ticket_claim_matches ticket id HOST 8 (Some HOST) now);
    negb (ticket_claim_matches ticket id HOST 7 (Some OTHER_HOST) now);
    negb (ticket_claim_matches ticket id HOST 7 (Some HOST) (k_deadline ticket))].

Definition reconnect_generation_replacement_is_monotonic : bool :=
  asserts [
    generation_can_replace None 1;
    generation_can_replace (Some 6) 7;
    negb (generation_can_replace (Some 7) 7);
    negb (generation_can_replace (Some 8) 7)].

(** The randomised tests: the loop's counters are [accepted] and [total]. *)
Definition source_ip (source : Z) : IpAddr := ipv4 198 51 (source / 256) (source mod 256).
Definition bump (accepted : gmap Z Z) (source : Z) : gmap Z Z := <[source := default 0 (accepted !! source) + 1]> accepted.
Fixpoint quota_rounds (sources : list Z) (now : Z) (quota : IngressQuota) (accepted : gmap Z Z) (total : Z) : bool * IngressQuota :=
  match sources with
  | [] => (true, quota)
  | source :: sources =>
      let (allowed, quota) := allow_at (source_ip source) now quota in
      if allowed then
        let accepted := bump accepted source in
        let total := total + 1 in
        if (default 0 (accepted !! source) <=? 120) && (total <=? 5000)
        then quota_rounds sources now quota accepted total else (false, quota)
      else if (default 0 (accepted !! source) =? 120) || (total =? 5000)
        then quota_rounds sources now quota accepted total else (false, quota)
  end.
Definition ingress_quota_never_exceeds_source_or_global_budget (now : Z) (sources : list Z) : bool :=
  let (held, quota) := quota_rounds sources now (ingress_quota_new now) ∅ 0 in
  let next_window := now + seconds 60 in
  held && (allow_at (ipv4 198 51 100 1) next_window quota).1.

Definition ticket_owner_requires_exact_host_installation_and_generation (host_label : string) (id : Uuid) (generation : Z) : bool :=
  let host := host_label +:+ HOSTNAME_SUFFIX in
  let other_host := "x." +:+ host in
  let other_id := N.lxor id (2 ^ 120) in
  asserts [
    ticket_owner_matches host id generation host id generation;
    negb (ticket_owner_matches host id generation other_host id generation);
    negb (ticket_owner_matches host id generation host other_id generation);
    negb (ticket_owner_matches host id generation host id ((generation + 1) mod 2 ^ 64))].

Lemma source_ip_inj s t : 0 <= s < 200 -> 0 <= t < 200 -> source_ip s = source_ip t -> s = t.
Proof. unfold source_ip, ipv4. intros Hs Ht [= Heq]. rewrite !Z.div_small, !Z.mod_small in Heq by lia. lia. Qed.

(** The test's counters are the quota's. *)
Record counted (now : Z) (q : IngressQuota) (accepted : gmap Z Z) (total : Z) : Prop := {
  cn_start : iq_start q = now;
  cn_total : iq_total q = total;
  cn_total_max : total <= 5000;
  cn_source s : 0 <= s < 200 -> source_count (source_ip s) q = default 0 (accepted !! s);
  cn_source_max s : 0 <= s < 200 -> default 0 (accepted !! s) <= 120
}.

Lemma quota_rounds_hold now sources q accepted total :
  Forall (fun s => 0 <= s < 200) sources -> counted now q accepted total ->
  exists q', quota_rounds sources now q accepted total = (true, q') /\ iq_start q' = now.
Proof.
  intros Hs. revert q accepted total. induction Hs as [|s sources Hs _ IH]; intros q accepted total Hc.
  { exists q. split; [done|]. apply Hc. }
  destruct Hc as [H1 H2 H3 H4 H5]. cbn [quota_rounds]. unfold allow_at, roll_window.
  rewrite H1, Z.sub_diag. change (seconds 60 <=? Z.max 0 0) with false. cbv iota zeta. pose proof (H4 s Hs) as Hq. pose proof (H5 s Hs). rewrite Hq, H2.
  destruct (Z.leb_spec 5000 total); cbn; [|destruct (Z.leb_spec 120 (default 0 (accepted !! s))); cbn].
  - rewrite (proj2 (Z.eqb_eq total 5000)), orb_true_r by lia. by apply IH.
  - rewrite (proj2 (Z.eqb_eq (default 0 _) 120)) by lia. by apply IH.
  - unfold bump at 1. rewrite lookup_insert_eq. cbn. rewrite !(proj2 (Z.leb_le _ _)) by lia. cbn.
    apply IH. split; cbn; try done; try lia; intros t Ht; unfold source_count, bump; cbn.
    + destruct (decide (t = s)) as [->|Hne]; [by rewrite !lookup_insert_eq|].
      rewrite !lookup_insert_ne by (by intros Heq; try apply source_ip_inj in Heq). by apply H4.
    + destruct (decide (t = s)) as [->|Hne]; [rewrite lookup_insert_eq; cbn; lia|]. rewrite lookup_insert_ne by done. by apply H5.
Qed.

(** the gateway's two randomised tests hold of every input they draw.
    Whatever 200 sources connect in one window, and in whatever order, no
    source is admitted more than 120 times and no more than 5000 are admitted
    in all; a refusal means that one of the budgets is spent, and the next
    window admits again. A ticket's owner must match in host, installation
    and generation: changing any one of them refuses the claim. *)
Theorem gateway_property_tests_hold now sources host_label id generation :
  Forall (fun s => 0 <= s < 200) sources -> 0 <= generation < 2 ^ 64 ->
  ingress_quota_never_exceeds_source_or_global_budget now sources = true /\
  ticket_owner_requires_exact_host_installation_and_generation host_label id generation = true.
Proof.
  intros Hs Hg. split.
  - unfold ingress_quota_never_exceeds_source_or_global_budget.
    destruct (quota_rounds_hold now sources (ingress_quota_new now) ∅ 0 Hs) as (q & -> & Hq).
    { by split; intros. }
    unfold allow_at, roll_window. rewrite Hq, Z.add_simpl_l. done.
  - unfold ticket_owner_requires_exact_host_installation_and_generation, ticket_owner_matches, asserts. cbn [forallb].
    set (host := host_label +:+ HOSTNAME_SUFFIX).
    assert (host <> "x." +:+ host) as Hh.
    { intros Heq. apply (f_equal str_len) in Heq. rewrite str_len_app in Heq. change (str_len "x.") with 2 in Heq. lia. }
    assert (id <> N.lxor id (2 ^ 120)) as Hid.
    { intros Heq. apply (f_equal (fun n => N.testbit n 120)) in Heq. rewrite N.lxor_spec, (N.pow2_bits_true 120) in Heq.
      by destruct (N.testbit id 120). }
    assert (generation <> (generation + 1) mod 2 ^ 64) as Hne.
    { intros Heq. destruct (decide (generation + 1 = 2 ^ 64)) as [Ho|Ho]; [rewrite Ho, Z_mod_same_full in Heq; lia|].
      rewrite Z.mod_small in Heq; lia. }
    rewrite !(bool_decide_eq_true_2 (host = host)), !(bool_decide_eq_true_2 (id = id)), (bool_decide_eq_false_2 (host = _)),
      (bool_decide_eq_false_2 (id = _)), Z.eqb_refl, (proj2 (Z.eqb_neq _ _) Hne) by done. done.
Qed.

Lemma gateway_property_tests_hold_witness :
  ingress_quota_never_exceeds_source_or_global_budget 0 [3; 3; 199] = true /\
  ticket_owner_requires_exact_host_installation_and_generation "abcdefghijklmnopqrstuv2345" 9%N 18446744073709551615 = true.
Proof. apply gateway_property_tests_hold; [repeat constructor; lia|lia]. Defined.

(** rustls's parser on one ClientHello of 40 bytes; anything else that starts
    differently is malformed. *)
Definition sample_hello : list byte := Byte.x16 :: replicate 39 Byte.x03.
Definition sample_accept (bytes : list byte) : Hello :=
  if bool_decide (bytes = sample_hello) then ServerName (Some HOST)
  else if bool_decide (head bytes = Some Byte.x16) then NeedMore else Malformed.
Definition gateway_tests : list bool := [
  fragmented_client_hello_extracts_exact_sni_and_preserves_bytes sample_accept sample_hello;
  malformed_client_hello_fails_closed sample_accept;
  pre_auth_admission_sheds_excess_socket_before_tls;
  ingress_quota_bounds_source_and_global_handshakes 1000000;
  connect_ticket_requires_exact_unexpired_owner_tuple 21%N 22%N 1000000;
  reconnect_generation_replacement_is_monotonic].
Lemma gateway_tests_pass : Forall (eq true) gateway_tests.
Proof. vm_compute. repeat constructor. Qed.
End GatewayTests.

(** ** The gateway on a database *)
Module FixtureTests.
(** ** Scripts *)
Definition Script (A : Type) : Type := Gw -> option (A * Gw).
#[export] Instance script_ret : MRet Script := fun A a g => Some (a, g).
#[export] Instance script_bind : MBind Script := fun A B f m g =>
  match m g with Some (a, g') => f a g' | None => None end.
#[export] Instance script_fmap : FMap Script := fun A B f m => a ← m; mret (f a).

Definition panic {A} : Script A := fun _ => None.
Definition check (b : bool) : Script unit := if b then mret tt else panic.
Definition modify (f : Gw -> Gw) : Script unit := fun g => Some (tt, f g).
Definition look {A} (f : Gw -> A) : Script A := fun g => Some (f g, g).
Definition unwrap {E A} (r : result E A) : Script A := match r with Ok a => mret a | Err _ => panic end.
Definition unwrap_option {A} (o : option A) : Script A := match o with Some a => mret a | None => panic end.

(** A request of the store that must succeed, at the database's time. *)
Definition store_call (r : Request) : Script unit := fun g =>
  match exec cfg (g_now g) r (g_db g) with Ok (_, d') => Some (tt, set_db d' g) | Err _ => None end.

(** A handler of the gateway, with the tasks that run while it awaits. *)
Definition quiet : Env := {| e_others := fun _ g => g; e_store := fun _ => StoreOk; e_respond := fun _ => true |}.
Definition served_with {A} (e : Env) (m : GwM A) : Script (result GwError A) := fun g =>
  let '(r, (_, g')) := m e (0%nat, g) in Some (r, g').
Definition served {A} (m : GwM A) : Script (result GwError A) := served_with quiet m.

Section fixture.
Context {Sd : Serde} (uuid_parse_str : string -> option Uuid).
Definition GATEWAY : string := "fixture".

(** ** unauthenticated_control_connection_closes_at_its_deadline *)
Definition bare_post : Headers :=
  {| h_version := None; h_installation := None; h_hostname := None; h_generation := None; h_authorization := None;
     h_ticket := None; h_authority := Some "relay-control.bloom.directory"%string |}.

(** [n] refused requests, then the deadline: the connection ends, in order,
    and each request was answered 401. *)
Definition unauthenticated_control_connection_closes_at_its_deadline (n : nat) (g : Gw) : bool :=
  match (r ← served (post_tunnel uuid_parse_str GATEWAY bare_post 1);
         closed ← served (serve_control_connection uuid_parse_str GATEWAY
                    (replicate n (PostTunnel bare_post) ++ [AuthenticationDeadline; PostTunnel bare_post]) false 1);
         mret (r, closed)) g with
  | Some ((Ok (S401, _, None), Ok []), g') => bool_decide (g_tunnels g' = g_tunnels g)
  | _ => false
  end.

(** ** run_opaque_tls_fixture *)

(** An installation that is ready, with a tunnel bearer. *)
Definition provision (operation id bearer_operation : Uuid) (random : list byte) (marker : byte) (account token : string) : Script string :=
  _ ← store_call (Allocate operation (replicate 32 marker) GATEWAY id random);
  _ ← store_call (RegisterAccount id account);
  _ ← store_call (MarkDnsReady id);
  _ ← store_call (IssueBearer id bearer_operation "tunnel" (sha256 (str_bytes token)) 3600);
  host ← look (fun g => hostname_of id (g_db g));
  unwrap_option host.

Definition raw_tunnel_post (id : Uuid) (host token : string) : Script Tunnel :=
  r ← served (post_tunnel uuid_parse_str GATEWAY
    {| h_version := Some (u64_to_string WIRE_VERSION); h_installation := Some (uuid_to_string id); h_hostname := Some host;
       h_generation := None; h_authorization := Some ("Bearer " +:+ token); h_ticket := None;
       h_authority := Some "relay-control.bloom.directory"%string |} MAX_TUNNEL_LIFECYCLES_PER_CONNECTION);
  match r with Ok (S200, _, Some (_, tunnel)) => mret tunnel | _ => panic end.

Definition raw_connect (id : Uuid) (host : string) (generation : Z) (token : option string) (ticket : string) : Script Status :=
  r ← served (connect uuid_parse_str GATEWAY
    {| h_version := Some (u64_to_string WIRE_VERSION); h_installation := Some (uuid_to_string id); h_hostname := Some host;
       h_generation := Some (u64_to_string generation); h_authorization := (fun t => "Bearer " +:+ t) <$> token;
       h_ticket := Some ticket; h_authority := Some host |});
  unwrap r.

Definition generation_of (host : string) : Script Z :=
  tunnel ← look (fun g => g_tunnels g !! host); t_generation <$> unwrap_option tunnel.

(** The container of the second variant: tunnels pass, the rest is refused. *)
Definition haproxy_passes (method path : string) : bool :=
  bool_decide (str_map to_ascii_lowercase path = "/v1/tunnel"%string) || bool_decide (method = "CONNECT"%string).

(** A tunnel client that reached readiness: its request, answered 200, and its
    loop. *)
Record Client := { cl_client : TunnelClient; cl_token : string; cl_run : TunnelRun; cl_tunnel : Tunnel }.
Definition fixture_setup (token : string) : TunnelSetup :=
  {| su_file := Some {| sf_is_file := true; sf_len := str_len token; sf_mode := 384; sf_content := Some token |};
     su_tcp := true; su_server_name := true; su_tls := true; su_h2 := true; su_request := true; su_sent := true; su_status := Some 200 |}.
Definition start_client (through_haproxy : bool) (config : TunnelConfig) (token : string) : Script Client :=
  client ← unwrap (tunnel_new config CEREMONY_UPSTREAM);
  _ ← check (negb through_haproxy || haproxy_passes "POST" "/v1/tunnel");
  match run_until_ready client (fixture_setup token) [] with
  | (Some headers, (None, run)) =>
      r ← served (post_tunnel uuid_parse_str GATEWAY headers MAX_TUNNEL_LIFECYCLES_PER_CONNECTION);
      _ ← check (tr_ready run);
      match r with
      | Ok (S200, _, Some (_, tunnel)) => mret {| cl_client := client; cl_token := token; cl_run := run; cl_tunnel := tunnel |}
      | _ => panic
      end
  | _ => panic
  end.

(** The client's task of the gateway's last message. *)
Definition task_for (c : Client) (clock : nat -> Z) (g : Gw) : option StreamTask :=
  message ← last (g_messages g);
  if negb (bool_decide (message.1 = t_ref (cl_tunnel c))) then None
  else last (tr_started (handle_events (cl_client c) (cl_token c) [message.2] clock 0 (cl_run c)).2).

(** While the browser waits, the client answers an OPEN whose ticket is still
    there with its CONNECT. *)
Definition answering (c : Client) (clock : nat -> Z) (key : string) : Env :=
  {| e_others := fun _ g =>
       match task_for c clock g with
       | Some task => if bool_decide (is_Some (g_tickets g !! key)) then (connect uuid_parse_str GATEWAY (sk_headers task) quiet (0%nat, g)).2.2 else g
       | None => g
       end;
     e_store := fun _ => StoreOk; e_respond := fun _ => true |}.

(** A browser's stream up to the bridge, claimed by the client. *)
Definition browser_stream (through_haproxy : bool) (c : Client) (clock : nat -> Z) (host key : string) (connection_id : Uuid) (hello : list byte) :
    Script StreamTask :=
  _ ← check (negb through_haproxy || haproxy_passes "CONNECT" "");
  r ← served_with (answering c clock key) (browser_connection GATEWAY (Ok (host, hello)) key connection_id (clock 0%nat) true);
  match r with
  | Ok (_, tunnel, _) =>
      _ ← check (bool_decide (tunnel = cl_tunnel c));
      task ← look (task_for c clock);
      unwrap_option task
  | Err _ => panic
  end.

(** With no local listener the stream ends, and with it the browser's
    connection, which got nothing; the tunnel and its readiness stay. *)
Definition one_failed_stream (through_haproxy : bool) (c : Client) (clock : nat -> Z) (host key : string) (connection_id : Uuid) (hello : list byte) : Script unit :=
  first_generation ← generation_of host;
  task ← browser_stream through_haproxy c clock host key connection_id hello;
  let refused := open_stream {| ss_request := true; ss_sent := Ok tt; ss_answer := Some (Ok 200); ss_local := false; ss_in_time := true |} [] in
  _ ← match refused with
      | Some (Err error) =>
          let '(ended, run) := tunnel_loop (cl_client c) (cl_token c) [Joined (Stream (Err error)); StreamEnded] (start_stream task (cl_run c)) in
          check (match ended with None => true | Some _ => false end && tr_ready run)
      | _ => panic
      end;
  bridge ← unwrap (bridge_start hello [Z.of_nat (List.length hello)]);
  _ ← check (match bridge_loop bridge [TunnelError] with Some (Err _) => true | _ => false end && Nat.eqb (List.length (br_to_browser bridge)) 0);
  generation ← generation_of host;
  check (generation =? first_generation).

(** The ticket of the test, put beside the gateway's own. *)
Definition insert_ticket (key host : string) (id : Uuid) (generation : Z) : Script N :=
  r ← look g_next;
  _ ← modify (fun g => issue key {| k_host := host; k_id := id; k_generation := generation; k_deadline := g_instant g + seconds 10; k_ref := r |} g);
  mret r.
Definition ticket_kept (key : string) : Script unit := kept ← look (fun g => bool_decide (is_Some (g_tickets g !! key))); check kept.

Definition status_is (expected : Status) (s : Status) : bool :=
  match expected, s with S200, S200 | S401, S401 | S404, S404 | S409, S409 | S410, S410 | S503, S503 => true | _, _ => false end.

(** Every CONNECT is authenticated by itself, and only the exact owner of the
    ticket gets the stream, once. *)
Definition ticket_ownership (id : Uuid) (host token : string) (first_generation : Z) (extra_id : Uuid) (extra_host extra_token : string)
    (extra_generation : Z) (wrong_token test_ticket : string) : Script unit :=
  r ← insert_ticket test_ticket host id first_generation;
  s1 ← raw_connect id host first_generation None test_ticket;
  _ ← check (status_is S401 s1); _ ← ticket_kept test_ticket;
  s2 ← raw_connect id host first_generation (Some wrong_token) test_ticket;
  _ ← check (status_is S401 s2); _ ← ticket_kept test_ticket;
  s3 ← raw_connect extra_id extra_host extra_generation (Some extra_token) test_ticket;
  _ ← check (status_is S410 s3); _ ← ticket_kept test_ticket;
  s4 ← raw_connect id host (Z.max 0 (first_generation - 1)) (Some token) test_ticket;
  _ ← check (status_is S401 s4); _ ← ticket_kept test_ticket;
  s5 ← raw_connect id host first_generation (Some token) test_ticket;
  _ ← check (status_is S200 s5);
  claimed ← look (fun g => g_delivered g !! r); _ ← check (bool_decide (is_Some claimed));
  gone ← look (fun g => bool_decide (g_tickets g !! test_ticket = None)); _ ← check gone;
  s6 ← raw_connect id host first_generation (Some token) test_ticket;
  check (status_is S410 s6).

(** Dropping one tunnel's body ends its lifecycle, and no other tunnel. *)
Definition dropped_body (host_a : string) (tunnel_a : Tunnel) (host_b : string) (generation_b : Z) : Script unit :=
  r ← served (tunnel_lifecycle GATEWAY host_a tunnel_a [(Reset, true)]); _ ← unwrap r;
  gone ← look (fun g => bool_decide (g_tunnels g !! host_a = None)); _ ← check gone;
  generation ← generation_of host_b;
  check (generation =? generation_b).

(** [ping] reaches the upstream and [pong] the browser. *)
Definition ping_pong (through_haproxy : bool) (c : Client) (clock : nat -> Z) (host key : string) (connection_id : Uuid) (hello : list byte) : Script unit :=
  task ← browser_stream through_haproxy c clock host key connection_id hello;
  _ ← check (bool_decide (sk_upstream task = CEREMONY_UPSTREAM));
  bridge ← unwrap (bridge_start hello [Z.of_nat (List.length hello)]);
  match open_stream {| ss_request := true; ss_sent := Ok tt; ss_answer := Some (Ok 200); ss_local := true; ss_in_time := true |}
          [RemoteData hello true true; RemoteData (str_bytes "ping") true true; LocalRead (str_bytes "pong") [4]; LocalEof true; RemoteEnd true] with
  | Some (Ok splice) =>
      _ ← check (bool_decide (concat (sp_to_local splice) = hello ++ str_bytes "ping"));
      match bridge_loop bridge (BrowserRead (str_bytes "ping") [4] :: ((fun bytes => TunnelData bytes true) <$> sp_to_remote splice) ++ [TunnelEnd; BrowserEof]) with
      | Some (Ok b) => check (bool_decide (concat (br_to_tunnel b) = concat (sp_to_local splice)) && bool_decide (concat (br_to_browser b) = str_bytes "pong"))
      | _ => panic
      end
  | _ => panic
  end.

(** A second connection of the same installation fences the first. *)
Definition reconnect_fences (through_haproxy : bool) (config : TunnelConfig) (id : Uuid) (host token : string) (first : Client) (first_generation : Z) : Script unit :=
  second ← start_client through_haproxy config token;
  second_generation ← generation_of host;
  _ ← check (first_generation <? second_generation);
  old ← look (fun g => lease_is_current (g_now g) id GATEWAY first_generation (g_db g)); _ ← check (negb old);
  current ← look (fun g => lease_is_current (g_now g) id GATEWAY second_generation (g_db g)); _ ← check current;
  cancelled ← look (fun g => bool_decide (t_ref (cl_tunnel first) ∈ g_cancelled g)); _ ← check cancelled;
  r ← served (tunnel_lifecycle GATEWAY host (cl_tunnel first) [(Cancel, true)]); _ ← unwrap r;
  kept ← generation_of host; _ ← check (kept =? second_generation);
  let '(first_end, first_run) := tunnel_loop (cl_client first) (cl_token first) [FrameEnd] (cl_run first) in
  let '(second_end, _) := tunnel_loop (cl_client second) (cl_token second) [Shutdown] (cl_run second) in
  check (match first_end with Some (Err Transport) => true | _ => false end && negb (tr_ready first_run)
         && match second_end with Some (Ok _) => true | _ => false end).

(** The fresh identifiers, random bytes and addresses of a run. *)
Record Draws := {
  dw_ids : Uuid * Uuid * Uuid;
  dw_operations : list Uuid;
  dw_random : list byte * list byte * list byte;
  dw_gateway : SocketAddr;
  dw_connections : Uuid * Uuid;
  dw_tickets : string * string * string;
  dw_clock : nat -> Z;
  dw_hello : list byte
}.

Definition run_opaque_tls_fixture (w : Draws) (through_haproxy : bool) : Script unit :=
  let '(id, id_a, id_b) := dw_ids w in
  let '(random, random_a, random_b) := dw_random w in
  let '(failing, key, test_ticket) := dw_tickets w in
  let operation n := default 0%N (dw_operations w !! n) in
  let token := string_of_list_byte (replicate 43 Byte.x78) in
  host ← provision (operation 0%nat) id (operation 1%nat) random Byte.x07 "https://acme-v02.api.letsencrypt.org/acme/acct/123" token;
  let config := {| tc_gateway := dw_gateway w; tc_control_server_name := "relay-control.bloom.directory"; tc_hostname := host;
                   tc_installation_id := id; tc_credential_path := "/tmp/bloom-relay-test.token" |} in
  first ← start_client through_haproxy config token;
  first_generation ← generation_of host;
  _ ← one_failed_stream through_haproxy first (dw_clock w) host failing (dw_connections w).1 (dw_hello w);
  let token_of marker := string_of_list_byte (replicate 43 (byte_of_Z (97 + marker))) in
  host_a ← provision (operation 2%nat) id_a (operation 3%nat) random_a Byte.x08 "https://acme-v02.api.letsencrypt.org/acme/acct/8" (token_of 8);
  host_b ← provision (operation 4%nat) id_b (operation 5%nat) random_b Byte.x09 "https://acme-v02.api.letsencrypt.org/acme/acct/9" (token_of 9);
  tunnel_a ← raw_tunnel_post id_a host_a (token_of 8);
  _ ← raw_tunnel_post id_b host_b (token_of 9);
  generation_a ← generation_of host_a;
  generation_b ← generation_of host_b;
  _ ← ticket_ownership id host token first_generation id_a host_a (token_of 8) generation_a (string_of_list_byte (replicate 43 Byte.x7a)) test_ticket;
  _ ← dropped_body host_a tunnel_a host_b generation_b;
  _ ← ping_pong through_haproxy first (dw_clock w) host key (dw_connections w).2 (dw_hello w);
  reconnect_fences through_haproxy config id host token first first_generation.

Definition passes {A} (m : Script A) (g : Gw) : bool := match m g with Some _ => true | None => false end.
Definition opaque_tls_reaches_fixed_upstream_and_reconnect_fences_old_generation (w : Draws) (g : Gw) : bool :=
  passes (run_opaque_tls_fixture w false) g.
Definition haproxy_h2_routes_authenticated_tunnels_across_backend_connections (w : Draws) (g : Gw) : bool :=
  passes (run_opaque_tls_fixture w true) g.
End fixture.

(** ** A run *)
#[local] Instance no_lines : Serde := {| jcs_to_vec := fun _ => None; event_from_slice := fun _ => None |}.
Definition draws : Draws :=
  {| dw_ids := (41%N, 42%N, 43%N); dw_operations := [51; 52; 53; 54; 55; 56]%N;
     dw_random := (replicate 16 Byte.x11, replicate 16 Byte.x22, replicate 16 Byte.x33);
     dw_gateway := (LOCALHOST, 40443); dw_connections := (61%N, 62%N); dw_tickets := ("ticket-a", "ticket-b", "ticket-c")%string;
     dw_clock := fun _ => 1700000007000; dw_hello := [Byte.x16; Byte.x03; Byte.x01] |}.
Definition parse_drawn (s : string) : option Uuid :=
  snd <$> list_find (fun id => uuid_to_string id = s) [41; 42; 43]%N.
Definition new_gateway : Gw := gateway_start (at_second 7) 0 empty_db.

Definition fixture_tests : list bool := [
  unauthenticated_control_connection_closes_at_its_deadline parse_drawn 4 new_gateway;
  opaque_tls_reaches_fixed_upstream_and_reconnect_fences_old_generation parse_drawn draws new_gateway;
  haproxy_h2_routes_authenticated_tunnels_across_backend_connections parse_drawn draws new_gateway].
Lemma fixture_tests_pass : Forall (eq true) fixture_tests.
Proof. vm_compute. repeat constructor. Qed.
End FixtureTests.
