(* ===== verification/CloudflareTests.v ===== *)
(** * The unit tests of the Cloudflare provider

    The [tests] module of crates/bloom-relay-dns/src/cloudflare.rs, run on the
    model. The tests' HTTP fixtures are an instance of the service that
    answers from a queue and records the requests it saw. *)

From Stdlib Require Import Ascii String Strings.Byte.
From stdpp Require Import base strings list countable.
From S2P Require Import Prelude Protocol Db IpText Dns Cloudflare CloudflareTrace CloudflarePlan CloudflareProperties CloudflareSamples.
From S2P Require Import ReceiptSigner Fuzz ProtocolTests.
Import CloudflareConcrete.

(** ** Fixtures *)
Record Fixture := { queue : list (Request -> Response); observed : list Request }.
Definition fixture_api (request : Request) (z : Fixture) : Response * Fixture :=
  match queue z with
  | [] => (TransportFailed, z)
  | answer :: queue => (answer request, {| queue := queue; observed := observed z ++ [request] |})
  end.
Definition paged (bytes : list byte) : option (Envelope (list Record_)) :=
  '(pages, records) ← (decode (unbits bytes) : option (Z * list Record_));
  Some {| success := true; result_ := Some records; total_pages := Some pages |}.
#[local] Instance Fixture_api : CloudflareApi := {
  zone := Fixture;
  zone_records _ := [];
  api := fixture_api;
  decode_records := paged;
  decode_value _ := Some {| success := true; result_ := Some tt; total_pages := None |}
}.

Definition listed (records : list Record_) (pages : Z) : Response := Answer 200 [Some (bits (encode (pages, records)))].
Definition done : Response := Answer 200 [Some []].
(** [fixture_with_pages]: the zone it serves, and the provider. *)
Definition fixture_zone (records : list Record_) (requests : nat) (pages : Z) : Fixture :=
  {| queue := replicate requests (fun request => match request with Get _ => listed records pages | _ => done end); observed := [] |}.
Definition TEST_ZONE : string := "0123456789abcdef0123456789abcdef".
Definition HOST : string := "abcdefghijklmnopqrstuv2345.relay.bloom.directory".
Definition ACCOUNT : string := "https://acme-v02.api.letsencrypt.org/acme/acct/123".
Definition fixture_provider (s : CloudflareScope) : result DnsError CloudflareProvider := cloudflare_new true TEST_ZONE "fixture-token" s.

Definition repeat_char (b : byte) (n : nat) : string := string_of_list_byte (replicate n b).
Definition record_id (b : byte) : string := repeat_char b 32.
Definition record (b : byte) (n k c : string) (t : Z) (p : bool) (comment_ : string) (d : option CaaData) : Record_ :=
  {| id := record_id b; name := n; kind := k; content := c; ttl := t; proxied := p; comment := comment_; data := d |}.
Definition caa (t v : string) : option CaaData := Some {| flags := 0; tag := t; value := v |}.
Definition change_for (addresses : list string) : option NameRecords :=
  ips ← mapM parse_ip addresses;
  Some {| nr_hostname := HOST; nr_addresses := ips; nr_acme_account_uri := ACCOUNT |}.

Definition is_get (r : Request) : bool := match r with Get _ => true | _ => false end.
Definition is_post (r : Request) : bool := match r with Post _ => true | _ => false end.
Definition is_patch (r : Request) : bool := match r with Patch _ _ => true | _ => false end.
Definition deletes (i : string) (r : Request) : bool := match r with Delete j => bool_decide (i = j) | _ => false end.
Definition is_conflict {A} (r : result DnsError A) : bool := match r with Err Conflict => true | _ => false end.
Definition is_unavailable {A} (r : result DnsError A) : bool := match r with Err Unavailable => true | _ => false end.
(** [requests[i]], when there is one. *)
Definition at_index (z : Fixture) (i : nat) (p : Request -> bool) : bool :=
  match observed z !! i with Some r => p r | None => false end.

(** ** The tests *)
Definition exact_zone_and_scope_validation : bool :=
  asserts [is_ok (cloudflare_new true TEST_ZONE "token" CfServing); is_err (cloudflare_new true "other" "token" CfServing)] &&
  unwrapping (cloudflare_new true TEST_ZONE "token" CfServing) (fun provider => is_err (require provider CfChallenge)).

Definition serving_records_are_exact_and_unproxied : bool :=
  unwrapping_option (change_for ["192.0.2.1"; "2001:db8::1"]) (fun records =>
  unwrapping (serving_desired records) (fun desired =>
  unwrapping_option (find (fun e => bool_decide (e.1.1 = "A"%string)) desired) (fun a =>
  unwrapping_option (find (fun e => starts_with "issuewild:" e.1.2) desired) (fun wild =>
  asserts [
    Nat.eqb (List.length desired) 4;
    forallb (fun e => bool_decide (b_name e.2 = HOST) && bool_decide (b_comment e.2 = SERVING_COMMENT)) desired;
    assert_eq (b_proxied a.2) (Some false);
    assert_eq (value <$> b_data wild.2) (Some ";")])))).

Definition challenge_set_keeps_wanted_values_and_removes_the_rest : bool :=
  let n := "_acme-challenge." +:+ HOST in
  let keep := repeat_char Byte.x6b 43 in
  let stale_ := repeat_char Byte.x73 43 in
  let add := repeat_char Byte.x6e 43 in
  let records := [
    record Byte.x61 n "TXT" (quoted keep) 60 false CHALLENGE_COMMENT None;
    record Byte.x62 n "TXT" (quoted keep) 60 false CHALLENGE_COMMENT None;
    record Byte.x63 n "TXT" (quoted stale_) 60 false (CHALLENGE_PREFIX +:+ "00000000-0000-0000-0000-000000000001") None] in
  unwrapping (fixture_provider CfChallenge) (fun provider =>
  let (r, z) := cf_set_challenge provider HOST [keep; add] (fixture_zone records 4 1) in
  asserts [
    is_ok r;
    at_index z 0 (fun request => match request with Get exact => bool_decide (exact = n) | _ => false end);
    at_index z 1 (deletes (record_id Byte.x62));
    at_index z 2 (deletes (record_id Byte.x63));
    at_index z 3 is_post]).

Definition challenge_set_refuses_unmanaged_records_without_writing : bool :=
  let n := "_acme-challenge." +:+ HOST in
  let records := [record Byte.x61 n "TXT" (quoted "operator") 60 false "operator" None] in
  unwrapping (fixture_provider CfChallenge) (fun provider =>
  let (r, z) := cf_set_challenge provider HOST [] (fixture_zone records 1 1) in
  asserts [is_conflict r; Nat.eqb (List.length (observed z)) 1]).

Definition foreign_serving_record_causes_no_write : bool :=
  let records := [record Byte.x61 HOST "A" "192.0.2.1" 300 false "operator" None] in
  unwrapping (fixture_provider CfServing) (fun provider =>
  unwrapping_option (change_for ["192.0.2.2"]) (fun change =>
  let (r, z) := cf_publish_name provider change (fixture_zone records 1 1) in
  asserts [is_conflict r; Nat.eqb (List.length (observed z)) 1; at_index z 0 is_get])).

Definition empty_result_page_zero_can_create_records : bool :=
  unwrapping (fixture_provider CfServing) (fun provider =>
  unwrapping_option (change_for ["192.0.2.2"]) (fun change =>
  let (r, z) := cf_publish_name provider change (fixture_zone [] 4 0) in
  asserts [is_ok r; Nat.eqb (List.length (List.filter is_post (observed z))) 3])).

Definition retry_plan_keeps_existing_values_after_partial_write : bool :=
  unwrapping_option (change_for ["192.0.2.2"]) (fun change =>
  unwrapping (serving_desired change) (fun desired =>
  unwrapping (plan_serving [] desired) (fun initial =>
  let tag_at i := b ← missing initial !! i; tag <$> b_data b in
  let existing := record Byte.x61 HOST "A" "192.0.2.2" 300 false SERVING_COMMENT None in
  unwrapping (plan_serving [existing] desired) (fun plan =>
  asserts [
    Nat.eqb (List.length (missing initial)) 3;
    assert_eq (tag_at 0%nat) (Some "issuewild");
    assert_eq (tag_at 1%nat) (Some "issue");
    Nat.eqb (List.length (stale plan)) 0;
    Nat.eqb (List.length (missing plan)) 2;
    Nat.eqb (List.length (updates plan)) 0])))).

Definition ambiguous_create_is_reconciled_from_next_list : bool :=
  let existing := [record Byte.x61 HOST "CAA" ("0 issuewild " +:+ quoted ";") 300 false SERVING_COMMENT (caa "issuewild" ";")] in
  let replies := [listed [] 0; Answer 503 [Some []]; listed existing 1; done; done] in
  unwrapping (fixture_provider CfServing) (fun provider =>
  unwrapping_option (change_for ["192.0.2.2"]) (fun change =>
  let (first, z) := cf_publish_name provider change {| queue := (fun reply _ => reply) <$> replies; observed := [] |} in
  let (second, z) := cf_publish_name provider change z in
  asserts [
    is_unavailable first;
    is_ok second;
    Nat.eqb (List.length (observed z)) 5;
    at_index z 0 is_get; at_index z 1 is_post; at_index z 2 is_get; at_index z 3 is_post; at_index z 4 is_post])).

Definition owned_metadata_drift_uses_patch_in_place : bool :=
  let existing := record Byte.x61 HOST "A" "192.0.2.2" 120 true SERVING_COMMENT None in
  unwrapping_option (change_for ["192.0.2.2"]) (fun change =>
  unwrapping (serving_desired change) (fun desired =>
  unwrapping (plan_serving [existing] desired) (fun plan =>
  unwrapping_option (head (updates plan)) (fun '(r, body) =>
  let (updated, z) := update r body (fixture_zone [] 1 1) in
  asserts [
    Nat.eqb (List.length (stale plan)) 0;
    Nat.eqb (List.length (missing plan)) 2;
    Nat.eqb (List.length (updates plan)) 1;
    is_ok updated;
    at_index z 0 is_patch])))).

Definition retirement_keeps_wildcard_deny_until_issue_is_removed : bool :=
  let records := [
    record Byte.x61 HOST "CAA" ("0 issuewild " +:+ quoted ";") 300 false SERVING_COMMENT (caa "issuewild" ";");
    record Byte.x62 HOST "A" "192.0.2.2" 300 false SERVING_COMMENT None;
    record Byte.x63 HOST "CAA" ("0 issue " +:+ quoted "letsencrypt.org") 300 false SERVING_COMMENT (caa "issue" "letsencrypt.org")] in
  unwrapping (fixture_provider CfServing) (fun provider =>
  let (r, z) := cf_retire_name provider HOST (fixture_zone records 4 1) in
  asserts [
    is_ok r;
    at_index z 1 (deletes (record_id Byte.x63));
    at_index z 2 (deletes (record_id Byte.x62));
    at_index z 3 (deletes (record_id Byte.x61))]).

Definition cloudflare_tests : list bool := [
  exact_zone_and_scope_validation;
  serving_records_are_exact_and_unproxied;
  challenge_set_keeps_wanted_values_and_removes_the_rest;
  challenge_set_refuses_unmanaged_records_without_writing;
  foreign_serving_record_causes_no_write;
  empty_result_page_zero_can_create_records;
  retry_plan_keeps_existing_values_after_partial_write;
  ambiguous_create_is_reconciled_from_next_list;
  owned_metadata_drift_uses_patch_in_place;
  retirement_keeps_wildcard_deny_until_issue_is_removed].
Lemma cloudflare_tests_pass : Forall (eq true) cloudflare_tests.
Proof. vm_compute. repeat constructor. Qed.
