(* ===== verification/DnsTests.v ===== *)
(** * The unit tests of the DNS library and worker

    The [tests] modules of crates/bloom-relay-dns/src/lib.rs,
    crates/bloom-relay-dns/src/route53.rs and
    crates/bloom-relay-control/src/dns_worker.rs, run on the model. The mocked
    Route 53 client of the tests is an instance of the service that answers by
    its rules and counts the change batches it accepts. *)

From Stdlib Require Import Ascii String Strings.Byte.
From stdpp Require Import base strings list gmap.
From S2P Require Import Prelude Protocol Db StoreOutbox ReceiptSigner Fuzz IpText Dns DnsWorker Route53 Operations ProtocolTests.

Definition HOST : string := "abcdefghijklmnopqrstuv2345.relay.bloom.directory".
Definition repeat_char (b : byte) (n : nat) : string := string_of_list_byte (replicate n b).

(** ** lib.rs *)
Module MemoryTests.
Definition empty : MemoryState := {| names := ∅; challenges := ∅ |}.

Definition challenge_set_is_replaced_exactly_and_validated : bool :=
  let a := repeat_char Byte.x61 43 in
  let b := repeat_char Byte.x62 43 in
  let (r1, dns1) := set_challenge HOST [a; b] empty in
  let (r2, dns2) := set_challenge HOST [b] dns1 in
  let (r3, dns3) := set_challenge HOST [] dns2 in
  asserts ([
    is_ok r1; assert_eq (memory_challenge HOST dns1) [a; b];
    is_ok r2; assert_eq (memory_challenge HOST dns2) [b];
    is_ok r3; assert_eq (memory_challenge HOST dns3) []]
  ++ ((fun invalid => is_err (set_challenge HOST invalid dns3).1) <$> [[a; a]; [a; b; repeat_char Byte.x63 43]; ["short"]])
  ++ [is_err (challenge_name "sibling.example")]).

Definition retirement_splits_serving_and_challenge_records : bool :=
  unwrapping_option (parse_ip "192.0.2.10") (fun address =>
  let (r1, dns1) := publish_name {| nr_hostname := HOST; nr_addresses := [address];
    nr_acme_account_uri := "https://acme-v02.api.letsencrypt.org/acme/acct/123" |} empty in
  let (r2, dns2) := set_challenge HOST [repeat_char Byte.x76 43] dns1 in
  let (r3, dns3) := retire_name HOST dns2 in
  let (r4, dns4) := retire_challenge HOST dns3 in
  asserts [
    is_ok r1; is_ok r2; is_ok r3;
    match memory_records HOST dns3 with None => true | Some _ => false end;
    negb (assert_eq (memory_challenge HOST dns3) []);
    is_ok r4;
    assert_eq (memory_challenge HOST dns4) []]).

Definition caa_binds_exact_known_production_and_staging_accounts : bool :=
  let overlong := account_uri_prefix Staging +:+
    repeat_char Byte.x31 (Z.to_nat (MAX_ACME_ACCOUNT_URI_LEN + 1 - str_len (account_uri_prefix Staging))) in
  let bound account := unwrapping (caa_values account) (fun values => assert_eq values [
    "0 issue " +:+ QUOTE +:+ "letsencrypt.org; validationmethods=dns-01; accounturi=" +:+ account +:+ QUOTE;
    "0 issuewild " +:+ QUOTE +:+ ";" +:+ QUOTE]) in
  asserts ((bound <$> [
    "https://acme-v02.api.letsencrypt.org/acme/acct/123";
    "https://acme-staging-v02.api.letsencrypt.org/acme/acct/456"])
  ++ ((fun invalid => is_err (caa_values invalid)) <$> [
    "https://example.com/acme/acct/123";
    "https://acme-staging-v02.api.letsencrypt.org/acme/acct/";
    "https://acme-staging-v02.api.letsencrypt.org/acme/acct/123?other=true"])
  ++ [is_err (caa_values overlong)]).

Definition memory_tests : list bool := [
  challenge_set_is_replaced_exactly_and_validated;
  retirement_splits_serving_and_challenge_records;
  caa_binds_exact_known_production_and_staging_accounts].
Lemma memory_tests_pass : Forall (eq true) memory_tests.
Proof. vm_compute. repeat constructor. Qed.
End MemoryTests.

(** ** route53.rs *)
Module Route53Tests.
(** The mock's rules: the listing, and the batches it accepts. *)
Record Mock := { m_listing : option (list ResourceRecordSet); m_change : list Change -> bool; num_calls : nat }.
#[local] Instance Mock_api : Route53Api := {
  hosted_zone := Mock;
  record_sets _ := ∅;
  list_resource_record_sets _ max z := (take max <$> m_listing z, z);
  change_resource_record_sets batch z :=
    if m_change z batch then (true, {| m_listing := m_listing z; m_change := m_change z; num_calls := S (num_calls z) |}) else (false, z)
}.

Definition quoted (value : string) : string := QUOTE +:+ value +:+ QUOTE.
Definition published (value : string) : list ResourceRecordSet :=
  [{| rs_name := "_acme-challenge." +:+ HOST +:+ "."; rs_type := RrTxt; rs_ttl := 30; rs_values := [quoted value] |}].
Definition is_upsert (c : Change) : bool := match ch_action c with Upsert => true | Delete => false end.

Definition challenge_set_is_one_upserted_record_set_and_empty_deletes_it : bool :=
  let a := repeat_char Byte.x61 43 in
  let b := repeat_char Byte.x62 43 in
  let upsert batch := match batch with
    | [c] => is_upsert c && bool_decide (rs_values (ch_set c) = [quoted a; quoted b])
    | _ => false
    end in
  let delete_first batch := match batch with c :: _ => negb (is_upsert c) | [] => false end in
  let (r1, z1) := r53_set_challenge HOST [a; b] {| m_listing := None; m_change := upsert; num_calls := 0 |} in
  let (r2, z2) := r53_set_challenge HOST [] {| m_listing := Some (published a); m_change := delete_first; num_calls := 0 |} in
  let (r3, z3) := r53_set_challenge HOST [a; a] {| m_listing := None; m_change := fun _ => false; num_calls := 0 |} in
  asserts [is_ok r1; Nat.eqb (num_calls z1) 1; is_ok r2; Nat.eqb (num_calls z2) 1; is_err r3].

Definition provider_changes_are_exact_and_bounded : bool :=
  asserts [
    is_ok (change ("_acme-challenge." +:+ HOST) RrTxt 30 [quoted "token"] Upsert);
    is_err (change "bad" RrTxt 30 [] Upsert)].

Definition route53_tests : list bool := [
  challenge_set_is_one_upserted_record_set_and_empty_deletes_it;
  provider_changes_are_exact_and_bounded].
Lemma route53_tests_pass : Forall (eq true) route53_tests.
Proof. vm_compute. repeat constructor. Qed.
End Route53Tests.

(** ** dns_worker.rs *)
Module WorkerTests.
Definition serving_and_challenge_roles_cannot_process_each_others_jobs : bool :=
  asserts [
    job_allowed Serving "publish_name";
    negb (job_allowed Serving "reconcile_txt");
    job_allowed Challenge "reconcile_txt";
    negb (job_allowed Challenge "publish_txt");
    job_allowed Challenge "remove_txt_all";
    negb (job_allowed Challenge "remove_records")].

Definition is_kind (expected : ProviderKind) (parsed : option ProviderKind) : bool :=
  match expected, parsed with
  | KindRoute53, Some KindRoute53 | KindCloudflare, Some KindCloudflare => true
  | _, _ => false
  end.
Definition fails (parsed : option ProviderKind) : bool := match parsed with None => true | Some _ => false end.
Definition provider_selector_is_explicit_and_rejects_unknown_values : bool :=
  asserts [
    is_kind KindRoute53 (provider_kind_parse "route53");
    is_kind KindCloudflare (provider_kind_parse "cloudflare");
    fails (provider_kind_parse "");
    fails (provider_kind_parse "CLOUDFLARE")].

Definition worker_tests : list bool := [
  serving_and_challenge_roles_cannot_process_each_others_jobs;
  provider_selector_is_explicit_and_rejects_unknown_values].
Lemma worker_tests_pass : Forall (eq true) worker_tests.
Proof. vm_compute. repeat constructor. Qed.
End WorkerTests.
