(* ===== verification/ControlTests.v ===== *)
(** * The unit tests of the control service

    The [tests] modules of receipt_signer.rs and main.rs of
    crates/bloom-relay-control/src, of
    crates/bloom-relay-store/src/s3_witness.rs and of
    crates/bloom-relay-ct/src/main.rs, run on the model. The mocked
    AWS clients are the answers the model takes of KMS and S3; a test on the
    database starts from the empty one, and its random identifiers, the clock
    and cryptography are parameters. *)

From Stdlib Require Import Ascii String Strings.Byte.
From stdpp Require Import base strings list gmap.
From S2P Require Import Prelude Protocol Db Witness Store StoreCredentials StoreChallenges StoreLifecycle StoreBootstrap StoreOutbox StoreCt.
From S2P Require Import StoreHistory StoreInvariant StoreSamples ReceiptSigner ControlApi AdminClient ControlWitnesses BrokerWitnesses.
From S2P Require Import CtWorker Fuzz ProtocolTests.

(** ** receipt_signer.rs *)
Module SignerTests.
Section tests.
Context `{Signing}.

Definition ARN : string := "arn:aws:kms:eu-central-1:123456789012:key/abcd".
Definition spki (key : SigningKey) : list byte := ED25519_SPKI_PREFIX ++ key_to_bytes (verifying_key key).
Definition public_key_output (public : list byte) : option GetPublicKeyOutput :=
  Some {| gp_key_spec := Some EccNistEdwards25519; gp_key_usage := Some SignVerify; gp_public_key := Some public |}.

Definition region_comes_from_the_key_arn : bool :=
  unwrapping (kms_region ARN) (fun region =>
  asserts [
    assert_eq region "eu-central-1";
    is_err (kms_region "alias/receipt");
    is_err (kms_region "arn:aws:s3:::bucket")]).

Definition kms_signatures_verify_with_the_kms_public_key : bool :=
  let key := signing_key Byte.x09 in
  let message := str_bytes "allocation receipt bytes" in
  let expected := signature_to_bytes (ed25519_sign key message) in
  unwrapping (signer_kms (public_key_output (spki key)) ARN) (fun signer =>
  unwrapping (sign signer (Some (Some expected)) message) (fun signature =>
  asserts [
    assert_eq (key_to_bytes (public_key signer)) (key_to_bytes (verifying_key key));
    assert_eq signature expected])).

Definition a_signature_that_does_not_verify_is_refused : bool :=
  let key := signing_key Byte.x09 in
  let other := signing_key Byte.x0a in
  let message := str_bytes "receipt" in
  let forged := signature_to_bytes (ed25519_sign other message) in
  unwrapping (signer_kms (public_key_output (spki key)) ARN) (fun signer =>
  is_err (sign signer (Some (Some forged)) message)).

Definition only_ed25519_signing_keys_are_accepted : bool :=
  is_err (signer_kms (Some {| gp_key_spec := Some OtherSpec; gp_key_usage := Some SignVerify;
    gp_public_key := Some (replicate 91 Byte.x00) |}) ARN).

Definition signer_tests : list bool := [
  region_comes_from_the_key_arn;
  kms_signatures_verify_with_the_kms_public_key;
  a_signature_that_does_not_verify_is_refused;
  only_ed25519_signing_keys_are_accepted].
End tests.
End SignerTests.

(** ** s3_witness.rs *)
Module S3Tests.
(** A mocked client: what a read answers, and a write under a condition. *)
Record MockClient := { mc_get : GetResponse; mc_put : PutCondition -> PutResponse }.
#[local] Instance mock_client : S3 := {|
  S3State := MockClient;
  s3_get := fun client => (mc_get client, client);
  s3_put := fun condition _ client => (mc_put client condition, client)
|}.
Definition QUOTE : string := string_of_list_byte [Byte.x22].
Definition tagged (tag : string) : string := QUOTE +:+ tag +:+ QUOTE.
Definition reading (answer : GetResponse) : result IoError (option RemoteRevision) :=
  (remote_read {| mc_get := answer; mc_put := fun _ => PutFailed |}).1.
Definition writing (answer : PutCondition -> PutResponse) (revision : Z) (replacing : option RemoteRevision) : result IoError RemoteWrite :=
  (remote_write revision replacing {| mc_get := GetFailed; mc_put := answer |}).1.

Definition reads_revision_and_etag_and_treats_a_missing_object_as_absent : bool :=
  asserts [
    assert_eq (reading (GetOk (Some (tagged "v1")) (Ok (str_bytes "42" ++ [Byte.x0a]))))
      (Ok (Some {| rr_revision := 42; rr_version_tag := tagged "v1" |}));
    assert_eq (reading GetNoSuchKey) (Ok None)].

Definition a_malformed_body_fails_closed : bool :=
  is_err (reading (GetOk (Some (tagged "v1")) (Ok (str_bytes "not a revision")))).

Definition is_written (expected : RemoteRevision) (r : result IoError RemoteWrite) : bool :=
  match r with Ok (Written written) => bool_decide (written = expected) | _ => false end.
Definition is_conflict (r : result IoError RemoteWrite) : bool :=
  match r with Ok WriteConflict => true | _ => false end.
(** The two rules: one replaces version v1, the other creates the object. *)
Definition conditional (condition : PutCondition) : PutResponse :=
  match condition with
  | IfMatch tag => if bool_decide (tag = tagged "v1") then PutOk (Some (tagged "v2")) else PutFailed
  | IfNoneMatch => PutOk (Some (tagged "v0"))
  end.
Definition writes_are_conditional_on_the_version_read : bool :=
  let current := {| rr_revision := 41; rr_version_tag := tagged "v1" |} in
  asserts [
    is_written {| rr_revision := 42; rr_version_tag := tagged "v2" |} (writing conditional 42 (Some current));
    is_written {| rr_revision := 1; rr_version_tag := tagged "v0" |} (writing conditional 1 None)].

Definition a_lost_race_is_a_conflict_and_other_failures_are_errors : bool :=
  asserts ((fun '(status, conflict) =>
    let r := writing (fun _ => PutStatus status) 7 None in
    if conflict : bool then is_conflict r else is_err r) <$> [(412, true); (409, true); (403, false); (500, false)]).

Definition s3_tests : list bool := [
  reads_revision_and_etag_and_treats_a_missing_object_as_absent;
  a_malformed_body_fails_closed;
  writes_are_conditional_on_the_version_read;
  a_lost_race_is_a_conflict_and_other_failures_are_errors].
Lemma s3_tests_pass : Forall (eq true) s3_tests.
Proof. vm_compute. repeat constructor. Qed.
End S3Tests.

(** ** main.rs: the configuration *)
Module ConfigTests.
Definition windows_are (validity_secs grace_secs : Z) (r : result WindowError CredentialWindows) : bool :=
  match r with
  | Ok w => (secs (validity w) =? validity_secs) && (secs (renewal_grace w) =? grace_secs)
            && (nanos (validity w) =? 0) && (nanos (renewal_grace w) =? 0)
  | Err _ => false
  end.
Definition credential_windows_default_and_reject_unsafe_values : bool :=
  asserts ([
    windows_are (secs (validity default_windows)) (secs (renewal_grace default_windows)) (credential_windows_from_env NotPresent NotPresent);
    secs (validity default_windows) =? 86400;
    secs (renewal_grace default_windows) =? 2592000;
    windows_are 43200 1209600 (credential_windows_from_env (Value "43200") (Value "1209600"));
    windows_are 86400 0 (credential_windows_from_env NotPresent (Value "0"))]
  ++ ((fun '(validity_, grace) => is_err (credential_windows_from_env (Value validity_) (Value grace))) <$>
    [("86401", "0"); ("43199", "0"); ("86400", "7776001"); ("1d", "0"); ("-1", "0"); ("", "0")])).

Definition acme_environment_configuration_is_strict_and_defaults_to_production : bool :=
  asserts ([
    assert_eq (parse_acme_environment None) (Ok Production);
    assert_eq (parse_acme_environment (Some "production")) (Ok Production);
    assert_eq (parse_acme_environment (Some "staging")) (Ok Staging)]
  ++ ((fun invalid => is_err (parse_acme_environment (Some invalid))) <$> [""; "STAGING"; "development"; "staging "])
  ++ [is_err (acme_environment_from_env NotUnicode)]).

Definition config_tests : list bool := [
  credential_windows_default_and_reject_unsafe_values;
  acme_environment_configuration_is_strict_and_defaults_to_production].
Lemma config_tests_pass : Forall (eq true) config_tests.
Proof. vm_compute. repeat constructor. Qed.
End ConfigTests.

(** ** main.rs: the API on a database *)
Module ApiTests.
Section tests.
Context `{S3} `{Signing} `{Serde} `{Base32} `{Hex}.
Context (env : ApiEnv) (fresh : nat -> Uuid) (now_ms : Z).

(** A test that runs on: [None] is a failed assertion or [unwrap]. *)
Definition TestM (A : Type) : Type := nat * Api -> option (A * (nat * Api)).
#[local] Instance test_ret : MRet TestM := fun _ a s => Some (a, s).
#[local] Instance test_bind : MBind TestM := fun _ _ f m s =>
  match m s with Some (a, s') => f a s' | None => None end.
Definition assert (b : bool) : TestM unit := fun s => if b then Some (tt, s) else None.
Definition some {A} (o : option A) : TestM A := fun s => a ← o; Some (a, s).
Definition new_v4 : TestM Uuid := fun s => Some (fresh s.1, (S s.1, s.2)).

(** A call of [Store], unwrapped. *)
Definition store {A} (m : Z -> Tx A) : TestM A := fun s =>
  match run_tx (n_ack env s.1) (m (p_now s.2)) (p_world s.2) with
  | (Ok a, w) => Some (a, (S s.1, {| p_now := p_now s.2; p_world := w; p_log := p_log s.2 |}))
  | (Err _, _) => None
  end.
Definition store_allocate (op : Uuid) (key : SigningKey) (placement : string) : TestM Allocation := fun s =>
  store (fun now => allocate_tx now op (key_to_bytes (verifying_key key)) placement (n_uuid env s.1) (n_label env s.1)) s.
Definition store_status (id : Uuid) : TestM Allocation := fun s =>
  a ← allocation_status id (api_db s.2); Some (a, s).

(** The tests name no installation header. *)
Definition no_header (_ : string) : option Uuid := None.
Definition state_with (key : SigningKey) : AppState :=
  {| st_config := connect_config; st_signer := Local key; st_audience := "relay-control.bloom.directory"; st_placement := "fixture" |}.
Definition send (key : SigningKey) (request : ApiRequest) : TestM (result ApiError ApiResponse) := fun s =>
  Some (handle no_header (state_with key) request env s).
Definition status (r : result ApiError ApiResponse) : Z :=
  match r with Ok (StatusOnly code) => code | Ok _ => 200 | Err error => e_status error end.

Definition signed {T} `{Serialize T} (id op : Uuid) (body : T) (action : Action) (key : SigningKey) : TestM (SignedRequest T) :=
  canonical ← some (jcs_to_vec (to_json body));
  nonce ← new_v4;
  let claims := {| c_version := WIRE_VERSION; c_installation_id := id; c_scope := SurfaceAdmin; c_action := action;
    c_generation := 0; c_audience := "relay-control.bloom.directory"; c_operation_id := op; c_nonce := uuid_to_string nonce;
    c_expires_at_ms := now_ms + 30000; c_body_sha256 := sha256_hex canonical |} in
  message ← some (Prelude.result_ok (signing_bytes claims));
  mret {| r_claims := claims; r_body := body; r_signature := base64url_encode (signature_to_bytes (ed25519_sign key message)) |}.

Definition dns_challenge_ensure_and_readiness_follow_the_value_set : TestM unit :=
  let repeat_char b := string_of_list_byte (replicate 43 b) in
  let key := signing_key Byte.x17 in
  op ← new_v4;
  allocation ← store_allocate op key "fixture";
  let id := a_installation_id allocation in
  _ ← store (fun now => register_acme_account_tx connect_config now id "https://acme-v02.api.letsencrypt.org/acme/acct/123");
  let token := repeat_char Byte.x74 in
  op ← new_v4;
  hash ← some (hex_decode (sha256_hex (str_bytes token)));
  _ ← store (fun now => issue_bearer_tx connect_config now id op "dns_challenge" hash 3600);
  let bearer t := {| hm_authorization := Some ("Bearer " +:+ t); hm_installation := None |} in
  let ensure t value := send key (PostDnsChallenge (bearer t)
    {| de_version := WIRE_VERSION; de_installation_id := id; de_txt_value := value |}) in
  let ready value revision := send key (GetChallengeReady id revision value (bearer token)) in
  let a := repeat_char Byte.x61 in
  let b := repeat_char Byte.x62 in
  let c := repeat_char Byte.x63 in
  let other := repeat_char Byte.x78 in
  r ← ensure token a; _ ← assert (status r =? 409);
  r ← ensure other a; _ ← assert (status r =? 401);
  _ ← store (fun now => mark_dns_ready_tx now id);
  r ← ensure other a; _ ← assert (status r =? 401);
  r ← ensure token a; _ ← assert (status r =? 200);
  first ← some (match r with Ok (OfChallengeState body) => Some body | _ => None end);
  r ← ensure token a;
  again ← some (match r with Ok (OfChallengeState body) => Some body | _ => None end);
  _ ← assert (ds_revision again =? ds_revision first);
  r ← ready a (ds_revision first); _ ← assert (status r =? 202);
  marked ← store (fun _ => mark_challenge_reconciled_tx id (ds_revision first));
  _ ← assert marked;
  r ← ready a (ds_revision first); _ ← assert (status r =? 204);
  r ← ensure token b; _ ← assert (status r =? 200);
  r ← ensure token c; _ ← assert (status r =? 409);
  r ← ensure token "not-a-value"; _ ← assert (status r =? 400);
  r ← ready a u64_max; assert (status r =? 400).

(** The status body sent to the retirement route is read as its body, which
    has the same fields. *)
Definition as_retirement (request : SignedRequest InstallationStatusRequest) : SignedRequest RetireRequest :=
  {| r_claims := r_claims request; r_body := {| rr_installation_id := is_installation_id (r_body request) |};
     r_signature := r_signature request |}.
Definition admin_status_and_retirement_require_bound_signature_and_retry_safely : TestM unit :=
  let key := signing_key Byte.x11 in
  op ← new_v4;
  allocation ← store_allocate op key "fixture";
  let id := a_installation_id allocation in
  op ← new_v4; stranger ← new_v4;
  wrong ← signed id op {| is_installation_id := stranger |} InstallationStatus key;
  r ← send key (PostStatus wrong); _ ← assert (status r =? 401);
  op ← new_v4;
  asked ← signed id op {| is_installation_id := id |} InstallationStatus key;
  r ← send key (PostStatus asked); _ ← assert (status r =? 200);
  observed ← some (match r with Ok (OfAllocation body) => Some body | _ => None end);
  _ ← assert (bool_decide (a_hostname observed = a_hostname allocation));
  op ← new_v4;
  status_for_retire ← signed id op {| is_installation_id := id |} InstallationStatus key;
  r ← send key (PostRetire (as_retirement status_for_retire)); _ ← assert (status r =? 401);
  current ← store_status id;
  _ ← assert (bool_decide (a_state current = PendingDns));
  retirement ← new_v4;
  first ← signed id retirement {| rr_installation_id := id |} RetireInstallation key;
  r ← send key (PostRetire first); _ ← assert (status r =? 202);
  second ← signed id retirement {| rr_installation_id := id |} RetireInstallation key;
  r ← send key (PostRetire second); _ ← assert (status r =? 202);
  op ← new_v4;
  asked ← signed id op {| is_installation_id := id |} InstallationStatus key;
  r ← send key (PostStatus asked);
  observed ← some (match r with Ok (OfAllocation body) => Some body | _ => None end);
  assert (bool_decide (a_state observed = Retired)).

Definition api_tests (start : nat * Api) : list bool :=
  let passes (test : TestM unit) := match test start with Some _ => true | None => false end in [
  passes dns_challenge_ensure_and_readiness_follow_the_value_set;
  passes admin_status_and_retirement_require_bound_signature_and_retry_safely].
End tests.
End ApiTests.

(** ** The concrete service: the empty database, without other requests. *)
Module ControlTestConcrete.
Import TestConcrete.
#[export] Existing Instance ConcreteS3.s3.
#[export] Instance hex : Hex := fun s => Some (pairs (str_bytes s)).
Definition env : ApiEnv :=
  {| n_others := fun _ s => s; n_fault := fun _ => None; n_ack := fun _ => idle_ack; n_clock := clock_ms;
     n_nonce := nonce_bytes; n_uuid := fun n => N.of_nat (100 + n); n_label := fun n => replicate 16 (byte_of_Z (Z.of_nat n));
     n_kms := fun _ _ => None |}.
Definition fresh (n : nat) : Uuid := N.of_nat (1000 + n).
Definition start : nat * Api :=
  (0%nat, {| p_now := 1700000007000000; p_world := {| w_db := empty_db; w_witness := None |}; p_log := [] |}).
Definition control_tests : list bool := SignerTests.signer_tests ++ ApiTests.api_tests env fresh (clock_ms 0) start.
Lemma control_tests_pass : Forall (eq true) control_tests.
Proof. vm_compute. repeat constructor. Qed.
End ControlTestConcrete.

(** ** The CT worker: a feed of two certificates that can be turned off, and a
    sink that accepts every alert. *)
Module CtTests.
Section test.
Context `{S3} `{Crypto} `{Base32}.
Context (allocation_op id : Uuid) (label : list byte) (source : string) (now : Z).

Definition repeat_char (b : byte) (n : nat) : string := string_of_list_byte (replicate n b).
Definition fixture_entries (hostname : string) : CtBatch :=
  {| ba_source := source;
     ba_entries := [{| en_position := 1; en_hostname := hostname; en_key_fingerprint := repeat_char Byte.x61 64 |};
                    {| en_position := 2; en_hostname := hostname; en_key_fingerprint := repeat_char Byte.x62 64 |}] |}.
Definition fixture_token : SecretFile :=
  {| sf_is_file := true; sf_len := 24; sf_mode := 384; sf_content := Some "fixturetokenfixturetoken" |}.
Definition fixture (hostname : string) (feed_down : bool) : CtEnv :=
  {| u_others := fun _ s => s; u_fault := fun _ => None;
     u_ack := fun _ => {| ae_lock := Ok tt; ae_rivals := fun _ s => s; ae_write := NoFault |};
     u_token := fun _ _ => Some fixture_token; u_agent := fun _ => true;
     u_feed := fun _ _ _ => if feed_down then None else Some (fixture_entries hostname);
     u_post := fun _ _ _ _ => Some 202 |}.
Definition fixture_worker : Worker :=
  let endpoint url := {| ep_url := url; ep_ca_pem := []; ep_token_path := "token" |} in
  {| w_source := source; w_feed := endpoint "https://localhost:8443"; w_alert := endpoint "https://localhost:8443/alerts" |}.

(** The installation of the test, with its expected certificate. *)
Definition prepared : Tx Allocation :=
  allocation ← allocate_tx now allocation_op (replicate 32 Byte.x03) "fixture" id label;
  let id := a_installation_id allocation in
  let account := "https://acme-v02.api.letsencrypt.org/acme/acct/123" in
  _ ← register_acme_account_tx connect_config now id account;
  _ ← mark_dns_ready_tx now id;
  _ ← record_expected_certificate_tx now id
        {| cm_hostname := a_hostname allocation; cm_acme_account_uri := account; cm_key_fingerprint := repeat_char Byte.x61 64;
           cm_lineage := "fixture"; cm_not_before_ms := 1; cm_not_after_ms := 2000000000000 |};
  _ ← ensure_ct_source_tx now source;
  mret allocation.

(** [UPDATE ct_feed_checkpoints SET observed_at=now()-interval '20 minutes']. *)
Definition age_checkpoint : Tx unit :=
  row ← tx_gets (fun d => checkpoints d !! source);
  match row with
  | Some (position, _) => write_checkpoint source position (now - minutes 20)
  | None => mret tt
  end.
Definition aged (s : Ct) : Ct := in_world (exec_tx age_checkpoint (t_world s)).2 s.

Definition is_issuance (p : Post) : bool := match p.2 with UnexpectedIssuance _ _ _ _ => true | FeedLag _ _ => false end.
Definition none_pending {A} (r : result StoreError (list A)) : bool := match r with Ok [] => true | _ => false end.

Definition executable_worker_consumes_feed_and_delivers_issuance_and_lag_alerts : bool :=
  unwrapping (prepared empty_db) (fun '(allocation, d) =>
  let worker := fixture_worker in
  let start := {| t_now := now; t_world := {| w_db := d; w_witness := None |}; t_sink := [] |} in
  let (r1, s1) := tick worker (fixture (a_hostname allocation) false) (0%nat, start) in
  let (r2, s2) := tick worker (fixture (a_hostname allocation) true) (s1.1, aged s1.2) in
  asserts [
    is_ok r1;
    assert_eq (ct_checkpoint source (ct_db s1.2)) (Ok (Some 2));
    match t_sink s1.2 with [p] => is_issuance p | _ => false end;
    none_pending (pending_ct_alerts source 10 (ct_db s1.2));
    is_ok r2;
    match t_sink s2.2 with [_; p] => negb (is_issuance p) | _ => false end;
    none_pending (pending_ct_lag_alerts source 10 (ct_db s2.2))]).
End test.

#[local] Existing Instance ConcreteS3.s3.
Definition ct_tests : list bool :=
  [executable_worker_consumes_feed_and_delivers_issuance_and_lag_alerts 41%N 42%N (replicate 16 Byte.x07) "fixture-1" (at_second 5)].
Lemma ct_tests_pass : Forall (eq true) ct_tests.
Proof. vm_compute. repeat constructor. Qed.
End CtTests.
