(* ===== verification/UnitTests.v ===== *)
(** * The unit tests of the clients and of the diagnostics crate

    The tests of crates/bloom-relay-client/src/lib.rs, of
    crates/bloom-relay-admin-client/src/lib.rs and of
    crates/bloom-relay-observe/src/lib.rs, evaluated on the model. PEM parsing
    is a parameter, and the bundle of the clients' tests, with its damaged item
    and its private key, are arguments. The page of the metrics exporter is not
    modelled. *)

From Stdlib Require Import Ascii String Strings.Byte.
From stdpp Require Import base strings list.
From S2P Require Import Prelude Protocol Db IpText ReceiptSigner Fuzz ControlApi AdminClient ClientAddr BrokerClient Transport Operations.
From S2P Require Import ProtocolTests.

Definition DAY_MS : Z := 86400000.

(** ** bloom-relay-client *)
Module BrokerTests.
Definition pinned_roots_load_every_certificate_or_none `{PemParser} (bundle damaged_item key_item : list byte) : bool :=
  unwrapping (pinned_roots bundle) (fun roots =>
  asserts [
    Nat.eqb (List.length roots) 2;
    is_err (pinned_roots (bundle ++ damaged_item));
    is_err (pinned_roots []);
    is_err (pinned_roots (bundle ++ key_item))]).

Definition http_refusals_are_not_reported_as_transport_failures : bool :=
  asserts [
    match control_error (StatusCode 401) with Refused 401 => true | _ => false end;
    match control_error OtherFailure with Transport => true | _ => false end].

Definition upstream_is_a_configured_loopback_port_never_a_remote_address (installation : Uuid) : bool :=
  unwrapping_option (parse_socket_addr "127.0.0.1:443") (fun gateway =>
  let config := {| tc_gateway := gateway; tc_control_server_name := "relay-control.bloom.directory";
    tc_hostname := "abcdefghijklmnopqrstuv2345.relay.bloom.directory"; tc_installation_id := installation;
    tc_credential_path := "/protected/test-token" |} in
  asserts (((fun rejected => unwrapping_option (parse_socket_addr rejected) (fun upstream => is_err (tunnel_new config upstream))) <$>
    ["127.0.0.1:0"; "0.0.0.0:18735"; "10.0.0.1:18735"; "[::1]:18735"])
  ++ [is_ok (tunnel_new config CEREMONY_UPSTREAM);
      unwrapping_option (parse_socket_addr "127.0.0.1:38735") (fun upstream => is_ok (tunnel_new config upstream))])).

Definition credential_expiry_allows_only_bounded_future_clock_offset : bool :=
  let now := 1000000 in
  let lifetime := DAY_MS in
  asserts [
    trusted_response_expiry (now + lifetime + TRUSTED_RESPONSE_CLOCK_SKEW_MS) now lifetime;
    negb (trusted_response_expiry (now + lifetime + TRUSTED_RESPONSE_CLOCK_SKEW_MS + 1) now lifetime);
    negb (trusted_response_expiry now now lifetime)].

Definition retired_tunnel_stream_failure_restarts_shared_connection : bool :=
  asserts [
    match into_fatal_error (Stream (Err TunnelRetired)) with Some TunnelRetired => true | _ => false end;
    match into_fatal_error (Stream (Err Rejected)) with None => true | Some _ => false end;
    match into_fatal_error (Stream (Err Transport)) with None => true | Some _ => false end].
End BrokerTests.

(** ** bloom-relay-admin-client *)
Module AdminTests.
Definition is_none {A} (o : option A) : bool := match o with None => true | Some _ => false end.
Definition admin_pinned_roots_load_every_certificate_or_none `{PemParser} (bundle damaged_item key_item : list byte) : bool :=
  unwrapping_option (Admin.pinned_roots bundle) (fun roots =>
  asserts [
    Nat.eqb (List.length roots) 2;
    is_none (Admin.pinned_roots (bundle ++ damaged_item));
    is_none (Admin.pinned_roots []);
    is_none (Admin.pinned_roots (bundle ++ key_item))]).

Definition http_refusals_are_not_reported_as_outages : bool :=
  asserts [
    match AdminClient.control_error (StatusCode 503) with AdminClient.Refused 503 => true | _ => false end;
    assert_eq (Admin.error_text (AdminClient.Refused 503)) "relay control refused the request (HTTP 503)";
    match AdminClient.control_error OtherFailure with ControlUnavailable => true | _ => false end].

Definition trusted_response_expiry_allows_only_bounded_future_clock_offset : bool :=
  let now := 1000000 in
  let lifetime := 60000 in
  asserts [
    trusted_response_expiry (now + lifetime + TRUSTED_RESPONSE_CLOCK_SKEW_MS) now lifetime;
    negb (trusted_response_expiry (now + lifetime + TRUSTED_RESPONSE_CLOCK_SKEW_MS + 1) now lifetime);
    negb (trusted_response_expiry now now lifetime)].
End AdminTests.

(** A parser of one-byte items. *)
Module OneByteItems.
Definition item (b : byte) : PemItem :=
  if Byte.eqb b Byte.x63 then PemCertificate [b] else if Byte.eqb b Byte.x6b then PemPrivateKey else PemMalformed.
#[export] Instance parser : PemParser := fun pem => item <$> pem.
End OneByteItems.
Import OneByteItems.

Definition client_tests : list bool := [
  BrokerTests.pinned_roots_load_every_certificate_or_none [Byte.x63; Byte.x63] [Byte.x78] [Byte.x6b];
  BrokerTests.http_refusals_are_not_reported_as_transport_failures;
  BrokerTests.upstream_is_a_configured_loopback_port_never_a_remote_address 31%N;
  BrokerTests.credential_expiry_allows_only_bounded_future_clock_offset;
  BrokerTests.retired_tunnel_stream_failure_restarts_shared_connection;
  AdminTests.admin_pinned_roots_load_every_certificate_or_none [Byte.x63; Byte.x63] [Byte.x78] [Byte.x6b];
  AdminTests.http_refusals_are_not_reported_as_outages;
  AdminTests.trusted_response_expiry_allows_only_bounded_future_clock_offset].
Lemma client_tests_pass : Forall (eq true) client_tests.
Proof. vm_compute. repeat constructor. Qed.

(** ** bloom-relay-observe *)
Module ObserveTests.
Definition diagnostics_are_loopback_only : bool :=
  asserts [
    is_ok (private_bind "127.0.0.1:9100");
    is_ok (private_bind "[::1]:9100");
    is_err (private_bind "0.0.0.0:9100")].

(** The health listener, before and after [set_ready(true)]. *)
Definition private_health_listener_serves_readiness (metrics health_addr : SocketAddr) : bool :=
  unwrapping (install_on metrics health_addr true) (fun '(_, _, ready) =>
  asserts [
    health_status "/health/ready" ready =? 503;
    health_status "/health/ready" (health_set_ready true ready) =? 200]).

Definition observe_tests : list bool := [
  diagnostics_are_loopback_only;
  private_health_listener_serves_readiness (V4 2130706433, 40001) (V4 2130706433, 40002)].
Lemma observe_tests_pass : Forall (eq true) observe_tests.
Proof. vm_compute. repeat constructor. Qed.
End ObserveTests.
